(* ===== verification/_CoqProject ===== *)
-Q . S2P
Prelude.v
Mem.v
Cstring.v
Env.v
Ring.v
Pipe.v
Grep.v
Sleeplock.v
Bytes.v
Bio.v
Cache.v
Log.v
Kalloc.v
Vm.v
Proc.v
Proctree.v
Journal.v
Inode.v
Fileio.v
Dir.v
File.v
Sysfile.v
Shell.v
Shellparse.v
Shellrun.v
Printf.v
Uart.v
Console.v
Vault.v
Umalloc.v
Kmalloc.v
Table.v
Spinlock.v
Virtio.v
Riscv.v
Copyinstr.v
Uvm.v
Uvmfree.v
Syscall.v
Trap.v
Sched.v
Execmem.v
Exec.v
Execok.v
Mkfs.v
Mkimage.v
Mkread.v
Ulib.v
Usys.v
Tools.v
Toolsok.v
Mkvault.v
Grepsys.v
