(* ===== verification/Prelude.v ===== *)
(** * A verification development of the xv6 kernel kept in this repository

    The repository holds a teaching copy of xv6 for RISC-V under
    src/Kernel/Xv6, with changes of its own: a token-bucket scheduler (the
    fatcat scheduler), pages mapped for a user-level memory pool (the
    shrimpy calls), files that are closed to reading (the vaults), a static
    allocator inside the kernel and a list of processes. This library models
    the kernel, its file-system tool and its user programs, and
    proves what each part promises to the parts above it. Paths below are
    relative to src/Kernel/Xv6, and to its kernel/ where no directory is named.

    ** How the code is modelled

    A kernel function is a function on the state of its component: [M S A]
    below, which returns a value or stops. The stops are values, so that errors
    are results to reason about: [Panic] is panic(msg); [Fault] is an access the
    C code does not guard against; [Sleep c] is going to sleep on a channel;
    [NoFuel] is a loop of the model that has used up its bound. No theorem is
    content with saying what a result is if there is one: each says that the run
    returns, or names the stop, and the bound of every loop is proved to suffice ([NoFuel] never
    happens) from the structure the loop walks: the length of a list, the number
    of pages, blocks or buffers, the bytes of a line.

    A w-bit integer is a [Z] in its range, with its wrap-around ([u8] to [u64],
    [i16], [i32]) written where C has it. A pointer into bytes is an address
    ([Mem]), a pointer to an element of a table is its index. A struct kept in
    the bytes of a disk block is read and written there ([Bytes]).

    The section between acquire and release of a spin lock is one atomic step
    of its component; [Spinlock] proves that the locks give that exclusion. A
    context switch ends a definition, and the rest of the function is a
    definition of its own, so that every interleaving at a sleep, a yield or an
    interrupt is a sequence of steps of a relation. Messages on the console are
    left out, except in the parts that are about them.

    ** The parts

    Common ground: [Prelude] (integers, outcomes, the monad and its rules),
    [Mem] (byte-addressed memory), [Bytes] (structs in blocks), [Ring] (queues
    in circular buffers), [Cstring] (string.c).

    Devices and traps: [Riscv] (riscv.h, start.c, plic.c), [Trap] (trap.c),
    [Syscall] (syscall.c, sysproc.c), [Uart] (uart.c), [Console] (console.c),
    [Printf] (printf.c, user/printf.c), [Virtio] (virtio_disk.c).

    Memory: [Kalloc] (kalloc.c), [Vm] and [Copyinstr] (vm.c), [Uvm] and
    [Uvmfree] (vm.c: whole address spaces, grown, copied and freed over the
    page allocator), [Kmalloc] (malloc.c), [Table] (table.c), [Umalloc]
    (user/umalloc.c).

    Processes: [Proc] (proc.c, each operation), [Proctree] (proc.c, all of them
    interleaved), [Sched] (proc.c: the loop of the scheduler, forkret and
    procdump), [Spinlock] (spinlock.c), [Sleeplock] (sleeplock.c), [Execmem],
    [Exec] and [Execok] (exec.c: the page tables it makes and drops, the code,
    its theorem).

    The file system, from the disk up: [Bio] (bio.c), [Log] (log.c), [Inode],
    [Fileio] and [Dir] (fs.c), [File] (file.c), [Pipe] (pipe.c), [Sysfile]
    (sysfile.c), [Vault] (the vault calls of proc.c and sysproc.c).

    The file-system tool (mkfs/mkfs.c): [Mkfs] the code, [Mkimage] the image it
    makes, [Mkread] the kernel reading that image.

    User programs: [Grep] and [Grepsys] (user/grep.c: the matcher and the filter,
    the program), [Shell], [Shellparse] and [Shellrun]
    (user/sh.c), [Ulib] (user/ulib.c on memory), [Usys] (user/ulib.c and
    user/printf.c on system calls), [Tools] and [Toolsok] (cat, wc, cp, touch,
    echo, rm, mkdir, ln, kill, sleep, stat, ls, ps, init and the other small
    programs, and what they do), [Mkvault] (user/mkvault.c).

    ** The interfaces

    A part is proved against what it needs of the parts under it, a class with
    its laws, and not against their code:

    - [Cache.BlockCache]: what log.c needs of bio.c. [Bio] is an instance, so
      the theorems of [Log] hold of the buffer cache that is there.
    - [Journal.Journal], [Journal.CopyEnv]: what fs.c needs of the log and of
      either_copyin and either_copyout. Between begin_op and end_op a block
      reads as it was last written. Buffers and log space are finite: [wp]
      states what holds of a run up to those two panics ([exhausted]).
    - [Env.Env]: what pipes and devices need of processes and user memory; its
      laws [Env.EnvLaws] say that a copy of a byte stores or loads that byte.
    - [File.SysEnv]: pipes, devices, arguments and exec, for the open files.
    - [Proc.FsEnv], [Syscall.FileCalls], [Trap.Drivers], [Riscv.Phys],
      [Virtio.Mmio], [Umalloc.Sbrk]: the file system for proc.c, the calls on
      files for the dispatch, the device handlers for trap.c, memory-mapped
      registers, and the system call under the user allocator. The laws
      [Trap.CpuStays]: the calls and the handlers under a trap leave the CPU
      with the process it is running.
    - [Exec.ExecFs] with its laws [Execok.ExecFsLaws]: the inode calls of exec,
      in the phases of a transaction.

    A user program is not proved against one kernel: it runs on the list of
    answers its system calls will get, and its theorems hold for every list
    ([Usys]).

    Each class has an executable instance, on which the theorems are applied
    to concrete inputs.

    ** What the theorems show

    - Crash safety ([Log]): a crash at any write of commit leaves all or nothing
      of the transaction; recovery can itself crash; commit installs what was
      logged; the reservation of begin_op suffices, and three admitted calls
      overrun a log as short as the one mkfs makes.
    - The disk ([Bio], [Virtio]): bread returns the current block in its only
      buffer; the driver implements whole-block transfers under every
      interleaving of processes, interrupts and the device, of the block its
      32-bit sector number comes to.
    - Memory ([Kalloc], [Vm], [Umalloc], [Kmalloc], [Cstring]): page and block
      allocators refine sets of disjoint pieces; page tables stay well formed
      and map what was asked; the copies between kernel and user move exactly
      the bytes of the pages the user may use; the hash table of the kernel
      works as a map only if its pointers, which nothing sets, are all equal.
    - Address spaces ([Uvm], [Uvmfree], [Execmem], [Execok]): growing, copying
      and freeing one and exec account for every page, on every failure; exec
      replaces the memory of the process by the segments, a guard page and the
      stack with the arguments, or leaves the process as it was.
    - Processes ([Proc], [Proctree], [Spinlock]): every process is below init
      in a tree without cycles, whatever operations run; exact effects of wait,
      wakeup and of the token bucket; a process that sleeps with an empty bucket
      is not woken, killed or scheduled until ps changes its state; at most
      one CPU is in the section of a lock; a pass of the scheduler gives the CPU
      to every process that is ready.
    - Traps ([Trap], [Syscall]): the way back to user space restores what
      user space needs, and lets no killed process through but after a yield;
      an ecall runs the handler its number names, and an unknown number changes
      no more than the counter and the result.
    - Files ([Fileio], [Dir], [Sysfile], [Pipe]): reading and writing bytes of
      files, the block bitmap, directories, the counts of open files, pipes as
      queues, which lose a byte only to a reader whose buffer is not there.
    - The file-system tool ([Mkimage], [Mkread]): the image is a well-formed file
      system, in which the kernel finds every file and reads its bytes.
    - The console and the shell: line discipline, serial queue, printed numbers,
      the parser inverts printing and always ends, the shell runs the tree it
      has parsed, with the processes, pipes and waits the tree asks for, grep prints the lines that match.
    - The other programs ([Toolsok], [Mkvault], [Ulib]): whatever the kernel
      answers none of them faults; cat and cp hand on the bytes they read, wc
      counts what it reads, init keeps one shell until a
      call it depends on fails, and cp and touch never stop
      when the calls they make fail; the library's copies of the memory and
      string routines agree with the kernel's.

    The disagreements between code and intent that the proofs brought out are
    listed with the development; where a theorem states one, it says what the
    code does.

    ** What is not modelled

    Assembly (entry.S, kernelvec.S, swtch.S, trampoline.S) is represented by
    the state it saves and restores. main.c only calls the initialisers.
    ramdisk.c is not built. The tests (usertests, grind, forktest, stressfs)
    exercise the kernel and promise nothing. The C++ sources are
    empty, and the rest of the repository is scripts and notes. The
    student's linked_list.c is a second copy of malloc.c with a main. Weak
    memory, timing and the baud rate of the serial port are out of reach of
    the model; the devices do what their specifications say. *)

From stdpp Require Import base gmap list strings.
From Stdlib Require Import ZArith Lia.

Declare Scope xv6_scope.
Delimit Scope xv6_scope with xv6.
Open Scope xv6_scope.
Open Scope Z_scope.

(** ** Machine integers

    A w-bit C integer is a [Z]; the conversions write the wrap-around out. *)

Definition u8 (z : Z) : Z := z mod 2 ^ 8.
Definition u16 (z : Z) : Z := z mod 2 ^ 16.
Definition u32 (z : Z) : Z := z mod 2 ^ 32.
Definition u64 (z : Z) : Z := z mod 2 ^ 64.

(** Two's complement reinterpretation, as gcc defines the narrowing
    conversions to [int], [short] and (signed) [char]. *)
Definition sgn (w z : Z) : Z :=
  let r := z mod 2 ^ w in if r <? 2 ^ (w - 1) then r else r - 2 ^ w.
Definition i16 (z : Z) : Z := sgn 16 z.
Definition i32 (z : Z) : Z := sgn 32 z.

(** C's truth value of an integer. *)
Definition nz (z : Z) : bool := negb (z =? 0).
Definition b2z (b : bool) : Z := if b then 1 else 0.

(** ** Outcomes of kernel code

    A kernel function runs on a state [S]; it returns a value, or it stops:
    [panic(msg)], a machine fault the C code does not guard against (a null or
    wild dereference), going to sleep on a channel until another process
    calls [wakeup], or the exhaustion of the fuel of a loop the model bounds. *)

Inductive stop : Type :=
  | Panic (msg : string)
  | Fault (msg : string)
  | Sleep (chan : Z)
  | NoFuel.

Inductive res (S A : Type) : Type :=
  | Ok (a : A) (s : S)
  | Stop (e : stop) (s : S).
Arguments Ok {S A} _ _.
Arguments Stop {S A} _ _.

Definition M (S A : Type) : Type := S -> res S A.

(** How a run ended: [None] when it returned. *)
Definition outcome {S A} (r : res S A) : option stop :=
  match r with Ok _ _ => None | Stop e _ => Some e end.

Definition ret {S A} (a : A) : M S A := fun s => Ok a s.
Definition bind {S A B} (m : M S A) (k : A -> M S B) : M S B :=
  fun s => match m s with
           | Ok a s' => k a s'
           | Stop e s' => Stop e s'
           end.
Definition get {S} : M S S := fun s => Ok s s.
Definition gets {S A} (f : S -> A) : M S A := fun s => Ok (f s) s.
Definition put {S} (s' : S) : M S unit := fun _ => Ok tt s'.
Definition modify {S} (f : S -> S) : M S unit := fun s => Ok tt (f s).
Definition halt {S A} (e : stop) : M S A := fun s => Stop e s.
Definition panic {S A} (msg : string) : M S A := halt (Panic msg).
Definition fault {S A} (msg : string) : M S A := halt (Fault msg).

Arguments panic {S A} msg%_string.
Arguments fault {S A} msg%_string.

Notation "'let*' x ':=' m 'in' k" := (bind m (fun x => k))
  (at level 10, x pattern, m at level 200, k at level 200) : xv6_scope.
Notation "m ;; k" := (bind m (fun _ => k))
  (at level 100, right associativity) : xv6_scope.

Definition when {S} (b : bool) (m : M S unit) : M S unit := if b then m else ret tt.

(** [zoom] runs the code of a component on the part of a larger state that
    belongs to the component. *)
Record lens (S T : Type) : Type := Lens { view : S -> T; over : T -> S -> S }.
Arguments Lens {S T} _ _.
Arguments view {S T} _ _.
Arguments over {S T} _ _ _.

Definition zoom {S T A} (l : lens S T) (m : M T A) : M S A :=
  fun s => match m (view l s) with
           | Ok a t => Ok a (over l t s)
           | Stop e t => Stop e (over l t s)
           end.

(** A [for] loop over a list of index values, without early exit. *)
Fixpoint for_each {S A} (l : list A) (f : A -> M S unit) : M S unit :=
  match l with
  | [] => ret tt
  | x :: l => f x ;; for_each l f
  end.

(** A [for] loop whose body may leave the function with a value. *)
Fixpoint for_until {S A B} (l : list A) (f : A -> M S (option B)) : M S (option B) :=
  match l with
  | [] => ret None
  | x :: l =>
      let* r := f x in
      match r with
      | Some b => ret (Some b)
      | None => for_until l f
      end
  end.

(** ** Running a computation: the predicates of the specifications *)

Definition runs {S A} (m : M S A) (s : S) (a : A) (s' : S) : Prop := m s = Ok a s'.

Lemma bind_Ok {S A B} (m : M S A) (k : A -> M S B) s b s' :
  bind m k s = Ok b s' <-> exists a s1, m s = Ok a s1 /\ k a s1 = Ok b s'.
Proof. unfold bind. destruct (m s); naive_solver. Qed.

Lemma bind_Stop {S A B} (m : M S A) (k : A -> M S B) s e s' :
  bind m k s = Stop e s' <->
  m s = Stop e s' \/ exists a s1, m s = Ok a s1 /\ k a s1 = Stop e s'.
Proof. unfold bind. destruct (m s); naive_solver. Qed.

Lemma bind_ext {S A B} (m : M S A) (k k' : A -> M S B) s :
  (forall a s1, m s = Ok a s1 -> k a s1 = k' a s1) -> bind m k s = bind m k' s.
Proof. intros Hk. unfold bind. destruct (m s); [by apply Hk | done]. Qed.

Lemma bind_run {S A B} (m : M S A) (k : A -> M S B) s a s1 :
  m s = Ok a s1 -> bind m k s = k a s1.
Proof. unfold bind. by intros ->. Qed.

Lemma bind_halt {S A B} (m : M S A) (k : A -> M S B) s e s1 :
  m s = Stop e s1 -> bind m k s = Stop e s1.
Proof. unfold bind. by intros ->. Qed.

Lemma bind_assoc {S A B C} (m : M S A) (f : A -> M S B) (g : B -> M S C) s :
  bind (bind m f) g s = bind m (fun a => bind (f a) g) s.
Proof. unfold bind. by destruct (m s). Qed.

(** A computation preserves a predicate on states when it holds of the state
    the computation leaves, however it ends. *)
Definition preserves {S A} (P : S -> Prop) (m : M S A) : Prop :=
  forall s, P s -> match m s with Ok _ s' => P s' | Stop _ s' => P s' end.

Section preserves.
Context {S : Type} (P : S -> Prop).

Lemma preserves_ret {A} (a : A) : preserves P (ret a).
Proof. intros s; auto. Qed.

Lemma preserves_bind {A B} (m : M S A) (k : A -> M S B) :
  preserves P m -> (forall a, preserves P (k a)) -> preserves P (bind m k).
Proof.
  intros Hm Hk s Hs. specialize (Hm s Hs). unfold bind.
  destruct (m s); [by apply Hk | done].
Qed.

Lemma preserves_halt {A} e : preserves P (@halt S A e).
Proof. intros s; auto. Qed.

Lemma preserves_get : preserves P (@get S).
Proof. intros s; auto. Qed.

Lemma preserves_gets {A} (f : S -> A) : preserves P (gets f).
Proof. intros s; auto. Qed.

Lemma preserves_modify f : (forall s, P s -> P (f s)) -> preserves P (modify f).
Proof. intros Hf s; simpl; auto. Qed.

Lemma preserves_when b m : preserves P m -> preserves P (when b m).
Proof. destruct b; simpl; auto using preserves_ret. Qed.

Lemma preserves_for_each {A} (l : list A) f :
  (forall a, preserves P (f a)) -> preserves P (for_each l f).
Proof.
  intros Hf. induction l; simpl; auto using preserves_ret, preserves_bind.
Qed.

Lemma preserves_for_until {A B} (l : list A) (f : A -> M S (option B)) :
  (forall a, preserves P (f a)) -> preserves P (for_until l f).
Proof.
  intros Hf. induction l; simpl; [apply preserves_ret|].
  apply preserves_bind; [done|]. intros []; auto using preserves_ret.
Qed.
End preserves.

Create HintDb xv6.
Create Rewrite HintDb xv6.
#[export] Hint Resolve preserves_ret preserves_bind preserves_halt preserves_get
  preserves_gets preserves_modify preserves_when preserves_for_each
  preserves_for_until : xv6.

(** ** Tactics *)

(** Turn boolean comparisons of [Z] in the context into propositions. *)
Ltac bool_to_prop :=
  repeat match goal with
  | H : (_ =? _) = true |- _ => apply Z.eqb_eq in H
  | H : (_ =? _) = false |- _ => apply Z.eqb_neq in H
  | H : (_ <? _) = true |- _ => apply Z.ltb_lt in H
  | H : (_ <? _) = false |- _ => apply Z.ltb_ge in H
  | H : (_ <=? _) = true |- _ => apply Z.leb_le in H
  | H : (_ <=? _) = false |- _ => apply Z.leb_gt in H
  | H : _ && _ = true |- _ => apply andb_true_iff in H; destruct H
  | H : _ && _ = false |- _ => apply andb_false_iff in H
  | H : _ || _ = true |- _ => apply orb_true_iff in H
  | H : _ || _ = false |- _ => apply orb_false_iff in H; destruct H
  | H : negb _ = true |- _ => apply negb_true_iff in H
  | H : negb _ = false |- _ => apply negb_false_iff in H
  end.

(** Case analysis on the boolean tests of the code. *)
Ltac zcases :=
  repeat match goal with
  | |- context [ (?a =? ?b)%Z ] => destruct (Z.eqb_spec a b)
  | |- context [ (?a <? ?b)%Z ] => destruct (Z.ltb_spec a b)
  | |- context [ (?a <=? ?b)%Z ] => destruct (Z.leb_spec a b)
  end.

(** Division and remainder by literals, for [lia]. *)
Ltac zify_mod := Z.to_euclidean_division_equations.
Ltac mlia := zify_mod; lia.

(** ** Integer lemmas *)

Lemma u8_range z : 0 <= u8 z < 256.
Proof. unfold u8. apply Z.mod_pos_bound. lia. Qed.
Lemma u32_range z : 0 <= u32 z < 2 ^ 32.
Proof. unfold u32. apply Z.mod_pos_bound. lia. Qed.
Lemma u64_range z : 0 <= u64 z < 2 ^ 64.
Proof. unfold u64. apply Z.mod_pos_bound. lia. Qed.
Lemma u8_id z : 0 <= z < 256 -> u8 z = z.
Proof. intros. unfold u8. apply Z.mod_small. lia. Qed.
Lemma u16_id z : 0 <= z < 2 ^ 16 -> u16 z = z.
Proof. intros. unfold u16. apply Z.mod_small. lia. Qed.
Lemma u32_id z : 0 <= z < 2 ^ 32 -> u32 z = z.
Proof. intros. unfold u32. apply Z.mod_small. lia. Qed.
Lemma u64_id z : 0 <= z < 2 ^ 64 -> u64 z = z.
Proof. intros. unfold u64. apply Z.mod_small. lia. Qed.
Lemma i32_id z : - 2 ^ 31 <= z < 2 ^ 31 -> i32 z = z.
Proof.
  intros. unfold i32, sgn. change (32 - 1) with 31.
  destruct (Z.ltb_spec (z mod 2 ^ 32) (2 ^ 31)); mlia.
Qed.
Lemma i32_range z : - 2 ^ 31 <= i32 z < 2 ^ 31.
Proof.
  unfold i32, sgn. change (32 - 1) with 31.
  pose proof (Z.mod_pos_bound z (2 ^ 32)).
  destruct (Z.ltb_spec (z mod 2 ^ 32) (2 ^ 31)); lia.
Qed.

#[export] Hint Resolve u8_range u32_range u64_range i32_range : xv6.
#[export] Hint Rewrite u8_id u16_id u32_id u64_id i32_id using lia : xv6.

(** ** List lemmas *)

(** The indices [0 .. n-1] of a C array, as addresses. *)
Definition indices (n : Z) : list Z := seqZ 0 n.

Lemma elem_of_indices n i : i ∈ indices n <-> 0 <= i < n.
Proof. unfold indices. rewrite elem_of_seqZ. lia. Qed.

(** The elements before the one [find] returns fail the test. *)
Lemma find_split {A} (f : A -> bool) l x :
  List.find f l = Some x ->
  exists l1 l2, l = l1 ++ x :: l2 /\ forall y, y ∈ l1 -> f y = false.
Proof.
  induction l as [|a l IH]; simpl; [done|]. destruct (f a) eqn:Ea.
  - intros [= ->]. exists [], l. split; [done|]. intros y Hy. by apply elem_of_nil in Hy.
  - intros (l1 & l2 & -> & Hl)%IH. exists (a :: l1), l2. split; [done|].
    intros y [->|Hy]%elem_of_cons; auto.
Qed.

Lemma find_split_hit {A} (f : A -> bool) l x :
  List.find f l = Some x ->
  exists l1 l2, l = l1 ++ x :: l2 /\ f x = true /\ forall y, y ∈ l1 -> f y = false.
Proof.
  intros E. pose proof (List.find_some _ _ E) as [_ Hx]. apply find_split in E as (l1 & l2 & ? & ?). eauto.
Qed.
