(* ===== verification/Mem.v ===== *)
(** * Byte-addressed memory

    The memory every pointer of the kernel points into: a finite map from
    addresses to bytes, reading [0] where nothing was written. Multi-byte
    loads and stores are little-endian, as on RISC-V. Used by string.c,
    kalloc.c and vm.c. *)

From stdpp Require Import base gmap list.
From Stdlib Require Import ZArith Lia.
From S2P Require Import Prelude.

Abbreviation mem := (gmap Z Z).

Definition load8 (m : mem) (a : Z) : Z := u8 (default 0 (m !! a)).
Definition store8 (m : mem) (a v : Z) : mem := <[a := u8 v]> m.

(** [n]-byte little-endian accesses. *)
Fixpoint load_le (m : mem) (a : Z) (n : nat) : Z :=
  match n with
  | O => 0
  | S n => load8 m a + 256 * load_le m (a + 1) n
  end.

Fixpoint store_le (m : mem) (a : Z) (n : nat) (v : Z) : mem :=
  match n with
  | O => m
  | S n => store_le (store8 m a v) (a + 1) n (v / 256)
  end.

Definition load16 (m : mem) (a : Z) : Z := load_le m a 2.
Definition load32 (m : mem) (a : Z) : Z := load_le m a 4.
Definition load64 (m : mem) (a : Z) : Z := load_le m a 8.
Definition store16 (m : mem) (a v : Z) : mem := store_le m a 2 v.
Definition store32 (m : mem) (a v : Z) : mem := store_le m a 4 v.
Definition store64 (m : mem) (a v : Z) : mem := store_le m a 8 v.

(** The bytes at [a .. a+n-1]. *)
Fixpoint load_bytes (m : mem) (a : Z) (n : nat) : list Z :=
  match n with
  | O => []
  | S n => load8 m a :: load_bytes m (a + 1) n
  end.

Fixpoint store_bytes (m : mem) (a : Z) (bs : list Z) : mem :=
  match bs with
  | [] => m
  | b :: bs => store_bytes (store8 m a b) (a + 1) bs
  end.

(** ** Laws *)

Lemma load8_range m a : 0 <= load8 m a < 256.
Proof. apply u8_range. Qed.

Lemma load8_store8_eq m a v : load8 (store8 m a v) a = u8 v.
Proof. unfold load8, store8. rewrite lookup_insert_eq. simpl. apply u8_id, u8_range. Qed.

Lemma load8_store8_ne m a b v : a <> b -> load8 (store8 m a v) b = load8 m b.
Proof. intros. unfold load8, store8. by rewrite lookup_insert_ne. Qed.

Lemma load8_store8 m a b v :
  load8 (store8 m a v) b = if decide (a = b) then u8 v else load8 m b.
Proof.
  case_decide; [subst; apply load8_store8_eq | by apply load8_store8_ne].
Qed.

Lemma load_le_range m a n : 0 <= load_le m a n < 256 ^ Z.of_nat n.
Proof.
  revert a. induction n as [|n IH]; intros a; cbn [load_le]; [simpl; lia|].
  pose proof (load8_range m a). specialize (IH (a + 1)).
  rewrite Nat2Z.inj_succ, Z.pow_succ_r by lia. lia.
Qed.

Lemma load64_range m a : 0 <= load64 m a < 2 ^ 64.
Proof. pose proof (load_le_range m a 8). unfold load64. lia. Qed.

(** A store does not touch the bytes outside its range. *)
Lemma load8_store_le_out m a n v b :
  b < a \/ a + Z.of_nat n <= b -> load8 (store_le m a n v) b = load8 m b.
Proof.
  revert m a v. induction n as [|n IH]; intros m a v H; simpl; [done|].
  rewrite IH by lia. apply load8_store8_ne. lia.
Qed.

Lemma load_le_ext m m' a n :
  (forall i, a <= i < a + Z.of_nat n -> load8 m i = load8 m' i) ->
  load_le m a n = load_le m' a n.
Proof.
  revert a. induction n as [|n IH]; intros a H; simpl; [done|].
  rewrite (H a) by lia. f_equal. f_equal. apply IH. intros. apply H. lia.
Qed.

Lemma load_le_store_le_out m a n v b k :
  b + Z.of_nat k <= a \/ a + Z.of_nat n <= b ->
  load_le (store_le m a n v) b k = load_le m b k.
Proof. intros. apply load_le_ext. intros. apply load8_store_le_out. lia. Qed.

Lemma load_le_store_le_eq m a n v :
  load_le (store_le m a n v) a n = v mod 256 ^ Z.of_nat n.
Proof.
  revert m a v. induction n as [|n IH]; intros m a v; cbn [load_le store_le].
  - by rewrite Z.mod_1_r.
  - rewrite IH, load8_store_le_out by lia. rewrite load8_store8_eq.
    rewrite Nat2Z.inj_succ, Z.pow_succ_r by lia. unfold u8.
    change (2 ^ 8) with 256. rewrite Z.rem_mul_r by lia. lia.
Qed.

Lemma load64_store64_eq m a v : load64 (store64 m a v) a = u64 v.
Proof. unfold load64, store64. by rewrite load_le_store_le_eq. Qed.

Lemma load64_store64_out m a b v :
  b + 8 <= a \/ a + 8 <= b -> load64 (store64 m a v) b = load64 m b.
Proof. intros. apply load_le_store_le_out. lia. Qed.

Lemma length_load_bytes m a n : length (load_bytes m a n) = n.
Proof. revert a. induction n; intros; simpl; auto. Qed.

Lemma load_bytes_lookup m a n i :
  (i < n)%nat -> load_bytes m a n !! i = Some (load8 m (a + Z.of_nat i)).
Proof.
  revert a i. induction n as [|n IH]; intros a i Hi; [lia|]. destruct i; simpl.
  - by rewrite Z.add_0_r.
  - rewrite IH by lia. f_equal. f_equal. lia.
Qed.

Lemma load8_store_bytes_out m a bs b :
  b < a \/ a + Z.of_nat (length bs) <= b -> load8 (store_bytes m a bs) b = load8 m b.
Proof.
  revert m a. induction bs as [|x bs IH]; intros m a H; simpl in *; [done|].
  rewrite IH by lia. apply load8_store8_ne. lia.
Qed.

Lemma load8_store_bytes_in m a bs i x :
  bs !! i = Some x -> load8 (store_bytes m a bs) (a + Z.of_nat i) = u8 x.
Proof.
  revert m a i. induction bs as [|y bs IH]; intros m a i H; [done|].
  destruct i; simpl in *.
  - rewrite Z.add_0_r, load8_store_bytes_out by lia. simplify_eq.
    apply load8_store8_eq.
  - replace (a + Z.of_nat (S i)) with (a + 1 + Z.of_nat i) by lia. eauto.
Qed.

Lemma load_bytes_ext m m' a n :
  (forall i, a <= i < a + Z.of_nat n -> load8 m i = load8 m' i) ->
  load_bytes m a n = load_bytes m' a n.
Proof.
  revert a. induction n as [|n IH]; intros a H; simpl; [done|].
  rewrite (H a) by lia. f_equal. apply IH. intros. apply H. lia.
Qed.

#[export] Hint Resolve load8_range load64_range : xv6.
#[export] Hint Rewrite load8_store8_eq load64_store64_eq length_load_bytes : xv6.
