(* ===== verification/Cstring.v ===== *)
(** * string.c: the kernel's C string and memory routines

    Every loop of the source is a recursion on the number of iterations its
    counter allows; the pointers walk through the memory of [Mem]. Pointers
    are unbounded addresses: the callers' objects never wrap around the
    address space. *)

From stdpp Require Import base gmap list.
From Stdlib Require Import ZArith Lia.
From S2P Require Import Prelude Mem.

(** memset: [for(i = 0; i < n; i++) cdst[i] = c;] *)
Fixpoint memset_loop (m : mem) (dst c i : Z) (k : nat) : mem :=
  match k with
  | O => m
  | S k => memset_loop (store8 m (dst + i) c) dst c (i + 1) k
  end.
Definition memset (m : mem) (dst c n : Z) : mem := memset_loop m dst c 0 (Z.to_nat n).

(** memcmp: [while(n-- > 0){ if( *s1 != *s2) return *s1 - *s2; s1++, s2++; }] *)
Fixpoint memcmp_loop (m : mem) (s1 s2 : Z) (k : nat) : Z :=
  match k with
  | O => 0
  | S k =>
      if negb (load8 m s1 =? load8 m s2) then load8 m s1 - load8 m s2
      else memcmp_loop m (s1 + 1) (s2 + 1) k
  end.
Definition memcmp (m : mem) (v1 v2 n : Z) : Z := memcmp_loop m v1 v2 (Z.to_nat n).

(** memmove: backwards when the destination overlaps the source from above. *)
Fixpoint copy_backward (m : mem) (d s : Z) (k : nat) : mem :=
  match k with
  | O => m
  | S k => copy_backward (store8 m (d - 1) (load8 m (s - 1))) (d - 1) (s - 1) k
  end.
Fixpoint copy_forward (m : mem) (d s : Z) (k : nat) : mem :=
  match k with
  | O => m
  | S k => copy_forward (store8 m d (load8 m s)) (d + 1) (s + 1) k
  end.
Definition memmove (m : mem) (dst src n : Z) : mem :=
  if n =? 0 then m
  else if (src <? dst) && (dst <? src + n)
       then copy_backward m (dst + n) (src + n) (Z.to_nat n)
       else copy_forward m dst src (Z.to_nat n).

Definition memcpy (m : mem) (dst src n : Z) : mem := memmove m dst src n.

(** strncmp: the loop stops at the bound, at a NUL of [p] or at a difference. *)
Fixpoint strncmp_loop (m : mem) (p q : Z) (k : nat) : Z :=
  match k with
  | O => 0
  | S k' =>
      if nz (load8 m p) && (load8 m p =? load8 m q)
      then strncmp_loop m (p + 1) (q + 1) k'
      else load8 m p - load8 m q
  end.
Definition strncmp (m : mem) (p q n : Z) : Z := strncmp_loop m p q (Z.to_nat n).

(** strncpy: copy up to and including the NUL, then pad with NULs. *)
Fixpoint strncpy_pad (m : mem) (s : Z) (k : nat) : mem :=
  match k with
  | O => m
  | S k => strncpy_pad (store8 m s 0) (s + 1) k
  end.
Fixpoint strncpy_loop (m : mem) (s t : Z) (k : nat) : mem :=
  match k with
  | O => m
  | S k =>
      let c := load8 m t in
      let m := store8 m s c in
      if c =? 0 then strncpy_pad m (s + 1) k
      else strncpy_loop m (s + 1) (t + 1) k
  end.
Definition strncpy (m : mem) (s t n : Z) : mem := strncpy_loop m s t (Z.to_nat n).

(** safestrcpy: [while(--n > 0 && ( *s++ = *t++) != 0); *s = 0;] *)
Fixpoint safestrcpy_loop (m : mem) (s t : Z) (k : nat) : mem :=
  match k with
  | O => store8 m s 0
  | S k =>
      let c := load8 m t in
      let m := store8 m s c in
      if c =? 0 then store8 m (s + 1) 0
      else safestrcpy_loop m (s + 1) (t + 1) k
  end.
Definition safestrcpy (m : mem) (s t n : Z) : mem :=
  if n <=? 0 then m else safestrcpy_loop m s t (Z.to_nat (n - 1)).

(** strlen: [for(n = 0; s[n]; n++);] The loop needs at most one iteration per
    written byte, plus one: the memory reads 0 elsewhere. *)
Fixpoint strlen_loop (m : mem) (s n : Z) (fuel : nat) : option Z :=
  match fuel with
  | O => None
  | S fuel => if nz (load8 m (s + n)) then strlen_loop m s (n + 1) fuel else Some n
  end.
Definition strlen (m : mem) (s : Z) : option Z := strlen_loop m s 0 (S (size m)).

(** The C string at [s], without its NUL, when it has at most [k] bytes. *)
Fixpoint cstr (m : mem) (s : Z) (k : nat) : list Z :=
  match k with
  | O => []
  | S k => if load8 m s =? 0 then [] else load8 m s :: cstr m (s + 1) k
  end.

(** ** Lemmas *)

Lemma memset_loop_spec m dst c i k a :
  load8 (memset_loop m dst c i k) a =
  if decide (dst + i <= a < dst + i + Z.of_nat k) then u8 c else load8 m a.
Proof.
  revert m i. induction k as [|k IH]; intros m i; cbn [memset_loop].
  - case_decide; [lia | done].
  - rewrite IH, load8_store8. repeat case_decide; auto; lia.
Qed.

Lemma memset_load8 m dst c n a :
  load8 (memset m dst c n) a =
  if decide (dst <= a < dst + Z.max 0 n) then u8 c else load8 m a.
Proof. unfold memset. rewrite memset_loop_spec. repeat case_decide; auto; lia. Qed.

Lemma copy_forward_out m d s k a :
  a < d \/ d + Z.of_nat k <= a -> load8 (copy_forward m d s k) a = load8 m a.
Proof.
  revert m d s. induction k as [|k IH]; intros m d s H; simpl; [done|].
  rewrite IH by lia. apply load8_store8_ne. lia.
Qed.

Lemma copy_forward_in m d s k i :
  d <= s \/ s + Z.of_nat k <= d -> 0 <= i < Z.of_nat k ->
  load8 (copy_forward m d s k) (d + i) = load8 m (s + i).
Proof.
  revert m d s i. induction k as [|k IH]; intros m d s i Hd Hi; cbn [copy_forward]; [lia|].
  destruct (decide (i = 0)) as [->|].
  - rewrite copy_forward_out by lia. rewrite !Z.add_0_r, load8_store8_eq.
    apply u8_id, load8_range.
  - replace (d + i) with (d + 1 + (i - 1)) by lia. rewrite IH by lia.
    rewrite load8_store8_ne by lia. f_equal. lia.
Qed.

Lemma copy_backward_out m d s k a :
  a < d - Z.of_nat k \/ d <= a -> load8 (copy_backward m d s k) a = load8 m a.
Proof.
  revert m d s. induction k as [|k IH]; intros m d s H; simpl; [done|].
  rewrite IH by lia. apply load8_store8_ne. lia.
Qed.

Lemma copy_backward_in m d s k i :
  s <= d -> 0 < i <= Z.of_nat k ->
  load8 (copy_backward m d s k) (d - i) = load8 m (s - i).
Proof.
  revert m d s i. induction k as [|k IH]; intros m d s i Hd Hi; cbn [copy_backward]; [lia|].
  destruct (decide (i = 1)) as [->|].
  - rewrite copy_backward_out by lia. rewrite load8_store8_eq.
    apply u8_id, load8_range.
  - replace (d - i) with (d - 1 - (i - 1)) by lia. rewrite IH by lia.
    rewrite load8_store8_ne by lia. f_equal. lia.
Qed.

(** memmove copies the bytes the source held before the call. *)
Lemma memmove_load8 m dst src n a :
  0 <= n ->
  load8 (memmove m dst src n) a =
  if decide (dst <= a < dst + n) then load8 m (src + (a - dst)) else load8 m a.
Proof.
  intros Hn. unfold memmove. destruct (Z.eqb_spec n 0) as [->|Hn0].
  { case_decide; [lia | done]. }
  destruct (Z.ltb_spec src dst), (Z.ltb_spec dst (src + n)); simpl; case_decide.
  - replace a with (dst + n - (dst + n - a)) at 1 by lia.
    rewrite copy_backward_in by lia. f_equal. lia.
  - apply copy_backward_out. lia.
  - replace a with (dst + (a - dst)) at 1 by lia. apply copy_forward_in; lia.
  - apply copy_forward_out. lia.
  - replace a with (dst + (a - dst)) at 1 by lia. apply copy_forward_in; lia.
  - apply copy_forward_out. lia.
  - replace a with (dst + (a - dst)) at 1 by lia. apply copy_forward_in; lia.
  - apply copy_forward_out. lia.
Qed.

Lemma memcmp_loop_zero m s1 s2 k :
  memcmp_loop m s1 s2 k = 0 <-> load_bytes m s1 k = load_bytes m s2 k.
Proof.
  revert s1 s2. induction k as [|k IH]; intros s1 s2; simpl; [done|].
  destruct (Z.eqb_spec (load8 m s1) (load8 m s2)) as [E|E]; simpl.
  - rewrite IH, E. split; [by intros -> | by injection 1].
  - split; intros H; [lia | congruence].
Qed.

Lemma strncmp_loop_zero m p q k :
  strncmp_loop m p q k = 0 <-> cstr m p k = cstr m q k.
Proof.
  revert p q. induction k as [|k IH]; intros p q; simpl; [done|]. unfold nz.
  destruct (Z.eqb_spec (load8 m p) 0) as [Ep|Ep],
    (Z.eqb_spec (load8 m q) 0) as [Eq|Eq],
    (Z.eqb_spec (load8 m p) (load8 m q)) as [E|E]; simpl;
    rewrite ?IH; split; intros H; try done; try lia; try congruence.
Qed.

Lemma strncpy_pad_spec m s k a :
  load8 (strncpy_pad m s k) a =
  if decide (s <= a < s + Z.of_nat k) then 0 else load8 m a.
Proof.
  revert m s. induction k as [|k IH]; intros m s; cbn [strncpy_pad].
  - case_decide; [lia | done].
  - rewrite IH, load8_store8. repeat case_decide; auto; lia.
Qed.

Lemma cstr_S m s k :
  cstr m s (S k) = if load8 m s =? 0 then [] else load8 m s :: cstr m (s + 1) k.
Proof. done. Qed.

Lemma cstr_ext m m' s k :
  (forall i, s <= i < s + Z.of_nat k -> load8 m i = load8 m' i) ->
  cstr m s k = cstr m' s k.
Proof.
  revert s. induction k as [|k IH]; intros s H; simpl; [done|].
  rewrite (H s) by lia. destruct (_ =? _); [done|]. f_equal.
  apply IH. intros. apply H. lia.
Qed.

Lemma safestrcpy_loop_out m s t k a :
  a < s \/ s + Z.of_nat k < a -> load8 (safestrcpy_loop m s t k) a = load8 m a.
Proof.
  revert m s t. induction k as [|k IH]; intros m s t H; cbn [safestrcpy_loop].
  - apply load8_store8_ne. lia.
  - destruct (_ =? _); [|rewrite IH by lia]; rewrite !load8_store8_ne by lia; done.
Qed.

Lemma safestrcpy_loop_cstr m s t k :
  s + Z.of_nat k < t \/ t + Z.of_nat k <= s ->
  cstr (safestrcpy_loop m s t k) s (S k) = cstr m t k.
Proof.
  revert m s t. induction k as [|k IH]; intros m s t H.
  { simpl. by rewrite load8_store8_eq. }
  cbn [safestrcpy_loop]. rewrite (cstr_S m t k), cstr_S.
  destruct (Z.eqb_spec (load8 m t) 0) as [E|E].
  - rewrite load8_store8_ne, load8_store8_eq, E by lia. done.
  - rewrite safestrcpy_loop_out, load8_store8_eq by lia.
    rewrite u8_id by apply load8_range.
    destruct (Z.eqb_spec (load8 m t) 0); [lia|]. f_equal.
    rewrite <- (cstr_ext (store8 m s (load8 m t)) m (t + 1) k).
    + apply IH. lia.
    + intros i Hi. apply load8_store8_ne. lia.
Qed.

Lemma strncpy_loop_out m s t k a :
  a < s \/ s + Z.of_nat k <= a -> load8 (strncpy_loop m s t k) a = load8 m a.
Proof.
  revert m s t. induction k as [|k IH]; intros m s t H; cbn [strncpy_loop]; [done|].
  destruct (_ =? _); [rewrite strncpy_pad_spec; case_decide; [lia|] | rewrite IH by lia];
    apply load8_store8_ne; lia.
Qed.

Lemma load_bytes_zero m s k :
  (forall i, s <= i < s + Z.of_nat k -> load8 m i = 0) -> load_bytes m s k = replicate k 0.
Proof.
  revert s. induction k as [|k IH]; intros s H; simpl; [done|].
  rewrite H by lia. f_equal. apply IH. intros. apply H. lia.
Qed.

Lemma strncpy_loop_bytes m s t k :
  s + Z.of_nat k <= t \/ t + Z.of_nat k <= s ->
  load_bytes (strncpy_loop m s t k) s k =
  cstr m t k ++ replicate (k - length (cstr m t k)) 0.
Proof.
  revert m s t. induction k as [|k IH]; intros m s t H; [done|].
  cbn [strncpy_loop load_bytes cstr].
  destruct (Z.eqb_spec (load8 m t) 0) as [E|E]; simpl.
  - rewrite strncpy_pad_spec. case_decide; [lia|]. rewrite load8_store8_eq, E.
    f_equal. apply load_bytes_zero. intros i Hi. rewrite strncpy_pad_spec.
    case_decide; [done | lia].
  - rewrite strncpy_loop_out, load8_store8_eq, u8_id by (lia || apply load8_range).
    f_equal. rewrite IH by lia.
    rewrite (cstr_ext (store8 m s (load8 m t)) m (t + 1) k); [done|].
    intros i Hi. apply load8_store8_ne. lia.
Qed.

(** A run of non-zero bytes lies in the written part of the memory. *)
Lemma nonzero_run_size m s k :
  (forall i, 0 <= i < Z.of_nat k -> load8 m (s + i) <> 0) -> (k <= size m)%nat.
Proof.
  intros H.
  assert (list_to_set (seqZ s (Z.of_nat k)) ⊆ (dom m : gset Z)) as Hsub.
  { intros a Ha. apply elem_of_list_to_set, elem_of_seqZ in Ha.
    apply elem_of_dom. specialize (H (a - s)). unfold load8 in H.
    replace (s + (a - s)) with a in H by lia.
    destruct (m !! a); [by eexists|]. exfalso. apply H; [lia | done]. }
  apply subseteq_size in Hsub. rewrite size_dom in Hsub.
  rewrite size_list_to_set in Hsub by apply NoDup_seqZ.
  rewrite length_seqZ in Hsub. lia.
Qed.

Lemma strlen_loop_total m s n fuel :
  0 <= n -> (forall i, 0 <= i < n -> load8 m (s + i) <> 0) ->
  (size m < Z.to_nat n + fuel)%nat ->
  exists r, strlen_loop m s n fuel = Some r /\ n <= r /\ load8 m (s + r) = 0 /\
            forall i, 0 <= i < r -> load8 m (s + i) <> 0.
Proof.
  revert n. induction fuel as [|fuel IH]; intros n Hn Hnz Hf.
  { pose proof (nonzero_run_size m s (Z.to_nat n)) as Hs.
    rewrite Z2Nat.id in Hs by done. specialize (Hs Hnz). lia. }
  cbn [strlen_loop]. unfold nz. destruct (Z.eqb_spec (load8 m (s + n)) 0) as [E|E]; simpl.
  - exists n. auto with lia.
  - destruct (IH (n + 1)) as (r & Hr & Hle & H0 & Hall); [lia | | lia |].
    + intros i Hi. destruct (decide (i = n)) as [->|]; [done|]. apply Hnz. lia.
    + exists r. auto with lia.
Qed.

(** ** Properties *)

(** Memmove is correct whatever the overlap of the two buffers: after
    [memmove(dst, src, n)] byte [i] of the destination is byte [i] the source
    held before the call, and no byte outside the destination changed. *)
Theorem memmove_correct m dst src n a :
  0 <= n ->
  load8 (memmove m dst src n) a =
  if decide (dst <= a < dst + n) then load8 m (src + (a - dst)) else load8 m a.
Proof. apply memmove_load8. Qed.
Lemma memmove_correct_witness :
  load8 (memmove (store_bytes ∅ 100 [1; 2; 3; 4]) 102 100 4) 104 = 3.
Proof.
  rewrite (memmove_correct (store_bytes ∅ 100 [1; 2; 3; 4]) 102 100 4 104); [|lia].
  reflexivity.
Defined.

(** The string routines agree with C strings: [strncmp(p, q, n)] is 0
    exactly when the two strings agree up to their NUL or the bound;
    [strncpy(s, t, n)] leaves the string of [t] padded with NULs in the [n]
    bytes of [s]; [safestrcpy(s, t, n)] leaves a NUL-terminated string in the
    [n] bytes of [s], cut to [n-1] bytes, and writes nothing else. *)
Theorem string_routines_correct m s t n :
  0 < n -> (s + n <= t \/ t + n <= s) ->
  (strncmp m s t n = 0 <-> cstr m s (Z.to_nat n) = cstr m t (Z.to_nat n)) /\
  load_bytes (strncpy m s t n) s (Z.to_nat n) =
    cstr m t (Z.to_nat n) ++
    replicate (Z.to_nat n - length (cstr m t (Z.to_nat n))) 0 /\
  cstr (safestrcpy m s t n) s (Z.to_nat n) = cstr m t (Z.to_nat (n - 1)) /\
  (forall a, a < s \/ s + n <= a ->
     load8 (strncpy m s t n) a = load8 m a /\
     load8 (safestrcpy m s t n) a = load8 m a).
Proof.
  intros Hn Hd. unfold strncmp, strncpy, safestrcpy.
  destruct (Z.leb_spec n 0); [lia|]. split; [apply strncmp_loop_zero|].
  split; [apply strncpy_loop_bytes; lia|]. split.
  - replace (Z.to_nat n) with (S (Z.to_nat (n - 1))) by lia.
    apply safestrcpy_loop_cstr. lia.
  - intros a Ha. split; [apply strncpy_loop_out | apply safestrcpy_loop_out]; lia.
Qed.
Lemma string_routines_correct_witness :
  cstr (safestrcpy (store_bytes ∅ 100 [105; 110; 105; 116; 0]) 0 100 4) 0 4 = [105; 110; 105].
Proof.
  destruct (string_routines_correct (store_bytes ∅ 100 [105; 110; 105; 116; 0]) 0 100 4)
    as (_ & _ & H & _); [lia | lia |].
  etransitivity; [exact H | reflexivity].
Defined.

(** [strlen] always returns, and it returns the index of the first NUL. *)
Theorem strlen_correct m s :
  exists r, strlen m s = Some r /\ 0 <= r /\ load8 m (s + r) = 0 /\
            forall i, 0 <= i < r -> load8 m (s + i) <> 0.
Proof. apply strlen_loop_total; lia. Qed.
