(* ===== verification/Env.v ===== *)
(** * What the device and pipe code asks of the rest of the kernel

    Pipes, the console and the uart call into the process table ([wakeup],
    [killed]), the page allocator ([kfree]) and the address space of the
    current process ([copyin], [copyout] of one byte, [either_copyin],
    [either_copyout]). Those components are an instance of this class; the
    theorems of the clients hold for every instance. *)

From stdpp Require Import base list.
From Stdlib Require Import ZArith Lia.
From S2P Require Import Prelude.

Class Env (U : Type) : Type := {
  env_wakeup : Z -> U -> U;                  (* wakeup(chan) *)
  env_killed : U -> bool;                    (* killed(myproc()) *)
  env_copyin1 : Z -> U -> option Z;          (* copyin(..., &ch, va, 1); None is -1 *)
  env_copyout1 : Z -> Z -> U -> option U;    (* copyout(..., va, &ch, 1); None is -1 *)
  env_kfree : Z -> U -> res U unit;          (* kfree(pa) *)
}.

(** What copies to and from one process promise: a byte that was stored is read
    back, the other addresses keep theirs, and waking up processes does not
    touch the memory of this one. *)
Class EnvLaws (U : Type) `{Env U} : Prop := {
  env_copyout1_same : forall a b u u', env_copyout1 a b u = Some u' -> env_copyin1 a u' = Some b;
  env_copyout1_other : forall a b u u' a', env_copyout1 a b u = Some u' -> a' <> a ->
    env_copyin1 a' u' = env_copyin1 a' u;
  env_wakeup_copyin1 : forall c a u, env_copyin1 a (env_wakeup c u) = env_copyin1 a u;
  env_wakeup_copyout1 : forall c a b u,
    env_copyout1 a b (env_wakeup c u) = None <-> env_copyout1 a b u = None;
}.

(** A small instance: a process with one page of user memory at address 0,
    and a record of the wakeups and of the freed pages. *)
Record tiny : Type := Tiny {
  tiny_mem : list Z;
  tiny_killed : bool;
  tiny_woken : list Z;
  tiny_freed : list Z;
}.

#[export] Instance tiny_env : Env tiny := {
  env_wakeup c u :=
    {| tiny_mem := tiny_mem u; tiny_killed := tiny_killed u;
       tiny_woken := tiny_woken u ++ [c]; tiny_freed := tiny_freed u |};
  env_killed u := tiny_killed u;
  env_copyin1 a u := if a <? 0 then None else tiny_mem u !! Z.to_nat a;
  env_copyout1 a v u :=
    if (a <? 0) || (Z.of_nat (length (tiny_mem u)) <=? a) then None
    else Some {| tiny_mem := <[Z.to_nat a := v]> (tiny_mem u); tiny_killed := tiny_killed u;
                 tiny_woken := tiny_woken u; tiny_freed := tiny_freed u |};
  env_kfree pa u :=
    Ok tt {| tiny_mem := tiny_mem u; tiny_killed := tiny_killed u;
             tiny_woken := tiny_woken u; tiny_freed := tiny_freed u ++ [pa] |};
}.

#[export] Instance tiny_laws : EnvLaws tiny.
Proof.
  split; cbn.
  - intros a b u u'. destruct (_ || _) eqn:E; [done|]. intros [= <-]. cbn. bool_to_prop.
    rewrite (proj2 (Z.ltb_ge a 0)) by done. apply list_lookup_insert_eq. lia.
  - intros a b u u' a'. destruct (_ || _) eqn:E; [done|]. intros [= <-] Hne. cbn. bool_to_prop.
    destruct (Z.ltb_spec a' 0); [done|]. apply list_lookup_insert_ne. lia.
  - done.
  - intros c a b u. by destruct (_ || _).
Qed.
