(* ===== verification/Ring.v ===== *)
(** * Ring buffers indexed by free-running counters

    pipe.c, console.c and uart.c keep a buffer of [size] bytes and counters
    that only grow, wrapping at the width of their type; byte number [k] lives
    at [buf[k % size]]. As [size] divides the wrap-around, the bytes between
    two counters form a queue. The lemmas hold for every power-of-two size and
    counter width. *)

From stdpp Require Import base list.
From Stdlib Require Import ZArith Lia.
From S2P Require Import Prelude.

(** The [n] bytes from counter [r] on. *)
Definition slot (size k : Z) : nat := Z.to_nat (k mod size).
Fixpoint ring_bytes (size : Z) (buf : list Z) (r : Z) (n : nat) : list Z :=
  match n with
  | O => []
  | S n => default 0 (buf !! slot size r) :: ring_bytes size buf (r + 1) n
  end.

(** How far counter [w] is ahead of [r], both modulo [2^width]. *)
Definition ahead (width r w : Z) : Z := (w - r) mod 2 ^ width.

(** The queue between two counters. *)
Definition ring (size width : Z) (buf : list Z) (r w : Z) : list Z :=
  ring_bytes size buf r (Z.to_nat (ahead width r w)).

(** ** Lemmas *)

Lemma length_ring_bytes size buf r n : length (ring_bytes size buf r n) = n.
Proof. revert r. induction n; intros; simpl; auto. Qed.

Lemma ring_bytes_take size buf r n N :
  (n <= N)%nat -> ring_bytes size buf r n = take n (ring_bytes size buf r N).
Proof.
  revert r N. induction n as [|n IH]; intros r N H; [done|].
  destruct N; [lia|]. simpl. f_equal. apply IH. lia.
Qed.

Lemma length_ring size width buf r w :
  length (ring size width buf r w) = Z.to_nat (ahead width r w).
Proof. apply length_ring_bytes. Qed.

Section ring.
Context (size width : Z).
Hypothesis (size_pos : 0 < size).
Hypothesis (width_pos : 0 <= width).
Hypothesis (size_div : (size | 2 ^ width)).

Lemma modulus_pos : 0 < 2 ^ width.
Proof. lia. Qed.

Lemma slot_mod k : slot size (k mod 2 ^ width) = slot size k.
Proof.
  unfold slot. f_equal.
  by apply Z.mod_mod_divide.
Qed.

Lemma slot_lt k : (slot size k < Z.to_nat size)%nat.
Proof. unfold slot. pose proof (Z.mod_pos_bound k size size_pos). lia. Qed.

Lemma slot_ne k j : 0 < j < size -> slot size (k + j) <> slot size k.
Proof.
  intros Hj E. unfold slot in E.
  pose proof (Z.mod_pos_bound k size size_pos) as Hk.
  pose proof (Z.mod_pos_bound (k + j) size size_pos) as Hkj.
  assert ((k + j) mod size = k mod size) as E' by lia.
  assert (j mod size = 0) as Ej.
  { replace j with (k + j - k) by lia. rewrite Zminus_mod, E', Z.sub_diag.
    by rewrite Zmod_0_l. }
  rewrite Z.mod_small in Ej; lia.
Qed.

Lemma ring_bytes_mod buf r n :
  ring_bytes size buf (r mod 2 ^ width) n = ring_bytes size buf r n.
Proof.
  assert (forall a b, slot size a = slot size b ->
            ring_bytes size buf a n = ring_bytes size buf b n) as Hgen.
  { induction n as [|n IH]; intros a b E; simpl; [done|]. rewrite E. f_equal.
    apply IH. unfold slot in *. pose proof (Z.mod_pos_bound a size size_pos).
    pose proof (Z.mod_pos_bound b size size_pos). f_equal.
    rewrite <- (Zplus_mod_idemp_l a), <- (Zplus_mod_idemp_l b).
    f_equal. f_equal. lia. }
  apply Hgen, slot_mod.
Qed.

Lemma ring_bytes_snoc buf r n :
  ring_bytes size buf r (S n) =
  ring_bytes size buf r n ++ [default 0 (buf !! slot size (r + Z.of_nat n))].
Proof.
  revert r. induction n as [|n IH]; intros r.
  - simpl. by rewrite Z.add_0_r.
  - change (ring_bytes size buf r (S (S n)))
      with (default 0 (buf !! slot size r) :: ring_bytes size buf (r + 1) (S n)).
    rewrite IH. simpl. do 6 f_equal. lia.
Qed.

Lemma ring_bytes_insert_ne buf r n s x :
  (forall i, (i < n)%nat -> slot size (r + Z.of_nat i) <> s) ->
  ring_bytes size (<[s := x]> buf) r n = ring_bytes size buf r n.
Proof.
  revert r. induction n as [|n IH]; intros r H; simpl; [done|]. f_equal.
  - rewrite list_lookup_insert_ne; [done|]. specialize (H 0%nat).
    rewrite Z.add_0_r in H. intros ->. apply H; [lia | done].
  - apply IH. intros i Hi. replace (r + 1 + Z.of_nat i) with (r + Z.of_nat (S i)) by lia.
    apply H. lia.
Qed.

Lemma ahead_range r w : 0 <= ahead width r w < 2 ^ width.
Proof. apply Z.mod_pos_bound, modulus_pos. Qed.

Lemma ahead_self r : ahead width r r = 0.
Proof. unfold ahead. by rewrite Z.sub_diag, Zmod_0_l. Qed.

Lemma ahead_zero r w :
  0 <= r < 2 ^ width -> 0 <= w < 2 ^ width -> ahead width r w = 0 -> r = w.
Proof.
  intros Hr Hw H. unfold ahead in H.
  apply Z.mod_divide in H; [|lia]. destruct H as [q Hq].
  destruct (decide (q = 0)) as [->|]; [lia|]. exfalso. nia.
Qed.

Lemma ahead_succ r w :
  ahead width r w + 1 < 2 ^ width ->
  ahead width r ((w + 1) mod 2 ^ width) = ahead width r w + 1.
Proof.
  intros H. unfold ahead in *. rewrite Zminus_mod_idemp_l.
  replace (w + 1 - r) with (w - r + 1) by lia.
  rewrite <- Zplus_mod_idemp_l. apply Z.mod_small.
  pose proof (Z.mod_pos_bound (w - r) (2 ^ width)). lia.
Qed.

Lemma ahead_pred r w :
  0 < ahead width r w ->
  ahead width ((r + 1) mod 2 ^ width) w = ahead width r w - 1.
Proof.
  intros H. unfold ahead in *. rewrite Zminus_mod_idemp_r.
  replace (w - (r + 1)) with (w - r - 1) by lia.
  rewrite <- Zminus_mod_idemp_l. apply Z.mod_small.
  pose proof (Z.mod_pos_bound (w - r) (2 ^ width)). lia.
Qed.

Lemma ahead_retract r w :
  0 < ahead width r w ->
  ahead width r ((w - 1) mod 2 ^ width) = ahead width r w - 1.
Proof.
  intros H. unfold ahead in *. rewrite Zminus_mod_idemp_l.
  replace (w - 1 - r) with (w - r - 1) by lia.
  rewrite <- Zminus_mod_idemp_l. apply Z.mod_small.
  pose proof (Z.mod_pos_bound (w - r) (2 ^ width)). lia.
Qed.

(** The counter [w] is [r] plus the distance. *)
Lemma slot_ahead r w : slot size (r + ahead width r w) = slot size w.
Proof.
  unfold ahead. rewrite <- slot_mod, Zplus_mod_idemp_r, slot_mod. f_equal. lia.
Qed.

(** Writing at [w] and advancing it appends to the queue. *)
Lemma ring_push buf r w x :
  length buf = Z.to_nat size -> ahead width r w < size -> ahead width r w + 1 < 2 ^ width ->
  ring size width (<[slot size w := x]> buf) r ((w + 1) mod 2 ^ width) =
  ring size width buf r w ++ [x].
Proof.
  intros Hb Hn Hw. unfold ring. rewrite ahead_succ by done.
  pose proof (ahead_range r w) as Ha.
  replace (Z.to_nat (ahead width r w + 1)) with (S (Z.to_nat (ahead width r w))) by lia.
  rewrite ring_bytes_snoc, Z2Nat.id, slot_ahead by lia.
  rewrite list_lookup_insert_eq by (rewrite Hb; apply slot_lt). simpl. f_equal.
  apply ring_bytes_insert_ne. intros i Hi. rewrite <- (slot_ahead r w).
  replace (r + ahead width r w)
    with (r + Z.of_nat i + (ahead width r w - Z.of_nat i)) by lia.
  intros E. symmetry in E. revert E. apply slot_ne. lia.
Qed.

(** Advancing [r] drops the front of the queue. *)
Lemma ring_pop buf r w :
  0 < ahead width r w ->
  ring size width buf r w =
  default 0 (buf !! slot size r) :: ring size width buf ((r + 1) mod 2 ^ width) w.
Proof.
  intros H. unfold ring. rewrite ahead_pred, ring_bytes_mod by done.
  destruct (Z.to_nat (ahead width r w)) as [|n] eqn:E; [lia|].
  simpl. do 2 f_equal. lia.
Qed.

(** Moving [w] back drops the last byte. *)
Lemma ring_retract buf r w :
  0 < ahead width r w ->
  ring size width buf r w =
  ring size width buf r ((w - 1) mod 2 ^ width) ++ [default 0 (buf !! slot size (w - 1))].
Proof.
  intros H. unfold ring. rewrite ahead_retract by done.
  destruct (Z.to_nat (ahead width r w)) as [|n] eqn:E; [lia|].
  rewrite ring_bytes_snoc.
  replace (Z.to_nat (ahead width r w - 1)) with n by lia. do 4 f_equal.
  rewrite <- (slot_mod (w - 1)), <- (slot_ahead r ((w - 1) mod 2 ^ width)).
  rewrite ahead_retract by done. f_equal. lia.
Qed.

Lemma ring_empty buf r w :
  0 <= r < 2 ^ width -> 0 <= w < 2 ^ width -> ring size width buf r w = [] -> r = w.
Proof.
  intros Hr Hw H. apply (f_equal length) in H. rewrite length_ring in H. simpl in H.
  apply ahead_zero; auto. pose proof (ahead_range r w). lia.
Qed.

End ring.
