(* ===== verification/Pipe.v ===== *)
(** * pipe.c: pipes

    The state of a pipe is the C struct without its lock; the code between
    [acquire] and [sleep] or [release] is one atomic step on the pipe and on
    the rest of the kernel [U]. A call that sleeps returns [PSleep]; when it
    is woken it resumes at the test of its loop. *)

From stdpp Require Import base list.
From Stdlib Require Import ZArith Lia.
From S2P Require Import Prelude Env Ring.

Definition PIPESIZE : Z := 512.

Record pipe : Type := Pipe {
  data : list Z;
  nread : Z;      (* number of bytes read, a uint *)
  nwrite : Z;     (* number of bytes written, a uint *)
  readopen : Z;   (* read fd is still open *)
  writeopen : Z;  (* write fd is still open *)
}.

(** Addresses of the fields the code sleeps on, for the pipe at [pi]. *)
Definition chan_nread (pi : Z) : Z := pi + 536.
Definition chan_nwrite (pi : Z) : Z := pi + 540.

(** A call that runs until it returns [r], or until it sleeps with its loop
    counter at [i]. *)
Inductive pipe_out : Type :=
  | PDone (r : Z)
  | PSleep (i : Z).

(** The fields pipealloc initialises; [junk] is what kalloc left in the page. *)
Definition pipe_init (junk : list Z) : pipe :=
  {| data := junk; nread := 0; nwrite := 0; readopen := 1; writeopen := 1 |}.

(** [pi->data[pi->nwrite++ % PIPESIZE] = ch;] *)
Definition push_byte (ch : Z) (p : pipe) : pipe :=
  {| data := <[Z.to_nat (nwrite p mod PIPESIZE) := ch]> (data p);
     nread := nread p; nwrite := u32 (nwrite p + 1);
     readopen := readopen p; writeopen := writeopen p |}.

(** [ch = pi->data[pi->nread++ % PIPESIZE];] *)
Definition front_byte (p : pipe) : Z :=
  default 0 (data p !! Z.to_nat (nread p mod PIPESIZE)).
Definition pop_byte (p : pipe) : pipe :=
  {| data := data p; nread := u32 (nread p + 1); nwrite := nwrite p;
     readopen := readopen p; writeopen := writeopen p |}.

Section pipe.
Context {U : Type} `{!Env U}.

Definition wake (chan : Z) : M (pipe * U) unit :=
  modify (fun s => (s.1, env_wakeup chan s.2)).

(** pipewrite, from the loop test with counter [i]. *)
Fixpoint pipewrite_loop (fuel : nat) (pi addr n i : Z) : M (pipe * U) pipe_out :=
  match fuel with
  | O => halt NoFuel
  | S fuel =>
      if i <? n then
        let* (p, u) := get in
        if (readopen p =? 0) || env_killed u then ret (PDone (-1))
        else if nwrite p =? u32 (nread p + PIPESIZE) then
          wake (chan_nread pi) ;; ret (PSleep i)
        else
          match env_copyin1 (addr + i) u with
          | None => wake (chan_nread pi) ;; ret (PDone i)
          | Some ch =>
              put (push_byte ch p, u) ;; pipewrite_loop fuel pi addr n (i + 1)
          end
      else wake (chan_nread pi) ;; ret (PDone i)
  end.

Definition pipewrite (pi addr n i : Z) : M (pipe * U) pipe_out :=
  pipewrite_loop (S (Z.to_nat (n - i))) pi addr n i.

(** piperead: the copy loop, entered once the pipe is not empty or has no
    writer. *)
Fixpoint piperead_loop (k : nat) (addr i : Z) : M (pipe * U) Z :=
  match k with
  | O => ret i
  | S k =>
      let* (p, u) := get in
      if nread p =? nwrite p then ret i
      else
        let ch := front_byte p in
        match env_copyout1 (addr + i) ch u with
        | None => put (pop_byte p, u) ;; ret i
        | Some u' => put (pop_byte p, u') ;; piperead_loop k addr (i + 1)
        end
  end.

Definition piperead (pi addr n : Z) : M (pipe * U) pipe_out :=
  let* (p, u) := get in
  if (nread p =? nwrite p) && nz (writeopen p) then
    if env_killed u then ret (PDone (-1)) else ret (PSleep 0)
  else
    let* i := piperead_loop (Z.to_nat n) addr 0 in
    wake (chan_nwrite pi) ;; ret (PDone i).

Definition pipeclose (pi writable : Z) : M (pipe * U) unit :=
  (if nz writable then
     modify (fun '(p, u) =>
       ({| data := data p; nread := nread p; nwrite := nwrite p;
           readopen := readopen p; writeopen := 0 |}, u)) ;;
     wake (chan_nread pi)
   else
     modify (fun '(p, u) =>
       ({| data := data p; nread := nread p; nwrite := nwrite p;
           readopen := 0; writeopen := writeopen p |}, u)) ;;
     wake (chan_nwrite pi)) ;;
  let* (p, u) := get in
  if (readopen p =? 0) && (writeopen p =? 0) then
    match env_kfree pi u with
    | Ok _ u' => put (p, u')
    | Stop e u' => put (p, u') ;; halt e
    end
  else ret tt.

End pipe.

(** ** Specification: a bounded queue of bytes *)

Definition pipe_inv (p : pipe) : Prop :=
  length (data p) = Z.to_nat PIPESIZE /\
  0 <= nread p < 2 ^ 32 /\ 0 <= nwrite p < 2 ^ 32 /\
  ahead 32 (nread p) (nwrite p) <= PIPESIZE.

Definition queue (p : pipe) : list Z := ring PIPESIZE 32 (data p) (nread p) (nwrite p).

(** The bytes of user memory [u] from address [a] on are [bs]. *)
Definition user_bytes {U} `{!Env U} (u : U) (a : Z) (bs : list Z) : Prop :=
  forall k b, bs !! k = Some b -> env_copyin1 (a + Z.of_nat k) u = Some b.

(** Copying [bs] to user memory byte by byte. *)
Fixpoint copyouts {U} `{!Env U} (a : Z) (bs : list Z) (u : U) : option U :=
  match bs with
  | [] => Some u
  | b :: bs =>
      match env_copyout1 a b u with
      | Some u' => copyouts (a + 1) bs u'
      | None => None
      end
  end.

(** The bytes a pipewrite that started at counter [i] took from user memory. *)
Definition taken {U} `{!Env U} (u : U) (addr i : Z) (out : pipe_out) : list Z :=
  let j := match out with PDone r => r | PSleep r => r end in
  omap (fun k => env_copyin1 (addr + k) u) (seqZ i (j - i)).

(** What the reader has of a piperead of pipe [p] that left its memory as [u']:
    the bytes of its buffer up to the count that was returned, and a byte that
    is gone if the next byte of the pipe could not be stored behind them. *)
Definition handed {U} `{!Env U} (p : pipe) (addr n : Z) (out : pipe_out) (u' : U) : list (option Z) :=
  match out with
  | PSleep _ => []
  | PDone r =>
      map (fun k => env_copyin1 (addr + k) u') (seqZ 0 r) ++
      match queue p !! Z.to_nat r with
      | Some b =>
          if r <? n then
            match env_copyout1 (addr + r) b u' with None => [None] | Some _ => [] end
          else []
      | None => []
      end
  end.

(** The histories of a pipe: reads, writes (or parts of writes between two
    sleeps) and closes in any order, by processes with any user memory, with
    the bytes sent and what the readers got so far, where [None] is a byte
    that did not fit in the memory of its reader. *)
Inductive pipe_run {U} `{!Env U} : pipe -> list Z -> list (option Z) -> Prop :=
  | run_init junk :
      length junk = Z.to_nat PIPESIZE -> pipe_run (pipe_init junk) [] []
  | run_write p sent recv pi addr n i (u : U) out p' u' :
      pipe_run p sent recv -> 0 <= i ->
      pipewrite pi addr n i (p, u) = Ok out (p', u') ->
      pipe_run p' (sent ++ taken u addr i out) recv
  | run_read p sent recv pi addr n (u : U) out p' u' :
      pipe_run p sent recv ->
      piperead pi addr n (p, u) = Ok out (p', u') ->
      pipe_run p' sent (recv ++ handed p addr n out u')
  | run_close p sent recv pi writable (u : U) p' u' :
      pipe_run p sent recv ->
      pipeclose pi writable (p, u) = Ok tt (p', u') ->
      pipe_run p' sent recv.

(** ** Lemmas *)

Lemma pipesize_pos : 0 < PIPESIZE.
Proof. done. Qed.
Lemma pipesize_div : (PIPESIZE | 2 ^ 32).
Proof. by exists (2 ^ 23). Qed.
#[local] Hint Resolve pipesize_pos pipesize_div : core.

Lemma pipe_full p :
  pipe_inv p -> (nwrite p =? u32 (nread p + PIPESIZE)) = true <->
  ahead 32 (nread p) (nwrite p) = PIPESIZE.
Proof.
  intros (_ & Hr & Hw & Ha). rewrite Z.eqb_eq. unfold u32, ahead, PIPESIZE in *. mlia.
Qed.

Lemma length_queue p : length (queue p) = Z.to_nat (ahead 32 (nread p) (nwrite p)).
Proof. apply length_ring. Qed.

Lemma push_byte_spec ch p :
  pipe_inv p -> (nwrite p =? u32 (nread p + PIPESIZE)) = false ->
  pipe_inv (push_byte ch p) /\ queue (push_byte ch p) = queue p ++ [ch].
Proof.
  intros Hp Hf. apply not_true_iff_false in Hf. rewrite pipe_full in Hf by done.
  destruct Hp as (Hl & Hr & Hw & Ha).
  assert (ahead 32 (nread p) (u32 (nwrite p + 1)) = ahead 32 (nread p) (nwrite p) + 1) as E.
  { apply ahead_succ; unfold PIPESIZE in *; lia. }
  split.
  - unfold pipe_inv. simpl. rewrite length_insert, E. pose proof (u32_range (nwrite p + 1)).
    unfold PIPESIZE in *. repeat split; lia.
  - unfold queue, push_byte. simpl. apply ring_push; auto; unfold PIPESIZE in *; lia.
Qed.

Lemma pop_byte_spec p :
  pipe_inv p -> (nread p =? nwrite p) = false ->
  pipe_inv (pop_byte p) /\ queue p = front_byte p :: queue (pop_byte p) /\
  ahead 32 (nread p) (nread (pop_byte p)) = 1.
Proof.
  intros (Hl & Hr & Hw & Ha) Hne. apply Z.eqb_neq in Hne.
  pose proof (ahead_range 32 ltac:(lia) (nread p) (nwrite p)) as Hrange.
  assert (ahead 32 (nread p) (nwrite p) <> 0) as H0.
  { intros E. apply Hne. eapply ahead_zero; eauto; lia. }
  assert (ahead 32 (u32 (nread p + 1)) (nwrite p) = ahead 32 (nread p) (nwrite p) - 1) as E.
  { apply ahead_pred; lia. }
  split_and!.
  - unfold pipe_inv. simpl. rewrite E. pose proof (u32_range (nread p + 1)).
    repeat split; try done; lia.
  - unfold queue, front_byte, pop_byte. simpl. apply ring_pop; auto; lia.
  - unfold pop_byte, ahead, u32. simpl. mlia.
Qed.

Lemma empty_queue p : pipe_inv p -> (nread p =? nwrite p) = true -> queue p = [].
Proof.
  intros _ E. apply Z.eqb_eq in E. unfold queue, ring. by rewrite E, ahead_self.
Qed.

Section lemmas.
Context {U : Type} `{!Env U}.

Lemma user_bytes_cons (u : U) a b bs :
  env_copyin1 a u = Some b -> user_bytes u (a + 1) bs -> user_bytes u a (b :: bs).
Proof.
  intros Hb Hbs [|k] c; simpl.
  - intros [= <-]. by rewrite Z.add_0_r.
  - intros Hk. replace (a + Z.of_nat (S k)) with (a + 1 + Z.of_nat k) by lia. auto.
Qed.

Lemma user_bytes_nil (u : U) a : user_bytes u a [].
Proof. done. Qed.

(** What one run of pipewrite's loop does. *)
Definition pipewrite_post (pi addr n i : Z) (p : pipe) (u : U)
    (out : pipe_out) (p' : pipe) (u' : U) (bs : list Z) : Prop :=
  pipe_inv p' /\ queue p' = queue p ++ bs /\ user_bytes u (addr + i) bs /\
  readopen p' = readopen p /\ writeopen p' = writeopen p /\
  match out with
  | PDone r =>
      (r = -1 /\ bs = [] /\ u' = u /\ i < n /\ (readopen p = 0 \/ env_killed u = true)) \/
      (r = i + Z.of_nat (length bs) /\ u' = env_wakeup (chan_nread pi) u /\
       (n <= r \/ env_copyin1 (addr + r) u = None))
  | PSleep j =>
      j = i + Z.of_nat (length bs) /\ j < n /\ length (queue p') = Z.to_nat PIPESIZE /\
      u' = env_wakeup (chan_nread pi) u
  end.

Lemma pipewrite_loop_spec fuel pi addr n i p u :
  pipe_inv p -> (Z.to_nat (n - i) < fuel)%nat ->
  exists out p' u' bs,
    pipewrite_loop fuel pi addr n i (p, u) = Ok out (p', u') /\
    pipewrite_post pi addr n i p u out p' u' bs.
Proof.
  revert p i. induction fuel as [|fuel IH]; intros p i Hp Hf; [lia|].
  cbn [pipewrite_loop]. unfold pipewrite_post.
  destruct (Z.ltb_spec i n) as [Hi|Hi].
  2:{ exists (PDone i), p, (env_wakeup (chan_nread pi) u), [].
      rewrite app_nil_r, Z.add_0_r. split; [done|]. split_and!; auto using user_bytes_nil; right; auto. }
  unfold bind at 1, get at 1. cbv iota beta.
  destruct ((readopen p =? 0) || env_killed u) eqn:Ek.
  { exists (PDone (-1)), p, u, []. rewrite app_nil_r. split; [done|].
    split_and!; auto using user_bytes_nil. left. split_and!; auto.
    apply orb_true_iff in Ek as [E|E]; [left; by apply Z.eqb_eq | by right]. }
  destruct (nwrite p =? u32 (nread p + PIPESIZE)) eqn:Efull.
  { exists (PSleep i), p, (env_wakeup (chan_nread pi) u), [].
    rewrite app_nil_r, Z.add_0_r. split; [done|]. apply pipe_full in Efull; [|done].
    split_and!; auto using user_bytes_nil. by rewrite length_queue, Efull. }
  destruct (env_copyin1 (addr + i) u) as [ch|] eqn:Ein.
  2:{ exists (PDone i), p, (env_wakeup (chan_nread pi) u), [].
      rewrite app_nil_r, Z.add_0_r. split; [done|]. split_and!; auto using user_bytes_nil; right; auto. }
  destruct (push_byte_spec ch p) as [Hp1 Hq1]; [done..|].
  destruct (IH (push_byte ch p) (i + 1)) as (out & p' & u' & bs & Hrun & Hpost); [done|lia|].
  exists out, p', u', (ch :: bs). split; [exact Hrun|].
  destruct Hpost as (Hp' & Hq & Hub & Hro & Hwo & Hout).
  rewrite Hq, Hq1, <- app_assoc. split_and!; auto.
  - apply user_bytes_cons; [done|]. by replace (addr + i + 1) with (addr + (i + 1)) by lia.
  - simpl length. rewrite Nat2Z.inj_succ. destruct out as [r|j].
    + destruct Hout as [(-> & _ & _ & _ & Hk) | (-> & -> & Hr)].
      * exfalso. simpl in Hk. apply orb_false_iff in Ek as [Ek1 Ek2].
        apply Z.eqb_neq in Ek1. destruct Hk; congruence.
      * right. split_and!; [lia | done |].
        by replace (i + Z.succ (Z.of_nat (length bs)))
             with (i + 1 + Z.of_nat (length bs)) by lia.
    + destruct Hout as (-> & ? & ? & ?). rewrite Hq, Hq1 in *.
      rewrite <- app_assoc in *. split_and!; auto; lia.
Qed.

Lemma piperead_loop_spec k addr i p u :
  pipe_inv p ->
  exists i' p' u' bs lost,
    piperead_loop k addr i (p, u) = Ok i' (p', u') /\ pipe_inv p' /\
    queue p = bs ++ lost ++ queue p' /\ i' = i + Z.of_nat (length bs) /\
    copyouts (addr + i) bs u = Some u' /\ (length bs <= k)%nat /\
    readopen p' = readopen p /\ writeopen p' = writeopen p /\
    data p' = data p /\ nwrite p' = nwrite p /\
    match lost with
    | [] => length bs = k \/ queue p' = []
    | [b] => (length bs < k)%nat /\ env_copyout1 (addr + i') b u' = None
    | _ => False
    end.
Proof.
  revert i p u. induction k as [|k IH]; intros i p u Hp; cbn [piperead_loop].
  { exists i, p, u, [], []. split_and!; auto; simpl; lia. }
  unfold bind at 1, get at 1. cbv iota beta.
  destruct (nread p =? nwrite p) eqn:E.
  { exists i, p, u, [], []. split_and!; auto; simpl; try lia.
    right. by apply empty_queue. }
  destruct (pop_byte_spec p) as (Hp1 & Hq1 & _); [done..|].
  destruct (env_copyout1 (addr + i) (front_byte p) u) as [u1|] eqn:Eo.
  - destruct (IH (i + 1) (pop_byte p) u1)
      as (i' & p' & u' & bs & lost & Hrun & Hp' & Hq & Hi' & Hco & Hlen & Hr & Hw & Hd & Hnw & Hl);
      [done|].
    exists i', p', u', (front_byte p :: bs), lost. split_and!; auto.
    + rewrite Hq1, Hq. done.
    + simpl length. lia.
    + simpl. rewrite Eo. by replace (addr + i + 1) with (addr + (i + 1)) by lia.
    + simpl. lia.
    + destruct lost as [|b [|]]; auto; [|split; [simpl; lia | apply Hl]].
      destruct Hl; [left; simpl; lia | by right].
  - exists i, (pop_byte p), u, [], [front_byte p]. split_and!; auto; simpl; lia.
Qed.

Lemma taken_spec (u : U) addr i bs :
  user_bytes u (addr + i) bs ->
  omap (fun k => env_copyin1 (addr + k) u) (seqZ i (Z.of_nat (length bs))) = bs.
Proof.
  revert i. induction bs as [|b bs IH]; intros i H; [done|].
  simpl length. rewrite Nat2Z.inj_succ, seqZ_cons by lia. simpl.
  pose proof (H 0%nat b eq_refl) as Hb. rewrite Z.add_0_r in Hb. rewrite Hb. f_equal.
  replace (Z.pred (Z.succ (Z.of_nat (length bs)))) with (Z.of_nat (length bs)) by lia.
  apply IH. intros k c Hk. specialize (H (S k) c Hk).
  by replace (addr + Z.succ i + Z.of_nat k) with (addr + i + Z.of_nat (S k)) by lia.
Qed.

(** What a write adds to the queue is what it took from its process. *)
Lemma pipewrite_taken pi addr n i p (u : U) out p' u' :
  pipe_inv p -> 0 <= i -> pipewrite pi addr n i (p, u) = Ok out (p', u') ->
  pipe_inv p' /\ queue p' = queue p ++ taken u addr i out.
Proof.
  intros Hp Hi Hrun.
  destruct (pipewrite_loop_spec (S (Z.to_nat (n - i))) pi addr n i p u)
    as (out' & p1 & u1 & bs & Hrun' & Hp' & Hq & Hub & _ & _ & Hout); [done | lia |].
  unfold pipewrite in Hrun. rewrite Hrun in Hrun'. simplify_eq. split; [done|].
  rewrite Hq. f_equal. rewrite <- (taken_spec u addr i bs Hub). unfold taken. destruct out' as [r|j].
  - destruct Hout as [(-> & -> & _) | (-> & _)]; simpl.
    + by rewrite (seqZ_nil i (-1 - i)) by lia.
    + do 2 f_equal. lia.
  - destruct Hout as (-> & _). do 2 f_equal. lia.
Qed.

(** What was copied out is there to be read, when nothing else has run. *)
Lemma copyouts_below `{!EnvLaws U} bs : forall a (u u' : U) a',
  copyouts a bs u = Some u' -> a' < a -> env_copyin1 a' u' = env_copyin1 a' u.
Proof.
  induction bs as [|b bs IH]; intros a u u' a'; cbn [copyouts]; [by intros [= <-]|].
  destruct (env_copyout1 a b u) as [u1|] eqn:E; [|done]. intros Hbs Ha.
  rewrite (IH (a + 1) u1 u' a') by (done || lia). apply (env_copyout1_other _ _ _ _ _ E). lia.
Qed.

Lemma copyouts_read `{!EnvLaws U} bs : forall a (u u' : U),
  copyouts a bs u = Some u' ->
  map (fun k => env_copyin1 (a + k) u') (seqZ 0 (Z.of_nat (length bs))) = map Some bs.
Proof.
  induction bs as [|b bs IH]; intros a u u'; cbn [copyouts]; [done|].
  destruct (env_copyout1 a b u) as [u1|] eqn:E; [|done]. intros Hbs.
  cbn [length]. rewrite Nat2Z.inj_succ, seqZ_cons, Z.pred_succ by lia. cbn [map]. f_equal.
  - rewrite Z.add_0_r, (copyouts_below _ _ _ _ a Hbs) by lia. by apply env_copyout1_same in E.
  - rewrite <- (IH (a + 1) u1 u' Hbs). rewrite <- (fmap_add_seqZ 1 0). rewrite map_map.
    apply map_ext. intros k. f_equal. lia.
Qed.

(** The bytes handed to a reader are the front of the queue. *)
Lemma handed_spec `{!EnvLaws U} pi addr n p (u : U) out p' u' :
  pipe_inv p -> piperead pi addr n (p, u) = Ok out (p', u') ->
  pipe_inv p' /\
  exists front, queue p = front ++ queue p' /\
    Forall2 (fun b o => o = Some b \/ o = None) front (handed p addr n out u').
Proof.
  intros Hp. unfold piperead. unfold bind at 1, get at 1. cbv iota beta.
  destruct ((nread p =? nwrite p) && nz (writeopen p)) eqn:E.
  { apply andb_true_iff in E as [E _]. pose proof (empty_queue p Hp E) as Hq.
    destruct (env_killed u); intros [= <- <- <-]; (split; [done|]; exists []; split; [done|]);
      cbn [handed]; rewrite ?Hq; constructor. }
  destruct (piperead_loop_spec (Z.to_nat n) addr 0 p u)
    as (i' & p1 & u1 & bs & lost & Hrun & Hp' & Hq & -> & Hco & Hlen & _ & _ & _ & _ & Hl); [done|].
  erewrite bind_run by exact Hrun. intros [= <- <- <-]. split; [done|].
  exists (bs ++ lost). split; [by rewrite Hq, app_assoc|].
  rewrite Z.add_0_r in Hco. cbn [handed]. rewrite Z.add_0_l in *.
  apply Forall2_app.
  - rewrite (map_ext _ (fun k => env_copyin1 (addr + k) u1)) by (intros; apply env_wakeup_copyin1).
    rewrite (copyouts_read _ _ _ _ Hco). clear. induction bs; cbn; auto.
  - rewrite Nat2Z.id, Hq, lookup_app_r, Nat.sub_diag by done. destruct lost as [|b [|]]; [| |done].
    + cbn [app]. destruct (queue p1) as [|b q] eqn:Eq; [constructor|]. cbn [lookup list_lookup].
      destruct Hl as [Hl|]; [|done]. rewrite (proj2 (Z.ltb_ge _ _)) by lia. constructor.
    + destruct Hl as [Hlt Hl]. cbn [app lookup list_lookup].
      apply (env_wakeup_copyout1 (chan_nwrite pi)) in Hl. rewrite Hl.
      rewrite (proj2 (Z.ltb_lt _ _)) by lia. constructor; [by right | constructor].
Qed.

Lemma pipe_init_inv junk :
  length junk = Z.to_nat PIPESIZE -> pipe_inv (pipe_init junk) /\ queue (pipe_init junk) = [].
Proof. intros H. split; [|done]. unfold pipe_inv. simpl. rewrite ahead_self. split_and!; auto; done. Qed.

Lemma pipeclose_queue pi writable p u p' u' :
  pipeclose pi writable (p, u) = Ok tt (p', u') ->
  data p' = data p /\ nread p' = nread p /\ nwrite p' = nwrite p.
Proof.
  unfold pipeclose. destruct (nz writable);
    unfold bind, modify, wake, get, put, ret, halt; simpl;
    repeat case_match; naive_solver.
Qed.

(** ** Properties *)

(** Pipewrite implements an append to a queue of at most 512 bytes: run
    from counter [i] it never diverges, and appends to the pipe exactly the
    user bytes it passed over. It returns -1 at once if the read end is
    closed or the process is killed, the count it reached if that is [n] or
    the next user byte cannot be read, and sleeps only when the pipe is full;
    readers are woken whenever it stops after work. *)
Theorem pipewrite_refines pi addr n i p (u : U) :
  pipe_inv p ->
  exists out p' u' bs,
    pipewrite pi addr n i (p, u) = Ok out (p', u') /\
    pipewrite_post pi addr n i p u out p' u' bs.
Proof. intros Hp. apply pipewrite_loop_spec; [done | lia]. Qed.

(** Piperead implements a dequeue. If the pipe is empty and has a writer
    it sleeps (or returns -1 when killed) and changes nothing; otherwise it
    copies a prefix of the queue, in order, to the user buffer and returns
    its length, taking as many bytes as there are, up to [n]; when the copy
    to the user fails, the byte that did not fit is consumed too and lost. *)
Theorem piperead_refines pi addr n p (u : U) :
  pipe_inv p ->
  exists out p' u',
    piperead pi addr n (p, u) = Ok out (p', u') /\ pipe_inv p' /\
    if (nread p =? nwrite p) && nz (writeopen p) then
      queue p = [] /\ p' = p /\ u' = u /\
      out = if env_killed u then PDone (-1) else PSleep 0
    else
      exists bs lost u1,
        queue p = bs ++ lost ++ queue p' /\ out = PDone (Z.of_nat (length bs)) /\
        copyouts addr bs u = Some u1 /\ u' = env_wakeup (chan_nwrite pi) u1 /\
        match lost with
        | [] => length bs = Z.to_nat n \/ queue p' = []
        | [b] => env_copyout1 (addr + Z.of_nat (length bs)) b u1 = None
        | _ => False
        end.
Proof.
  intros Hp. unfold piperead. unfold bind at 1, get at 1. cbv iota beta.
  destruct ((nread p =? nwrite p) && nz (writeopen p)) eqn:E.
  { apply andb_true_iff in E as [E _]. destruct (env_killed u); eexists _, p, u;
      split_and!; auto using empty_queue. }
  destruct (piperead_loop_spec (Z.to_nat n) addr 0 p u)
    as (i' & p' & u' & bs & lost & Hrun & Hp' & Hq & -> & Hco & _ & _ & _ & _ & _ & Hl); [done|].
  eexists _, p', _. split; [erewrite bind_run by exact Hrun; reflexivity|].
  split; [done|]. rewrite Z.add_0_r in Hco. exists bs, lost, u'. split_and!; auto.
  destruct lost as [|b [|]]; [done | apply Hl | done].
Qed.

(** C11: pipes are lossless FIFO channels under every interleaving of reads,
    writes and closes, by processes with any memory: what the writers' calls
    passed over in their memory is, byte for byte and in order, what the
    readers find in their buffers, up to the counts their calls returned,
    followed by what the buffer of the pipe holds. The one byte that can go
    missing in a read is the one that could not be stored at the end of the
    reader's buffer. The buffer never exceeds its 512 bytes, also when the
    32-bit counters wrap around. *)
Theorem pipe_fifo `{!EnvLaws U} p sent recv :
  pipe_run (U := U) p sent recv ->
  Forall2 (fun b o => o = Some b \/ o = None) sent (recv ++ map Some (queue p)) /\
  (length (queue p) <= Z.to_nat PIPESIZE)%nat.
Proof.
  intros H. cut (pipe_inv p /\ exists got, sent = got ++ queue p /\
    Forall2 (fun b o => o = Some b \/ o = None) got recv).
  { intros [(_ & _ & _ & Ha) (got & -> & HF)]. split; [|rewrite length_queue; lia].
    apply Forall2_app; [done|]. generalize (queue p). intros q. induction q; cbn; auto. }
  induction H as [junk Hj | p sent recv pi addr n i u out p' u' H [Hp (got & IH & HF)] Hi Hrun
    | p sent recv pi addr n u out p' u' H [Hp (got & IH & HF)] Hrun
    | p sent recv pi writable u p' u' H [Hp (got & IH & HF)] Hrun].
  - destruct (pipe_init_inv junk Hj) as [? ->]. split; [done|]. by exists [].
  - destruct (pipewrite_taken pi addr n i p u out p' u' Hp Hi Hrun) as [Hp' Hq]. split; [done|].
    exists got. by rewrite Hq, IH, app_assoc.
  - destruct (handed_spec pi addr n p u out p' u' Hp Hrun) as (Hp' & front & Hq & Hf). split; [done|].
    exists (got ++ front). split; [by rewrite IH, Hq, app_assoc | by apply Forall2_app].
  - apply pipeclose_queue in Hrun as (E1 & E2 & E3).
    unfold pipe_inv, queue in *. rewrite E1, E2, E3. eauto.
Qed.

End lemmas.

(** A pipe whose counters are about to wrap: two bytes written across the
    wrap-around, then one read. *)
Definition wrap_pipe : pipe :=
  {| data := replicate 512 0; nread := 2 ^ 32 - 1; nwrite := 2 ^ 32 - 1;
     readopen := 1; writeopen := 1 |}.

Lemma pipewrite_refines_witness :
  exists out p' u' bs,
    pipewrite 4096 0 2 0 (wrap_pipe, Tiny [7; 8] false [] []) = Ok out (p', u') /\
    pipewrite_post 4096 0 2 0 wrap_pipe (Tiny [7; 8] false [] []) out p' u' bs.
Proof.
  apply (pipewrite_refines 4096 0 2 0 wrap_pipe (Tiny [7; 8] false [] [])).
  unfold pipe_inv. vm_compute. repeat split; congruence.
Defined.

Lemma piperead_refines_witness :
  exists out p' u',
    piperead 4096 0 2 (wrap_pipe, Tiny [0; 0] false [] []) = Ok out (p', u') /\ out = PSleep 0.
Proof.
  destruct (piperead_refines 4096 0 2 wrap_pipe (Tiny [0; 0] false [] []))
    as (out & p' & u' & H & _ & _ & _ & _ & Hout).
  - unfold pipe_inv. vm_compute. repeat split; congruence.
  - by exists out, p', u'.
Defined.

(** Two bytes are written, then three are asked for by a reader with room for
    one: it gets the first, and the second is gone. *)
Definition left_state {S A} (r : res S A) : S := match r with Ok _ s => s | Stop _ s => s end.
Definition write_run := pipewrite 4096 0 2 0 (pipe_init (replicate 512 5%Z), Tiny [7; 8] false [] []).
Definition read_run := piperead 4096 0 3 ((left_state write_run).1, Tiny [0] false [] []).

Lemma pipe_fifo_witness :
  pipe_run (U := tiny) (left_state read_run).1 [7; 8] [Some 7; None] /\
  Forall2 (fun b o => o = Some b \/ o = None) [7; 8]
    ([Some 7; None] ++ map Some (queue (left_state read_run).1)) /\
  (length (queue (left_state read_run).1) <= Z.to_nat PIPESIZE)%nat.
Proof.
  assert (pipe_run (U := tiny) (left_state read_run).1 [7; 8] [Some 7; None]) as H.
  { change [Some 7; None] with ([] ++ handed (left_state write_run).1 0 3 (PDone 1) (left_state read_run).2).
    apply (run_read (left_state write_run).1 [7; 8] [] 4096 0 3 (Tiny [0] false [] []) (PDone 1)); [|vm_compute; reflexivity].
    change [7; 8] with ([] ++ taken (Tiny [7; 8] false [] []) 0 0 (PDone 2)).
    apply (run_write (pipe_init (replicate 512 5%Z)) [] [] 4096 0 2 0 (Tiny [7; 8] false [] []) (PDone 2) _ (left_state write_run).2);
      [by apply run_init | done | vm_compute; reflexivity]. }
  split; [exact H|]. exact (pipe_fifo _ _ _ H).
Defined.
