(* ===== verification/Grep.v ===== *)
(** * user/grep.c: the line filter and its regular-expression matcher

    A NUL-terminated string is the list of its bytes before the NUL. *)

From stdpp Require Import base list.
From Stdlib Require Import ZArith Lia.
From S2P Require Import Prelude.

Definition ch_nl : Z := 10.
Definition ch_dollar : Z := 36.
Definition ch_star : Z := 42.
Definition ch_dot : Z := 46.
Definition ch_caret : Z := 94.

(** ** The matcher *)

(** matchstar: [do { if(matchhere(re, text)) return 1; }
    while( *text != '\0' && ( *text++ == c || c == '.'));], where [here] is
    [matchhere] at the rest of the expression. *)
Fixpoint matchstar_loop (here : list Z -> bool) (c : Z) (text : list Z) : bool :=
  if here text then true
  else match text with
       | [] => false
       | t :: text' =>
           if (t =? c) || (c =? ch_dot) then matchstar_loop here c text' else false
       end.

(** matchhere: search for [re] at the beginning of [text]. *)
Fixpoint matchhere (re text : list Z) : bool :=
  match re with
  | [] => true
  | c :: re1 =>
      match re1 with
      | d :: re2 =>
          if d =? ch_star then matchstar_loop (matchhere re2) c text
          else match text with
               | [] => false
               | t :: text' =>
                   if (c =? ch_dot) || (c =? t) then matchhere re1 text' else false
               end
      | [] =>
          if c =? ch_dollar then match text with [] => true | _ => false end
          else match text with
               | [] => false
               | t :: text' =>
                   if (c =? ch_dot) || (c =? t) then matchhere re1 text' else false
               end
      end
  end.

Definition matchstar (c : Z) (re text : list Z) : bool :=
  matchstar_loop (matchhere re) c text.

(** The [do ... while( *text++ != '\0')] loop of [match]. *)
Fixpoint match_loop (re text : list Z) : bool :=
  if matchhere re text then true
  else match text with
       | [] => false
       | _ :: text' => match_loop re text'
       end.

(** match: search for [re] anywhere in [text]. *)
Definition match_ (re text : list Z) : bool :=
  match re with
  | c :: re' => if c =? ch_caret then matchhere re' text else match_loop re text
  | [] => match_loop re text
  end.

(** ** The filter loop *)

(** [strchr(p, '\n')] on the bytes of the buffer from [p] on: the bytes before
    the newline and those after it, or nothing when a NUL comes first. *)
Fixpoint split_line (p : list Z) : option (list Z * list Z) :=
  match p with
  | [] => None
  | c :: p =>
      if c =? ch_nl then Some ([], p)
      else if c =? 0 then None
      else match split_line p with
           | Some (l, r) => Some (c :: l, r)
           | None => None
           end
  end.

(** The inner loop: the bytes written to fd 1 and the bytes left from [p] on.
    Each turn drops a line, so the length of the buffer bounds the turns. *)
Fixpoint grep_lines (fuel : nat) (pattern p : list Z) : list Z * list Z :=
  match fuel with
  | O => ([], p)
  | S fuel =>
      match split_line p with
      | None => ([], p)
      | Some (line, rest) =>
          let '(out, p') := grep_lines fuel pattern rest in
          ((if match_ pattern line then line ++ [ch_nl] else []) ++ out, p')
      end
  end.

(** What [read] will return: the chunks of data still to come, each delivered
    as far as the caller's buffer has room. *)
Definition read (fd : list (list Z)) (room : nat) : list Z * list (list Z) :=
  match fd with
  | [] => ([], [])
  | c :: fd => (take room c, match drop room c with [] => fd | c' => c' :: fd end)
  end.

Definition bufsize : nat := 1024.

(** grep: [held] is [buf[0 .. m-1]]; the loop ends when read returns 0. *)
Fixpoint grep_loop (fuel : nat) (pattern held : list Z) (fd : list (list Z)) : option (list Z) :=
  match fuel with
  | O => None
  | S fuel =>
      let '(data, fd') := read fd (bufsize - length held - 1) in
      match data with
      | [] => Some []
      | _ =>
          let buf := held ++ data in
          let '(out, held') := grep_lines (S (length buf)) pattern buf in
          match grep_loop fuel pattern held' fd' with
          | Some out' => Some (out ++ out')
          | None => None
          end
      end
  end.

Definition grep (pattern : list Z) (fd : list (list Z)) : option (list Z) :=
  grep_loop (S (length (concat fd))) pattern [] fd.

(** ** Specification

    An expression denotes a sequence of items, each a character class possibly
    starred, with anchors at both ends. *)

Inductive item : Type :=
  | One (c : Z)
  | Star (c : Z).

Fixpoint items (re : list Z) : list item :=
  match re with
  | [] => []
  | c :: re1 =>
      match re1 with
      | [] => if c =? ch_dollar then [] else [One c]
      | d :: re2 => if d =? ch_star then Star c :: items re2 else One c :: items re1
      end
  end.

Fixpoint anchored_end (re : list Z) : bool :=
  match re with
  | [] => false
  | c :: re1 =>
      match re1 with
      | [] => c =? ch_dollar
      | d :: re2 => if d =? ch_star then anchored_end re2 else anchored_end re1
      end
  end.

Definition sat (c t : Z) : Prop := c = ch_dot \/ c = t.

Inductive lang : list item -> list Z -> Prop :=
  | lang_nil : lang [] []
  | lang_one c its t text : sat c t -> lang its text -> lang (One c :: its) (t :: text)
  | lang_star c its run text :
      Forall (sat c) run -> lang its text -> lang (Star c :: its) (run ++ text).

(** [re] matches at the beginning of [text]. *)
Definition matches_here (re text : list Z) : Prop :=
  exists mid suf, text = mid ++ suf /\ lang (items re) mid /\
                  (anchored_end re = true -> suf = []).

(** The lines of a text, without their newlines; an unterminated tail is not
    a line. *)
Fixpoint lines_from (acc text : list Z) : list (list Z) :=
  match text with
  | [] => []
  | c :: text => if c =? ch_nl then acc :: lines_from [] text else lines_from (acc ++ [c]) text
  end.
Definition lines (text : list Z) : list (list Z) := lines_from [] text.

Definition matching_lines (pattern text : list Z) : list Z :=
  concat (map (fun l => l ++ [ch_nl]) (List.filter (match_ pattern) (lines text))).

(** ** The matcher implements the specification *)

Lemma sat_bool c t : (c =? ch_dot) || (c =? t) = true <-> sat c t.
Proof. unfold sat. rewrite orb_true_iff, !Z.eqb_eq. done. Qed.

Lemma matchstar_loop_spec here c text :
  matchstar_loop here c text = true <->
  exists run rest, text = run ++ rest /\ Forall (sat c) run /\ here rest = true.
Proof.
  induction text as [|t text IH]; simpl.
  - split.
    + destruct (here []) eqn:E; [|done]. exists [], []. auto.
    + intros ([|] & [|] & ? & ? & H); simplify_eq/=. by rewrite H.
  - destruct (here (t :: text)) eqn:E.
    { split; [|done]. intros _. exists [], (t :: text). auto. }
    rewrite orb_comm, (Z.eqb_sym t c). destruct (_ || _) eqn:Es.
    + apply sat_bool in Es. rewrite IH. split.
      * intros (run & rest & -> & Hr & Hh). exists (t :: run), rest. auto.
      * intros (run & rest & Ht & Hr & Hh). destruct run as [|r run]; simplify_eq/=.
        { by rewrite E in Hh. }
        inversion Hr; subst. exists run, rest. auto.
    + split; [done|]. intros (run & rest & Ht & Hr & Hh).
      destruct run as [|r run]; simplify_eq/=; [by rewrite E in Hh|].
      inversion Hr as [|? ? Hs]; subst. apply sat_bool in Hs. congruence.
Qed.

Lemma matches_here_nil text : matches_here [] text.
Proof. exists [], text. split_and!; [done | constructor | done]. Qed.

Lemma matches_here_star c re text :
  matches_here (c :: ch_star :: re) text <->
  exists run rest, text = run ++ rest /\ Forall (sat c) run /\ matches_here re rest.
Proof.
  unfold matches_here. simpl. split.
  - intros (mid & suf & -> & Hl & Ha). inversion Hl; subst.
    exists run, (text ++ suf). rewrite app_assoc. eauto 10.
  - intros (run & rest & -> & Hr & mid & suf & -> & Hl & Ha).
    exists (run ++ mid), suf. rewrite app_assoc. auto using lang_star.
Qed.

Lemma matches_here_char c re text :
  items (c :: re) = One c :: items re -> anchored_end (c :: re) = anchored_end re ->
  matches_here (c :: re) text <->
  exists t text', text = t :: text' /\ sat c t /\ matches_here re text'.
Proof.
  unfold matches_here. intros -> ->. split.
  - intros (mid & suf & -> & Hl & Ha). inversion Hl; subst. simpl. eauto 10.
  - intros (t & text' & -> & Hs & mid & suf & -> & Hl & Ha).
    exists (t :: mid), suf. auto using lang_one.
Qed.

Lemma matchhere_spec re text : matchhere re text = true <-> matches_here re text.
Proof.
  remember (length re) as n eqn:Hn. revert re text Hn.
  induction n as [n IH] using lt_wf_ind. intros re text ->.
  destruct re as [|c re1]; [split; auto using matches_here_nil|].
  assert (forall re', (length re' < length (c :: re1))%nat ->
            forall tx, matchhere re' tx = true <-> matches_here re' tx) as IH'
    by (intros; by eapply IH). clear IH.
  assert (matchhere (c :: re1) text =
          match text with
          | [] => false
          | t :: text' => if (c =? ch_dot) || (c =? t) then matchhere re1 text' else false
          end ->
          items (c :: re1) = One c :: items re1 ->
          anchored_end (c :: re1) = anchored_end re1 ->
          matchhere (c :: re1) text = true <-> matches_here (c :: re1) text) as Hchar.
  { intros -> Hi Ha. rewrite matches_here_char by done. destruct text as [|t text].
    - naive_solver.
    - destruct (_ || _) eqn:E.
      + apply sat_bool in E. rewrite IH' by (simpl; lia). naive_solver.
      + split; [done|]. intros (? & ? & [= -> ->] & Hs & _).
        apply sat_bool in Hs. congruence. }
  destruct re1 as [|d re2].
  - destruct (Z.eqb_spec c ch_dollar) as [->|Hd].
    + split.
      * destruct text; [|done]. intros _. exists [], [].
        split_and!; [done | constructor | done].
      * intros (mid & suf & -> & Hl & Ha). inversion Hl; subst. by rewrite Ha.
    + apply Hchar; simpl; destruct (Z.eqb_spec c ch_dollar); done.
  - destruct (Z.eqb_spec d ch_star) as [->|Hd].
    + rewrite matches_here_star. simpl. rewrite matchstar_loop_spec.
      setoid_rewrite IH'; [done | simpl; lia].
    + apply Hchar; simpl; destruct (Z.eqb_spec d ch_star); done.
Qed.

Lemma match_loop_spec re text :
  match_loop re text = true <-> exists pre rest, text = pre ++ rest /\ matchhere re rest = true.
Proof.
  induction text as [|t text IH]; simpl.
  - destruct (matchhere re []) eqn:E; split; auto.
    + intros _. by exists [], [].
    + done.
    + intros ([|] & [|] & ? & H); simplify_eq/=. congruence.
  - destruct (matchhere re (t :: text)) eqn:E.
    { split; [|done]. intros _. by exists [], (t :: text). }
    rewrite IH. split.
    + intros (pre & rest & -> & H). by exists (t :: pre), rest.
    + intros ([|p pre] & rest & ? & H); simplify_eq/=; [congruence | eauto].
Qed.

(** ** The filter prints exactly the matching lines *)

Lemma split_line_Some p l r :
  split_line p = Some (l, r) -> p = l ++ ch_nl :: r /\ ch_nl ∉ l.
Proof.
  revert l. induction p as [|c p IH]; intros l; simpl; [done|].
  destruct (Z.eqb_spec c ch_nl) as [->|Hc].
  { intros [= <- <-]. split; [done | by apply not_elem_of_nil]. }
  destruct (c =? 0); [done|]. destruct (split_line p) as [[l' r']|]; [|done].
  intros [= <- ->]. destruct (IH l') as [-> Hnl]; [done|].
  split; [done|]. by rewrite not_elem_of_cons.
Qed.

Lemma split_line_None p : 0 ∉ p -> split_line p = None -> ch_nl ∉ p.
Proof.
  induction p as [|c p IH]; simpl; [intros _ _; apply not_elem_of_nil|].
  rewrite !not_elem_of_cons. intros [H0 Hp].
  destruct (Z.eqb_spec c ch_nl) as [->|Hc]; [done|].
  destruct (Z.eqb_spec c 0); [done|].
  destruct (split_line p) as [[]|]; [done|]. auto.
Qed.

Lemma lines_from_line acc l r :
  ch_nl ∉ l -> lines_from acc (l ++ ch_nl :: r) = (acc ++ l) :: lines r.
Proof.
  revert acc. induction l as [|c l IH]; intros acc; simpl.
  - by rewrite app_nil_r.
  - rewrite not_elem_of_cons. intros [Hc Hl].
    destruct (Z.eqb_spec c ch_nl); [congruence|]. rewrite IH by done.
    by rewrite <- app_assoc.
Qed.

Lemma lines_from_tail acc l : ch_nl ∉ l -> lines_from acc l = [].
Proof.
  revert acc. induction l as [|c l IH]; intros acc; simpl; [done|].
  rewrite not_elem_of_cons. intros [Hc Hl].
  destruct (Z.eqb_spec c ch_nl); [congruence|]. auto.
Qed.

Lemma lines_long held text :
  ch_nl ∉ held -> Forall (fun l => (length l < length held)%nat) (lines (held ++ text)) ->
  lines (held ++ text) = [].
Proof.
  intros Hh Hl. destruct (decide (ch_nl ∈ text)) as [Hin|Hout].
  - apply list_elem_of_split in Hin as (l1 & l2 & ->).
    assert (exists a b, l1 ++ ch_nl :: l2 = a ++ ch_nl :: b /\ ch_nl ∉ a) as (a & b & E & Ha).
    { clear. induction l1 as [|c l1 (a & b & E & Ha)]; simpl.
      - exists [], l2. split; [done | apply not_elem_of_nil].
      - destruct (decide (c = ch_nl)) as [->|].
        + eexists [], _. split; [done | apply not_elem_of_nil].
        + exists (c :: a), b. rewrite E, not_elem_of_cons. done. }
    rewrite E in *. unfold lines in *. rewrite app_assoc in *.
    rewrite lines_from_line in Hl by (rewrite elem_of_app; tauto).
    inversion Hl as [|? ? Hlen]. simpl in Hlen. rewrite length_app in Hlen. lia.
  - apply lines_from_tail. rewrite elem_of_app. tauto.
Qed.

Lemma matching_lines_cons pattern l r :
  ch_nl ∉ l ->
  matching_lines pattern (l ++ ch_nl :: r) =
  (if match_ pattern l then l ++ [ch_nl] else []) ++ matching_lines pattern r.
Proof.
  intros Hl. unfold matching_lines. unfold lines at 1.
  rewrite lines_from_line by done. cbn [List.filter app]. by destruct (match_ pattern l).
Qed.

(** The inner loop consumes the complete lines and keeps the tail. *)
Lemma grep_lines_spec fuel pattern p out p' :
  0 ∉ p -> (length p < fuel)%nat -> grep_lines fuel pattern p = (out, p') ->
  ch_nl ∉ p' /\ (exists pre, p = pre ++ p') /\
  (forall q, matching_lines pattern (p ++ q) = out ++ matching_lines pattern (p' ++ q) /\
             (Forall (fun l => (length l < 1023)%nat) (lines (p ++ q)) ->
              Forall (fun l => (length l < 1023)%nat) (lines (p' ++ q)))).
Proof.
  revert p out. induction fuel as [|fuel IH]; intros p out H0 Hf; [lia|].
  cbn [grep_lines]. destruct (split_line p) as [[line rest]|] eqn:E.
  - apply split_line_Some in E as [-> Hnl].
    destruct (grep_lines fuel pattern rest) as [out1 p1] eqn:Eg. intros [= <- ->].
    rewrite length_app in Hf. simpl in Hf.
    rewrite elem_of_app, elem_of_cons in H0.
    destruct (IH rest out1) as (Hp & [pre ->] & Hq); [tauto | lia | done |].
    split; [done|]. split; [exists (line ++ ch_nl :: pre); by rewrite <- app_assoc|].
    intros q. destruct (Hq q) as [Hm Hl].
    replace ((line ++ ch_nl :: pre ++ p') ++ q)
      with (line ++ ch_nl :: ((pre ++ p') ++ q)) by (rewrite <- (app_assoc line); reflexivity).
    rewrite matching_lines_cons, Hm by done. split; [by rewrite app_assoc|].
    unfold lines in *. rewrite lines_from_line by done. intros Hall. inversion Hall; auto.
  - intros [= <- <-]. apply split_line_None in E; [|done].
    split; [done|]. split; [by exists []|]. auto.
Qed.

Lemma read_spec fd room data fd' :
  Forall (fun c => c <> []) fd -> read fd room = (data, fd') ->
  data ++ concat fd' = concat fd /\ Forall (fun c => c <> []) fd' /\
  (data = [] -> fd = [] \/ room = O).
Proof.
  unfold read. destruct fd as [|c fd]; intros Hne [= <- <-]; [auto|].
  inversion Hne as [|? ? Hc Hfd]; subst. split_and!.
  - destruct (drop room c) as [|d ds] eqn:E; simpl.
    + rewrite <- (take_drop room c) at 2. by rewrite E, app_nil_r.
    + rewrite <- (take_drop room c) at 2. by rewrite E, <- app_assoc.
  - destruct (drop room c); [done | by constructor].
  - destruct room, c; simpl; auto; done.
Qed.

Lemma grep_loop_spec fuel pattern held fd :
  Forall (fun c => c <> []) fd -> 0 ∉ held ++ concat fd -> ch_nl ∉ held ->
  Forall (fun l => (length l < 1023)%nat) (lines (held ++ concat fd)) ->
  (length (concat fd) < fuel)%nat ->
  grep_loop fuel pattern held fd = Some (matching_lines pattern (held ++ concat fd)).
Proof.
  revert held fd. induction fuel as [|fuel IH]; intros held fd Hne H0 Hh Hl Hf; [lia|].
  cbn [grep_loop].
  destruct (read fd (bufsize - length held - 1)) as [data fd'] eqn:Er.
  apply read_spec in Er as (Hc & Hne' & Hnil); [|done].
  destruct data as [|d data].
  - unfold matching_lines. destruct (Hnil eq_refl) as [-> | Hroom].
    + simpl. rewrite app_nil_r. unfold lines. by rewrite lines_from_tail.
    + rewrite lines_long; [done | done |].
      eapply Forall_impl; [exact Hl|]. simpl. unfold bufsize in Hroom. lia.
  - remember (d :: data) as data' eqn:Ed.
    assert (0 < length data')%nat as Hd by (subst; simpl; lia). clear Hnil Ed d data.
    destruct (grep_lines (S (length (held ++ data'))) pattern (held ++ data'))
      as [out held'] eqn:Eg.
    rewrite <- Hc, app_assoc in *. rewrite elem_of_app in H0.
    apply grep_lines_spec in Eg as (Hh' & [pre Hpre] & Hq); [|tauto | lia].
    destruct (Hq (concat fd')) as [Hm Hl'].
    rewrite length_app in Hf. rewrite IH; auto; [by rewrite Hm | | lia].
    rewrite Hpre, !elem_of_app in H0. rewrite elem_of_app. tauto.
Qed.

(** ** Properties *)

(** C9: the matcher agrees with the meaning of the expressions: [match(re,
    text)] holds exactly when some substring of the text is in the language
    of the expression's items, at the start of the text when the expression
    begins with a caret and at its end when it ends with a dollar. *)
Theorem match_correct re text :
  match_ re text = true <->
  exists pre mid suf,
    let body := match re with
                | c :: re' => if c =? ch_caret then re' else re
                | [] => re
                end in
    text = pre ++ mid ++ suf /\ lang (items body) mid /\
    (body <> re -> pre = []) /\ (anchored_end body = true -> suf = []).
Proof.
  assert (match_loop re text = true <->
          exists pre mid suf, text = pre ++ mid ++ suf /\ lang (items re) mid /\
            (re <> re -> pre = []) /\ (anchored_end re = true -> suf = [])) as Hloop.
  { rewrite match_loop_spec. setoid_rewrite matchhere_spec. unfold matches_here. split.
    - intros (pre & rest & -> & mid & suf & -> & Hl & Ha). exists pre, mid, suf. tauto.
    - intros (pre & mid & suf & -> & Hl & _ & Ha). exists pre, (mid ++ suf).
      split; [done|]. by exists mid, suf. }
  unfold match_. destruct re as [|c re']; [done|].
  destruct (Z.eqb_spec c ch_caret) as [->|]; [|done].
  rewrite matchhere_spec. unfold matches_here. split.
  - intros (mid & suf & -> & Hl & Ha). by exists [], mid, suf.
  - intros (pre & mid & suf & -> & Hl & Hp & Ha).
    rewrite Hp; [by exists mid, suf|]. intros E. apply (f_equal length) in E. simpl in E. lia.
Qed.

(** Grep terminates and, however [read] cuts the input into chunks, prints
    exactly the newline-terminated lines that match the pattern, in order, as
    long as the input has no NUL and no line overflows the buffer. *)
Theorem grep_correct pattern fd :
  Forall (fun c => c <> []) fd -> 0 ∉ concat fd ->
  Forall (fun l => (length l < 1023)%nat) (lines (concat fd)) ->
  grep pattern fd = Some (matching_lines pattern (concat fd)).
Proof.
  intros Hne H0 Hl. unfold grep. rewrite grep_loop_spec; simpl; auto using not_elem_of_nil.
Qed.
Lemma grep_correct_witness :
  grep [94; 97] [[98; 97; 10; 97]; [99; 10]] = Some [97; 99; 10].
Proof.
  rewrite (grep_correct [94; 97] [[98; 97; 10; 97]; [99; 10]]).
  - reflexivity.
  - repeat constructor; done.
  - simpl. apply (bool_decide_unpack _). reflexivity.
  - simpl. repeat constructor.
Defined.
