(* ===== verification/Sleeplock.v ===== *)
(** * sleeplock.c: locks held across sleeps

    The inner spinlock makes every operation atomic. [acquiresleep] returns
    [None] when the lock is taken: the caller sleeps on the lock and tries
    again when woken. *)

From stdpp Require Import base tactics.
From Stdlib Require Import ZArith Lia.
From S2P Require Import Prelude.

Record sleeplock : Type := Sleeplock {
  sl_locked : Z;  (* is the lock held? *)
  sl_pid : Z;     (* process holding the lock *)
}.

Definition initsleeplock : sleeplock := {| sl_locked := 0; sl_pid := 0 |}.

Definition acquiresleep (mypid : Z) (lk : sleeplock) : option sleeplock :=
  if nz (sl_locked lk) then None else Some {| sl_locked := 1; sl_pid := mypid |}.

Definition releasesleep (lk : sleeplock) : sleeplock := {| sl_locked := 0; sl_pid := 0 |}.

Definition holdingsleep (mypid : Z) (lk : sleeplock) : bool :=
  nz (sl_locked lk) && (sl_pid lk =? mypid).

(** ** Lemmas *)

Lemma acquiresleep_holding mypid lk lk' :
  acquiresleep mypid lk = Some lk' -> holdingsleep mypid lk' = true.
Proof.
  unfold acquiresleep. destruct (nz (sl_locked lk)); [done|]. intros [= <-].
  unfold holdingsleep. simpl. apply Z.eqb_refl.
Qed.

Lemma holdingsleep_locked mypid lk :
  holdingsleep mypid lk = true -> acquiresleep mypid lk = None.
Proof.
  unfold holdingsleep, acquiresleep. destruct (nz (sl_locked lk)); [done|]. discriminate.
Qed.
