(* ===== verification/Bytes.v ===== *)
(** * Structures laid out in the bytes of a block

    The kernel reads and writes the log header, the inodes and the directory
    entries through pointers into [b->data]. Here a block is the list of its
    bytes; [ld] and [st] are the little-endian accesses of [n] bytes at an
    offset. *)

From stdpp Require Import base list.
From Stdlib Require Import ZArith Lia.
From S2P Require Import Prelude.

Definition byte_at (bs : list Z) (o : Z) : Z := default 0 (bs !! Z.to_nat o).

Fixpoint ld (bs : list Z) (o : Z) (n : nat) : Z :=
  match n with
  | O => 0
  | S n => byte_at bs o + 256 * ld bs (o + 1) n
  end.

Fixpoint st (bs : list Z) (o : Z) (n : nat) (v : Z) : list Z :=
  match n with
  | O => bs
  | S n => st (<[Z.to_nat o := u8 v]> bs) (o + 1) n (v / 256)
  end.

Definition ld16 (bs : list Z) (o : Z) : Z := ld bs o 2.
Definition ld32 (bs : list Z) (o : Z) : Z := ld bs o 4.
Definition st16 (bs : list Z) (o v : Z) : list Z := st bs o 2 v.
Definition st32 (bs : list Z) (o v : Z) : list Z := st bs o 4 v.

(** The [n] bytes from offset [o], and their replacement by [xs]. *)
Definition slice (bs : list Z) (o n : Z) : list Z := take (Z.to_nat n) (drop (Z.to_nat o) bs).
Definition splice (bs : list Z) (o : Z) (xs : list Z) : list Z :=
  take (Z.to_nat o) bs ++ xs ++ drop (Z.to_nat o + length xs) bs.

(** Every element is a byte. *)
Definition bytes_ok (bs : list Z) : Prop := Forall (fun x => 0 <= x < 256) bs.

(** ** Laws *)

Lemma length_st n : forall bs o v, length (st bs o n v) = length bs.
Proof. induction n as [|n IH]; intros; simpl; [done|]. rewrite IH. apply length_insert. Qed.

Lemma byte_at_insert_ne bs o p v :
  0 <= o -> 0 <= p -> o <> p -> byte_at (<[Z.to_nat o := v]> bs) p = byte_at bs p.
Proof. intros. unfold byte_at. rewrite list_lookup_insert_ne by lia. done. Qed.

Lemma byte_at_insert_eq bs o v :
  0 <= o < Z.of_nat (length bs) -> byte_at (<[Z.to_nat o := v]> bs) o = v.
Proof. intros. unfold byte_at. rewrite list_lookup_insert_eq by lia. done. Qed.

Lemma byte_at_st_out n : forall bs o v p,
  0 <= o -> 0 <= p -> p < o \/ o + Z.of_nat n <= p -> byte_at (st bs o n v) p = byte_at bs p.
Proof.
  induction n as [|n IH]; intros bs o v p Ho Hp Hd; cbn [st]; [done|].
  rewrite IH by lia. apply byte_at_insert_ne; lia.
Qed.

Lemma ld_ext n : forall bs bs' o,
  0 <= o -> (forall p, o <= p < o + Z.of_nat n -> byte_at bs p = byte_at bs' p) ->
  ld bs o n = ld bs' o n.
Proof.
  induction n as [|n IH]; intros bs bs' o Ho Hb; cbn [ld]; [done|].
  rewrite (Hb o) by lia. rewrite (IH bs bs' (o + 1)); [done | lia |]. intros. apply Hb. lia.
Qed.

Lemma ld_st_out n m bs o p v :
  0 <= o -> 0 <= p -> p + Z.of_nat m <= o \/ o + Z.of_nat n <= p ->
  ld (st bs o n v) p m = ld bs p m.
Proof. intros. apply ld_ext; [done|]. intros. apply byte_at_st_out; lia. Qed.

Lemma ld_st n : forall bs o v,
  0 <= o -> o + Z.of_nat n <= Z.of_nat (length bs) ->
  ld (st bs o n v) o n = v mod 256 ^ Z.of_nat n.
Proof.
  induction n as [|n IH]; intros bs o v Ho Hn; cbn [ld st].
  { simpl. by rewrite Z.mod_1_r. }
  rewrite IH by (rewrite ?length_insert; lia).
  rewrite byte_at_st_out, byte_at_insert_eq by lia. unfold u8.
  rewrite Nat2Z.inj_succ, Z.pow_succ_r by lia. change (2 ^ 8) with 256.
  pose proof (Z.pow_pos_nonneg 256 (Z.of_nat n)).
  rewrite Z.rem_mul_r by lia. done.
Qed.

Lemma ld32_st32 bs o v :
  0 <= o -> o + 4 <= Z.of_nat (length bs) -> ld32 (st32 bs o v) o = u32 v.
Proof. intros. unfold ld32, st32. rewrite ld_st by lia. done. Qed.

Lemma ld16_st16 bs o v :
  0 <= o -> o + 2 <= Z.of_nat (length bs) -> ld16 (st16 bs o v) o = u16 v.
Proof. intros. unfold ld16, st16. rewrite ld_st by lia. done. Qed.

Lemma ld32_st32_out bs o p v :
  0 <= o -> 0 <= p -> p + 4 <= o \/ o + 4 <= p -> ld32 (st32 bs o v) p = ld32 bs p.
Proof. intros. apply ld_st_out; lia. Qed.

Lemma bytes_ok_st n : forall bs o v, bytes_ok bs -> bytes_ok (st bs o n v).
Proof.
  induction n as [|n IH]; intros bs o v Hb; cbn [st]; [done|].
  apply IH. apply Forall_insert; [done | apply u8_range].
Qed.

Lemma byte_at_range bs o : bytes_ok bs -> 0 <= byte_at bs o < 256.
Proof.
  intros Hb. unfold byte_at. destruct (bs !! Z.to_nat o) eqn:E; simpl; [|lia].
  by apply (Forall_lookup_1 _ _ _ _ Hb E).
Qed.

Lemma ld_range n : forall bs o, bytes_ok bs -> 0 <= ld bs o n < 256 ^ Z.of_nat n.
Proof.
  induction n as [|n IH]; intros bs o Hb; cbn [ld]; [simpl; lia|].
  pose proof (byte_at_range bs o Hb). specialize (IH bs (o + 1) Hb).
  rewrite Nat2Z.inj_succ, Z.pow_succ_r by lia. lia.
Qed.

Lemma length_splice bs o xs :
  0 <= o -> o + Z.of_nat (length xs) <= Z.of_nat (length bs) ->
  length (splice bs o xs) = length bs.
Proof.
  intros. unfold splice. rewrite !length_app, length_take, length_drop. lia.
Qed.

Lemma slice_splice bs o xs :
  0 <= o -> o + Z.of_nat (length xs) <= Z.of_nat (length bs) ->
  slice (splice bs o xs) o (Z.of_nat (length xs)) = xs.
Proof.
  intros. unfold slice, splice. rewrite drop_app_length' by (rewrite length_take; lia).
  by rewrite Nat2Z.id, take_app_length.
Qed.

Lemma byte_at_splice bs o xs p :
  0 <= o -> o + Z.of_nat (length xs) <= Z.of_nat (length bs) -> 0 <= p ->
  byte_at (splice bs o xs) p =
    if (o <=? p) && (p <? o + Z.of_nat (length xs)) then byte_at xs (p - o) else byte_at bs p.
Proof.
  intros Ho Hl Hp. unfold byte_at, splice.
  destruct (Z.leb_spec o p); simpl.
  - rewrite lookup_app_r by (rewrite length_take; lia). rewrite length_take.
    replace (Z.to_nat p - Z.to_nat o `min` length bs)%nat with (Z.to_nat (p - o)) by lia.
    destruct (Z.ltb_spec p (o + Z.of_nat (length xs))).
    + by rewrite lookup_app_l by lia.
    + rewrite lookup_app_r by lia. rewrite lookup_drop. do 2 f_equal. lia.
  - rewrite lookup_app_l by (rewrite length_take; lia). rewrite lookup_take_lt by lia. done.
Qed.

Lemma byte_at_slice bs o n p :
  0 <= o -> 0 <= p < n -> byte_at (slice bs o n) p = byte_at bs (o + p).
Proof.
  intros. unfold byte_at, slice. rewrite lookup_take_lt by lia. rewrite lookup_drop.
  do 2 f_equal. lia.
Qed.
