(* ===== verification/Bio.v ===== *)
(** * bio.c: the buffer cache, and the disk under it

    The buffers are the array [bcache.buf] with the list head [bcache.head] as
    one more element, linked through [b_prev] and [b_next] by index. The disk
    is the map of its blocks together with the sequence of block writes it has
    been given, which is what a crash cuts short. [virtio_disk_rw] is the
    contract of the driver: a transfer of one whole block. *)

From stdpp Require Import base gmap list strings.
From Stdlib Require Import ZArith Lia.
From S2P Require Import Prelude Sleeplock.

Definition BSIZE : Z := 1024.
Definition MAXOPBLOCKS : Z := 10.
Definition NBUF : nat := 30.

Abbreviation block := (list Z).

Record buf : Type := Buf {
  b_valid : Z;     (* has data been read from disk? *)
  b_dev : Z;
  b_blockno : Z;
  b_lock : sleeplock;
  b_refcnt : Z;    (* a uint *)
  b_prev : nat;    (* LRU cache list *)
  b_next : nat;
  b_data : block;
}.

Definition zero_block : block := replicate (Z.to_nat BSIZE) 0.
Definition zero_buf : buf := Buf 0 0 0 initsleeplock 0 0 0 zero_block.

Definition set_valid (v : Z) (b : buf) : buf :=
  Buf v (b_dev b) (b_blockno b) (b_lock b) (b_refcnt b) (b_prev b) (b_next b) (b_data b).
Definition set_lock (l : sleeplock) (b : buf) : buf :=
  Buf (b_valid b) (b_dev b) (b_blockno b) l (b_refcnt b) (b_prev b) (b_next b) (b_data b).
Definition set_refcnt (r : Z) (b : buf) : buf :=
  Buf (b_valid b) (b_dev b) (b_blockno b) (b_lock b) r (b_prev b) (b_next b) (b_data b).
Definition set_prev (p : nat) (b : buf) : buf :=
  Buf (b_valid b) (b_dev b) (b_blockno b) (b_lock b) (b_refcnt b) p (b_next b) (b_data b).
Definition set_next (n : nat) (b : buf) : buf :=
  Buf (b_valid b) (b_dev b) (b_blockno b) (b_lock b) (b_refcnt b) (b_prev b) n (b_data b).
Definition set_data (d : block) (b : buf) : buf :=
  Buf (b_valid b) (b_dev b) (b_blockno b) (b_lock b) (b_refcnt b) (b_prev b) (b_next b) d.
Definition set_id (dev blockno : Z) (b : buf) : buf :=
  Buf 0 dev blockno (b_lock b) 1 (b_prev b) (b_next b) (b_data b).

(** The index of [bcache.head]. *)
Definition HEAD : nat := NBUF.

Record bstate : Type := BState {
  bufs : list buf;                (* bcache.buf[0..NBUF-1], then bcache.head *)
  disk : gmap Z block;
  writes : list (Z * block);      (* the block writes the disk has performed *)
  mypid : Z;                      (* myproc()->pid *)
}.

Definition bget_buf (s : bstate) (i : nat) : buf := default zero_buf (bufs s !! i).
Definition upd_buf (i : nat) (f : buf -> buf) (s : bstate) : bstate :=
  BState (alter f i (bufs s)) (disk s) (writes s) (mypid s).

Definition read_block (d : gmap Z block) (b : Z) : block := default zero_block (d !! b).

(** virtio_disk_rw(b, write): one synchronous block transfer. *)
Definition virtio_disk_rw (i : nat) (write : bool) : M bstate unit :=
  if write then
    modify (fun s =>
      let b := bget_buf s i in
      BState (bufs s) (<[b_blockno b := b_data b]> (disk s))
             (writes s ++ [(b_blockno b, b_data b)]) (mypid s))
  else
    modify (fun s =>
      upd_buf i (set_data (read_block (disk s) (b_blockno (bget_buf s i)))) s).

(** binit: link every buffer at the front of the list. *)
Definition link_front (i : nat) : M bstate unit :=
  modify (fun s => upd_buf i (set_next (b_next (bget_buf s HEAD))) s) ;;
  modify (upd_buf i (set_prev HEAD)) ;;
  modify (upd_buf i (set_lock initsleeplock)) ;;
  modify (fun s => upd_buf (b_next (bget_buf s HEAD)) (set_prev i) s) ;;
  modify (upd_buf HEAD (set_next i)).

Definition binit : M bstate unit :=
  modify (upd_buf HEAD (set_prev HEAD)) ;;
  modify (upd_buf HEAD (set_next HEAD)) ;;
  for_each (seq 0 NBUF) link_front.

(** The loops of bget: follow [b_next] (or [b_prev]) from [i] to the head. *)
Fixpoint scan (fuel : nat) (link : buf -> nat) (test : buf -> bool) (s : bstate) (i : nat)
    : option nat :=
  match fuel with
  | O => None
  | S fuel =>
      if Nat.eqb i HEAD then None
      else if test (bget_buf s i) then Some i
      else scan fuel link test s (link (bget_buf s i))
  end.

(** acquiresleep(&b->lock), sleeping when another process holds it. *)
Definition lock_buf (i : nat) : M bstate unit :=
  let* s := get in
  match acquiresleep (mypid s) (b_lock (bget_buf s i)) with
  | Some lk => modify (upd_buf i (set_lock lk))
  | None => halt (Sleep (Z.of_nat i))
  end.

Definition bget (dev blockno : Z) : M bstate nat :=
  let* s := get in
  let same b := (b_dev b =? dev) && (b_blockno b =? blockno) in
  match scan (S NBUF) b_next same s (b_next (bget_buf s HEAD)) with
  | Some i =>
      modify (upd_buf i (fun b => set_refcnt (u32 (b_refcnt b + 1)) b)) ;;
      lock_buf i ;; ret i
  | None =>
      match scan (S NBUF) b_prev (fun b => b_refcnt b =? 0) s (b_prev (bget_buf s HEAD)) with
      | Some i => modify (upd_buf i (set_id dev blockno)) ;; lock_buf i ;; ret i
      | None => panic "bget: no buffers"
      end
  end.

Definition bread (dev blockno : Z) : M bstate nat :=
  let* i := bget dev blockno in
  let* s := get in
  (if nz (b_valid (bget_buf s i)) then ret tt
   else virtio_disk_rw i false ;; modify (upd_buf i (set_valid 1))) ;;
  ret i.

Definition holding_buf (s : bstate) (i : nat) : bool :=
  holdingsleep (mypid s) (b_lock (bget_buf s i)).

Definition bwrite (i : nat) : M bstate unit :=
  let* s := get in
  if negb (holding_buf s i) then panic "bwrite" else virtio_disk_rw i true.

(** The six pointer assignments of brelse: unlink, then link at the front. *)
Definition move_front (i : nat) : M bstate unit :=
  modify (fun s => upd_buf (b_next (bget_buf s i)) (set_prev (b_prev (bget_buf s i))) s) ;;
  modify (fun s => upd_buf (b_prev (bget_buf s i)) (set_next (b_next (bget_buf s i))) s) ;;
  modify (fun s => upd_buf i (set_next (b_next (bget_buf s HEAD))) s) ;;
  modify (upd_buf i (set_prev HEAD)) ;;
  modify (fun s => upd_buf (b_next (bget_buf s HEAD)) (set_prev i) s) ;;
  modify (upd_buf HEAD (set_next i)).

Definition brelse (i : nat) : M bstate unit :=
  let* s := get in
  if negb (holding_buf s i) then panic "brelse"
  else
    modify (upd_buf i (fun b => set_lock (releasesleep (b_lock b)) b)) ;;
    modify (upd_buf i (fun b => set_refcnt (u32 (b_refcnt b - 1)) b)) ;;
    let* s := get in
    when (b_refcnt (bget_buf s i) =? 0) (move_front i).

Definition bpin (i : nat) : M bstate unit :=
  modify (upd_buf i (fun b => set_refcnt (u32 (b_refcnt b + 1)) b)).
Definition bunpin (i : nat) : M bstate unit :=
  modify (upd_buf i (fun b => set_refcnt (u32 (b_refcnt b - 1)) b)).

(** The cache of a machine that has just booted, on disk [d]: the zeroed BSS,
    after binit. *)
Definition boot_cache (d : gmap Z block) (pid : Z) : bstate :=
  BState (replicate (S NBUF) zero_buf) d [] pid.

(** Assigning to [b->data] of a buffer. *)
Definition set_buf_data (i : nat) (d : block) : M bstate unit := modify (upd_buf i (set_data d)).

(** ** What the cache promises its clients

    [crep s R H V D] relates a cache state to what a client may know of it:
    [R b] is the reference count of block [b], [H b] the buffer in which the
    current process holds [b] locked, [V b] the contents of [b] it reads and
    [D b] the contents on the disk. A block nobody references is clean. *)

(** The next (or previous) links of the list, as functions on indices. *)
Definition nx (s : bstate) (i : nat) : nat := b_next (bget_buf s i).
Definition pv (s : bstate) (i : nat) : nat := b_prev (bget_buf s i).

(** Consecutive indices of [q] are linked both ways. *)
Fixpoint adj (n p : nat -> nat) (q : list nat) : Prop :=
  match q with
  | x :: q' => match q' with
               | y :: _ => n x = y /\ p y = x /\ adj n p q'
               | [] => True
               end
  | [] => True
  end.

(** The buffers form a ring through the head, most recently used first. *)
Definition linked (s : bstate) (l : list nat) : Prop :=
  adj (nx s) (pv s) (HEAD :: l ++ [HEAD]).

Record links (s : bstate) (l : list nat) : Prop := {
  links_len : length (bufs s) = S NBUF;
  links_perm : l ≡ₚ seq 0 NBUF;
  links_ring : linked s l;
}.

Definition ROOTDEV : Z := 1.

(** Buffer [i] is the one of block [b]. *)
Definition caches (s : bstate) (i : nat) (b : Z) : Prop :=
  (i < NBUF)%nat /\ b_dev (bget_buf s i) = ROOTDEV /\ b_blockno (bget_buf s i) = b.

Record contents (s : bstate) (R : Z -> Z) (H : Z -> option nat) (V D : Z -> block) : Prop := {
  c_dev : forall i, (i < NBUF)%nat -> b_refcnt (bget_buf s i) <> 0 ->
            b_dev (bget_buf s i) = ROOTDEV;
  c_uniq : forall i j b, caches s i b -> caches s j b -> i = j;
  c_ref : forall i b, caches s i b -> b_refcnt (bget_buf s i) = R b;
  c_ref0 : forall b, (forall i, ~ caches s i b) -> R b = 0;
  c_range : forall b, 0 <= R b < 2 ^ 32;
  c_lock : forall i, (i < NBUF)%nat -> sl_locked (b_lock (bget_buf s i)) <> 0 ->
             sl_pid (b_lock (bget_buf s i)) = mypid s /\
             H (b_blockno (bget_buf s i)) = Some i;
  c_held : forall b i, H b = Some i ->
             caches s i b /\ sl_locked (b_lock (bget_buf s i)) <> 0 /\
             b_valid (bget_buf s i) <> 0 /\ 0 < R b;
  c_view : forall i b, caches s i b -> b_valid (bget_buf s i) <> 0 ->
             b_data (bget_buf s i) = V b;
  c_clean : forall b, R b = 0 -> V b = D b;
  c_invalid : forall b, (forall i, caches s i b -> b_valid (bget_buf s i) = 0) -> V b = D b;
  c_disk : forall b, read_block (disk s) b = D b;
}.

Definition crep (s : bstate) (R : Z -> Z) (H : Z -> option nat) (V D : Z -> block) : Prop :=
  (exists l, links s l) /\ contents s R H V D.

(** The client's knowledge changes at one block. *)
Definition at_ {A} (f : Z -> A) (b : Z) (x : A) : Z -> A :=
  fun b' => if b' =? b then x else f b'.

(** Some buffer is not referenced. *)
Definition spare (s : bstate) : Prop :=
  exists i, (i < NBUF)%nat /\ b_refcnt (bget_buf s i) = 0.

(** ** Lemmas *)

Lemma at_eq {A} (f : Z -> A) b x : at_ f b x b = x.
Proof. unfold at_. by rewrite Z.eqb_refl. Qed.
Lemma at_ne {A} (f : Z -> A) b b' x : b' <> b -> at_ f b x b' = f b'.
Proof. unfold at_. intros. destruct (Z.eqb_spec b' b); [congruence | done]. Qed.

Lemma bget_upd_eq s i f :
  (i < length (bufs s))%nat -> bget_buf (upd_buf i f s) i = f (bget_buf s i).
Proof.
  intros Hi. unfold bget_buf, upd_buf. simpl. rewrite list_lookup_alter_eq.
  apply lookup_lt_is_Some in Hi as [x Hx]. by rewrite Hx.
Qed.

Lemma bget_upd_ne s i j f : i <> j -> bget_buf (upd_buf i f s) j = bget_buf s j.
Proof. intros Hi. unfold bget_buf, upd_buf. simpl. by rewrite list_lookup_alter_ne. Qed.

Lemma length_upd s i f : length (bufs (upd_buf i f s)) = length (bufs s).
Proof. apply length_alter. Qed.

(** *** Following the links *)

Lemma adj_app n p q1 x q2 :
  adj n p (q1 ++ x :: q2) <-> adj n p (q1 ++ [x]) /\ adj n p (x :: q2).
Proof.
  induction q1 as [|y q1 IH]; simpl; [tauto|].
  destruct q1 as [|z q1]; simpl in *; tauto.
Qed.

Lemma adj_rev n p q : adj n p q -> adj p n (rev q).
Proof.
  induction q as [|x q IH]; [done|]. destruct q as [|y q]; [done|].
  intros (Hx & Hy & Hq). simpl rev in *. rewrite <- app_assoc. simpl.
  apply adj_app. split; [by apply IH | done].
Qed.

Lemma adj_ext n p n' p' q :
  adj n p q ->
  (forall x, x ∈ removelast q -> n' x = n x) ->
  (forall y, y ∈ tail q -> p' y = p y) -> adj n' p' q.
Proof.
  induction q as [|x q IH]; [done|]. destruct q as [|y q]; [done|].
  intros (Hx & Hy & Hq) Hn Hp. simpl removelast in *. simpl tail in *. split_and!.
  - rewrite Hn; [done | by left].
  - rewrite Hp; [done | by left].
  - apply IH; [done | |].
    + intros z Hz. apply Hn. by right.
    + intros z Hz. apply Hp. by right.
Qed.

(** Links of a ring change pointwise when a buffer is put at the front... *)
Lemma adj_link_front n p n' p' i l :
  adj n p (HEAD :: l ++ [HEAD]) -> NoDup (HEAD :: i :: l) ->
  n' HEAD = i -> n' i = hd HEAD l -> (forall x, x <> HEAD -> x <> i -> n' x = n x) ->
  p' i = HEAD -> p' (hd HEAD l) = i -> (forall x, x <> i -> x <> hd HEAD l -> p' x = p x) ->
  adj n' p' (HEAD :: i :: l ++ [HEAD]).
Proof.
  intros Ha Hd Hn1 Hn2 Hn Hp1 Hp2 Hp.
  apply NoDup_cons in Hd as [Hh Hd]. apply NoDup_cons in Hd as [Hi Hd].
  rewrite not_elem_of_cons in Hh. destruct Hh as [Hhi Hh].
  destruct l as [|h l]; [simpl in *; auto|].
  assert (adj n p ((h :: l) ++ [HEAD])) as Ha' by (simpl in *; tauto).
  rewrite not_elem_of_cons in Hh, Hi. destruct Hh as [Hhh Hh], Hi as [Hih Hi].
  apply NoDup_cons in Hd as [Hhl Hd].
  split_and!; [done.. |]. split_and!; [done.. |]. eapply adj_ext; [exact Ha' | |].
  - intros x Hx. rewrite removelast_last in Hx. rewrite elem_of_cons in Hx.
    apply Hn; intros ->; destruct Hx; congruence.
  - intros x Hx. simpl in Hx. rewrite elem_of_app, list_elem_of_singleton in Hx. simpl in Hp.
    apply Hp; intros ->; destruct Hx; congruence.
Qed.

(** ... and when a buffer is unlinked. *)
Lemma adj_unlink n p n' p' i l1 l2 :
  adj n p (HEAD :: (l1 ++ i :: l2) ++ [HEAD]) -> NoDup (HEAD :: l1 ++ i :: l2) ->
  n' (p i) = n i -> (forall x, x <> p i -> n' x = n x) ->
  p' (n i) = p i -> (forall x, x <> n i -> p' x = p x) ->
  adj n' p' (HEAD :: (l1 ++ l2) ++ [HEAD]).
Proof.
  intros Ha Hd Hn1 Hn Hp1 Hp.
  assert (exists A a, HEAD :: l1 = A ++ [a]) as (A & a & EA).
  { destruct (exists_last (l := HEAD :: l1)) as (A & a & ->); [done|]. eauto. }
  assert (exists c C, l2 ++ [HEAD] = c :: C) as (c & C & EC).
  { destruct l2; simpl; eauto. }
  replace (HEAD :: (l1 ++ i :: l2) ++ [HEAD]) with ((A ++ [a]) ++ i :: c :: C) in Ha
    by (rewrite <- EA, <- EC; simpl; by rewrite <- app_assoc).
  replace (HEAD :: (l1 ++ l2) ++ [HEAD]) with ((A ++ [a]) ++ c :: C)
    by (rewrite <- EA, <- EC; simpl; by rewrite <- app_assoc).
  rewrite <- app_assoc in *. simpl in *.
  apply adj_app in Ha as [Ha1 Ha2]. destruct Ha2 as (Hna & Hpi & Hni & Hpc & Ha2).
  apply NoDup_cons in Hd as [Hh Hd]. apply NoDup_app in Hd as (Hd1 & Hdis & Hd2).
  apply NoDup_cons in Hd2 as [_ Hd2].
  rewrite elem_of_app, elem_of_cons in Hh.
  assert (a ∈ HEAD :: l1) as Hal by (rewrite EA, elem_of_app; right; by left).
  assert (c ∈ l2 ++ [HEAD]) as Hcl by (rewrite EC; by left).
  rewrite elem_of_app, list_elem_of_singleton in Hcl. rewrite elem_of_cons in Hal.
  assert (NoDup (A ++ [a])) as HdA by (rewrite <- EA; apply NoDup_cons; tauto).
  assert (NoDup (c :: C)) as HdC.
  { rewrite <- EC. apply NoDup_app. split_and!; [done | | apply NoDup_singleton].
    intros x Hx ->%list_elem_of_singleton. tauto. }
  apply NoDup_app in HdA as (_ & HaA & _). apply NoDup_cons in HdC as [HcC _].
  apply adj_app. rewrite Hpi, Hni in *. split; [|split_and!; auto]; eapply adj_ext; eauto.
  - intros x Hx. rewrite removelast_last in Hx. apply Hn. intros ->. apply (HaA a Hx). by left.
  - intros y Hy. rewrite <- EA in Hy. simpl in Hy. apply Hp. intros ->.
    destruct Hcl as [Hc | ->]; [|tauto]. apply (Hdis c Hy). by right.
  - intros x Hx. rewrite <- EC, removelast_last in Hx. apply Hn. intros ->.
    destruct Hal as [-> | Ha]; [tauto|]. apply (Hdis a Ha). by right.
  - intros y Hy. simpl in Hy. apply Hp. congruence.
Qed.

(** The paths along one direction. *)
Fixpoint path (f : nat -> nat) (p : list nat) : Prop :=
  match p with
  | x :: p' => match p' with
               | y :: _ => f x = y /\ path f p'
               | [] => True
               end
  | [] => True
  end.

Lemma adj_path n p q : adj n p q -> path n q.
Proof.
  induction q as [|x q IH]; [done|]. destruct q as [|y q]; [done|].
  intros (Hx & _ & Hq). split; auto.
Qed.

Lemma linked_paths s l :
  linked s l -> path (nx s) (HEAD :: l ++ [HEAD]) /\ path (pv s) (HEAD :: rev l ++ [HEAD]).
Proof.
  intros H. split; [by eapply adj_path|].
  replace (HEAD :: rev l ++ [HEAD]) with (rev (HEAD :: l ++ [HEAD]))
    by (simpl; by rewrite rev_app_distr).
  eapply adj_path, adj_rev, H.
Qed.

Lemma scan_path s link test l fuel :
  path (fun j => link (bget_buf s j)) (l ++ [HEAD]) -> HEAD ∉ l -> (length l < fuel)%nat ->
  scan fuel link test s (hd HEAD l) = List.find (fun j => test (bget_buf s j)) l.
Proof.
  revert fuel. induction l as [|x l IH]; intros fuel Hp Hh Hf;
    (destruct fuel as [|fuel]; [simpl in Hf; lia|]); [done|].
  cbn [scan List.find hd].
  rewrite not_elem_of_cons in Hh. destruct Hh as [Hx Hl].
  destruct (Nat.eqb_spec x HEAD); [congruence|].
  destruct (test (bget_buf s x)); [done|].
  assert (link (bget_buf s x) = hd HEAD l /\ path (fun j => link (bget_buf s j)) (l ++ [HEAD]))
    as [-> Hp'] by (destruct l; simpl in *; tauto).
  apply IH; auto. simpl in Hf. lia.
Qed.

Lemma head_not_in l : l ≡ₚ seq 0 NBUF -> HEAD ∉ l.
Proof. intros Hp. rewrite Hp, elem_of_seq. unfold HEAD. lia. Qed.

Lemma in_order l i : l ≡ₚ seq 0 NBUF -> (i ∈ l <-> (i < NBUF)%nat).
Proof. intros Hp. rewrite Hp, elem_of_seq. lia. Qed.

Lemma path_hd f l : path f (HEAD :: l ++ [HEAD]) -> f HEAD = hd HEAD l /\ path f (l ++ [HEAD]).
Proof. destruct l; simpl; tauto. Qed.

Lemma scan_next_spec s l test :
  links s l ->
  scan (S NBUF) b_next test s (b_next (bget_buf s HEAD)) =
  List.find (fun j => test (bget_buf s j)) l.
Proof.
  intros [Hlen Hp Hl]. apply linked_paths in Hl as [Hn _]. apply path_hd in Hn as [Hhd Hn].
  change (b_next (bget_buf s HEAD)) with (nx s HEAD). rewrite Hhd.
  apply scan_path; auto using head_not_in. rewrite Hp, length_seq. lia.
Qed.

Lemma scan_prev_spec s l test :
  links s l ->
  scan (S NBUF) b_prev test s (b_prev (bget_buf s HEAD)) =
  List.find (fun j => test (bget_buf s j)) (rev l).
Proof.
  intros [Hlen Hp Hl]. apply linked_paths in Hl as [_ Hn]. apply path_hd in Hn as [Hhd Hn].
  change (b_prev (bget_buf s HEAD)) with (pv s HEAD). rewrite Hhd.
  assert (rev l ≡ₚ seq 0 NBUF) as Hr by (rewrite <- Hp; symmetry; apply Permutation_rev).
  apply scan_path; auto using head_not_in. rewrite Hr, length_seq. lia.
Qed.

(** An update that keeps the links of a buffer keeps the list. *)
Lemma links_upd s l i f :
  (forall b, b_next (f b) = b_next b /\ b_prev (f b) = b_prev b) ->
  links s l -> links (upd_buf i f s) l.
Proof.
  intros Hf [Hlen Hp Hl].
  assert (forall j, nx (upd_buf i f s) j = nx s j /\ pv (upd_buf i f s) j = pv s j) as E.
  { intros j. unfold nx, pv. destruct (decide (i = j)) as [->|]; [|by rewrite bget_upd_ne].
    destruct (decide (j < length (bufs s))%nat).
    - rewrite bget_upd_eq by done. apply Hf.
    - unfold bget_buf, upd_buf. simpl. rewrite !lookup_ge_None_2; [done | lia |].
      rewrite length_alter. lia. }
  split; [by rewrite length_upd | done |].
  eapply adj_ext; [exact Hl | |]; intros x _; apply E.
Qed.

(** *** Moving a buffer to the front *)

Definition core (b : buf) := (b_valid b, b_dev b, b_blockno b, b_lock b, b_refcnt b, b_data b).

(** The states differ only in the links of the list. *)
Definition same_core (s s' : bstate) : Prop :=
  (forall i, core (bget_buf s i) = core (bget_buf s' i)) /\
  disk s = disk s' /\ writes s = writes s' /\ mypid s = mypid s' /\
  length (bufs s) = length (bufs s').

Lemma same_core_trans s1 s2 s3 : same_core s1 s2 -> same_core s2 s3 -> same_core s1 s3.
Proof.
  intros (A1 & B1 & C1 & D1 & E1) (A2 & B2 & C2 & D2 & E2).
  split_and!; congruence.
Qed.

Lemma upd_same_core i f s :
  (forall b, core (f b) = core b) -> same_core s (upd_buf i f s).
Proof.
  intros Hf. split_and!; auto; [|by rewrite length_upd]. intros j.
  destruct (decide (i = j)) as [->|]; [|by rewrite bget_upd_ne].
  destruct (decide (j < length (bufs s))%nat); [by rewrite bget_upd_eq, Hf|].
  unfold bget_buf, upd_buf. simpl. rewrite !lookup_ge_None_2; [done | rewrite length_alter; lia | lia].
Qed.

Lemma nx_set_next s a v x :
  (a < length (bufs s))%nat ->
  nx (upd_buf a (set_next v) s) x = if decide (x = a) then v else nx s x.
Proof.
  intros. unfold nx. case_decide as E; [subst; by rewrite bget_upd_eq|].
  rewrite bget_upd_ne by congruence. done.
Qed.
Lemma pv_set_prev s a v x :
  (a < length (bufs s))%nat ->
  pv (upd_buf a (set_prev v) s) x = if decide (x = a) then v else pv s x.
Proof.
  intros. unfold pv. case_decide as E; [subst; by rewrite bget_upd_eq|].
  rewrite bget_upd_ne by congruence. done.
Qed.
Lemma nx_upd s a f x : (forall b, b_next (f b) = b_next b) -> nx (upd_buf a f s) x = nx s x.
Proof.
  intros Hf. unfold nx. destruct (decide (a = x)) as [->|]; [|by rewrite bget_upd_ne].
  unfold bget_buf, upd_buf. simpl. rewrite list_lookup_alter_eq.
  destruct (bufs s !! x); simpl; auto.
Qed.
Lemma pv_upd s a f x : (forall b, b_prev (f b) = b_prev b) -> pv (upd_buf a f s) x = pv s x.
Proof.
  intros Hf. unfold pv. destruct (decide (a = x)) as [->|]; [|by rewrite bget_upd_ne].
  unfold bget_buf, upd_buf. simpl. rewrite list_lookup_alter_eq.
  destruct (bufs s !! x); simpl; auto.
Qed.

Lemma ring_next n p l1 i l2 :
  adj n p (HEAD :: (l1 ++ i :: l2) ++ [HEAD]) -> n i = hd HEAD l2.
Proof.
  intros H. rewrite <- app_assoc in H.
  change (adj n p ((HEAD :: l1) ++ i :: l2 ++ [HEAD])) in H.
  apply adj_app in H as [_ H]. destruct l2; simpl in *; tauto.
Qed.

Lemma hd_in l : hd HEAD l ∈ HEAD :: l.
Proof. destruct l; simpl; set_solver. Qed.

Lemma ring_prev n p l1 i l2 :
  adj n p (HEAD :: (l1 ++ i :: l2) ++ [HEAD]) -> p i ∈ HEAD :: l1.
Proof.
  intros H. apply adj_rev in H. simpl rev in H.
  rewrite rev_app_distr, (rev_app_distr l1) in H. simpl in H.
  rewrite <- app_assoc in H. simpl in H.
  assert (p i = hd HEAD (rev l1)) as ->.
  { eapply (ring_next p n (rev l2) i (rev l1)). simpl. by rewrite <- !app_assoc in *. }
  pose proof (hd_in (rev l1)) as Hin. generalize dependent (hd HEAD (rev l1)).
  intros x. by rewrite <- (Permutation_rev l1).
Qed.

Definition unlinked (i : nat) (s : bstate) : bstate :=
  let s1 := upd_buf (nx s i) (set_prev (pv s i)) s in
  upd_buf (pv s1 i) (set_next (nx s1 i)) s1.
Definition fronted (i : nat) (s : bstate) : bstate :=
  let s3 := upd_buf i (set_next (nx s HEAD)) s in
  let s4 := upd_buf i (set_prev HEAD) s3 in
  let s5 := upd_buf (nx s4 HEAD) (set_prev i) s4 in
  upd_buf HEAD (set_next i) s5.

Lemma move_front_run i s : move_front i s = Ok tt (fronted i (unlinked i s)).
Proof. done. Qed.

Lemma move_front_core i s : same_core s (fronted i (unlinked i s)).
Proof.
  unfold fronted, unlinked.
  repeat (eapply same_core_trans; [|apply upd_same_core; intros []; reflexivity]).
  by split_and!.
Qed.

(** The neighbours of a buffer in the ring are in the ring, and are not it. *)
Lemma ring_neighbours s l1 i l2 :
  linked s (l1 ++ i :: l2) -> NoDup (HEAD :: l1 ++ i :: l2) ->
  nx s i ∈ HEAD :: l1 ++ i :: l2 /\ pv s i ∈ HEAD :: l1 ++ i :: l2 /\
  nx s i <> i /\ pv s i <> i.
Proof.
  intros Hl Hd.
  pose proof (ring_next _ _ _ _ _ Hl) as Hn. pose proof (ring_prev _ _ _ _ _ Hl) as Hp.
  pose proof (hd_in l2) as Hh. rewrite <- Hn in Hh.
  apply NoDup_cons in Hd as [Hi Hd]. apply NoDup_app in Hd as (_ & Hdis & Hd).
  apply NoDup_cons in Hd as [Hi2 _]. rewrite elem_of_app, elem_of_cons in Hi.
  rewrite !elem_of_cons, !elem_of_app, !elem_of_cons in *. split_and!; [tauto.. | |].
  - intros E. rewrite E in Hh. destruct Hh as [E'|]; [|done]. rewrite E' in Hi. tauto.
  - intros E. rewrite E in Hp. destruct Hp as [E'|Hin]; [rewrite E' in Hi; tauto|].
    apply (Hdis i Hin). by left.
Qed.

Lemma unlinked_linked s l1 i l2 :
  linked s (l1 ++ i :: l2) -> NoDup (HEAD :: l1 ++ i :: l2) ->
  (forall x, x ∈ HEAD :: l1 ++ i :: l2 -> (x < length (bufs s))%nat) ->
  linked (unlinked i s) (l1 ++ l2).
Proof.
  intros Hl Hd Hb. destruct (ring_neighbours _ _ _ _ Hl Hd) as (Hnin & Hpin & Hni & Hpi).
  set (s1 := upd_buf (nx s i) (set_prev (pv s i)) s).
  assert (pv s1 i = pv s i) as E1.
  { unfold s1. rewrite pv_set_prev by auto. by case_decide; [congruence|]. }
  assert (forall x, nx s1 x = nx s x) as E2.
  { intros x. unfold s1. apply nx_upd. done. }
  unfold linked in *. eapply adj_unlink; [exact Hl | exact Hd | | | |].
  all: unfold unlinked; fold s1; rewrite ?E1, ?E2.
  - rewrite nx_set_next by (unfold s1; rewrite length_upd; auto). by rewrite decide_True.
  - intros x Hx. rewrite nx_set_next by (unfold s1; rewrite length_upd; auto).
    rewrite decide_False by done. apply E2.
  - rewrite pv_upd by done. unfold s1. rewrite pv_set_prev by auto. by rewrite decide_True.
  - intros x Hx. rewrite pv_upd by done. unfold s1. rewrite pv_set_prev by auto.
    by rewrite decide_False.
Qed.

Lemma fronted_linked s l i :
  linked s l -> NoDup (HEAD :: i :: l) ->
  (forall x, x ∈ HEAD :: i :: l -> (x < length (bufs s))%nat) ->
  linked (fronted i s) (i :: l).
Proof.
  intros Hl Hd Hb.
  assert (nx s HEAD = hd HEAD l) as Eh by (unfold linked in Hl; destruct l; simpl in *; tauto).
  assert (hd HEAD l ∈ HEAD :: i :: l) as Hh by (destruct l; set_solver).
  assert (i <> HEAD /\ i <> hd HEAD l) as [HiH Hih].
  { apply NoDup_cons in Hd as [Hh' Hd]. apply NoDup_cons in Hd as [Hi _].
    destruct l; simpl; set_solver. }
  set (s3 := upd_buf i (set_next (nx s HEAD)) s).
  set (s4 := upd_buf i (set_prev HEAD) s3).
  assert (nx s4 HEAD = hd HEAD l) as E4.
  { unfold s4. rewrite nx_upd by done. unfold s3. rewrite nx_set_next by (apply Hb; set_solver).
    by rewrite decide_False. }
  assert (forall x, x ∈ HEAD :: i :: l -> (x < length (bufs s4))%nat) as Hb4.
  { intros. unfold s4, s3. rewrite !length_upd. auto. }
  unfold linked in *. simpl app. unfold fronted. fold s3. fold s4. rewrite E4.
  set (s5 := upd_buf (hd HEAD l) (set_prev i) s4).
  assert (forall x, nx (upd_buf HEAD (set_next i) s5) x =
                    if decide (x = HEAD) then i else if decide (x = i) then hd HEAD l else nx s x) as En.
  { intros x. rewrite nx_set_next by (unfold s5; rewrite length_upd; apply Hb4; by left).
    case_decide; [done|]. unfold s5. rewrite nx_upd by done. unfold s4. rewrite nx_upd by done.
    unfold s3. rewrite nx_set_next by (apply Hb; set_solver). by rewrite Eh. }
  assert (forall x, pv (upd_buf HEAD (set_next i) s5) x =
                    if decide (x = hd HEAD l) then i else if decide (x = i) then HEAD else pv s x) as Ep.
  { intros x. rewrite pv_upd by done. unfold s5. rewrite pv_set_prev by auto.
    case_decide; [done|]. unfold s4. rewrite pv_set_prev by
      (unfold s3; rewrite length_upd; apply Hb; set_solver).
    case_decide; [done|]. unfold s3. by rewrite pv_upd. }
  eapply adj_link_front; [exact Hl | exact Hd | ..]; intros; rewrite ?En, ?Ep;
    repeat case_decide; congruence.
Qed.

(** brelse's pointer assignments move the buffer to the front of the list. *)
Lemma move_front_links s l i :
  links s l -> (i < NBUF)%nat ->
  exists l1 l2, l = l1 ++ i :: l2 /\ links (fronted i (unlinked i s)) (i :: l1 ++ l2).
Proof.
  intros [Hlen Hp Hl] Hi.
  assert (i ∈ l) as Hin by by apply (in_order l).
  apply list_elem_of_split in Hin as (l1 & l2 & El). exists l1, l2. split; [done|].
  rewrite El in *.
  assert (NoDup (HEAD :: l1 ++ i :: l2)) as Hd.
  { apply NoDup_cons. split; [by apply head_not_in|]. rewrite Hp. apply NoDup_seq. }
  assert (forall x, x ∈ HEAD :: l1 ++ i :: l2 -> (x < length (bufs s))%nat) as Hb.
  { intros x Hx. rewrite elem_of_cons, (in_order _ x Hp), Hlen in *. unfold HEAD in *. lia. }
  assert (i :: l1 ++ l2 ≡ₚ l1 ++ i :: l2) as Hperm by apply Permutation_middle.
  destruct (move_front_core i s) as (_ & _ & _ & _ & E).
  split; [congruence | by rewrite Hperm |].
  apply fronted_linked; [by apply unlinked_linked | by rewrite Hperm |].
  intros x. rewrite Hperm. unfold unlinked. rewrite !length_upd. auto.
Qed.

(** *** The client's knowledge *)

Lemma contents_ext s R H V D R' H' V' D' :
  contents s R H V D ->
  (forall b, R' b = R b) -> (forall b, H' b = H b) -> (forall b, V' b = V b) ->
  (forall b, D' b = D b) -> contents s R' H' V' D'.
Proof.
  intros [] ER EH EV ED.
  split; intros; rewrite ?ER, ?EH, ?EV, ?ED in *; eauto.
Qed.

Lemma at_id {A} (f : Z -> A) b b' : at_ f b (f b) b' = f b'.
Proof. unfold at_. by destruct (Z.eqb_spec b' b) as [->|]. Qed.

Lemma upd_upd s i f g : upd_buf i f (upd_buf i g s) = upd_buf i (fun b => f (g b)) s.
Proof. unfold upd_buf. simpl. f_equal. by rewrite list_alter_alter_eq. Qed.

Lemma core_fields s s' :
  same_core s s' -> forall i,
  b_valid (bget_buf s' i) = b_valid (bget_buf s i) /\
  b_dev (bget_buf s' i) = b_dev (bget_buf s i) /\
  b_blockno (bget_buf s' i) = b_blockno (bget_buf s i) /\
  b_lock (bget_buf s' i) = b_lock (bget_buf s i) /\
  b_refcnt (bget_buf s' i) = b_refcnt (bget_buf s i) /\
  b_data (bget_buf s' i) = b_data (bget_buf s i).
Proof. intros [Hc _] i. specialize (Hc i). unfold core in Hc. by injection Hc. Qed.

Lemma contents_core s s' R H V D :
  same_core s s' -> contents s R H V D -> contents s' R H V D.
Proof.
  intros Hs []. pose proof (core_fields _ _ Hs) as E. destruct Hs as (_ & Hd & Hw & Hp & _).
  assert (forall i b, caches s' i b <-> caches s i b) as Ec.
  { intros i b. unfold caches. by destruct (E i) as (_ & -> & -> & _). }
  split.
  - intros i. destruct (E i) as (E1 & E2 & E3 & E4 & E5 & E6); rewrite ?E1, ?E2, ?E3, ?E4, ?E5, ?E6. auto.
  - intros i j b. rewrite !Ec. eauto.
  - intros i b. rewrite Ec. destruct (E i) as (E1 & E2 & E3 & E4 & E5 & E6); rewrite ?E1, ?E2, ?E3, ?E4, ?E5, ?E6. eauto.
  - intros b. setoid_rewrite Ec. auto.
  - auto.
  - intros i. rewrite <- Hp. destruct (E i) as (E1 & E2 & E3 & E4 & E5 & E6); rewrite ?E1, ?E2, ?E3, ?E4, ?E5, ?E6. auto.
  - intros b i. rewrite Ec. destruct (E i) as (E1 & E2 & E3 & E4 & E5 & E6); rewrite ?E1, ?E2, ?E3, ?E4, ?E5, ?E6. auto.
  - intros i b. rewrite Ec. destruct (E i) as (E1 & E2 & E3 & E4 & E5 & E6); rewrite ?E1, ?E2, ?E3, ?E4, ?E5, ?E6. auto.
  - auto.
  - intros b Hb. apply c_invalid0. intros i Hi. destruct (E i) as (<- & _). apply Hb. by rewrite Ec.
  - by rewrite <- Hd.
Qed.

#[export] Instance caches_dec s i b : Decision (caches s i b).
Proof. unfold caches. apply _. Defined.

Lemma caches_lt s i b : caches s i b -> (i < NBUF)%nat.
Proof. by intros []. Qed.

(** The buffer of block [b] changes, and with it what is known of [b]. *)
Record buf_knows (pid : Z) (x : buf) (i : nat) (r : Z) (h : option nat) (v d : block) : Prop := {
  bk_ref : b_refcnt x = r;
  bk_range : 0 <= r < 2 ^ 32;
  bk_lock : match h with
            | None => sl_locked (b_lock x) = 0
            | Some j => j = i /\ holdingsleep pid (b_lock x) = true /\ b_valid x <> 0 /\ 0 < r
            end;
  bk_view : b_valid x <> 0 -> b_data x = v;
  bk_clean : r = 0 \/ b_valid x = 0 -> v = d;
}.

Lemma contents_upd s s' R H V D b i f r h v d :
  contents s R H V D -> length (bufs s) = S NBUF -> caches s i b ->
  bufs s' = alter f i (bufs s) -> mypid s' = mypid s ->
  b_dev (f (bget_buf s i)) = ROOTDEV -> b_blockno (f (bget_buf s i)) = b ->
  buf_knows (mypid s) (f (bget_buf s i)) i r h v d ->
  (forall b', read_block (disk s') b' = at_ D b d b') ->
  contents s' (at_ R b r) (at_ H b h) (at_ V b v) (at_ D b d).
Proof.
  intros [] Hlen Hc Hbufs Hpid Hfd Hfb [Kr Krg Kl Kv Kc] Hdisk.
  pose proof (caches_lt _ _ _ Hc) as Hi.
  assert (i < length (bufs s))%nat as Hil by (unfold NBUF in *; lia).
  assert (bget_buf s' i = f (bget_buf s i)) as Ei.
  { rewrite <- (bget_upd_eq s i f) by done. unfold bget_buf. by rewrite Hbufs. }
  assert (forall j, j <> i -> bget_buf s' j = bget_buf s j) as Ej.
  { intros j Hj. rewrite <- (bget_upd_ne s i j f) by done. unfold bget_buf. by rewrite Hbufs. }
  assert (forall j b', caches s' j b' <-> caches s j b') as Ec.
  { intros j b'. destruct (decide (j = i)) as [->|Hj]; [|unfold caches; by rewrite Ej].
    unfold caches in *. rewrite Ei, Hfd, Hfb. naive_solver. }
  assert (forall j b', caches s j b' -> j <> i -> b' <> b) as Hne by (intros j b' ? ? ->; eauto).
  assert (forall b', caches s i b' -> b' = b) as Heq by (intros b' (_ & _ & <-); apply Hc).
  split.
  - intros j Hj. destruct (decide (j = i)) as [->|]; [by rewrite Ei | rewrite Ej; auto].
  - intros j k b'. rewrite !Ec. eauto.
  - intros j b'. rewrite Ec. intros Hj. destruct (decide (j = i)) as [->|].
    + rewrite Ei, (Heq b' Hj), at_eq. done.
    + rewrite Ej, at_ne by eauto. eauto.
  - intros b' Hb'. rewrite at_ne; [apply c_ref2; by setoid_rewrite <- Ec|].
    intros ->. apply (Hb' i). by apply Ec.
  - intros b'. unfold at_. destruct (b' =? b); auto.
  - intros j Hj Hl. rewrite Hpid. destruct (decide (j = i)) as [->|].
    + rewrite Ei in *. rewrite Hfb, at_eq. destruct h; [|done].
      destruct Kl as (-> & Hh & _). unfold holdingsleep in Hh. bool_to_prop. done.
    + rewrite Ej in * by done. destruct (c_lock0 j Hj Hl) as [? Hh]. split; [done|].
      rewrite at_ne; [done|]. apply (Hne j); [|done]. by apply c_held0 in Hh as [? _].
  - intros b' j Hj. rewrite Ec. destruct (decide (b' = b)) as [->|].
    + rewrite at_eq in Hj. rewrite at_eq. subst h. destruct Kl as (-> & Hh & ? & ?). rewrite Ei.
      unfold holdingsleep, nz in Hh. bool_to_prop. by split_and!.
    + rewrite at_ne in Hj by done. rewrite at_ne by done. destruct (c_held0 _ _ Hj) as (Hj' & ?).
      destruct (decide (j = i)) as [->|]; [by rewrite (Heq b' Hj') in *|]. by rewrite Ej.
  - intros j b'. rewrite Ec. intros Hj. destruct (decide (j = i)) as [->|].
    + rewrite Ei, (Heq b' Hj), at_eq. done.
    + rewrite Ej, at_ne by eauto. eauto.
  - intros b'. unfold at_. destruct (Z.eqb_spec b' b); auto.
  - intros b' Hb'. unfold at_. destruct (Z.eqb_spec b' b) as [->|].
    + apply Kc. right. rewrite <- Ei. apply Hb'. by apply Ec.
    + apply c_invalid0. intros j Hj. rewrite <- Ej; [by apply Hb', Ec|].
      intros ->. by apply Heq in Hj.
  - done.
Qed.

(** A buffer nobody references is given to a block that is not cached. *)
Lemma contents_recycle s R H V D b i :
  contents s R H V D -> length (bufs s) = S NBUF -> (i < NBUF)%nat ->
  b_refcnt (bget_buf s i) = 0 -> (forall j, ~ caches s j b) ->
  contents (upd_buf i (set_id ROOTDEV b) s) (at_ R b 1) H V D /\ H b = None /\
  sl_locked (b_lock (bget_buf s i)) = 0 /\ V b = D b /\ R b = 0.
Proof.
  intros [] Hlen Hi Hr Hno.
  assert (i < length (bufs s))%nat as Hil by (unfold NBUF in *; lia).
  set (s' := upd_buf i (set_id ROOTDEV b) s).
  assert (bget_buf s' i = set_id ROOTDEV b (bget_buf s i)) as Ei by by apply bget_upd_eq.
  assert (forall j, j <> i -> bget_buf s' j = bget_buf s j) as Ej.
  { intros j Hj. by apply bget_upd_ne. }
  assert (forall j b', j <> i -> caches s' j b' <-> caches s j b') as Ec.
  { intros j b' Hj. unfold caches. by rewrite Ej. }
  assert (forall b', caches s' i b' <-> b' = b) as Eb.
  { intros b'. unfold caches. rewrite Ei. simpl. naive_solver. }
  assert (H b = None) as Hb.
  { destruct (H b) as [j|] eqn:Hj; [|done]. apply c_held0 in Hj as [Hj _]. by apply Hno in Hj. }
  assert (sl_locked (b_lock (bget_buf s i)) = 0) as Hl.
  { destruct (decide (sl_locked (b_lock (bget_buf s i)) = 0)) as [|Hl]; [done|].
    apply c_lock0 in Hl as [_ Hl]; [|done]. apply c_held0 in Hl as (Hc & _ & _ & HR).
    apply c_ref1 in Hc. lia. }
  assert (forall b' j, H b' = Some j -> j <> i) as Hji.
  { intros b' j Hj ->. by apply c_held0 in Hj as (_ & Hj & _). }
  split_and!; auto. split.
  - intros j Hj. destruct (decide (j = i)) as [->|]; [by rewrite Ei | rewrite Ej; auto].
  - intros j k b'. destruct (decide (j = i)) as [->|], (decide (k = i)) as [->|]; [done | ..];
      rewrite ?Eb, ?Ec by done; [intros -> Hk | intros Hk -> | eauto]; by apply Hno in Hk.
  - intros j b'. destruct (decide (j = i)) as [->|].
    + intros ->%Eb. by rewrite Ei, at_eq.
    + rewrite Ec, Ej by done. intros Hj. rewrite at_ne; [eauto|].
      intros ->. by apply Hno in Hj.
  - intros b' Hb'. destruct (decide (b' = b)) as [->|]; [by destruct (Hb' i); apply Eb|].
    rewrite at_ne by done. destruct (decide (caches s i b')) as [Hc|Hc]; [by apply c_ref1 in Hc as <-|].
    apply c_ref2. intros j Hj. destruct (decide (j = i)) as [->|]; [done|].
    apply (Hb' j). by apply Ec.
  - intros b'. unfold at_. destruct (b' =? b); auto. lia.
  - intros j Hj. destruct (decide (j = i)) as [->|]; [rewrite Ei; done | rewrite Ej by done; auto].
  - intros b' j Hj. rewrite Ec, Ej by eauto. apply c_held0 in Hj as (Hc & ? & ? & ?).
    split_and!; auto. rewrite at_ne; [done|]. intros ->. by apply Hno in Hc.
  - intros j b'. destruct (decide (j = i)) as [->|]; [by rewrite Ei|].
    rewrite Ec, Ej by done. auto.
  - intros b'. unfold at_. destruct (b' =? b); auto. lia.
  - intros b' Hb'. destruct (decide (b' = b)) as [->|]; [auto|].
    destruct (decide (caches s i b')) as [Hc|Hc].
    { apply c_clean0. apply c_ref1 in Hc. congruence. }
    apply c_invalid0. intros j Hj. destruct (decide (j = i)) as [->|]; [done | rewrite <- Ej by done; by apply Hb', Ec].
  - done.
Qed.

(** *** Running the operations *)

Lemma crep_len s R H V D : crep s R H V D -> length (bufs s) = S NBUF.
Proof. by intros [[l []] _]. Qed.

Definition matches (dev b : Z) (x : buf) : bool := (b_dev x =? dev) && (b_blockno x =? b).

Lemma bget_run s l dev b :
  links s l ->
  bget dev b s =
  match List.find (fun j => matches dev b (bget_buf s j)) l with
  | Some i =>
      (modify (upd_buf i (fun b => set_refcnt (u32 (b_refcnt b + 1)) b)) ;;
       lock_buf i ;; ret i) s
  | None =>
      match List.find (fun j => b_refcnt (bget_buf s j) =? 0) (rev l) with
      | Some i => (modify (upd_buf i (set_id dev b)) ;; lock_buf i ;; ret i) s
      | None => Stop (Panic "bget: no buffers") s
      end
  end.
Proof.
  intros Hl. unfold bget, bind at 1, get.
  rewrite (scan_next_spec _ l), (scan_prev_spec _ l) by done. unfold matches.
  destruct (List.find _ l); [done|]. by destruct (List.find _ (rev l)).
Qed.

Lemma lock_buf_run s i :
  sl_locked (b_lock (bget_buf s i)) = 0 ->
  lock_buf i s = Ok tt (upd_buf i (set_lock (Sleeplock 1 (mypid s))) s).
Proof. intros Hl. unfold lock_buf, bind, get, acquiresleep. by rewrite Hl. Qed.

Lemma find_caches s l b :
  links s l ->
  match List.find (fun j => matches ROOTDEV b (bget_buf s j)) l with
  | Some i => caches s i b
  | None => forall i, ~ caches s i b
  end.
Proof.
  intros [_ Hp _]. destruct (List.find _ l) as [i|] eqn:Hf.
  - apply List.find_some in Hf as [Hi Hm]. apply list_elem_of_In, (in_order l i Hp) in Hi.
    unfold matches in Hm. bool_to_prop. done.
  - intros i (Hi & Hd & Hb). apply (in_order l i Hp), list_elem_of_In in Hi.
    apply (List.find_none _ _ Hf) in Hi. unfold matches in Hi.
    by rewrite Hd, Hb, !Z.eqb_refl in Hi.
Qed.

Lemma spare_found s l :
  links s l -> spare s ->
  exists i, List.find (fun j => b_refcnt (bget_buf s j) =? 0) (rev l) = Some i /\
            (i < NBUF)%nat /\ b_refcnt (bget_buf s i) = 0.
Proof.
  intros [_ Hp _] (k & Hk & Hr). destruct (List.find _ (rev l)) as [i|] eqn:Hf.
  - apply List.find_some in Hf as [Hi Hm]. apply in_rev, list_elem_of_In, (in_order l i Hp) in Hi.
    bool_to_prop. eauto.
  - apply (in_order l k Hp), list_elem_of_In, in_rev in Hk.
    apply (List.find_none _ _ Hf) in Hk. bool_to_prop. done.
Qed.

(** What is known after a buffer changed, its links apart. *)
Lemma crep_upd s s' R H V D b i f r h v d :
  crep s R H V D -> caches s i b ->
  bufs s' = alter f i (bufs s) -> mypid s' = mypid s ->
  (forall x, b_next (f x) = b_next x /\ b_prev (f x) = b_prev x) ->
  b_dev (f (bget_buf s i)) = ROOTDEV -> b_blockno (f (bget_buf s i)) = b ->
  buf_knows (mypid s) (f (bget_buf s i)) i r h v d ->
  (forall b', read_block (disk s') b' = at_ D b d b') ->
  crep s' (at_ R b r) (at_ H b h) (at_ V b v) (at_ D b d).
Proof.
  intros [[l Hl] Hc] Hi Hb Hm Hf Hd Hbn Hk Hdk. split.
  - exists l. destruct (links_upd s l i f Hf Hl) as [H1 H2 H3]. split; [by rewrite Hb | done |].
    unfold linked, nx, pv, bget_buf in *. by rewrite Hb.
  - eapply contents_upd; eauto. apply Hl.
Qed.

Lemma crep_ext s R H V D R' H' V' D' :
  crep s R H V D ->
  (forall b, R' b = R b) -> (forall b, H' b = H b) -> (forall b, V' b = V b) ->
  (forall b, D' b = D b) -> crep s R' H' V' D'.
Proof. intros [Hl Hc] ????. split; [done|]. by eapply contents_ext. Qed.

(** What a process holding a block knows of its buffer. *)
Lemma crep_held s R H V D b i :
  crep s R H V D -> H b = Some i ->
  caches s i b /\ holding_buf s i = true /\ b_valid (bget_buf s i) <> 0 /\
  b_refcnt (bget_buf s i) = R b /\ 0 < R b < 2 ^ 32 /\ b_data (bget_buf s i) = V b.
Proof.
  intros [_ []] Hb. destruct (c_held0 _ _ Hb) as (Hc & Hl & Hv & HR). split_and!; auto.
  - destruct (c_lock0 i) as [Hp _]; [apply Hc | done |]. unfold holding_buf, holdingsleep, nz.
    rewrite Hp, Z.eqb_refl. by destruct (Z.eqb_spec (sl_locked (b_lock (bget_buf s i))) 0).
  - apply c_range0.
Qed.

Lemma crep_unlocked s R H V D b i :
  crep s R H V D -> caches s i b -> H b = None -> sl_locked (b_lock (bget_buf s i)) = 0.
Proof.
  intros [_ []] Hc Hb. destruct (decide (sl_locked (b_lock (bget_buf s i)) = 0)) as [|Hl]; [done|].
  apply c_lock0 in Hl as [_ Hl]; [|by eapply caches_lt]. destruct Hc as (_ & _ & E). congruence.
Qed.

(** bread, once bget has returned the buffer: the data is read when it is not
    valid. *)
Lemma bread_fill s R H V D b i pid0 :
  crep s R H V D -> caches s i b -> H b = None -> 0 < R b -> pid0 = mypid s ->
  let s1 := upd_buf i (set_lock (Sleeplock 1 pid0)) s in
  exists s',
    (if nz (b_valid (bget_buf s1 i)) then ret tt
     else virtio_disk_rw i false ;; modify (upd_buf i (set_valid 1))) s1 = Ok tt s' /\
    crep s' R (at_ H b (Some i)) V D /\
    disk s' = disk s /\ writes s' = writes s /\ mypid s' = mypid s.
Proof.
  intros Hs Hi Hb HR Epid s1. subst pid0. pose proof (crep_len _ _ _ _ _ Hs) as Hlen.
  pose proof (caches_lt _ _ _ Hi) as Hlt. assert (i < length (bufs s))%nat as Hil by lia.
  pose proof Hs as [_ []]. pose proof Hi as (_ & Hdev & Hbn).
  assert (bget_buf s1 i = set_lock (Sleeplock 1 (mypid s)) (bget_buf s i)) as E1
    by by apply bget_upd_eq.
  assert (forall s' f, bufs s' = alter f i (bufs s) -> mypid s' = mypid s -> disk s' = disk s ->
    (forall x, b_next (f x) = b_next x /\ b_prev (f x) = b_prev x /\ b_dev (f x) = b_dev x /\
               b_blockno (f x) = b_blockno x /\ b_refcnt (f x) = b_refcnt x /\
               b_lock (f x) = Sleeplock 1 (mypid s)) ->
    b_valid (f (bget_buf s i)) <> 0 -> b_data (f (bget_buf s i)) = V b ->
    crep s' R (at_ H b (Some i)) V D) as Hupd.
  { intros s' f Hbufs Hpid Hdk Hf Hv Hdat. destruct (Hf (bget_buf s i)) as (F1 & F2 & F3 & F4 & F5 & F6).
    eapply crep_ext; [eapply (crep_upd s s' R H V D b i f (R b) (Some i) (V b) (D b)); eauto |..].
    - intros x. by destruct (Hf x) as (? & ? & _).
    - congruence.
    - congruence.
    - split; auto.
      + rewrite F5. by apply c_ref1.
      + rewrite F6. unfold holdingsleep. simpl. by rewrite Z.eqb_refl.
      + intros [|]; lia.
    - intros b'. by rewrite Hdk, at_id.
    - intros. by rewrite at_id.
    - done.
    - intros. by rewrite at_id.
    - intros. by rewrite at_id. }
  rewrite E1. unfold nz, set_lock at 1. cbn [b_valid].
  destruct (Z.eqb_spec (b_valid (bget_buf s i)) 0) as [Hv|Hv]; cbn [negb].
  - unfold virtio_disk_rw, bind, modify. eexists. split; [reflexivity|].
    rewrite E1. unfold s1. rewrite !upd_upd. split; [|done].
    eapply Hupd; [reflexivity.. | | done |].
    + by intros [].
    + simpl. rewrite Hbn. unfold s1. simpl. rewrite c_disk0. symmetry. apply c_invalid0.
      intros j Hj. by rewrite (c_uniq0 j i b).
  - eexists. split; [reflexivity|]. split; [|done].
    eapply Hupd; [reflexivity.. | | done |].
    + by intros [].
    + by apply c_view0.
Qed.

(** bread of a block the process does not hold. *)
Lemma bread_ok s R H V D b :
  crep s R H V D -> H b = None -> R b + 1 < 2 ^ 32 -> 0 < R b \/ spare s ->
  exists i s', bread ROOTDEV b s = Ok i s' /\
    crep s' (at_ R b (R b + 1)) (at_ H b (Some i)) V D /\
    disk s' = disk s /\ writes s' = writes s /\ mypid s' = mypid s.
Proof.
  intros Hs Hb HR Hsp. pose proof Hs as [[l Hl] Hc].
  pose proof (crep_len _ _ _ _ _ Hs) as Hlen.
  pose proof (find_caches s l b Hl) as Hf. unfold bread, bind at 1. rewrite (bget_run s l) by done.
  assert (exists i s1, bget ROOTDEV b s = Ok i (upd_buf i (set_lock (Sleeplock 1 (mypid s1))) s1) /\
            crep s1 (at_ R b (R b + 1)) H V D /\ caches s1 i b /\
            disk s1 = disk s /\ writes s1 = writes s /\ mypid s1 = mypid s)
    as (i & s1 & E & Hs1 & Hi & Ed & Ew & Ep).
  { rewrite (bget_run s l) by done. destruct (List.find _ l) as [i|] eqn:El.
    - pose proof (caches_lt _ _ _ Hf). assert (i < length (bufs s))%nat by lia.
      set (s1 := upd_buf i (fun b => set_refcnt (u32 (b_refcnt b + 1)) b) s).
      assert (bget_buf s1 i = set_refcnt (u32 (b_refcnt (bget_buf s i) + 1)) (bget_buf s i)) as E1
        by by apply (bget_upd_eq s i (fun b => set_refcnt (u32 (b_refcnt b + 1)) b)).
      pose proof (c_ref _ _ _ _ _ Hc _ _ Hf) as Er. pose proof (c_range _ _ _ _ _ Hc b) as HR0.
      pose proof (crep_unlocked _ _ _ _ _ _ _ Hs Hf Hb) as Hlk.
      exists i, s1. unfold bind, modify. fold s1. rewrite lock_buf_run by by rewrite E1.
      split; [done|]. rewrite Er, u32_id in E1 by lia. split_and!; [|try done..].
      + eapply crep_ext; [eapply (crep_upd s s1 R H V D b i (fun b => set_refcnt (u32 (b_refcnt b + 1)) b)
                                  (R b + 1) None (V b) (D b)); eauto |..].
        * apply Hf.
        * apply Hf.
        * rewrite Er, u32_id by lia. split; simpl; auto; [lia | |].
          -- by apply (c_view _ _ _ _ _ Hc).
          -- intros [|Hv]; [lia|]. apply (c_invalid _ _ _ _ _ Hc). intros j Hj.
             by rewrite (c_uniq _ _ _ _ _ Hc j i b).
        * intros b'. simpl. rewrite at_id. apply Hc.
        * done.
        * intros b'. unfold at_. destruct (Z.eqb_spec b' b); congruence.
        * intros. by rewrite at_id.
        * intros. by rewrite at_id.
      + unfold caches. rewrite E1. apply Hf.
    - destruct Hsp as [Hsp|Hsp].
      { rewrite (c_ref0 _ _ _ _ _ Hc b Hf) in Hsp. lia. }
      destruct (spare_found s l Hl Hsp) as (i & -> & Hi & Hr).
      destruct (contents_recycle s R H V D b i Hc Hlen Hi Hr Hf) as (Hc' & _ & Hlk & _ & HR0).
      set (s1 := upd_buf i (set_id ROOTDEV b) s) in *.
      assert (bget_buf s1 i = set_id ROOTDEV b (bget_buf s i)) as E1 by (apply bget_upd_eq; lia).
      exists i, s1. unfold bind, modify. fold s1. rewrite lock_buf_run by by rewrite E1.
      split; [done|]. rewrite HR0. split_and!; [|try done..].
      + split; [|done]. exists l. apply links_upd; [by intros [] | done].
      + unfold caches. by rewrite E1. }
  rewrite (bget_run s l) in E by done. rewrite E.
  unfold bind at 1, get. unfold bind at 1.
  destruct (bread_fill s1 _ _ _ _ b i (mypid s1) Hs1 Hi Hb) as (s' & E' & Hs' & Ed' & Ew' & Ep').
  { rewrite at_eq. pose proof (c_range _ _ _ _ _ Hc b). lia. }
  { done. }
  rewrite E'. exists i, s'. split; [done|]. split; [done|]. split_and!; congruence.
Qed.

(** A buffer the process holds changes, except in its identity and links. *)
Lemma crep_held_upd s R H V D b i f r h v :
  crep s R H V D -> H b = Some i ->
  (forall x, b_next (f x) = b_next x /\ b_prev (f x) = b_prev x /\
             b_dev (f x) = b_dev x /\ b_blockno (f x) = b_blockno x) ->
  buf_knows (mypid s) (f (bget_buf s i)) i r h v (D b) ->
  crep (upd_buf i f s) (at_ R b r) (at_ H b h) (at_ V b v) D.
Proof.
  intros Hs Hb Hf Hk. destruct (crep_held _ _ _ _ _ _ _ Hs Hb) as (Hc & _).
  destruct (Hf (bget_buf s i)) as (_ & _ & Hfd & Hfb). pose proof Hc as (_ & Hd & Hbn).
  eapply crep_ext; [eapply (crep_upd s (upd_buf i f s) R H V D b i f r h v (D b)); eauto |..].
  - intros x. by destruct (Hf x) as (? & ? & _).
  - congruence.
  - congruence.
  - intros b'. rewrite at_id. apply Hs.
  - done.
  - done.
  - done.
  - intros. by rewrite at_id.
Qed.

Lemma set_buf_data_ok s R H V D b i d :
  crep s R H V D -> H b = Some i ->
  set_buf_data i d s = Ok tt (upd_buf i (set_data d) s) /\
  crep (upd_buf i (set_data d) s) R H (at_ V b d) D.
Proof.
  intros Hs Hb. split; [done|].
  destruct (crep_held _ _ _ _ _ _ _ Hs Hb) as (Hc & Hh & Hv & Hr & HR & _).
  eapply crep_ext;
    [eapply (crep_held_upd s R H V D b i (set_data d) (R b) (Some i) d); eauto |..].
  - split; simpl; auto; try lia.
    split_and!; auto. lia.
  - intros. by rewrite at_id.
  - intros. by rewrite <- Hb, at_id.
  - done.
  - done.
Qed.

Lemma bwrite_ok s R H V D b i :
  crep s R H V D -> H b = Some i ->
  exists s', bwrite i s = Ok tt s' /\ crep s' R H V (at_ D b (V b)) /\
    disk s' = <[b := V b]> (disk s) /\ writes s' = writes s ++ [(b, V b)] /\ mypid s' = mypid s.
Proof.
  intros Hs Hb. destruct (crep_held _ _ _ _ _ _ _ Hs Hb) as (Hc & Hh & Hv & Hr & HR & Hd).
  pose proof Hc as (_ & Hdev & Hbn).
  unfold bwrite, bind, get, virtio_disk_rw, modify. rewrite Hh. cbn [negb].
  rewrite Hbn, Hd. eexists. split; [done|]. split; [|done].
  eapply crep_ext; [eapply (crep_upd s _ R H V D b i (fun x => x) (R b) (Some i) (V b) (V b)); eauto |..].
  - by rewrite list_alter_id.
  - split; auto; try lia. split_and!; auto. lia.
  - intros b'. simpl. unfold read_block, at_. destruct (Z.eqb_spec b' b) as [->|].
    + by rewrite lookup_insert_eq.
    + rewrite lookup_insert_ne by done. apply Hs.
  - intros. by rewrite at_id.
  - intros. by rewrite <- Hb, at_id.
  - intros. by rewrite at_id.
  - done.
Qed.

Lemma bpin_ok s R H V D b i :
  crep s R H V D -> H b = Some i -> R b + 1 < 2 ^ 32 ->
  exists s', bpin i s = Ok tt s' /\ crep s' (at_ R b (R b + 1)) H V D /\
    disk s' = disk s /\ writes s' = writes s /\ mypid s' = mypid s.
Proof.
  intros Hs Hb HR1. destruct (crep_held _ _ _ _ _ _ _ Hs Hb) as (Hc & Hh & Hv & Hr & HR & Hd).
  eexists. split; [done|]. split; [|done].
  eapply crep_ext; [eapply (crep_held_upd s R H V D b i
    (fun b => set_refcnt (u32 (b_refcnt b + 1)) b) (R b + 1) (Some i) (V b)); eauto |..].
  - split; simpl; auto; rewrite ?Hr, ?u32_id; try lia.
    split_and!; auto. lia.
  - done.
  - intros. by rewrite <- Hb, at_id.
  - intros. by rewrite at_id.
  - done.
Qed.

Lemma bunpin_ok s R H V D b i :
  crep s R H V D -> H b = Some i -> 1 < R b ->
  exists s', bunpin i s = Ok tt s' /\ crep s' (at_ R b (R b - 1)) H V D /\
    disk s' = disk s /\ writes s' = writes s /\ mypid s' = mypid s.
Proof.
  intros Hs Hb HR1. destruct (crep_held _ _ _ _ _ _ _ Hs Hb) as (Hc & Hh & Hv & Hr & HR & Hd).
  eexists. split; [done|]. split; [|done].
  eapply crep_ext; [eapply (crep_held_upd s R H V D b i
    (fun b => set_refcnt (u32 (b_refcnt b - 1)) b) (R b - 1) (Some i) (V b)); eauto |..].
  - split; simpl; auto; rewrite ?Hr, ?u32_id; try lia.
    split_and!; auto. lia.
  - done.
  - intros. by rewrite <- Hb, at_id.
  - intros. by rewrite at_id.
  - done.
Qed.

Lemma brelse_ok s R H V D b i :
  crep s R H V D -> H b = Some i -> 1 < R b \/ V b = D b ->
  exists s', brelse i s = Ok tt s' /\ crep s' (at_ R b (R b - 1)) (at_ H b None) V D /\
    disk s' = disk s /\ writes s' = writes s /\ mypid s' = mypid s.
Proof.
  intros Hs Hb HR1. destruct (crep_held _ _ _ _ _ _ _ Hs Hb) as (Hc & Hh & Hv & Hr & HR & Hd).
  pose proof (crep_len _ _ _ _ _ Hs) as Hlen. pose proof (caches_lt _ _ _ Hc) as Hlt.
  set (f := fun b => set_refcnt (u32 (b_refcnt b - 1)) (set_lock (releasesleep (b_lock b)) b)).
  assert (crep (upd_buf i f s) (at_ R b (R b - 1)) (at_ H b None) V D) as Hs'.
  { eapply crep_ext; [eapply (crep_held_upd s R H V D b i f (R b - 1) None (V b)); eauto |..].
    - unfold f. split; simpl; auto; rewrite ?Hr, ?u32_id; try lia.
      intros [|]; [|done]. destruct HR1; [lia | done].
    - done.
    - done.
    - intros. by rewrite at_id.
    - done. }
  assert (brelse i s = when (b_refcnt (bget_buf (upd_buf i f s) i) =? 0) (move_front i) (upd_buf i f s)) as E.
  { unfold brelse, bind, get, modify. rewrite Hh. cbn [negb]. by rewrite upd_upd. }
  rewrite E. unfold when. destruct (_ =? 0).
  - rewrite move_front_run. pose proof (move_front_core i (upd_buf i f s)) as Hm.
    eexists. split; [done|]. destruct Hs' as [[l Hl] Hcs]. split.
    + split; [|by eapply contents_core]. destruct (move_front_links _ _ _ Hl Hlt) as (? & ? & _ & ?).
      eauto.
    + destruct Hm as (_ & <- & <- & <- & _). done.
  - eexists. split; [done|]. done.
Qed.

(** *** A free buffer, by counting *)

Lemma spare_of_used s R H V D used :
  crep s R H V D -> (forall b, R b <> 0 -> b ∈ used) -> (length used < NBUF)%nat -> spare s.
Proof.
  intros [_ []] Hu Hlen.
  destruct (List.find (fun i => b_refcnt (bget_buf s i) =? 0) (seq 0 NBUF)) as [i|] eqn:Hf.
  { apply List.find_some in Hf as [Hi Hr]. apply List.in_seq in Hi. bool_to_prop. exists i. split; [lia | done]. }
  assert (forall i, (i < NBUF)%nat ->
            caches s i (b_blockno (bget_buf s i)) /\ b_blockno (bget_buf s i) ∈ used) as Hall.
  { intros i Hi. assert (b_refcnt (bget_buf s i) <> 0) as Hr.
    { apply Z.eqb_neq, (List.find_none _ _ Hf), List.in_seq. lia. }
    assert (caches s i (b_blockno (bget_buf s i))) as Hc by (split_and!; auto).
    split; [done|]. apply Hu. by rewrite <- (c_ref1 i _ Hc). }
  assert (length (map (fun i => b_blockno (bget_buf s i)) (seq 0 NBUF)) <= length used)%nat as Hle.
  { apply List.NoDup_incl_length.
    - apply NoDup_ListNoDup, NoDup_fmap_2_strong; [|apply NoDup_seq].
      intros i j Hi%elem_of_seq Hj%elem_of_seq E. simpl in E.
      destruct (Hall i), (Hall j); try lia. apply (c_uniq0 i j (b_blockno (bget_buf s i))); congruence.
    - intros b Hb. apply list_elem_of_In in Hb. apply list_elem_of_fmap in Hb as (i & -> & Hi%elem_of_seq).
      apply list_elem_of_In, Hall. lia. }
  rewrite length_map, length_seq in Hle. lia.
Qed.

(** *** Booting *)

Lemma link_front_run i s :
  link_front i s = Ok tt (fronted i (upd_buf i (set_lock initsleeplock) s)).
Proof.
  unfold link_front, bind, modify, fronted. rewrite (nx_upd s) by done. rewrite !upd_upd.
  unfold nx at 1. done.
Qed.

Lemma for_link_front d pid js : forall s l,
  linked s l -> NoDup (HEAD :: rev js ++ l) -> length (bufs s) = S NBUF ->
  (forall j, j ∈ js ++ l -> (j < NBUF)%nat) ->
  same_core (boot_cache d pid) s ->
  exists s', for_each js link_front s = Ok tt s' /\ linked s' (rev js ++ l) /\
    same_core (boot_cache d pid) s'.
Proof.
  induction js as [|j js IH]; intros s l Hl Hd Hlen Hjs Hs; [by exists s|].
  simpl for_each. unfold bind at 1. rewrite link_front_run.
  set (s1 := upd_buf j (set_lock initsleeplock) s).
  assert (same_core (boot_cache d pid) (fronted j s1)) as Hs1.
  { unfold fronted. repeat (eapply same_core_trans; [|apply upd_same_core; intros []; reflexivity]).
    destruct Hs as (Hc & ? & ? & ? & ?). split_and!; auto; [|unfold s1; by rewrite length_upd].
    intros i. destruct (decide (j = i)) as [<-|]; [|unfold s1; rewrite bget_upd_ne by done; apply Hc].
    assert (j < NBUF)%nat by (apply Hjs; by left).
    unfold s1. rewrite bget_upd_eq by lia. rewrite Hc. specialize (Hc j).
    assert (core (bget_buf (boot_cache d pid) j) = core zero_buf) as E0.
    { unfold bget_buf, boot_cache. cbn [bufs]. rewrite lookup_replicate_2 by lia. done. }
    rewrite E0 in Hc. unfold core in *. injection Hc as E1 E2 E3 E4 E5 E6. simpl. by rewrite <- E4. }
  destruct (IH (fronted j s1) (j :: l)) as (s' & E & Hl' & Hs').
  - apply fronted_linked.
    + unfold linked, s1. eapply adj_ext; [exact Hl | |]; intros; [by apply nx_upd | by apply pv_upd].
    + apply NoDup_cons in Hd as [Hh Hd]. simpl in Hh, Hd. rewrite <- app_assoc in Hh, Hd.
      apply NoDup_app in Hd as (_ & _ & Hd). apply NoDup_cons. split; [|done]. set_solver.
    + intros x Hx. unfold s1. rewrite length_upd, Hlen. apply elem_of_cons in Hx as [->|Hx].
      { unfold HEAD. lia. }
      assert (x < NBUF)%nat; [|lia]. apply Hjs. set_solver.
  - simpl in Hd. by rewrite <- app_assoc in Hd.
  - by destruct Hs1 as (_ & _ & _ & _ & <-).
  - intros x Hx. apply Hjs. set_solver.
  - done.
  - exists s'. split; [exact E|]. simpl rev. rewrite <- app_assoc. done.
Qed.

Lemma boot_core d pid i : core (bget_buf (boot_cache d pid) i) = core zero_buf.
Proof.
  unfold bget_buf, boot_cache. cbn [bufs].
  destruct (decide (i < S NBUF)%nat); [by rewrite lookup_replicate_2|].
  rewrite lookup_ge_None_2; [done|]. rewrite length_replicate. lia.
Qed.

Lemma binit_ok d pid :
  exists s, binit (boot_cache d pid) = Ok tt s /\
    crep s (fun _ => 0) (fun _ => None) (read_block d) (read_block d) /\
    disk s = d /\ writes s = [] /\ mypid s = pid /\
    forall i, core (bget_buf s i) = core zero_buf.
Proof.
  unfold binit, bind at 1, modify at 1. unfold bind at 1, modify at 1.
  set (s1 := upd_buf HEAD (set_next HEAD) (upd_buf HEAD (set_prev HEAD) (boot_cache d pid))).
  assert (same_core (boot_cache d pid) s1) as Hs1.
  { unfold s1. repeat (eapply same_core_trans; [|apply upd_same_core; intros []; reflexivity]).
    by split_and!. }
  assert (length (bufs s1) = S NBUF) as Hlen.
  { destruct Hs1 as (_ & _ & _ & _ & <-). unfold boot_cache. cbn [bufs]. apply length_replicate. }
  destruct (for_link_front d pid (seq 0 NBUF) s1 []) as (s & E & Hl & Hs).
  - split_and!; [reflexivity.. | done].
  - rewrite app_nil_r, <- Permutation_rev. apply NoDup_cons. split; [|apply NoDup_seq].
    rewrite elem_of_seq. unfold HEAD. lia.
  - done.
  - intros j. rewrite app_nil_r, elem_of_seq. lia.
  - done.
  - exists s. split; [done|]. pose proof (core_fields _ _ Hs) as Ec.
    destruct Hs as (Hc & Hd & Hw & Hp & Hlen').
    assert (forall i, core (bget_buf s i) = core zero_buf) as E0.
    { intros i. by rewrite <- Hc, boot_core. }
    split; [|done]. split.
    + rewrite app_nil_r in Hl. exists (rev (seq 0 NBUF)). split.
      * rewrite <- Hlen'. unfold boot_cache. cbn [bufs]. apply length_replicate.
      * symmetry. apply Permutation_rev.
      * done.
    + assert (forall i b, ~ caches s i b) as Hno.
      { intros i b (_ & Hdv & _). specialize (E0 i). unfold core in E0. injection E0. intros.
        unfold ROOTDEV in Hdv. congruence. }
      split; try done; try (intros; exfalso; by eapply Hno).
      * intros i _ Hr. specialize (E0 i). unfold core in E0. injection E0. intros. done.
      * intros i _ Hlk. specialize (E0 i). unfold core in E0. injection E0.
        intros _ _ E4. by rewrite E4 in Hlk.
      * intros b. by rewrite <- Hd.
Qed.

(** ** Properties *)

(** C5: bread of a block the process does not hold returns, with the block
    locked in a buffer whose data is the block's current contents (what was
    last assigned to it, written to the disk or not), and in no other buffer;
    the contents of no block and nothing on the disk changes. *)
Theorem bread_current s R H V D b :
  crep s R H V D -> H b = None -> R b + 1 < 2 ^ 32 -> 0 < R b \/ spare s ->
  exists i s', bread ROOTDEV b s = Ok i s' /\
    b_data (bget_buf s' i) = V b /\ holding_buf s' i = true /\
    (forall j, caches s' j b <-> j = i) /\
    crep s' (at_ R b (R b + 1)) (at_ H b (Some i)) V D /\ writes s' = writes s.
Proof.
  intros Hs Hb HR Hsp.
  destruct (bread_ok s R H V D b Hs Hb HR Hsp) as (i & s' & E & Hs' & _ & Hw & _).
  destruct (crep_held _ _ _ _ _ b i Hs') as (Hc & Hh & _ & _ & _ & Hd); [apply at_eq|].
  exists i, s'. split_and!; auto. intros j. split; [|by intros ->].
  intros Hj. by apply (c_uniq _ _ _ _ _ (proj2 Hs') j i b).
Qed.

(** Bget of a block that is not cached takes the least recently used
    buffer among those nobody references, and panics only when every buffer is
    referenced; [l] is the list of the buffers, most recently used first. *)
Theorem bget_recycles_lru s l dev b :
  links s l -> (forall j, j ∈ l -> matches dev b (bget_buf s j) = false) ->
  (exists l1 i l2, l = l1 ++ i :: l2 /\ b_refcnt (bget_buf s i) = 0 /\
     (forall j, j ∈ l2 -> b_refcnt (bget_buf s j) <> 0) /\
     bget dev b s = (modify (upd_buf i (set_id dev b)) ;; lock_buf i ;; ret i) s) \/
  ((forall j, (j < NBUF)%nat -> b_refcnt (bget_buf s j) <> 0) /\
   bget dev b s = Stop (Panic "bget: no buffers") s).
Proof.
  intros Hl Hno. rewrite (bget_run s l) by done.
  destruct (List.find _ l) as [i|] eqn:Ef.
  { apply List.find_some in Ef as [Hi Hm]. apply list_elem_of_In in Hi. rewrite Hno in Hm by done. done. }
  destruct (List.find _ (rev l)) as [i|] eqn:Er.
  - left. apply List.find_some in Er as Er'. destruct Er' as [Hi Hr]. bool_to_prop.
    apply find_split in Er as (a1 & a2 & Ea & Hall). exists (rev a2), i, (rev a1). split_and!; [|done| |done].
    + rewrite <- (rev_involutive l), Ea, rev_app_distr. simpl. by rewrite <- app_assoc.
    + intros j Hj. apply list_elem_of_In, in_rev, list_elem_of_In in Hj. apply Z.eqb_neq. auto.
  - right. split; [|done]. intros j Hj. apply Z.eqb_neq, (List.find_none _ _ Er).
    rewrite <- in_rev. apply list_elem_of_In. by apply (in_order l j (links_perm _ _ Hl)).
Qed.

(** Brelse of a held buffer drops one reference and the lock; with the last
    reference the buffer becomes the most recently used, and otherwise the
    order of the list stays. *)
Theorem brelse_moves_to_front s l i :
  links s l -> (i < NBUF)%nat -> holding_buf s i = true -> 0 < b_refcnt (bget_buf s i) < 2 ^ 32 ->
  exists s' l1 l2, l = l1 ++ i :: l2 /\ brelse i s = Ok tt s' /\
    b_refcnt (bget_buf s' i) = b_refcnt (bget_buf s i) - 1 /\
    sl_locked (b_lock (bget_buf s' i)) = 0 /\
    links s' (if b_refcnt (bget_buf s i) =? 1 then i :: l1 ++ l2 else l).
Proof.
  intros Hl Hi Hh Hr. pose proof Hl as [Hlen _ _].
  set (f := fun b => set_refcnt (u32 (b_refcnt b - 1)) (set_lock (releasesleep (b_lock b)) b)).
  assert (links (upd_buf i f s) l) as Hl' by (apply links_upd; [by intros [] | done]).
  assert (bget_buf (upd_buf i f s) i = f (bget_buf s i)) as Ef by (apply bget_upd_eq; lia).
  assert (brelse i s = when (u32 (b_refcnt (bget_buf s i) - 1) =? 0) (move_front i) (upd_buf i f s)) as E.
  { unfold brelse, bind, get, modify. rewrite Hh. cbn [negb]. rewrite upd_upd.
    change (upd_buf i (fun b => _) s) with (upd_buf i f s). by rewrite Ef. }
  rewrite u32_id in E by lia. destruct (move_front_links _ l i Hl' Hi) as (l1 & l2 & El & Hm).
  rewrite E. destruct (Z.eqb_spec (b_refcnt (bget_buf s i)) 1) as [E1|E1].
  - rewrite E1. change (1 - 1 =? 0) with true. cbn [when]. rewrite move_front_run.
    destruct (core_fields _ _ (move_front_core i (upd_buf i f s)) i) as (_ & _ & _ & K1 & K2 & _).
    eexists _, l1, l2. split_and!; [done | reflexivity | | | done].
    + rewrite K2, Ef. unfold f. cbn [b_refcnt set_refcnt]. by rewrite E1.
    + by rewrite K1, Ef.
  - destruct (Z.eqb_spec (b_refcnt (bget_buf s i) - 1) 0); [lia|]. cbn [when].
    eexists _, l1, l2. split_and!; [done | reflexivity | | | done].
    + rewrite Ef. unfold f. cbn [b_refcnt set_refcnt]. apply u32_id. lia.
    + by rewrite Ef.
Qed.

Lemma bread_current_witness :
  exists s R H V D, crep s R H V D /\ H 5 = None /\
    exists i s', bread ROOTDEV 5 s = Ok i s' /\
      b_data (bget_buf s' i) = V 5 /\ holding_buf s' i = true /\
      (forall j, caches s' j 5 <-> j = i) /\
      crep s' (at_ R 5 (R 5 + 1)) (at_ H 5 (Some i)) V D /\ writes s' = writes s.
Proof.
  destruct (binit_ok (<[5 := replicate 1024 9]> ∅) 1) as (s & _ & Hs & _).
  do 5 eexists. split; [exact Hs|]. split; [reflexivity|].
  apply (bread_current s _ _ _ _ 5 Hs); [reflexivity | lia | right].
  apply (spare_of_used s _ _ _ _ [] Hs); [intros b Hb; by destruct Hb | unfold NBUF; simpl; lia].
Defined.

Lemma bget_recycles_lru_witness :
  exists s l, links s l /\
  ((exists l1 i l2, l = l1 ++ i :: l2 /\ b_refcnt (bget_buf s i) = 0 /\
     (forall j, j ∈ l2 -> b_refcnt (bget_buf s j) <> 0) /\
     bget 1 5 s = (modify (upd_buf i (set_id 1 5)) ;; lock_buf i ;; ret i) s) \/
  ((forall j, (j < NBUF)%nat -> b_refcnt (bget_buf s j) <> 0) /\
   bget 1 5 s = Stop (Panic "bget: no buffers") s)).
Proof.
  destruct (binit_ok ∅ 1) as (s & _ & [[l Hl] Hc] & _ & _ & _ & E0). exists s, l. split; [exact Hl|].
  apply (bget_recycles_lru s l 1 5 Hl). intros j Hj. unfold matches.
  specialize (E0 j). unfold core in E0. injection E0 as _ Hd Hb _ _ _. by rewrite Hd.
Defined.

Lemma brelse_moves_to_front_witness :
  exists s l i, links s l /\ holding_buf s i = true /\ b_refcnt (bget_buf s i) = 1 /\
  exists s' l1 l2, l = l1 ++ i :: l2 /\ brelse i s = Ok tt s' /\
    b_refcnt (bget_buf s' i) = b_refcnt (bget_buf s i) - 1 /\
    sl_locked (b_lock (bget_buf s' i)) = 0 /\
    links s' (if b_refcnt (bget_buf s i) =? 1 then i :: l1 ++ l2 else l).
Proof.
  destruct (binit_ok ∅ 1) as (s0 & _ & Hs0 & _).
  destruct (bread_ok s0 _ _ _ _ 5 Hs0) as (i & s & _ & Hs & _); [reflexivity | lia | |].
  { right. apply (spare_of_used s0 _ _ _ _ [] Hs0); [intros b Hb; by destruct Hb | unfold NBUF; simpl; lia]. }
  destruct (crep_held _ _ _ _ _ 5 i Hs) as (Hc & Hh & _ & Hr & HR & _); [reflexivity|].
  destruct Hs as [[l Hl] _]. exists s, l, i. split; [exact Hl|]. split; [exact Hh|]. split; [exact Hr|].
  apply (brelse_moves_to_front s l i Hl); [apply Hc | exact Hh | rewrite Hr; exact HR].
Defined.
