(* ===== verification/Cache.v ===== *)
(** * What the log and the file system ask of the buffer cache

    The operations of bio.c that log.c and fs.c call, and what they promise:
    [bc_rep s R H V D] says that in state [s] block [b] is referenced [R b]
    times, held locked by the current process in buffer [H b], reads as [V b]
    and is [D b] on the disk. The clients are proved against the class; Bio's
    lemmas discharge it. *)

From stdpp Require Import base gmap list.
From Stdlib Require Import ZArith Lia.
From S2P Require Import Prelude Sleeplock Bio.

Class BlockCache (S : Type) : Type := {
  bc_bread : Z -> Z -> M S nat;          (* bread(dev, blockno) *)
  bc_bwrite : nat -> M S unit;
  bc_brelse : nat -> M S unit;
  bc_bpin : nat -> M S unit;
  bc_bunpin : nat -> M S unit;
  bc_data : S -> nat -> block;           (* b->data *)
  bc_blockno : S -> nat -> Z;            (* b->blockno *)
  bc_set_data : nat -> block -> M S unit;
  bc_writes : S -> list (Z * block);     (* the writes the disk has performed *)
  bc_boot : gmap Z block -> S;           (* the cache after binit on this disk *)
}.

(** A free buffer is certain when fewer than NBUF blocks are referenced. *)
Definition room (R : Z -> Z) (k : nat) : Prop :=
  exists used, (forall b, R b <> 0 -> b ∈ used) /\ (length used + k <= NBUF)%nat.

Class BlockCacheLaws (S : Type) `{BlockCache S} : Type := {
  bc_rep : S -> (Z -> Z) -> (Z -> option nat) -> (Z -> block) -> (Z -> block) -> Prop;
  bc_ext : forall s R H V D R' H' V' D', bc_rep s R H V D ->
    (forall b, R' b = R b) -> (forall b, H' b = H b) -> (forall b, V' b = V b) ->
    (forall b, D' b = D b) -> bc_rep s R' H' V' D';
  bc_held : forall s R H V D b i, bc_rep s R H V D -> H b = Some i ->
    bc_data s i = V b /\ bc_blockno s i = b /\ 0 < R b;
  bc_nonneg : forall s R H V D b, bc_rep s R H V D -> 0 <= R b;
  bc_clean : forall s R H V D b, bc_rep s R H V D -> R b = 0 -> V b = D b;
  bc_bread_ok : forall s R H V D b, bc_rep s R H V D ->
    H b = None -> R b + 1 < 2 ^ 32 -> 0 < R b \/ room R 1 ->
    exists i s', bc_bread ROOTDEV b s = Ok i s' /\
      bc_rep s' (at_ R b (R b + 1)) (at_ H b (Some i)) V D /\ bc_writes s' = bc_writes s;
  bc_bwrite_ok : forall s R H V D b i, bc_rep s R H V D -> H b = Some i ->
    exists s', bc_bwrite i s = Ok tt s' /\ bc_rep s' R H V (at_ D b (V b)) /\
      bc_writes s' = bc_writes s ++ [(b, V b)];
  bc_set_data_ok : forall s R H V D b i d, bc_rep s R H V D -> H b = Some i ->
    exists s', bc_set_data i d s = Ok tt s' /\ bc_rep s' R H (at_ V b d) D /\
      bc_writes s' = bc_writes s;
  bc_brelse_ok : forall s R H V D b i, bc_rep s R H V D -> H b = Some i ->
    1 < R b \/ V b = D b ->
    exists s', bc_brelse i s = Ok tt s' /\
      bc_rep s' (at_ R b (R b - 1)) (at_ H b None) V D /\ bc_writes s' = bc_writes s;
  bc_bpin_ok : forall s R H V D b i, bc_rep s R H V D -> H b = Some i -> R b + 1 < 2 ^ 32 ->
    exists s', bc_bpin i s = Ok tt s' /\ bc_rep s' (at_ R b (R b + 1)) H V D /\
      bc_writes s' = bc_writes s;
  bc_bunpin_ok : forall s R H V D b i, bc_rep s R H V D -> H b = Some i -> 1 < R b ->
    exists s', bc_bunpin i s = Ok tt s' /\ bc_rep s' (at_ R b (R b - 1)) H V D /\
      bc_writes s' = bc_writes s;
  bc_boot_ok : forall d,
    bc_rep (bc_boot d) (fun _ => 0) (fun _ => None) (read_block d) (read_block d) /\
    bc_writes (bc_boot d) = [];
}.

(** ** bio.c implements the interface *)

Definition booted (d : gmap Z block) : bstate :=
  match binit (boot_cache d 1) with Ok _ s => s | Stop _ s => s end.

#[export] Instance bio_cache : BlockCache bstate := {
  bc_bread := bread;
  bc_bwrite := bwrite;
  bc_brelse := brelse;
  bc_bpin := bpin;
  bc_bunpin := bunpin;
  bc_data s i := b_data (bget_buf s i);
  bc_blockno s i := b_blockno (bget_buf s i);
  bc_set_data := set_buf_data;
  bc_writes := writes;
  bc_boot := booted;
}.

#[export] Program Instance bio_laws : BlockCacheLaws bstate := {
  bc_rep := crep;
}.
Next Obligation. eauto using crep_ext. Qed.
Next Obligation.
  intros s R H V D b i Hs Hb. simpl.
  destruct (crep_held _ _ _ _ _ _ _ Hs Hb) as (Hc & _ & _ & _ & ? & ?). split_and!; [done | apply Hc | lia].
Qed.
Next Obligation. intros s R H V D b [_ Hc]. apply (c_range _ _ _ _ _ Hc). Qed.
Next Obligation. intros s R H V D b [_ Hc]. apply (c_clean _ _ _ _ _ Hc). Qed.
Next Obligation.
  intros s R H V D b Hs Hb HR Hsp.
  destruct (bread_ok s R H V D b) as (i & s' & E & Hs' & _ & Ew & _); auto.
  { destruct Hsp as [?|(used & Hu & Hl)]; [auto|]. right. eapply spare_of_used; eauto. lia. }
  eauto.
Qed.
Next Obligation.
  intros s R H V D b i Hs Hb.
  destruct (bwrite_ok s R H V D b i) as (s' & E & Hs' & _ & Ew & _); eauto.
Qed.
Next Obligation.
  intros s R H V D b i d Hs Hb.
  destruct (set_buf_data_ok s R H V D b i d) as (E & Hs'); eauto.
Qed.
Next Obligation.
  intros s R H V D b i Hs Hb Hc.
  destruct (brelse_ok s R H V D b i) as (s' & E & Hs' & _ & Ew & _); eauto.
Qed.
Next Obligation.
  intros s R H V D b i Hs Hb Hc.
  destruct (bpin_ok s R H V D b i) as (s' & E & Hs' & _ & Ew & _); eauto.
Qed.
Next Obligation.
  intros s R H V D b i Hs Hb Hc.
  destruct (bunpin_ok s R H V D b i) as (s' & E & Hs' & _ & Ew & _); eauto.
Qed.
Next Obligation.
  intros d. simpl. unfold booted.
  destruct (binit_ok d 1) as (s & E & Hs & _ & Ew & _). rewrite E. done.
Qed.
