(* ===== verification/Log.v ===== *)
(** * log.c: the redo log

    The operations of log.c over any implementation of the buffer cache. The
    header block is the C struct laid out in the bytes of the block. A crash
    is a prefix of the block writes the disk was given: the theorems say what
    recovery makes of every such prefix. *)

From stdpp Require Import base gmap list strings.
From Stdlib Require Import ZArith Lia.
From S2P Require Import Prelude Sleeplock Bytes Bio Cache.

Definition LOGSIZE : Z := MAXOPBLOCKS * 3.

(** struct log, with struct logheader inside; the spinlock is the atomicity
    of the operations. *)
Record logst : Type := LogSt {
  l_start : Z;
  l_size : Z;
  l_outstanding : Z;   (* how many FS sys calls are executing *)
  l_committing : Z;    (* in commit(), please wait *)
  l_dev : Z;
  lh_n : Z;
  lh_block : list Z;   (* LOGSIZE ints *)
}.

Record lstate (C : Type) : Type := LState { lg : logst; cache : C }.
Arguments LState {C} _ _.
Arguments lg {C} _.
Arguments cache {C} _.

Definition cache_lens {C} : lens (lstate C) C := Lens cache (fun c s => LState (lg s) c).
Definition upd_lg {C} (f : logst -> logst) : M (lstate C) unit :=
  modify (fun s => LState (f (lg s)) (cache s)).

Definition set_n (n : Z) (l : logst) : logst :=
  LogSt (l_start l) (l_size l) (l_outstanding l) (l_committing l) (l_dev l) n (lh_block l).
Definition set_block (i : Z) (b : Z) (l : logst) : logst :=
  LogSt (l_start l) (l_size l) (l_outstanding l) (l_committing l) (l_dev l) (lh_n l)
        (<[Z.to_nat i := b]> (lh_block l)).
Definition set_outstanding (o : Z) (l : logst) : logst :=
  LogSt (l_start l) (l_size l) o (l_committing l) (l_dev l) (lh_n l) (lh_block l).
Definition set_committing (c : Z) (l : logst) : logst :=
  LogSt (l_start l) (l_size l) (l_outstanding l) c (l_dev l) (lh_n l) (lh_block l).
Definition set_geometry (start size dev : Z) (l : logst) : logst :=
  LogSt start size (l_outstanding l) (l_committing l) dev (lh_n l) (lh_block l).

Definition lblock (l : logst) (i : Z) : Z := default 0 (lh_block l !! Z.to_nat i).

(** struct logheader in the bytes of a block: [n], then [block[LOGSIZE]]. *)
Definition hd_n (bs : block) : Z := i32 (ld32 bs 0).
Definition hd_block (bs : block) (i : Z) : Z := i32 (ld32 bs (4 + 4 * i)).
Definition set_hd_n (n : Z) (bs : block) : block := st32 bs 0 n.
Definition set_hd_block (i b : Z) (bs : block) : block := st32 bs (4 + 4 * i) b.

Section log.
Context {C : Type} `{BlockCache C}.

Definition on {A} (m : M C A) : M (lstate C) A := zoom cache_lens m.

(** The body of install_trans's loop: copy log block [tail] to its home. *)
Definition install_one (recovering : bool) (tail : Z) : M (lstate C) unit :=
  let* l := gets lg in
  let* lbuf := on (bc_bread (u32 (l_dev l)) (u32 (l_start l + tail + 1))) in
  let* dbuf := on (bc_bread (u32 (l_dev l)) (u32 (lblock l tail))) in
  let* s := get in
  on (bc_set_data dbuf (bc_data (cache s) lbuf)) ;;
  on (bc_bwrite dbuf) ;;
  when (negb recovering) (on (bc_bunpin dbuf)) ;;
  on (bc_brelse lbuf) ;;
  on (bc_brelse dbuf).

Definition install_trans (recovering : bool) : M (lstate C) unit :=
  let* s := get in
  for_each (indices (lh_n (lg s))) (install_one recovering).

Definition read_head : M (lstate C) unit :=
  let* l := gets lg in
  let* buf := on (bc_bread (u32 (l_dev l)) (u32 (l_start l))) in
  let* s := get in
  let lh := bc_data (cache s) buf in
  upd_lg (set_n (hd_n lh)) ;;
  for_each (indices (hd_n lh)) (fun i =>
    if LOGSIZE <=? i then fault "read_head: block[] overrun"
    else upd_lg (set_block i (hd_block lh i))) ;;
  on (bc_brelse buf).

Definition write_head : M (lstate C) unit :=
  let* l := gets lg in
  let* buf := on (bc_bread (u32 (l_dev l)) (u32 (l_start l))) in
  let* s := get in
  let hb := set_hd_n (lh_n l) (bc_data (cache s) buf) in
  let hb := fold_left (fun hb i => set_hd_block i (lblock l i) hb) (indices (lh_n l)) hb in
  on (bc_set_data buf hb) ;;
  on (bc_bwrite buf) ;;
  on (bc_brelse buf).

Definition recover_from_log : M (lstate C) unit :=
  read_head ;; install_trans true ;; upd_lg (set_n 0) ;; write_head.

Definition initlog (dev logstart nlog : Z) : M (lstate C) unit :=
  upd_lg (set_geometry (i32 logstart) (i32 nlog) dev) ;; recover_from_log.

Definition begin_op : M (lstate C) unit :=
  let* l := gets lg in
  if nz (l_committing l) then halt (Sleep 0)
  else if LOGSIZE <? i32 (lh_n l + (l_outstanding l + 1) * MAXOPBLOCKS) then halt (Sleep 0)
  else upd_lg (set_outstanding (i32 (l_outstanding l + 1))).

(** The body of write_log's loop: copy a cached block to log block [tail]. *)
Definition log_one (tail : Z) : M (lstate C) unit :=
  let* l := gets lg in
  let* to := on (bc_bread (u32 (l_dev l)) (u32 (l_start l + tail + 1))) in
  let* from := on (bc_bread (u32 (l_dev l)) (u32 (lblock l tail))) in
  let* s := get in
  on (bc_set_data to (bc_data (cache s) from)) ;;
  on (bc_bwrite to) ;;
  on (bc_brelse from) ;;
  on (bc_brelse to).

Definition write_log : M (lstate C) unit :=
  let* s := get in
  for_each (indices (lh_n (lg s))) log_one.

Definition commit : M (lstate C) unit :=
  let* l := gets lg in
  when (0 <? lh_n l)
    (write_log ;; write_head ;; install_trans false ;; upd_lg (set_n 0) ;; write_head).

Definition end_op : M (lstate C) unit :=
  upd_lg (fun l => set_outstanding (i32 (l_outstanding l - 1)) l) ;;
  let* l := gets lg in
  if nz (l_committing l) then panic "log.committing"
  else if l_outstanding l =? 0 then
    upd_lg (set_committing 1) ;; commit ;; upd_lg (set_committing 0)
  else ret tt.

(** The search loop of log_write: the first index that holds the block, or n. *)
Fixpoint find_block (l : logst) (blockno : Z) (i : Z) (k : nat) : Z :=
  match k with
  | O => i
  | S k => if u32 (lblock l i) =? blockno then i else find_block l blockno (i + 1) k
  end.

Definition log_write (b : nat) : M (lstate C) unit :=
  let* s := get in
  let l := lg s in
  if (LOGSIZE <=? lh_n l) || (l_size l - 1 <=? lh_n l) then panic "too big a transaction"
  else if l_outstanding l <? 1 then panic "log_write outside of trans"
  else
    let blockno := bc_blockno (cache s) b in
    let i := find_block l blockno 0 (Z.to_nat (lh_n l)) in
    upd_lg (set_block i (i32 blockno)) ;;
    if i =? lh_n l then on (bc_bpin b) ;; upd_lg (fun l => set_n (i32 (lh_n l + 1)) l)
    else ret tt.
End log.

(** One update of a block as a system call makes it, and three system calls
    that begin and then make the updates [ups], in any order and shared out
    in any way. *)
Definition log_update {C} `{BlockCache C} (u : Z * block) : M (lstate C) unit :=
  let* i := on (bc_bread ROOTDEV (fst u)) in
  on (bc_set_data i (snd u)) ;;
  log_write i ;;
  on (bc_brelse i).
Definition three_calls {C} `{BlockCache C} (ups : list (Z * block)) : M (lstate C) unit :=
  begin_op ;; begin_op ;; begin_op ;; for_each ups log_update.

(** ** Specification *)

(** A sequence of block writes, applied to the contents of a disk. *)
Definition putall (F : Z -> block) (ws : list (Z * block)) : Z -> block :=
  fold_left (fun F w => at_ F (fst w) (snd w)) ws F.

(** The home blocks a header block names. *)
Definition hd_blocks (bs : block) : list Z := map (hd_block bs) (indices (hd_n bs)).

(** The log of a disk occupies blocks [start .. start + LOGSIZE]. *)
Definition home (start b : Z) : Prop := b < start \/ start + LOGSIZE < b.

Record log_ok (start : Z) (bs : list Z) : Prop := {
  lok_start : 0 < start /\ start + LOGSIZE + 1 < 2 ^ 31;
  lok_nodup : NoDup bs;
  lok_len : Z.of_nat (length bs) <= LOGSIZE;
  lok_home : forall b, b ∈ bs -> 0 <= b < 2 ^ 31 /\ home start b;
}.

(** The writes that copy log blocks [a], [a+1], ... to the home blocks [bs]. *)
Definition installs (F : Z -> block) (a : Z) (bs : list Z) : list (Z * block) :=
  zip bs (map F (seqZ a (Z.of_nat (length bs)))).

(** What a disk means: its contents once the log it holds is installed. *)
Definition recovered (start : Z) (D : Z -> block) : Z -> block :=
  putall D (installs D (start + 1) (hd_blocks (D start))).

Record disk_ok (start : Z) (D : Z -> block) : Prop := {
  dok_len : Z.of_nat (length (D start)) = BSIZE;
  dok_n : 0 <= hd_n (D start) <= LOGSIZE;
  dok_log : log_ok start (hd_blocks (D start));
}.

(** The in-memory header names the blocks [bs]. *)
Record mem_log (start : Z) (bs : list Z) (l : logst) : Prop := {
  ml_start : l_start l = start;
  ml_dev : l_dev l = ROOTDEV;
  ml_n : lh_n l = Z.of_nat (length bs);
  ml_blocks : take (length bs) (lh_block l) = bs;
  ml_len : Z.of_nat (length (lh_block l)) = LOGSIZE;
}.

(** ** Lemmas on the specification *)

Lemma putall_cons F b x ws : putall F ((b, x) :: ws) = putall (at_ F b x) ws.
Proof. done. Qed.

Lemma putall_app F ws ws' : putall F (ws ++ ws') = putall (putall F ws) ws'.
Proof. apply fold_left_app. Qed.

Lemma putall_ext F G ws b : (forall b, F b = G b) -> putall F ws b = putall G ws b.
Proof.
  revert F G. induction ws as [|[c x] ws IH]; intros F G HFG; [apply HFG|].
  rewrite !putall_cons. apply IH. intros b'. unfold at_. by destruct (b' =? c).
Qed.

Lemma putall_out F ws b : b ∉ map fst ws -> putall F ws b = F b.
Proof.
  revert F. induction ws as [|[c x] ws IH]; intros F Hb; [done|].
  rewrite putall_cons, IH by set_solver. apply at_ne. set_solver.
Qed.

Lemma putall_in F ws b x :
  NoDup (map fst ws) -> (b, x) ∈ ws -> putall F ws b = x.
Proof.
  revert F. induction ws as [|[c y] ws IH]; intros F Hd Hb; [by apply elem_of_nil in Hb|].
  simpl in Hd. apply NoDup_cons in Hd as [Hc Hd]. rewrite putall_cons.
  apply elem_of_cons in Hb as [[= -> ->]|Hb]; [|by apply IH].
  rewrite putall_out by done. apply at_eq.
Qed.

Lemma length_installs_src (F : Z -> block) a (bs : list Z) :
  length bs = length (map F (seqZ a (Z.of_nat (length bs)))).
Proof. rewrite length_map, length_seqZ. lia. Qed.

Lemma installs_fst F a bs : map fst (installs F a bs) = bs.
Proof. apply fst_zip. by rewrite <- length_installs_src. Qed.

Lemma length_installs F a bs : length (installs F a bs) = length bs.
Proof. rewrite <- (installs_fst F a bs) at 2. by rewrite length_map. Qed.

Lemma installs_cons F a b bs : installs F a (b :: bs) = (b, F a) :: installs F (a + 1) bs.
Proof.
  unfold installs. rewrite length_cons, Nat2Z.inj_succ, seqZ_cons by lia.
  simpl. by rewrite Z.pred_succ, Z.add_1_r.
Qed.

Lemma installs_lookup F a bs i b :
  bs !! i = Some b -> (b, F (a + Z.of_nat i)) ∈ installs F a bs.
Proof.
  revert a i. induction bs as [|c bs IH]; intros a i Hi; [done|].
  rewrite installs_cons. destruct i as [|i]; simpl in Hi.
  - injection Hi as ->. replace (a + Z.of_nat 0) with a by lia. by left.
  - right. replace (a + Z.of_nat (S i)) with (a + 1 + Z.of_nat i) by lia. by apply IH.
Qed.

Lemma installs_ext F G a bs :
  (forall i, a <= i < a + Z.of_nat (length bs) -> F i = G i) -> installs F a bs = installs G a bs.
Proof.
  intros HFG. unfold installs. f_equal. apply map_ext_in. intros i Hi.
  apply list_elem_of_In, elem_of_seqZ in Hi. apply HFG. lia.
Qed.

Lemma take_fst k (ws : list (Z * block)) b : b ∈ map fst (take k ws) -> b ∈ map fst ws.
Proof.
  intros Hb. rewrite <- (take_drop k ws), map_app. apply elem_of_app. by left.
Qed.

Lemma putall_take_in F k bs a b i :
  bs !! i = Some b -> NoDup bs ->
  putall F (take k (installs F a bs)) b = if (i <? k)%nat then F (a + Z.of_nat i) else F b.
Proof.
  intros Hi Hd.
  assert (NoDup (map fst (take k (installs F a bs)))) as Hd'.
  { rewrite <- firstn_map, installs_fst. eapply sublist_NoDup; [exact Hd|]. apply sublist_take. }
  destruct (Nat.ltb_spec i k).
  - apply putall_in; [done|].
    assert (installs F a bs !! i = Some (b, F (a + Z.of_nat i))) as Hl.
    { unfold installs. rewrite lookup_zip_with. rewrite Hi. simpl.
      rewrite list_lookup_fmap, lookup_seqZ_lt; [done|].
      apply lookup_lt_Some in Hi. lia. }
    apply list_elem_of_lookup. exists i. by rewrite lookup_take_lt.
  - apply putall_out. rewrite <- firstn_map, installs_fst. intros Hb.
    apply list_elem_of_lookup in Hb as (j & Hj). apply lookup_take_Some in Hj as [Hj Hjk].
    assert (i = j) by by apply (NoDup_lookup bs i j b). lia.
Qed.

(** *** The header block *)

Lemma set_hd_block_len i b bs : length (set_hd_block i b bs) = length bs.
Proof. apply length_st. Qed.

Lemma fold_hd_len f ks : forall bs,
  length (fold_left (fun hb i => set_hd_block i (f i) hb) ks bs) = length bs.
Proof.
  induction ks as [|i ks IH]; intros bs; [done|]. simpl. by rewrite IH, set_hd_block_len.
Qed.

Lemma fold_hd_block f ks : forall bs j,
  NoDup ks -> (forall i, i ∈ ks -> 0 <= i < LOGSIZE) -> 0 <= j < LOGSIZE ->
  Z.of_nat (length bs) = BSIZE ->
  let hb := fold_left (fun hb i => set_hd_block i (f i) hb) ks bs in
  ld32 hb (4 + 4 * j) = (if decide (j ∈ ks) then u32 (f j) else ld32 bs (4 + 4 * j)) /\
  ld32 hb 0 = ld32 bs 0.
Proof.
  assert (LOGSIZE = 30) as HL by done. unfold BSIZE.
  induction ks as [|i ks IH]; intros bs j Hd Hi Hj Hlen; [done|].
  apply NoDup_cons in Hd as [Hni Hd].
  assert (0 <= i < LOGSIZE) by (apply Hi; by left).
  destruct (IH (set_hd_block i (f i) bs) j) as [E1 E2]; auto.
  { intros k Hk. apply Hi. by right. }
  { by rewrite set_hd_block_len. }
  cbn [fold_left]. rewrite E1, E2. clear E1 E2. split.
  - destruct (decide (j ∈ ks)) as [Hjs|Hjs].
    + rewrite decide_True by by right. done.
    + unfold set_hd_block. destruct (decide (j = i)) as [->|].
      * rewrite decide_True by by left. apply ld32_st32; lia.
      * rewrite decide_False by (rewrite elem_of_cons; tauto). apply ld32_st32_out; lia.
  - apply ld32_st32_out; lia.
Qed.

(** write_head's header block. *)
Definition header (l : logst) (bs : block) : block :=
  fold_left (fun hb i => set_hd_block i (lblock l i) hb) (indices (lh_n l)) (set_hd_n (lh_n l) bs).

Lemma header_len l bs : length (header l bs) = length bs.
Proof. unfold header. rewrite fold_hd_len. apply length_st. Qed.

Lemma indices_NoDup n : NoDup (indices n).
Proof. apply NoDup_seqZ. Qed.

Lemma i32_u32 z : - 2 ^ 31 <= z < 2 ^ 31 -> i32 (u32 z) = z.
Proof.
  intros. unfold i32, sgn, u32. rewrite Z.mod_mod by lia. by apply i32_id.
Qed.

Lemma header_n l bs :
  0 <= lh_n l <= LOGSIZE -> Z.of_nat (length bs) = BSIZE -> hd_n (header l bs) = lh_n l.
Proof.
  assert (LOGSIZE = 30) as HL by done. intros Hn Hlen. unfold hd_n, header.
  edestruct (fold_hd_block (lblock l) (indices (lh_n l)) (set_hd_n (lh_n l) bs) 0) as [_ ->].
  - apply indices_NoDup.
  - intros i. rewrite elem_of_indices. lia.
  - lia.
  - unfold set_hd_n, st32. by rewrite length_st.
  - unfold set_hd_n. rewrite ld32_st32 by (unfold BSIZE in *; lia). apply i32_u32. lia.
Qed.

Lemma header_block l bs i :
  0 <= i < lh_n l -> lh_n l <= LOGSIZE -> Z.of_nat (length bs) = BSIZE ->
  0 <= lblock l i < 2 ^ 31 -> hd_block (header l bs) i = lblock l i.
Proof.
  assert (LOGSIZE = 30) as HL by done. intros Hi Hn Hlen Hb. unfold hd_block, header.
  edestruct (fold_hd_block (lblock l) (indices (lh_n l)) (set_hd_n (lh_n l) bs) i) as [-> _].
  - apply indices_NoDup.
  - intros k. rewrite elem_of_indices. lia.
  - lia.
  - unfold set_hd_n, st32. by rewrite length_st.
  - rewrite decide_True by (rewrite elem_of_indices; lia). apply i32_u32. lia.
Qed.

Lemma lblock_lookup st bs l i b :
  mem_log st bs l -> bs !! i = Some b -> lblock l (Z.of_nat i) = b.
Proof.
  intros [] Hi. unfold lblock. rewrite Nat2Z.id. rewrite <- ml_blocks0 in Hi.
  apply lookup_take_Some in Hi as [-> _]. done.
Qed.

Lemma map_indices {A} (f : Z -> A) (xs : list A) n :
  n = Z.of_nat (length xs) ->
  (forall i x, xs !! i = Some x -> f (Z.of_nat i) = x) -> map f (indices n) = xs.
Proof.
  intros -> Hf. apply list_eq. intros i. rewrite list_lookup_fmap. unfold indices.
  destruct (xs !! i) as [x|] eqn:Hx.
  - apply lookup_lt_Some in Hx as Hi. rewrite lookup_seqZ_lt by lia. simpl. f_equal. by apply Hf.
  - apply lookup_ge_None_1 in Hx. rewrite lookup_seqZ_ge by lia. done.
Qed.

(** The header written for the log [bs] names [bs]. *)
Lemma header_blocks st bs l x :
  mem_log st bs l -> log_ok st bs -> Z.of_nat (length x) = BSIZE ->
  hd_blocks (header l x) = bs.
Proof.
  intros Hm Hl Hx. pose proof Hm as []. pose proof Hl as [].
  unfold hd_blocks. rewrite header_n by lia. apply map_indices; [done|].
  intros i b Hi. pose proof (lblock_lookup _ _ _ _ _ Hm Hi) as Hb.
  apply lookup_lt_Some in Hi as Hlt.
  rewrite header_block; rewrite ?Hb; auto; [lia.. |].
  apply lok_home0. by eapply list_elem_of_lookup_2.
Qed.

Lemma hd_blocks_nil x : hd_n x = 0 -> hd_blocks x = [].
Proof. intros Hn. unfold hd_blocks. by rewrite Hn. Qed.

Lemma log_ok_nil st : 0 < st /\ st + LOGSIZE + 1 < 2 ^ 31 -> log_ok st [].
Proof.
  intros. split; [done | apply NoDup_nil_2 | done | intros b Hb; by apply elem_of_nil in Hb].
Qed.

Lemma recovered_nil st D b : hd_n (D st) = 0 -> recovered st D b = D b.
Proof. intros Hn. unfold recovered. by rewrite hd_blocks_nil. Qed.

Lemma log_blocks_not_home st bs b i :
  log_ok st bs -> b ∈ bs -> 0 <= i <= LOGSIZE -> b <> st + i.
Proof. intros [] Hb Hi ->. apply lok_home0 in Hb as [_ []]; lia. Qed.

(** ** Crash points, on the specification *)

(** Before the header is written, the disk still means what it meant. *)
Lemma crash_before_head st D bs xs k :
  hd_n (D st) = 0 -> log_ok st bs -> length xs = length bs -> Z.of_nat (length (D st)) = BSIZE ->
  let Dk := putall D (take k (zip (seqZ (st + 1) (Z.of_nat (length bs))) xs)) in
  disk_ok st Dk /\ (forall b, home st b -> recovered st Dk b = D b).
Proof.
  intros Hn Hl Hx Hlen Dk. pose proof Hl as [].
  assert (forall b, b <= st \/ st + LOGSIZE < b -> Dk b = D b) as E.
  { intros b Hb. unfold Dk. apply putall_out. intros Hi%take_fst.
    rewrite (fst_zip (A:=Z)) in Hi by (rewrite length_seqZ; lia). apply elem_of_seqZ in Hi. lia. }
  assert (hd_n (Dk st) = 0) as Hn' by (rewrite E; [done|lia]).
  split; [split|].
  - rewrite E by lia. done.
  - rewrite Hn'. unfold LOGSIZE, MAXOPBLOCKS. lia.
  - rewrite hd_blocks_nil by done. by apply log_ok_nil.
  - intros b Hb. rewrite recovered_nil by done. apply E. unfold home in Hb. lia.
Qed.

(** What is recovered, block by block. *)
Lemma recovered_in st D b i :
  disk_ok st D -> hd_blocks (D st) !! i = Some b -> recovered st D b = D (st + 1 + Z.of_nat i).
Proof.
  intros [_ _ []] Hi. unfold recovered. apply putall_in; [by rewrite installs_fst|].
  by apply installs_lookup.
Qed.

Lemma recovered_out st D b : b ∉ hd_blocks (D st) -> recovered st D b = D b.
Proof. intros Hb. unfold recovered. apply putall_out. by rewrite installs_fst. Qed.

(** Installing part of the log, or all of it, does not change what the disk
    means: recovery can be interrupted and run again. *)
Lemma crash_installing st D k :
  disk_ok st D ->
  let Dk := putall D (take k (installs D (st + 1) (hd_blocks (D st)))) in
  disk_ok st Dk /\ Dk st = D st /\ (forall b, recovered st Dk b = recovered st D b).
Proof.
  intros Hd Dk. pose proof Hd as [Hlen Hn Hl]. set (bs := hd_blocks (D st)) in *. pose proof Hl as [].
  assert (forall i, 0 <= i <= LOGSIZE -> Dk (st + i) = D (st + i)) as E.
  { intros i Hi. unfold Dk. apply putall_out. intros Hb%take_fst. rewrite installs_fst in Hb.
    by apply (log_blocks_not_home st bs _ i Hl Hb). }
  assert (Dk st = D st) as Es.
  { replace st with (st + 0) by lia. apply E. unfold LOGSIZE, MAXOPBLOCKS. lia. }
  assert (disk_ok st Dk) as Hdk by (split; by rewrite Es).
  split_and!; [done | done |]. intros b.
  destruct (decide (b ∈ bs)) as [Hb|Hb].
  - apply list_elem_of_lookup in Hb as (i & Hi). apply lookup_lt_Some in Hi as Hlt.
    rewrite (recovered_in st Dk b i) by (rewrite ?Es; done).
    rewrite (recovered_in st D b i) by done. rewrite <- Z.add_assoc. apply E. lia.
  - rewrite !recovered_out by (rewrite ?Es; done). unfold Dk. apply putall_out.
    intros Hb'%take_fst. by rewrite installs_fst in Hb'.
Qed.

(** Once installed, clearing the header changes nothing either. *)
Lemma crash_cleared st D x :
  disk_ok st D -> hd_n x = 0 -> Z.of_nat (length x) = BSIZE ->
  let D' := at_ (putall D (installs D (st + 1) (hd_blocks (D st)))) st x in
  disk_ok st D' /\ (forall b, home st b -> D' b = recovered st D b) /\
  (forall b, home st b -> recovered st D' b = recovered st D b).
Proof.
  intros Hd Hn Hx D'. pose proof Hd as [_ _ []].
  assert (D' st = x) as Es by apply at_eq.
  assert (forall b, home st b -> D' b = recovered st D b) as E.
  { intros b Hb. unfold D'. apply at_ne. unfold home, LOGSIZE, MAXOPBLOCKS in *. lia. }
  split_and!; [|done|].
  - split; rewrite Es; [done | |].
    + rewrite Hn. unfold LOGSIZE, MAXOPBLOCKS. lia.
    + rewrite hd_blocks_nil by done. by apply log_ok_nil.
  - intros b Hb. rewrite recovered_nil by by rewrite Es. by apply E.
Qed.

(** A disk whose log was written and whose header names it means the new
    contents. *)
Lemma committed_means st D V bs hdr :
  log_ok st bs -> hd_blocks hdr = bs -> hd_n hdr = Z.of_nat (length bs) ->
  Z.of_nat (length hdr) = BSIZE -> (forall b, home st b -> b ∉ bs -> V b = D b) ->
  let D1 := at_ (putall D (zip (seqZ (st + 1) (Z.of_nat (length bs))) (map V bs))) st hdr in
  disk_ok st D1 /\ (forall b, home st b -> recovered st D1 b = V b).
Proof.
  intros Hl Hh Hn Hx HV D1. pose proof Hl as [].
  assert (D1 st = hdr) as Es by apply at_eq.
  assert (length (seqZ (st + 1) (Z.of_nat (length bs))) = length (map V bs)) as Hlen
    by (rewrite length_seqZ, length_map; lia).
  assert (disk_ok st D1) as Hd by (split; rewrite Es, ?Hh; auto; lia).
  split; [done|]. intros b Hb. destruct (decide (b ∈ bs)) as [Hin|Hin].
  - apply list_elem_of_lookup in Hin as (i & Hi). apply lookup_lt_Some in Hi as Hlt.
    rewrite (recovered_in st D1 b i) by (rewrite ?Es, ?Hh; done).
    unfold D1. rewrite at_ne by lia. apply putall_in.
    + rewrite (fst_zip (A:=Z)) by lia. apply NoDup_seqZ.
    + apply list_elem_of_lookup. exists i. rewrite lookup_zip_with.
      rewrite lookup_seqZ_lt by lia. simpl. by rewrite list_lookup_fmap, Hi.
  - rewrite recovered_out by by rewrite Es, Hh. unfold D1.
    rewrite at_ne by (unfold home, LOGSIZE, MAXOPBLOCKS in *; lia).
    rewrite putall_out; [by rewrite HV|]. rewrite (fst_zip (A:=Z)) by lia.
    rewrite elem_of_seqZ. unfold home in Hb. lia.
Qed.

(** ** Running the operations *)

(** Pointwise equality of nested updates. *)
Ltac at_solve :=
  unfold at_ in *;
  repeat match goal with
  | |- context [ ?a =? ?b ] => destruct (Z.eqb_spec a b)
  | H : context [ ?a =? ?b ] |- _ => destruct (Z.eqb_spec a b)
  end; subst; try congruence; try lia; try done.

Lemma room_weaken R j k : room R k -> (j <= k)%nat -> room R j.
Proof. intros (used & Hu & Hl) ?. exists used. split; [done | lia]. Qed.

Lemma room_at R b r k : room R (S k) -> room (at_ R b r) k.
Proof.
  intros (used & Hu & Hl). exists (b :: used). split; [|simpl; lia].
  intros b' Hb'. apply elem_of_cons. unfold at_ in Hb'.
  destruct (Z.eqb_spec b' b); [by left | right; auto].
Qed.

Lemma room_le R R' k : room R k -> (forall b, R' b <> 0 -> R b <> 0) -> room R' k.
Proof. intros (used & Hu & Hl) HR. exists used. split; [|done]. auto. Qed.

Section run.
Context {C : Type} `{BlockCacheLaws C}.

(** No buffer is locked. *)
Definition idle (c : C) (R : Z -> Z) (V D : Z -> block) : Prop :=
  bc_rep c R (fun _ => None) V D.

Lemma on_bind {A B} (m : M C A) (k : A -> M (lstate C) B) l c a c' :
  m c = Ok a c' -> bind (on m) k (LState l c) = k a (LState l c').
Proof. intros E. unfold bind, on, zoom. simpl. by rewrite E. Qed.

Lemma on_last {A} (m : M C A) l c a c' :
  m c = Ok a c' -> on m (LState l c) = Ok a (LState l c').
Proof. intros E. unfold on, zoom. simpl. by rewrite E. Qed.

(** One turn of install_trans's loop. *)
Lemma install_step (recovering : bool) l c R V D lb db tail :
  idle c R V D -> l_dev l = ROOTDEV ->
  lb = l_start l + tail + 1 -> db = lblock l tail -> 0 <= lb < 2 ^ 31 -> 0 <= db < 2 ^ 31 ->
  lb <> db -> R lb = 0 -> R db + 1 < 2 ^ 32 -> room R 1 ->
  (if recovering then room R 2 else 0 < R db) ->
  exists c',
    install_one recovering tail (LState l c) = Ok tt (LState l c') /\
    idle c' (at_ R db (if recovering then R db else R db - 1))
            (at_ V db (V lb)) (at_ D db (V lb)) /\
    bc_writes c' = bc_writes c ++ [(db, V lb)].
Proof.
  intros Hc Hdev Hlb Hdb Hlbr Hdbr Hne HR0 HRd Hr1 Hr2.
  pose proof (bc_nonneg _ _ _ _ _ db Hc) as HRn.
  pose proof (bc_clean _ _ _ _ _ lb Hc HR0) as Hcl.
  unfold install_one, gets. erewrite bind_run by reflexivity. cbn [lg].
  rewrite Hdev, <- Hlb, <- Hdb, !u32_id by (unfold ROOTDEV; lia).
  destruct (bc_bread_ok _ _ _ _ _ lb Hc) as (i & c1 & E1 & H1 & W1); [done | lia | auto |].
  rewrite (on_bind _ _ _ _ _ _ E1).
  destruct (bc_bread_ok _ _ _ _ _ db H1) as (j & c2 & E2 & H2 & W2).
  { by rewrite at_ne. }
  { rewrite at_ne by done. lia. }
  { rewrite at_ne by done. destruct recovering; [right; by apply room_at | by left]. }
  rewrite (on_bind _ _ _ _ _ _ E2). rewrite at_ne in H2 by done.
  unfold get. erewrite bind_run by reflexivity. cbn [cache].
  destruct (bc_held _ _ _ _ _ lb i H2) as (Ed & _). { by rewrite at_ne, at_eq. }
  rewrite Ed. edestruct (bc_set_data_ok _ _ _ _ _ db j (V lb) H2) as (c3 & E3 & H3 & W3).
  { by rewrite at_eq. }
  rewrite (on_bind _ _ _ _ _ _ E3).
  destruct (bc_bwrite_ok _ _ _ _ _ db j H3) as (c4 & E4 & H4 & W4). { by rewrite at_eq. }
  rewrite (on_bind _ _ _ _ _ _ E4). rewrite at_eq in H4, W4.
  assert (exists c5, when (negb recovering) (on (bc_bunpin j)) (LState l c4) = Ok tt (LState l c5) /\
    bc_rep c5 (at_ (at_ R lb 1) db (if recovering then R db + 1 else R db))
      (at_ (at_ (fun _ => None) lb (Some i)) db (Some j)) (at_ V db (V lb)) (at_ D db (V lb)) /\
    bc_writes c5 = bc_writes c4) as (c5 & E5 & H5 & W5).
  { destruct recovering; cbn [negb when].
    - exists c4. split_and!; [done | | done]. eapply bc_ext; [exact H4|..]; intros; at_solve.
    - destruct (bc_bunpin_ok _ _ _ _ _ db j H4) as (c5 & E5 & H5 & W5); [by rewrite at_eq | rewrite at_eq; lia |].
      exists c5. split_and!; [by apply on_last | | done].
      eapply bc_ext; [exact H5|..]; intros; at_solve. }
  rewrite (bind_run _ _ _ _ _ E5).
  destruct (bc_brelse_ok _ _ _ _ _ lb i H5) as (c6 & E6 & H6 & W6).
  { by rewrite at_ne, at_eq. }
  { right. by rewrite !at_ne. }
  rewrite (on_bind _ _ _ _ _ _ E6).
  destruct (bc_brelse_ok _ _ _ _ _ db j H6) as (c7 & E7 & H7 & W7).
  { by rewrite at_ne, at_eq. }
  { right. by rewrite !at_eq. }
  exists c7. split_and!; [by apply on_last | | congruence].
  eapply bc_ext; [exact H7|..]; intros; destruct recovering; at_solve.
Qed.

(** One turn of write_log's loop. *)
Lemma write_log_step l c R V D lb db tail :
  idle c R V D -> l_dev l = ROOTDEV ->
  lb = l_start l + tail + 1 -> db = lblock l tail -> 0 <= lb < 2 ^ 31 -> 0 <= db < 2 ^ 31 ->
  lb <> db -> R lb = 0 -> 0 < R db -> R db + 1 < 2 ^ 32 -> room R 1 ->
  exists c',
    log_one tail (LState l c) = Ok tt (LState l c') /\
    idle c' R (at_ V lb (V db)) (at_ D lb (V db)) /\
    bc_writes c' = bc_writes c ++ [(lb, V db)].
Proof.
  intros Hc Hdev Hlb Hdb Hlbr Hdbr Hne HR0 HRp HRd Hr1.
  unfold log_one, gets. erewrite bind_run by reflexivity. cbn [lg].
  rewrite Hdev, <- Hlb, <- Hdb, !u32_id by (unfold ROOTDEV; lia).
  destruct (bc_bread_ok _ _ _ _ _ lb Hc) as (i & c1 & E1 & H1 & W1); [done | lia | auto |].
  rewrite (on_bind _ _ _ _ _ _ E1).
  destruct (bc_bread_ok _ _ _ _ _ db H1) as (j & c2 & E2 & H2 & W2).
  { by rewrite at_ne. }
  { rewrite at_ne by done. lia. }
  { rewrite at_ne by done. by left. }
  rewrite (on_bind _ _ _ _ _ _ E2). rewrite at_ne in H2 by done.
  unfold get. erewrite bind_run by reflexivity. cbn [cache].
  destruct (bc_held _ _ _ _ _ db j H2) as (Ed & _). { by rewrite at_eq. }
  rewrite Ed. edestruct (bc_set_data_ok _ _ _ _ _ lb i (V db) H2) as (c3 & E3 & H3 & W3).
  { by rewrite at_ne, at_eq. }
  rewrite (on_bind _ _ _ _ _ _ E3).
  destruct (bc_bwrite_ok _ _ _ _ _ lb i H3) as (c4 & E4 & H4 & W4). { by rewrite at_ne, at_eq. }
  rewrite (on_bind _ _ _ _ _ _ E4). rewrite at_eq in H4, W4.
  destruct (bc_brelse_ok _ _ _ _ _ db j H4) as (c6 & E6 & H6 & W6).
  { by rewrite at_eq. }
  { left. rewrite at_eq. lia. }
  rewrite (on_bind _ _ _ _ _ _ E6).
  destruct (bc_brelse_ok _ _ _ _ _ lb i H6) as (c7 & E7 & H7 & W7).
  { by rewrite at_ne, at_ne, at_eq. }
  { right. by rewrite !at_eq. }
  exists c7. split_and!; [by apply on_last | | congruence].
  eapply bc_ext; [exact H7|..]; intros; at_solve.
Qed.
(** install_trans's loop, from log block [k] on. *)
Lemma install_loop (recovering : bool) l bs : forall k c R V D,
  idle c R V D -> l_dev l = ROOTDEV -> log_ok (l_start l) bs ->
  0 <= k -> k + Z.of_nat (length bs) <= LOGSIZE ->
  (forall i b, bs !! i = Some b -> lblock l (k + Z.of_nat i) = b) ->
  (forall b, ~ home (l_start l) b -> R b = 0) -> (forall b, R b + 1 < 2 ^ 32) ->
  room R 1 -> (if recovering then room R 2 else forall b, b ∈ bs -> 0 < R b) ->
  let ws := installs V (l_start l + 1 + k) bs in
  exists c',
    for_each (seqZ k (Z.of_nat (length bs))) (install_one recovering) (LState l c) =
      Ok tt (LState l c') /\
    idle c' (fun b => if recovering then R b else if decide (b ∈ bs) then R b - 1 else R b)
            (putall V ws) (putall D ws) /\
    bc_writes c' = bc_writes c ++ ws.
Proof.
  induction bs as [|db bs IH]; intros k c R V D Hc Hdev Hl Hk Hkl Hb HR0 HRm Hr1 Hr2 ws.
  { exists c. split_and!; [done | | by rewrite app_nil_r].
    eapply bc_ext; [exact Hc|..]; intros; [destruct recovering; done | done..]. }
  destruct Hl as [Hst Hnd Hlen Hho]. apply NoDup_cons in Hnd as [Hdb Hnd].
  rewrite length_cons in *.
  assert (0 <= db < 2 ^ 31 /\ home (l_start l) db) as [Hdr Hdh] by (apply Hho; by left).
  set (lb := l_start l + 1 + k).
  assert (~ home (l_start l) lb) as Hlh by (unfold home, lb; lia).
  assert (lb <> db) as Hne by (intros ->; done).
  destruct (install_step recovering l c R V D lb db k) as (c1 & E1 & H1 & W1); auto.
  { unfold lb. lia. }
  { symmetry. rewrite <- (Hb 0%nat db) by done. f_equal. lia. }
  { unfold lb. lia. }
  { destruct recovering; [done|]. apply Hr2. by left. }
  destruct (IH (k + 1) c1 _ _ _ H1) as (c2 & E2 & H2 & W2); auto.
  { split; [done | done | lia |]. intros b Hb'. apply Hho. by right. }
  { lia. }
  { lia. }
  { intros i b Hi. rewrite <- (Hb (S i) b Hi). f_equal. lia. }
  { intros b Hbh. rewrite at_ne by (intros ->; done). auto. }
  { intros b. pose proof (HRm b). pose proof (HRm db). destruct recovering; at_solve. }
  { eapply room_le; [exact Hr1|]. intros b. pose proof (bc_nonneg _ _ _ _ _ b Hc).
    destruct recovering; [at_solve|]. pose proof (Hr2 db ltac:(by left)). at_solve. }
  { destruct recovering.
    - eapply room_le; [exact Hr2|]. intros b. at_solve.
    - intros b Hb'. rewrite at_ne by (intros ->; done). apply Hr2. by right. }
  assert (installs (at_ V db (V lb)) (l_start l + 1 + (k + 1)) bs =
          installs V (l_start l + 1 + k + 1) bs) as Ews.
  { rewrite (installs_ext _ V); [f_equal; lia|]. intros i Hi. apply at_ne. intros ->.
    destruct Hdh; lia. }
  rewrite Ews in *. exists c2. split_and!.
  - rewrite Nat2Z.inj_succ, seqZ_cons by lia. rewrite Z.pred_succ, <- Z.add_1_r. cbn [for_each].
    rewrite (bind_run _ _ _ _ _ E1). exact E2.
  - subst ws. rewrite installs_cons, !putall_cons. eapply bc_ext; [exact H2 | | done..].
    intros b. simpl. destruct recovering; [at_solve|].
    repeat case_decide; rewrite ?elem_of_cons in *; at_solve; tauto.
  - subst ws. rewrite installs_cons, W2, W1, <- app_assoc. done.
Qed.

Lemma write_log_loop l bs : forall k c R V D,
  idle c R V D -> l_dev l = ROOTDEV -> log_ok (l_start l) bs ->
  0 <= k -> k + Z.of_nat (length bs) <= LOGSIZE ->
  (forall i b, bs !! i = Some b -> lblock l (k + Z.of_nat i) = b) ->
  (forall b, ~ home (l_start l) b -> R b = 0) -> (forall b, R b + 1 < 2 ^ 32) ->
  room R 1 -> (forall b, b ∈ bs -> 0 < R b) ->
  let ws := zip (seqZ (l_start l + 1 + k) (Z.of_nat (length bs))) (map V bs) in
  exists c',
    for_each (seqZ k (Z.of_nat (length bs))) log_one (LState l c) = Ok tt (LState l c') /\
    idle c' R (putall V ws) (putall D ws) /\
    bc_writes c' = bc_writes c ++ ws.
Proof.
  induction bs as [|db bs IH]; intros k c R V D Hc Hdev Hl Hk Hkl Hb HR0 HRm Hr1 Hr2 ws.
  { exists c. by rewrite app_nil_r. }
  destruct Hl as [Hst Hnd Hlen Hho]. apply NoDup_cons in Hnd as [Hdb Hnd].
  rewrite length_cons in *.
  assert (0 <= db < 2 ^ 31 /\ home (l_start l) db) as [Hdr Hdh] by (apply Hho; by left).
  set (lb := l_start l + 1 + k).
  assert (~ home (l_start l) lb) as Hlh by (unfold home, lb; lia).
  assert (lb <> db) as Hne by (intros ->; done).
  destruct (write_log_step l c R V D lb db k) as (c1 & E1 & H1 & W1); auto.
  { unfold lb. lia. }
  { symmetry. rewrite <- (Hb 0%nat db) by done. f_equal. lia. }
  { unfold lb. lia. }
  { apply Hr2. by left. }
  destruct (IH (k + 1) c1 _ _ _ H1) as (c2 & E2 & H2 & W2); auto.
  { split; [done | done | lia |]. intros b Hb'. apply Hho. by right. }
  { lia. }
  { lia. }
  { intros i b Hi. rewrite <- (Hb (S i) b Hi). f_equal. lia. }
  { intros b Hb'. apply Hr2. by right. }
  assert (map (at_ V lb (V db)) bs = map V bs) as Ev.
  { apply map_ext_in. intros b Hb'%list_elem_of_In. apply at_ne. intros ->.
    apply Hlh, Hho. by right. }
  assert (ws = (lb, V db) :: zip (seqZ (l_start l + 1 + (k + 1)) (Z.of_nat (length bs))) (map V bs)) as Ews.
  { subst ws. rewrite length_cons, Nat2Z.inj_succ, seqZ_cons by lia. rewrite Z.pred_succ, <- Z.add_1_r.
    cbn. by rewrite !Z.add_assoc. }
  rewrite Ev in *. rewrite Ews. exists c2. split_and!.
  - rewrite Nat2Z.inj_succ, seqZ_cons by lia. rewrite Z.pred_succ, <- Z.add_1_r. cbn [for_each].
    rewrite (bind_run _ _ _ _ _ E1). exact E2.
  - rewrite !putall_cons. exact H2.
  - rewrite W2, W1, <- app_assoc. done.
Qed.
(** The loops, over the whole log. *)
Lemma install_trans_ok (recovering : bool) st bs l c R V D :
  idle c R V D -> mem_log st bs l -> log_ok st bs ->
  (forall b, ~ home st b -> R b = 0) -> (forall b, R b + 1 < 2 ^ 32) ->
  room R 1 -> (if recovering then room R 2 else forall b, b ∈ bs -> 0 < R b) ->
  let ws := installs V (st + 1) bs in
  exists c',
    install_trans recovering (LState l c) = Ok tt (LState l c') /\
    idle c' (fun b => if recovering then R b else if decide (b ∈ bs) then R b - 1 else R b)
            (putall V ws) (putall D ws) /\
    bc_writes c' = bc_writes c ++ ws.
Proof.
  intros Hc Hm Hl HR0 HRm Hr1 Hr2 ws. pose proof Hm as [<- Hdev Hn Hbs Hlen].
  destruct (install_loop recovering l bs 0 c R V D) as (c' & E & Hc' & W); auto.
  { lia. }
  { apply Hl. }
  { intros i b Hi. rewrite Z.add_0_l. by eapply lblock_lookup. }
  rewrite Z.add_0_r in Hc', W. exists c'. split_and!; [|done..].
  unfold install_trans, get. erewrite bind_run by reflexivity. cbn [lg]. by rewrite Hn.
Qed.

Lemma write_log_ok st bs l c R V D :
  idle c R V D -> mem_log st bs l -> log_ok st bs ->
  (forall b, ~ home st b -> R b = 0) -> (forall b, R b + 1 < 2 ^ 32) ->
  room R 1 -> (forall b, b ∈ bs -> 0 < R b) ->
  let ws := zip (seqZ (st + 1) (Z.of_nat (length bs))) (map V bs) in
  exists c',
    write_log (LState l c) = Ok tt (LState l c') /\
    idle c' R (putall V ws) (putall D ws) /\ bc_writes c' = bc_writes c ++ ws.
Proof.
  intros Hc Hm Hl HR0 HRm Hr1 Hr2 ws. pose proof Hm as [<- Hdev Hn Hbs Hlen].
  destruct (write_log_loop l bs 0 c R V D) as (c' & E & Hc' & W); auto.
  { lia. }
  { apply Hl. }
  { intros i b Hi. rewrite Z.add_0_l. by eapply lblock_lookup. }
  rewrite Z.add_0_r in Hc', W. exists c'. split_and!; [|done..].
  unfold write_log, get. erewrite bind_run by reflexivity. cbn [lg]. by rewrite Hn.
Qed.

Lemma write_head_ok st l c R V D :
  idle c R V D -> l_start l = st -> l_dev l = ROOTDEV -> 0 <= st < 2 ^ 31 ->
  R st = 0 -> room R 1 ->
  let hb := header l (V st) in
  exists c', write_head (LState l c) = Ok tt (LState l c') /\
    idle c' R (at_ V st hb) (at_ D st hb) /\ bc_writes c' = bc_writes c ++ [(st, hb)].
Proof.
  intros Hc Hs Hdev Hst HR0 Hr hb. unfold write_head, gets. erewrite bind_run by reflexivity.
  cbn [lg]. rewrite Hdev, Hs, !u32_id by (unfold ROOTDEV; lia).
  destruct (bc_bread_ok _ _ _ _ _ st Hc) as (i & c1 & E1 & H1 & W1); [done | lia | auto |].
  rewrite (on_bind _ _ _ _ _ _ E1). unfold get. erewrite bind_run by reflexivity. cbn [cache].
  destruct (bc_held _ _ _ _ _ st i H1) as (Ed & _). { by rewrite at_eq. }
  rewrite Ed. fold (header l (V st)). fold hb.
  destruct (bc_set_data_ok _ _ _ _ _ st i hb H1) as (c3 & E3 & H3 & W3). { by rewrite at_eq. }
  rewrite (on_bind _ _ _ _ _ _ E3).
  destruct (bc_bwrite_ok _ _ _ _ _ st i H3) as (c4 & E4 & H4 & W4). { by rewrite at_eq. }
  rewrite (on_bind _ _ _ _ _ _ E4). rewrite at_eq in H4, W4.
  destruct (bc_brelse_ok _ _ _ _ _ st i H4) as (c5 & E5 & H5 & W5).
  { by rewrite at_eq. }
  { right. by rewrite !at_eq. }
  exists c5. split_and!; [by apply on_last | | congruence].
  eapply bc_ext; [exact H5|..]; intros; at_solve.
Qed.

(** read_head's loop fills the in-memory header. *)
Lemma read_head_loop (lh : block) xs : forall k l (c : C),
  0 <= k -> k + Z.of_nat (length xs) <= LOGSIZE ->
  Z.of_nat (length (lh_block l)) = LOGSIZE ->
  (forall i x, xs !! i = Some x -> hd_block lh (k + Z.of_nat i) = x) ->
  exists l',
    for_each (seqZ k (Z.of_nat (length xs))) (fun i =>
      if LOGSIZE <=? i then fault "read_head: block[] overrun"
      else upd_lg (set_block i (hd_block lh i))) (LState l c) = Ok tt (LState l' c) /\
    l_start l' = l_start l /\ l_dev l' = l_dev l /\ lh_n l' = lh_n l /\
    l_size l' = l_size l /\ l_outstanding l' = l_outstanding l /\ l_committing l' = l_committing l /\
    length (lh_block l') = length (lh_block l) /\
    take (Z.to_nat k + length xs) (lh_block l') = take (Z.to_nat k) (lh_block l) ++ xs.
Proof.
  induction xs as [|x xs IH]; intros k l c Hk Hkl Hlen Hx.
  { exists l. split_and!; [done.. |]. by rewrite Nat.add_0_r, app_nil_r. }
  rewrite length_cons in *. rewrite Nat2Z.inj_succ, seqZ_cons by lia. rewrite Z.pred_succ, <- Z.add_1_r.
  cbn [for_each]. destruct (Z.leb_spec LOGSIZE k); [lia|].
  unfold upd_lg at 1. erewrite bind_run by reflexivity. cbn [lg cache].
  assert (hd_block lh k = x) as -> by (rewrite <- (Hx 0%nat x) by done; f_equal; lia).
  destruct (IH (k + 1) (set_block k x l) c) as (l' & E & Es & Ed & En & Ez & Eo & Ecm & El & Et).
  - lia.
  - lia.
  - simpl. by rewrite length_insert.
  - intros i y Hi. rewrite <- (Hx (S i) y Hi). f_equal. lia.
  - exists l'. split_and!; [done.. | |]; simpl in *.
    { rewrite El. apply length_insert. }
    replace (Z.to_nat k + S (length xs))%nat with (Z.to_nat (k + 1) + length xs)%nat by lia.
    rewrite Et. replace (Z.to_nat (k + 1)) with (S (Z.to_nat k)) by lia.
    erewrite take_S_r by (apply list_lookup_insert_eq; lia).
    rewrite take_insert_ge by lia. by rewrite <- app_assoc.
Qed.

Lemma length_hd_blocks bs : 0 <= hd_n bs -> Z.of_nat (length (hd_blocks bs)) = hd_n bs.
Proof. intros. unfold hd_blocks, indices. rewrite length_map, length_seqZ. lia. Qed.

Lemma read_head_ok st l c R V D :
  idle c R V D -> l_start l = st -> l_dev l = ROOTDEV ->
  Z.of_nat (length (lh_block l)) = LOGSIZE -> R st = 0 -> room R 1 ->
  disk_ok st D ->
  exists l' c', read_head (LState l c) = Ok tt (LState l' c') /\
    mem_log st (hd_blocks (D st)) l' /\ idle c' R V D /\ bc_writes c' = bc_writes c /\
    l_size l' = l_size l /\ l_outstanding l' = l_outstanding l /\ l_committing l' = l_committing l.
Proof.
  intros Hc Hs Hdev Hlen HR0 Hr [Hbl Hn Hok]. pose proof Hok as [Hst _ _ _].
  unfold read_head, gets. erewrite bind_run by reflexivity.
  cbn [lg]. rewrite Hdev, Hs, !u32_id by (unfold ROOTDEV, LOGSIZE, MAXOPBLOCKS in *; lia).
  destruct (bc_bread_ok _ _ _ _ _ st Hc) as (i & c1 & E1 & H1 & W1); [done | lia | auto |].
  rewrite (on_bind _ _ _ _ _ _ E1). unfold get. erewrite bind_run by reflexivity. cbn [cache].
  destruct (bc_held _ _ _ _ _ st i H1) as (Ed & _). { by rewrite at_eq. }
  pose proof (bc_clean _ _ _ _ _ st Hc HR0) as Hcl. rewrite Hcl in Ed. rewrite Ed.
  unfold upd_lg at 1. erewrite bind_run by reflexivity. cbn [lg cache].
  pose proof (length_hd_blocks (D st)) as Hnb.
  destruct (read_head_loop (D st) (hd_blocks (D st)) 0 (set_n (hd_n (D st)) l) c1)
    as (l' & E & Es & Edv & En & Ez & Eo & Ecm & El & Et); auto.
  { lia. }
  { lia. }
  { intros k x Hx. unfold hd_blocks, indices in Hx. rewrite list_lookup_fmap in Hx.
    destruct (decide (Z.of_nat k < hd_n (D st))).
    - rewrite lookup_seqZ_lt in Hx by lia. simpl in Hx. congruence.
    - rewrite lookup_seqZ_ge in Hx by lia. done. }
  rewrite Hnb in E by lia. unfold indices. rewrite (bind_run _ _ _ _ _ E).
  destruct (bc_brelse_ok _ _ _ _ _ st i H1) as (c5 & E5 & H5 & W5).
  { by rewrite at_eq. }
  { by right. }
  exists l', c5. split_and!; [by apply on_last | | | congruence | done..].
  - simpl in *. split; try congruence.
    lia.
  - eapply bc_ext; [exact H5|..]; intros; at_solve.
Qed.

(** ** Recovery *)

Lemma recover_ok st l c D :
  idle c (fun _ => 0) D D -> l_start l = st -> l_dev l = ROOTDEV ->
  Z.of_nat (length (lh_block l)) = LOGSIZE -> disk_ok st D ->
  exists l' c' ws D',
    recover_from_log (LState l c) = Ok tt (LState l' c') /\ bc_writes c' = bc_writes c ++ ws /\
    mem_log st [] l' /\ idle c' (fun _ => 0) D' D' /\
    hd_n (D' st) = 0 /\ Z.of_nat (length (D' st)) = BSIZE /\
    l_size l' = l_size l /\ l_outstanding l' = l_outstanding l /\ l_committing l' = l_committing l /\
    (forall b, home st b -> D' b = recovered st D b) /\
    (forall k, disk_ok st (putall D (take k ws)) /\
       forall b, home st b -> recovered st (putall D (take k ws)) b = recovered st D b).
Proof.
  intros Hc Hs Hdev Hlen Hd. pose proof Hd as [Hdl Hdn Hdok]. pose proof Hdok as [Hst _ _ _].
  assert (room (fun _ => 0) 2) as Hr2.
  { exists []. split; [done|]. unfold NBUF. simpl. lia. }
  assert (room (fun _ => 0) 1) as Hr1 by (eapply room_weaken; eauto).
  assert (LOGSIZE = 30) as HL by done.
  destruct (read_head_ok st l c _ _ _ Hc) as (l1 & c1 & E1 & Hm & H1 & W1 & Z1 & O1 & C1); auto.
  destruct (install_trans_ok true st _ l1 c1 _ _ _ H1 Hm Hdok) as (c2 & E2 & H2 & W2); auto.
  { lia. }
  set (ws := installs D (st + 1) (hd_blocks (D st))) in *.
  set (D2 := putall D ws) in *.
  pose proof Hm as [Ms Md Mn Mb Ml].
  destruct (write_head_ok st (set_n 0 l1) c2 _ _ _ H2) as (c3 & E3 & H3 & W3); auto.
  { lia. }
  set (hb := header (set_n 0 l1) (D2 st)) in *.
  destruct (crash_installing st D (length ws) Hd) as (_ & Est & _).
  fold ws in Est. rewrite firstn_all in Est. fold D2 in Est.
  assert (Z.of_nat (length (D2 st)) = BSIZE) as Hl2 by by rewrite Est.
  assert (hd_n hb = 0) as Hn0 by (unfold hb; rewrite header_n; simpl; auto; lia).
  assert (Z.of_nat (length hb) = BSIZE) as Hhl by (unfold hb; by rewrite header_len).
  destruct (crash_cleared st D hb Hd Hn0 Hhl) as (Hcd & Hch & Hcr). fold ws D2 in Hcd, Hch, Hcr.
  exists (set_n 0 l1), c3, (ws ++ [(st, hb)]), (at_ D2 st hb). split_and!.
  - unfold recover_from_log. rewrite (bind_run _ _ _ _ _ E1), (bind_run _ _ _ _ _ E2).
    unfold upd_lg. erewrite bind_run by reflexivity. exact E3.
  - by rewrite W3, W2, W1, app_assoc.
  - split; simpl; auto.
  - exact H3.
  - by rewrite at_eq.
  - by rewrite at_eq.
  - done.
  - done.
  - done.
  - done.
  - intros k. destruct (decide (k <= length ws)%nat) as [Hk|Hk].
    + rewrite take_app_le by done. destruct (crash_installing st D k Hd) as (? & _ & ?). auto.
    + rewrite (firstn_all2 (n := k)) by (rewrite length_app; simpl; lia).
      rewrite putall_app. fold D2. rewrite putall_cons. auto.
Qed.

Lemma initlog_ok st nlog l0 d :
  Z.of_nat (length (lh_block l0)) = LOGSIZE -> disk_ok st (read_block d) ->
  exists l' c' ws D',
    initlog ROOTDEV st nlog (LState l0 (bc_boot d)) = Ok tt (LState l' c') /\
    bc_writes c' = ws /\ mem_log st [] l' /\ idle c' (fun _ => 0) D' D' /\
    hd_n (D' st) = 0 /\ Z.of_nat (length (D' st)) = BSIZE /\
    l_size l' = i32 nlog /\ l_outstanding l' = l_outstanding l0 /\ l_committing l' = l_committing l0 /\
    (forall b, home st b -> D' b = recovered st (read_block d) b) /\
    (forall k, disk_ok st (putall (read_block d) (take k ws)) /\
       forall b, home st b ->
         recovered st (putall (read_block d) (take k ws)) b = recovered st (read_block d) b).
Proof.
  intros Hlen Hd. destruct (bc_boot_ok d) as [Hb Hw].
  assert (LOGSIZE = 30) as HL by done.
  pose proof Hd as [_ _ [Hst _ _ _]].
  unfold initlog, upd_lg. erewrite bind_run by reflexivity. cbn [lg cache].
  rewrite (i32_id st) by lia.
  destruct (recover_ok st (set_geometry st (i32 nlog) ROOTDEV l0) (bc_boot d) (read_block d))
    as (l' & c' & ws & D' & E & W & Hrest); auto.
  rewrite Hw in W. exists l', c', ws, D'. split; [exact E|]. split; [exact W | exact Hrest].
Qed.

(** ** Commit *)

(** The state in which end_op commits: no operation holds a buffer, the
    blocks of the log are pinned, every other block is clean, and the log on
    the disk is empty. *)
Record committable (st : Z) (bs : list Z) (l : logst) (c : C) (R : Z -> Z) (V D : Z -> block) : Prop := {
  cm_mem : mem_log st bs l;
  cm_log : log_ok st bs;
  cm_rep : idle c R V D;
  cm_region : forall b, ~ home st b -> R b = 0;
  cm_pinned : forall b, b ∈ bs -> 0 < R b;
  cm_max : forall b, R b + 1 < 2 ^ 32;
  cm_room : room R 1;
  cm_clean : forall b, home st b -> b ∉ bs -> V b = D b;
  cm_empty : hd_n (D st) = 0;
  cm_len : Z.of_nat (length (D st)) = BSIZE;
}.

(** The disk after each prefix of commit's writes. *)
Lemma commit_prefixes st D V bs hdr x k :
  log_ok st bs -> hd_n (D st) = 0 -> Z.of_nat (length (D st)) = BSIZE ->
  (forall b, home st b -> b ∉ bs -> V b = D b) ->
  hd_blocks hdr = bs -> hd_n hdr = Z.of_nat (length bs) -> Z.of_nat (length hdr) = BSIZE ->
  hd_n x = 0 -> Z.of_nat (length x) = BSIZE ->
  let W1 := zip (seqZ (st + 1) (Z.of_nat (length bs))) (map V bs) in
  let D2 := at_ (putall D W1) st hdr in
  let W := W1 ++ [(st, hdr)] ++ installs D2 (st + 1) bs ++ [(st, x)] in
  disk_ok st (putall D (take k W)) /\
  forall b, home st b ->
    recovered st (putall D (take k W)) b = if decide (k <= length bs)%nat then D b else V b.
Proof.
  intros Hl Hn Hlen HV Hh Hhn Hhl Hx Hxl W1 D2 W.
  assert (length W1 = length bs) as HW1.
  { unfold W1. rewrite length_zip_with, length_seqZ, length_map. lia. }
  destruct (committed_means st D V bs hdr Hl Hh Hhn Hhl HV) as [Hd2 Hr2]. fold W1 D2 in Hd2, Hr2.
  assert (D2 st = hdr) as Es by apply at_eq.
  unfold W. case_decide as Hk.
  - rewrite take_app_le by lia.
    apply (crash_before_head st D bs (map V bs) k); auto. apply length_map.
  - rewrite take_app_ge by lia. rewrite putall_app.
    destruct (k - length W1)%nat as [|j] eqn:Ej; [lia|]. cbn [app take].
    rewrite putall_cons. fold D2. rewrite <- Hh, <- Es.
    destruct (decide (j <= length (installs D2 (st + 1) (hd_blocks (D2 st))))%nat) as [Hj|Hj].
    + rewrite take_app_le by done. destruct (crash_installing st D2 j Hd2) as (? & _ & Hr).
      split; [done|]. intros b Hb. rewrite Hr. auto.
    + rewrite (firstn_all2 (n := j)) by (rewrite length_app; simpl; lia).
      rewrite putall_app, putall_cons. cbn [putall fold_left].
      destruct (crash_cleared st D2 x Hd2 Hx Hxl) as (? & _ & Hr).
      split; [done|]. intros b Hb. rewrite Hr by done. auto.
Qed.

Lemma commit_ok st bs l c R V D :
  committable st bs l c R V D ->
  exists l' c' ws R' V' D',
    commit (LState l c) = Ok tt (LState l' c') /\ bc_writes c' = bc_writes c ++ ws /\
    mem_log st [] l' /\ idle c' R' V' D' /\
    (forall b, R' b = if decide (b ∈ bs) then R b - 1 else R b) /\
    (forall b, home st b -> V' b = V b /\ D' b = V b) /\
    hd_n (D' st) = 0 /\ Z.of_nat (length (D' st)) = BSIZE /\
    (forall k, disk_ok st (putall D (take k ws)) /\
       forall b, home st b ->
         recovered st (putall D (take k ws)) b = if decide (k <= length bs)%nat then D b else V b).
Proof.
  intros [Hm Hl Hc Hreg Hpin Hmax Hroom Hclean Hemp Hlen]. pose proof Hm as [Ms Md Mn Mb Ml].
  pose proof Hl as [Hst _ Hbl _]. assert (LOGSIZE = 30) as HL by done.
  assert (R st = 0) as HRst by (apply Hreg; unfold home; lia).
  unfold commit, gets. erewrite bind_run by reflexivity. cbn [lg].
  destruct (Z.ltb_spec 0 (lh_n l)) as [Hn|Hn]; cbn [when].
  2: { assert (bs = []) as -> by (destruct bs; [done | simpl in *; lia]).
       exists l, c, [], R, V, D. rewrite app_nil_r. split_and!; try done.
       - intros b Hb. split; [done|]. symmetry. apply Hclean; [done | apply not_elem_of_nil].
       - intros k. rewrite take_nil. cbn [putall fold_left]. split.
         + split; [done | rewrite Hemp; lia |]. rewrite hd_blocks_nil by done. by apply log_ok_nil.
         + intros b Hb. rewrite recovered_nil by done.
           case_decide; [done|]. symmetry. apply Hclean; [done | apply not_elem_of_nil]. }
  destruct (write_log_ok st bs l c R V D Hc Hm Hl Hreg Hmax Hroom Hpin) as (c1 & E1 & H1 & W1).
  set (w1 := zip _ _) in *.
  assert (forall F b, home st b \/ b = st -> putall F w1 b = F b) as Hw1.
  { intros F b Hb. apply putall_out. unfold w1. rewrite (fst_zip (A:=Z)) by (rewrite length_seqZ, length_map; lia).
    rewrite elem_of_seqZ. unfold home in Hb. lia. }
  destruct (write_head_ok st l c1 _ _ _ H1) as (c2 & E2 & H2 & W2); auto; [lia|].
  rewrite (Hw1 V) in H2, W2 by auto. set (hdr := header l (V st)) in *.
  assert (V st = D st) as Hvd by by apply (bc_clean _ _ _ _ _ st Hc).
  assert (Z.of_nat (length hdr) = BSIZE) as Hhl by (unfold hdr; by rewrite header_len, Hvd).
  assert (hd_blocks hdr = bs) as Hhb by (eapply header_blocks; eauto; by rewrite Hvd).
  assert (hd_n hdr = Z.of_nat (length bs)) as Hhn.
  { unfold hdr. rewrite header_n, Mn by (rewrite ?Hvd; lia). done. }
  destruct (install_trans_ok false st bs l c2 _ _ _ H2 Hm Hl Hreg Hmax Hroom Hpin) as (c3 & E3 & H3 & W3).
  set (D2 := at_ (putall D w1) st hdr) in *. set (V2 := at_ (putall V w1) st hdr) in *.
  assert (forall b, ~ home st b -> V b = D b) as HvdR.
  { intros b Hb. apply (bc_clean _ _ _ _ _ b Hc). auto. }
  assert (installs V2 (st + 1) bs = installs D2 (st + 1) bs) as Einst.
  { apply installs_ext. intros i Hi. unfold V2, D2. rewrite !at_ne by lia.
    assert (putall V w1 i = putall D w1 i); [|done].
    destruct (decide (i ∈ map fst w1)) as [Hin|Hin]; [|rewrite !putall_out by done; apply HvdR; unfold home; lia].
    apply list_elem_of_fmap in Hin as ([b x] & -> & Hin). cbn [fst].
    assert (NoDup (map fst w1)).
    { unfold w1. rewrite (fst_zip (A:=Z)) by (rewrite length_seqZ, length_map; lia). apply NoDup_seqZ. }
    by rewrite !(putall_in _ _ _ x). }
  rewrite Einst in *. set (w3 := installs D2 (st + 1) bs) in *.
  set (R3 := fun b => if decide (b ∈ bs) then R b - 1 else R b) in *.
  assert (forall F b, ~ home st b -> putall F w3 b = F b) as Hw3.
  { intros F b Hb. apply putall_out. unfold w3. rewrite installs_fst. intros Hin.
    by apply Hl in Hin as [_ ?]. }
  assert (~ home st st) as Hsth by (unfold home; lia).
  destruct (write_head_ok st (set_n 0 l) c3 _ _ _ H3) as (c4 & E4 & H4 & W4); auto.
  { lia. }
  { unfold R3. case_decide as Hin; [|done]. by apply Hl in Hin as [_ ?]. }
  { eapply room_le; [exact Hroom|]. intros b. unfold R3. case_decide as Hin; [|done].
    specialize (Hpin b Hin). lia. }
  rewrite (Hw3 V2) in H4, W4 by done. replace (V2 st) with hdr in * by (unfold V2; by rewrite at_eq).
  set (x := header (set_n 0 l) hdr) in *.
  assert (hd_n x = 0) as Hxn by (unfold x; rewrite header_n; simpl; auto; lia).
  assert (Z.of_nat (length x) = BSIZE) as Hxl by (unfold x; by rewrite header_len).
  exists (set_n 0 l), c4, (w1 ++ [(st, hdr)] ++ w3 ++ [(st, x)]), R3, (at_ (putall V2 w3) st x), (at_ (putall D2 w3) st x).
  assert (forall b, home st b -> putall V2 w3 b = V b /\ putall D2 w3 b = V b) as Hfin.
  { intros b Hb. assert (b <> st) as Hbs by (intros ->; done).
    destruct (decide (b ∈ bs)) as [Hin|Hin].
    - destruct (committed_means st D V bs hdr Hl Hhb Hhn Hhl Hclean) as [Hd2 Hr2].
      fold w1 D2 in Hd2, Hr2. specialize (Hr2 b Hb). unfold recovered in Hr2.
      replace (D2 st) with hdr in Hr2 by (unfold D2; by rewrite at_eq). rewrite Hhb in Hr2. fold w3 in Hr2.
      split; [|done]. rewrite <- Hr2. apply list_elem_of_lookup in Hin as (i & Hi).
      assert (NoDup (map fst w3)) by (unfold w3; rewrite installs_fst; apply Hl).
      by rewrite !(putall_in _ _ _ (D2 (st + 1 + Z.of_nat i))) by (auto; by apply installs_lookup).
    - rewrite !putall_out by (unfold w3; by rewrite installs_fst). unfold V2, D2.
      rewrite !at_ne, !Hw1 by auto. split; [done|]. symmetry. auto. }
  split_and!.
  - rewrite (bind_run _ _ _ _ _ E1), (bind_run _ _ _ _ _ E2), (bind_run _ _ _ _ _ E3).
    unfold upd_lg. erewrite bind_run by reflexivity. exact E4.
  - rewrite W4, W3, W2, W1. by rewrite <- !app_assoc.
  - split; simpl; auto.
  - exact H4.
  - done.
  - intros b Hb. rewrite !at_ne by (intros ->; done). auto.
  - by rewrite at_eq.
  - by rewrite at_eq.
  - intros k. by apply commit_prefixes.
Qed.

(** What a machine booted on disk [d] reads once initlog has run. *)
Definition boots_to (st : Z) (d : gmap Z block) (F : Z -> block) : Prop :=
  forall nlog l0, Z.of_nat (length (lh_block l0)) = LOGSIZE ->
  exists l c V, initlog ROOTDEV st nlog (LState l0 (bc_boot d)) = Ok tt (LState l c) /\
    mem_log st [] l /\ idle c (fun _ => 0) V V /\ forall b, home st b -> V b = F b.

Lemma boots_to_recovered st d F :
  disk_ok st (read_block d) -> (forall b, home st b -> recovered st (read_block d) b = F b) ->
  boots_to st d F.
Proof.
  intros Hd HF nlog l0 Hl0.
  destruct (initlog_ok st nlog l0 d Hl0 Hd)
    as (l & c & ws & D' & E & _ & Hm & Hi & _ & _ & _ & _ & _ & Hh & _).
  exists l, c, D'. split_and!; auto. intros b Hb. rewrite Hh by done. auto.
Qed.
End run.

Lemma recovered_ext st D E b : (forall b, D b = E b) -> recovered st D b = recovered st E b.
Proof.
  intros HE. unfold recovered. rewrite HE. rewrite (installs_ext D E) by auto. by apply putall_ext.
Qed.

Lemma disk_ok_ext st D E : (forall b, D b = E b) -> disk_ok st D -> disk_ok st E.
Proof. intros HE []. split; by rewrite <- HE. Qed.

(** *** The in-memory log under the operations *)

Section quota.
Context {C : Type} `{BlockCache C}.

Lemma on_keeps {A} (P : logst -> Prop) (m : M C A) : preserves (fun s => P (lg s)) (on m).
Proof. intros s Hs. unfold on, zoom. by destruct (m (view cache_lens s)). Qed.

Lemma preserves_Ok {S A} (P : S -> Prop) (m : M S A) s a s' :
  preserves P m -> P s -> m s = Ok a s' -> P s'.
Proof. intros Hm Hs E. specialize (Hm s Hs). by rewrite E in Hm. Qed.

Ltac keeps := repeat first
  [ refine (on_keeps (fun x => x = _) _) | refine (preserves_gets _ _) | refine (preserves_get _)
  | refine (preserves_ret _ _) | refine (preserves_when _ _ _ _)
  | refine (preserves_for_each _ _ _ _); intros ?
  | refine (preserves_bind _ _ _ _ _); [|intros ?] ].

(** commit changes nothing of the in-memory log but its length. *)
Lemma commit_lg s s' :
  commit s = Ok tt s' -> 0 <= lh_n (lg s) -> lg s' = set_n 0 (lg s).
Proof.
  unfold commit, gets. intros E Hn. erewrite bind_run in E by reflexivity. unfold when in E.
  destruct (Z.ltb_spec 0 (lh_n (lg s))).
  2: { injection E as <-. destruct (lg s); simpl in *. unfold set_n. simpl. f_equal. lia. }
  set (l := lg s) in *.
  apply bind_Ok in E as ([] & s1 & E1 & E). apply bind_Ok in E as ([] & s2 & E2 & E).
  apply bind_Ok in E as ([] & s3 & E3 & E). apply bind_Ok in E as ([] & s4 & E4 & E5).
  assert (lg s1 = l) as K1 by (eapply (preserves_Ok (fun s => lg s = l)); [|done|exact E1]; unfold write_log, log_one; keeps).
  assert (lg s2 = l) as K2 by (eapply (preserves_Ok (fun s => lg s = l)); [|done|exact E2]; unfold write_head; keeps).
  assert (lg s3 = l) as K3 by (eapply (preserves_Ok (fun s => lg s = l)); [|done|exact E3]; unfold install_trans, install_one; keeps).
  injection E4 as <-.
  eapply (preserves_Ok (fun s => lg s = set_n 0 l)); [| |exact E5].
  - unfold write_head. keeps.
  - simpl. by rewrite K3.
Qed.

Lemma find_block_range l b k : forall i, i <= find_block l b i k <= i + Z.of_nat k.
Proof.
  induction k as [|k IH]; intros i; cbn [find_block]; [lia|].
  destruct (_ =? _); [lia|]. specialize (IH (i + 1)). lia.
Qed.

(** The system calls that are between begin_op and end_op, each with the
    number of blocks it has added to the log. *)
Inductive log_step : lstate C * list Z -> lstate C * list Z -> Prop :=
  | step_begin s s' ws :
      begin_op s = Ok tt s' -> log_step (s, ws) (s', 0 :: ws)
  | step_write s s' ws j w b :
      ws !! j = Some w -> w < MAXOPBLOCKS -> log_write b s = Ok tt s' ->
      log_step (s, ws) (s', <[j := w + (lh_n (lg s') - lh_n (lg s))]> ws)
  | step_end s s' ws j w :
      ws !! j = Some w -> end_op s = Ok tt s' -> log_step (s, ws) (s', delete j ws).

Definition reserved (ws : list Z) : Z := foldr (fun w a => MAXOPBLOCKS - w + a) 0 ws.

Record quota (s : lstate C) (ws : list Z) : Prop := {
  q_out : l_outstanding (lg s) = Z.of_nat (length ws);
  q_com : l_committing (lg s) = 0;
  q_n : 0 <= lh_n (lg s);
  q_ws : Forall (fun w => 0 <= w <= MAXOPBLOCKS) ws;
  q_sum : lh_n (lg s) + reserved ws <= LOGSIZE;
  q_max : Z.of_nat (length ws) <= 3;
  q_size : LOGSIZE < l_size (lg s);
}.

Lemma reserved_nonneg ws : Forall (fun w => 0 <= w <= MAXOPBLOCKS) ws -> 0 <= reserved ws.
Proof. induction 1; simpl; lia. Qed.

Lemma reserved_insert ws j w w' :
  ws !! j = Some w -> reserved (<[j := w']> ws) = reserved ws + w - w'.
Proof.
  revert j. induction ws as [|v ws IH]; intros [|j] Hj; simpl in *; [done | done | |].
  - injection Hj as ->. lia.
  - rewrite (IH j) by done. lia.
Qed.

Lemma reserved_delete ws j w :
  ws !! j = Some w -> reserved (delete j ws) = reserved ws - (MAXOPBLOCKS - w).
Proof.
  revert j. induction ws as [|v ws IH]; intros [|j] Hj; simpl in *; [done | done | |].
  - injection Hj as ->. lia.
  - rewrite (IH j) by done. lia.
Qed.

Lemma reserved_le ws :
  Forall (fun w => 0 <= w <= MAXOPBLOCKS) ws -> reserved ws <= Z.of_nat (length ws) * MAXOPBLOCKS.
Proof. induction 1; simpl length; cbn [reserved foldr]; [lia|]. fold (reserved l). lia. Qed.

(** log_write, on the in-memory log. *)
Lemma log_write_lg b s s' :
  log_write b s = Ok tt s' -> 0 <= lh_n (lg s) ->
  lh_n (lg s') - lh_n (lg s) ∈ [0; 1]%Z /\ l_outstanding (lg s') = l_outstanding (lg s) /\
  l_committing (lg s') = l_committing (lg s) /\ l_size (lg s') = l_size (lg s).
Proof.
  assert (LOGSIZE = 30) as HL by done. unfold log_write, get. intros E Hn.
  erewrite bind_run in E by reflexivity. cbv zeta in E.
  destruct (Z.leb_spec LOGSIZE (lh_n (lg s))) as [|Hlt]; [done|].
  destruct (_ <=? _); [done|]. destruct (_ <? _); [done|]. cbn [orb] in E.
  set (i := find_block _ _ _ _) in *. unfold upd_lg at 1 in E. erewrite bind_run in E by reflexivity.
  destruct (i =? lh_n (lg s)).
  - apply bind_Ok in E as ([] & s1 & E1 & E2).
    assert (lg s1 = set_block i (i32 (bc_blockno (cache s) b)) (lg s)) as K.
    { eapply (preserves_Ok (fun s' => lg s' = set_block i (i32 (bc_blockno (cache s) b)) (lg s)));
        [| |exact E1]; [|done]. refine (on_keeps (fun x => x = _) _). }
    injection E2 as <-. simpl. rewrite K. simpl. rewrite i32_id by lia. split_and!; try done.
    replace (lh_n (lg s) + 1 - lh_n (lg s)) with 1 by lia. set_solver.
  - injection E as <-. simpl. rewrite Z.sub_diag. split_and!; try done. set_solver.
Qed.

Lemma quota_preserved p p' : log_step p p' -> quota (fst p) (snd p) -> quota (fst p') (snd p').
Proof.
  assert (LOGSIZE = 30) as HL by done. assert (MAXOPBLOCKS = 10) as HM by done.
  intros Hstep [Ho Hc Hn Hw Hs Hm Hz]. destruct Hstep; cbn [fst snd] in *.
  - unfold begin_op, gets in H0. erewrite bind_run in H0 by reflexivity.
    destruct (nz _); [done|]. pose proof (reserved_le ws Hw).
    pose proof (reserved_nonneg ws Hw). rewrite i32_id in H0 by lia.
    destruct (Z.ltb_spec LOGSIZE (lh_n (lg s) + (l_outstanding (lg s) + 1) * MAXOPBLOCKS)); [done|].
    injection H0 as <-. rewrite i32_id by lia. split; simpl; auto.
    + lia.
    + constructor; [lia | done].
    + fold (reserved ws). lia.
    + lia.
  - destruct (log_write_lg b s s') as (Hd & Eo & Ec & Ez); auto.
    rewrite Forall_lookup in Hw. pose proof (Hw j w H0) as Hwj.
    assert (lh_n (lg s') - lh_n (lg s) = 0 \/ lh_n (lg s') - lh_n (lg s) = 1) as Hd' by set_solver.
    split; rewrite ?length_insert; try congruence.
    + lia.
    + apply Forall_insert; [by apply Forall_lookup | lia].
    + rewrite (reserved_insert ws j w) by done. lia.
  - pose proof (reserved_delete ws j w H0) as Hrd. pose proof (length_delete ws j ltac:(eauto)) as Hld.
    apply lookup_lt_Some in H0 as Hj. pose proof Hw as Hw'. rewrite Forall_lookup in Hw'.
    pose proof (Hw' j w H0) as Hwj.
    unfold end_op, upd_lg at 1, gets in H1. erewrite bind_run in H1 by reflexivity.
    erewrite bind_run in H1 by reflexivity. cbn [lg cache set_outstanding l_committing l_outstanding] in H1.
    rewrite Hc in H1. change (nz 0) with false in H1. cbv iota in H1. rewrite i32_id in H1 by lia.
    destruct (Z.eqb_spec (l_outstanding (lg s) - 1) 0) as [Hz0|Hz0].
    + unfold upd_lg at 1 in H1. erewrite bind_run in H1 by reflexivity.
      apply bind_Ok in H1 as ([] & s1 & E1 & E2). apply commit_lg in E1; [|done].
      injection E2 as <-. split; simpl; rewrite ?E1; simpl; auto; try lia.
      by apply Forall_delete.
    + injection H1 as <-. split; simpl; auto; try lia. by apply Forall_delete.
Qed.

Lemma quota_reachable p p' : rtc log_step p p' -> quota (fst p) (snd p) -> quota (fst p') (snd p').
Proof. induction 1; eauto using quota_preserved. Qed.

(** The search of log_write passes over blocks that are not in the log. *)
Lemma find_block_fresh l b k : forall i,
  (forall j, i <= j < i + Z.of_nat k -> u32 (lblock l j) <> b) -> find_block l b i k = i + Z.of_nat k.
Proof.
  induction k as [|k IH]; intros i Hj; cbn [find_block]; [lia|].
  destruct (Z.eqb_spec (u32 (lblock l i)) b) as [E|_]; [by apply Hj in E; [|lia]|].
  rewrite IH; [lia|]. intros j ?. apply Hj. lia.
Qed.
End quota.

(** *** Three calls filling the log *)

Section fill.
Context {C : Type} `{BlockCacheLaws C}.

(** The blocks [bs] have been logged by three calls, and are pinned. *)
Record filled (bs : list Z) (l : logst) (c : C) (V D : Z -> block) : Prop := {
  fl_out : l_outstanding l = 3;
  fl_n : lh_n l = Z.of_nat (length bs);
  fl_blocks : take (length bs) (lh_block l) = bs;
  fl_len : Z.of_nat (length (lh_block l)) = LOGSIZE;
  fl_rep : idle c (fun b => if decide (b ∈ bs) then 1 else 0) V D;
}.

Lemma filled_lblock bs l c V D j b :
  filled bs l c V D -> bs !! j = Some b -> lblock l (Z.of_nat j) = b.
Proof.
  intros Hf Hj. unfold lblock. rewrite Nat2Z.id.
  rewrite <- (fl_blocks _ _ _ _ _ Hf) in Hj. apply lookup_take_Some in Hj as [-> _]. done.
Qed.

(** Another block is added to the log as long as it is not one short of full. *)
Lemma log_update_ok bs b d l c V D :
  filled bs l c V D -> NoDup (bs ++ [b]) -> Forall (fun x => 0 <= x < 2 ^ 31) (bs ++ [b]) ->
  Z.of_nat (length bs) < LOGSIZE ->
  if Z.of_nat (length bs) <? l_size l - 1 then
    exists l' c', log_update (b, d) (LState l c) = Ok tt (LState l' c') /\
      filled (bs ++ [b]) l' c' (at_ V b d) D /\ l_size l' = l_size l
  else
    exists c', log_update (b, d) (LState l c) = Stop (Panic "too big a transaction") (LState l c').
Proof.
  assert (LOGSIZE = 30) as HL by done. intros Hf Hnd Hr Hlen. pose proof Hf as [Fo Fn Fb Fl Fr].
  apply NoDup_app in Hnd as (Hnd & Hb & _). assert (b ∉ bs) as Hb' by (intros Hx; by apply (Hb b Hx), list_elem_of_singleton).
  apply Forall_app in Hr as [Hr Hrb]. rewrite Forall_singleton in Hrb. rewrite Forall_lookup in Hr.
  unfold log_update. cbn [fst snd].
  destruct (bc_bread_ok _ _ _ _ _ b Fr) as (i & c1 & E1 & K1 & _).
  { done. } { by rewrite decide_False by done. }
  { right. exists bs. split; [intros x Hx; by destruct (decide (x ∈ bs)) | unfold NBUF; lia]. }
  rewrite (on_bind _ _ _ _ _ _ E1). rewrite decide_False in K1 by done.
  destruct (bc_set_data_ok _ _ _ _ _ b i d K1) as (c2 & E2 & K2 & _); [by rewrite at_eq|].
  rewrite (on_bind _ _ _ _ _ _ E2).
  destruct (bc_held _ _ _ _ _ b i K2) as (_ & Ebn & _); [by rewrite at_eq|].
  unfold log_write. rewrite bind_assoc. erewrite bind_run by reflexivity. cbv zeta. cbn [lg cache].
  rewrite Fn, Fo. destruct (Z.leb_spec LOGSIZE (Z.of_nat (length bs))); [lia|]. cbn [orb].
  destruct (Z.leb_spec (l_size l - 1) (Z.of_nat (length bs))) as [Hfull|Hfit].
  { rewrite (proj2 (Z.ltb_ge _ _)) by lia. by exists c2. }
  rewrite (proj2 (Z.ltb_lt _ _)) by lia. change (3 <? 1) with false. cbv iota.
  rewrite Nat2Z.id, Ebn, find_block_fresh.
  2: { intros j Hj E. destruct (lookup_lt_is_Some_2 bs (Z.to_nat j)) as [x Hx]; [lia|].
       pose proof (filled_lblock _ _ _ _ _ _ _ Hf Hx) as El. rewrite Z2Nat.id in El by lia.
       rewrite El, u32_id in E by (specialize (Hr _ _ Hx); lia). subst. apply Hb', list_elem_of_lookup. eauto. }
  rewrite Z.add_0_l, Z.eqb_refl, bind_assoc. unfold upd_lg at 1. erewrite bind_run by reflexivity. cbn [lg cache].
  destruct (bc_bpin_ok _ _ _ _ _ b i K2) as (c3 & E3 & K3 & _); [by rewrite at_eq | rewrite at_eq; lia|].
  rewrite bind_assoc, (on_bind _ _ _ _ _ _ E3). unfold upd_lg at 1. erewrite bind_run by reflexivity. cbn [lg cache].
  destruct (bc_brelse_ok _ _ _ _ _ b i K3) as (c4 & E4 & K4 & _); [by rewrite at_eq | left; rewrite !at_eq; lia|].
  rewrite (on_last _ _ _ _ _ E4). do 2 eexists. split; [reflexivity|]. split; [|done].
  assert (length bs < length (lh_block l))%nat as Hlt by lia. rewrite (i32_id b) by lia.
  split; cbn [set_n set_block l_outstanding lh_n lh_block]; rewrite ?length_app, ?length_insert; cbn [length]; try done.
  - rewrite i32_id; lia.
  - rewrite Nat2Z.id, Nat.add_1_r, (take_S_r _ _ b) by (by apply list_lookup_insert_eq).
    by rewrite take_insert_ge, Fb by lia.
  - eapply bc_ext; [exact K4|..]; intros x; rewrite ?at_eq; unfold at_; destruct (Z.eqb_spec x b) as [->|Hne]; try done.
    + by rewrite decide_True by (rewrite elem_of_app; right; by left).
    + apply decide_ext. rewrite elem_of_app, list_elem_of_singleton. tauto.
Qed.

Lemma log_updates_ok ups : forall bs l c V D,
  filled bs l c V D -> NoDup (bs ++ map fst ups) -> Forall (fun x => 0 <= x < 2 ^ 31) (bs ++ map fst ups) ->
  Z.of_nat (length bs + length ups) <= LOGSIZE -> Z.of_nat (length bs) < l_size l ->
  exists l' c',
    if Z.of_nat (length bs + length ups) <? l_size l then
      for_each ups log_update (LState l c) = Ok tt (LState l' c') /\
      lh_n l' = Z.of_nat (length bs + length ups) /\ take (length bs + length ups) (lh_block l') = bs ++ map fst ups
    else
      for_each ups log_update (LState l c) = Stop (Panic "too big a transaction") (LState l' c') /\ lh_n l' = l_size l - 1.
Proof.
  induction ups as [|[b d] ups IH]; intros bs l c V D Hf Hnd Hr Hlen Hsz; cbn [map length for_each fst] in *.
  - rewrite Nat.add_0_r, (proj2 (Z.ltb_lt _ _)), app_nil_r by lia. destruct Hf. by exists l, c.
  - change (b :: map fst ups) with ([b] ++ map fst ups) in *. rewrite (app_assoc bs [b]) in Hnd, Hr. pose proof (log_update_ok bs b d l c V D Hf) as Hu.
    destruct (Z.ltb_spec (Z.of_nat (length bs)) (l_size l - 1)) as [Hfit|Hfull].
    + destruct Hu as (l1 & c1 & E & Hf1 & Es); [by apply NoDup_app in Hnd as [? _] | by apply Forall_app in Hr as [? _] | lia|].
      destruct (IH (bs ++ [b]) l1 c1 (at_ V b d) D Hf1) as (l' & c' & P);
        [done | done | rewrite length_app; cbn [length]; lia | rewrite length_app; cbn [length]; lia|].
      exists l', c'. rewrite (bind_run _ _ _ _ _ E). rewrite length_app in P. cbn [length] in P.
      rewrite Es, <- app_assoc in P. cbn [app] in P. by replace (length bs + S (length ups))%nat with (length bs + 1 + length ups)%nat by lia.
    + destruct Hu as (c' & E); [by apply NoDup_app in Hnd as [? _] | by apply Forall_app in Hr as [? _] | lia|].
      exists l, c'. rewrite (proj2 (Z.ltb_ge _ _)), (bind_halt _ _ _ _ _ E) by lia.
      split; [done|]. destruct Hf. lia.
Qed.

(** With nothing under way, three calls are let in. *)
Lemma three_begin l (c : C) :
  lh_n l = 0 -> l_outstanding l = 0 -> l_committing l = 0 ->
  begin_op (LState l c) = Ok tt (LState (set_outstanding 1 l) c) /\
  begin_op (LState (set_outstanding 1 l) c) = Ok tt (LState (set_outstanding 2 l) c) /\
  begin_op (LState (set_outstanding 2 l) c) = Ok tt (LState (set_outstanding 3 l) c).
Proof. destruct l. cbn. intros -> -> ->. by split_and!. Qed.
End fill.

(** ** A concrete instance *)

(** A log of 31 blocks at block 2, with block 50 logged. *)
Definition sample_log : logst := LogSt 2 31 0 1 ROOTDEV 1 (50 :: replicate 29 0).
Definition sample_data : block := replicate 1024 7.

Lemma sample_committable {C} `{BlockCacheLaws C} :
  exists c : C,
    committable 2 [50] sample_log c (at_ (fun _ => 0) 50 1)
      (at_ (read_block ∅) 50 sample_data) (read_block ∅).
Proof.
  destruct (bc_boot_ok (S := C) ∅) as [Hb _].
  destruct (bc_bread_ok _ _ _ _ _ 50 Hb) as (i & c1 & _ & H1 & _); [done | lia | |].
  { right. exists []. split; [done|]. unfold NBUF. simpl. lia. }
  destruct (bc_set_data_ok _ _ _ _ _ 50 i sample_data H1) as (c2 & _ & H2 & _); [done|].
  destruct (bc_bpin_ok _ _ _ _ _ 50 i H2) as (c3 & _ & H3 & _); [done | done |].
  destruct (bc_brelse_ok _ _ _ _ _ 50 i H3) as (c4 & _ & H4 & _); [done | by left |].
  exists c4. split; try done.
  - split; [unfold LOGSIZE, MAXOPBLOCKS; lia | apply NoDup_singleton | simpl; unfold LOGSIZE, MAXOPBLOCKS; lia |].
    intros b ->%list_elem_of_singleton. unfold home, LOGSIZE, MAXOPBLOCKS. lia.
  - eapply bc_ext; [exact H4|..]; intros; at_solve.
  - intros b Hb'. unfold home, LOGSIZE, MAXOPBLOCKS in *. rewrite at_ne by lia. done.
  - intros b ->%list_elem_of_singleton. by rewrite at_eq.
  - intros b. unfold at_. destruct (b =? 50); lia.
  - exists [50]. split; [|unfold NBUF; simpl; lia]. intros b Hb'. apply list_elem_of_singleton. at_solve.
  - intros b _ Hb'. rewrite list_elem_of_singleton in Hb'. by rewrite at_ne.
Qed.

Definition mkfs_log (nlog : Z) : lstate bstate :=
  LState (LogSt 2 nlog 0 0 ROOTDEV 0 (replicate 30 0)) (booted ∅).

(** ** Properties *)

(** C1: commit is atomic across a crash. In any state in which end_op commits,
    commit returns; if the machine stops after any [k] of the block writes
    commit has issued and boots again on that disk, initlog returns and every
    block outside the log reads as before the transaction (when at most the
    log blocks were written), or every one reads as after it. *)
Theorem commit_crash_atomic {C} `{BlockCacheLaws C} st bs l (c : C) R V D :
  committable st bs l c R V D ->
  exists l' c' ws,
    commit (LState l c) = Ok tt (LState l' c') /\ bc_writes c' = bc_writes c ++ ws /\
    forall k d, (forall b, read_block d b = putall D (take k ws) b) ->
      boots_to (C := C) st d (if decide (k <= length bs)%nat then D else V).
Proof.
  intros Hc. destruct (commit_ok _ _ _ _ _ _ _ Hc)
    as (l' & c' & ws & R' & V' & D' & E & W & _ & _ & _ & _ & _ & _ & Hk).
  exists l', c', ws. split_and!; [done | done |]. intros k d Hd. destruct (Hk k) as [Hok Hrec].
  apply boots_to_recovered.
  - by apply (disk_ok_ext st (putall D (take k ws))).
  - intros b Hb. rewrite (recovered_ext _ _ _ _ Hd), Hrec by done. by case_decide.
Qed.

(** Commit, run to its end, leaves the cache and the disk with the new
    contents of every block outside the log, an empty log in memory and on the
    disk, and every logged block unpinned. *)
Theorem commit_installs {C} `{BlockCacheLaws C} st bs l (c : C) R V D :
  committable st bs l c R V D ->
  exists l' c' R' V' D',
    commit (LState l c) = Ok tt (LState l' c') /\ mem_log st [] l' /\ idle c' R' V' D' /\
    (forall b, R' b = if decide (b ∈ bs) then R b - 1 else R b) /\
    (forall b, home st b -> V' b = V b /\ D' b = V b) /\ hd_n (D' st) = 0.
Proof.
  intros Hc. destruct (commit_ok _ _ _ _ _ _ _ Hc)
    as (l' & c' & ws & R' & V' & D' & E & _ & Hm & Hi & HR & Hh & Hn & _ & _).
  exists l', c', R', V', D'. done.
Qed.

(** C2: recovery can be interrupted. On a disk with a well-formed log, initlog
    returns with the logged blocks installed; a crash after any [k] of its
    writes, followed by another boot, gives the same contents. *)
Theorem recovery_idempotent {C} `{BlockCacheLaws C} st nlog l0 d :
  Z.of_nat (length (lh_block l0)) = LOGSIZE -> disk_ok st (read_block d) ->
  exists l (c : C),
    initlog ROOTDEV st nlog (LState l0 (bc_boot d)) = Ok tt (LState l c) /\
    boots_to (C := C) st d (recovered st (read_block d)) /\
    forall k d', (forall b, read_block d' b = putall (read_block d) (take k (bc_writes c)) b) ->
      boots_to (C := C) st d' (recovered st (read_block d)).
Proof.
  intros Hl0 Hd. destruct (initlog_ok (C := C) st nlog l0 d Hl0 Hd)
    as (l & c & ws & D' & E & W & _ & _ & _ & _ & _ & _ & _ & _ & Hk).
  exists l, c. split_and!; [done | by apply boots_to_recovered |].
  intros k d' Hd'. rewrite W in Hd'. destruct (Hk k) as [Hok Hrec]. apply boots_to_recovered.
  - by apply (disk_ok_ext st (putall (read_block d) (take k ws))).
  - intros b Hb. rewrite (recovered_ext _ _ _ _ Hd'). auto.
Qed.

(** C3: the reservation of begin_op suffices. However system calls interleave
    their begin_op, log_write and end_op, a call that has added fewer than
    MAXOPBLOCKS blocks to the log can log another one without a panic,
    provided the log has more than LOGSIZE blocks. *)
Theorem log_space_suffices (s0 s : lstate bstate) ws j w b :
  l_outstanding (lg s0) = 0 -> l_committing (lg s0) = 0 -> lh_n (lg s0) = 0 ->
  LOGSIZE < l_size (lg s0) ->
  rtc log_step (s0, []) (s, ws) -> ws !! j = Some w -> w < MAXOPBLOCKS ->
  exists s', log_write b s = Ok tt s'.
Proof.
  assert (LOGSIZE = 30) as HL by done. assert (MAXOPBLOCKS = 10) as HM by done.
  intros Ho Hc Hn Hz Hr Hj Hw. apply quota_reachable in Hr.
  2: { split; cbn [fst snd]; rewrite ?Hn; try done; constructor. }
  cbn [fst snd] in Hr. destruct Hr as [Qo Qc Qn Qw Qs Qm Qz].
  assert (lh_n (lg s) < LOGSIZE) as Hlt.
  { pose proof (reserved_delete ws j w Hj). pose proof (reserved_nonneg (delete j ws)).
    assert (0 <= reserved (delete j ws)) by (apply reserved_nonneg; by apply Forall_delete). lia. }
  apply lookup_lt_Some in Hj.
  unfold log_write, get. erewrite bind_run by reflexivity. cbv zeta.
  destruct (Z.leb_spec LOGSIZE (lh_n (lg s))); [lia|].
  destruct (Z.leb_spec (l_size (lg s) - 1) (lh_n (lg s))); [lia|].
  destruct (Z.ltb_spec (l_outstanding (lg s)) 1); [lia|]. cbn [orb].
  unfold upd_lg at 1. erewrite bind_run by reflexivity. destruct (_ =? _); eexists; reflexivity.
Qed.

Lemma commit_crash_atomic_witness :
  exists (c : bstate) R V D,
    committable 2 [50] sample_log c R V D /\
    exists l' c' ws,
      commit (LState sample_log c) = Ok tt (LState l' c') /\ bc_writes c' = bc_writes c ++ ws /\
      forall k d, (forall b, read_block d b = putall D (take k ws) b) ->
        boots_to (C := bstate) 2 d (if decide (k <= 1)%nat then D else V).
Proof.
  destruct (sample_committable (C := bstate)) as (c & Hc). do 4 eexists. split; [exact Hc|].
  exact (commit_crash_atomic 2 [50] sample_log c _ _ _ Hc).
Defined.

Lemma commit_installs_witness :
  exists (c : bstate) R V D,
    committable 2 [50] sample_log c R V D /\ V 50 <> D 50 /\
    exists l' c' R' V' D',
      commit (LState sample_log c) = Ok tt (LState l' c') /\ mem_log 2 [] l' /\ idle c' R' V' D' /\
      (forall b, R' b = if decide (b ∈ [50]) then R b - 1 else R b) /\
      (forall b, home 2 b -> V' b = V b /\ D' b = V b) /\ hd_n (D' 2) = 0.
Proof.
  destruct (sample_committable (C := bstate)) as (c & Hc). do 4 eexists. split; [exact Hc|].
  split; [vm_compute; discriminate|].
  exact (commit_installs 2 [50] sample_log c _ _ _ Hc).
Defined.

Lemma recovery_idempotent_witness :
  disk_ok 2 (read_block ∅) /\
  exists l (c : bstate),
    initlog ROOTDEV 2 31 (LState sample_log (bc_boot ∅)) = Ok tt (LState l c) /\
    boots_to (C := bstate) 2 ∅ (recovered 2 (read_block ∅)) /\
    forall k d', (forall b, read_block d' b = putall (read_block ∅) (take k (bc_writes c)) b) ->
      boots_to (C := bstate) 2 d' (recovered 2 (read_block ∅)).
Proof.
  assert (disk_ok 2 (read_block ∅)) as Hd.
  { split; [reflexivity | vm_compute; split; discriminate |]. apply log_ok_nil. vm_compute. split; reflexivity. }
  split; [exact Hd|]. apply (recovery_idempotent (C := bstate) 2 31 sample_log ∅); [reflexivity | exact Hd].
Defined.

Lemma log_space_suffices_witness :
  exists s', (begin_op ;; log_write 0%nat) (mkfs_log 31) = Ok tt s'.
Proof.
  set (s1 := LState (LogSt 2 31 1 0 ROOTDEV 0 (replicate 30 0)) (booted ∅)).
  assert (begin_op (mkfs_log 31) = Ok tt s1) as E by reflexivity.
  rewrite (bind_run _ _ _ _ _ E).
  apply (log_space_suffices (mkfs_log 31) s1 [0] 0 0 0%nat); try reflexivity.
  apply rtc_once. by apply step_begin.
Defined.

(** C4: a log of [l_size] blocks takes one transaction of [l_size - 1] blocks,
    the other being its header, but begin_op admits calls as if it always took
    LOGSIZE. Let three system calls begin in an idle system, and let them bring
    in, change and log at most MAXOPBLOCKS different blocks each, whichever
    they are, in whatever order and with whatever contents, over any buffer
    cache: if the log has room for all the blocks they are all logged, and
    otherwise the log fills up and log_write panics. So the LOGSIZE-block log
    that mkfs makes is one block too small: three calls that use up their
    quotas always panic, and never do so with one block more. *)
Theorem mkfs_log_too_small {C} `{BlockCacheLaws C} l (c : C) V D (ups : list (Z * block)) :
  idle c (fun _ => 0) V D ->
  lh_n l = 0 -> l_outstanding l = 0 -> l_committing l = 0 ->
  Z.of_nat (length (lh_block l)) = LOGSIZE -> 0 < l_size l ->
  NoDup (map fst ups) -> Forall (fun b => 0 <= b < 2 ^ 31) (map fst ups) ->
  Z.of_nat (length ups) <= 3 * MAXOPBLOCKS ->
  exists l' c',
    if Z.of_nat (length ups) <? l_size l then
      three_calls ups (LState l c) = Ok tt (LState l' c') /\
      lh_n l' = Z.of_nat (length ups) /\ take (length ups) (lh_block l') = map fst ups
    else
      three_calls ups (LState l c) = Stop (Panic "too big a transaction") (LState l' c') /\
      lh_n l' = l_size l - 1.
Proof.
  intros Hc Hn Ho Hcm Hl Hs Hnd Hr Hlen. destruct (three_begin l c Hn Ho Hcm) as (E1 & E2 & E3).
  destruct (log_updates_ok ups [] (set_outstanding 3 l) c V D) as (l' & c' & P);
    [|done|done|unfold LOGSIZE; cbn [length]; lia|done|].
  - by split.
  - exists l', c'. unfold three_calls. by rewrite (bind_run _ _ _ _ _ E1), (bind_run _ _ _ _ _ E2), (bind_run _ _ _ _ _ E3).
Qed.

(** Blocks [100 .. 129], with the log of mkfs and with one block more. *)
Lemma mkfs_log_too_small_witness :
  let ups := map (fun b => (b, sample_data)) (seqZ 100 30) in
  (exists l' c', three_calls ups (LState (lg (mkfs_log LOGSIZE)) (bc_boot (S := bstate) ∅)) =
     Stop (Panic "too big a transaction") (LState l' c') /\ lh_n l' = 29) /\
  (exists l' c', three_calls ups (LState (lg (mkfs_log (LOGSIZE + 1))) (bc_boot (S := bstate) ∅)) =
     Ok tt (LState l' c') /\ lh_n l' = 30).
Proof.
  intros ups. destruct (bc_boot_ok (S := bstate) ∅) as [Hc _].
  assert (length ups = 30%nat) as Hlen by reflexivity.
  assert (map fst ups = seqZ 100 30) as Hfst by reflexivity.
  assert (NoDup (map fst ups)) as Hnd by (rewrite Hfst; apply NoDup_seqZ).
  assert (Forall (fun b => 0 <= b < 2 ^ 31) (map fst ups)) as Hr.
  { rewrite Hfst, Forall_forall. intros b Hb%elem_of_seqZ. lia. }
  assert (Z.of_nat (length ups) <= 3 * MAXOPBLOCKS) as Hmax by (rewrite Hlen; unfold MAXOPBLOCKS; lia).
  clearbody ups. split.
  - destruct (mkfs_log_too_small (lg (mkfs_log LOGSIZE)) (bc_boot (S := bstate) ∅) _ _ ups Hc eq_refl eq_refl eq_refl eq_refl eq_refl Hnd Hr Hmax)
      as (l' & c' & P). exists l', c'. rewrite Hlen in P. exact P.
  - destruct (mkfs_log_too_small (lg (mkfs_log (LOGSIZE + 1))) (bc_boot (S := bstate) ∅) _ _ ups Hc eq_refl eq_refl eq_refl eq_refl eq_refl Hnd Hr Hmax)
      as (l' & c' & P). exists l', c'. rewrite Hlen in P. split; apply P.
Defined.
