(* ===== verification/Kalloc.v ===== *)
(** * kalloc.c: the page allocator

    The free list is threaded through the free pages themselves: [r->next] is
    the first eight bytes of the page. The state is the physical memory, the
    list head and the linker's [end]. *)

From stdpp Require Import base gmap list strings.
From Stdlib Require Import ZArith Lia.
From S2P Require Import Prelude Mem Cstring.

Definition PGSIZE : Z := 4096.
Definition PGROUNDUP (sz : Z) : Z := Z.land (u64 (sz + PGSIZE - 1)) (u64 (Z.lnot (PGSIZE - 1))).
Definition PGROUNDDOWN (a : Z) : Z := Z.land a (u64 (Z.lnot (PGSIZE - 1))).

Definition KERNBASE : Z := 0x80000000.
Definition PHYSTOP : Z := KERNBASE + 128 * 1024 * 1024.

Record kst : Type := Kst {
  pmem : mem;        (* physical memory *)
  freelist : Z;      (* kmem.freelist *)
  kend : Z;          (* the symbol end: first address after the kernel *)
}.

Definition set_mem (m : mem) (s : kst) : kst := Kst m (freelist s) (kend s).
Definition set_freelist (p : Z) (s : kst) : kst := Kst (pmem s) p (kend s).
Definition upd_mem (f : mem -> mem) : M kst unit := modify (fun s => set_mem (f (pmem s)) s).

Definition kfree (pa : Z) : M kst unit :=
  let* s := get in
  if nz (pa mod PGSIZE) || (pa <? kend s) || (PHYSTOP <=? pa) then panic "kfree"
  else
    upd_mem (fun m => memset m pa 1 PGSIZE) ;;
    modify (fun s => set_mem (store64 (pmem s) pa (freelist s)) s) ;;
    modify (set_freelist pa).

Definition kalloc : M kst Z :=
  let* s := get in
  let r := freelist s in
  when (nz r) (modify (set_freelist (load64 (pmem s) r))) ;;
  when (nz r) (upd_mem (fun m => memset m r 5 PGSIZE)) ;;
  ret r.

(** The pages freerange visits: from PGROUNDUP(pa_start), while a whole page
    fits below pa_end. *)
Definition range_pages (pa_start pa_end : Z) : list Z :=
  let p := PGROUNDUP pa_start in
  map (fun i => p + i * PGSIZE) (seqZ 0 ((pa_end - p) / PGSIZE)).

Definition freerange (pa_start pa_end : Z) : M kst unit :=
  for_each (range_pages pa_start pa_end) kfree.

Definition kinit : M kst unit :=
  let* s := get in freerange (kend s) PHYSTOP.

(** ** Specification *)

Definition page_ok (s : kst) (a : Z) : Prop :=
  a mod PGSIZE = 0 /\ kend s <= a < PHYSTOP.

(** The list in memory from [p] is [l]. *)
Fixpoint chain (m : mem) (p : Z) (l : list Z) : Prop :=
  match l with
  | [] => p = 0
  | a :: l => p = a /\ chain m (load64 m a) l
  end.

(** The free pages are [l]. *)
Record free_pages (s : kst) (l : list Z) : Prop := {
  fp_chain : chain (pmem s) (freelist s) l;
  fp_nodup : NoDup l;
  fp_ok : forall a, a ∈ l -> page_ok s a;
  fp_end : 0 < kend s;
}.

(** The memory is the same outside page [a]. *)
Definition same_out (m m' : mem) (a : Z) : Prop :=
  forall x, x < a \/ a + PGSIZE <= x -> load8 m' x = load8 m x.

(** ** Lemmas *)

Lemma load64_ext m m' a :
  (forall i, a <= i < a + 8 -> load8 m i = load8 m' i) -> load64 m a = load64 m' a.
Proof. intros H. apply load_le_ext. intros. apply H. lia. Qed.

Lemma page_disjoint a b : a mod PGSIZE = 0 -> b mod PGSIZE = 0 -> a <> b ->
  a + PGSIZE <= b \/ b + PGSIZE <= a.
Proof. unfold PGSIZE. intros. mlia. Qed.

Lemma memset_same_out m a c : same_out m (memset m a c PGSIZE) a.
Proof. intros x Hx. rewrite memset_load8. rewrite decide_False; [done|]. unfold PGSIZE in *. lia. Qed.

Lemma store64_same_out m a v : same_out m (store64 m a v) a.
Proof. intros x Hx. apply load8_store_le_out. unfold PGSIZE in *. lia. Qed.

Lemma same_out_trans m1 m2 m3 a : same_out m1 m2 a -> same_out m2 m3 a -> same_out m1 m3 a.
Proof. intros H1 H2 x Hx. by rewrite H2, H1. Qed.

Lemma same_out_load64 m m' a x :
  same_out m m' a -> x + 8 <= a \/ a + PGSIZE <= x -> load64 m' x = load64 m x.
Proof. intros H Hx. apply load64_ext. intros. apply H. lia. Qed.

Lemma chain_ext m m' l : forall p,
  (forall a, a ∈ l -> load64 m' a = load64 m a) -> chain m p l -> chain m' p l.
Proof.
  induction l as [|a l IH]; intros p He; simpl; [done|]. intros [-> Hc]. split; [done|].
  rewrite He by by left. apply IH; [|done]. intros b Hb. apply He. by right.
Qed.

Lemma chain_same_out s m' l p a :
  (forall b, b ∈ l -> page_ok s b) -> a mod PGSIZE = 0 -> a ∉ l -> same_out (pmem s) m' a ->
  chain (pmem s) p l -> chain m' p l.
Proof.
  intros Hl Ha Hn Hs. apply chain_ext. intros b Hb. apply (same_out_load64 _ _ a); [done|].
  destruct (page_disjoint a b); [done | by apply Hl | intros ->; done | |]; unfold PGSIZE in *; lia.
Qed.

Lemma kalloc_none s : free_pages s [] -> kalloc s = Ok 0 s.
Proof.
  intros [Hc _ _ _]. simpl in Hc. unfold kalloc, bind, get. rewrite Hc. done.
Qed.

Lemma kalloc_some s a l :
  free_pages s (a :: l) ->
  exists s', kalloc s = Ok a s' /\ free_pages s' l /\ same_out (pmem s) (pmem s') a /\
    (forall x, a <= x < a + PGSIZE -> load8 (pmem s') x = 5) /\ kend s' = kend s /\
    page_ok s a /\ a <> 0 /\ a ∉ l.
Proof.
  intros [[Ha Hc] Hd Hok He]. apply NoDup_cons in Hd as [Hn Hd].
  assert (page_ok s a) as Hpa by (apply Hok; by left).
  assert (a <> 0) as Hnz by (destruct Hpa; lia).
  unfold kalloc, bind, get, upd_mem, modify, ret. rewrite Ha. unfold nz.
  destruct (Z.eqb_spec a 0); [done|]. cbn [negb when]. eexists. split; [reflexivity|].
  cbn [pmem set_mem set_freelist kend freelist]. split_and!.
  - split; cbn; [|done| |done].
    + apply (chain_same_out s _ _ _ a); auto using memset_same_out.
      * intros b Hb. apply Hok. by right.
      * apply Hpa.
    + intros b Hb. apply Hok. by right.
  - apply memset_same_out.
  - intros x Hx. rewrite memset_load8, decide_True; [done|]. unfold PGSIZE in *. lia.
  - done.
  - done.
  - done.
  - done.
Qed.

Lemma kfree_ok s a l :
  free_pages s l -> page_ok s a -> a ∉ l ->
  exists s', kfree a s = Ok tt s' /\ free_pages s' (a :: l) /\
    same_out (pmem s) (pmem s') a /\ kend s' = kend s.
Proof.
  intros [Hc Hd Hok He] Hpa Hn. pose proof Hpa as [Hal Hr].
  unfold kfree, bind, get, upd_mem, modify. rewrite Hal. unfold nz.
  destruct (Z.ltb_spec a (kend s)); [lia|]. destruct (Z.leb_spec PHYSTOP a); [lia|].
  cbn [Z.eqb negb orb]. eexists. split; [reflexivity|].
  cbn [pmem set_mem set_freelist kend freelist].
  assert (same_out (pmem s) (store64 (memset (pmem s) a 1 PGSIZE) a (freelist s)) a) as Hso.
  { eapply same_out_trans; [apply memset_same_out | apply store64_same_out]. }
  split_and!; [|done|done]. split; cbn [chain pmem freelist kend set_mem set_freelist].
  - split; [done|]. rewrite load64_store64_eq.
    assert (u64 (freelist s) = freelist s) as ->.
    { apply u64_id. destruct l as [|b l]; simpl in Hc; [rewrite Hc; lia|]. destruct Hc as [-> _].
      destruct (Hok b) as [_ Hb]; [by left|]. unfold PHYSTOP, KERNBASE in *. lia. }
    apply (chain_same_out s _ _ _ a Hok Hal Hn Hso Hc).
  - by apply NoDup_cons.
  - intros b [->|Hb]%elem_of_cons; [exact Hpa | exact (Hok b Hb)].
  - done.
Qed.

Lemma kfree_bad s a : ~ page_ok s a -> kfree a s = Stop (Panic "kfree") s.
Proof.
  intros Hb. unfold kfree, bind, get, nz, panic, halt. unfold page_ok in Hb.
  destruct (Z.eqb_spec (a mod PGSIZE) 0), (Z.ltb_spec a (kend s)), (Z.leb_spec PHYSTOP a);
    cbn [negb orb]; try done. exfalso. apply Hb. lia.
Qed.

Lemma for_kfree s ps : forall l,
  free_pages s l -> NoDup (ps ++ l) -> (forall a, a ∈ ps -> page_ok s a) ->
  exists s', for_each ps kfree s = Ok tt s' /\ free_pages s' (rev ps ++ l) /\ kend s' = kend s /\
    (forall x, (forall a, a ∈ ps -> x < a \/ a + PGSIZE <= x) -> load8 (pmem s') x = load8 (pmem s) x).
Proof.
  revert s. induction ps as [|p ps IH]; intros s l Hf Hd Hok; [by exists s|].
  simpl in Hd. apply NoDup_cons in Hd as [Hp Hd].
  destruct (kfree_ok s p l Hf) as (s1 & E1 & F1 & S1 & K1); [apply Hok; by left | set_solver |].
  destruct (IH s1 (p :: l) F1) as (s2 & E2 & F2 & K2 & S2).
  - rewrite <- Permutation_middle. apply NoDup_cons. done.
  - intros a Ha. unfold page_ok. rewrite K1. apply Hok. by right.
  - exists s2. cbn [for_each]. rewrite (bind_run _ _ _ _ _ E1). simpl rev. rewrite <- app_assoc.
    split_and!; [done | done | congruence |]. intros x Hx. rewrite S2, S1; [done | |].
    + apply Hx. by left.
    + intros a Ha. apply Hx. by right.
Qed.

(** Clearing the low 12 bits of a 64-bit word. *)
Lemma land_page x : 0 <= x < 2 ^ 64 -> Z.land x (u64 (Z.lnot (PGSIZE - 1))) = x / PGSIZE * PGSIZE.
Proof.
  intros Hx. unfold u64. rewrite <- Z.land_ones by lia.
  change (PGSIZE - 1) with (Z.ones 12).
  rewrite (Z.land_comm (Z.lnot _)), Z.land_assoc, (Z.land_ones x) by lia.
  rewrite Z.mod_small by lia. change (Z.land x (Z.lnot (Z.ones 12))) with (Z.land x (Z.lnot (Z.ones 12))).
  rewrite <- Z.ldiff_land, Z.ldiff_ones_r by lia.
  rewrite Z.shiftl_mul_pow2, Z.shiftr_div_pow2 by lia. done.
Qed.

Lemma PGROUNDUP_spec a : 0 <= a -> a + PGSIZE - 1 < 2 ^ 64 ->
  PGROUNDUP a = (a + PGSIZE - 1) / PGSIZE * PGSIZE.
Proof.
  intros. unfold PGROUNDUP. rewrite u64_id by (unfold PGSIZE in *; lia).
  apply land_page. unfold PGSIZE in *. lia.
Qed.

Lemma PGROUNDDOWN_spec a : 0 <= a < 2 ^ 64 -> PGROUNDDOWN a = a / PGSIZE * PGSIZE.
Proof. apply land_page. Qed.

(** The pages of a range are the aligned pages that fit in it. *)
Lemma elem_of_range_pages lo hi a :
  0 <= lo -> lo + PGSIZE - 1 < 2 ^ 64 ->
  a ∈ range_pages lo hi <-> a mod PGSIZE = 0 /\ lo <= a /\ a + PGSIZE <= hi.
Proof.
  intros Hlo Hb. unfold range_pages. rewrite PGROUNDUP_spec by done.
  rewrite list_elem_of_fmap. setoid_rewrite elem_of_seqZ. unfold PGSIZE in *. split.
  - intros (i & -> & Hi). mlia.
  - intros (Ha & Hl & Hh). exists (a / 4096 - (lo + 4096 - 1) / 4096). split; mlia.
Qed.

Lemma NoDup_range_pages lo hi : NoDup (range_pages lo hi).
Proof.
  unfold range_pages. apply NoDup_fmap_2_strong; [|apply NoDup_seqZ].
  intros x y _ _. unfold PGSIZE. lia.
Qed.

(** ** Properties *)

(** Kinit frees every page between the end of the kernel and PHYSTOP: a
    page is on the free list afterwards if and only if it is aligned and lies
    whole in that range. *)
Theorem kinit_frees_all s :
  freelist s = 0 -> 0 < kend s <= PHYSTOP ->
  exists s' l, kinit s = Ok tt s' /\ free_pages s' l /\
    forall a, a ∈ l <-> a mod PGSIZE = 0 /\ kend s <= a /\ a + PGSIZE <= PHYSTOP.
Proof.
  intros Hf Hk. unfold kinit, freerange, get. erewrite bind_run by reflexivity.
  assert (kend s + PGSIZE - 1 < 2 ^ 64) by (unfold PGSIZE, PHYSTOP, KERNBASE in *; lia).
  destruct (for_kfree s (range_pages (kend s) PHYSTOP) []) as (s' & E & F & _ & _).
  - split; [done | apply NoDup_nil_2 | intros a Ha; by apply elem_of_nil in Ha | lia].
  - rewrite app_nil_r. apply NoDup_range_pages.
  - intros a (? & ? & ?)%elem_of_range_pages; [|lia..]. unfold page_ok, PGSIZE in *. lia.
  - rewrite app_nil_r in F. eexists s', _. split_and!; [exact E | exact F |].
    intros a. rewrite <- Permutation_rev. apply elem_of_range_pages; lia.
Qed.

(** C12: kalloc and kfree implement a set of free pages. kalloc returns 0 only
    when no page is free; otherwise it removes one page, fills it with junk
    and changes no byte outside it. kfree of a page that is not free adds it
    and changes no byte outside it, and panics on an address that is not a
    page of the allocator's memory. *)
Theorem page_allocator_correct s l a :
  free_pages s l ->
  (l = [] -> kalloc s = Ok 0 s) /\
  (forall b l', l = b :: l' ->
     exists s', kalloc s = Ok b s' /\ free_pages s' l' /\ b ∉ l' /\ page_ok s b /\
       same_out (pmem s) (pmem s') b /\ forall x, b <= x < b + PGSIZE -> load8 (pmem s') x = 5) /\
  (page_ok s a -> a ∉ l ->
     exists s', kfree a s = Ok tt s' /\ free_pages s' (a :: l) /\ same_out (pmem s) (pmem s') a) /\
  (~ page_ok s a -> kfree a s = Stop (Panic "kfree") s).
Proof.
  intros Hf. split_and!.
  - intros ->. by apply kalloc_none.
  - intros b l' ->. destruct (kalloc_some s b l' Hf) as (s' & E & F & S1 & J & _ & P & _ & N). eauto 10.
  - intros Hp Hn. destruct (kfree_ok s a l Hf Hp Hn) as (s' & E & F & S1 & _). eauto.
  - apply kfree_bad.
Qed.

(** A kernel that ends two pages below PHYSTOP. *)
Definition small_kernel : kst := Kst ∅ 0 (PHYSTOP - 2 * PGSIZE).

Lemma kinit_frees_all_witness :
  exists s' l, kinit small_kernel = Ok tt s' /\ free_pages s' l /\
    forall a, a ∈ l <-> a mod PGSIZE = 0 /\ kend small_kernel <= a /\ a + PGSIZE <= PHYSTOP.
Proof. apply (kinit_frees_all small_kernel); [reflexivity | vm_compute; split; [reflexivity | discriminate]]. Defined.

Lemma page_allocator_correct_witness :
  exists s l, free_pages s l /\
  ((l = [] -> kalloc s = Ok 0 s) /\
  (forall b l', l = b :: l' ->
     exists s', kalloc s = Ok b s' /\ free_pages s' l' /\ b ∉ l' /\ page_ok s b /\
       same_out (pmem s) (pmem s') b /\ forall x, b <= x < b + PGSIZE -> load8 (pmem s') x = 5) /\
  (page_ok s 0 -> 0 ∉ l ->
     exists s', kfree 0 s = Ok tt s' /\ free_pages s' (0 :: l) /\ same_out (pmem s) (pmem s') 0) /\
  (~ page_ok s 0 -> kfree 0 s = Stop (Panic "kfree") s)).
Proof.
  destruct (kfree_ok small_kernel (PHYSTOP - PGSIZE) []) as (s & _ & F & _).
  - split; [reflexivity | apply NoDup_nil_2 | intros a Ha; by apply elem_of_nil in Ha | reflexivity].
  - split; [reflexivity | vm_compute; split; [discriminate | reflexivity]].
  - apply not_elem_of_nil.
  - exists s, [PHYSTOP - PGSIZE]. split; [exact F|]. apply (page_allocator_correct s _ 0 F).
Defined.
