(* ===== verification/Vm.v ===== *)
(** * vm.c: page tables and user memory

    Page tables live in physical memory: a page table is the address of a
    page of 512 eight-byte entries, read and written with [load64] and
    [store64]. The loops over pages carry fuel that bounds the number of their
    iterations; the theorems show that it never runs out. *)

From stdpp Require Import base gmap list strings.
From Stdlib Require Import ZArith Lia.
From S2P Require Import Prelude Mem Cstring Kalloc.

Definition PTE_V : Z := 1.
Definition PTE_R : Z := 2.
Definition PTE_W : Z := 4.
Definition PTE_X : Z := 8.
Definition PTE_U : Z := 16.
Definition PA2PTE (pa : Z) : Z := u64 (Z.shiftl (Z.shiftr pa 12) 10).
Definition PTE2PA (pte : Z) : Z := u64 (Z.shiftl (Z.shiftr pte 10) 12).
Definition PTE_FLAGS (pte : Z) : Z := Z.land pte 0x3FF.
Definition PX (level va : Z) : Z := Z.land (Z.shiftr va (12 + 9 * level)) 0x1FF.
Definition MAXVA : Z := 2 ^ 38.

Definition TRAMPOLINE : Z := MAXVA - PGSIZE.
Definition TRAPFRAME : Z := TRAMPOLINE - PGSIZE.
Definition KSTACK (p : Z) : Z := TRAMPOLINE - (p + 1) * 2 * PGSIZE.
Definition UART0 : Z := 0x10000000.
Definition VIRTIO0 : Z := 0x10001000.
Definition PLIC : Z := 0x0c000000.

Definition has (pte flag : Z) : bool := nz (Z.land pte flag).
Definition ldpte (a : Z) : M kst Z := gets (fun s => load64 (pmem s) a).
Definition stpte (a v : Z) : M kst unit := upd_mem (fun m => store64 m a v).

(** One turn of walk's loop: the next lower page table, or 0. *)
Definition walk_down (pagetable va level : Z) (alloc : bool) : M kst Z :=
  let pte := pagetable + 8 * PX level va in
  let* e := ldpte pte in
  if has e PTE_V then ret (PTE2PA e)
  else if negb alloc then ret 0
  else
    let* p := kalloc in
    if p =? 0 then ret 0
    else
      upd_mem (fun m => memset m p 0 PGSIZE) ;;
      stpte pte (Z.lor (PA2PTE p) PTE_V) ;;
      ret p.

(** The address of the entry of [va], or 0. *)
Definition walk (pagetable va : Z) (alloc : bool) : M kst Z :=
  if MAXVA <=? va then panic "walk"
  else
    let* p1 := walk_down pagetable va 2 alloc in
    if p1 =? 0 then ret 0
    else
      let* p0 := walk_down p1 va 1 alloc in
      if p0 =? 0 then ret 0 else ret (p0 + 8 * PX 0 va).

Definition walkaddr (pagetable va : Z) : M kst Z :=
  if MAXVA <=? va then ret 0
  else
    let* pte := walk pagetable va false in
    if pte =? 0 then ret 0
    else
      let* e := ldpte pte in
      if negb (has e PTE_V) then ret 0
      else if negb (has e PTE_U) then ret 0
      else ret (PTE2PA e).

(** mappages's loop, from [a] to [last]. *)
Fixpoint mappages_loop (fuel : nat) (pagetable a last pa perm : Z) : M kst Z :=
  match fuel with
  | O => halt NoFuel
  | S fuel =>
      let* pte := walk pagetable a true in
      if pte =? 0 then ret (-1)
      else
        let* e := ldpte pte in
        if has e PTE_V then panic "mappages: remap"
        else
          stpte pte (Z.lor (Z.lor (PA2PTE pa) perm) PTE_V) ;;
          if a =? last then ret 0
          else mappages_loop fuel pagetable (u64 (a + PGSIZE)) last (u64 (pa + PGSIZE)) perm
  end.

Definition mappages (pagetable va size pa perm : Z) : M kst Z :=
  if size =? 0 then panic "mappages: size"
  else
    let a := PGROUNDDOWN va in
    let last := PGROUNDDOWN (u64 (va + size - 1)) in
    mappages_loop (S (Z.to_nat (u64 (last - a) / PGSIZE))) pagetable a last pa perm.

Definition kvmmap (kpgtbl va pa sz perm : Z) : M kst unit :=
  let* r := mappages kpgtbl va sz pa perm in
  if nz r then panic "kvmmap" else ret tt.

(** [for(a = start; a < bound; a += PGSIZE)], whose body may return. *)
Fixpoint pages_loop {B} (fuel : nat) (a bound : Z) (body : Z -> M kst (option B)) : M kst (option B) :=
  match fuel with
  | O => halt NoFuel
  | S fuel =>
      if a <? bound then
        let* r := body a in
        match r with
        | Some b => ret (Some b)
        | None => pages_loop fuel (u64 (a + PGSIZE)) bound body
        end
      else ret None
  end.
Definition for_pages {B} (start bound : Z) (body : Z -> M kst (option B)) : M kst (option B) :=
  pages_loop (S (Z.to_nat ((bound - start + PGSIZE - 1) / PGSIZE))) start bound body.

Definition unmap_one (pagetable : Z) (do_free : bool) (a : Z) : M kst unit :=
  let* pte := walk pagetable a false in
  if pte =? 0 then panic "uvmunmap: walk"
  else
    let* e := ldpte pte in
    if negb (has e PTE_V) then panic "uvmunmap: not mapped"
    else if PTE_FLAGS e =? PTE_V then panic "uvmunmap: not a leaf"
    else
      when do_free (kfree (PTE2PA e)) ;;
      stpte pte 0.

Definition uvmunmap (pagetable va npages : Z) (do_free : bool) : M kst unit :=
  if nz (va mod PGSIZE) then panic "uvmunmap: not aligned"
  else
    let* _ := for_pages va (u64 (va + npages * PGSIZE)) (fun a =>
      unmap_one pagetable do_free a ;; ret (@None unit)) in
    ret tt.

Definition uvmcreate : M kst Z :=
  let* pagetable := kalloc in
  if pagetable =? 0 then ret 0
  else upd_mem (fun m => memset m pagetable 0 PGSIZE) ;; ret pagetable.

(** [src] is the address of the initial program, [sz] its size. *)
Definition uvmfirst (pagetable src sz : Z) : M kst unit :=
  if PGSIZE <=? sz then panic "uvmfirst: more than a page"
  else
    let* p := kalloc in
    upd_mem (fun m => memset m p 0 PGSIZE) ;;
    let* _ := mappages pagetable 0 PGSIZE p (Z.lor PTE_W (Z.lor PTE_R (Z.lor PTE_X PTE_U))) in
    upd_mem (fun m => memmove m p src sz).

Definition uvmdealloc (pagetable oldsz newsz : Z) : M kst Z :=
  if oldsz <=? newsz then ret oldsz
  else
    (if PGROUNDUP newsz <? PGROUNDUP oldsz then
       let npages := i32 ((PGROUNDUP oldsz - PGROUNDUP newsz) / PGSIZE) in
       uvmunmap pagetable (PGROUNDUP newsz) (u64 npages) true
     else ret tt) ;;
    ret newsz.

Definition uvmalloc (pagetable oldsz newsz xperm : Z) : M kst Z :=
  if newsz <? oldsz then ret oldsz
  else
    let oldsz := PGROUNDUP oldsz in
    let* r := for_pages oldsz newsz (fun a =>
      let* p := kalloc in
      if p =? 0 then
        uvmdealloc pagetable a oldsz ;; ret (Some 0)
      else
        upd_mem (fun m => memset m p 0 PGSIZE) ;;
        let* e := mappages pagetable a PGSIZE p (Z.lor (Z.lor PTE_R PTE_U) xperm) in
        if nz e then kfree p ;; uvmdealloc pagetable a oldsz ;; ret (Some 0)
        else ret None) in
    ret (match r with Some v => v | None => newsz end).

(** freewalk: [depth] bounds the recursion; a Sv39 table has three levels. *)
Fixpoint freewalk (depth : nat) (pagetable : Z) : M kst unit :=
  match depth with
  | O => halt NoFuel
  | S depth =>
      for_each (indices 512) (fun i =>
        let* pte := ldpte (pagetable + 8 * i) in
        if has pte PTE_V && (Z.land pte (Z.lor PTE_R (Z.lor PTE_W PTE_X)) =? 0) then
          freewalk depth (PTE2PA pte) ;; stpte (pagetable + 8 * i) 0
        else ret tt) ;;
      kfree pagetable
  end.
Definition DEPTH : nat := 3.

Definition uvmfree (pagetable sz : Z) : M kst unit :=
  when (0 <? sz) (uvmunmap pagetable 0 (PGROUNDUP sz / PGSIZE) true) ;;
  freewalk DEPTH pagetable.

Definition uvmcopy (old new sz : Z) : M kst Z :=
  let* r := for_pages 0 sz (fun i =>
    let* pte := walk old i false in
    if pte =? 0 then panic "uvmcopy: pte should exist"
    else
      let* e := ldpte pte in
      if negb (has e PTE_V) then panic "uvmcopy: page not present"
      else
        let* p := kalloc in
        if p =? 0 then uvmunmap new 0 (i / PGSIZE) true ;; ret (Some (-1))
        else
          upd_mem (fun m => memmove m p (PTE2PA e) PGSIZE) ;;
          let* r := mappages new i PGSIZE p (PTE_FLAGS e) in
          if nz r then kfree p ;; uvmunmap new 0 (i / PGSIZE) true ;; ret (Some (-1))
          else ret None) in
  ret (match r with Some v => v | None => 0 end).

Definition uvmclear (pagetable va : Z) : M kst unit :=
  let* pte := walk pagetable va false in
  if pte =? 0 then panic "uvmclear"
  else let* e := ldpte pte in stpte pte (Z.land e (u64 (Z.lnot PTE_U))).

(** copyout, copyin: every iteration but the first and the last copies a page;
    the number of iterations is at most [len / PGSIZE + 2]. *)
Definition copy_fuel (len : Z) : nat := Z.to_nat (len / PGSIZE + 3).

Fixpoint copyout_loop (fuel : nat) (pagetable dstva src len : Z) : M kst Z :=
  match fuel with
  | O => halt NoFuel
  | S fuel =>
      if 0 <? len then
        let va0 := PGROUNDDOWN dstva in
        let* pa0 := walkaddr pagetable va0 in
        if pa0 =? 0 then ret (-1)
        else
          let n := PGSIZE - (dstva - va0) in
          let n := if len <? n then len else n in
          upd_mem (fun m => memmove m (pa0 + (dstva - va0)) src n) ;;
          copyout_loop fuel pagetable (u64 (va0 + PGSIZE)) (u64 (src + n)) (len - n)
      else ret 0
  end.
Definition copyout (pagetable dstva src len : Z) : M kst Z :=
  copyout_loop (copy_fuel len) pagetable dstva src len.

Fixpoint copyin_loop (fuel : nat) (pagetable dst srcva len : Z) : M kst Z :=
  match fuel with
  | O => halt NoFuel
  | S fuel =>
      if 0 <? len then
        let va0 := PGROUNDDOWN srcva in
        let* pa0 := walkaddr pagetable va0 in
        if pa0 =? 0 then ret (-1)
        else
          let n := PGSIZE - (srcva - va0) in
          let n := if len <? n then len else n in
          upd_mem (fun m => memmove m dst (pa0 + (srcva - va0)) n) ;;
          copyin_loop fuel pagetable (u64 (dst + n)) (u64 (va0 + PGSIZE)) (len - n)
      else ret 0
  end.
Definition copyin (pagetable dst srcva len : Z) : M kst Z :=
  copyin_loop (copy_fuel len) pagetable dst srcva len.

(** The inner loop of copyinstr over the bytes of one page: [n] bytes from [p];
    returns whether the NUL was found. *)
Fixpoint copy_str_page (p dst : Z) (n : nat) : M kst bool :=
  match n with
  | O => ret false
  | S n =>
      let* c := gets (fun s => load8 (pmem s) p) in
      if c =? 0 then upd_mem (fun m => store8 m dst 0) ;; ret true
      else upd_mem (fun m => store8 m dst c) ;; copy_str_page (p + 1) (u64 (dst + 1)) n
  end.

Fixpoint copyinstr_loop (fuel : nat) (pagetable dst srcva max : Z) : M kst Z :=
  match fuel with
  | O => halt NoFuel
  | S fuel =>
      if 0 <? max then
        let va0 := PGROUNDDOWN srcva in
        let* pa0 := walkaddr pagetable va0 in
        if pa0 =? 0 then ret (-1)
        else
          let n := PGSIZE - (srcva - va0) in
          let n := if max <? n then max else n in
          let* got_null := copy_str_page (pa0 + (srcva - va0)) dst (Z.to_nat n) in
          if got_null : bool then ret 0
          else copyinstr_loop fuel pagetable (u64 (dst + n)) (u64 (va0 + PGSIZE)) (max - n)
      else ret (-1)
  end.
Definition copyinstr (pagetable dst srcva max : Z) : M kst Z :=
  copyinstr_loop (copy_fuel max) pagetable dst srcva max.

(** proc.c: proc_mapstacks. *)
Definition NPROC : Z := 64.
Definition proc_mapstacks (kpgtbl : Z) : M kst unit :=
  for_each (indices NPROC) (fun p =>
    let* pa := kalloc in
    if pa =? 0 then panic "kalloc"
    else kvmmap kpgtbl (KSTACK p) pa PGSIZE (Z.lor PTE_R PTE_W)).

(** kvmmake: [etext] and [trampoline] are the linker's symbols. *)
Definition kvmmake (etext trampoline : Z) : M kst Z :=
  let* kpgtbl := kalloc in
  upd_mem (fun m => memset m kpgtbl 0 PGSIZE) ;;
  kvmmap kpgtbl UART0 UART0 PGSIZE (Z.lor PTE_R PTE_W) ;;
  kvmmap kpgtbl VIRTIO0 VIRTIO0 PGSIZE (Z.lor PTE_R PTE_W) ;;
  kvmmap kpgtbl PLIC PLIC 0x400000 (Z.lor PTE_R PTE_W) ;;
  kvmmap kpgtbl KERNBASE KERNBASE (u64 (etext - KERNBASE)) (Z.lor PTE_R PTE_X) ;;
  kvmmap kpgtbl etext etext (u64 (PHYSTOP - etext)) (Z.lor PTE_R PTE_W) ;;
  kvmmap kpgtbl TRAMPOLINE trampoline PGSIZE (Z.lor PTE_R PTE_X) ;;
  proc_mapstacks kpgtbl ;;
  ret kpgtbl.

(** ** Specification

    [T] names the page-table pages by the path of indices that leads to them:
    the root at [[]], the level-1 tables at [[i2]], the level-0 tables at
    [[i2; i1]]. *)

Record ptwf (s : kst) (root : Z) (T : gmap (list Z) Z) : Prop := {
  pt_root : T !! [] = Some root;
  pt_page : forall π p, T !! π = Some p -> page_ok s p;
  pt_inj : forall π π' p, T !! π = Some p -> T !! π' = Some p -> π = π';
  pt_entry : forall π p i, T !! π = Some p -> (length π < 2)%nat -> 0 <= i < 512 ->
    match T !! (π ++ [i]) with
    | Some q => load64 (pmem s) (p + 8 * i) = Z.lor (PA2PTE q) PTE_V
    | None => has (load64 (pmem s) (p + 8 * i)) PTE_V = false
    end;
  pt_closed : forall i j p, T !! [i; j] = Some p -> is_Some (T !! [i]);
  pt_range : forall π p, T !! π = Some p -> (length π <= 2)%nat /\ Forall (fun i => 0 <= i < 512) π;
}.

(** The entry of a virtual address, 0 where there is no table. *)
Definition entry (m : mem) (T : gmap (list Z) Z) (va : Z) : Z :=
  match T !! [PX 2 va; PX 1 va] with
  | Some p0 => load64 m (p0 + 8 * PX 0 va)
  | None => 0
  end.

Record vmok (s : kst) (root : Z) (T : gmap (list Z) Z) (fl : list Z) : Prop := {
  vm_free : free_pages s fl;
  vm_pt : ptwf s root T;
  vm_disj : forall π p, T !! π = Some p -> p ∉ fl;
}.

(** The pages of the tables. *)
Definition tabs (T : gmap (list Z) Z) : list Z := (map_to_list T).*2.

(** No byte outside the table pages of [T] changes. *)
Definition kept (s s' : kst) (T : gmap (list Z) Z) : Prop :=
  forall x, (forall π p, T !! π = Some p -> x < p \/ p + PGSIZE <= x) ->
    load8 (pmem s') x = load8 (pmem s) x.

(** What an operation that may add tables leaves. *)
Record grown (s : kst) (T : gmap (list Z) Z) (fl : list Z)
    (s' : kst) (root : Z) (T' : gmap (list Z) Z) (fl' : list Z) : Prop := {
  gr_ok : vmok s' root T' fl';
  gr_sub : T ⊆ T';
  gr_fl : exists used, fl = used ++ fl' /\ tabs T' ≡ₚ used ++ tabs T;
  gr_kept : kept s s' T';
  gr_end : kend s' = kend s;
}.

(** ** Lemmas *)

Lemma shiftr_small f n : 0 <= n -> 0 <= f < 2 ^ n -> Z.shiftr f n = 0.
Proof. intros. rewrite Z.shiftr_div_pow2 by lia. apply Z.div_small. lia. Qed.

Lemma lor_range x y : 0 <= x < 2 ^ 64 -> 0 <= y < 2 ^ 64 -> 0 <= Z.lor x y < 2 ^ 64.
Proof.
  intros Hx Hy. assert (Z.lor x y = Z.lor x y mod 2 ^ 64) as ->; [|apply Z.mod_pos_bound; lia].
  rewrite <- Z.land_ones, Z.land_lor_distr_l, !Z.land_ones by lia. by rewrite !Z.mod_small.
Qed.

Lemma PTE2PA_flags p f :
  p mod PGSIZE = 0 -> 0 <= p < 2 ^ 56 -> 0 <= f < 1024 -> PTE2PA (Z.lor (PA2PTE p) f) = p.
Proof.
  intros Ha Hp Hf. unfold PTE2PA, PA2PTE.
  assert (Z.shiftr p 12 = p / PGSIZE) as -> by (rewrite Z.shiftr_div_pow2 by lia; done).
  assert (0 <= p / PGSIZE < 2 ^ 44) as Hk by (unfold PGSIZE in *; mlia).
  assert (0 <= Z.shiftl (p / PGSIZE) 10 < 2 ^ 64).
  { rewrite Z.shiftl_mul_pow2 by lia. lia. }
  rewrite (u64_id (Z.shiftl (p / PGSIZE) 10)) by done.
  rewrite Z.shiftr_lor, (shiftr_small f 10) by lia. rewrite Z.lor_0_r.
  rewrite Z.shiftr_shiftl_l by lia. change (10 - 10) with 0. rewrite Z.shiftl_0_r.
  rewrite Z.shiftl_mul_pow2 by lia. rewrite u64_id; unfold PGSIZE in *; mlia.
Qed.

Lemma has_lor_V x : has (Z.lor x PTE_V) PTE_V = true.
Proof.
  unfold has, nz, PTE_V. destruct (Z.eqb_spec (Z.land (Z.lor x 1) 1) 0) as [E|]; [|done].
  exfalso. assert (Z.testbit (Z.land (Z.lor x 1) 1) 0 = true) as Hb.
  { rewrite Z.land_spec, Z.lor_spec. simpl. by rewrite orb_true_r. }
  rewrite E in Hb. by rewrite Z.bits_0 in Hb.
Qed.

Lemma has_0 f : has 0 f = false.
Proof. done. Qed.

Lemma PX_range level va : 0 <= PX level va < 512.
Proof.
  unfold PX. change 0x1FF with (Z.ones 9). rewrite Z.land_ones by lia. apply Z.mod_pos_bound. lia.
Qed.

Lemma PX_spec level va : 0 <= level -> PX level va = va / 2 ^ (12 + 9 * level) mod 512.
Proof.
  intros. unfold PX. change 0x1FF with (Z.ones 9). rewrite Z.land_ones by lia.
  by rewrite Z.shiftr_div_pow2 by lia.
Qed.

(** Addresses with the same indices are in the same page. *)
Lemma PX_inj a b :
  0 <= a < 2 ^ 39 -> 0 <= b < 2 ^ 39 ->
  PX 2 a = PX 2 b -> PX 1 a = PX 1 b -> PX 0 a = PX 0 b -> a / PGSIZE = b / PGSIZE.
Proof.
  intros Ha Hb. rewrite !PX_spec by lia. unfold PGSIZE.
  change (2 ^ (12 + 9 * 2)) with 1073741824. change (2 ^ (12 + 9 * 1)) with 2097152.
  change (2 ^ (12 + 9 * 0)) with 4096. intros. mlia.
Qed.

Lemma PX_page a b level : 0 <= level -> 0 <= a -> 0 <= b ->
  a / PGSIZE = b / PGSIZE -> PX level a = PX level b.
Proof.
  intros Hl Ha Hb E. rewrite !PX_spec by lia.
  rewrite Z.pow_add_r by lia. change (2 ^ 12) with PGSIZE.
  assert (PGSIZE <> 0 /\ 0 < 2 ^ (9 * level)) as [] by (split; [done | apply Z.pow_pos_nonneg; lia]).
  rewrite <- !Z.div_div by (unfold PGSIZE in *; lia). by rewrite E.
Qed.

Lemma page_ok_aligned s p : page_ok s p -> p mod PGSIZE = 0.
Proof. by intros []. Qed.

Lemma page_ok_bound s p : 0 < kend s -> page_ok s p -> 0 < p < 2 ^ 56.
Proof. intros He [_ Hp]. unfold PHYSTOP, KERNBASE in *. lia. Qed.

(** A slot of a page is inside it. *)
Lemma slot_in p i q : p mod PGSIZE = 0 -> q mod PGSIZE = 0 -> p <> q -> 0 <= i < 512 ->
  p + 8 * i + 8 <= q \/ q + PGSIZE <= p + 8 * i.
Proof. intros Hp Hq Hne Hi. destruct (page_disjoint p q); auto; unfold PGSIZE in *; lia. Qed.

(** A state whose table pages read the same has the same tables. *)
Lemma ptwf_ext s s' root T :
  ptwf s root T -> kend s' = kend s ->
  (forall π p i, T !! π = Some p -> 0 <= i < 512 ->
     load64 (pmem s') (p + 8 * i) = load64 (pmem s) (p + 8 * i)) ->
  ptwf s' root T.
Proof.
  intros [] Hk He. split; auto.
  - intros π p Hp. destruct (pt_page0 _ _ Hp). split; [done|]. by rewrite Hk.
  - intros π p i Hp Hl Hi. rewrite (He π p i Hp Hi). by apply pt_entry0.
Qed.

Lemma entry_ext m m' T va :
  (forall π p i, T !! π = Some p -> 0 <= i < 512 ->
     load64 m' (p + 8 * i) = load64 m (p + 8 * i)) ->
  entry m' T va = entry m T va.
Proof.
  intros He. unfold entry. destruct (T !! _) as [p|] eqn:E; [|done].
  eapply He; [exact E | apply PX_range].
Qed.

(** *** Walking without allocation *)

Lemma walk_down_lookup s root T π p va level :
  ptwf s root T -> 0 < kend s -> T !! π = Some p -> (length π < 2)%nat ->
  walk_down p va level false s =
    Ok (match T !! (π ++ [PX level va]) with Some q => q | None => 0 end) s.
Proof.
  intros Hw He Hp Hl. pose proof (pt_entry _ _ _ Hw π p (PX level va) Hp Hl (PX_range _ _)) as Hen.
  unfold walk_down, ldpte, bind, gets. destruct (T !! (π ++ _)) as [q|] eqn:Eq.
  - rewrite Hen, has_lor_V. unfold ret. f_equal.
    pose proof (pt_page _ _ _ Hw _ _ Eq) as Hq. pose proof (page_ok_bound _ _ He Hq).
    apply PTE2PA_flags; [by eapply page_ok_aligned | lia | unfold PTE_V; lia].
  - by rewrite Hen.
Qed.

Definition leaf_slot (T : gmap (list Z) Z) (va : Z) : Z :=
  match T !! [PX 2 va; PX 1 va] with Some p0 => p0 + 8 * PX 0 va | None => 0 end.

Lemma walk_lookup s root T va :
  ptwf s root T -> 0 < kend s -> 0 <= va < MAXVA ->
  walk root va false s = Ok (leaf_slot T va) s.
Proof.
  intros Hw He Hva. unfold walk. destruct (Z.leb_spec MAXVA va); [lia|].
  pose proof (pt_root _ _ _ Hw) as Hr.
  erewrite bind_run by (eapply walk_down_lookup; eauto; simpl; lia). cbn [app].
  unfold leaf_slot. destruct (T !! [PX 2 va]) as [p1|] eqn:E1; cbv iota.
  - pose proof (page_ok_bound _ _ He (pt_page _ _ _ Hw _ _ E1)) as Hp1.
    destruct (Z.eqb_spec p1 0); [lia|]. cbv iota.
    erewrite bind_run by (eapply walk_down_lookup; eauto; simpl; lia). cbn [app].
    destruct (T !! [PX 2 va; PX 1 va]) as [p0|] eqn:E0; [|done]. cbv iota.
    pose proof (page_ok_bound _ _ He (pt_page _ _ _ Hw _ _ E0)) as Hp0.
    by destruct (Z.eqb_spec p0 0); [lia|].
  - destruct (T !! [PX 2 va; PX 1 va]) as [p0|] eqn:E0; [|done].
    destruct (pt_closed _ _ _ Hw _ _ _ E0) as [? ?]. congruence.
Qed.

(** *** Adding a table *)

Lemma load64_zero m a : (forall i, a <= i < a + 8 -> load8 m i = 0) -> load64 m a = 0.
Proof.
  intros H. rewrite (load64_ext m ∅ a); [reflexivity|]. intros i Hi. by rewrite H.
Qed.

(** The state after a zeroed page [a] was linked at slot [i] of table [π]. *)
Section link.
Context (s s1 : kst) (root : Z) (T : gmap (list Z) Z) (fl' : list Z) (π : list Z) (p i a : Z).
Hypothesis Hvm : vmok s root T (a :: fl').
Hypothesis Hp : T !! π = Some p.
Hypothesis Hlen : (length π < 2)%nat.
Hypothesis Hi : 0 <= i < 512.
Hypothesis Hnone : T !! (π ++ [i]) = None.
Hypothesis Hpath : π = [] \/ exists j, π = [j].
Hypothesis Hf1 : free_pages s1 fl'.
Hypothesis Hk : kend s1 = kend s.
Hypothesis Hso : same_out (pmem s) (pmem s1) a.
Let v := Z.lor (PA2PTE a) PTE_V.
Let s2 := set_mem (store64 (memset (pmem s1) a 0 PGSIZE) (p + 8 * i) v) s1.
Let T' := <[π ++ [i] := a]> T.

Lemma link_page : page_ok s a /\ a mod PGSIZE = 0 /\ a ∉ fl'.
Proof.
  destruct Hvm as [[_ Hnd Hfok _] _ _]. apply NoDup_cons in Hnd as [Han _].
  assert (page_ok s a) as Hpa by (apply Hfok; by left). split; [done|]. split; [by eapply page_ok_aligned | done].
Qed.

Lemma link_apart π' q : T !! π' = Some q -> q <> a /\ q mod PGSIZE = 0 /\ q ∉ fl'.
Proof.
  destruct Hvm as [_ Hw Hdj]. intros Hq. specialize (Hdj _ _ Hq). rewrite not_elem_of_cons in Hdj.
  pose proof (page_ok_aligned _ _ (pt_page _ _ _ Hw _ _ Hq)). tauto.
Qed.

Lemma link_free : free_pages s2 fl'.
Proof.
  destruct link_page as (_ & Haa & Han). destruct (link_apart _ _ Hp) as (Hpa' & Hpal & Hpfl).
  destruct Hf1 as [Hc1 Hn1 Ho1 He1]. split; [|done|exact Ho1|done].
  apply (chain_ext (pmem s1)); [|done]. intros b Hb. unfold s2. cbn [pmem set_mem].
  pose proof (page_ok_aligned _ _ (Ho1 b Hb)) as Hba. rewrite load64_store64_out.
  - apply (same_out_load64 _ _ a); [apply memset_same_out|].
    destruct (page_disjoint a b); auto; [intros ->; done | unfold PGSIZE in *; lia..].
  - destruct (slot_in p i b Hpal Hba) as [?|?]; [intros ->; done | done | lia |]. unfold PGSIZE in *. lia.
Qed.

(** What the table pages read. *)
Lemma link_read π' q k :
  T !! π' = Some q -> 0 <= k < 512 ->
  load64 (pmem s2) (q + 8 * k) = if decide (q = p /\ k = i) then v else load64 (pmem s) (q + 8 * k).
Proof.
  intros Hq Hk'. destruct link_page as (_ & Haa & _). destruct (link_apart _ _ Hp) as (_ & Hpal & _).
  destruct (link_apart _ _ Hq) as (Hqa & Hqal & _). unfold s2. cbn [pmem set_mem].
  assert (0 <= v < 2 ^ 64) as Hv by (apply lor_range; [apply u64_range | unfold PTE_V; lia]).
  case_decide as Hd.
  - destruct Hd as [-> ->]. rewrite load64_store64_eq. by apply u64_id.
  - rewrite load64_store64_out.
    2: { destruct (decide (q = p)) as [->|Hqp]; [lia|].
         destruct (slot_in q k p Hqal Hpal Hqp Hk'), (slot_in p i q Hpal Hqal); auto; unfold PGSIZE in *; lia. }
    rewrite (same_out_load64 _ _ a (q + 8 * k)) by
      (apply memset_same_out || (destruct (slot_in q k a Hqal Haa Hqa Hk'); unfold PGSIZE in *; lia)).
    apply (same_out_load64 _ _ a); [done|].
    destruct (slot_in q k a Hqal Haa Hqa Hk'); unfold PGSIZE in *; lia.
Qed.

Lemma link_new k : 0 <= k < 512 -> load64 (pmem s2) (a + 8 * k) = 0.
Proof.
  intros Hk'. destruct link_page as (_ & Haa & _). destruct (link_apart _ _ Hp) as (Hpa' & Hpal & _).
  unfold s2. cbn [pmem set_mem]. rewrite load64_store64_out.
  - apply load64_zero. intros x Hx. rewrite memset_load8, decide_True; [done | unfold PGSIZE in *; lia].
  - destruct (slot_in p i a Hpal Haa Hpa' Hi); unfold PGSIZE in *; lia.
Qed.

Lemma link_closed π' j : (length π' < 2)%nat -> T !! π' = None -> T !! (π' ++ [j]) = None.
Proof.
  destruct Hvm as [_ Hw _]. intros Hl Hn. destruct π' as [|x [|y π']]; simpl in Hl.
  - rewrite (pt_root _ _ _ Hw) in Hn. done.
  - destruct (T !! ([x] ++ [j])) as [q|] eqn:Eq; [|done]. destruct (pt_closed _ _ _ Hw _ _ _ Eq). congruence.
  - lia.
Qed.

Lemma link_ptwf : ptwf s2 root T'.
Proof.
  destruct link_page as (Hpa & Haa & _). destruct Hvm as [_ Hw _].
  assert (forall π', T !! π' <> Some a) as Hna by (intros π' Hq; by destruct (link_apart _ _ Hq)). split.
  - unfold T'. rewrite lookup_insert_ne by (destruct π; done). apply Hw.
  - intros π' q Hq. unfold page_ok. cbn [kend s2 set_mem]. rewrite Hk.
    unfold T' in Hq. apply lookup_insert_Some in Hq as [[_ <-]|[_ Hq]]; [done|].
    exact (pt_page _ _ _ Hw _ _ Hq).
  - intros π1 π2 q H1 H2. unfold T' in *.
    apply lookup_insert_Some in H1 as [[<- <-]|[? H1]], H2 as [[<- Ha]|[? H2]]; try done.
    + by apply Hna in H2.
    + subst q. by apply Hna in H1.
    + by eapply (pt_inj _ _ _ Hw).
  - intros π' q k Hq Hl' Hk'. unfold T' in *. apply lookup_insert_Some in Hq as [[<- <-]|[Hne Hq]].
    + rewrite lookup_insert_ne by (intros E%(f_equal length); rewrite !length_app in E; simpl in E; lia).
      rewrite (link_closed (π ++ [i]) k Hl' Hnone), link_new by done. done.
    + rewrite (link_read π' q k Hq Hk'). case_decide as Hd.
      * destruct Hd as [-> ->]. assert (π' = π) as -> by by eapply (pt_inj _ _ _ Hw).
        by rewrite lookup_insert_eq.
      * rewrite lookup_insert_ne; [by apply (pt_entry _ _ _ Hw)|].
        intros [-> E]%app_inj_tail. subst k. apply Hd. split; [congruence | done].
  - intros x y q Hq. unfold T' in *. apply lookup_insert_Some in Hq as [[E <-]|[Hne Hq]].
    + destruct Hpath as [->|[j ->]]; simpl in E; [done|]. injection E as -> _.
      rewrite lookup_insert_ne by done. eauto.
    + destruct (decide (π ++ [i] = [x])) as [->|]; [rewrite lookup_insert_eq; eauto|].
      rewrite lookup_insert_ne by done. by eapply (pt_closed _ _ _ Hw).
  - intros π' q Hq. unfold T' in *. apply lookup_insert_Some in Hq as [[<- _]|[_ Hq]]; [|by apply (pt_range _ _ _ Hw _ _ Hq)].
    rewrite length_app. cbn [length]. split; [lia|]. apply Forall_app. split; [apply (pt_range _ _ _ Hw _ _ Hp)|].
    by apply Forall_singleton.
Qed.

Lemma link_table :
  grown s T (a :: fl') s2 root T' fl' /\ forall va, entry (pmem s2) T' va = entry (pmem s) T va.
Proof.
  destruct link_page as (_ & Haa & Han). destruct Hvm as [_ Hw Hdj]. split; [split|].
  - split; [apply link_free | apply link_ptwf|]. intros π' q Hq. unfold T' in Hq.
    apply lookup_insert_Some in Hq as [[_ <-]|[_ Hq]]; [done | apply (link_apart _ _ Hq)].
  - unfold T'. by apply insert_subseteq.
  - exists [a]. split; [done|]. unfold tabs, T'. by rewrite map_to_list_insert.
  - intros x Hx. unfold s2. cbn [pmem set_mem].
    assert (x < a \/ a + PGSIZE <= x) as Hxa by (apply (Hx (π ++ [i])); apply lookup_insert_eq).
    assert (x < p \/ p + PGSIZE <= x) as Hxp.
    { apply (Hx π). unfold T'. rewrite lookup_insert_ne; [done|].
      intros E%(f_equal length). rewrite length_app in E. simpl in E. lia. }
    unfold store64. rewrite load8_store_le_out by (unfold PGSIZE in *; lia).
    rewrite memset_same_out by done. by apply Hso.
  - done.
  - intros va. unfold entry, T'. destruct (decide (π ++ [i] = [PX 2 va; PX 1 va])) as [E|E].
    + rewrite E, lookup_insert_eq in *. rewrite link_new by apply PX_range. by rewrite Hnone.
    + rewrite lookup_insert_ne by done. destruct (T !! [PX 2 va; PX 1 va]) as [q|] eqn:Eq; [|done].
      rewrite (link_read _ _ _ Eq (PX_range _ _)). rewrite decide_False; [done|].
      intros [-> _]. pose proof (pt_inj _ _ _ Hw _ _ _ Hp Eq) as ->. simpl in Hlen. lia.
Qed.
End link.

Lemma grown_refl s root T fl : vmok s root T fl -> grown s T fl s root T fl.
Proof. intros. split; [done | done | by exists [] | done | done]. Qed.

Lemma grown_trans s T fl s1 root T1 fl1 s2 T2 fl2 :
  grown s T fl s1 root T1 fl1 -> grown s1 T1 fl1 s2 root T2 fl2 -> grown s T fl s2 root T2 fl2.
Proof.
  intros [A1 B1 (u1 & -> & P1) D1 E1] [A2 B2 (u2 & -> & P2) D2 E2]. split; [done | by etrans | | | congruence].
  - exists (u1 ++ u2). split; [by rewrite <- app_assoc|]. by rewrite P2, P1, app_assoc, (Permutation_app_comm u2).
  - intros x Hx. rewrite D2 by done. apply D1. intros π p Hp. eapply Hx, lookup_weaken; eauto.
Qed.

(** One level of walk, allocating: the table below exists afterwards, or the
    allocator is out of pages. *)
Lemma walk_down_alloc s root T fl π p va level :
  vmok s root T fl -> T !! π = Some p -> (length π < 2)%nat -> (π = [] \/ exists j, π = [j]) ->
  exists r s' T' fl', walk_down p va level true s = Ok r s' /\
    grown s T fl s' root T' fl' /\ (length fl <= length fl' + 1)%nat /\
    (forall va', entry (pmem s') T' va' = entry (pmem s) T va') /\
    ((r = 0 /\ fl' = []) \/ (r <> 0 /\ T' !! (π ++ [PX level va]) = Some r)).
Proof.
  intros Hv Hp Hl Hpath. pose proof Hv as [Hf Hw Hdj]. pose proof (fp_end _ _ Hf) as He.
  pose proof (pt_entry _ _ _ Hw π p (PX level va) Hp Hl (PX_range _ _)) as Hen.
  unfold walk_down, ldpte, gets. erewrite bind_run by reflexivity.
  destruct (T !! (π ++ _)) as [q|] eqn:Eq.
  - rewrite Hen, has_lor_V.
    pose proof (pt_page _ _ _ Hw _ _ Eq) as Hq. pose proof (page_ok_bound _ _ He Hq).
    rewrite PTE2PA_flags; [|by eapply page_ok_aligned | lia | unfold PTE_V; lia].
    exists q, s, T, fl. split_and!; [done | by apply grown_refl | lia | done | right; split; [lia | done]].
  - rewrite Hen. cbn [negb]. destruct fl as [|a fl'].
    { erewrite bind_run by (by apply kalloc_none). cbv iota.
      exists 0, s, T, []. split_and!; [done | by apply grown_refl | simpl; lia | done | by left]. }
    destruct (kalloc_some s a fl' Hf) as (s1 & E1 & F1 & S1 & _ & K1 & _ & Ha0 & _).
    rewrite (bind_run _ _ _ _ _ E1). destruct (Z.eqb_spec a 0); [done|]. cbv iota.
    unfold upd_mem at 1. erewrite bind_run by reflexivity.
    unfold stpte, upd_mem. erewrite bind_run by reflexivity. cbn [pmem set_mem freelist kend].
    destruct (link_table s s1 root T fl' π p (PX level va) a) as [Hg Hentry]; auto using PX_range.
    eexists a, _, _, fl'. split; [reflexivity|]. split; [exact Hg|].
    split; [simpl; lia|]. split; [exact Hentry|].
    right. split; [done|]. apply lookup_insert_eq.
Qed.

Lemma walk_alloc s root T fl va :
  vmok s root T fl -> 0 <= va < MAXVA ->
  exists r s' T' fl', walk root va true s = Ok r s' /\ grown s T fl s' root T' fl' /\
    (length fl <= length fl' + 2)%nat /\
    (forall va', entry (pmem s') T' va' = entry (pmem s) T va') /\
    ((r = 0 /\ fl' = []) \/
     exists p0, T' !! [PX 2 va; PX 1 va] = Some p0 /\ r = p0 + 8 * PX 0 va /\ r <> 0).
Proof.
  intros Hv Hva. unfold walk. destruct (Z.leb_spec MAXVA va); [lia|].
  pose proof (pt_root _ _ _ (vm_pt _ _ _ _ Hv)) as Hr.
  destruct (walk_down_alloc s root T fl [] root va 2 Hv Hr) as (r1 & s1 & T1 & fl1 & E1 & G1 & L1 & N1 & C1);
    [simpl; lia | by left |].
  rewrite (bind_run _ _ _ _ _ E1). destruct C1 as [[-> Hf1]|[Hr1 H1]].
  { exists 0, s1, T1, fl1. split_and!; [done | done | lia | done | by left]. }
  destruct (Z.eqb_spec r1 0); [done|]. cbv iota. cbn [app] in H1.
  destruct (walk_down_alloc s1 root T1 fl1 [PX 2 va] r1 va 1 (gr_ok _ _ _ _ _ _ _ G1) H1)
    as (r2 & s2 & T2 & fl2 & E2 & G2 & L2 & N2 & C2); [simpl; lia | by right; eexists |].
  rewrite (bind_run _ _ _ _ _ E2). pose proof (grown_trans _ _ _ _ _ _ _ _ _ _ G1 G2) as G.
  assert (forall va', entry (pmem s2) T2 va' = entry (pmem s) T va') as N by (intros; congruence).
  destruct C2 as [[-> Hf2]|[Hr2 H2]].
  { exists 0, s2, T2, fl2. split_and!; [done | done | lia | done | by left]. }
  destruct (Z.eqb_spec r2 0); [done|]. cbv iota. cbn [app] in H2.
  exists (r2 + 8 * PX 0 va), s2, T2, fl2. split_and!; [done | done | lia | done |]. right. exists r2. split_and!; auto.
  pose proof (gr_ok _ _ _ _ _ _ _ G) as [Hf2 Hw2 _].
  pose proof (page_ok_bound _ _ (fp_end _ _ Hf2) (pt_page _ _ _ Hw2 _ _ H2)).
  pose proof (PX_range 0 va). lia.
Qed.

(** *** Writing a leaf entry *)

Definition same_page (a b : Z) : bool := a / PGSIZE =? b / PGSIZE.

Lemma set_leaf s root T fl va p0 v :
  vmok s root T fl -> T !! [PX 2 va; PX 1 va] = Some p0 -> 0 <= va < 2 ^ 39 ->
  let s' := set_mem (store64 (pmem s) (p0 + 8 * PX 0 va) v) s in
  vmok s' root T fl /\ kept s s' T /\
  forall va', 0 <= va' < 2 ^ 39 ->
    entry (pmem s') T va' = if same_page va' va then u64 v else entry (pmem s) T va'.
Proof.
  intros [Hf Hw Hdj] Hp Hva s'. pose proof Hf as [Hc Hn Ho He].
  pose proof (page_ok_aligned _ _ (pt_page _ _ _ Hw _ _ Hp)) as Hpa.
  pose proof (PX_range 0 va) as Hi.
  assert (forall π q k, T !! π = Some q -> 0 <= k < 512 -> ~ (q = p0 /\ k = PX 0 va) ->
            load64 (pmem s') (q + 8 * k) = load64 (pmem s) (q + 8 * k)) as Hrd.
  { intros π q k Hq Hk Hne. unfold s'. cbn [pmem set_mem]. apply load64_store64_out.
    pose proof (page_ok_aligned _ _ (pt_page _ _ _ Hw _ _ Hq)) as Hqa.
    destruct (decide (q = p0)) as [->|Hqp]; [lia|].
    destruct (slot_in q k p0 Hqa Hpa Hqp Hk), (slot_in p0 (PX 0 va) q Hpa Hqa); auto; unfold PGSIZE in *; lia. }
  split_and!.
  - split; [| |done].
    + split; [|done..]. apply (chain_ext (pmem s)); [|done]. intros b Hb. unfold s'. cbn [pmem set_mem].
      apply load64_store64_out. pose proof (page_ok_aligned _ _ (Ho b Hb)) as Hba.
      destruct (slot_in p0 (PX 0 va) b Hpa Hba); auto; [|unfold PGSIZE in *; lia].
      intros ->. by apply (Hdj _ _ Hp).
    + split; [apply Hw | apply Hw | apply Hw | | apply Hw | apply Hw].
      intros π q k Hq Hl Hk. rewrite (Hrd π q k Hq Hk); [by apply (pt_entry _ _ _ Hw)|].
      intros [-> _]. pose proof (pt_inj _ _ _ Hw _ _ _ Hp Hq) as <-. simpl in Hl. lia.
  - intros x Hx. unfold s'. cbn [pmem set_mem]. unfold store64. apply load8_store_le_out.
    specialize (Hx _ _ Hp). unfold PGSIZE in *. lia.
  - intros va' Hva'. unfold entry, same_page.
    destruct (Z.eqb_spec (va' / PGSIZE) (va / PGSIZE)) as [E|E].
    + rewrite !(PX_page va' va) by lia. rewrite Hp. unfold s'. cbn [pmem set_mem]. apply load64_store64_eq.
    + destruct (T !! [PX 2 va'; PX 1 va']) as [q|] eqn:Eq; [|done].
      apply (Hrd _ _ _ Eq (PX_range _ _)). intros [-> E0].
      pose proof (pt_inj _ _ _ Hw _ _ _ Hp Eq) as E1. injection E1 as E2 E1.
      apply E. symmetry. by apply PX_inj.
Qed.

Lemma walkaddr_run s root T fl va :
  vmok s root T fl -> 0 <= va ->
  walkaddr root va s =
    Ok (if va <? MAXVA then
          let e := entry (pmem s) T va in
          if has e PTE_V && has e PTE_U then PTE2PA e else 0
        else 0) s.
Proof.
  intros [Hf Hw _] Hva. pose proof (fp_end _ _ Hf) as He. unfold walkaddr.
  destruct (Z.leb_spec MAXVA va), (Z.ltb_spec va MAXVA); try lia; [done|].
  erewrite bind_run by (by apply (walk_lookup s root T va)).
  unfold leaf_slot, entry. destruct (T !! _) as [p0|] eqn:E0; [|done].
  pose proof (page_ok_bound _ _ He (pt_page _ _ _ Hw _ _ E0)). pose proof (PX_range 0 va).
  destruct (Z.eqb_spec (p0 + 8 * PX 0 va) 0); [lia|]. cbv iota.
  unfold ldpte, gets. erewrite bind_run by reflexivity. cbv zeta.
  by destruct (has _ PTE_V), (has _ PTE_U).
Qed.

(** *** mappages *)

Definition pte_of (pa perm : Z) : Z := u64 (Z.lor (Z.lor (PA2PTE pa) perm) PTE_V).

(** [va] is in one of the [n] pages from [a]. *)
Definition in_pages (a n va : Z) : bool :=
  (a / PGSIZE <=? va / PGSIZE) && (va / PGSIZE <? a / PGSIZE + n).

(** The outcome of mapping [n] pages from [a] to the frames from [pa]. *)
Definition mapped (s : kst) (T : gmap (list Z) Z) (s' : kst) (T' : gmap (list Z) Z)
    (fl' : list Z) (r a n pa perm : Z) : Prop :=
  (r = 0 /\ forall va, 0 <= va < 2 ^ 39 ->
     entry (pmem s') T' va =
       if in_pages a n va then pte_of (pa + (va / PGSIZE - a / PGSIZE) * PGSIZE) perm
       else entry (pmem s) T va) \/
  (r = -1 /\ fl' = [] /\ forall va, 0 <= va < 2 ^ 39 -> in_pages a n va = false ->
     entry (pmem s') T' va = entry (pmem s) T va).

Lemma mappages_loop_ok root perm k : forall fuel s T fl a pa,
  vmok s root T fl -> a mod PGSIZE = 0 -> 0 <= a -> a + PGSIZE * Z.of_nat k < MAXVA ->
  (k < fuel)%nat -> 0 <= pa -> pa + PGSIZE * Z.of_nat k < 2 ^ 64 ->
  (forall va, 0 <= va < 2 ^ 39 -> in_pages a (Z.of_nat k + 1) va = true ->
     has (entry (pmem s) T va) PTE_V = false) ->
  exists r s' T' fl',
    mappages_loop fuel root a (a + PGSIZE * Z.of_nat k) pa perm s = Ok r s' /\
    grown s T fl s' root T' fl' /\ (length fl <= length fl' + 2 * S k)%nat /\
    mapped s T s' T' fl' r a (Z.of_nat k + 1) pa perm.
Proof.
  assert (PGSIZE = 4096) as HP by done. assert (MAXVA = 2 ^ 38) as HM by done.
  induction k as [|k IH]; intros fuel s T fl a pa Hv Ha Ha0 Hmax Hfuel Hpa Hpa2 Hfree;
    destruct fuel as [|fuel]; try lia; cbn [mappages_loop].
  all: destruct (walk_alloc s root T fl a Hv) as (r & s1 & T1 & fl1 & E1 & G1 & L1 & N1 & C1); [lia|];
    rewrite (bind_run _ _ _ _ _ E1); destruct C1 as [[-> Hf1]|(p0 & Hp0 & Er & Hr0)];
    [ exists (-1), s1, T1, fl1; split_and!; [done | done | lia |]; right; split_and!; auto | ].
  all: destruct (Z.eqb_spec r 0); [done|]; cbv iota; unfold ldpte, gets; erewrite bind_run by reflexivity.
  all: assert (load64 (pmem s1) r = entry (pmem s1) T1 a) as -> by (unfold entry; by rewrite Hp0, Er);
    rewrite (N1 a), Hfree by (unfold in_pages; rewrite ?andb_true_iff, ?Z.leb_le, ?Z.ltb_lt; lia).
  all: unfold stpte, upd_mem at 1; erewrite bind_run by reflexivity; rewrite Er;
    destruct (set_leaf s1 root T1 fl1 a p0 (Z.lor (Z.lor (PA2PTE pa) perm) PTE_V)
                (gr_ok _ _ _ _ _ _ _ G1) Hp0) as (Hv2 & Hk2 & He2); [lia|];
    set (s2 := set_mem _ s1) in *;
    assert (grown s T fl s2 root T1 fl1) as G2 by
      (eapply grown_trans; [exact G1|]; split; [done | done | by exists [] | done | done]).
  - destruct (Z.eqb_spec a (a + PGSIZE * Z.of_nat 0)); [|lia]. cbv iota.
    exists 0, s2, T1, fl1. split_and!; [done | done | lia |]. left. split; [done|]. intros va Hva.
    rewrite He2 by lia. rewrite N1. unfold same_page, in_pages.
    destruct (Z.eqb_spec (va / PGSIZE) (a / PGSIZE)) as [E|E].
    + rewrite E, Z.leb_refl. destruct (Z.ltb_spec (a / PGSIZE) (a / PGSIZE + (Z.of_nat 0 + 1))); [|lia].
      cbn [andb]. unfold pte_of. do 4 f_equal. lia.
    + destruct (Z.leb_spec (a / PGSIZE) (va / PGSIZE)),
        (Z.ltb_spec (va / PGSIZE) (a / PGSIZE + (Z.of_nat 0 + 1))); try done. lia.
  - destruct (Z.eqb_spec a (a + PGSIZE * Z.of_nat (S k))); [lia|]. cbv iota.
    rewrite (u64_id (a + PGSIZE)), (u64_id (pa + PGSIZE)) by lia.
    replace (a + PGSIZE * Z.of_nat (S k)) with (a + PGSIZE + PGSIZE * Z.of_nat k) by lia.
    assert ((a + PGSIZE) / PGSIZE = a / PGSIZE + 1) as Ediv.
    { rewrite HP. replace (a + 4096) with (a + 1 * 4096) by lia. by rewrite Z.div_add by lia. }
    destruct (IH fuel s2 T1 fl1 (a + PGSIZE) (pa + PGSIZE) Hv2) as (r3 & s3 & T3 & fl3 & E3 & G3 & L3 & M3);
      try lia.
    { rewrite <- Ha, HP. mlia. }
    { intros va Hva Hin. unfold in_pages in Hin. rewrite Ediv in Hin. bool_to_prop.
      rewrite He2 by lia. unfold same_page.
      destruct (Z.eqb_spec (va / PGSIZE) (a / PGSIZE)); [lia|]. rewrite N1. apply Hfree; [done|].
      unfold in_pages. apply andb_true_iff. rewrite Z.leb_le, Z.ltb_lt. lia. }
    exists r3, s3, T3, fl3. split_and!; [exact E3 | by eapply grown_trans | lia |].
    destruct M3 as [[-> M3]|(-> & Hfl3 & M3)]; [left | right]; split_and!; auto.
    + intros va Hva. rewrite M3, He2, N1 by lia. unfold in_pages, same_page. rewrite Ediv.
      destruct (Z.leb_spec (a / PGSIZE + 1) (va / PGSIZE)),
        (Z.leb_spec (a / PGSIZE) (va / PGSIZE)),
        (Z.ltb_spec (va / PGSIZE) (a / PGSIZE + 1 + (Z.of_nat k + 1))),
        (Z.ltb_spec (va / PGSIZE) (a / PGSIZE + (Z.of_nat (S k) + 1))),
        (Z.eqb_spec (va / PGSIZE) (a / PGSIZE)); cbn [andb]; try lia; try done.
      * unfold pte_of. do 4 f_equal. lia.
      * unfold pte_of. do 4 f_equal. lia.
    + intros va Hva Hin. unfold in_pages in *. rewrite M3; rewrite ?Ediv; auto.
      * rewrite He2 by lia. unfold same_page.
        destruct (Z.eqb_spec (va / PGSIZE) (a / PGSIZE)) as [E|]; [|apply N1].
        rewrite E, Z.leb_refl in Hin. cbn [andb] in Hin. bool_to_prop. lia.
      * destruct (Z.leb_spec (a / PGSIZE + 1) (va / PGSIZE)),
          (Z.leb_spec (a / PGSIZE) (va / PGSIZE)),
          (Z.ltb_spec (va / PGSIZE) (a / PGSIZE + 1 + (Z.of_nat k + 1))),
          (Z.ltb_spec (va / PGSIZE) (a / PGSIZE + (Z.of_nat (S k) + 1))); cbn [andb] in *; try lia; done.
Qed.

Lemma mappages_ok s root T fl va size pa perm :
  vmok s root T fl -> 0 <= va -> 0 < size -> va + size <= MAXVA -> 0 <= pa -> pa + size < 2 ^ 63 ->
  let n := (va + size - 1) / PGSIZE - va / PGSIZE + 1 in
  (forall va', 0 <= va' < 2 ^ 39 -> in_pages va n va' = true ->
     has (entry (pmem s) T va') PTE_V = false) ->
  exists r s' T' fl', mappages root va size pa perm s = Ok r s' /\
    grown s T fl s' root T' fl' /\ Z.of_nat (length fl) <= Z.of_nat (length fl') + 2 * n /\
    mapped s T s' T' fl' r va n pa perm.
Proof.
  assert (PGSIZE = 4096) as HP by done. assert (MAXVA = 2 ^ 38) as HM by done.
  intros Hv Hva Hsz Hmax Hpa Hpa2 n Hfree. unfold mappages.
  destruct (Z.eqb_spec size 0); [lia|]. cbv zeta.
  rewrite (u64_id (va + size - 1)) by lia. rewrite !PGROUNDDOWN_spec by lia.
  set (q := va / PGSIZE) in *. set (q' := (va + size - 1) / PGSIZE) in *.
  assert (0 <= q <= q') as Hq by (unfold q, q'; rewrite HP; mlia).
  assert (q' * PGSIZE <= va + size - 1 /\ q * PGSIZE <= va) as Hq' by (unfold q', q; rewrite HP; mlia).
  assert (va < q * PGSIZE + PGSIZE) as Hq2 by (unfold q; rewrite HP; mlia).
  rewrite u64_id by lia.
  replace (q' * PGSIZE - q * PGSIZE) with ((q' - q) * PGSIZE) by lia.
  rewrite Z.div_mul by lia. set (k := Z.to_nat (q' - q)).
  replace (q' * PGSIZE) with (q * PGSIZE + PGSIZE * Z.of_nat k) by lia.
  assert (q * PGSIZE / PGSIZE = q) as Eq by (by rewrite Z.div_mul by lia).
  destruct (mappages_loop_ok root perm k (S k) s T fl (q * PGSIZE) pa Hv) as (r & s' & T' & fl' & E & G & L & Mp);
    try lia.
  - by rewrite Z.mod_mul by lia.
  - intros va' Hva' Hin. apply Hfree; [done|]. revert Hin. unfold in_pages. rewrite Eq.
    replace n with (Z.of_nat k + 1) by lia. done.
  - exists r, s', T', fl'. split_and!; [done | done | lia |]. unfold mapped, in_pages in *. rewrite Eq in Mp.
    fold q. replace n with (Z.of_nat k + 1) by lia. exact Mp.
Qed.

(** *** Copying between kernel and user memory *)

(** The physical address of a user virtual address. *)
Definition umap (m : mem) (T : gmap (list Z) Z) (va : Z) : option Z :=
  let e := entry m T va in
  if (va <? MAXVA) && (has e PTE_V && has e PTE_U) && nz (PTE2PA e)
  then Some (PTE2PA e + va mod PGSIZE) else None.

Lemma walkaddr_umap s root T va :
  ptwf s root T -> 0 < kend s -> 0 <= va -> va mod PGSIZE = 0 ->
  walkaddr root va s = Ok (match umap (pmem s) T va with Some x => x | None => 0 end) s.
Proof.
  intros Hw He Hva Ha. unfold walkaddr, umap. rewrite Ha.
  destruct (Z.leb_spec MAXVA va), (Z.ltb_spec va MAXVA); try lia; [done|].
  erewrite bind_run by (by apply (walk_lookup s root T va)).
  unfold leaf_slot, entry. destruct (T !! _) as [p0|] eqn:E0; [|done].
  pose proof (page_ok_bound _ _ He (pt_page _ _ _ Hw _ _ E0)). pose proof (PX_range 0 va).
  destruct (Z.eqb_spec (p0 + 8 * PX 0 va) 0); [lia|]. cbv iota.
  unfold ldpte, gets. erewrite bind_run by reflexivity. cbv zeta. set (e := load64 _ _).
  destruct (has e PTE_V), (has e PTE_U); cbn [negb andb]; try done. unfold nz, ret.
  destruct (Z.eqb_spec (PTE2PA e) 0) as [->|]; cbn [negb]; f_equal; lia.
Qed.

Lemma umap_page m T va va0 x :
  0 <= va0 -> va / PGSIZE = va0 / PGSIZE -> va0 mod PGSIZE = 0 -> va < 2 ^ 39 ->
  umap m T va0 = Some x -> umap m T va = Some (x + va mod PGSIZE).
Proof.
  assert (PGSIZE = 4096) as HP by done. assert (MAXVA = 2 ^ 38) as HM by done.
  intros H0 Hp Ha Hb. assert (0 <= va) by (rewrite HP in *; mlia). unfold umap, entry.
  rewrite !(PX_page va va0) by lia. set (e := match T !! _ with Some _ => _ | None => _ end).
  destruct (has e PTE_V && has e PTE_U); rewrite ?andb_false_r; [|done].
  rewrite !andb_true_r. destruct (nz (PTE2PA e)); rewrite ?andb_true_r, ?andb_false_r; [|done].
  destruct (Z.ltb_spec va0 MAXVA); [|done]. rewrite Ha. intros [= <-].
  destruct (Z.ltb_spec va MAXVA); [f_equal; lia|]. exfalso. rewrite HP, HM in *. mlia.
Qed.

Lemma umap_page_None m T va va0 :
  0 <= va0 -> va / PGSIZE = va0 / PGSIZE -> va0 mod PGSIZE = 0 ->
  umap m T va0 = None -> umap m T va = None.
Proof.
  assert (PGSIZE = 4096) as HP by done.
  intros H0 Hp Ha. assert (0 <= va) by (rewrite HP in *; mlia). unfold umap, entry.
  rewrite !(PX_page va va0) by lia. set (e := match T !! _ with Some _ => _ | None => _ end).
  destruct (has e PTE_V && has e PTE_U); rewrite ?andb_false_r; [|done].
  rewrite !andb_true_r. destruct (nz (PTE2PA e)); rewrite ?andb_true_r, ?andb_false_r; [|done].
  destruct (Z.ltb_spec va0 MAXVA); [done|]. intros _.
  destruct (Z.ltb_spec va MAXVA); [|done]. exfalso. rewrite HP in *. mlia.
Qed.

(** Addresses outside the table pages. *)
Definition off_tables (T : gmap (list Z) Z) (x : Z) : Prop :=
  forall π p, T !! π = Some p -> x < p \/ p + PGSIZE <= x.

(** A change of memory that leaves the table pages alone. *)
Lemma keep_tables s s' root T (W : Z -> Prop) :
  ptwf s root T -> kend s' = kend s ->
  (forall x, W x -> off_tables T x) -> (forall x, ~ W x -> load8 (pmem s') x = load8 (pmem s) x) ->
  ptwf s' root T /\ forall va, umap (pmem s') T va = umap (pmem s) T va.
Proof.
  intros Hw Hk Hoff Hsame.
  assert (forall π p i, T !! π = Some p -> 0 <= i < 512 ->
     load64 (pmem s') (p + 8 * i) = load64 (pmem s) (p + 8 * i)) as Hrd.
  { intros π p i Hp Hi. apply load64_ext. intros x Hx. apply Hsame. intros HW.
    destruct (Hoff x HW π p Hp); unfold PGSIZE in *; lia. }
  split; [by eapply ptwf_ext|]. intros va. unfold umap. by rewrite (entry_ext _ _ _ _ Hrd).
Qed.

(** The part of a copy that lies in the first page. *)
Lemma chunk va len :
  0 <= va -> 0 < len ->
  let va0 := PGROUNDDOWN va in
  let n := if len <? PGSIZE - (va - va0) then len else PGSIZE - (va - va0) in
  va < 2 ^ 63 ->
  va0 = va / PGSIZE * PGSIZE /\ 0 < n <= len /\ 0 <= va0 <= va /\ va0 mod PGSIZE = 0 /\
  va - va0 = va mod PGSIZE /\
  (n < len -> va0 + PGSIZE = va + n) /\
  (forall i, 0 <= i < n -> (va + i) / PGSIZE = va0 / PGSIZE /\ (va + i) mod PGSIZE = va - va0 + i).
Proof.
  assert (PGSIZE = 4096) as HP by done. intros Hva Hlen va0 n Hb.
  assert (va0 = va / PGSIZE * PGSIZE) as E by (apply PGROUNDDOWN_spec; lia).
  assert (va0 <= va < va0 + 4096 /\ va0 mod 4096 = 0) as [H1 H2] by (rewrite E, HP; mlia).
  assert (n = Z.min len (4096 - (va - va0))) as ->.
  { unfold n. rewrite HP. destruct (Z.ltb_spec len (4096 - (va - va0))); lia. }
  clearbody va0. rewrite HP. split_and!; try lia.
  - by rewrite <- HP.
  - mlia.
  - intros i Hi. mlia.
Qed.

Lemma copyin_loop_ok root T fuel : forall s dst srcva len,
  ptwf s root T -> 0 < kend s -> 0 <= dst -> dst + len < 2 ^ 63 -> 0 <= srcva -> 0 <= len ->
  srcva + len < 2 ^ 39 -> (len + srcva mod PGSIZE + PGSIZE - 1) / PGSIZE < Z.of_nat fuel ->
  (forall x, dst <= x < dst + len -> off_tables T x) ->
  (forall i x, 0 <= i < len -> umap (pmem s) T (srcva + i) = Some x -> x < dst \/ dst + len <= x) ->
  exists r s', copyin_loop fuel root dst srcva len s = Ok r s' /\ kend s' = kend s /\
    (forall x, x < dst \/ dst + len <= x -> load8 (pmem s') x = load8 (pmem s) x) /\
    ((forall i, 0 <= i < len -> is_Some (umap (pmem s) T (srcva + i))) ->
       r = 0 /\ forall i x, 0 <= i < len -> umap (pmem s) T (srcva + i) = Some x ->
         load8 (pmem s') (dst + i) = load8 (pmem s) x) /\
    ((exists i, 0 <= i < len /\ umap (pmem s) T (srcva + i) = None) -> r = -1).
Proof.
  assert (PGSIZE = 4096) as HP by done.
  induction fuel as [|fuel IH]; intros s dst srcva len Hw He Hd Hdl Hs Hl Hsl Hf Hoff Hsrc.
  { exfalso. rewrite HP in Hf. mlia. }
  cbn [copyin_loop]. destruct (Z.ltb_spec 0 len) as [Hpos|].
  2: { exists 0, s. split_and!; auto; [|intros (i & ? & _); lia]. intros _. split; [done | intros; lia]. }
  cbv zeta. destruct (chunk srcva len) as (E0 & Hn & Hv0 & Ha0 & Hoffs & Hnext & Hpg); [lia..|].
  set (va0 := PGROUNDDOWN srcva) in *.
  set (n := if len <? PGSIZE - (srcva - va0) then len else PGSIZE - (srcva - va0)) in *.
  erewrite bind_run by (apply (walkaddr_umap s root T va0); auto; lia).
  destruct (umap (pmem s) T va0) as [pa0|] eqn:Eu.
  2: { exists (-1), s. cbv iota. split_and!; auto. intros Hall. exfalso.
       destruct (Hall 0) as [x Hx]; [lia|]. destruct (Hpg 0) as [Hp _]; [lia|].
       assert (umap (pmem s) T (srcva + 0) = None) by (eapply (umap_page_None _ _ _ va0); eauto; lia).
       congruence. }
  assert (pa0 <> 0) as Hpa0.
  { unfold umap in Eu. destruct (_ && _) eqn:Ec; [|done]. injection Eu as <-. rewrite Ha0.
    bool_to_prop. unfold nz in *. bool_to_prop. lia. }
  destruct (Z.eqb_spec pa0 0); [done|]. cbv iota.
  assert (forall i, 0 <= i < n -> umap (pmem s) T (srcva + i) = Some (pa0 + (srcva - va0) + i)) as Hum.
  { intros i Hi. destruct (Hpg i Hi) as [Hp Hm].
    rewrite (umap_page _ _ (srcva + i) va0 pa0) by (auto; lia). f_equal. lia. }
  unfold upd_mem at 1. erewrite bind_run by reflexivity.
  set (s1 := set_mem _ s).
  assert (forall x, load8 (pmem s1) x =
            if decide (dst <= x < dst + n) then load8 (pmem s) (pa0 + (srcva - va0) + (x - dst))
            else load8 (pmem s) x) as Hs1.
  { intros x. unfold s1. cbn [pmem set_mem]. apply memmove_load8. lia. }
  destruct (keep_tables s s1 root T (fun x => dst <= x < dst + n)) as [Hw1 Hu1]; auto.
  { intros x Hx. apply Hoff. lia. }
  { intros x Hx. rewrite Hs1, decide_False by done. done. }
  rewrite (u64_id (dst + n)), (u64_id (va0 + PGSIZE)) by lia.
  destruct (decide (n < len)) as [Hlt|Hge].
  - rewrite (Hnext Hlt). destruct (IH s1 (dst + n) (srcva + n) (len - n) Hw1) as (r & s' & E & Hk & Hout & Hall & Hno).
    all: try lia; try done.
    { rewrite <- (Hnext Hlt). rewrite HP in *. rewrite E0 in *. mlia. }
    { intros x Hx. apply Hoff. lia. }
    { intros i x Hi. rewrite Hu1. replace (srcva + n + i) with (srcva + (n + i)) by lia.
      intros Hx. apply Hsrc in Hx; lia. }
    exists r, s'. split_and!; [done | done | ..].
    + intros x Hx. rewrite Hout, Hs1, decide_False by lia. done.
    + intros Hsome. destruct Hall as [-> Hbytes].
      { intros i Hi. rewrite Hu1. replace (srcva + n + i) with (srcva + (n + i)) by lia. apply Hsome. lia. }
      split; [done|]. intros i x Hi Hx. destruct (decide (i < n)) as [Hin|Hin].
      * rewrite Hum in Hx by lia. injection Hx as <-. rewrite Hout, Hs1, decide_True by lia. f_equal. lia.
      * replace (dst + i) with (dst + n + (i - n)) by lia. rewrite (Hbytes (i - n) x); [|lia|].
        -- rewrite Hs1, decide_False; [done|]. apply Hsrc in Hx; lia.
        -- rewrite Hu1. rewrite <- Hx. f_equal. lia.
    + intros (i & Hi & Hx). destruct (decide (i < n)); [rewrite Hum in Hx by lia; done|].
      apply Hno. exists (i - n). split; [lia|]. rewrite Hu1, <- Hx. f_equal. lia.
  - assert (n = len) as Hnl by lia. rewrite Hnl, Z.sub_diag in *. destruct fuel as [|fuel].
    { exfalso. rewrite HP in Hf. mlia. }
    exists 0, s1. split_and!; [done | done | ..].
    + intros x Hx. rewrite Hs1, decide_False by lia. done.
    + intros _. split; [done|]. intros i x Hi Hx. rewrite Hum in Hx by lia. injection Hx as <-.
      rewrite Hs1, decide_True by lia. f_equal. lia.
    + intros (i & Hi & Hx). rewrite Hum in Hx by lia. done.
Qed.

Lemma copyout_loop_ok root T fuel : forall s dstva src len,
  ptwf s root T -> 0 < kend s -> 0 <= src -> src + len < 2 ^ 63 -> 0 <= dstva -> 0 <= len ->
  dstva + len < 2 ^ 39 -> (len + dstva mod PGSIZE + PGSIZE - 1) / PGSIZE < Z.of_nat fuel ->
  (forall i x, 0 <= i < len -> umap (pmem s) T (dstva + i) = Some x ->
     off_tables T x /\ (x < src \/ src + len <= x) /\
     forall j, 0 <= j < len -> j <> i -> umap (pmem s) T (dstva + j) <> Some x) ->
  exists r s', copyout_loop fuel root dstva src len s = Ok r s' /\ kend s' = kend s /\
    (forall x, (forall i, 0 <= i < len -> umap (pmem s) T (dstva + i) <> Some x) ->
       load8 (pmem s') x = load8 (pmem s) x) /\
    ((forall i, 0 <= i < len -> is_Some (umap (pmem s) T (dstva + i))) ->
       r = 0 /\ forall i x, 0 <= i < len -> umap (pmem s) T (dstva + i) = Some x ->
         load8 (pmem s') x = load8 (pmem s) (src + i)) /\
    ((exists i, 0 <= i < len /\ umap (pmem s) T (dstva + i) = None) -> r = -1).
Proof.
  assert (PGSIZE = 4096) as HP by done.
  induction fuel as [|fuel IH]; intros s dstva src len Hw He Hd Hdl Hs Hl Hsl Hf Hdst.
  { exfalso. rewrite HP in Hf. mlia. }
  cbn [copyout_loop]. destruct (Z.ltb_spec 0 len) as [Hpos|].
  2: { exists 0, s. split_and!; auto; [|intros (i & ? & _); lia]. intros _. split; [done | intros; lia]. }
  cbv zeta. destruct (chunk dstva len) as (E0 & Hn & Hv0 & Ha0 & Hoffs & Hnext & Hpg); [lia..|].
  set (va0 := PGROUNDDOWN dstva) in *.
  set (n := if len <? PGSIZE - (dstva - va0) then len else PGSIZE - (dstva - va0)) in *.
  erewrite bind_run by (apply (walkaddr_umap s root T va0); auto; lia).
  destruct (umap (pmem s) T va0) as [pa0|] eqn:Eu.
  2: { exists (-1), s. cbv iota. split_and!; auto. intros Hall. exfalso.
       destruct (Hall 0) as [x Hx]; [lia|]. destruct (Hpg 0) as [Hp _]; [lia|].
       assert (umap (pmem s) T (dstva + 0) = None) by (eapply (umap_page_None _ _ _ va0); eauto; lia).
       congruence. }
  assert (pa0 <> 0) as Hpa0.
  { unfold umap in Eu. destruct (_ && _) eqn:Ec; [|done]. injection Eu as <-. rewrite Ha0.
    bool_to_prop. unfold nz in *. bool_to_prop. lia. }
  destruct (Z.eqb_spec pa0 0); [done|]. cbv iota.
  assert (forall i, 0 <= i < n -> umap (pmem s) T (dstva + i) = Some (pa0 + (dstva - va0) + i)) as Hum.
  { intros i Hi. destruct (Hpg i Hi) as [Hp Hm].
    rewrite (umap_page _ _ (dstva + i) va0 pa0) by (auto; lia). f_equal. lia. }
  set (d := pa0 + (dstva - va0)) in *.
  unfold upd_mem at 1. erewrite bind_run by reflexivity. set (s1 := set_mem _ s).
  assert (forall x, load8 (pmem s1) x =
            if decide (d <= x < d + n) then load8 (pmem s) (src + (x - d))
            else load8 (pmem s) x) as Hs1.
  { intros x. unfold s1. cbn [pmem set_mem]. apply memmove_load8. lia. }
  assert (forall x, d <= x < d + n -> umap (pmem s) T (dstva + (x - d)) = Some x) as Hux.
  { intros x Hx. rewrite Hum by lia. f_equal. lia. }
  destruct (keep_tables s s1 root T (fun x => d <= x < d + n)) as [Hw1 Hu1]; auto.
  { intros x Hx. apply (Hdst (x - d)); [lia | auto]. }
  { intros x Hx. rewrite Hs1, decide_False by done. done. }
  assert (forall i, 0 <= i < len -> load8 (pmem s1) (src + i) = load8 (pmem s) (src + i)) as Hsrc1.
  { intros i Hi. rewrite Hs1. case_decide as Hx; [|done]. exfalso.
    destruct (Hdst (src + i - d) (src + i)) as (_ & Ho & _); [lia | auto | lia]. }
  rewrite (u64_id (src + n)), (u64_id (va0 + PGSIZE)) by lia.
  destruct (decide (n < len)) as [Hlt|Hge].
  - rewrite (Hnext Hlt).
    assert (forall i, dstva + n + i = dstva + (n + i)) as Eadd by (intros; lia).
    destruct (IH s1 (dstva + n) (src + n) (len - n) Hw1) as (r & s' & E & Hk & Hout & Hall & Hno).
    all: try lia; try done.
    { rewrite <- (Hnext Hlt). rewrite HP in *. rewrite E0 in *. mlia. }
    { intros i x Hi. rewrite Hu1, Eadd. intros Hx. destruct (Hdst (n + i) x) as (Ho & Hsr & Hinj); [lia | done |].
      split_and!; [done | lia |]. intros j Hj Hne. rewrite Hu1, Eadd. apply Hinj; lia. }
    exists r, s'. split_and!; [done | done | ..].
    + intros x Hx. rewrite Hout, Hs1.
      * rewrite decide_False; [done|]. intros Hin. apply (Hx (x - d)); [lia | auto].
      * intros i Hi. rewrite Hu1, Eadd. apply Hx. lia.
    + intros Hsome. destruct Hall as [-> Hbytes].
      { intros i Hi. rewrite Hu1, Eadd. apply Hsome. lia. }
      split; [done|]. intros i x Hi Hx. destruct (decide (i < n)) as [Hin|Hin].
      * rewrite Hum in Hx by lia. injection Hx as <-. rewrite Hout.
        -- rewrite Hs1, decide_True by lia. f_equal. lia.
        -- intros j Hj. rewrite Hu1, Eadd.
           destruct (Hdst i (d + i) Hi (Hum i ltac:(lia))) as (_ & _ & Hinj). apply Hinj; lia.
      * rewrite (Hbytes (i - n) x); [|lia|].
        -- rewrite <- Z.add_assoc, Hsrc1 by lia. f_equal. lia.
        -- rewrite Hu1, Eadd, <- Hx. f_equal. lia.
    + intros (i & Hi & Hx). destruct (decide (i < n)); [rewrite Hum in Hx by lia; done|].
      apply Hno. exists (i - n). split; [lia|]. rewrite Hu1, Eadd, <- Hx. f_equal. lia.
  - assert (n = len) as Hnl by lia. rewrite Hnl, Z.sub_diag in *. destruct fuel as [|fuel].
    { exfalso. rewrite HP in Hf. mlia. }
    exists 0, s1. split_and!; [done | done | ..].
    + intros x Hx. rewrite Hs1, decide_False; [done|]. intros Hin. apply (Hx (x - d)); [lia | auto].
    + intros _. split; [done|]. intros i x Hi Hx. rewrite Hum in Hx by lia. injection Hx as <-.
      rewrite Hs1, decide_True by lia. f_equal. lia.
    + intros (i & Hi & Hx). rewrite Hum in Hx by lia. done.
Qed.

(** *** Unmapping *)

(** The frame of an entry that uvmunmap may free. *)
Definition freeable (s : kst) (T : gmap (list Z) Z) (fl : list Z) (f : Z) : Prop :=
  page_ok s f /\ f ∉ fl /\ forall π, T !! π <> Some f.

Definition is_leaf (e : Z) : Prop := has e PTE_V = true /\ PTE_FLAGS e <> PTE_V.

Lemma kfree_frame s root T fl f :
  vmok s root T fl -> freeable s T fl f ->
  exists s', kfree f s = Ok tt s' /\ vmok s' root T (f :: fl) /\ same_out (pmem s) (pmem s') f /\
    kend s' = kend s /\ (forall va, entry (pmem s') T va = entry (pmem s) T va).
Proof.
  intros [Hf Hw Hdj] (Hok & Hnf & Hnt).
  destruct (kfree_ok s f fl Hf Hok Hnf) as (s' & E & F & Hso & Hk).
  assert (forall π p i, T !! π = Some p -> 0 <= i < 512 ->
     load64 (pmem s') (p + 8 * i) = load64 (pmem s) (p + 8 * i)) as Hrd.
  { intros π p i Hp Hi. apply (same_out_load64 _ _ f); [done|].
    destruct (slot_in p i f); auto; [by eapply page_ok_aligned, pt_page | by eapply page_ok_aligned |].
    intros ->. by apply Hnt in Hp. }
  exists s'. split_and!; auto.
  - split; [done | by eapply ptwf_ext |]. intros π p Hp. rewrite not_elem_of_cons.
    split; [intros ->; by apply Hnt in Hp | eauto].
  - intros va. by apply entry_ext.
Qed.

(** No byte outside the table pages and the frames [fs] changes. *)
Definition spares (s s' : kst) (T : gmap (list Z) Z) (fs : list Z) : Prop :=
  forall x, off_tables T x -> (forall f, f ∈ fs -> x < f \/ f + PGSIZE <= x) -> load8 (pmem s') x = load8 (pmem s) x.

Lemma unmap_one_ok s root T fl va (do_free : bool) :
  vmok s root T fl -> 0 <= va < MAXVA -> is_leaf (entry (pmem s) T va) ->
  (do_free = true -> freeable s T fl (PTE2PA (entry (pmem s) T va))) ->
  exists s', unmap_one root do_free va s = Ok tt s' /\
    vmok s' root T (if do_free then PTE2PA (entry (pmem s) T va) :: fl else fl) /\
    kend s' = kend s /\
    spares s s' T (if do_free then [PTE2PA (entry (pmem s) T va)] else []) /\
    forall va', 0 <= va' < 2 ^ 39 ->
      entry (pmem s') T va' = if same_page va' va then 0 else entry (pmem s) T va'.
Proof.
  assert (MAXVA = 2 ^ 38) as HM by done.
  intros Hv Hva [HV Hfl] Hfr. pose proof Hv as [Hf Hw _]. pose proof (fp_end _ _ Hf) as He.
  unfold unmap_one. erewrite bind_run by (by apply (walk_lookup s root T va)).
  assert (exists p0, T !! [PX 2 va; PX 1 va] = Some p0) as [p0 Hp0].
  { unfold entry in HV. destruct (T !! _); [eauto | done]. }
  unfold leaf_slot. rewrite Hp0.
  pose proof (page_ok_bound _ _ He (pt_page _ _ _ Hw _ _ Hp0)). pose proof (PX_range 0 va).
  destruct (Z.eqb_spec (p0 + 8 * PX 0 va) 0); [lia|]. cbv iota.
  unfold ldpte, gets. erewrite bind_run by reflexivity.
  assert (load64 (pmem s) (p0 + 8 * PX 0 va) = entry (pmem s) T va) as -> by (unfold entry; by rewrite Hp0).
  set (e := entry (pmem s) T va) in *. rewrite HV. cbn [negb].
  destruct (Z.eqb_spec (PTE_FLAGS e) PTE_V); [done|]. cbv iota.
  assert (exists s1, when do_free (kfree (PTE2PA e)) s = Ok tt s1 /\
    vmok s1 root T (if do_free then PTE2PA e :: fl else fl) /\ kend s1 = kend s /\
    spares s s1 T (if do_free then [PTE2PA e] else []) /\
    forall va, entry (pmem s1) T va = entry (pmem s) T va) as (s1 & E1 & V1 & K1 & S1 & N1).
  { destruct do_free; cbn [when]; [|by exists s].
    destruct (kfree_frame s root T fl (PTE2PA e) Hv (Hfr eq_refl)) as (s1 & ? & ? & Hso & ? & ?).
    exists s1. split_and!; try done. intros x _ Hx. apply Hso, Hx. by left. }
  rewrite (bind_run _ _ _ _ _ E1). unfold stpte, upd_mem, modify.
  destruct (set_leaf s1 root T _ va p0 0 V1 Hp0) as (V2 & S2 & N2); [lia|].
  eexists. split; [reflexivity|]. split_and!; [exact V2 | done | |].
  { intros x Hx Hf'. rewrite (S2 x Hx). by apply S1. }
  intros va' Hva'. rewrite N2 by done. by rewrite N1.
Qed.

(** The frames of [n] pages from [a]. *)
Definition frames (m : mem) (T : gmap (list Z) Z) (a n : Z) : list Z :=
  map (fun j => PTE2PA (entry m T (a + j * PGSIZE))) (seqZ 0 n).

Lemma frames_S m T a k :
  frames m T a (Z.of_nat (S k)) = PTE2PA (entry m T a) :: frames m T (a + PGSIZE) (Z.of_nat k).
Proof.
  unfold frames. rewrite Nat2Z.inj_succ, seqZ_cons by lia. cbn [map]. f_equal.
  { do 2 f_equal. lia. }
  rewrite Z.pred_succ. rewrite <- (fmap_S_seqZ 0 (Z.of_nat k)) || idtac.
  apply list_eq. intros i. rewrite !list_lookup_fmap.
  destruct (decide (i < k)%nat).
  - rewrite !lookup_seqZ_lt by lia. simpl. do 3 f_equal. lia.
  - rewrite !lookup_seqZ_ge by lia. done.
Qed.

Lemma unmap_loop_ok root T (do_free : bool) k : forall fuel s fl a,
  vmok s root T fl -> a mod PGSIZE = 0 -> 0 <= a -> a + Z.of_nat k * PGSIZE <= MAXVA ->
  (k < fuel)%nat ->
  (forall j, 0 <= j < Z.of_nat k -> is_leaf (entry (pmem s) T (a + j * PGSIZE))) ->
  (do_free = true -> NoDup (frames (pmem s) T a (Z.of_nat k)) /\
     forall f, f ∈ frames (pmem s) T a (Z.of_nat k) -> freeable s T fl f) ->
  exists s',
    pages_loop fuel a (a + Z.of_nat k * PGSIZE)
      (fun a => unmap_one root do_free a ;; ret (@None unit)) s = Ok None s' /\
    vmok s' root T (if do_free then rev (frames (pmem s) T a (Z.of_nat k)) ++ fl else fl) /\
    kend s' = kend s /\
    spares s s' T (if do_free then frames (pmem s) T a (Z.of_nat k) else []) /\
    forall va, 0 <= va < 2 ^ 39 ->
      entry (pmem s') T va = if in_pages a (Z.of_nat k) va then 0 else entry (pmem s) T va.
Proof.
  assert (PGSIZE = 4096) as HP by done. assert (MAXVA = 2 ^ 38) as HM by done.
  induction k as [|k IH]; intros fuel s fl a Hv Ha Ha0 Hmax Hfuel Hleaf Hfr;
    destruct fuel as [|fuel]; try lia; cbn [pages_loop].
  - destruct (Z.ltb_spec a (a + Z.of_nat 0 * PGSIZE)); [lia|]. exists s. split_and!; [done | by destruct do_free | done | done |].
    intros va Hva. unfold in_pages.
    destruct (Z.leb_spec (a / PGSIZE) (va / PGSIZE)), (Z.ltb_spec (va / PGSIZE) (a / PGSIZE + Z.of_nat 0)); done || lia.
  - destruct (Z.ltb_spec a (a + Z.of_nat (S k) * PGSIZE)); [|lia].
    assert (is_leaf (entry (pmem s) T a)) as Hl0.
    { replace a with (a + 0 * PGSIZE) by lia. apply Hleaf. lia. }
    destruct (unmap_one_ok s root T fl a do_free Hv) as (s1 & E1 & V1 & K1 & S1 & N1); [lia | done | |].
    { intros Hd. destruct (Hfr Hd) as [_ Hall]. apply Hall. rewrite frames_S. by left. }
    assert ((a + PGSIZE) / PGSIZE = a / PGSIZE + 1) as Ediv.
    { rewrite HP. replace (a + 4096) with (a + 1 * 4096) by lia. by rewrite Z.div_add by lia. }
    assert (forall j, 0 <= j < Z.of_nat k ->
              entry (pmem s1) T (a + PGSIZE + j * PGSIZE) = entry (pmem s) T (a + PGSIZE + j * PGSIZE)) as Hrest.
    { intros j Hj. rewrite N1 by lia. unfold same_page.
      destruct (Z.eqb_spec ((a + PGSIZE + j * PGSIZE) / PGSIZE) (a / PGSIZE)) as [E|]; [|done].
      rewrite HP in E. replace (a + 4096 + j * 4096) with (a + (1 + j) * 4096) in E by lia.
      rewrite Z.div_add in E by lia. lia. }
    assert (frames (pmem s1) T (a + PGSIZE) (Z.of_nat k) = frames (pmem s) T (a + PGSIZE) (Z.of_nat k)) as Efr.
    { unfold frames. apply map_ext_in. intros j Hj%list_elem_of_In%elem_of_seqZ. rewrite Hrest by lia. done. }
    unfold bind at 1. erewrite bind_run by exact E1. unfold ret at 1. cbv iota.
    rewrite (u64_id (a + PGSIZE)) by lia.
    replace (a + Z.of_nat (S k) * PGSIZE) with (a + PGSIZE + Z.of_nat k * PGSIZE) by lia.
    destruct (IH fuel s1 _ (a + PGSIZE) V1) as (s2 & E2 & V2 & K2 & S2 & N2); try lia.
    { rewrite <- Ha, HP. mlia. }
    { intros j Hj. rewrite Hrest by done. replace (a + PGSIZE + j * PGSIZE) with (a + (1 + j) * PGSIZE) by lia.
      apply Hleaf. lia. }
    { intros Hd. destruct (Hfr Hd) as [Hnd Hall]. rewrite Efr. rewrite frames_S in Hnd, Hall.
      apply NoDup_cons in Hnd as [Hn0 Hnd]. split; [done|]. intros f Hf.
      destruct (Hall f) as (Hok & Hnf & Hnt); [by right|]. rewrite Hd. split_and!; auto.
      - unfold page_ok. by rewrite K1.
      - rewrite not_elem_of_cons. split; [intros ->; done | done]. }
    exists s2. split_and!; [exact E2 | | congruence | |].
    2: { rewrite Efr in S2. rewrite frames_S. intros x Hx Hf'. rewrite S2, S1; [done | done | | done |].
      - destruct do_free; [|done]. intros f ->%list_elem_of_singleton. apply Hf'. by left.
      - destruct do_free; [|done]. intros f Hin. apply Hf'. by right. }
    + rewrite Efr in V2. rewrite frames_S. destruct do_free; [|done].
      simpl rev. rewrite <- app_assoc. exact V2.
    + intros va Hva. rewrite N2, N1 by lia. unfold in_pages, same_page. rewrite Ediv.
      destruct (Z.leb_spec (a / PGSIZE + 1) (va / PGSIZE)), (Z.leb_spec (a / PGSIZE) (va / PGSIZE)),
        (Z.ltb_spec (va / PGSIZE) (a / PGSIZE + 1 + Z.of_nat k)),
        (Z.ltb_spec (va / PGSIZE) (a / PGSIZE + Z.of_nat (S k))),
        (Z.eqb_spec (va / PGSIZE) (a / PGSIZE)); cbn [andb]; try lia; done.
Qed.

(** ** A concrete instance *)

(** A page of zeros is an empty page table. *)
Lemma empty_ptwf s a :
  page_ok s a -> (forall k, 0 <= k < 512 -> load64 (pmem s) (a + 8 * k) = 0) -> ptwf s a {[ [] := a ]}.
Proof.
  intros Ha Hz. split.
  - apply lookup_singleton_eq.
  - intros π p Hp. by apply lookup_singleton_Some in Hp as [<- <-].
  - intros π π' p H1 H2. apply lookup_singleton_Some in H1 as [<- _], H2 as [<- _]. done.
  - intros π p k Hp _ Hk. apply lookup_singleton_Some in Hp as [<- <-].
    rewrite lookup_singleton_ne by done. by rewrite Hz.
  - intros x y p Hp. by apply lookup_singleton_Some in Hp as [? _].
  - intros π p Hp. apply lookup_singleton_Some in Hp as [<- _]. by split; [simpl; lia|].
Qed.

(** An empty page table exists, with pages to spare. *)
Lemma new_table s l :
  free_pages s l -> l <> [] ->
  exists s' root fl, uvmcreate s = Ok root s' /\ l = root :: fl /\
    vmok s' root {[ [] := root ]} fl /\ kend s' = kend s /\
    (forall va, entry (pmem s') {[ [] := root ]} va = 0).
Proof.
  intros Hf Hl. destruct l as [|a l]; [done|].
  destruct (kalloc_some s a l Hf) as (s1 & E1 & F1 & S1 & _ & K1 & P1 & N1 & D1).
  unfold uvmcreate. rewrite (bind_run _ _ _ _ _ E1). destruct (Z.eqb_spec a 0); [done|]. cbv iota.
  unfold upd_mem. erewrite bind_run by reflexivity. set (s2 := set_mem _ s1).
  pose proof (page_ok_aligned _ _ P1) as Ha.
  assert (forall k, 0 <= k < 512 -> load64 (pmem s2) (a + 8 * k) = 0) as Hz.
  { intros k Hk. apply load64_zero. intros x Hx. unfold s2. cbn [pmem set_mem].
    rewrite memset_load8, decide_True; [done | unfold PGSIZE in *; lia]. }
  exists s2, a, l. split_and!; [done | done | | done |].
  - split.
    + destruct F1 as [Hc Hn Ho He]. split; [|done | exact Ho | done].
      apply (chain_same_out s1 _ _ _ a Ho Ha D1 (memset_same_out _ _ _) Hc).
    + apply empty_ptwf; [unfold page_ok; cbn; by rewrite K1 | done].
    + intros π p Hp. by apply lookup_singleton_Some in Hp as [_ <-].
  - intros va. unfold entry. by rewrite lookup_singleton_ne.
Qed.

(** A kernel with sixteen free pages, and an empty table. *)
Lemma sample_vm :
  exists s root fl, vmok s root {[ [] := root ]} fl /\ length fl = 15%nat /\
    kend s = 0x87ff0000 /\ forall va, entry (pmem s) {[ [] := root ]} va = 0.
Proof.
  set (k := Kst ∅ 0 0x87ff0000). set (ps := range_pages 0x87ff0000 PHYSTOP).
  destruct (for_kfree k ps []) as (s1 & _ & F1 & K1 & _).
  - split; [done | apply NoDup_nil_2 | intros a Ha; by apply elem_of_nil in Ha | done].
  - rewrite app_nil_r. apply NoDup_range_pages.
  - intros a Ha. unfold ps in Ha. rewrite elem_of_range_pages in Ha by (unfold PGSIZE; lia).
    unfold page_ok, k, PGSIZE in *. cbn [kend]. lia.
  - assert (length (rev ps ++ []) = 16%nat) as Hlen by (vm_compute; reflexivity).
    destruct (new_table s1 _ F1) as (s2 & root & fl & _ & El & V & K2 & N); [by destruct (rev ps)|].
    exists s2, root, fl. rewrite El in Hlen. split_and!; [done | simpl in Hlen; lia | | done].
    by rewrite K2, K1.
Qed.

(** ... and the same with the user page 0 mapped to the frame 0x1000. *)
Lemma sample_user :
  exists s root T fl, vmok s root T fl /\
    (forall x, x < 0x87ff0000 -> off_tables T x) /\
    (forall i, 0 <= i < PGSIZE -> umap (pmem s) T i = Some (0x1000 + i)) /\
    forall va, 0 <= va < PGSIZE -> entry (pmem s) T va = pte_of 0x1000 (Z.lor PTE_R PTE_U).
Proof.
  destruct sample_vm as (s & root & fl & V & Hlen & Hk & N).
  assert (PGSIZE = 4096) as HP by done.
  destruct (mappages_ok s root _ fl 0 PGSIZE 0x1000 (Z.lor PTE_R PTE_U) V)
    as (r & s' & T' & fl' & E & G & L & Hm); try (unfold PGSIZE, MAXVA; lia).
  { intros va _ _. by rewrite N. }
  change ((0 + PGSIZE - 1) / PGSIZE - 0 / PGSIZE + 1) with 1 in *.
  destruct Hm as [[-> Hm]|(_ & -> & _)]; [|simpl in L; lia].
  pose proof (gr_ok _ _ _ _ _ _ _ G) as [Hf Hw _].
  assert (forall va, 0 <= va < PGSIZE -> entry (pmem s') T' va = pte_of 0x1000 (Z.lor PTE_R PTE_U)) as He.
  { intros va Hva. rewrite Hm by lia. unfold in_pages. rewrite HP in *.
    assert (va / 4096 = 0) as -> by mlia. done. }
  exists s', root, T', fl'. split_and!; [apply G | | | done].
  - intros x Hx π p Hp. left. destruct (pt_page _ _ _ Hw _ _ Hp) as [_ [Hk' _]].
    rewrite (gr_end _ _ _ _ _ _ _ G), Hk in Hk'. lia.
  - intros i Hi. unfold umap. rewrite He by done. rewrite HP in *.
    destruct (Z.ltb_spec i MAXVA); [|unfold MAXVA in *; lia].
    rewrite Z.mod_small by lia. reflexivity.
Qed.

(** ** Properties *)

(** C13: mappages never runs out of loop fuel and never panics when no page of
    the range is mapped. It returns 0 with exactly the pages of the range
    mapped to consecutive frames with the given permissions, every other
    mapping as before; or it returns -1 when the allocator ran out of pages,
    with the mappings outside the range as before. Either way the tables stay
    well formed, distinct from the free pages, no byte outside table pages
    changes, and at most two pages are allocated per page mapped. *)
Theorem mappages_correct s root T fl va size pa perm :
  vmok s root T fl -> 0 <= va -> 0 < size -> va + size <= MAXVA -> 0 <= pa -> pa + size < 2 ^ 63 ->
  let n := (va + size - 1) / PGSIZE - va / PGSIZE + 1 in
  (forall va', 0 <= va' < 2 ^ 39 -> in_pages va n va' = true ->
     has (entry (pmem s) T va') PTE_V = false) ->
  exists r s' T' fl', mappages root va size pa perm s = Ok r s' /\
    vmok s' root T' fl' /\ T ⊆ T' /\ kept s s' T' /\
    Z.of_nat (length fl) <= Z.of_nat (length fl') + 2 * n /\
    mapped s T s' T' fl' r va n pa perm.
Proof.
  intros Hv Hva Hsz Hmax Hpa Hpa2 n Hfree.
  destruct (mappages_ok s root T fl va size pa perm Hv Hva Hsz Hmax Hpa Hpa2 Hfree)
    as (r & s' & T' & fl' & E & [] & Hlen & Hm). exists r, s', T', fl'. by split_and!.
Qed.

(** After a page has been mapped, walkaddr returns its frame when the
    mapping has PTE_U, and 0 when it has not: user code cannot reach it. *)
Theorem map_then_walkaddr s root T fl va pa perm :
  vmok s root T fl -> 0 <= va -> va + PGSIZE <= MAXVA -> va mod PGSIZE = 0 ->
  pa mod PGSIZE = 0 -> 0 <= pa < 2 ^ 56 -> 0 <= perm < 1024 ->
  has (entry (pmem s) T va) PTE_V = false ->
  exists r s', mappages root va PGSIZE pa perm s = Ok r s' /\
    (r = 0 -> walkaddr root va s' = Ok (if has perm PTE_U then pa else 0) s') /\
    (r = 0 \/ r = -1).
Proof.
  assert (PGSIZE = 4096) as HP by done. assert (MAXVA = 2 ^ 38) as HM by done.
  intros Hv Hva Hmax Hal Hpal Hpa Hperm Hfree.
  assert ((va + PGSIZE - 1) / PGSIZE - va / PGSIZE + 1 = 1) as En by (rewrite HP in *; mlia).
  destruct (mappages_ok s root T fl va PGSIZE pa perm Hv) as (r & s' & T' & fl' & E & G & _ & Hm);
    try lia.
  { rewrite En. unfold in_pages. intros va' Hva' Hin. bool_to_prop.
    rewrite <- Hfree. f_equal. unfold entry. rewrite !(PX_page va' va) by lia. done. }
  rewrite En in Hm. exists r, s'. split; [done|].
  destruct Hm as [[-> Hm]|(-> & _)]; [|split; [done | by right]]. split; [|by left]. intros _.
  rewrite (walkaddr_run s' root T' fl' va (gr_ok _ _ _ _ _ _ _ G) Hva).
  destruct (Z.ltb_spec va MAXVA); [|lia]. cbv zeta. rewrite Hm by lia. unfold in_pages.
  rewrite Z.leb_refl. destruct (Z.ltb_spec (va / PGSIZE) (va / PGSIZE + 1)); [|lia]. cbn [andb].
  rewrite Z.sub_diag, Z.mul_0_l, Z.add_0_r. unfold pte_of.
  rewrite u64_id by (repeat apply lor_range; [apply u64_range | lia | unfold PTE_V; lia]).
  rewrite has_lor_V. cbn [andb].
  assert (has (Z.lor (Z.lor (PA2PTE pa) perm) PTE_V) PTE_U = has perm PTE_U) as ->.
  { unfold has, nz. do 2 f_equal. rewrite !Z.land_lor_distr_l.
    change (Z.land PTE_V PTE_U) with 0. rewrite Z.lor_0_r.
    assert (Z.land (PA2PTE pa) PTE_U = 0) as ->; [|done].
    unfold PA2PTE. rewrite u64_id.
    - apply Z.bits_inj'. intros i Hi. rewrite Z.land_spec, Z.bits_0.
      destruct (decide (i < 10)); [by rewrite Z.shiftl_spec_low by lia|].
      unfold PTE_U. rewrite andb_false_intro2; [done|]. apply Z.bits_above_log2; [lia|]. simpl. lia.
    - rewrite Z.shiftl_mul_pow2, Z.shiftr_div_pow2 by lia. mlia. }
  rewrite <- Z.lor_assoc, PTE2PA_flags; [done | done | done |].
  assert (Z.lor perm PTE_V = Z.lor perm PTE_V mod 1024) as ->; [|apply Z.mod_pos_bound; lia].
  change 1024 with (2 ^ 10). rewrite <- Z.land_ones, Z.land_lor_distr_l, !Z.land_ones by lia.
  rewrite !Z.mod_small; [done | unfold PTE_V; lia..].
Qed.

(** Uvmunmap of mapped, page-aligned pages clears exactly their entries
    and, when told to, gives exactly their frames back to the allocator. *)
Theorem uvmunmap_correct s root T fl va n (do_free : bool) :
  vmok s root T fl -> va mod PGSIZE = 0 -> 0 <= va -> 0 <= n -> va + n * PGSIZE <= MAXVA ->
  (forall j, 0 <= j < n -> is_leaf (entry (pmem s) T (va + j * PGSIZE))) ->
  (do_free = true -> NoDup (frames (pmem s) T va n) /\
     forall f, f ∈ frames (pmem s) T va n -> freeable s T fl f) ->
  exists s', uvmunmap root va n do_free s = Ok tt s' /\
    vmok s' root T (if do_free then rev (frames (pmem s) T va n) ++ fl else fl) /\
    forall va', 0 <= va' < 2 ^ 39 ->
      entry (pmem s') T va' = if in_pages va n va' then 0 else entry (pmem s) T va'.
Proof.
  assert (PGSIZE = 4096) as HP by done. assert (MAXVA = 2 ^ 38) as HM by done.
  intros Hv Hal Hva Hn Hmax Hleaf Hfr. unfold uvmunmap. rewrite Hal. change (nz 0) with false. cbv iota.
  rewrite u64_id by lia. unfold for_pages.
  assert ((va + n * PGSIZE - va + PGSIZE - 1) / PGSIZE = n) as -> by (rewrite HP; mlia).
  assert (n = Z.of_nat (Z.to_nat n)) as En by lia.
  destruct (unmap_loop_ok root T do_free (Z.to_nat n) (S (Z.to_nat n)) s fl va Hv) as (s' & E & V & _ & _ & N);
    rewrite <- ?En; auto.
  rewrite <- En in *. rewrite (bind_run _ _ _ _ _ E). exists s'. done.
Qed.

(** Copyin returns, without running out of loop fuel: 0 when every user
    byte is in a page mapped for user access, having copied exactly the bytes
    the user addresses translate to, and -1 when some byte is not. No byte
    outside the destination changes. *)
Theorem copyin_correct s root T fl dst srcva len :
  vmok s root T fl -> 0 <= dst -> dst + len < 2 ^ 63 -> 0 <= srcva -> 0 <= len ->
  srcva + len < 2 ^ 39 ->
  (forall x, dst <= x < dst + len -> off_tables T x) ->
  (forall i x, 0 <= i < len -> umap (pmem s) T (srcva + i) = Some x -> x < dst \/ dst + len <= x) ->
  exists r s', copyin root dst srcva len s = Ok r s' /\
    (forall x, x < dst \/ dst + len <= x -> load8 (pmem s') x = load8 (pmem s) x) /\
    ((forall i, 0 <= i < len -> is_Some (umap (pmem s) T (srcva + i))) ->
       r = 0 /\ forall i x, 0 <= i < len -> umap (pmem s) T (srcva + i) = Some x ->
         load8 (pmem s') (dst + i) = load8 (pmem s) x) /\
    ((exists i, 0 <= i < len /\ umap (pmem s) T (srcva + i) = None) -> r = -1).
Proof.
  assert (PGSIZE = 4096) as HP by done.
  intros [Hf Hw _] Hd Hdl Hs Hl Hsl Hoff Hsrc.
  destruct (copyin_loop_ok root T (copy_fuel len) s dst srcva len Hw (fp_end _ _ Hf))
    as (r & s' & E & _ & H); auto.
  - unfold copy_fuel. rewrite HP. rewrite Z2Nat.id by mlia. mlia.
  - exists r, s'. done.
Qed.

(** C18: copyout returns, without running out of loop fuel: 0 when every user
    address is in a page mapped for user access, having stored each byte of
    the kernel buffer at the translation of its user address, and -1 when some
    address is not. No byte changes that no user address of the range
    translates to. *)
Theorem copyout_correct s root T fl dstva src len :
  vmok s root T fl -> 0 <= src -> src + len < 2 ^ 63 -> 0 <= dstva -> 0 <= len ->
  dstva + len < 2 ^ 39 ->
  (forall i x, 0 <= i < len -> umap (pmem s) T (dstva + i) = Some x ->
     off_tables T x /\ (x < src \/ src + len <= x) /\
     forall j, 0 <= j < len -> j <> i -> umap (pmem s) T (dstva + j) <> Some x) ->
  exists r s', copyout root dstva src len s = Ok r s' /\
    (forall x, (forall i, 0 <= i < len -> umap (pmem s) T (dstva + i) <> Some x) ->
       load8 (pmem s') x = load8 (pmem s) x) /\
    ((forall i, 0 <= i < len -> is_Some (umap (pmem s) T (dstva + i))) ->
       r = 0 /\ forall i x, 0 <= i < len -> umap (pmem s) T (dstva + i) = Some x ->
         load8 (pmem s') x = load8 (pmem s) (src + i)) /\
    ((exists i, 0 <= i < len /\ umap (pmem s) T (dstva + i) = None) -> r = -1).
Proof.
  assert (PGSIZE = 4096) as HP by done.
  intros [Hf Hw _] Hd Hdl Hs Hl Hsl Hdst.
  destruct (copyout_loop_ok root T (copy_fuel len) s dstva src len Hw (fp_end _ _ Hf))
    as (r & s' & E & _ & H); auto.
  - unfold copy_fuel. rewrite HP. rewrite Z2Nat.id by mlia. mlia.
  - exists r, s'. done.
Qed.

Lemma mappages_correct_witness :
  exists s root T fl, vmok s root T fl /\
  exists r s' T' fl', mappages root 0x3000 0x2000 0x1000 PTE_U s = Ok r s' /\
    vmok s' root T' fl' /\ T ⊆ T' /\ kept s s' T' /\
    Z.of_nat (length fl) <= Z.of_nat (length fl') + 2 * 2 /\
    mapped s T s' T' fl' r 0x3000 2 0x1000 PTE_U.
Proof.
  destruct sample_vm as (s & root & fl & V & _ & _ & N). exists s, root, {[ [] := root ]}, fl.
  split; [exact V|].
  apply (mappages_correct s root _ fl 0x3000 0x2000 0x1000 PTE_U V); try reflexivity;
    try (unfold MAXVA; lia). intros va _ _. by rewrite N.
Defined.

Lemma map_then_walkaddr_witness :
  exists s root, exists r s', mappages root 0x3000 PGSIZE 0x5000 (Z.lor PTE_R PTE_U) s = Ok r s' /\
    (r = 0 -> walkaddr root 0x3000 s' = Ok 0x5000 s') /\ (r = 0 \/ r = -1).
Proof.
  destruct sample_vm as (s & root & fl & V & _ & _ & N). exists s, root.
  apply (map_then_walkaddr s root _ fl 0x3000 0x5000 (Z.lor PTE_R PTE_U) V); try reflexivity;
    try (unfold MAXVA, PGSIZE; simpl; lia). vm_compute. split; [discriminate | reflexivity].
Defined.

Lemma uvmunmap_correct_witness :
  exists s root T fl, is_leaf (entry (pmem s) T 0) /\
  exists s', uvmunmap root 0 1 false s = Ok tt s' /\ vmok s' root T fl /\
    forall va', 0 <= va' < 2 ^ 39 ->
      entry (pmem s') T va' = if in_pages 0 1 va' then 0 else entry (pmem s) T va'.
Proof.
  destruct sample_user as (s & root & T & fl & V & _ & _ & He).
  assert (is_leaf (entry (pmem s) T 0)) as Hl.
  { rewrite (He 0) by (unfold PGSIZE; lia). split; [reflexivity | discriminate]. }
  exists s, root, T, fl. split; [exact Hl|].
  apply (uvmunmap_correct s root T fl 0 1 false V); try reflexivity; try (unfold MAXVA, PGSIZE; lia).
  intros j Hj. assert (j = 0) as -> by lia. exact Hl.
Defined.

Lemma copyin_correct_witness :
  exists s root T, umap (pmem s) T 4 = Some 0x1004 /\
  exists r s', copyin root 0x5000 4 100 s = Ok r s' /\
    (forall x, x < 0x5000 \/ 0x5000 + 100 <= x -> load8 (pmem s') x = load8 (pmem s) x) /\
    ((forall i, 0 <= i < 100 -> is_Some (umap (pmem s) T (4 + i))) ->
       r = 0 /\ forall i x, 0 <= i < 100 -> umap (pmem s) T (4 + i) = Some x ->
         load8 (pmem s') (0x5000 + i) = load8 (pmem s) x) /\
    ((exists i, 0 <= i < 100 /\ umap (pmem s) T (4 + i) = None) -> r = -1).
Proof.
  destruct sample_user as (s & root & T & fl & V & Hoff & Hu & _). exists s, root, T.
  split; [rewrite (Hu 4); [reflexivity | unfold PGSIZE; lia]|].
  apply (copyin_correct s root T fl 0x5000 4 100 V); try lia.
  - intros x Hx. apply Hoff. lia.
  - intros i x Hi. rewrite (Hu (4 + i)) by (unfold PGSIZE; lia). intros [= <-]. lia.
Defined.

Lemma copyout_correct_witness :
  exists s root T, umap (pmem s) T 4 = Some 0x1004 /\
  exists r s', copyout root 4 0x5000 100 s = Ok r s' /\
    (forall x, (forall i, 0 <= i < 100 -> umap (pmem s) T (4 + i) <> Some x) ->
       load8 (pmem s') x = load8 (pmem s) x) /\
    ((forall i, 0 <= i < 100 -> is_Some (umap (pmem s) T (4 + i))) ->
       r = 0 /\ forall i x, 0 <= i < 100 -> umap (pmem s) T (4 + i) = Some x ->
         load8 (pmem s') x = load8 (pmem s) (0x5000 + i)) /\
    ((exists i, 0 <= i < 100 /\ umap (pmem s) T (4 + i) = None) -> r = -1).
Proof.
  destruct sample_user as (s & root & T & fl & V & Hoff & Hu & _). exists s, root, T.
  split; [rewrite (Hu 4); [reflexivity | unfold PGSIZE; lia]|].
  apply (copyout_correct s root T fl 4 0x5000 100 V); try lia.
  intros i x Hi. rewrite (Hu (4 + i)) by (unfold PGSIZE; lia). intros [= <-]. split_and!.
  - apply Hoff. lia.
  - lia.
  - intros j Hj Hne. rewrite (Hu (4 + j)) by (unfold PGSIZE; lia). intros [= E]. lia.
Defined.
