(* ===== verification/Proc.v ===== *)
(** * proc.c: processes and the scheduler

    The process table, over the page tables of [Vm] and an interface to the
    file system. The spin locks make each operation atomic and are not part of
    the state, except in the checks of [sched]. A context switch is the end of
    a definition: [sched] is cut at its calls of swtch, and [p_resume] says
    where the process goes on when the scheduler switches back to it. Console
    output is not modelled. *)

From stdpp Require Import base gmap list strings.
From Stdlib Require Import ZArith Lia.
From S2P Require Import Prelude Mem Cstring Kalloc Vm.

Inductive procstate : Type := UNUSED | USED | SLEEPING | RUNNABLE | RUNNING | ZOMBIE.

#[export] Instance procstate_eq_dec : EqDecision procstate.
Proof. solve_decision. Defined.

(** Where a process that is not running will go on: at forkret, or after the
    first or the second swtch of sched. *)
Inductive resume : Type := AtForkret | AtSchedEarly | AtSched.

(** struct proc. A null parent is [None]; [p_ctx_sp] stands for the context,
    whose [ra] is [p_resume]. *)
Record proc : Type := Proc {
  p_state : procstate;
  p_chan : Z;
  p_killed : Z;
  p_xstate : Z;
  p_pid : Z;
  p_ticks : Z;
  p_last : Z;                 (* last_scheduled_tick *)
  p_avail : Z;                (* avialable_tokens *)
  p_bucket : Z;               (* token_bucket *)
  p_time : Z;
  p_pticks : Z;
  p_parent : option nat;
  p_kstack : Z;
  p_sz : Z;
  p_pagetable : Z;
  p_trapframe : Z;
  p_resume : resume;
  p_ctx_sp : Z;
  p_ofile : list Z;           (* struct file *ofile[NOFILE], 0 is null *)
  p_cwd : Z;                  (* struct inode * *)
  p_name : list Z;            (* char name[16] *)
}.

Definition NOFILE : Z := 16.
Definition zero_proc : proc :=
  Proc UNUSED 0 0 0 0 0 0 0 0 0 0 None 0 0 0 0 AtForkret 0 (replicate 16 0) 0 (replicate 16 0).

(** The struct shrimpy_t: the processes by index, the seven addresses. *)
Record shrimpy_t : Type := ShrimpySt {
  sh_P : option nat;
  sh_NP : option nat;
  sh_vas : list Z;
  sh_pas : list Z;
}.

(** The kernel around the process table; [F] is the file system. *)
Record pk (F : Type) : Type := Pk {
  procs : list proc;          (* proc[NPROC] *)
  nextpid : Z;
  initproc : option nat;
  cur : option nat;           (* myproc() *)
  ticks : Z;                  (* a uint *)
  kmem : kst;
  shr : option shrimpy_t;     (* Shrimpy *)
  pages7 : list Z;            (* fry_page, shrimp_page, ..., context_page *)
  trampoline : Z;             (* the linker's symbol *)
  proc_addr : Z;              (* the address of proc[0] *)
  fsys : F;
}.
Arguments Pk {F}.
Arguments procs {F}.
Arguments nextpid {F}.
Arguments initproc {F}.
Arguments cur {F}.
Arguments ticks {F}.
Arguments kmem {F}.
Arguments shr {F}.
Arguments pages7 {F}.
Arguments trampoline {F}.
Arguments proc_addr {F}.
Arguments fsys {F}.

(** What proc.c asks of file.c, fs.c and log.c; pointers are numbers. *)
Class FsEnv (F : Type) : Type := {
  fe_filedup : Z -> M F Z;
  fe_fileclose : Z -> M F unit;
  fe_idup : Z -> M F Z;
  fe_iput : Z -> M F unit;
  fe_begin_op : M F unit;
  fe_end_op : M F unit;
  fe_namei_root : M F Z;      (* namei("/") *)
}.

(** Setters. *)
Definition set_state (x : procstate) (p : proc) : proc :=
  Proc x (p_chan p) (p_killed p) (p_xstate p) (p_pid p) (p_ticks p) (p_last p) (p_avail p)
    (p_bucket p) (p_time p) (p_pticks p) (p_parent p) (p_kstack p) (p_sz p) (p_pagetable p)
    (p_trapframe p) (p_resume p) (p_ctx_sp p) (p_ofile p) (p_cwd p) (p_name p).
Definition set_chan (x : Z) (p : proc) : proc :=
  Proc (p_state p) x (p_killed p) (p_xstate p) (p_pid p) (p_ticks p) (p_last p) (p_avail p)
    (p_bucket p) (p_time p) (p_pticks p) (p_parent p) (p_kstack p) (p_sz p) (p_pagetable p)
    (p_trapframe p) (p_resume p) (p_ctx_sp p) (p_ofile p) (p_cwd p) (p_name p).
Definition set_killed (x : Z) (p : proc) : proc :=
  Proc (p_state p) (p_chan p) x (p_xstate p) (p_pid p) (p_ticks p) (p_last p) (p_avail p)
    (p_bucket p) (p_time p) (p_pticks p) (p_parent p) (p_kstack p) (p_sz p) (p_pagetable p)
    (p_trapframe p) (p_resume p) (p_ctx_sp p) (p_ofile p) (p_cwd p) (p_name p).
Definition set_xstate (x : Z) (p : proc) : proc :=
  Proc (p_state p) (p_chan p) (p_killed p) x (p_pid p) (p_ticks p) (p_last p) (p_avail p)
    (p_bucket p) (p_time p) (p_pticks p) (p_parent p) (p_kstack p) (p_sz p) (p_pagetable p)
    (p_trapframe p) (p_resume p) (p_ctx_sp p) (p_ofile p) (p_cwd p) (p_name p).
Definition set_pid (x : Z) (p : proc) : proc :=
  Proc (p_state p) (p_chan p) (p_killed p) (p_xstate p) x (p_ticks p) (p_last p) (p_avail p)
    (p_bucket p) (p_time p) (p_pticks p) (p_parent p) (p_kstack p) (p_sz p) (p_pagetable p)
    (p_trapframe p) (p_resume p) (p_ctx_sp p) (p_ofile p) (p_cwd p) (p_name p).
(** ticks, last_scheduled_tick, avialable_tokens, token_bucket, time, pticks *)
Definition set_sched (ticks last avail bucket time pticks : Z) (p : proc) : proc :=
  Proc (p_state p) (p_chan p) (p_killed p) (p_xstate p) (p_pid p) ticks last avail
    bucket time pticks (p_parent p) (p_kstack p) (p_sz p) (p_pagetable p)
    (p_trapframe p) (p_resume p) (p_ctx_sp p) (p_ofile p) (p_cwd p) (p_name p).
Definition set_parent (x : option nat) (p : proc) : proc :=
  Proc (p_state p) (p_chan p) (p_killed p) (p_xstate p) (p_pid p) (p_ticks p) (p_last p) (p_avail p)
    (p_bucket p) (p_time p) (p_pticks p) x (p_kstack p) (p_sz p) (p_pagetable p)
    (p_trapframe p) (p_resume p) (p_ctx_sp p) (p_ofile p) (p_cwd p) (p_name p).
(** kstack, sz, pagetable, trapframe *)
Definition set_space (kstack sz pt tf : Z) (p : proc) : proc :=
  Proc (p_state p) (p_chan p) (p_killed p) (p_xstate p) (p_pid p) (p_ticks p) (p_last p) (p_avail p)
    (p_bucket p) (p_time p) (p_pticks p) (p_parent p) kstack sz pt
    tf (p_resume p) (p_ctx_sp p) (p_ofile p) (p_cwd p) (p_name p).
Definition set_context (r : resume) (sp : Z) (p : proc) : proc :=
  Proc (p_state p) (p_chan p) (p_killed p) (p_xstate p) (p_pid p) (p_ticks p) (p_last p) (p_avail p)
    (p_bucket p) (p_time p) (p_pticks p) (p_parent p) (p_kstack p) (p_sz p) (p_pagetable p)
    (p_trapframe p) r sp (p_ofile p) (p_cwd p) (p_name p).
(** ofile, cwd, name *)
Definition set_files (ofile : list Z) (cwd : Z) (name : list Z) (p : proc) : proc :=
  Proc (p_state p) (p_chan p) (p_killed p) (p_xstate p) (p_pid p) (p_ticks p) (p_last p) (p_avail p)
    (p_bucket p) (p_time p) (p_pticks p) (p_parent p) (p_kstack p) (p_sz p) (p_pagetable p)
    (p_trapframe p) (p_resume p) (p_ctx_sp p) ofile cwd name.

Definition set_bucket (b : Z) (p : proc) : proc :=
  set_sched (p_ticks p) (p_last p) (p_avail p) b (p_time p) (p_pticks p) p.
Definition set_last (t : Z) (p : proc) : proc :=
  set_sched (p_ticks p) t (p_avail p) (p_bucket p) (p_time p) (p_pticks p) p.
Definition set_avail (a : Z) (p : proc) : proc :=
  set_sched (p_ticks p) (p_last p) a (p_bucket p) (p_time p) (p_pticks p) p.
Definition set_ticks (t : Z) (p : proc) : proc :=
  set_sched t (p_last p) (p_avail p) (p_bucket p) (p_time p) (p_pticks p) p.
Definition set_time (t : Z) (p : proc) : proc :=
  set_sched (p_ticks p) (p_last p) (p_avail p) (p_bucket p) t (p_pticks p) p.
Definition set_pticks (t : Z) (p : proc) : proc :=
  set_sched (p_ticks p) (p_last p) (p_avail p) (p_bucket p) (p_time p) t p.
Definition set_sz (x : Z) (p : proc) : proc :=
  set_space (p_kstack p) x (p_pagetable p) (p_trapframe p) p.
Definition set_pagetable (x : Z) (p : proc) : proc :=
  set_space (p_kstack p) (p_sz p) x (p_trapframe p) p.
Definition set_trapframe (x : Z) (p : proc) : proc :=
  set_space (p_kstack p) (p_sz p) (p_pagetable p) x p.
Definition set_ofile (x : list Z) (p : proc) : proc := set_files x (p_cwd p) (p_name p) p.
Definition set_cwd (x : Z) (p : proc) : proc := set_files (p_ofile p) x (p_name p) p.
Definition set_name (x : list Z) (p : proc) : proc := set_files (p_ofile p) (p_cwd p) x p.

(** safestrcpy on char arrays: copies up to [n-1] bytes of [src]; after a NUL
    it stores one more. *)
Fixpoint nul_at (src : list Z) (k : nat) : option nat :=
  match src, k with
  | c :: src, S k => if c =? 0 then Some 0%nat else S <$> nul_at src k
  | _, _ => None
  end.
Definition safestrcpy_bytes (dst src : list Z) (n : nat) : list Z :=
  match nul_at src (n - 1) with
  | Some k => take k src ++ [0; 0] ++ drop (k + 2) dst
  | None => take (n - 1) src ++ [0] ++ drop n dst
  end.

Section proc.
Context {F : Type} `{FsEnv F}.

Definition PM (A : Type) : Type := M (pk F) A.

Definition upd_procs (f : list proc -> list proc) : PM unit :=
  modify (fun s => Pk (f (procs s)) (nextpid s) (initproc s) (cur s) (ticks s) (kmem s) (shr s)
                      (pages7 s) (trampoline s) (proc_addr s) (fsys s)).
Definition upd_proc (i : nat) (f : proc -> proc) : PM unit := upd_procs (alter f i).
Definition set_shr (x : option shrimpy_t) : PM unit :=
  modify (fun s => Pk (procs s) (nextpid s) (initproc s) (cur s) (ticks s) (kmem s) x
                      (pages7 s) (trampoline s) (proc_addr s) (fsys s)).
Definition set_page7 (i : nat) (x : Z) : PM unit :=
  modify (fun s => Pk (procs s) (nextpid s) (initproc s) (cur s) (ticks s) (kmem s) (shr s)
                      (<[i := x]> (pages7 s)) (trampoline s) (proc_addr s) (fsys s)).
Definition kmem_lens : lens (pk F) kst :=
  Lens kmem (fun k s => Pk (procs s) (nextpid s) (initproc s) (cur s) (ticks s) k (shr s)
                           (pages7 s) (trampoline s) (proc_addr s) (fsys s)).
Definition fs_lens : lens (pk F) F :=
  Lens fsys (fun x s => Pk (procs s) (nextpid s) (initproc s) (cur s) (ticks s) (kmem s) (shr s)
                           (pages7 s) (trampoline s) (proc_addr s) x).
Definition onk {A} (m : M kst A) : PM A := zoom kmem_lens m.
Definition onf {A} (m : M F A) : PM A := zoom fs_lens m.

Definition getp (s : pk F) (i : nat) : proc := default zero_proc (procs s !! i).
Definition theproc (i : nat) : PM proc := gets (fun s => getp s i).

(** myproc(), dereferenced. *)
Definition myproc : PM nat :=
  let* s := get in
  match cur s with Some i => ret i | None => fault "myproc: null" end.

(** sizeof(struct proc) is 384; a process is a channel by its address. *)
Definition procaddr (s : pk F) (i : nat) : Z := proc_addr s + 384 * Z.of_nat i.
Definition parentaddr (s : pk F) (p : option nat) : Z :=
  match p with Some i => procaddr s i | None => 0 end.

Definition all_procs : list nat := seq 0 64.

Definition sys_uptime : PM Z := gets ticks.

(** procinit. *)
Definition procinit : PM unit :=
  for_each all_procs (fun i =>
    upd_proc i (set_state UNUSED) ;;
    upd_proc i (fun p => set_space (KSTACK (Z.of_nat i)) (p_sz p) (p_pagetable p) (p_trapframe p) p)).

Definition allocpid : PM Z :=
  let* s := get in
  let pid := nextpid s in
  modify (fun s => Pk (procs s) (i32 (nextpid s + 1)) (initproc s) (cur s) (ticks s) (kmem s) (shr s)
                      (pages7 s) (trampoline s) (proc_addr s) (fsys s)) ;;
  ret pid.

Definition proc_freepagetable (pagetable sz : Z) : M kst unit :=
  uvmunmap pagetable TRAMPOLINE 1 false ;;
  uvmunmap pagetable TRAPFRAME 1 false ;;
  uvmfree pagetable sz.

Definition freeproc (i : nat) : PM unit :=
  let* p := theproc i in
  when (nz (p_trapframe p)) (onk (kfree (p_trapframe p))) ;;
  upd_proc i (set_trapframe 0) ;;
  let* p := theproc i in
  when (nz (p_pagetable p)) (onk (proc_freepagetable (p_pagetable p) (p_sz p))) ;;
  upd_proc i (set_pagetable 0) ;;
  upd_proc i (set_sz 0) ;;
  upd_proc i (set_pid 0) ;;
  upd_proc i (set_parent None) ;;
  upd_proc i (fun p => set_name (<[0%nat := 0]> (p_name p)) p) ;;
  upd_proc i (set_chan 0) ;;
  upd_proc i (set_killed 0) ;;
  upd_proc i (set_xstate 0) ;;
  upd_proc i (set_state UNUSED).

Definition proc_pagetable (tramp trapframe : Z) : M kst Z :=
  let* pagetable := uvmcreate in
  if pagetable =? 0 then ret 0
  else
    let* r := mappages pagetable TRAMPOLINE PGSIZE tramp (Z.lor PTE_R PTE_X) in
    if r <? 0 then uvmfree pagetable 0 ;; ret 0
    else
      let* r := mappages pagetable TRAPFRAME PGSIZE trapframe (Z.lor PTE_R PTE_W) in
      if r <? 0 then uvmunmap pagetable TRAMPOLINE 1 false ;; uvmfree pagetable 0 ;; ret 0
      else ret pagetable.

(** The loop of allocproc: the first UNUSED entry. *)
Definition find_proc (s : pk F) (test : proc -> bool) : option nat :=
  List.find (fun i => test (getp s i)) all_procs.
Definition is_state (x : procstate) (p : proc) : bool := bool_decide (p_state p = x).

Definition allocproc : PM (option nat) :=
  let* s := get in
  match find_proc s (is_state UNUSED) with
  | None => ret None
  | Some i =>
      let* pid := allocpid in
      upd_proc i (set_pid pid) ;;
      upd_proc i (set_state USED) ;;
      let* tf := onk kalloc in
      upd_proc i (set_trapframe tf) ;;
      if tf =? 0 then freeproc i ;; ret None
      else
        let* pt := onk (proc_pagetable (trampoline s) tf) in
        upd_proc i (set_pagetable pt) ;;
        if pt =? 0 then freeproc i ;; ret None
        else
          match shr s with
          | None => fault "Shrimpy: null"
          | Some sh =>
              set_shr (Some (ShrimpySt (sh_P sh) (Some i) (sh_vas sh) (sh_pas sh))) ;;
              let* p := theproc i in
              upd_proc i (set_context AtForkret (u64 (p_kstack p + PGSIZE))) ;;
              upd_proc i (set_bucket 64) ;;
              let* ctime := sys_uptime in
              upd_proc i (set_last ctime) ;;
              ret (Some i)
          end
  end.

Definition growproc (n : Z) : PM Z :=
  let* i := myproc in
  let* p := theproc i in
  let sz := p_sz p in
  if 0 <? n then
    let* sz' := onk (uvmalloc (p_pagetable p) sz (u64 (sz + n)) PTE_W) in
    if sz' =? 0 then ret (-1) else upd_proc i (set_sz sz') ;; ret 0
  else if n <? 0 then
    let* sz' := onk (uvmdealloc (p_pagetable p) sz (u64 (sz + n))) in
    upd_proc i (set_sz sz') ;; ret 0
  else upd_proc i (set_sz sz) ;; ret 0.

(** wakeup(chan): every other process that sleeps on [chan] becomes runnable. *)
Definition wake_one (me : option nat) (chan : Z) (i : nat) (p : proc) : proc :=
  if bool_decide (Some i = me) then p
  else if bool_decide (p_state p = SLEEPING) && (p_chan p =? chan) then set_state RUNNABLE p
  else p.
Definition wakeup (chan : Z) : PM unit :=
  for_each all_procs (fun i =>
    let* s := get in upd_proc i (wake_one (cur s) chan i)).

Definition reparent (p : nat) : PM unit :=
  for_each all_procs (fun pp =>
    let* q := theproc pp in
    if bool_decide (p_parent q = Some p) then
      let* s := get in
      upd_proc pp (set_parent (initproc s)) ;;
      wakeup (parentaddr s (initproc s))
    else ret tt).

(** *** The scheduler *)

(** FATCAT_SCHED(p, current_tick). *)
Definition refill (tick_diff bucket : Z) : Z :=
  fold_left (fun b i => if (i + 1) mod 10 =? 0 then i32 (b + 1) else b) (seqZ 0 tick_diff) bucket.
Definition FATCAT_SCHED (current_tick : Z) (p : proc) : proc :=
  let tick_diff := i32 (current_tick - p_last p) in
  let p := if (p_bucket p <? 65) && (0 <? tick_diff)
           then set_bucket (refill tick_diff (p_bucket p)) p else p in
  let p := set_last current_tick p in
  set_avail (p_bucket p) p.

(** One choice of the scheduler on a CPU: up to swtch. *)
Definition scheduler_pick (i : nat) : PM bool :=
  let* p := theproc i in
  if bool_decide (p_state p = RUNNABLE) then
    upd_proc i (set_state RUNNING) ;;
    modify (fun s => Pk (procs s) (nextpid s) (initproc s) (Some i) (ticks s) (kmem s) (shr s)
                        (pages7 s) (trampoline s) (proc_addr s) (fsys s)) ;;
    ret true
  else ret false.

(** ... and from the return of swtch. [current_tick] is the variable of
    scheduler, read once before its loop. *)
Definition scheduler_return (fatcat : bool) (current_tick : Z) (i : nat) : PM unit :=
  (if fatcat then upd_proc i (FATCAT_SCHED current_tick) else ret tt) ;;
  modify (fun s => Pk (procs s) (nextpid s) (initproc s) None (ticks s) (kmem s) (shr s)
                      (pages7 s) (trampoline s) (proc_addr s) (fsys s)).

(** The token loop of sched. *)
Definition spend (tick_diff bucket : Z) : Z :=
  fold_left (fun b (_ : Z) => if 0 <? b then i32 (b - 1) else b) (seqZ 0 tick_diff) bucket.

(** sched's last part, to its final swtch. *)
Definition sched_late (i : nat) (ctick : Z) : PM unit :=
  upd_proc i (set_time (i32 ctick)) ;;
  upd_proc i (fun p => set_avail (p_bucket p) p) ;;
  upd_proc i (set_last ctick) ;;
  upd_proc i (fun p => set_context AtSched (p_ctx_sp p) p).

(** sched() up to its first swtch. [held], [noff] and [intr] are the lock state
    it checks: holding(&p->lock), mycpu()->noff and intr_get(). *)
Definition sched_at (held : bool) (noff : Z) (intr : bool) : PM unit :=
  let* i := myproc in
  if negb held then panic "sched p->lock"
  else if negb (noff =? 1) then panic "sched locks"
  else
    let* p := theproc i in
    if bool_decide (p_state p = RUNNING) then panic "sched running"
    else if intr then panic "sched interruptible"
    else
      let* ctick := sys_uptime in
      let tick_diff := i32 (ctick - p_last p) in
      if (0 <? tick_diff) && bool_decide (p_state p = RUNNABLE) then
        upd_proc i (set_bucket (spend tick_diff (p_bucket p))) ;;
        upd_proc i (fun p => set_ticks (i32 (p_ticks p + tick_diff)) p) ;;
        sched_late i ctick
      else if (p_bucket p <? 1) && bool_decide (p_state p = SLEEPING) then
        upd_proc i (set_state RUNNABLE) ;;
        upd_proc i (fun p => set_pticks (p_ticks p) p) ;;
        upd_proc i (set_time (i32 ctick)) ;;
        upd_proc i (fun p => set_context AtSchedEarly (p_ctx_sp p) p)
      else sched_late i ctick.

Definition sched : PM unit := sched_at true 1 false.

(** What sched still does when the process resumes at its first swtch; [ctick]
    is the value read before. *)
Definition sched_resumed (i : nat) (ctick : Z) : PM unit := sched_late i ctick.

Definition yield : PM unit :=
  let* i := myproc in upd_proc i (set_state RUNNABLE) ;; sched.

(** sleep(chan, lk) up to the switch, and after it. *)
Definition sleep (chan : Z) : PM unit :=
  let* i := myproc in
  upd_proc i (set_chan chan) ;;
  upd_proc i (set_state SLEEPING) ;;
  sched.
Definition sleep_resumed (i : nat) : PM unit := upd_proc i (set_chan 0).

Definition kill (pid : Z) : PM Z :=
  let* s := get in
  match find_proc s (fun p => p_pid p =? pid) with
  | Some i =>
      upd_proc i (set_killed 1) ;;
      let* p := theproc i in
      (if bool_decide (p_state p = SLEEPING) then upd_proc i (set_state RUNNABLE) else ret tt) ;;
      ret 0
  | None => ret (-1)
  end.

Definition setkilled (i : nat) : PM unit := upd_proc i (set_killed 1).
Definition killed (i : nat) : PM bool := gets (fun s => nz (p_killed (getp s i))).

(** *** Copies between the kernel and either space *)

Definition either_copyout (user_dst : bool) (dst src len : Z) : PM Z :=
  let* i := myproc in
  let* p := theproc i in
  if user_dst then onk (copyout (p_pagetable p) dst src len)
  else onk (upd_mem (fun m => memmove m dst src len)) ;; ret 0.
Definition either_copyin (dst : Z) (user_src : bool) (src len : Z) : PM Z :=
  let* i := myproc in
  let* p := theproc i in
  if user_src then onk (copyin (p_pagetable p) dst src len)
  else onk (upd_mem (fun m => memmove m dst src len)) ;; ret 0.

(** *** The shrimp pages *)

Definition FRY : Z := TRAPFRAME - PGSIZE.
Definition SHRIMP : Z := FRY - PGSIZE.
Definition HEAP : Z := SHRIMP - PGSIZE.
Definition STACK : Z := HEAP - PGSIZE.
Definition GUARD_PAGE : Z := STACK - PGSIZE.
Definition DATA : Z := GUARD_PAGE - PGSIZE.
Definition TEXT : Z := DATA - PGSIZE.

Definition unmap (pagetable va : Z) : M kst unit :=
  let* pte := walk pagetable va true in
  if pte =? 0 then ret tt
  else
    let* e := ldpte pte in
    if has e PTE_V && (Z.land e (Z.lor PTE_R (Z.lor PTE_W PTE_X)) =? 0)
    then uvmunmap pagetable va 1 false else ret tt.

Definition theshr : PM shrimpy_t :=
  let* s := get in match shr s with Some sh => ret sh | None => fault "Shrimpy: null" end.
Definition shr_table (who : shrimpy_t -> option nat) : PM Z :=
  let* sh := theshr in
  match who sh with
  | Some i => let* p := theproc i in ret (p_pagetable p)
  | None => fault "Shrimpy: null process"
  end.

(** One of the seven pages of map_frames: what is mapped is [*page], the first
    word of the page. *)
Definition map_frame (k : nat) (perm : Z) (nomem nomap : string) : PM unit :=
  let* s := get in
  (if default 0 (pages7 s !! k) =? 0 then
     let* pg := onk kalloc in
     set_page7 k pg ;;
     let* sh := theshr in
     set_shr (Some (ShrimpySt (sh_P sh) (sh_NP sh) (sh_vas sh) (<[k := pg]> (sh_pas sh))))
   else ret tt) ;;
  let* s := get in
  let pg := default 0 (pages7 s !! k) in
  if pg =? 0 then panic nomem
  else
    let* pt := shr_table sh_P in
    let* sh := theshr in
    let* r := onk (mappages pt (default 0 (sh_vas sh !! k)) PGSIZE (load64 (pmem (kmem s)) pg) perm) in
    if nz r then onk (kfree pg) ;; panic nomap else ret tt.

Definition RWXU : Z := Z.lor PTE_R (Z.lor PTE_W (Z.lor PTE_X PTE_U)).

Definition map_frames : PM unit :=
  let* np := shr_table sh_NP in
  onk (unmap np FRY) ;; onk (unmap np SHRIMP) ;; onk (unmap np HEAP) ;; onk (unmap np STACK) ;;
  onk (unmap np GUARD_PAGE) ;; onk (unmap np DATA) ;; onk (unmap np TEXT) ;;
  map_frame 0 (Z.lor RWXU PTE_V) "map_frames: failed to allocate fry page" "map_frames: failed to map fry page" ;;
  map_frame 1 (Z.lor RWXU PTE_V) "map_frames: failed to allocate shrimp page" "map_frames: failed to map shrimp page" ;;
  map_frame 2 RWXU "Failed to allocate memory for heap_page frame..." "map_frames: failed to map heap page(uint64)HEAP" ;;
  map_frame 3 RWXU "map_frames: failed to allocate context page" "map_frames: failed to map context page" ;;
  map_frame 4 RWXU "map_frames: failed to allocate context page" "map_frames: failed to map context page" ;;
  map_frame 5 RWXU "map_frames: failed to allocate context page" "map_frames: failed to map context page" ;;
  map_frame 6 RWXU "map_frames: failed to allocate context page" "map_frames: failed to map context page" ;;
  let* pt := shr_table sh_P in
  onk (upd_mem (fun m => memmove m np pt 8)).

Definition map_frames_helper : PM unit :=
  let* sh := theshr in
  set_shr (Some (ShrimpySt (sh_P sh) (sh_NP sh) [FRY; SHRIMP; HEAP; STACK; GUARD_PAGE; DATA; TEXT] (sh_pas sh))) ;;
  map_frames.

(** translate(pagetable, vaddr): ~0 when a level is not valid. *)
Definition translate (pagetable vaddr : Z) : M kst Z :=
  let* e2 := ldpte (pagetable + 8 * PX 2 vaddr) in
  if negb (has e2 PTE_V) then ret (2 ^ 64 - 1)
  else
    let p1 := PTE2PA e2 in
    let* e1 := ldpte (p1 + 8 * PX 1 vaddr) in
    if negb (has e1 PTE_V) then ret (2 ^ 64 - 1)
    else
      let p0 := PTE2PA e1 in
      let* e0 := ldpte (p0 + 8 * PX 0 vaddr) in
      if negb (has e0 PTE_V) then ret (2 ^ 64 - 1)
      else ret (Z.lor (PTE2PA e0) (Z.land vaddr (PGSIZE - 1))).

(** *** fork, exit, wait *)

(** The offsets of epc, sp and a0 in a trapframe, and its size. *)
Definition TF_EPC : Z := 24.
Definition TF_SP : Z := 48.
Definition TF_A0 : Z := 112.
Definition TF_SIZE : Z := 288.

(** One entry of the descriptor loop of fork. *)
Definition dup_fd (i np : nat) (fd : nat) : PM unit :=
  let* p := theproc i in
  let f := default 0 (p_ofile p !! fd) in
  if nz f then
    let* f := onf (fe_filedup f) in
    upd_proc np (fun q => set_ofile (<[fd := f]> (p_ofile q)) q)
  else ret tt.

Definition fork : PM Z :=
  let* i := myproc in
  let* r := allocproc in
  match r with
  | None => ret (-1)
  | Some np =>
      let* p := theproc i in
      let* n := theproc np in
      let* c := onk (uvmcopy (p_pagetable p) (p_pagetable n) (p_sz p)) in
      if c <? 0 then
        upd_proc np (set_ticks 0) ;;
        upd_proc np (set_bucket (p_bucket p)) ;;
        freeproc np ;;
        ret (-1)
      else
        upd_proc np (set_sz (p_sz p)) ;;
        onk (upd_mem (fun m => memmove m (p_trapframe n) (p_trapframe p) TF_SIZE)) ;;
        onk (upd_mem (fun m => store64 m (p_trapframe n + TF_A0) 0)) ;;
        for_each (seq 0 16) (dup_fd i np) ;;
        let* p := theproc i in
        let* cwd := onf (fe_idup (p_cwd p)) in
        upd_proc np (set_cwd cwd) ;;
        upd_proc np (fun q => set_name (safestrcpy_bytes (p_name q) (p_name p) 16) q) ;;
        upd_proc np (set_ticks 0) ;;
        let* ctime := sys_uptime in
        upd_proc np (set_last ctime) ;;
        let* n := theproc np in
        let pid := p_pid n in
        upd_proc np (set_parent (Some i)) ;;
        upd_proc np (set_state RUNNABLE) ;;
        let* sh := theshr in
        set_shr (Some (ShrimpySt (Some np) (sh_NP sh) (sh_vas sh) (sh_pas sh))) ;;
        map_frames_helper ;;
        ret pid
  end.

Definition close_fd (i : nat) (fd : nat) : PM unit :=
  let* p := theproc i in
  let f := default 0 (p_ofile p !! fd) in
  if nz f then
    onf (fe_fileclose f) ;;
    upd_proc i (fun q => set_ofile (<[fd := 0]> (p_ofile q)) q)
  else ret tt.

(** exit(status), up to the switch it never returns from. *)
Definition exit (status : Z) : PM unit :=
  let* i := myproc in
  let* s := get in
  if bool_decide (Some i = initproc s) then panic "init exiting"
  else
    for_each (seq 0 16) (close_fd i) ;;
    onf fe_begin_op ;;
    let* p := theproc i in
    onf (fe_iput (p_cwd p)) ;;
    onf fe_end_op ;;
    upd_proc i (set_cwd 0) ;;
    reparent i ;;
    let* s := get in
    wakeup (parentaddr s (p_parent (getp s i))) ;;
    upd_proc i (set_xstate status) ;;
    upd_proc i (set_state ZOMBIE) ;;
    sched.

(** One entry of wait's scan: the value wait returns, if it returns here. *)
Definition wait_one (i : nat) (addr : Z) (pp : nat) : PM (option Z) :=
  let* q := theproc pp in
  if bool_decide (p_parent q = Some i) && bool_decide (p_state q = ZOMBIE) then
    let pid := p_pid q in
    let* s := get in
    let* p := theproc i in
    let* bad :=
      if nz addr then
        onk (upd_mem (fun m => store32 m (procaddr s pp + 44) (u32 (p_xstate q)))) ;;
        let* r := onk (copyout (p_pagetable p) addr (procaddr s pp + 44) 4) in
        ret (r <? 0)
      else ret false in
    if bad : bool then ret (Some (-1)) else freeproc pp ;; ret (Some pid)
  else ret None.

(** One pass of wait's loop: [Some r] when wait returns [r]; [None] when it has
    gone to sleep on the process, to scan again when woken. *)
Definition wait (addr : Z) : PM (option Z) :=
  let* i := myproc in
  let* r := for_until all_procs (wait_one i addr) in
  match r with
  | Some v => ret (Some v)
  | None =>
      let* s := get in
      let havekids := existsb (fun pp => bool_decide (p_parent (getp s pp) = Some i)) all_procs in
      if negb havekids || nz (p_killed (getp s i)) then ret (Some (-1))
      else sleep (procaddr s i) ;; ret None
  end.

(** *** userinit and ps *)

(** userinit: [shrimpy] is what malloc returns for the Shrimpy structure,
    [initcode] the address of the first program, 52 bytes long. *)
Definition userinit (shrimpy initcode : Z) : PM unit :=
  let* s := get in
  (match shr s with
   | Some _ => ret tt
   | None =>
       if shrimpy =? 0 then panic "allocproc: Failed to allocate memory for shrimpy"
       else set_shr (Some (ShrimpySt None None (replicate 7 0) (replicate 7 0)))
   end) ;;
  let* r := allocproc in
  modify (fun s => Pk (procs s) (nextpid s) r (cur s) (ticks s) (kmem s) (shr s)
                      (pages7 s) (trampoline s) (proc_addr s) (fsys s)) ;;
  match r with
  | None => fault "userinit: null process"
  | Some i =>
      let* pt := shr_table sh_NP in
      let* p := theproc i in
      onk (upd_mem (fun m => memmove m (p_pagetable p) pt 8)) ;;
      onk (uvmfirst (p_pagetable p) initcode 52) ;;
      upd_proc i (set_sz PGSIZE) ;;
      onk (upd_mem (fun m => store64 m (p_trapframe p + TF_EPC) 0)) ;;
      onk (upd_mem (fun m => store64 m (p_trapframe p + TF_SP) PGSIZE)) ;;
      upd_proc i (fun q => set_name (safestrcpy_bytes (p_name q)
        [105; 110; 105; 116; 99; 111; 100; 101; 0] 16) q) ;;
      let* cwd := onf fe_namei_root in
      upd_proc i (set_cwd cwd) ;;
      upd_proc i (set_state RUNNABLE)
  end.

(** struct uproc: pid at 0, name at 4, state at 20, ticks at 28,
    avialable_tokens at 32, pticks at 36; 40 bytes. *)
Definition UPROC_SIZE : Z := 40.

Definition state_name (st : procstate) : list Z :=
  match st with
  | UNUSED => [117; 110; 117; 115; 101; 100; 0]
  | USED => [117; 115; 101; 100; 0]
  | SLEEPING => [115; 108; 101; 101; 112; 32; 0]
  | RUNNABLE => [114; 117; 110; 98; 108; 101; 0]
  | RUNNING => [114; 117; 110; 32; 0]
  | ZOMBIE => [122; 111; 109; 98; 105; 101; 0]
  end.

(** The inner loop of pslist on u.ticks, u.avialable_tokens and the process. *)
Definition ps_tick (x : Z * Z * proc) : Z * Z * proc :=
  let '(uticks, uavail, p) := x in
  if 0 <? uavail then (i32 (uticks + 1), i32 (uavail - 1), p)
  else (p_pticks p, 64, set_avail 64 (set_state SLEEPING p)).
Definition ps_ticks (n : Z) (x : Z * Z * proc) : Z * Z * proc :=
  Nat.iter (Z.to_nat n) ps_tick x.

(** pslist(utable); [u] is the address of the local struct uproc. *)
Definition ps_one (me : nat) (u : Z) (utable : Z) (i : nat) : PM bool :=
  let* p := theproc i in
  let tick_diff := i32 (p_time p + p_avail p - p_last p) in
  onk (upd_mem (fun m => store32 m u (u32 (p_pid p)))) ;;
  onk (upd_mem (fun m => store32 m (u + 36) (u32 (p_pticks p)))) ;;
  let* s := get in
  let uticks := i32 (load32 (pmem (kmem s)) (u + 28)) in
  let '(uticks, uavail, p') :=
    if 0 <? tick_diff then ps_ticks tick_diff (0, p_avail p, p) else (uticks, p_avail p, p) in
  upd_proc i (fun _ => p') ;;
  onk (upd_mem (fun m => store32 m (u + 32) (u32 uavail))) ;;
  onk (upd_mem (fun m => store32 m (u + 28) (u32 uticks))) ;;
  onk (upd_mem (fun m => store_bytes m (u + 20)
    (safestrcpy_bytes (load_bytes m (u + 20) 7) (state_name (p_state p')) 7))) ;;
  onk (upd_mem (fun m => store_bytes m (u + 4)
    (safestrcpy_bytes (load_bytes m (u + 4) 16) (p_name p') 16))) ;;
  let* q := theproc me in
  let* r := onk (copyout (p_pagetable q) utable u UPROC_SIZE) in
  ret (0 <=? r).

Fixpoint ps_loop (me : nat) (u : Z) (l : list nat) (utable count : Z) : PM Z :=
  match l with
  | [] => ret count
  | i :: l =>
      let* p := theproc i in
      if bool_decide (p_state p = UNUSED) then ps_loop me u l utable count
      else
        let* ok := ps_one me u utable i in
        if ok : bool then ps_loop me u l (u64 (utable + UPROC_SIZE)) (count + 1) else ret (-1)
  end.
Definition pslist (u utable : Z) : PM Z :=
  let* me := myproc in ps_loop me u all_procs utable 0.
End proc.

(** ** Lemmas *)

(** *** The loops of the scheduler, in closed form *)

Lemma seqZ_snoc m n : 0 <= n -> seqZ m (n + 1) = seqZ m n ++ [m + n].
Proof. intros. rewrite seqZ_app by lia. done. Qed.

Lemma fold_seqZ_snoc {A} (f : A -> Z -> A) n (a : A) :
  0 <= n -> fold_left f (seqZ 0 (n + 1)) a = f (fold_left f (seqZ 0 n) a) n.
Proof. intros. rewrite seqZ_snoc, fold_left_app by lia. done. Qed.

Lemma refill_spec n b :
  0 <= n -> 0 <= b -> b + n / 10 < 2 ^ 31 -> refill n b = b + n / 10.
Proof.
  intros Hn Hb. unfold refill. pattern n. apply natlike_ind; [| |done].
  - intros _. change (b = b + 0). lia.
  - intros k Hk IH Hlt. rewrite <- Z.add_1_r in *. rewrite fold_seqZ_snoc by done.
    assert (b + k / 10 < 2 ^ 31) as Hlt' by mlia. rewrite IH by done.
    destruct (Z.eqb_spec ((k + 1) mod 10) 0); [rewrite i32_id by mlia|]; mlia.
Qed.

Lemma spend_spec n b : 0 <= n -> 0 <= b < 2 ^ 31 -> spend n b = Z.max 0 (b - n).
Proof.
  intros Hn Hb. unfold spend. pattern n. apply natlike_ind; [| |done].
  - simpl. lia.
  - intros k Hk IH. rewrite <- Z.add_1_r, fold_seqZ_snoc, IH by done.
    destruct (Z.ltb_spec 0 (Z.max 0 (b - k))); [rewrite i32_id by lia|]; lia.
Qed.

(** *** Reading the table after an update *)

Section lemmas.
Context {F : Type} `{FsEnv F}.
Implicit Types s : pk F.

Definition with_procs (f : list proc -> list proc) (s : pk F) : pk F :=
  Pk (f (procs s)) (nextpid s) (initproc s) (cur s) (ticks s) (kmem s) (shr s)
     (pages7 s) (trampoline s) (proc_addr s) (fsys s).

Lemma upd_proc_run i f s : upd_proc i f s = Ok tt (with_procs (alter f i) s).
Proof. done. Qed.

Lemma getp_alter_eq s i f :
  (i < length (procs s))%nat -> getp (with_procs (alter f i) s) i = f (getp s i).
Proof.
  intros Hi. unfold getp, with_procs. cbn [procs]. rewrite list_lookup_alter_eq.
  apply lookup_lt_is_Some in Hi as [x ->]. done.
Qed.

Lemma getp_alter_ne s i j f : i <> j -> getp (with_procs (alter f i) s) j = getp s j.
Proof. intros. unfold getp, with_procs. cbn [procs]. by rewrite list_lookup_alter_ne. Qed.

Lemma elem_all_procs i : i ∈ all_procs <-> (i < 64)%nat.
Proof. unfold all_procs. rewrite elem_of_seq. lia. Qed.

(** *** wakeup *)

Lemma wakeup_loop chan l : forall s,
  NoDup l -> length (procs s) = 64%nat -> (forall i, i ∈ l -> (i < 64)%nat) ->
  exists s', for_each l (fun i => let* s := get in upd_proc i (wake_one (cur s) chan i)) s = Ok tt s' /\
    s' = with_procs (fun _ => procs s') s /\ length (procs s') = 64%nat /\
    forall i, getp s' i = if decide (i ∈ l) then wake_one (cur s) chan i (getp s i) else getp s i.
Proof.
  induction l as [|j l IH]; intros s Hd Hlen Hl.
  { exists s. split_and!; [done | by destruct s | done | done]. }
  apply NoDup_cons in Hd as [Hj Hd]. cbn [for_each]. unfold bind at 1, get at 1. unfold bind at 1.
  rewrite upd_proc_run. set (s1 := with_procs _ s).
  destruct (IH s1 Hd) as (s' & E & Es & El & Hg).
  { unfold s1. cbn [procs with_procs]. by rewrite length_alter. }
  { intros i Hi. apply Hl. by right. }
  exists s'. split_and!; [exact E | | done |].
  - rewrite Es. done.
  - intros i. rewrite Hg. change (cur s1) with (cur s).
    assert (j < 64)%nat by (apply Hl; by left).
    destruct (decide (i = j)) as [->|Hij].
    + rewrite decide_False by done. rewrite decide_True by by left.
      apply getp_alter_eq. lia.
    + unfold s1. rewrite getp_alter_ne by done.
      destruct (decide (i ∈ l)), (decide (i ∈ j :: l)) as [Hc|Hc]; try done; rewrite elem_of_cons in Hc; tauto.
Qed.

Lemma wakeup_run chan s :
  length (procs s) = 64%nat ->
  exists s', wakeup chan s = Ok tt s' /\ s' = with_procs (fun _ => procs s') s /\
    length (procs s') = 64%nat /\
    forall i, (i < 64)%nat -> getp s' i = wake_one (cur s) chan i (getp s i).
Proof.
  intros Hlen. destruct (wakeup_loop chan all_procs s) as (s' & E & Es & El & Hg).
  - apply NoDup_seq.
  - done.
  - intros i. apply elem_all_procs.
  - exists s'. split_and!; auto. intros i Hi. rewrite Hg, decide_True; [done | by apply elem_all_procs].
Qed.

(** *** sched *)

Lemma sched_at_run s i :
  cur s = Some i -> p_state (getp s i) <> RUNNING -> (i < length (procs s))%nat ->
  let p := getp s i in
  let n := i32 (ticks s - p_last p) in
  sched s = Ok tt (with_procs (alter (fun p0 =>
    if (0 <? n) && bool_decide (p_state p = RUNNABLE) then
      set_context AtSched (p_ctx_sp p)
        (set_sched (i32 (p_ticks p + n)) (ticks s) (spend n (p_bucket p)) (spend n (p_bucket p))
           (i32 (ticks s)) (p_pticks p) p)
    else if (p_bucket p <? 1) && bool_decide (p_state p = SLEEPING) then
      set_context AtSchedEarly (p_ctx_sp p)
        (set_sched (p_ticks p) (p_last p) (p_avail p) (p_bucket p) (i32 (ticks s)) (p_ticks p)
           (set_state RUNNABLE p))
    else
      set_context AtSched (p_ctx_sp p)
        (set_sched (p_ticks p) (ticks s) (p_bucket p) (p_bucket p) (i32 (ticks s)) (p_pticks p) p)) i) s).
Proof.
  intros Hc Hr Hi p n. unfold sched, sched_at, myproc, theproc, sys_uptime, gets, bind, get.
  rewrite Hc. unfold ret. cbn [negb Z.eqb Pos.eqb]. rewrite bool_decide_eq_false_2 by done.
  fold p. fold n.
  destruct ((0 <? n) && bool_decide (p_state p = RUNNABLE));
    [|destruct ((p_bucket p <? 1) && bool_decide (p_state p = SLEEPING))]; unfold sched_late, upd_proc, upd_procs, bind, modify, with_procs;
    cbn [procs nextpid initproc cur ticks kmem shr pages7 trampoline proc_addr fsys];
    rewrite !list_alter_alter_eq; do 2 f_equal; apply list_alter_ext; try done.
  all: intros x Hx; assert (p = x) as -> by (unfold p, getp; by rewrite Hx); done.
Qed.
(** *** wait *)

Definition zombie_child (s : pk F) (i j : nat) : bool :=
  bool_decide (p_parent (getp s j) = Some i) && bool_decide (p_state (getp s j) = ZOMBIE).

Lemma wait_one_skip i addr j s : zombie_child s i j = false -> wait_one i addr j s = Ok None s.
Proof. unfold zombie_child, wait_one, theproc, gets, bind at 1. by intros ->. Qed.

Lemma wait_scan_skip i addr s : forall l1 l2,
  (forall j, j ∈ l1 -> zombie_child s i j = false) ->
  for_until (l1 ++ l2) (wait_one i addr) s = for_until l2 (wait_one i addr) s.
Proof.
  induction l1 as [|j l1 IH]; intros l2 Hl; [done|]. cbn [app for_until].
  rewrite (bind_run _ _ _ _ _ (wait_one_skip i addr j s (Hl j (list_elem_of_here _ _)))).
  apply IH. intros k Hk. apply Hl. by right.
Qed.

Lemma wait_one_reaps i j s s' :
  zombie_child s i j = true -> freeproc j s = Ok tt s' ->
  wait_one i 0 j s = Ok (Some (p_pid (getp s j))) s'.
Proof.
  unfold zombie_child, wait_one, theproc, gets, bind at 1. intros -> E.
  unfold bind, get, ret. cbn [nz negb Z.eqb]. by rewrite E.
Qed.

End lemmas.

Lemma with_with {F} (f g : list proc -> list proc) (s : pk F) :
  with_procs f (with_procs g s) = with_procs (fun l => f (g l)) s.
Proof. done. Qed.

(** ** Properties *)

Section properties.
Context {F : Type} `{FsEnv F}.
Implicit Types s : pk F.

(** The token accounting of the scheduler, in closed form. When a runnable
    process gives up the CPU it is charged one token per tick since it was
    last scheduled, never going below 0; when the scheduler gets control back
    it adds a token per ten ticks, as long as the bucket held at most 64
    before, so that the bucket can end above 64. *)
Theorem token_accounting s i current_tick :
  cur s = Some i -> (i < length (procs s))%nat -> p_state (getp s i) = RUNNABLE ->
  0 <= p_bucket (getp s i) < 2 ^ 30 ->
  0 < ticks s - p_last (getp s i) < 2 ^ 30 -> 0 <= p_last (getp s i) ->
  (exists s', sched s = Ok tt s' /\ p_bucket (getp s' i) =
      Z.max 0 (p_bucket (getp s i) - (ticks s - p_last (getp s i))) /\
      p_avail (getp s' i) = p_bucket (getp s' i) /\ p_last (getp s' i) = ticks s) /\
  (forall p, 0 <= p_bucket p < 2 ^ 30 -> 0 < current_tick - p_last p < 2 ^ 30 ->
     p_bucket (FATCAT_SCHED current_tick p) =
       (if p_bucket p <=? 64 then p_bucket p + (current_tick - p_last p) / 10 else p_bucket p) /\
     p_avail (FATCAT_SCHED current_tick p) = p_bucket (FATCAT_SCHED current_tick p) /\
     p_last (FATCAT_SCHED current_tick p) = current_tick).
Proof.
  intros Hc Hi Hst Hb Hn Hl. split.
  - rewrite (sched_at_run s i Hc) by (try done; by rewrite Hst).
    rewrite i32_id by lia. destruct (Z.ltb_spec 0 (ticks s - p_last (getp s i))); [|lia].
    rewrite bool_decide_eq_true_2 by done. cbn [andb]. eexists. split; [reflexivity|].
    rewrite getp_alter_eq by done. cbn [p_bucket p_avail p_last set_context set_sched].
    rewrite spend_spec by lia. done.
  - intros p Hb' Hn'. unfold FATCAT_SCHED. rewrite i32_id by lia.
    destruct (Z.ltb_spec 0 (current_tick - p_last p)); [|lia].
    destruct (Z.ltb_spec (p_bucket p) 65), (Z.leb_spec (p_bucket p) 64); try lia; cbn [andb].
    + cbn [p_bucket p_avail p_last set_bucket set_last set_avail set_sched].
      rewrite refill_spec by mlia. done.
    + done.
Qed.

(** What the steps of the lost process do to its state. *)
Lemma scheduler_return_run s i fatcat tick :
  (i < length (procs s))%nat ->
  exists s', scheduler_return fatcat tick i s = Ok tt s' /\ p_state (getp s' i) = p_state (getp s i) /\
    length (procs s') = length (procs s) /\ cur s' = None.
Proof.
  intros Hi. unfold scheduler_return. destruct fatcat; eexists; (split; [reflexivity|]); [|done].
  split_and!; [|cbn; by rewrite !length_alter | done].
  change (p_state (getp (with_procs (alter (FATCAT_SCHED tick) i) s) i) = p_state (getp s i)).
  rewrite getp_alter_eq by done. unfold FATCAT_SCHED. by destruct (_ && _).
Qed.

Lemma scheduler_pick_run s i :
  (i < length (procs s))%nat -> p_state (getp s i) = RUNNABLE ->
  exists s', scheduler_pick i s = Ok true s' /\ p_state (getp s' i) = RUNNING /\
    length (procs s') = length (procs s) /\ cur s' = Some i.
Proof.
  intros Hi St. unfold scheduler_pick, theproc, gets, bind at 1. rewrite St, bool_decide_eq_true_2 by done.
  eexists. split; [reflexivity|]. split; [|split; [cbn; by rewrite length_alter | done]].
  change (p_state (getp (with_procs (alter (set_state RUNNING) i) s) i) = RUNNING).
  by rewrite getp_alter_eq.
Qed.

Lemma sched_resumed_run s i tick :
  (i < length (procs s))%nat ->
  exists s', sched_resumed i tick s = Ok tt s' /\ p_state (getp s' i) = p_state (getp s i) /\
    length (procs s') = length (procs s).
Proof.
  intros Hi. unfold sched_resumed, sched_late. eexists. split; [reflexivity|].
  split; [|cbn; by rewrite !length_alter].
  change (p_state (getp (with_procs (alter (fun p => set_context AtSched (p_ctx_sp p) p) i)
    (with_procs (alter (set_last tick) i) (with_procs (alter (fun p => set_avail (p_bucket p) p) i)
      (with_procs (alter (set_time (i32 tick)) i) s)))) i) = p_state (getp s i)).
  rewrite !getp_alter_eq by (cbn; rewrite ?length_alter; lia). done.
Qed.

(** sleep with an empty bucket: sched itself makes the process runnable. *)
Lemma sleep_empty_run s i chan :
  cur s = Some i -> (i < length (procs s))%nat -> p_bucket (getp s i) < 1 ->
  exists s', sleep chan s = Ok tt s' /\ p_state (getp s' i) = RUNNABLE /\ length (procs s') = length (procs s).
Proof.
  intros Hc Hi Hb.
  set (s1 := with_procs (alter (set_state SLEEPING) i) (with_procs (alter (set_chan chan) i) s)).
  assert (getp s1 i = set_state SLEEPING (set_chan chan (getp s i))) as E1.
  { unfold s1. rewrite getp_alter_eq by (cbn; rewrite length_alter; lia). by rewrite getp_alter_eq by lia. }
  assert (sleep chan s = sched s1) as Es.
  { unfold sleep, myproc, bind, get. rewrite Hc. done. }
  assert (i < length (procs s1))%nat as Hi1 by (cbn; rewrite !length_alter; lia).
  pose proof (sched_at_run s1 i Hc ltac:(by rewrite E1) Hi1) as E2. rewrite E1 in E2. cbv zeta in E2.
  cbn [p_state set_state set_chan p_bucket] in E2.
  rewrite (bool_decide_eq_false_2 (SLEEPING = RUNNABLE)), andb_false_r in E2 by done.
  rewrite (bool_decide_eq_true_2 (SLEEPING = SLEEPING)) in E2 by done.
  destruct (Z.ltb_spec (p_bucket (getp s i)) 1); [|lia]. cbn [andb] in E2.
  rewrite <- Es in E2. eexists. split; [exact E2|]. split; [by rewrite getp_alter_eq | cbn; by rewrite !length_alter].
Qed.

(** kill does not wake a process that does not sleep. *)
Lemma kill_running s i pid r s' :
  (i < length (procs s))%nat -> p_state (getp s i) = RUNNING -> kill pid s = Ok r s' -> p_state (getp s' i) = RUNNING.
Proof.
  intros Hi St E7. unfold kill, bind at 1, get in E7.
  destruct (find_proc s _) as [j|]; [|injection E7 as _ <-; done].
  revert E7. unfold bind at 1. rewrite upd_proc_run. set (s6' := with_procs _ s).
  assert (p_state (getp s6' i) = RUNNING) as St6'.
  { unfold s6'. destruct (decide (j = i)) as [->|]; [by rewrite getp_alter_eq by lia | by rewrite getp_alter_ne]. }
  unfold theproc, gets, bind at 1. case_bool_decide as Hs; [|intros E7; injection E7 as _ <-; done].
  intros E7. injection E7 as _ <-.
  change (p_state (getp (with_procs (alter (set_state RUNNABLE) j) s6') i) = RUNNING).
  destruct (decide (j = i)) as [->|]; [congruence | by rewrite getp_alter_ne].
Qed.

(** Wakeup(chan) returns, makes runnable exactly the other processes that
    sleep on [chan], and changes nothing else of the kernel. *)
Theorem wakeup_correct s chan :
  length (procs s) = 64%nat ->
  exists s', wakeup chan s = Ok tt s' /\ s' = with_procs (fun _ => procs s') s /\
    forall i, (i < 64)%nat ->
      getp s' i = if bool_decide (Some i <> cur s /\ p_state (getp s i) = SLEEPING /\ p_chan (getp s i) = chan)
                  then set_state RUNNABLE (getp s i) else getp s i.
Proof.
  intros Hlen. destruct (wakeup_run chan s Hlen) as (s' & E & Es & _ & Hg).
  exists s'. split; [exact E|]. split; [exact Es|]. intros i Hi. rewrite (Hg i Hi). unfold wake_one.
  clear E Es Hg. generalize (getp s i) (cur s). intros p me.
  case_bool_decide as H1; [case_bool_decide as H2; [by destruct H2|reflexivity]|].
  case_bool_decide as H2; cbn [andb]; [|case_bool_decide as H3; [by destruct H3 as (_ & ? & _)|reflexivity]].
  destruct (Z.eqb_spec (p_chan p) chan) as [H4|H4].
  - case_bool_decide as H3; [reflexivity|]. exfalso. apply H3. split; [exact H1|]. split; [exact H2 | exact H4].
  - case_bool_decide as H3; [by destruct H3 as (_ & _ & ?) | reflexivity].
Qed.

(** Wait(0), on every branch. With a zombie child it frees the first one
    in the table, whose pid it returns. With none it returns -1 when the caller
    has no children or was killed, and otherwise goes to sleep on the caller. *)
Theorem wait_correct s i :
  cur s = Some i ->
  (forall j s', List.find (zombie_child s i) all_procs = Some j -> freeproc j s = Ok tt s' ->
     wait 0 s = Ok (Some (p_pid (getp s j))) s') /\
  (List.find (zombie_child s i) all_procs = None ->
     ((forall j, (j < 64)%nat -> p_parent (getp s j) <> Some i) \/ p_killed (getp s i) <> 0 ->
       wait 0 s = Ok (Some (-1)) s) /\
     (forall j, (j < 64)%nat -> p_parent (getp s j) = Some i -> p_killed (getp s i) = 0 ->
       wait 0 s = (sleep (procaddr s i) ;; ret None) s)).
Proof.
  intros Hc.
  assert (forall r s', for_until all_procs (wait_one i 0) s = Ok r s' -> wait 0 s = (match r with
    | Some v => ret (Some v)
    | None => let havekids := existsb (fun pp => bool_decide (p_parent (getp s' pp) = Some i)) all_procs in
        if negb havekids || nz (p_killed (getp s' i)) then ret (Some (-1)) else sleep (procaddr s' i) ;; ret None
    end) s') as Hw.
  { intros r s' E. unfold wait.
    assert (myproc s = Ok i s) as Em by (unfold myproc, bind, get; by rewrite Hc).
    rewrite (bind_run _ _ _ _ _ Em), (bind_run _ _ _ _ _ E). by destruct r. }
  split.
  - intros j s' (l1 & l2 & El & Hl)%find_split_hit E. rewrite (Hw (Some (p_pid (getp s j))) s'); [done|].
    destruct Hl as [Hz Hl]. rewrite El, wait_scan_skip by done. cbn [for_until].
    by rewrite (bind_run _ _ _ _ _ (wait_one_reaps i j s s' Hz E)).
  - intros Hn.
    assert (for_until all_procs (wait_one i 0) s = Ok None s) as E.
    { rewrite <- (app_nil_r all_procs). rewrite wait_scan_skip; [done|]. intros j Hj.
      apply (List.find_none _ _ Hn). by apply list_elem_of_In. }
    rewrite (Hw None s E). clear Hw E. split.
    + intros Hk. cbv zeta. destruct (existsb _ all_procs) eqn:Ex; [|done]. cbn [negb orb].
      apply existsb_exists in Ex as (j & Hj%list_elem_of_In%elem_all_procs & Hp%bool_decide_eq_true_1).
      destruct Hk as [Hk|Hk]; [by destruct (Hk j Hj)|]. unfold nz. by rewrite (proj2 (Z.eqb_neq _ _) Hk).
    + intros j Hj Hp Hk. cbv zeta. rewrite (proj2 (existsb_exists _ all_procs)), Hk; [done|].
      exists j. split; [by apply list_elem_of_In, elem_all_procs | by apply bool_decide_eq_true_2].
Qed.

(** the page map_frames maps is not the page it allocated. On a frame that
    is not there yet, map_frame allocates a page and maps at the frame's
    address the physical address 0x0505050505050505, the junk kalloc left in
    the page, instead of the page. *)
Theorem map_frame_maps_junk s k perm nomem nomap pg l sh i :
  pages7 s !! k = Some 0 -> free_pages (kmem s) (pg :: l) ->
  shr s = Some sh -> sh_P sh = Some i ->
  exists s1,
    free_pages (kmem s1) l /\ pages7 s1 !! k = Some pg /\ page_ok (kmem s) pg /\ pg < 0x0505050505050505 /\
    map_frame k perm nomem nomap s =
      (let* r := onk (mappages (p_pagetable (getp s i)) (default 0 (sh_vas sh !! k)) PGSIZE
                        0x0505050505050505 perm) in
       if nz r then onk (kfree pg) ;; panic nomap else ret tt) s1.
Proof.
  intros Hk Hf Hs HP. destruct sh as [P NP vas pas]. cbn [sh_P] in HP. subst P.
  destruct (kalloc_some _ _ _ Hf) as (k1 & E & F1 & _ & J & _ & P & _ & _).
  assert (0 < pg < PHYSTOP) as Hpg by (destruct P; destruct Hf; lia).
  set (s1 := Pk (procs s) (nextpid s) (initproc s) (cur s) (ticks s) k1
    (Some (ShrimpySt (Some i) NP vas (<[k := pg]> pas)))
    (<[k := pg]> (pages7 s)) (trampoline s) (proc_addr s) (fsys s)).
  assert (pages7 s1 !! k = Some pg) as Hk1.
  { unfold s1. cbn [pages7]. rewrite list_lookup_insert_eq; [done|]. by apply lookup_lt_Some in Hk. }
  exists s1. split_and!; [exact F1 | exact Hk1 | exact P | unfold PHYSTOP, KERNBASE in *; lia |].
  unfold map_frame. rewrite (bind_run _ _ _ _ _ (eq_refl : get s = Ok s s)). rewrite Hk. cbn [from_option id Z.eqb].
  erewrite bind_run.
  2: { assert (onk kalloc s = Ok pg (over kmem_lens k1 s)) as Ek by (unfold onk, zoom; change (view kmem_lens s) with (kmem s); by rewrite E).
       rewrite (bind_run _ _ _ _ _ Ek).
       unfold set_page7, theshr, set_shr, bind, get, modify, ret. cbn [shr over kmem_lens].
       rewrite Hs. reflexivity. }
  fold s1. rewrite (bind_run _ _ _ _ _ (eq_refl : get s1 = Ok s1 s1)). cbv zeta. rewrite Hk1. cbn [from_option id].
  destruct (Z.eqb_spec pg 0); [lia|].
  erewrite bind_run.
  2: { unfold shr_table, theshr, bind, get, s1. cbn [shr]. unfold ret at 1. cbn [sh_P]. reflexivity. }
  erewrite bind_run by reflexivity. cbn [sh_vas].
  change (kmem s1) with k1. replace (load64 (pmem k1) pg) with 0x0505050505050505; [reflexivity|].
  unfold load64. cbn [load_le]. rewrite !J by (unfold PGSIZE; lia). reflexivity.
Qed.
End properties.


(** ** Witnesses *)

(** A file system without files, and a kernel with init on the CPU. *)
Definition no_files : FsEnv unit := {|
  fe_filedup := fun f => ret f; fe_fileclose := fun _ => ret tt; fe_idup := fun i => ret i;
  fe_iput := fun _ => ret tt; fe_begin_op := ret tt; fe_end_op := ret tt; fe_namei_root := ret 1;
|}.

Definition demo_proc (st : procstate) (pid bucket : Z) (parent : option nat) : proc :=
  Proc st 0 0 0 pid 0 0 bucket bucket 0 0 parent 0 0 0 0 AtForkret 0 (replicate 16 0) 1 (replicate 16 0).
Definition demo (now : Z) (k : kst) (shrimp : option shrimpy_t) (ps : list proc) : pk unit :=
  Pk (ps ++ replicate (64 - length ps) zero_proc) 3 (Some 0%nat) (Some 0%nat) now k shrimp
     (replicate 7 0) 0 0x80010000 tt.
Definition no_memory : kst := Kst ∅ 0 PHYSTOP.

Lemma token_accounting_witness :
  exists s', @sched unit (demo 10 no_memory None [demo_proc RUNNABLE 1 64 None]) = Ok tt s' /\
    p_bucket (getp s' 0) = 54.
Proof.
  destruct (@token_accounting unit (demo 10 no_memory None [demo_proc RUNNABLE 1 64 None]) 0%nat 20)
    as [(s' & E & B & _) _].
  1: reflexivity. 1: cbn; lia. 1: reflexivity. 1: split; [discriminate | reflexivity].
  1: split; reflexivity. 1: discriminate.
  exists s'. split; [exact E | rewrite B; reflexivity].
Defined.

Lemma wakeup_correct_witness :
  exists s', @wakeup unit 9 (demo 0 no_memory None
      [demo_proc RUNNING 1 0 None; set_chan 9 (demo_proc SLEEPING 2 0 (Some 0%nat))]) = Ok tt s' /\
    p_state (getp s' 1) = RUNNABLE.
Proof.
  destruct (@wakeup_correct unit (demo 0 no_memory None
    [demo_proc RUNNING 1 0 None; set_chan 9 (demo_proc SLEEPING 2 0 (Some 0%nat))]) 9) as (s' & E & _ & G).
  1: reflexivity.
  exists s'. split; [exact E|]. rewrite (G 1%nat) by lia. vm_compute. reflexivity.
Defined.

(** init with an exited child. *)
Definition demo_zombie : pk unit :=
  demo 0 no_memory None [demo_proc RUNNING 1 0 None; demo_proc ZOMBIE 2 0 (Some 0%nat)].
Definition demo_freed : pk unit :=
  match freeproc 1 demo_zombie with Ok _ s' => s' | Stop _ s' => s' end.

Lemma wait_correct_witness :
  @wait unit 0 demo_zombie = Ok (Some (p_pid (getp demo_zombie 1))) demo_freed /\
  p_pid (getp demo_zombie 1) = 2 /\ p_state (getp demo_freed 1) = UNUSED.
Proof.
  split; [|split; vm_compute; reflexivity].
  exact (proj1 (@wait_correct unit demo_zombie 0%nat eq_refl) 1%nat demo_freed
           ltac:(vm_compute; reflexivity) ltac:(vm_compute; reflexivity)).
Defined.

Lemma map_frame_maps_junk_witness :
  exists s s1 : pk unit, pages7 s1 !! 0%nat = Some (PHYSTOP - PGSIZE) /\
    map_frame 0 RWXU "a" "b" s =
      (let* r := onk (mappages (p_pagetable (getp s 0)) FRY PGSIZE 0x0505050505050505 RWXU) in
       if nz r then onk (kfree (PHYSTOP - PGSIZE)) ;; panic "b" else ret tt) s1.
Proof.
  destruct (kfree_ok small_kernel (PHYSTOP - PGSIZE) []) as (k & _ & Fp & _).
  { split; [reflexivity | apply NoDup_nil_2 | intros a Ha; by apply elem_of_nil in Ha | reflexivity]. }
  { split; [reflexivity | vm_compute; split; [discriminate | reflexivity]]. }
  { apply not_elem_of_nil. }
  set (sh := ShrimpySt (Some 0%nat) (Some 0%nat) [FRY; SHRIMP; HEAP; STACK; GUARD_PAGE; DATA; TEXT] (replicate 7 0)).
  destruct (@map_frame_maps_junk unit (demo 0 k (Some sh) [demo_proc RUNNING 1 0 None]) 0%nat RWXU "a" "b"
    (PHYSTOP - PGSIZE) [] sh 0%nat) as (s1 & _ & P & _ & _ & E).
  1: reflexivity. 1: exact Fp. 1: reflexivity. 1: reflexivity.
  eexists _, s1. split; [exact P | exact E].
Defined.
