(* ===== verification/Proctree.v ===== *)
(** * The process tree

    What allocproc, fork, exit, wait, the scheduler and the rest of proc.c do to
    the states, parents and pids of the process table: the effect of each
    operation of [Proc], the step relation of one CPU, and its invariant, a tree
    rooted in init. The last part follows a process that sleeps with an empty
    bucket through all the steps after it. *)

From stdpp Require Import base gmap list strings relations.
From Stdlib Require Import ZArith Lia.
From S2P Require Import Prelude Mem Cstring Kalloc Vm Proc.

(** *** The process tree *)

(** What the tree depends on: state, parent and pid of every process. *)
Definition pcore (p : proc) : procstate * option nat * Z := (p_state p, p_parent p, p_pid p).
Definition cores {F} (s : pk F) : list (procstate * option nat * Z) := map pcore (procs s).

(** A process that can run code. *)
Definition live (st : procstate) : Prop := st <> UNUSED /\ st <> ZOMBIE.

(** The parent pointers of the table. *)
Definition parent_of (cs : list (procstate * option nat * Z)) (i : nat) : option nat :=
  c ← cs !! i; c.1.2.

(** Following the parent pointers [par] from [i] ends at the process [r]. *)
Inductive below (par : nat -> option nat) (r : nat) : nat -> Prop :=
  | below_root : below par r r
  | below_child i q : par i = Some q -> below par r q -> below par r i.

Record tree_ok (cs : list (procstate * option nat * Z)) (np : Z) (init : option nat) : Prop := {
  t_len : length cs = 64%nat;
  t_next : 0 < np;
  t_unused : forall i par pid, cs !! i = Some (UNUSED, par, pid) -> par = None /\ pid = 0;
  t_pid : forall i st par pid, cs !! i = Some (st, par, pid) -> st <> UNUSED -> 0 < pid < np;
  t_uniq : forall i j st par st' par' pid,
    cs !! i = Some (st, par, pid) -> cs !! j = Some (st', par', pid) -> pid <> 0 -> i = j;
  t_parent : forall i st q pid, cs !! i = Some (st, Some q, pid) ->
    exists st' par' pid', cs !! q = Some (st', par', pid') /\ live st';
  t_root : exists r st pid, init = Some r /\ cs !! r = Some (st, None, pid) /\ live st /\
    forall i st' par pid', cs !! i = Some (st', par, pid') -> st' <> UNUSED -> below (parent_of cs) r i;
}.

Lemma below_mono par par' r i :
  (forall k q, par k = Some q -> par' k = Some q) -> below par r i -> below par' r i.
Proof. intros Hp. induction 1; econstructor; eauto. Qed.

(** No chain goes through an entry that is nobody's parent. *)
Lemma below_avoid par par' r z i :
  (forall k q, par k = Some q -> q <> z) -> (forall k, k <> z -> par' k = par k) ->
  below par r i -> i <> z -> below par' r i.
Proof.
  intros Hz Hp. induction 1 as [|i q Hq _ IH]; intros Hi; [constructor|].
  apply (below_child _ _ _ q); [by rewrite Hp | eauto].
Qed.

(** Handing the children of [z] to the root keeps everybody below it. *)
Lemma below_adopt par par' r z i :
  (forall k, par' k = if decide (par k = Some z) then Some r else par k) -> below par r i -> below par' r i.
Proof.
  intros Hp. induction 1 as [|i q Hq _ IH]; [constructor|]. pose proof (Hp i) as E. rewrite Hq in E.
  case_decide; (eapply below_child; [exact E|]); [constructor | exact IH].
Qed.

(** A process below the root is not its own ancestor. *)
Lemma below_acyclic par r i :
  par r = None -> below par r i -> ~ tc (fun x y => par x = Some y) i i.
Proof.
  intros Hr Hb Hc. assert (exists y, par i = Some y /\ rtc (fun x y => par x = Some y) y i) as (y & Hy & Hrt).
  { inversion Hc as [? ? Hy|? y ? Hy Hrt]; [exists i; split; [done|constructor] | exists y; split; [done | by apply tc_rtc]]. }
  clear Hc. revert y Hy Hrt. induction Hb as [|i q Hq _ IH]; intros y Hy Hrt; [congruence|].
  assert (y = q) as -> by congruence. apply rtc_inv in Hrt as [<-|(y & Hqy & Hrt)].
  - apply (IH q Hq). constructor.
  - apply (IH y Hqy). eapply rtc_r; [exact Hrt | exact Hq].
Qed.

Lemma parent_of_lookup cs i st par pid : cs !! i = Some (st, par, pid) -> parent_of cs i = par.
Proof. unfold parent_of. by intros ->. Qed.

(** Processes in use may change state, but not to ZOMBIE. *)
Definition rev1 (c c' : procstate * option nat * Z) : Prop :=
  c' = c \/ (c.1.1 <> UNUSED /\ live (c'.1.1) /\ c.1.2 = c'.1.2 /\ c.2 = c'.2).
Definition revive := Forall2 rev1.

Lemma rev1_refl c : rev1 c c.
Proof. by left. Qed.
Lemma rev1_trans c1 c2 c3 : rev1 c1 c2 -> rev1 c2 c3 -> rev1 c1 c3.
Proof.
  intros [->|(A & B & C & D)] [->|(A' & B' & C' & D')]; [by left | by right | by right |].
  right. split_and!; congruence || done.
Qed.
#[export] Instance rev1_preorder : PreOrder rev1.
Proof. split; [exact rev1_refl | exact rev1_trans]. Qed.
Lemma revive_refl cs : revive cs cs.
Proof. unfold revive. reflexivity. Qed.
Lemma revive_trans c1 c2 c3 : revive c1 c2 -> revive c2 c3 -> revive c1 c3.
Proof. unfold revive. intros ??. by transitivity c2. Qed.

#[export] Instance revive_preorder : PreOrder revive.
Proof. split; [exact revive_refl | exact revive_trans]. Qed.

Lemma revive_alter cs i f :
  (forall c, cs !! i = Some c -> rev1 c (f c)) -> revive cs (alter f i cs).
Proof.
  revert i. induction cs as [|c cs IH]; intros [|i] Hf; simpl; [constructor | constructor | |].
  - constructor; [by apply Hf | apply revive_refl].
  - constructor; [apply rev1_refl | by apply IH].
Qed.

Lemma revive_tree cs cs' np init : revive cs cs' -> tree_ok cs np init -> tree_ok cs' np init.
Proof.
  intros Hr []. assert (forall i c', cs' !! i = Some c' -> exists c, cs !! i = Some c /\ rev1 c c') as Hb.
  { intros i c' Hc. by apply (Forall2_lookup_r _ _ _ _ _ Hr Hc). }
  assert (forall i c, cs !! i = Some c -> exists c', cs' !! i = Some c' /\ rev1 c c') as Hf.
  { intros i c Hc. by apply (Forall2_lookup_l _ _ _ _ _ Hr Hc). }
  split; auto.
  - by rewrite <- (Forall2_length _ _ _ Hr).
  - intros i par pid Hc. apply Hb in Hc as ([[st par0] pid0] & Hc & [[= <- <- <-]|(_ & [? _] & _)]); eauto. done.
  - intros i st par pid Hc Hst. apply Hb in Hc as ([[st0 par0] pid0] & Hc & [[= -> -> ->]|(Hl & _ & _ & E)]); [eauto|].
    simpl in *. subst. eauto.
  - intros i j st par st' par' pid Hi Hj.
    apply Hb in Hi as ([[st0 par0] pid0] & Hi & Ri), Hj as ([[st1 par1] pid1] & Hj & Rj).
    assert (pid0 = pid) as -> by (destruct Ri as [[=]|(_ & _ & _ & ?)]; done).
    assert (pid1 = pid) as -> by (destruct Rj as [[=]|(_ & _ & _ & ?)]; done). eauto.
  - intros i st q pid Hi. apply Hb in Hi as ([[st0 par0] pid0] & Hi & Ri).
    assert (par0 = Some q) as -> by (destruct Ri as [[=]|(_ & _ & ? & _)]; done).
    apply t_parent0 in Hi as (st' & par' & pid' & Hq & Hl).
    apply Hf in Hq as ([[st2 par2] pid2] & Hq & [[= <- <- <-]|(_ & ? & _)]); eauto 10.
  - destruct t_root0 as (r & st & pid & -> & Hi & Hl & Hb0).
    assert (forall k, parent_of cs' k = parent_of cs k) as Hpar.
    { intros k. unfold parent_of. destruct (cs !! k) as [c|] eqn:Hk.
      - apply Hf in Hk as (c' & -> & [->|(_ & _ & E & _)]); [done|]. cbn. congruence.
      - destruct (cs' !! k) as [c'|] eqn:Hk'; [|done]. apply Hb in Hk' as (c & Hk' & _). congruence. }
    apply Hf in Hi as ([[st2 par2] pid2] & Hi & Hr1). exists r, st2, pid2. split; [done|].
    assert (par2 = None /\ live st2) as [-> Hl2] by (destruct Hr1 as [[= -> -> ->]|(_ & ? & E & _)]; [done | cbn in E; by subst]).
    split_and!; [done|done|]. intros k st' par pid' Hk Hst.
    apply (below_mono (parent_of cs)); [intros j q; by rewrite Hpar|].
    apply Hb in Hk as ([[st0 par0] pid0] & Hk & [[= -> -> ->]|(? & _)]); eapply Hb0; eauto.
Qed.

Lemma tree_acyclic cs np init i :
  tree_ok cs np init -> ~ tc (fun x y => parent_of cs x = Some y) i i.
Proof.
  intros [_ _ Hu _ _ _ (r & st & pid & _ & Hr & _ & Hb)]. destruct (cs !! i) as [[[st' par] pid']|] eqn:Hi.
  - destruct (decide (st' = UNUSED)) as [->|Hst].
    + apply Hu in Hi as Hp. destruct Hp as [-> _]. intros Hc.
      inversion Hc as [? ? Hy|? y ? Hy _]; rewrite (parent_of_lookup _ _ _ _ _ Hi) in Hy; done.
    + apply (below_acyclic _ r); [by apply (parent_of_lookup _ _ _ _ _ Hr) | by eapply Hb].
  - intros Hc. inversion Hc as [? ? Hy|? y ? Hy _]; unfold parent_of in Hy; by rewrite Hi in Hy.
Qed.

(** fork adds a child of a live process ... *)
Lemma tree_fork cs np init i j st par pid :
  tree_ok cs np init -> cs !! j = Some (UNUSED, None, 0) -> cs !! i = Some (st, par, pid) -> live st ->
  tree_ok (<[j := (RUNNABLE, Some i, np)]> cs) (np + 1) init.
Proof.
  intros [] Hj Hi Hl. apply lookup_lt_Some in Hj as Hjl.
  assert (i <> j) as Hij by (intros ->; rewrite Hi in Hj; injection Hj as ->; by destruct Hl).
  split.
  - by rewrite length_insert.
  - lia.
  - intros k par0 pid0 Hk. apply list_lookup_insert_Some in Hk as [(_ & [=] & _)|[_ Hk]]. eauto.
  - intros k st0 par0 pid0 Hk Hst. apply list_lookup_insert_Some in Hk as [(_ & [= <- <- <-] & _)|[_ Hk]]; [lia|].
    specialize (t_pid0 _ _ _ _ Hk Hst). lia.
  - intros k k' st0 par0 st1 par1 pid0 Hk Hk' Hp.
    apply list_lookup_insert_Some in Hk as [(<- & [= <- <- <-] & _)|[_ Hk]],
      Hk' as [(<- & [= ] & _)|[_ Hk']]; try done.
    + destruct (decide (st1 = UNUSED)) as [->|Hst]; [apply t_unused0 in Hk'; lia|].
      specialize (t_pid0 _ _ _ _ Hk' Hst). lia.
    + subst. destruct (decide (st0 = UNUSED)) as [->|Hst]; [apply t_unused0 in Hk; lia|].
      specialize (t_pid0 _ _ _ _ Hk Hst). lia.
    + eauto.
  - intros k st0 q pid0 Hk. apply list_lookup_insert_Some in Hk as [(_ & [= <- <- <-] & _)|[_ Hk]].
    + exists st, par, pid. by rewrite list_lookup_insert_ne.
    + apply t_parent0 in Hk as (st' & par' & pid' & Hq & Hlq). exists st', par', pid'.
      rewrite list_lookup_insert_ne; [done|]. intros ->. rewrite Hj in Hq. injection Hq as <- <- <-. by destruct Hlq.
  - destruct t_root0 as (r & st0 & pid0 & -> & Hr & Hlr & Hb).
    assert (r <> j) as Hrj by (intros ->; rewrite Hj in Hr; injection Hr as <- <-; by destruct Hlr).
    exists r, st0, pid0. rewrite list_lookup_insert_ne by done. split_and!; [done..|].
    assert (forall k, below (parent_of cs) r k -> below (parent_of (<[j := (RUNNABLE, Some i, np)]> cs)) r k) as Hm.
    { intros k. apply below_mono. intros k' q Hk'. unfold parent_of in *. rewrite list_lookup_insert_ne; [done|].
      intros <-. by rewrite Hj in Hk'. }
    intros k st1 par1 pid1 Hk Hst. apply list_lookup_insert_Some in Hk as [(<- & [= <- <- <-] & _)|[_ Hk]].
    + apply (below_child _ _ _ i); [unfold parent_of; by rewrite list_lookup_insert_eq|].
      apply Hm. eapply Hb; [exact Hi|]. by destruct Hl.
    + apply Hm. eauto.
Qed.

(** ... wait frees a zombie ... *)
Lemma tree_free cs np init z par pid :
  tree_ok cs np init -> cs !! z = Some (ZOMBIE, par, pid) ->
  tree_ok (<[z := (UNUSED, None, 0)]> cs) np init.
Proof.
  intros [] Hz. split; auto.
  - by rewrite length_insert.
  - intros k par0 pid0 Hk. apply list_lookup_insert_Some in Hk as [(_ & [= <- <-] & _)|[_ Hk]]; eauto.
  - intros k st0 par0 pid0 Hk Hst. apply list_lookup_insert_Some in Hk as [(_ & [= <- <- <-] & _)|[_ Hk]]; eauto. done.
  - intros k k' st0 par0 st1 par1 pid0 Hk Hk' Hp.
    apply list_lookup_insert_Some in Hk as [(<- & [= <- <- <-] & _)|[_ Hk]]; [done|].
    apply list_lookup_insert_Some in Hk' as [(<- & [= <- <- <-] & _)|[_ Hk']]; [done|]. eauto.
  - intros k st0 q pid0 Hk. apply list_lookup_insert_Some in Hk as [(_ & [=] & _)|[_ Hk]].
    apply t_parent0 in Hk as (st' & par' & pid' & Hq & Hlq). exists st', par', pid'.
    rewrite list_lookup_insert_ne; [done|]. intros ->. rewrite Hz in Hq. injection Hq as <- <- <-. by destruct Hlq.
  - destruct t_root0 as (r & st0 & pid0 & -> & Hr & Hlr & Hb).
    assert (r <> z) as Hrz by (intros ->; rewrite Hz in Hr; injection Hr as <- _ <-; by destruct Hlr).
    exists r, st0, pid0. rewrite list_lookup_insert_ne by done. split_and!; [done..|].
    intros k st1 par1 pid1 Hk Hst. apply list_lookup_insert_Some in Hk as [(_ & [= <- <- <-] & _)|[Hzk Hk]]; [done|].
    apply (below_avoid (parent_of cs) _ _ z); [| |by eapply Hb|done].
    + intros k' q Hk'. unfold parent_of in Hk'. destruct (cs !! k') as [[[st2 par2] pid2]|] eqn:Ek; [|done].
      cbn in Hk'. subst. apply t_parent0 in Ek as (st' & par' & pid' & Hq & Hlq). intros ->.
      rewrite Hz in Hq. injection Hq as <- _ _. by destruct Hlq.
    + intros k' Hk'. unfold parent_of. by rewrite list_lookup_insert_ne.
Qed.

(** ... and exit gives the children to init and makes a zombie. *)
Definition orphan (i : nat) (init : option nat) (c : procstate * option nat * Z) :
    procstate * option nat * Z :=
  if bool_decide (c.1.2 = Some i) then (c.1.1, init, c.2) else c.

Lemma tree_exit cs np init i st par pid :
  tree_ok cs np init -> cs !! i = Some (st, par, pid) -> live st -> init <> Some i ->
  tree_ok (alter (fun c => (ZOMBIE, c.1.2, c.2)) i (map (orphan i init) cs)) np init.
Proof.
  intros [] Hi Hl Hne. destruct t_root0 as (r & str & pidr & -> & Hr & Hlr & Hbel).
  assert (r <> i) as Hri by congruence.
  assert (forall k c', alter (fun c => (ZOMBIE, c.1.2, c.2)) i (map (orphan i (Some r)) cs) !! k = Some c' ->
            exists c, cs !! k = Some c /\ c'.2 = c.2 /\
              c'.1.1 = (if decide (k = i) then ZOMBIE else c.1.1) /\
              c'.1.2 = (if decide (c.1.2 = Some i) then Some r else c.1.2)) as Hb.
  { intros k c' Hk. destruct (decide (k = i)) as [->|Hki].
    - rewrite list_lookup_alter_eq in Hk. rewrite list_lookup_fmap in Hk.
      destruct (cs !! i) as [c|]; [|done]. injection Hk as <-. exists c. unfold orphan.
      case_bool_decide; case_decide; done.
    - rewrite list_lookup_alter_ne, list_lookup_fmap in Hk by done.
      destruct (cs !! k) as [c|]; [|done]. injection Hk as <-. exists c. unfold orphan.
      case_bool_decide; case_decide; done. }
  assert (forall k c, cs !! k = Some c -> k <> i ->
     exists c', alter (fun c => (ZOMBIE, c.1.2, c.2)) i (map (orphan i (Some r)) cs) !! k = Some c' /\ c'.1.1 = c.1.1) as Hf.
  { intros k c Hk Hki. rewrite list_lookup_alter_ne, list_lookup_fmap, Hk by done. eexists. split; [done|].
    unfold orphan. by case_bool_decide. }
  split; auto.
  - rewrite length_alter, length_map. done.
  - intros k par0 pid0 Hk. apply Hb in Hk as ([[st1 par1] pid1] & Hk & E2 & E1 & E3). simpl in *.
    destruct (decide (k = i)); [done|]. subst. apply t_unused0 in Hk as [-> ->]. done.
  - intros k st0 par0 pid0 Hk Hst. apply Hb in Hk as ([[st1 par1] pid1] & Hk & E2 & E1 & E3). simpl in *. subst pid0.
    destruct (decide (k = i)) as [->|]; [|subst; eauto]. rewrite Hi in Hk. injection Hk as <- <- <-.
    destruct Hl. eauto.
  - intros k k' st0 par0 st1 par1 pid0 Hk Hk' Hp.
    apply Hb in Hk as ([[? ?] ?] & Hk & E2 & _), Hk' as ([[? ?] ?] & Hk' & E2' & _). simpl in *. subst. eauto.
  - intros k st0 q pid0 Hk. apply Hb in Hk as ([[st1 par1] pid1] & Hk & E2 & E1 & E3). simpl in *.
    destruct (decide (par1 = Some i)) as [->|Hp].
    + injection E3 as ->. destruct (Hf r _ Hr Hri) as ([[st2 par2] pid2] & H2 & E). simpl in E. subst.
      exists str, par2, pid2. done.
    + subst par1. apply t_parent0 in Hk as (st' & par' & pid' & Hq & Hlq).
      assert (q <> i) as Hqi by congruence. destruct (Hf q _ Hq Hqi) as ([[st2 par2] pid2] & H2 & E).
      simpl in E. subst. eauto 10.
  - destruct (Hf r _ Hr Hri) as ([[st2 par2] pid2] & H2 & E). simpl in E. subst st2.
    pose proof H2 as H3. apply Hb in H3 as (c & Hc & _ & _ & Ep). rewrite Hr in Hc. injection Hc as <-. cbn in Ep. subst par2.
    exists r, str, pid2. split_and!; [done..|]. intros k st' par' pid' Hk Hst.
    apply Hb in Hk as ([[st0 par0] pid0] & Hk & _ & Est & _).
    apply (below_adopt (parent_of cs) _ _ i).
    + intros k'. unfold parent_of. destruct (decide (k' = i)) as [->|Hk'].
      * rewrite list_lookup_alter_eq, list_lookup_fmap. destruct (cs !! i) as [c|]; [|done]. cbn.
        unfold orphan. repeat case_bool_decide; repeat case_decide; done.
      * rewrite list_lookup_alter_ne, list_lookup_fmap by done. destruct (cs !! k') as [c|]; [|done]. cbn.
        unfold orphan. repeat case_bool_decide; repeat case_decide; done.
    + eapply Hbel; [exact Hk|]. cbn in Est. case_decide; [|congruence]. subst.
      rewrite Hi in Hk. injection Hk as <- _ _. by destruct Hl.
Qed.

(** *** The effects of the operations on the tree *)

Section effects.
Context {F : Type} `{FsEnv F}.
Implicit Types s : pk F.

(** [m] changes the tree by [R] at most. *)
Definition eff (R : relation (list (procstate * option nat * Z))) {A} (m : PM (F := F) A) : Prop :=
  forall s a s', m s = Ok a s' ->
    R (cores s) (cores s') /\ nextpid s' = nextpid s /\ initproc s' = initproc s /\ cur s' = cur s.

Lemma eff_ret (R : relation _) `{!Reflexive R} {A} (a : A) : eff R (ret a).
Proof. intros s b s' E. injection E as _ <-. split_and!; [reflexivity | done..]. Qed.

Lemma eff_gets (R : relation _) `{!Reflexive R} {A} (f : pk F -> A) : eff R (gets f).
Proof. intros s b s' E. injection E as _ <-. split_and!; [reflexivity | done..]. Qed.

Lemma eff_get (R : relation _) `{!Reflexive R} : eff R get.
Proof. intros s b s' E. injection E as _ <-. split_and!; [reflexivity | done..]. Qed.

Lemma eff_halt (R : relation _) {A} e : eff R (@halt (pk F) A e).
Proof. intros s a s' E. discriminate E. Qed.

Lemma eff_bind (R : relation _) `{!Transitive R} {A B} (m : PM A) (k : A -> PM B) :
  eff R m -> (forall a, eff R (k a)) -> eff R (bind m k).
Proof.
  intros Hm Hk s b s' (a & s1 & E1 & E2)%bind_Ok.
  destruct (Hm _ _ _ E1) as (R1 & N1 & I1 & C1), (Hk _ _ _ _ E2) as (R2 & N2 & I2 & C2).
  split_and!; [by transitivity (cores s1) | congruence..].
Qed.

Lemma eff_for_each (R : relation _) `{!PreOrder R} {A} (l : list A) f :
  (forall x, eff R (f x)) -> eff R (for_each l f).
Proof.
  intros Hf. induction l as [|x l IH]; [apply eff_ret, _|].
  cbn [for_each]. apply (eff_bind R (f x) (fun _ => for_each l f)); [apply Hf | intros _; exact IH].
Qed.

Lemma eff_zoom (R : relation _) `{!Reflexive R} {A B} (l : lens (pk F) B) (m : M B A) :
  (forall b s, cores (over l b s) = cores s /\ nextpid (over l b s) = nextpid s /\
               initproc (over l b s) = initproc s /\ cur (over l b s) = cur s) ->
  eff R (zoom l m).
Proof.
  intros Hl s a s' E. unfold zoom in E. destruct (m (view l s)); [|discriminate E]. injection E as _ <-.
  destruct (Hl s0 s) as (-> & -> & -> & ->). split_and!; [reflexivity | done..].
Qed.

Lemma eff_onk (R : relation _) `{!Reflexive R} {A} (m : M kst A) : eff R (onk m).
Proof. apply eff_zoom; [apply _|]. done. Qed.
Lemma eff_onf (R : relation _) `{!Reflexive R} {A} (m : M F A) : eff R (onf m).
Proof. apply eff_zoom; [apply _|]. done. Qed.

Lemma cores_alter s i f : cores (with_procs (alter f i) s) = alter (fun _ => pcore (f (getp s i))) i (cores s).
Proof.
  unfold cores, with_procs. cbn [procs]. unfold getp. generalize (procs s) as l. intros l. revert i.
  induction l as [|p l IH]; intros [|i]; simpl; [done | done | done |]. f_equal. apply IH.
Qed.

Lemma alter_id {A} (l : list A) i f : (forall x, l !! i = Some x -> f x = x) -> alter f i l = l.
Proof.
  revert i. induction l as [|x l IH]; intros [|i] Hf; simpl; [done | done | |].
  - f_equal. by apply Hf.
  - f_equal. by apply IH.
Qed.

Lemma cores_lookup s i : cores s !! i = pcore <$> procs s !! i.
Proof. apply list_lookup_fmap. Qed.

Lemma cores_getp s i c : cores s !! i = Some c -> pcore (getp s i) = c.
Proof. rewrite cores_lookup. unfold getp. destruct (procs s !! i); [|done]. by intros [= <-]. Qed.

Lemma eff_upd (R : relation _) `{!Reflexive R} i f :
  (forall p, pcore (f p) = pcore p) -> eff R (upd_proc i f).
Proof.
  intros Hf s a s' E. rewrite upd_proc_run in E. injection E as _ <-. split_and!; try done.
  rewrite cores_alter, alter_id; [reflexivity|]. intros x Hx. rewrite Hf. by apply cores_getp.
Qed.

Lemma eff_upd_shr (R : relation _) `{!Reflexive R} x : eff R (set_shr x).
Proof. intros s a s' E. injection E as _ <-. split_and!; [reflexivity | done..]. Qed.
Lemma eff_page7 (R : relation _) `{!Reflexive R} i x : eff R (set_page7 i x).
Proof. intros s a s' E. injection E as _ <-. split_and!; [reflexivity | done..]. Qed.

Lemma eff_theproc (R : relation _) `{!Reflexive R} i : eff R (theproc i).
Proof. apply eff_gets, _. Qed.

Lemma eff_when (R : relation _) `{!Reflexive R} b m : eff R m -> eff R (when b m).
Proof. destruct b; [done | intros _; apply eff_ret, _]. Qed.

Ltac eff_step :=
  match goal with
  | |- eff _ (bind _ _) => refine (eff_bind _ _ _ _ _); [|intros ?]
  | |- eff _ (ret _) => refine (eff_ret _ _)
  | |- eff _ (gets _) => refine (eff_gets _ _)
  | |- eff _ get => refine (eff_get _)
  | |- eff _ (halt _) => refine (eff_halt _ _)
  | |- eff _ (panic _) => refine (eff_halt _ _)
  | |- eff _ (fault _) => refine (eff_halt _ _)
  | |- eff _ (onk _) => refine (eff_onk _ _)
  | |- eff _ (onf _) => refine (eff_onf _ _)
  | |- eff _ (theproc _) => refine (eff_theproc _ _)
  | |- eff _ (set_shr _) => refine (eff_upd_shr _ _)
  | |- eff _ (set_page7 _ _) => refine (eff_page7 _ _ _)
  | |- eff _ (when _ _) => refine (eff_when _ _ _ _)
  | |- eff _ (for_each _ _) => refine (eff_for_each _ _ _ _); intros ?
  | |- eff _ (upd_proc _ _) => refine (eff_upd _ _ _ _); by intros []
  | |- eff _ (if ?b then _ else _) => destruct b
  | |- eff _ (match ?x with _ => _ end) => destruct x
  | |- eff _ _ => progress unfold sys_uptime, theshr, shr_table, map_frame
  end.
Ltac effs := repeat eff_step.

Lemma eff_map_frames : eff eq map_frames_helper.
Proof. unfold map_frames_helper, map_frames. effs. Qed.
Lemma eff_dup_fd i np fd : eff eq (dup_fd i np fd).
Proof. unfold dup_fd. effs. Qed.
Lemma eff_close_fd i fd : eff eq (close_fd i fd).
Proof. unfold close_fd. effs. Qed.
Lemma eff_sched_late i t : eff eq (sched_late i t).
Proof. unfold sched_late. effs. Qed.

Lemma eff_wakeup chan : eff revive (wakeup chan).
Proof.
  unfold wakeup. refine (eff_for_each _ _ _ _).
  intros i s a s' E. unfold bind, get in E. rewrite upd_proc_run in E. injection E as _ <-.
  split_and!; try done. rewrite cores_alter. apply revive_alter. intros c Hc. apply cores_getp in Hc as <-.
  unfold wake_one. destruct (bool_decide (Some i = cur s)); [by left|].
  destruct (bool_decide (p_state (getp s i) = SLEEPING) && (p_chan (getp s i) =? chan)) eqn:Eb; [|by left].
  bool_to_prop. apply bool_decide_eq_true_1 in H0. right. unfold pcore. simpl. rewrite H0.
  split_and!; try done; split; discriminate.
Qed.

(** [m] changes the tree by the function [f]. *)
Definition keff (f : list (procstate * option nat * Z) -> list (procstate * option nat * Z))
    {A} (m : PM (F := F) A) : Prop :=
  eff (fun cs cs' => cs' = f cs) m.

Lemma keff_id {A} (m : PM A) : eff eq m -> keff (fun c => c) m.
Proof. intros Hm s a s' E. destruct (Hm _ _ _ E) as (-> & ? & ? & ?). done. Qed.

Lemma keff_bind f g {A B} (m : PM A) (k : A -> PM B) :
  keff f m -> (forall a, keff g (k a)) -> keff (fun c => g (f c)) (bind m k).
Proof.
  intros Hm Hk s b s' (a & s1 & E1 & E2)%bind_Ok.
  destruct (Hm _ _ _ E1) as (R1 & N1 & I1 & C1), (Hk _ _ _ _ E2) as (R2 & N2 & I2 & C2).
  split_and!; congruence.
Qed.

Lemma keff_upd i f g :
  (forall p, pcore (f p) = g (pcore p)) -> keff (alter g i) (upd_proc i f).
Proof.
  intros Hf s a s' E. rewrite upd_proc_run in E. injection E as _ <-. split_and!; try done.
  rewrite cores_alter. apply list_alter_ext; [|done]. intros c Hc. rewrite Hf. f_equal. by apply cores_getp.
Qed.

Lemma eff_freeproc i : keff (alter (fun _ => (UNUSED, None, 0)) i) (freeproc i).
Proof.
  assert (exists f, keff f (freeproc i) /\ forall cs, f cs = alter (fun _ => (UNUSED, None, 0)) i cs)
    as (f & Hf & E).
  2: { intros s a s' Es. destruct (Hf _ _ _ Es) as (-> & ? & ? & ?). by rewrite E. }
  unfold freeproc. eexists. split.
  - repeat first
      [ refine (keff_bind _ _ _ _ _ _); [|intros ?]
      | solve [apply keff_id; effs]
      | refine (keff_upd _ _ (fun c => (c.1.1, c.1.2, 0)) _); by intros []
      | refine (keff_upd _ _ (fun c => (c.1.1, None, c.2)) _); by intros []
      | refine (keff_upd _ _ (fun c => (UNUSED, c.1.2, c.2)) _); by intros [] ].
  - intros cs. cbv beta. rewrite !list_alter_alter_eq. by apply list_alter_ext.
Qed.

Lemma find_proc_Some s test i :
  find_proc s test = Some i -> (i < 64)%nat /\ test (getp s i) = true.
Proof.
  unfold find_proc. intros [Hi Ht]%List.find_some. split; [|done].
  by apply elem_all_procs, list_elem_of_In.
Qed.

Definition next_of (s s' : pk F) : Prop :=
  nextpid s' = i32 (nextpid s + 1) /\ initproc s' = initproc s /\ cur s' = cur s.

(** allocproc takes an unused entry, or leaves the tree alone. *)
Lemma allocproc_effect s r s' :
  allocproc s = Ok r s' -> length (procs s) = 64%nat ->
  (forall i par pid, cores s !! i = Some (UNUSED, par, pid) -> par = None /\ pid = 0) ->
  match r with
  | None => cores s' = cores s /\ (next_of s s' \/ s' = s)
  | Some j => cores s !! j = Some (UNUSED, None, 0) /\
              cores s' = <[j := (USED, None, nextpid s)]> (cores s) /\ next_of s s'
  end.
Proof.
  intros E Hlen Hun. unfold allocproc, bind at 1, get in E.
  destruct (find_proc s (is_state UNUSED)) as [j|] eqn:Ef; [|injection E as <- <-; auto].
  apply find_proc_Some in Ef as [Hj Hst]. apply bool_decide_eq_true_1 in Hst.
  assert (cores s !! j = Some (UNUSED, None, 0)) as Hc.
  { assert (cores s !! j = Some (pcore (getp s j))) as Hc.
    { rewrite cores_lookup. unfold getp. destruct (procs s !! j) eqn:Ej; [done|].
      apply lookup_ge_None_1 in Ej. lia. }
    rewrite Hc. unfold pcore in *. rewrite Hst in *. by destruct (Hun _ _ _ Hc) as [-> ->]. }
  apply bind_Ok in E as (pid & s1 & E1 & E). injection E1 as <- <-.
  set (s1 := Pk _ _ _ _ _ _ _ _ _ _ _) in E.
  assert (next_of s s1) as Hn1 by done.
  change (cores s) with (cores s1) in *.
  assert (forall s', nextpid s' = nextpid s1 /\ initproc s' = initproc s1 /\ cur s' = cur s1 -> next_of s s') as Hnx.
  { intros s2 (N & I & K). unfold next_of. rewrite N, I, K. exact Hn1. }
  clearbody s1. clear Hn1 Hun Hst Hlen.
  apply bind_Ok in E as ([] & s2 & E2 & E). apply bind_Ok in E as ([] & s3 & E3 & E).
  destruct (keff_upd j (set_pid (nextpid s)) (fun c => (c.1.1, c.1.2, nextpid s)) (fun p => eq_refl) _ _ _ E2) as (R2 & N2 & I2 & C2).
  destruct (keff_upd j (set_state USED) (fun c => (USED, c.1.2, c.2)) (fun p => eq_refl) _ _ _ E3) as (R3 & N3 & I3 & C3).
  assert (cores s3 = <[j := (USED, None, nextpid s)]> (cores s1)) as Hc3.
  { rewrite R3, R2, list_alter_alter_eq. apply list_eq. intros k. destruct (decide (k = j)) as [->|].
    - rewrite list_lookup_alter_eq, Hc, list_lookup_insert_eq; [done|]. by apply lookup_lt_Some in Hc.
    - by rewrite list_lookup_alter_ne, list_lookup_insert_ne. }
  assert (forall r s5 s6, cores s5 = cores s3 -> nextpid s5 = nextpid s1 -> initproc s5 = initproc s1 -> cur s5 = cur s1 ->
     (freeproc j ;; ret (@None nat)) s5 = Ok r s6 ->
     r = None /\ cores s6 = cores s1 /\ next_of s s6) as Hfree.
  { intros r' s5 s6 Hc5 N5 I5 C5 ([] & s7 & E7 & E8)%bind_Ok. injection E8 as <- <-.
    destruct (eff_freeproc j _ _ _ E7) as (R7 & N7 & I7 & C7). split_and!; [done | | apply Hnx; split_and!; congruence].
    rewrite R7, Hc5, Hc3. apply list_eq. intros k. destruct (decide (k = j)) as [->|].
    - rewrite list_lookup_alter_eq, list_lookup_insert_eq; [done|]. by apply lookup_lt_Some in Hc.
    - by rewrite list_lookup_alter_ne, list_lookup_insert_ne. }
  apply bind_Ok in E as (tf & s4 & E4 & E). apply (eff_onk eq) in E4 as (R4 & N4 & I4 & C4).
  apply bind_Ok in E as ([] & s5 & E5 & E). apply (eff_upd eq) in E5 as (R5 & N5 & I5 & C5); [|by intros []].
  destruct (tf =? 0).
  { edestruct Hfree as (-> & ? & ?); [| | | | exact E | auto]; congruence. }
  apply bind_Ok in E as (pt & s6 & E6 & E). apply (eff_onk eq) in E6 as (R6 & N6 & I6 & C6).
  apply bind_Ok in E as ([] & s7 & E7 & E). apply (eff_upd eq) in E7 as (R7 & N7 & I7 & C7); [|by intros []].
  destruct (pt =? 0).
  { edestruct Hfree as (-> & ? & ?); [| | | | exact E | auto]; congruence. }
  destruct (shr s) as [sh|]; [|discriminate E].
  apply bind_Ok in E as ([] & s8 & E8 & E). apply (eff_upd_shr eq) in E8 as (R8 & N8 & I8 & C8).
  apply bind_Ok in E as (p & s9 & E9 & E). apply (eff_theproc eq) in E9 as (R9 & N9 & I9 & C9).
  apply bind_Ok in E as ([] & sa & Ea & E). apply (eff_upd eq) in Ea as (Ra & Na & Ia & Ca); [|by intros []].
  apply bind_Ok in E as ([] & sb & Eb & E). apply (eff_upd eq) in Eb as (Rb & Nb & Ib & Cb); [|by intros []].
  apply bind_Ok in E as (ct & sc & Ec & E). apply (eff_gets eq) in Ec as (Rc & Nc & Ic & Cc).
  apply bind_Ok in E as ([] & sd & Ed & E). apply (eff_upd eq) in Ed as (Rd & Nd & Id & Cd); [|by intros []].
  injection E as <- <-. split_and!; [done | congruence | apply Hnx; split_and!; congruence].
Qed.

Lemma myproc_Ok s i s' : myproc s = Ok i s' -> cur s = Some i /\ s' = s.
Proof. unfold myproc, bind, get. destruct (cur s); [|discriminate]. by intros [= <- <-]. Qed.

(** Solve a chain of operations that change the tree by known functions. *)
Ltac keffs i x :=
  repeat first
    [ refine (keff_bind _ _ _ _ _ _); [|intros ?]
    | solve [apply keff_id; effs; auto using eff_map_frames, eff_dup_fd, eff_close_fd]
    | refine (keff_upd _ _ (fun c => (c.1.1, x, c.2)) _); by intros []
    | refine (keff_upd _ _ (fun c => (RUNNABLE, c.1.2, c.2)) _); by intros []
    | refine (keff_upd _ _ (fun c => (ZOMBIE, c.1.2, c.2)) _); by intros [] ].

(** The child half of fork. *)
Lemma fork_tail i np p n s r s' :
  (upd_proc np (set_sz (p_sz p)) ;;
   onk (upd_mem (fun m => memmove m (p_trapframe n) (p_trapframe p) TF_SIZE)) ;;
   onk (upd_mem (fun m => store64 m (p_trapframe n + TF_A0) 0)) ;;
   for_each (seq 0 16) (dup_fd i np) ;;
   let* p := theproc i in
   let* cwd := onf (fe_idup (p_cwd p)) in
   upd_proc np (set_cwd cwd) ;;
   upd_proc np (fun q => set_name (safestrcpy_bytes (p_name q) (p_name p) 16) q) ;;
   upd_proc np (set_ticks 0) ;;
   let* ctime := sys_uptime in
   upd_proc np (set_last ctime) ;;
   let* n := theproc np in
   let pid := p_pid n in
   upd_proc np (set_parent (Some i)) ;;
   upd_proc np (set_state RUNNABLE) ;;
   let* sh := theshr in
   set_shr (Some (ShrimpySt (Some np) (sh_NP sh) (sh_vas sh) (sh_pas sh))) ;;
   map_frames_helper ;;
   ret pid) s = Ok r s' ->
  cores s' = alter (fun c => (RUNNABLE, Some i, c.2)) np (cores s) /\
  nextpid s' = nextpid s /\ initproc s' = initproc s /\ cur s' = cur s.
Proof.
  match goal with |- ?m s = _ -> _ =>
    assert (exists f, keff f m /\ forall cs, f cs = alter (fun c => (RUNNABLE, Some i, c.2)) np cs)
      as (f & Hf & Ef) end.
  - eexists. split; [keffs np (Some i)|]. intros cs. cbv beta. rewrite list_alter_alter_eq. done.
  - intros E. destruct (Hf _ _ _ E) as (-> & ? & ? & ?). by rewrite Ef.
Qed.

Definition proc_inv s : Prop :=
  tree_ok (cores s) (nextpid s) (initproc s) /\
  forall i, cur s = Some i -> exists st par pid, cores s !! i = Some (st, par, pid) /\ live st.

Lemma tree_length s : tree_ok (cores s) (nextpid s) (initproc s) -> length (procs s) = 64%nat.
Proof. intros []. unfold cores in *. by rewrite length_map in *. Qed.

(** nextpid may grow. *)
Lemma tree_next cs np np' init : tree_ok cs np init -> np <= np' -> tree_ok cs np' init.
Proof. intros [] Hle. split; auto; [lia|]. intros i st par pid Hi Hst. specialize (t_pid0 _ _ _ _ Hi Hst). lia. Qed.

Lemma alter_back j (cs : list (procstate * option nat * Z)) c c' :
  cs !! j = Some c' -> alter (fun _ => c') j (<[j := c]> cs) = cs.
Proof.
  intros Hj. apply list_eq. intros k. destruct (decide (k = j)) as [->|].
  - rewrite list_lookup_alter_eq, list_lookup_insert_eq; [done|]. by apply lookup_lt_Some in Hj.
  - by rewrite list_lookup_alter_ne, list_lookup_insert_ne.
Qed.

(** fork leaves the tree alone or adds a runnable child of the caller. *)
Lemma fork_effect s r s' :
  proc_inv s -> fork s = Ok r s' -> nextpid s < 2 ^ 31 - 1 ->
  initproc s' = initproc s /\ cur s' = cur s /\
  ((cores s' = cores s /\ nextpid s <= nextpid s') \/
   exists i j, cur s = Some i /\ cores s !! j = Some (UNUSED, None, 0) /\
     cores s' = <[j := (RUNNABLE, Some i, nextpid s)]> (cores s) /\ nextpid s' = nextpid s + 1).
Proof.
  intros [Ht Hcur] E Hnp. pose proof Ht as [_ Hn0 Hun _ _ _ _].
  unfold fork in E. apply bind_Ok in E as (i & s0 & E0 & E). apply myproc_Ok in E0 as [Hi ->].
  apply bind_Ok in E as (r1 & s1 & E1 & E).
  pose proof (allocproc_effect _ _ _ E1 (tree_length _ Ht) Hun) as Ha.
  destruct r1 as [np|].
  2: { destruct Ha as [Hc Hnx]. injection E as _ <-. destruct Hnx as [(N & I & K)| ->]; [|split_and!; [done|done|left; split; [done|lia]]].
       rewrite i32_id in N by lia. split_and!; [done|done|left; split; [done|lia]]. }
  destruct Ha as (Hnpc & Hc1 & N1 & I1 & K1). rewrite i32_id in N1 by lia.
  apply bind_Ok in E as (p & s2 & E2 & E). injection E2 as <- <-.
  apply bind_Ok in E as (n & s3 & E3 & E). injection E3 as <- <-.
  apply bind_Ok in E as (c & s4 & E4 & E). apply (eff_onk eq) in E4 as (R4 & N4 & I4 & K4).
  destruct (c <? 0).
  - apply bind_Ok in E as ([] & s5 & E5 & E). apply (eff_upd eq) in E5 as (R5 & N5 & I5 & K5); [|by intros []].
    apply bind_Ok in E as ([] & s6 & E6 & E). apply (eff_upd eq) in E6 as (R6 & N6 & I6 & K6); [|by intros []].
    apply bind_Ok in E as ([] & s7 & E7 & E). apply eff_freeproc in E7 as (R7 & N7 & I7 & K7).
    injection E as _ <-. split_and!; [congruence..|]. left.
    split; [|replace (nextpid s7) with (nextpid s + 1) by congruence; lia].
    rewrite R7, <- R6, <- R5, <- R4, Hc1. by apply alter_back.
  - lazymatch type of E with context [set_parent (Some i)] => apply fork_tail in E as (R5 & N5 & I5 & K5) end.
    split_and!; [congruence..|]. right. exists i, np.
    split_and!; [done|done| |congruence].
    rewrite R5, <- R4, Hc1. apply list_eq. intros k. destruct (decide (k = np)) as [->|].
    + apply lookup_lt_Some in Hnpc. by rewrite list_lookup_alter_eq, !list_lookup_insert_eq.
    + by rewrite list_lookup_alter_ne, !list_lookup_insert_ne.
Qed.

Lemma fork_inv s r s' :
  proc_inv s -> fork s = Ok r s' -> nextpid s < 2 ^ 31 - 1 -> proc_inv s'.
Proof.
  intros Hinv E Hnp. destruct (fork_effect s r s' Hinv E Hnp) as (I & K & Hf). destruct Hinv as [Ht Hcur].
  unfold proc_inv. rewrite I, K. destruct Hf as [[-> Hle]|(i & j & Hi & Hj & -> & ->)].
  - split; [by eapply tree_next | exact Hcur].
  - destruct (Hcur i Hi) as (st & par & pid & Hci & Hl). split; [by eapply tree_fork|].
    intros k Hk. assert (k = i) as -> by congruence. exists st, par, pid. split; [|done].
    rewrite list_lookup_insert_ne; [done|]. intros ->. rewrite Hj in Hci. injection Hci as <- _ _. by destruct Hl.
Qed.

(** *** exit: the children go to init *)

Lemma orphan_rev1 p init c c' : rev1 c c' -> rev1 (orphan p init c) (orphan p init c').
Proof.
  intros [->|(A & B & C & D)]; [by left|]. right. unfold orphan. rewrite C.
  case_bool_decide; rewrite ?C; split_and!; auto.
Qed.

Lemma revive_lookup cs cs' :
  revive cs cs' <-> length cs = length cs' /\
    forall k c, cs !! k = Some c -> exists c', cs' !! k = Some c' /\ rev1 c c'.
Proof.
  split.
  - intros Hr. split; [exact (Forall2_length _ _ _ Hr)|]. intros k c Hk. exact (Forall2_lookup_l _ _ _ _ _ Hr Hk).
  - intros [Hl Hr]. apply Forall2_same_length_lookup_2; [done|]. intros k c c' Hk Hk'.
    destruct (Hr k c Hk) as (c2 & Hk2 & ?). congruence.
Qed.

Lemma reparent_one p pp s s' :
  (let* q := theproc pp in
   if bool_decide (p_parent q = Some p) then
     let* s := get in
     upd_proc pp (set_parent (initproc s)) ;; wakeup (parentaddr s (initproc s))
   else ret tt) s = Ok tt s' ->
  revive (alter (orphan p (initproc s)) pp (cores s)) (cores s') /\
  nextpid s' = nextpid s /\ initproc s' = initproc s /\ cur s' = cur s.
Proof.
  intros (q & s1 & E1 & E)%bind_Ok. injection E1 as <- <-.
  assert (forall g, (forall c, pcore (getp s pp) = c -> g c = orphan p (initproc s) c) ->
    alter (orphan p (initproc s)) pp (cores s) = alter g pp (cores s)) as Hg.
  { intros g Hg. apply list_alter_ext; [|done]. intros c Hc. symmetry. apply Hg. by apply cores_getp. }
  case_bool_decide as Hp.
  - apply bind_Ok in E as (s1 & s2 & E1 & E). injection E1 as <- <-.
    apply bind_Ok in E as ([] & s1 & E1 & E).
    apply (keff_upd pp _ (fun c => (c.1.1, initproc s, c.2))) in E1 as (R1 & N1 & I1 & C1); [|by intros []].
    apply eff_wakeup in E as (R2 & N2 & I2 & C2). split_and!; [|congruence..].
    rewrite (Hg (fun c => (c.1.1, initproc s, c.2))), <- R1; [done|].
    intros c <-. unfold orphan, pcore. cbn [fst snd]. by rewrite bool_decide_eq_true_2.
  - injection E as <-. split_and!; try done. rewrite (Hg id), alter_id; [reflexivity | done |].
    intros c <-. unfold orphan, pcore. cbn [fst snd]. by rewrite bool_decide_eq_false_2.
Qed.

Lemma reparent_loop p l : forall s s',
  NoDup l ->
  for_each l (fun pp =>
    let* q := theproc pp in
    if bool_decide (p_parent q = Some p) then
      let* s := get in
      upd_proc pp (set_parent (initproc s)) ;; wakeup (parentaddr s (initproc s))
    else ret tt) s = Ok tt s' ->
  (length (cores s) = length  (cores s') /\
   forall k c, cores s !! k = Some c -> exists c', cores s' !! k = Some c' /\
     rev1 (if decide (k ∈ l) then orphan p (initproc s) c else c) c') /\
  nextpid s' = nextpid s /\ initproc s' = initproc s /\ cur s' = cur s.
Proof.
  induction l as [|j l IH]; intros s s' Hd E.
  { injection E as <-. split_and!; try done. intros k c Hk. exists c. split; [done|].
    rewrite decide_False by apply not_elem_of_nil. apply rev1_refl. }
  apply NoDup_cons in Hd as [Hj Hd]. cbn [for_each] in E.
  apply bind_Ok in E as ([] & s1 & E1 & E). apply reparent_one in E1 as (R1 & N1 & I1 & C1).
  apply IH in E as ([L2 R2] & N2 & I2 & C2); [|done].
  apply revive_lookup in R1 as [L1 R1]. rewrite length_alter in L1.
  split_and!; [congruence | | congruence..].
  intros k c Hk. destruct (decide (k = j)) as [->|Hkj].
  - destruct (R1 j (orphan p (initproc s) c)) as (c1 & Hc1 & Rc1).
    { by rewrite list_lookup_alter_eq, Hk. }
    destruct (R2 j c1 Hc1) as (c2 & Hc2 & Rc2). rewrite decide_False in Rc2 by done.
    exists c2. split; [done|]. rewrite decide_True by by left. exact (rev1_trans _ _ _ Rc1 Rc2).
  - destruct (R1 k c) as (c1 & Hc1 & Rc1).
    { by rewrite list_lookup_alter_ne. }
    destruct (R2 k c1 Hc1) as (c2 & Hc2 & Rc2). rewrite I1 in Rc2. exists c2. split; [done|].
    destruct (decide (k ∈ l)) as [Hl|Hl].
    + rewrite decide_True by by right. exact (rev1_trans _ _ _ (orphan_rev1 _ _ _ _ Rc1) Rc2).
    + rewrite decide_False by (rewrite elem_of_cons; tauto). exact (rev1_trans _ _ _ Rc1 Rc2).
Qed.

Lemma reparent_effect p s s' :
  reparent p s = Ok tt s' -> length (cores s) = 64%nat ->
  revive (map (orphan p (initproc s)) (cores s)) (cores s') /\
  nextpid s' = nextpid s /\ initproc s' = initproc s /\ cur s' = cur s.
Proof.
  intros E Hlen. apply reparent_loop in E as ([L R] & E); [|apply NoDup_seq]. split; [|exact E].
  apply revive_lookup. split; [by rewrite length_map|]. intros k c Hk.
  rewrite list_lookup_fmap in Hk. destruct (cores s !! k) as [c0|] eqn:E0; [|done]. injection Hk as <-.
  destruct (R k c0 E0) as (c' & Hc' & Rc'). exists c'. split; [done|].
  rewrite decide_True in Rc'; [done|]. apply elem_all_procs. apply lookup_lt_Some in E0. lia.
Qed.

(** *** The switch *)

Lemma sched_effect s s' i :
  sched s = Ok tt s' -> cur s = Some i -> (i < length (procs s))%nat ->
  revive (cores s) (cores s') /\ nextpid s' = nextpid s /\ initproc s' = initproc s /\ cur s' = cur s.
Proof.
  intros E Hc Hi. destruct (decide (p_state (getp s i) = RUNNING)) as [Hr|Hr].
  { exfalso. revert E. unfold sched, sched_at, myproc, theproc, gets, bind, get. rewrite Hc. unfold ret.
    cbn [negb Z.eqb Pos.eqb]. rewrite bool_decide_eq_true_2 by done. done. }
  rewrite (sched_at_run s i Hc Hr Hi) in E. injection E as <-.
  split_and!; try done. rewrite cores_alter. apply revive_alter. intros c Hk. apply cores_getp in Hk as <-.
  generalize (getp s i) (i32 (ticks s - p_last (getp s i))). intros p n.
  destruct ((0 <? n) && bool_decide (p_state p = RUNNABLE)); [by left|].
  destruct (p_bucket p <? 1); [|by left]. case_bool_decide as Hs; [|by left].
  right. unfold pcore. cbn. rewrite Hs. split_and!; done.
Qed.

Lemma set_state_effect i x s s' c :
  upd_proc i (set_state x) s = Ok tt s' -> cores s !! i = Some c -> c.1.1 <> UNUSED -> live x ->
  revive (cores s) (cores s') /\ nextpid s' = nextpid s /\ initproc s' = initproc s /\ cur s' = cur s.
Proof.
  intros E Hi Hc Hx. rewrite upd_proc_run in E. injection E as <-. split_and!; try done.
  rewrite cores_alter. apply revive_alter. intros c' Hc'. apply cores_getp in Hi as Hg. right.
  assert (c' = c) as -> by congruence. rewrite <- Hg. destruct (getp s i). cbn. subst c. done.
Qed.

Lemma scheduler_return_effect fatcat t i s s' :
  scheduler_return fatcat t i s = Ok tt s' ->
  cores s' = cores s /\ nextpid s' = nextpid s /\ initproc s' = initproc s /\ cur s' = None.
Proof.
  unfold scheduler_return. intros ([] & s1 & E1 & E)%bind_Ok. injection E as <-.
  assert (eff eq (if fatcat then upd_proc i (FATCAT_SCHED t) else ret tt)) as He.
  { destruct fatcat; [|apply eff_ret, _]. apply (eff_upd eq). intros p. unfold FATCAT_SCHED, pcore.
    by destruct (_ && _). }
  destruct (He _ _ _ E1) as (R & N & I & C). done.
Qed.

(** The blocking operations, to the switch: yield and sleep. *)
Lemma block_effect i f x s s' :
  (upd_proc i f ;; upd_proc i (set_state x) ;; sched) s = Ok tt s' ->
  (forall p, pcore (f p) = pcore p) -> cur s = Some i -> live x ->
  (exists c, cores s !! i = Some c /\ live c.1.1) ->
  revive (cores s) (cores s') /\ nextpid s' = nextpid s /\ initproc s' = initproc s /\ cur s' = cur s.
Proof.
  intros ([] & s1 & E1 & ([] & s2 & E2 & E3)%bind_Ok)%bind_Ok Hf Hc Hx (c & Hi & Hl & _).
  apply (eff_upd eq) in E1 as (R1 & N1 & I1 & C1); [|done]. rewrite R1 in Hi.
  eapply set_state_effect in E2 as (R2 & N2 & I2 & C2); [|exact Hi | exact Hl | exact Hx].
  assert (i < length (procs s2))%nat as Hlt.
  { apply lookup_lt_Some in Hi. apply Forall2_length in R2. unfold cores in *. rewrite !length_map in *. lia. }
  apply (sched_effect _ _ i) in E3 as (R3 & N3 & I3 & C3); [|congruence | done].
  split_and!; [|congruence..]. rewrite R1. exact (revive_trans _ _ _ R2 R3).
Qed.

Lemma yield_effect s s' i :
  yield s = Ok tt s' -> cur s = Some i -> (exists c, cores s !! i = Some c /\ live c.1.1) ->
  revive (cores s) (cores s') /\ nextpid s' = nextpid s /\ initproc s' = initproc s /\ cur s' = cur s.
Proof.
  intros E Hc Hl. apply (block_effect i id RUNNABLE s); try done.
  unfold yield in E. apply bind_Ok in E as (i' & s1 & E1 & E). apply myproc_Ok in E1 as [Hi ->].
  assert (i' = i) as -> by congruence. rewrite <- E. unfold bind. rewrite !upd_proc_run. f_equal.
  unfold with_procs. cbn. f_equal. f_equal. by apply alter_id.
Qed.

Lemma sleep_effect chan s s' i :
  sleep chan s = Ok tt s' -> cur s = Some i -> (exists c, cores s !! i = Some c /\ live c.1.1) ->
  revive (cores s) (cores s') /\ nextpid s' = nextpid s /\ initproc s' = initproc s /\ cur s' = cur s.
Proof.
  intros E Hc Hl. unfold sleep in E. apply bind_Ok in E as (i' & s1 & E1 & E). apply myproc_Ok in E1 as [Hi ->].
  assert (i' = i) as -> by congruence. by apply (block_effect i (set_chan chan) SLEEPING s).
Qed.

(** exit leaves the exited process as a zombie without children. *)
Lemma revive_zombie i cs cs' :
  revive cs cs' -> revive (alter (fun c => (ZOMBIE, c.1.2, c.2)) i cs) (alter (fun c => (ZOMBIE, c.1.2, c.2)) i cs').
Proof.
  intros Hr. unfold revive. apply Forall2_alter; [exact Hr|].
  intros c c' _ _ [->|(_ & _ & -> & ->)]; by left.
Qed.

Lemma exit_effect status s s' i :
  exit status s = Ok tt s' -> cur s = Some i -> length (cores s) = 64%nat -> (i < 64)%nat ->
  initproc s <> Some i /\
  revive (alter (fun c => (ZOMBIE, c.1.2, c.2)) i (map (orphan i (initproc s)) (cores s))) (cores s') /\
  nextpid s' = nextpid s /\ initproc s' = initproc s /\ cur s' = cur s.
Proof.
  intros E Hc Hlen Hi. unfold exit in E.
  apply bind_Ok in E as (i' & s0 & E0 & E). apply myproc_Ok in E0 as [Hi' ->].
  assert (i' = i) as -> by congruence. clear Hi'.
  apply bind_Ok in E as (s0 & s1 & E0 & E). injection E0 as <- <-.
  case_bool_decide as Hin; [discriminate E|].
  assert (eff eq (for_each (seq 0 16) (close_fd i) ;; onf fe_begin_op ;;
    let* p := theproc i in onf (fe_iput (p_cwd p)) ;; onf fe_end_op ;; upd_proc i (set_cwd 0))) as He.
  { effs. apply eff_close_fd. }
  assert (exists s1, cores s1 = cores s /\ nextpid s1 = nextpid s /\ initproc s1 = initproc s /\ cur s1 = cur s /\
    (reparent i ;;
     let* s := get in
     wakeup (parentaddr s (p_parent (getp s i))) ;;
     upd_proc i (set_xstate status) ;; upd_proc i (set_state ZOMBIE) ;; sched) s1 = Ok tt s')
    as (s1 & R1 & N1 & I1 & C1 & E1).
  { apply bind_Ok in E as ([] & sa & Ea & E). apply bind_Ok in E as ([] & sb & Eb & E).
    apply bind_Ok in E as (p & sc & Ec & E). apply bind_Ok in E as ([] & sd & Ed & E).
    apply bind_Ok in E as ([] & se & Ee & E). apply bind_Ok in E as ([] & sf & Ef & E).
    destruct (He s tt sf) as (R & N & I & C).
    { rewrite (bind_run _ _ _ _ _ Ea), (bind_run _ _ _ _ _ Eb), (bind_run _ _ _ _ _ Ec),
        (bind_run _ _ _ _ _ Ed), (bind_run _ _ _ _ _ Ee). exact Ef. }
    exists sf. split_and!; done. }
  clear E He. split; [congruence|]. rewrite <- R1, <- N1, <- I1, <- C1. rewrite <- R1 in Hlen. rewrite <- C1 in Hc.
  clear R1 N1 I1 C1 Hin s. rename s1 into s. rename E1 into E.
  apply bind_Ok in E as ([] & s1 & E1 & E). apply reparent_effect in E1 as (R1 & N1 & I1 & C1); [|done].
  apply bind_Ok in E as (sx & s2 & E2 & E). injection E2 as <- <-.
  apply bind_Ok in E as ([] & s2 & E2 & E). apply eff_wakeup in E2 as (R2 & N2 & I2 & C2).
  apply bind_Ok in E as ([] & s3 & E3 & E). apply (eff_upd eq) in E3 as (R3 & N3 & I3 & C3); [|by intros []].
  apply bind_Ok in E as ([] & s4 & E4 & E).
  apply (keff_upd i _ (fun c => (ZOMBIE, c.1.2, c.2))) in E4 as (R4 & N4 & I4 & C4); [|by intros []].
  assert (length (cores s4) = 64%nat) as Hlen4.
  { rewrite R4, length_alter, <- R3, <- (Forall2_length _ _ _ R2), <- (Forall2_length _ _ _ R1), length_map. done. }
  apply (sched_effect _ _ i) in E as (R5 & N5 & I5 & C5);
    [|congruence | unfold cores in Hlen4; rewrite length_map in Hlen4; lia].
  split_and!; [|congruence..]. eapply revive_trans; [|exact R5]. rewrite R4, <- R3.
  apply revive_zombie. exact (revive_trans _ _ _ R1 R2).
Qed.

(** wait frees at most one zombie. *)
Definition reaps (cs cs' : list (procstate * option nat * Z)) : Prop :=
  cs' = cs \/ exists z par pid, cs !! z = Some (ZOMBIE, par, pid) /\ cs' = <[z := (UNUSED, None, 0)]> cs.

Lemma wait_one_effect i addr pp s r s' :
  wait_one i addr pp s = Ok r s' ->
  ((r = None -> cores s' = cores s) /\ reaps (cores s) (cores s')) /\
  nextpid s' = nextpid s /\ initproc s' = initproc s /\ cur s' = cur s.
Proof.
  unfold wait_one. intros (q & s1 & E1 & E)%bind_Ok. injection E1 as <- <-.
  case_bool_decide as Hp; cbn [andb] in E; [|injection E as <- <-; split_and!; try done; by left].
  case_bool_decide as Hz; [|injection E as <- <-; split_and!; try done; by left].
  apply bind_Ok in E as (sx & s1 & E1 & E). injection E1 as <- <-.
  apply bind_Ok in E as (p & s1 & E1 & E). injection E1 as <- <-.
  apply bind_Ok in E as (bad & s1 & E1 & E).
  match type of E1 with ?m _ = _ => assert (eff eq m) as He by effs end.
  apply He in E1 as (R1 & N1 & I1 & C1). clear He.
  destruct bad.
  { injection E as <- <-. split_and!; try done. by left. }
  apply bind_Ok in E as ([] & s2 & E2 & E). injection E as <- <-.
  apply eff_freeproc in E2 as (R2 & N2 & I2 & C2). split_and!; [done | | congruence..].
  rewrite R2, <- R1.
  destruct (cores s !! pp) as [c|] eqn:Hc.
  - right. apply cores_getp in Hc as Hg. exists pp, (p_parent (getp s pp)), (p_pid (getp s pp)).
    rewrite <- Hz. split; [by rewrite Hc, <- Hg|]. apply list_eq. intros k. destruct (decide (k = pp)) as [->|].
    + rewrite list_lookup_alter_eq, Hc, list_lookup_insert_eq; [done|]. by apply lookup_lt_Some in Hc.
    + by rewrite list_lookup_alter_ne, list_lookup_insert_ne.
  - left. apply alter_id. congruence.
Qed.

Lemma wait_scan_effect i addr l : forall s r s',
  for_until l (wait_one i addr) s = Ok r s' ->
  ((r = None -> cores s' = cores s) /\ reaps (cores s) (cores s')) /\
  nextpid s' = nextpid s /\ initproc s' = initproc s /\ cur s' = cur s.
Proof.
  induction l as [|pp l IH]; intros s r s' E.
  { injection E as <- <-. split_and!; try done. by left. }
  cbn [for_until] in E. apply bind_Ok in E as (r1 & s1 & E1 & E).
  apply wait_one_effect in E1 as ([K1 R1] & N1 & I1 & C1). destruct r1 as [v|].
  - injection E as <- <-. split_and!; done.
  - apply IH in E as ([K2 R2] & N2 & I2 & C2). rewrite K1 in * by done. split_and!; (done || congruence).
Qed.

Lemma wait_effect addr s r s' i :
  wait addr s = Ok r s' -> cur s = Some i -> (exists c, cores s !! i = Some c /\ live c.1.1) ->
  match r with Some _ => reaps (cores s) (cores s') | None => revive (cores s) (cores s') end /\
  nextpid s' = nextpid s /\ initproc s' = initproc s /\ cur s' = cur s.
Proof.
  intros E Hc Hl. unfold wait in E. apply bind_Ok in E as (i' & s1 & E1 & E). apply myproc_Ok in E1 as [Hi ->].
  assert (i' = i) as -> by congruence.
  apply bind_Ok in E as (r1 & s1 & E1 & E). apply wait_scan_effect in E1 as ([K1 R1] & N1 & I1 & C1).
  destruct r1 as [v|]; [injection E as <- <-; done|]. specialize (K1 eq_refl).
  apply bind_Ok in E as (sx & s2 & E2 & E). injection E2 as <- <-. destruct (_ || _).
  { injection E as <- <-. done. }
  apply bind_Ok in E as ([] & s2 & E2 & E). injection E as <- <-.
  apply (sleep_effect _ _ _ i) in E2 as (R2 & N2 & I2 & C2); [|congruence | by rewrite K1].
  rewrite K1 in R2. split_and!; [done | congruence..].
Qed.

(** ps puts every process it lists to sleep when its counters run out. *)
Lemma ps_ticks_core n x : pcore (ps_ticks n x).2 = pcore x.2 \/
  pcore (ps_ticks n x).2 = (SLEEPING, p_parent x.2, p_pid x.2).
Proof.
  unfold ps_ticks. induction (Z.to_nat n) as [|k IH]; simpl; [by left|].
  destruct (Nat.iter k ps_tick x) as [[ut ua] p]. cbn [snd] in *. unfold ps_tick.
  destruct (0 <? ua); [exact IH|]. right. cbn.
  unfold pcore in *. destruct IH as [IH|IH]; injection IH as _ E1 E2; cbn; by rewrite E1, E2.
Qed.

Lemma ps_one_effect me u utable i s r s' :
  ps_one me u utable i s = Ok r s' -> p_state (getp s i) <> UNUSED ->
  revive (cores s) (cores s') /\ nextpid s' = nextpid s /\ initproc s' = initproc s /\ cur s' = cur s.
Proof.
  unfold ps_one. intros (p & s1 & E1 & E)%bind_Ok Hst. injection E1 as <- <-.
  apply bind_Ok in E as ([] & s1 & E1 & E). apply (eff_onk eq) in E1 as (R1 & N1 & I1 & C1).
  apply bind_Ok in E as ([] & s2 & E2 & E). apply (eff_onk eq) in E2 as (R2 & N2 & I2 & C2).
  apply bind_Ok in E as (sx & s3 & E3 & E). injection E3 as <- <-.
  set (y := if _ <? _ then _ else _) in E.
  assert (pcore y.2 = pcore (getp s i) \/
          pcore y.2 = (SLEEPING, p_parent (getp s i), p_pid (getp s i))) as Hy.
  { subst y. destruct (_ <? _); [exact (ps_ticks_core _ (_, _, getp s i))|by left]. }
  clearbody y. destruct y as [[ut ua] p']. cbn [snd] in Hy.
  apply bind_Ok in E as ([] & s3 & E3 & E).
  match type of E with ?m _ = _ => assert (eff eq m) as He by effs end.
  apply He in E as (R & N & I & C). clear He. rewrite upd_proc_run in E3. injection E3 as <-.
  cbn [nextpid initproc cur with_procs] in N, I, C.
  split_and!; [|congruence..]. rewrite <- R, cores_alter, <- R2, <- R1. apply revive_alter.
  intros c Hc. apply cores_getp in Hc as <-. destruct Hy as [->| ->]; [by left|]. right. done.
Qed.

Lemma ps_loop_effect me u l : forall utable n s r s',
  ps_loop me u l utable n s = Ok r s' ->
  revive (cores s) (cores s') /\ nextpid s' = nextpid s /\ initproc s' = initproc s /\ cur s' = cur s.
Proof.
  induction l as [|i l IH]; intros utable n s r s' E.
  { injection E as <- <-. done. }
  cbn [ps_loop] in E. apply bind_Ok in E as (p & s1 & E1 & E). injection E1 as <- <-.
  case_bool_decide as Hst; [eauto|].
  apply bind_Ok in E as (ok & s1 & E1 & E). apply ps_one_effect in E1 as (R1 & N1 & I1 & C1); [|done].
  destruct ok; [|injection E as <- <-; done]. apply IH in E as (R2 & N2 & I2 & C2).
  split_and!; [exact (revive_trans _ _ _ R1 R2) | congruence..].
Qed.

Lemma kill_effect pid s r s' :
  kill pid s = Ok r s' ->
  revive (cores s) (cores s') /\ nextpid s' = nextpid s /\ initproc s' = initproc s /\ cur s' = cur s.
Proof.
  unfold kill. intros (sx & s1 & E1 & E)%bind_Ok. injection E1 as <- <-.
  destruct (find_proc s _) as [j|]; [|injection E as <- <-; done].
  apply bind_Ok in E as ([] & s1 & E1 & E). apply (eff_upd eq) in E1 as (R1 & N1 & I1 & C1); [|by intros []].
  apply bind_Ok in E as (p & s2 & E2 & E). injection E2 as <- <-.
  apply bind_Ok in E as ([] & s2 & E2 & E). injection E as <- <-.
  rewrite R1, <- N1, <- I1, <- C1. clear R1 N1 I1 C1.
  case_bool_decide as Hs; [|injection E2 as <-; done].
  destruct (cores s1 !! j) as [c|] eqn:Hc.
  - eapply set_state_effect; [exact E2 | exact Hc | | done]. apply cores_getp in Hc as <-. cbn. by rewrite Hs.
  - rewrite upd_proc_run in E2. injection E2 as <-. split_and!; try done.
    rewrite cores_alter. apply revive_alter. congruence.
Qed.

(** *** The steps of one CPU *)

(** What the kernel does between two points where a process runs or the CPU
    idles. A blocking operation is composed with the scheduler's return, whose
    tick is not the one sched has read; the pid counter is assumed not to
    overflow an int, as the code does. [kop] is everything but ps. *)
Inductive kop s s' : Prop :=
  | step_fork r : nextpid s < 2 ^ 31 - 1 -> fork s = Ok r s' -> kop s s'
  | step_exit status i fatcat t :
      cur s = Some i -> (exit status ;; scheduler_return fatcat t i) s = Ok tt s' -> kop s s'
  | step_wait addr r : wait addr s = Ok (Some r) s' -> kop s s'
  | step_wait_sleep addr i fatcat t :
      cur s = Some i ->
      (let* r := wait addr in if r is None then scheduler_return fatcat t i else fault "") s = Ok tt s' ->
      kop s s'
  | step_yield i fatcat t :
      cur s = Some i -> (yield ;; scheduler_return fatcat t i) s = Ok tt s' -> kop s s'
  | step_sleep chan i fatcat t :
      cur s = Some i -> (sleep chan ;; scheduler_return fatcat t i) s = Ok tt s' -> kop s s'
  | step_pick i r : cur s = None -> scheduler_pick i s = Ok r s' -> kop s s'
  | step_resumed i ctick fatcat t :
      cur s = Some i -> (sched_resumed i ctick ;; scheduler_return fatcat t i) s = Ok tt s' -> kop s s'
  | step_wakeup chan : wakeup chan s = Ok tt s' -> kop s s'
  | step_kill pid r : kill pid s = Ok r s' -> kop s s'
  | step_growproc n r : growproc n s = Ok r s' -> kop s s'.

Definition kstep s s' : Prop := kop s s' \/ exists u utable r, pslist u utable s = Ok r s'.

(** The process table is a tree of processes rooted in init, all pids differ
    and are below nextpid, unused entries are clear; the process on the CPU is
    neither unused nor a zombie. *)
Lemma revive_inv s s' :
  proc_inv s -> revive (cores s) (cores s') -> nextpid s' = nextpid s -> initproc s' = initproc s ->
  cur s' = cur s \/ cur s' = None -> proc_inv s'.
Proof.
  intros [Ht Hc] R N I K. split; [rewrite N, I; by eapply revive_tree|].
  intros i Hi. destruct K as [K|K]; [|congruence]. rewrite K in Hi.
  destruct (Hc i Hi) as (st & par & pid & Hi' & Hl). apply revive_lookup in R as [_ R].
  destruct (R _ _ Hi') as ([[st' par'] pid'] & Hi2 & [[= -> -> ->]|(_ & ? & _)]); eauto 6.
Qed.

Lemma inv_live s i : proc_inv s -> cur s = Some i -> exists c, cores s !! i = Some c /\ live c.1.1.
Proof. intros [_ Hc] Hi. destruct (Hc i Hi) as (st & par & pid & ? & ?). by exists (st, par, pid). Qed.

Lemma inv_len s : proc_inv s -> length (cores s) = 64%nat.
Proof. by intros [[] _]. Qed.

Lemma reaps_inv s s' :
  proc_inv s -> reaps (cores s) (cores s') -> nextpid s' = nextpid s -> initproc s' = initproc s ->
  cur s' = cur s -> proc_inv s'.
Proof.
  intros [Ht Hc] [R|(z & par & pid & Hz & R)] N I K; unfold proc_inv; rewrite R, N, I, K; [by split|].
  split; [by eapply tree_free|]. intros i Hi. destruct (Hc i Hi) as (st & par' & pid' & Hi' & Hl).
  exists st, par', pid'. split; [|done]. rewrite list_lookup_insert_ne; [done|]. intros ->.
  rewrite Hz in Hi'. injection Hi' as <- <- <-. by destruct Hl.
Qed.

(** A blocking operation and the scheduler's return. *)
Lemma switch_inv s s' (m : PM (F := F) unit) fatcat t i :
  proc_inv s -> (m ;; scheduler_return fatcat t i) s = Ok tt s' ->
  (forall s1, m s = Ok tt s1 -> revive (cores s) (cores s1) /\ nextpid s1 = nextpid s /\
     initproc s1 = initproc s) ->
  proc_inv s'.
Proof.
  intros Hinv ([] & s1 & E1 & E)%bind_Ok Hm. apply Hm in E1 as (R1 & N1 & I1).
  apply scheduler_return_effect in E as (R & N & I & C).
  apply (revive_inv s); [done | by rewrite R | congruence | congruence | by right].
Qed.

Lemma exit_inv s s' status i fatcat t :
  proc_inv s -> cur s = Some i -> (exit status ;; scheduler_return fatcat t i) s = Ok tt s' -> proc_inv s'.
Proof.
  intros Hinv Hi ([] & s1 & E1 & E)%bind_Ok. pose proof Hinv as [Ht Hc].
  destruct (Hc i Hi) as (st & par & pid & Hi' & Hl).
  assert (i < 64)%nat by (rewrite <- (inv_len s Hinv); by apply lookup_lt_Some in Hi').
  apply (exit_effect _ _ _ i) in E1 as (Hne & R1 & N1 & I1 & _); [|done | by apply inv_len | done].
  apply scheduler_return_effect in E as (R & N & I & C). split.
  - rewrite R, N, I, N1, I1. eapply revive_tree; [exact R1|]. by eapply tree_exit.
  - intros j Hj. congruence.
Qed.

Lemma pick_effect i s r s' :
  scheduler_pick i s = Ok r s' -> cur s = None -> proc_inv s -> proc_inv s'.
Proof.
  unfold scheduler_pick. intros (p & s1 & E1 & E)%bind_Ok Hn Hinv. injection E1 as <- <-.
  case_bool_decide as Hs; [|injection E as _ <-; done].
  apply bind_Ok in E as ([] & s1 & E1 & E). injection E as _ <-.
  destruct (cores s !! i) as [c|] eqn:Hc.
  - apply cores_getp in Hc as Hg. assert (c.1.1 <> UNUSED) as Hu by (rewrite <- Hg; cbn; by rewrite Hs).
    eapply set_state_effect in E1 as (R1 & N1 & I1 & C1); [|exact Hc | exact Hu | done].
    assert (proc_inv s1) as [Ht _] by (eapply revive_inv; eauto).
    split; [exact Ht|]. intros j [= <-]. apply revive_lookup in R1 as [_ R1].
    destruct (R1 _ _ Hc) as ([[st par] pid] & Hc1 & [E|(_ & Hl & _)]); exists st, par, pid; (split; [done|]); [|done].
    rewrite <- Hg in E. unfold pcore in E. rewrite Hs in E. injection E as -> _ _. done.
  - unfold getp in Hs. rewrite cores_lookup in Hc. destruct (procs s !! i); done.
Qed.

Lemma eff_growproc n : eff eq (growproc n).
Proof. unfold growproc, myproc. effs. Qed.

Lemma kop_inv s s' : proc_inv s -> kop s s' -> proc_inv s'.
Proof.
  intros Hinv Hstep. pose proof (inv_live s) as Hlive. destruct Hstep.
  - by eapply fork_inv.
  - by eapply exit_inv.
  - unfold proc_inv in *. assert (exists i, cur s = Some i) as [i Hi].
    { revert H0. unfold wait, bind at 1, myproc, bind at 1, get. destruct (cur s); eauto. done. }
    eapply wait_effect in H0 as (R & N & I & C); [|done | by apply Hlive]. by eapply reaps_inv.
  - apply bind_Ok in H1 as (r & s1 & E1 & E). eapply wait_effect in E1 as (R & N & I & C); [|done | by apply Hlive].
    destruct r; [discriminate E|]. apply scheduler_return_effect in E as (R' & N' & I' & C').
    apply (revive_inv s); [done | by rewrite R' | congruence | congruence | by right].
  - eapply switch_inv; [done | done |]. intros s1 E. eapply yield_effect in E as (? & ? & ? & ?); eauto.
  - eapply switch_inv; [done | done |]. intros s1 E. eapply sleep_effect in E as (? & ? & ? & ?); eauto.
  - by eapply pick_effect.
  - eapply switch_inv; [done | done |]. intros s1 E. apply eff_sched_late in E as (<- & ? & ? & ?). done.
  - apply eff_wakeup in H0 as (? & ? & ? & ?). eapply revive_inv; eauto.
  - apply kill_effect in H0 as (? & ? & ? & ?). eapply revive_inv; eauto.
  - apply eff_growproc in H0 as (R & ? & ? & ?). eapply revive_inv; eauto. by rewrite R.
Qed.

Lemma kstep_inv s s' : proc_inv s -> kstep s s' -> proc_inv s'.
Proof.
  intros Hinv [Hop|(u & utable & r & E)]; [by eapply kop_inv|].
  unfold pslist in E. apply bind_Ok in E as (me & s1 & E1 & E). apply myproc_Ok in E1 as [_ ->].
  apply ps_loop_effect in E as (? & ? & ? & ?). eapply revive_inv; eauto.
Qed.

(** *** What the others do to a process that is not on the CPU *)

(** Process [k] keeps the state RUNNING. *)
Definition still (k : nat) (cs cs' : list (procstate * option nat * Z)) : Prop :=
  length cs' = length cs /\
  forall c, cs !! k = Some c -> c.1.1 = RUNNING -> exists c', cs' !! k = Some c' /\ c'.1.1 = RUNNING.

#[local] Instance still_preorder k : PreOrder (still k).
Proof.
  split; [intros cs; split; eauto|]. intros c1 c2 c3 [L1 H12] [L2 H23]. split; [congruence|]. intros c Hc Hr.
  destruct (H12 c Hc Hr) as (c' & Hc' & Hr'). eauto.
Qed.

Lemma still_eq {A} k (m : PM A) : eff eq m -> eff (still k) m.
Proof. intros Hm s a s' E. destruct (Hm _ _ _ E) as (<- & ? & ? & ?). by split_and!. Qed.

Lemma still_alter k i f cs : (forall c, cs !! i = Some c -> i = k -> c.1.1 = RUNNING -> (f c).1.1 = RUNNING) ->
  still k cs (alter f i cs).
Proof.
  intros Hf. split; [apply length_alter|]. intros c Hc Hr. destruct (decide (i = k)) as [->|Hne].
  - exists (f c). by rewrite list_lookup_alter_eq, Hc, Hf.
  - exists c. by rewrite list_lookup_alter_ne.
Qed.

Lemma still_insert k j c0 x cs : cs !! j = Some c0 -> c0.1.1 <> RUNNING -> still k cs (<[j := x]> cs).
Proof.
  intros Hj Hn. split; [apply length_insert|]. intros c Hc Hr. exists c.
  rewrite list_lookup_insert_ne; [done|]. intros ->. congruence.
Qed.

Lemma still_upd k i f : i <> k \/ (forall p, p_state (f p) = p_state p) -> eff (still k) (upd_proc i f).
Proof.
  intros Hf s a s' E. rewrite upd_proc_run in E. injection E as _ <-. split_and!; try done.
  rewrite cores_alter. apply still_alter. intros c Hc -> Hr. apply cores_getp in Hc as <-.
  destruct Hf as [?|Hf]; [done|]. cbn in *. by rewrite Hf.
Qed.

Lemma still_wakeup k chan : eff (still k) (wakeup chan).
Proof.
  unfold wakeup. refine (eff_for_each _ _ _ _). intros i s a s' E. unfold bind, get in E.
  rewrite upd_proc_run in E. injection E as _ <-. split_and!; try done.
  rewrite cores_alter. apply still_alter. intros c Hc -> Hr. apply cores_getp in Hc as <-. cbn in *.
  unfold wake_one. rewrite Hr, (bool_decide_eq_false_2 (RUNNING = SLEEPING)), andb_false_l by done.
  by destruct (bool_decide _).
Qed.

Lemma still_reparent k p : eff (still k) (reparent p).
Proof.
  unfold reparent. refine (eff_for_each _ _ _ _). intros pp. refine (eff_bind _ _ _ _ _); [effs|]. intros q.
  case_bool_decide; [|effs]. refine (eff_bind _ _ _ _ _); [effs|]. intros s.
  refine (eff_bind _ _ _ _ _); [|intros _; apply still_wakeup]. apply still_upd. right. by intros [].
Qed.

Lemma still_sched k i s s' :
  sched s = Ok tt s' -> cur s = Some i -> (i < length (procs s))%nat -> i <> k ->
  still k (cores s) (cores s') /\ cur s' = cur s.
Proof.
  intros E Hc Hi Hk. destruct (decide (p_state (getp s i) = RUNNING)) as [Hr|Hr].
  { exfalso. revert E. unfold sched, sched_at, myproc, theproc, gets, bind, get. rewrite Hc. unfold ret.
    cbn [negb Z.eqb Pos.eqb]. rewrite bool_decide_eq_true_2 by done. done. }
  rewrite (sched_at_run s i Hc Hr Hi) in E. injection E as <-. split; [|done].
  rewrite cores_alter. apply still_alter. intros; congruence.
Qed.

(** The ends of yield, sleep and exit: the caller changes its state and switches. *)
Lemma still_switch k i f s s' :
  (upd_proc i f ;; sched) s = Ok tt s' -> cur s = Some i -> (i < length (cores s))%nat -> i <> k ->
  still k (cores s) (cores s') /\ cur s' = cur s.
Proof.
  intros ([] & s1 & E1 & E)%bind_Ok Hc Hi Hk.
  apply (still_upd k) in E1 as (R1 & _ & _ & C1); [|by left].
  apply (still_sched k i) in E as (R2 & C2); [|congruence|destruct R1 as [L _]; unfold cores in *; rewrite !length_map in *; lia|done].
  split; [by transitivity (cores s1) | congruence].
Qed.

Lemma still_sleep k i chan s s' :
  sleep chan s = Ok tt s' -> cur s = Some i -> (i < length (cores s))%nat -> i <> k ->
  still k (cores s) (cores s') /\ cur s' = cur s.
Proof.
  intros E Hc Hi Hk. unfold sleep in E. apply bind_Ok in E as (i' & s1 & E1 & E). apply myproc_Ok in E1 as [Hi' ->].
  assert (i' = i) as -> by congruence. apply bind_Ok in E as ([] & s1 & E1 & E).
  apply (still_upd k) in E1 as (R1 & _ & _ & C1); [|by left].
  apply (still_switch k) in E as (R2 & C2); [|congruence | destruct R1 as [-> _]; done | done].
  split; [by transitivity (cores s1) | congruence].
Qed.

Lemma still_exit k i status s s' :
  exit status s = Ok tt s' -> cur s = Some i -> (i < length (cores s))%nat -> i <> k ->
  still k (cores s) (cores s') /\ cur s' = cur s.
Proof.
  intros E Hc Hi Hk. unfold exit in E. apply bind_Ok in E as (i' & s0 & E0 & E). apply myproc_Ok in E0 as [Hi' ->].
  assert (i' = i) as -> by congruence. apply bind_Ok in E as (s0 & s1 & E0 & E). injection E0 as <- <-.
  case_bool_decide; [discriminate E|].
  apply bind_Ok in E as ([] & s1 & E1 & E). apply (still_eq k) in E1 as (R1 & _ & _ & C1); [|effs; apply eff_close_fd].
  apply bind_Ok in E as ([] & s2 & E2 & E). apply (eff_onf (still k)) in E2 as (R2 & _ & _ & C2).
  apply bind_Ok in E as (p & s3 & E3 & E). injection E3 as <- <-.
  apply bind_Ok in E as ([] & s4 & E4 & E). apply (eff_onf (still k)) in E4 as (R4 & _ & _ & C4).
  apply bind_Ok in E as ([] & s5 & E5 & E). apply (eff_onf (still k)) in E5 as (R5 & _ & _ & C5).
  apply bind_Ok in E as ([] & s6 & E6 & E). apply (still_upd k) in E6 as (R6 & _ & _ & C6); [|by left].
  apply bind_Ok in E as ([] & s7 & E7 & E). apply (still_reparent k) in E7 as (R7 & _ & _ & C7).
  apply bind_Ok in E as (sx & s8 & E8 & E). injection E8 as <- <-.
  apply bind_Ok in E as ([] & s8 & E8 & E). apply (still_wakeup k) in E8 as (R8 & _ & _ & C8).
  apply bind_Ok in E as ([] & s9 & E9 & E). apply (still_upd k) in E9 as (R9 & _ & _ & C9); [|by left].
  assert (still k (cores s) (cores s9)) as R by (repeat (etransitivity; [eassumption|]); reflexivity).
  apply (still_switch k i) in E as (R' & C'); [|congruence | destruct R as [-> _]; done | done].
  split; [by transitivity (cores s9) | congruence].
Qed.

Lemma still_wait k i addr r s s' :
  wait addr s = Ok r s' -> cur s = Some i -> (i < length (cores s))%nat -> i <> k ->
  still k (cores s) (cores s') /\ cur s' = cur s.
Proof.
  intros E Hc Hi Hk. unfold wait in E. apply bind_Ok in E as (i' & s1 & E1 & E). apply myproc_Ok in E1 as [Hi' ->].
  assert (i' = i) as -> by congruence.
  apply bind_Ok in E as (r1 & s1 & E1 & E). apply wait_scan_effect in E1 as ([K1 R1] & _ & _ & C1).
  destruct r1 as [v|].
  { injection E as <- <-. split; [|done]. destruct R1 as [->|(z & par & pid & Hz & ->)]; [reflexivity|].
    by apply (still_insert _ _ _ _ _ Hz). }
  specialize (K1 eq_refl). apply bind_Ok in E as (sx & s2 & E2 & E). injection E2 as <- <-.
  destruct (_ || _); [injection E as <- <-; split; [by rewrite K1 | done]|].
  apply bind_Ok in E as ([] & s2 & E2 & E). injection E as <- <-.
  rewrite <- K1 in *. rewrite <- C1 in *. by apply (still_sleep k i) in E2.
Qed.

Lemma cores_state s k : (exists c, cores s !! k = Some c /\ c.1.1 = RUNNING) <-> p_state (getp s k) = RUNNING.
Proof.
  rewrite cores_lookup. unfold getp. destruct (procs s !! k) as [p|]; cbn; split.
  - intros (c & [= <-] & Hr). exact Hr.
  - eauto.
  - intros (c & [=] & _).
  - done.
Qed.

(** Process [k] is RUNNING on no CPU. *)
Definition lost (k : nat) s : Prop := proc_inv s /\ p_state (getp s k) = RUNNING /\ cur s <> Some k.

Lemma still_return k i fatcat t s1 s2 s' :
  still k (cores s1) (cores s2) -> scheduler_return fatcat t i s2 = Ok tt s' ->
  still k (cores s1) (cores s') /\ (cur s' = cur s1 \/ cur s' <> Some k).
Proof. intros Hs E. apply scheduler_return_effect in E as (-> & _ & _ & ->). split; [done | by right]. Qed.

(** Whatever the other processes and the scheduler do, it stays so. *)
Lemma kop_still k s s' :
  lost k s -> kop s s' -> still k (cores s) (cores s') /\ (cur s' = cur s \/ cur s' <> Some k).
Proof.
  intros (Hinv & Hr & Hc) Hop.
  assert (forall i, cur s = Some i -> i <> k /\ (i < length (cores s))%nat) as Hcur.
  { intros i Hi. split; [congruence|]. destruct (inv_live s i Hinv Hi) as (c & Hi' & _). by apply lookup_lt_Some in Hi'. }
  assert (forall A (m : PM A) a, eff (still k) m -> m s = Ok a s' ->
    still k (cores s) (cores s') /\ (cur s' = cur s \/ cur s' <> Some k)) as Heff.
  { intros A m a Hm E. apply Hm in E as (? & _ & _ & ?). auto. }
  destruct Hop as [r Hnp E|status i fatcat t Hi E|addr r E|addr i fatcat t Hi E|i fatcat t Hi E
    |chan i fatcat t Hi E|i r Hn E|i ctick fatcat t Hi E|chan E|pid r E|n r E].
  - destruct (fork_effect _ _ _ Hinv E Hnp) as (_ & K & [[-> _]|(i & j & _ & Hj & -> & _)]); (split; [|by left]);
      [reflexivity | by apply (still_insert _ _ _ _ _ Hj)].
  - destruct (Hcur i Hi). apply bind_Ok in E as ([] & s1 & E1 & E). apply (still_exit k i) in E1 as [R1 _]; [|done..].
    by eapply still_return.
  - assert (exists i, cur s = Some i) as [i Hi].
    { revert E. unfold wait, bind at 1, myproc, bind at 1, get. destruct (cur s); eauto. done. }
    destruct (Hcur i Hi). apply (still_wait k i) in E as [R1 C1]; auto.
  - destruct (Hcur i Hi). apply bind_Ok in E as (r & s1 & E1 & E). destruct r; [discriminate E|].
    apply (still_wait k i) in E1 as [R1 _]; [|done..]. by eapply still_return.
  - destruct (Hcur i Hi). apply bind_Ok in E as ([] & s1 & E1 & E). unfold yield in E1.
    apply bind_Ok in E1 as (i' & s2 & E2 & E1). apply myproc_Ok in E2 as [Hi' ->]. assert (i' = i) as -> by congruence.
    apply (still_switch k i) in E1 as [R1 _]; [|done..]. by eapply still_return.
  - destruct (Hcur i Hi). apply bind_Ok in E as ([] & s1 & E1 & E). apply (still_sleep k i) in E1 as [R1 _]; [|done..].
    by eapply still_return.
  - unfold scheduler_pick in E. apply bind_Ok in E as (p & s1 & E1 & E). injection E1 as <- <-.
    case_bool_decide as Hs; [|injection E as _ <-; split; [reflexivity | by left]].
    assert (i <> k) as Hik by (intros ->; congruence).
    apply bind_Ok in E as ([] & s1 & E1 & E). apply (still_upd k) in E1 as (R1 & _ & _ & _); [|by left].
    injection E as _ <-. split; [exact R1 | right; cbn; congruence].
  - apply bind_Ok in E as ([] & s1 & E1 & E). apply (still_eq k) in E1 as (R1 & _); [|apply eff_sched_late].
    by eapply still_return.
  - by apply (Heff _ _ _ (still_wakeup k chan)) in E.
  - apply kill_effect in E as H1. destruct H1 as (R & _ & _ & C).
    split; [|by left]. split; [by rewrite (Forall2_length _ _ _ R)|]. intros c Hck Hcr.
    apply cores_state. apply (kill_running s k pid r); [|done|done].
    apply lookup_lt_Some in Hck. unfold cores in Hck. by rewrite length_map in Hck.
  - by apply (Heff _ _ _ (still_eq k _ (eff_growproc n))) in E.
Qed.

Lemma lost_kop k s s' : lost k s -> kop s s' -> lost k s'.
Proof.
  intros Hl Hop. destruct (kop_still k s s' Hl Hop) as [[_ Hst] Hc']. destruct Hl as (Hinv & Hr & Hc).
  split_and!; [by eapply kop_inv | | destruct Hc'; congruence].
  apply cores_state in Hr as (c & Hk & Hr). apply cores_state. eauto.
Qed.

Lemma lost_forever k s s' : lost k s -> rtc kop s s' -> lost k s'.
Proof. intros Hl Hr. induction Hr as [s|s s1 s2 Hop _ IH]; [done|]. by eapply IH, lost_kop. Qed.

(** ps counts the tokens down and puts the process to sleep when they are gone. *)
Lemma ps_tick_asleep k x : p_state x.2 = SLEEPING -> p_state (Nat.iter k ps_tick x).2 = SLEEPING.
Proof.
  intros Hx. induction k as [|k IH]; [done|]. cbn [Nat.iter nat_rect]. change (nat_rect _ x _ k) with (Nat.iter k ps_tick x).
  destruct (Nat.iter k ps_tick x) as [[ut a] p]. unfold ps_tick. by destruct (0 <? a).
Qed.

Lemma ps_ticks_sleeps n : forall ut a p, 0 <= a -> (Z.to_nat a < n)%nat -> a < 2 ^ 31 ->
  p_state (Nat.iter n ps_tick (ut, a, p)).2 = SLEEPING.
Proof.
  induction n as [|n IH]; intros ut a p Ha Hn Hmax; [lia|]. rewrite Nat.iter_succ_r. unfold ps_tick at 2.
  destruct (Z.ltb_spec 0 a).
  - rewrite (i32_id (a - 1)) by lia. apply IH; lia.
  - by apply ps_tick_asleep.
Qed.

Lemma ps_one_sleeps me u utable k s r s' :
  let p := getp s k in
  ps_one me u utable k s = Ok r s' -> (k < length (procs s))%nat ->
  0 <= p_avail p < i32 (p_time p + p_avail p - p_last p) -> p_state (getp s' k) = SLEEPING.
Proof.
  intros p E Hk Hd. revert E. unfold ps_one. intros (p0 & s1 & E1 & E)%bind_Ok. injection E1 as <- <-. fold p in E.
  apply bind_Ok in E as ([] & s1 & E1 & E). apply (eff_onk eq) in E1 as (R1 & _).
  apply bind_Ok in E as ([] & s2 & E2 & E). apply (eff_onk eq) in E2 as (R2 & _).
  apply bind_Ok in E as (sx & s3 & E3 & E). injection E3 as <- <-.
  rewrite (proj2 (Z.ltb_lt _ _)) in E by lia.
  pose proof (i32_range (p_time p + p_avail p - p_last p)) as Hn.
  pose proof (ps_ticks_sleeps (Z.to_nat (i32 (p_time p + p_avail p - p_last p))) 0 (p_avail p) p
    ltac:(lia) ltac:(lia) ltac:(lia)) as Hs.
  unfold ps_ticks in E. destruct (Nat.iter _ ps_tick _) as [[ut ua] p']. cbn [snd] in Hs.
  apply bind_Ok in E as ([] & s3 & E3 & E).
  match type of E with ?m _ = _ => assert (eff eq m) as He by effs end.
  apply He in E as (R & _). rewrite upd_proc_run in E3. injection E3 as <-.
  assert (cores s' !! k = Some (pcore p')) as Hc.
  { rewrite <- R, cores_alter, <- R2, <- R1, list_lookup_alter_eq, cores_lookup.
    by destruct (lookup_lt_is_Some_2 _ _ Hk) as [x ->]. }
  apply cores_getp in Hc. injection Hc as Hc _ _. congruence.
Qed.
End effects.

(** ** Properties *)

(** C19: the process tree. Along every sequence of operations of one CPU the
    table is a tree rooted in init: every process in use has a pid of its own
    below nextpid and a chain of parents that ends at init, which has none;
    every parent is a process that can still run, so that exit hands its
    children on and no child is left without someone to wait for it; no process
    is its own ancestor; unused entries are clear, and the process on the CPU
    is neither unused nor a zombie. *)
Theorem process_tree_invariant {F} `{FsEnv F} (s s' : pk F) :
  proc_inv s -> rtc kstep s s' ->
  proc_inv s' /\ forall i, ~ tc (fun x y => parent_of (cores s') x = Some y) i i.
Proof.
  intros Hi Hr. assert (proc_inv s') as Hinv.
  { induction Hr as [s|s s1 s2 Hs _ IH]; [exact Hi|]. apply IH. by eapply kstep_inv. }
  split; [exact Hinv|]. intros i. destruct Hinv as [Ht _]. exact (tree_acyclic _ _ _ i Ht).
Qed.

(** C20: a process that goes to sleep with an empty bucket is lost. sched makes
    it runnable and switches, and when the scheduler has picked it again sched
    goes on to its second switch, with the tick it read before, in the state
    RUNNING. The CPU is then idle, and the process is on no CPU; and however
    the other processes and the scheduler go on, with forks, exits, waits,
    sleeps, wakeups and kills in any order, it stays in the state RUNNING, so
    the scheduler never picks it. Only ps can end that: it puts a process to
    sleep again whose tick is ahead of the scheduler's, and then a wakeup or a
    kill can reach it. *)
Theorem empty_bucket_loses_process {F} `{FsEnv F} (s : pk F) i chan fatcat current_tick :
  proc_inv s -> cur s = Some i -> p_bucket (getp s i) < 1 ->
  exists s',
    (sleep chan ;; scheduler_return fatcat current_tick i ;;
     let* picked := scheduler_pick i in
     sched_resumed i (ticks s) ;; scheduler_return fatcat current_tick i ;; ret picked) s = Ok true s' /\
    cur s' = None /\
    forall s2, rtc kop s' s2 ->
      p_state (getp s2 i) = RUNNING /\ cur s2 <> Some i /\ scheduler_pick i s2 = Ok false s2 /\
      forall me u utable r s3, let p := getp s2 i in
        ps_one me u utable i s2 = Ok r s3 ->
        0 <= p_avail p < i32 (p_time p + p_avail p - p_last p) -> p_state (getp s3 i) = SLEEPING.
Proof.
  intros Hinv Hc Hb. assert (i < length (procs s))%nat as Hi.
  { destruct (inv_live s i Hinv Hc) as (c & Hi & _). apply lookup_lt_Some in Hi. unfold cores in Hi. by rewrite length_map in Hi. }
  destruct (sleep_empty_run s i chan) as (s2 & E2 & St2 & L2); [done | lia | done |].
  destruct (scheduler_return_run s2 i fatcat current_tick) as (s3 & E3 & St3 & L3 & C3); [lia|].
  destruct (scheduler_pick_run s3 i) as (s4 & E4 & St4 & L4 & C4); [lia | congruence |].
  destruct (sched_resumed_run s4 i (ticks s)) as (s5 & E5 & St5 & L5); [lia|].
  destruct (scheduler_return_run s5 i fatcat current_tick) as (s6 & E6 & St6 & L6 & C6); [lia|].
  assert (lost i s6) as Hlost.
  { split_and!; [|congruence|congruence]. apply (kop_inv s4); [apply (kop_inv s3); [apply (kop_inv s); [done|]|]|].
    - apply (step_sleep _ _ chan i fatcat current_tick); [done | by rewrite (bind_run _ _ _ _ _ E2)].
    - by apply (step_pick _ _ i true).
    - apply (step_resumed _ _ i (ticks s) fatcat current_tick); [done | by rewrite (bind_run _ _ _ _ _ E5)]. }
  rewrite (bind_run _ _ _ _ _ E2), (bind_run _ _ _ _ _ E3), (bind_run _ _ _ _ _ E4), (bind_run _ _ _ _ _ E5),
    (bind_run _ _ _ _ _ E6).
  exists s6. split_and!; [done | done |]. intros t Hr. apply (lost_forever i) in Hr as (Ht & St & Ct); [|done].
  split_and!; [done | done | |].
  - unfold scheduler_pick, theproc, gets, bind at 1. by rewrite St, bool_decide_eq_false_2.
  - intros me u utable r s7 p E Hp. eapply ps_one_sleeps; [exact E | | exact Hp].
    pose proof (inv_len t Ht) as Hl. pose proof (inv_len s Hinv). unfold cores in *. rewrite length_map in *. lia.
Qed.

(** ** Witness

    init waits, its child, which has a child of its own, exits, and init reaps
    it and is left with the grandchild. *)

Definition demo_family : pk unit :=
  Pk ([demo_proc RUNNING 1 1 None; demo_proc RUNNABLE 2 1 (Some 0%nat); demo_proc SLEEPING 3 1 (Some 1%nat)] ++
      replicate 61 zero_proc)
    4 (Some 0%nat) (Some 0%nat) 0 no_memory None (replicate 7 0) 0 0x80010000 tt.
Definition after {A} (r : res (pk unit) A) : pk unit := match r with Ok _ s => s | Stop _ s => s end.
Definition wait_and_switch : M (pk unit) unit :=
  let* r := wait 0 in if r is None then scheduler_return true 5 0 else fault "".
Definition family_waits : pk unit := after (wait_and_switch demo_family).
Definition family_child : pk unit := after (scheduler_pick 1 family_waits).
Definition family_exited : pk unit :=
  after ((@exit unit no_files 3 ;; scheduler_return true 5 1) family_child).
Definition family_init : pk unit := after (scheduler_pick 0 family_exited).
Definition family_reaped : pk unit := after (wait 0 family_init).

Lemma demo_family_inv : proc_inv demo_family.
Proof.
  assert (forall i c, cores demo_family !! i = Some c ->
    (i = 0%nat /\ c = (RUNNING, None, 1)) \/ (i = 1%nat /\ c = (RUNNABLE, Some 0%nat, 2)) \/
    (i = 2%nat /\ c = (SLEEPING, Some 1%nat, 3)) \/ c = (UNUSED, None, 0)) as Hc.
  { intros [|[|[|i]]] c Hi; [injection Hi as <-; auto 6.. |].
    right. right. right. change (replicate 61 (UNUSED, @None nat, 0) !! i = Some c) in Hi.
    by apply lookup_replicate in Hi as [-> _]. }
  split; [|intros i [= <-]; exists RUNNING, None, 1; done].
  split.
  - reflexivity.
  - reflexivity.
  - intros i par pid [(_ & [=])|[(_ & [=])|[(_ & [=])|[= -> ->]]]]%Hc; auto.
  - intros i st par pid [(_ & [= -> -> ->])|[(_ & [= -> -> ->])|[(_ & [= -> -> ->])|[= -> -> ->]]]]%Hc Hst; cbn; lia || done.
  - intros i j st par st' par' pid Hi Hj Hp.
    apply Hc in Hi as [(-> & [= -> -> ->])|[(-> & [= -> -> ->])|[(-> & [= -> -> ->])|[= -> -> ->]]]];
      apply Hc in Hj as [(-> & [=])|[(-> & [=])|[(-> & [=])|[=]]]]; done.
  - intros i st q pid [(_ & [=])|[(_ & [= -> -> ->])|[(_ & [= -> -> ->])|[=]]]]%Hc;
      [exists RUNNING, None, 1; done | exists RUNNABLE, (Some 0%nat), 2; done].
  - exists 0%nat, RUNNING, 1. split_and!; [done..|]. intros i st par pid Hi Hst.
    assert (below (parent_of (cores demo_family)) 0 1) as H1 by (apply (below_child _ _ _ 0); [done | constructor]).
    apply Hc in Hi as [(-> & _)|[(-> & _)|[(-> & _)|[= -> -> ->]]]];
      [constructor | exact H1 | by apply (below_child _ _ _ 1) | done].
Qed.

Lemma process_tree_invariant_witness :
  proc_inv demo_family /\ proc_inv family_reaped /\
  p_state (getp family_reaped 1) = UNUSED /\ p_parent (getp family_reaped 2) = Some 0%nat.
Proof.
  split; [exact demo_family_inv|]. split; [|vm_compute; done].
  refine (proj1 (@process_tree_invariant unit no_files demo_family family_reaped demo_family_inv _)).
  apply (rtc_l _ _ family_waits).
  { left; apply (step_wait_sleep _ _ 0 0%nat true 5); [reflexivity | vm_compute; reflexivity]. }
  apply (rtc_l _ _ family_child).
  { left; apply (step_pick _ _ 1%nat true); [vm_compute; reflexivity | vm_compute; reflexivity]. }
  apply (rtc_l _ _ family_exited).
  { left; apply (step_exit _ _ 3 1%nat true 5); [vm_compute; reflexivity | vm_compute; reflexivity]. }
  apply (rtc_l _ _ family_init).
  { left; apply (step_pick _ _ 0%nat true); [vm_compute; reflexivity | vm_compute; reflexivity]. }
  apply rtc_once. left; apply (step_wait _ _ 0 2). vm_compute. reflexivity.
Defined.

(** init goes to sleep with an empty bucket, and then its child runs and sleeps. *)
Definition demo_broke : pk unit :=
  Pk ([demo_proc RUNNING 1 0 None; demo_proc RUNNABLE 2 9 (Some 0%nat)] ++ replicate 62 zero_proc)
    4 (Some 0%nat) (Some 0%nat) 10 no_memory None (replicate 7 0) 0 0x80010000 tt.

Lemma demo_broke_inv : proc_inv demo_broke.
Proof.
  assert (forall i c, cores demo_broke !! i = Some c ->
    (i = 0%nat /\ c = (RUNNING, None, 1)) \/ (i = 1%nat /\ c = (RUNNABLE, Some 0%nat, 2)) \/ c = (UNUSED, None, 0)) as Hc.
  { intros [|[|i]] c Hi; [injection Hi as <-; auto.. |].
    right. right. change (replicate 62 (UNUSED, @None nat, 0) !! i = Some c) in Hi.
    by apply lookup_replicate in Hi as [-> _]. }
  split; [|intros i [= <-]; exists RUNNING, None, 1; done].
  split.
  - reflexivity.
  - reflexivity.
  - intros i par pid [(_ & [=])|[(_ & [=])|[= -> ->]]]%Hc; auto.
  - intros i st par pid [(_ & [= -> -> ->])|[(_ & [= -> -> ->])|[= -> -> ->]]]%Hc Hst; cbn; lia || done.
  - intros i j st par st' par' pid Hi Hj Hp.
    apply Hc in Hi as [(-> & [= -> -> ->])|[(-> & [= -> -> ->])|[= -> -> ->]]];
      apply Hc in Hj as [(-> & [=])|[(-> & [=])|[=]]]; done.
  - intros i st q pid [(_ & [=])|[(_ & [= -> -> ->])|[=]]]%Hc. exists RUNNING, None, 1; done.
  - exists 0%nat, RUNNING, 1. split_and!; [done..|]. intros i st par pid Hi Hst.
    apply Hc in Hi as [(-> & _)|[(-> & _)|[= -> -> ->]]]; [constructor | | done].
    apply (below_child _ _ _ 0); [done | constructor].
Qed.

Definition lost_init : pk unit :=
  after ((sleep 5 ;; scheduler_return true 7 0 ;;
    let* picked := scheduler_pick 0 in
    sched_resumed 0 10 ;; scheduler_return true 7 0 ;; ret picked) demo_broke).
Definition lost_child : pk unit := after (scheduler_pick 1 lost_init).
Definition lost_woken : pk unit := after (wakeup 5 lost_child).
Definition lost_listed : pk unit := after (@ps_one unit 1 0x87fff000 0 0 lost_woken).

Lemma empty_bucket_loses_process_witness :
  scheduler_pick 0 lost_woken = Ok false lost_woken /\
  p_state (getp lost_listed 0) = SLEEPING /\
  p_state (getp (after (wakeup 5 lost_listed)) 0) = RUNNABLE.
Proof.
  destruct (@empty_bucket_loses_process unit no_files demo_broke 0%nat 5 true 7 demo_broke_inv) as (s' & E & _ & Hs).
  1: reflexivity. 1: reflexivity.
  assert (s' = lost_init) as ->.
  { unfold lost_init. change (ticks demo_broke) with 10 in E. by rewrite E. }
  destruct (Hs lost_woken) as (_ & _ & Hp & Hps).
  { apply (rtc_l _ _ lost_child); [apply (step_pick _ _ 1%nat true); vm_compute; reflexivity|].
    apply rtc_once. apply (step_wakeup _ _ 5). vm_compute. reflexivity. }
  split; [exact Hp|]. split; [|vm_compute; reflexivity].
  apply (Hps 1%nat 0x87fff000 0 false lost_listed); [vm_compute; reflexivity | vm_compute; split; [discriminate | reflexivity]].
Defined.
