(* ===== verification/Journal.v ===== *)
(** * What fs.c asks of the rest of the kernel

    [Journal]: the buffer cache and the log, as fs.c calls them, with their
    promise: between begin_op and end_op a block reads as its last logged
    contents. The cache and the log are finite: a run may end in the panic of
    an exhausted cache or of an oversized transaction, and [wp] states what
    holds of a run up to these two. [CopyEnv]: either_copyin and
    either_copyout. Each has a small executable instance. *)

From stdpp Require Import base gmap list strings.
From Stdlib Require Import ZArith Lia.
From S2P Require Import Prelude Bytes Bio.

(** ** Runs up to resource exhaustion *)

Definition exhausted (e : stop) : Prop :=
  e = Panic "bget: no buffers" \/ e = Panic "too big a transaction".

Definition wp {S A} (m : M S A) (s : S) (Q : A -> S -> Prop) : Prop :=
  match m s with Ok a s' => Q a s' | Stop e _ => exhausted e end.

(** ** The interfaces *)

Class Journal (J : Type) : Type := {
  jn_bread : Z -> Z -> M J nat;         (* bread(dev, blockno) *)
  jn_data : J -> nat -> block;          (* bp->data *)
  jn_set : nat -> block -> M J unit;    (* stores through bp->data *)
  jn_log_write : nat -> M J unit;
  jn_brelse : nat -> M J unit;
  jn_initlog : Z -> Z -> Z -> M J unit; (* initlog(dev, sb): logstart, nlog *)
  jn_begin_op : M J unit;
  jn_end_op : M J unit;
}.

Class JournalLaws (J : Type) `{Journal J} : Type := {
  (** the buffers the caller holds, by block, and what the blocks read as *)
  jrep : J -> (Z -> option nat) -> (Z -> block) -> Prop;
  jn_ext : forall j H V H' V', jrep j H V -> (forall b, H' b = H b) -> (forall b, V' b = V b) -> jrep j H' V';
  jn_held : forall j H V b i, jrep j H V -> H b = Some i -> jn_data j i = V b;
  jn_bread_ok : forall j H V b, jrep j H V -> H b = None ->
    wp (jn_bread ROOTDEV b) j (fun i j' => jrep j' (at_ H b (Some i)) V);
  jn_update_ok : forall j H V b i d, jrep j H V -> H b = Some i ->
    wp (jn_set i d ;; jn_log_write i) j (fun _ j' => jrep j' H (at_ V b d));
  jn_brelse_ok : forall j H V b i, jrep j H V -> H b = Some i ->
    wp (jn_brelse i) j (fun _ j' => jrep j' (at_ H b None) V);
}.

(** either_copyout(user, dst, bytes) and either_copyin(., user, src, len),
    which returns the bytes it has stored when it stopped. *)
Class CopyEnv (U : Type) : Type := {
  ce_copyout : bool -> Z -> list Z -> M U Z;
  ce_copyin : bool -> Z -> Z -> M U (Z * list Z);
  ce_byte : bool -> U -> Z -> Z;        (* the byte at a user or kernel address *)
}.

Class CopyEnvLaws (U : Type) `{CopyEnv U} : Type := {
  ce_copyout_ok : forall user dst bs u, exists r u',
    ce_copyout user dst bs u = Ok r u' /\
    (r = -1 /\ user = true \/
     r = 0 /\
     (forall k b, bs !! k = Some b -> ce_byte user u' (dst + Z.of_nat k) = b) /\
     (forall a, 0 <= a -> a < dst \/ dst + Z.of_nat (length bs) <= a -> ce_byte user u' a = ce_byte user u a));
  ce_copyin_ok : forall user src n u, 0 <= n -> exists r bs,
    ce_copyin user src n u = Ok (r, bs) u /\
    (r = -1 /\ user = true \/ r = 0 /\ Z.of_nat (length bs) = n /\
     forall k b, bs !! k = Some b -> b = ce_byte user u (src + Z.of_nat k));
}.

(** ** The calculus of [wp] *)

Lemma wp_ret {S A} (a : A) (s : S) (Q : A -> S -> Prop) : Q a s -> wp (ret a) s Q.
Proof. done. Qed.

Lemma wp_bind {S A B} (m : M S A) (k : A -> M S B) s Q :
  wp m s (fun a s' => wp (k a) s' Q) -> wp (bind m k) s Q.
Proof. unfold wp, bind. by destruct (m s). Qed.

Lemma wp_mono {S A} (m : M S A) s (Q Q' : A -> S -> Prop) :
  wp m s Q -> (forall a s', Q a s' -> Q' a s') -> wp m s Q'.
Proof. unfold wp. destruct (m s); auto. Qed.

Lemma wp_bind_mono {S A B} (m : M S A) (k : A -> M S B) s (P : A -> S -> Prop) Q :
  wp m s P -> (forall a s', P a s' -> wp (k a) s' Q) -> wp (bind m k) s Q.
Proof. intros Hm Hk. apply wp_bind. by eapply wp_mono. Qed.

Lemma wp_get {S} (s : S) (Q : S -> S -> Prop) : Q s s -> wp get s Q.
Proof. done. Qed.
Lemma wp_gets {S A} (f : S -> A) (s : S) (Q : A -> S -> Prop) : Q (f s) s -> wp (gets f) s Q.
Proof. done. Qed.
Lemma wp_modify {S} (f : S -> S) (s : S) (Q : unit -> S -> Prop) : Q tt (f s) -> wp (modify f) s Q.
Proof. done. Qed.

Lemma wp_zoom {S T A} (l : lens S T) (m : M T A) s (Q : A -> S -> Prop) :
  wp m (view l s) (fun a t => Q a (over l t s)) -> wp (zoom l m) s Q.
Proof. unfold wp, zoom. by destruct (m (view l s)). Qed.

(** ** A journal that never runs out *)

Record flat : Type := Flat {
  f_blocks : gmap Z block;
  f_held : gset Z;
}.

Definition f_read (j : flat) (b : Z) : block := default zero_block (f_blocks j !! b).
Definition f_name (i : nat) : Z := default 0 (decode_nat i).

#[export] Instance flat_journal : Journal flat := {
  jn_bread dev b := fun j =>
    if decide (b ∈ f_held j) then Stop (Sleep b) j
    else Ok (encode_nat b) (Flat (f_blocks j) ({[b]} ∪ f_held j));
  jn_data j i := f_read j (f_name i);
  jn_set i d := modify (fun j => Flat (<[f_name i := d]> (f_blocks j)) (f_held j));
  jn_log_write i := ret tt;
  jn_brelse i := fun j =>
    if decide (f_name i ∈ f_held j) then Ok tt (Flat (f_blocks j) (f_held j ∖ {[f_name i]}))
    else Stop (Panic "brelse") j;
  jn_initlog dev start n := ret tt;
  jn_begin_op := ret tt;
  jn_end_op := ret tt;
}.

Lemma f_name_encode b : f_name (encode_nat b) = b.
Proof. unfold f_name. by rewrite decode_encode_nat. Qed.

#[export] Program Instance flat_laws : JournalLaws flat := {
  jrep j H V := (forall b, f_read j b = V b) /\
    forall b, H b = if decide (b ∈ f_held j) then Some (encode_nat b) else None;
}.
Next Obligation.
  intros j H V H' V' [HV HH] EH EV. split; intros b; [by rewrite EV | by rewrite EH].
Qed.
Next Obligation.
  intros j H V b i [HV HH] Hb. rewrite HH in Hb. case_decide; [|done]. injection Hb as <-. simpl.
  by rewrite f_name_encode.
Qed.
Next Obligation.
  intros j H V b [HV HH] Hb. unfold wp, jn_bread, flat_journal. rewrite HH in Hb.
  destruct (decide (b ∈ f_held j)); [done|]. split; [exact HV|]. intros c. unfold at_. cbn [f_held].
  destruct (Z.eqb_spec c b) as [->|Hne].
  - rewrite decide_True by set_solver. done.
  - rewrite HH. destruct (decide (c ∈ f_held j)), (decide (c ∈ {[b]} ∪ f_held j)); set_solver.
Qed.
Next Obligation.
  intros j H V b i d [HV HH] Hb. rewrite HH in Hb. case_decide; [|done]. injection Hb as <-.
  unfold wp, bind, jn_set, flat_journal, modify, ret, jn_log_write. rewrite f_name_encode. split; [|exact HH].
  intros c. unfold f_read, at_. cbn [f_blocks]. destruct (Z.eqb_spec c b) as [->|Hne].
  - by rewrite lookup_insert_eq.
  - rewrite lookup_insert_ne by done. apply HV.
Qed.
Next Obligation.
  intros j H V b i [HV HH] Hb. rewrite HH in Hb. case_decide; [|done]. injection Hb as <-.
  unfold wp, jn_brelse, flat_journal. rewrite f_name_encode, decide_True by done. split; [exact HV|].
  intros c. unfold at_. cbn [f_held]. destruct (Z.eqb_spec c b) as [->|Hne].
  - rewrite decide_False by set_solver. done.
  - rewrite HH. destruct (decide (c ∈ f_held j)), (decide (c ∈ f_held j ∖ {[b]})); set_solver.
Qed.

(** ** A copy environment: two byte memories, the user one of a given size *)

Record mems : Type := Mems { m_user : list Z; m_kernel : gmap Z Z }.

Fixpoint put_bytes (m : gmap Z Z) (a : Z) (bs : list Z) : gmap Z Z :=
  match bs with
  | [] => m
  | b :: bs => put_bytes (<[a := b]> m) (a + 1) bs
  end.

Definition mems_byte (user : bool) (u : mems) (a : Z) : Z :=
  if user then byte_at (m_user u) a else default 0 (m_kernel u !! a).
Definition in_user (u : mems) (a n : Z) : bool := (0 <=? a) && (a + n <=? Z.of_nat (length (m_user u))).

#[export] Instance mems_env : CopyEnv mems := {
  ce_copyout user dst bs := fun u =>
    if user : bool then
      if in_user u dst (Z.of_nat (length bs)) then Ok 0 (Mems (splice (m_user u) dst bs) (m_kernel u))
      else Ok (-1) u
    else Ok 0 (Mems (m_user u) (put_bytes (m_kernel u) dst bs));
  ce_copyin user src n := fun u =>
    if user && negb (in_user u src n) then Ok (-1, []) u
    else Ok (0, map (fun k => mems_byte user u (src + k)) (seqZ 0 n)) u;
  ce_byte := mems_byte;
}.

Lemma put_bytes_out bs : forall m a x,
  x < a \/ a + Z.of_nat (length bs) <= x -> put_bytes m a bs !! x = m !! x.
Proof.
  induction bs as [|b bs IH]; intros m a x Hx; cbn [put_bytes length] in *; [done|].
  rewrite IH by lia. apply lookup_insert_ne. lia.
Qed.
Lemma put_bytes_in bs : forall m a k b,
  bs !! k = Some b -> put_bytes m a bs !! (a + Z.of_nat k) = Some b.
Proof.
  induction bs as [|c bs IH]; intros m a k b Hk; [done|]. destruct k; simpl in Hk; cbn [put_bytes].
  - injection Hk as ->. rewrite put_bytes_out by lia. rewrite Z.add_0_r. apply lookup_insert_eq.
  - replace (a + Z.of_nat (S k)) with (a + 1 + Z.of_nat k) by lia. by apply IH.
Qed.

#[export] Program Instance mems_laws : CopyEnvLaws mems := {}.
Next Obligation.
  intros user dst bs u. unfold ce_copyout, ce_byte, mems_env, in_user.
  destruct user; [|eexists _, _; split; [reflexivity|]; right; split; [done|]; split].
  - destruct (_ && _) eqn:Eb; [|eexists _, _; split; [reflexivity|]; auto]. bool_to_prop.
    eexists _, _. split; [reflexivity|]. right. split; [done|]. cbn [mems_byte m_user]. split.
    + intros k b Hk. apply lookup_lt_Some in Hk as Hl. rewrite byte_at_splice by lia.
      rewrite (proj2 (Z.leb_le _ _)), (proj2 (Z.ltb_lt _ _)) by lia. cbn [andb]. unfold byte_at.
      replace (Z.to_nat (dst + Z.of_nat k - dst)) with k by lia. by rewrite Hk.
    + intros a Ha Hd. rewrite byte_at_splice by lia.
      destruct (Z.leb_spec dst a), (Z.ltb_spec a (dst + Z.of_nat (length bs))); done || lia.
  - intros k b Hk. cbn [mems_byte m_kernel]. by rewrite (put_bytes_in _ _ _ _ _ Hk).
  - intros a _ Ha. cbn [mems_byte m_kernel]. by rewrite put_bytes_out.
Qed.
Next Obligation.
  intros user src n u Hn. unfold ce_copyin, ce_byte, mems_env.
  destruct user, (in_user u src n); cbn [negb andb]; eexists _, _; (split; [reflexivity|]); auto; right.
  all: split; [done|]; split; [rewrite length_map, length_seqZ; lia|].
  all: intros k b Hk; rewrite list_lookup_fmap in Hk;
    apply fmap_Some in Hk as (x & Hx & ->); apply lookup_seqZ in Hx as [-> _]; done.
Qed.
