(* ===== verification/Inode.v ===== *)
(** * fs.c: blocks, inodes and their contents

    The block allocator, the inode table and reading and writing of files,
    over the journal and the copies of [Journal]. An inode is named by its
    index in itable; a sleep lock held by another process is the outcome
    [Sleep]. The console messages are not modelled. *)

From stdpp Require Import base gmap list strings.
From Stdlib Require Import ZArith Lia.
From S2P Require Import Prelude Sleeplock Bytes Bio Journal.

Definition FSMAGIC : Z := 0x10203040.
Definition NDIRECT : Z := 12.
Definition NINDIRECT : Z := BSIZE / 4.
Definition MAXFILE : Z := NDIRECT + NINDIRECT.
Definition DINODE_SIZE : Z := 64.
Definition IPB : Z := BSIZE / DINODE_SIZE.
Definition BPB : Z := BSIZE * 8.
Definition NINODE : nat := 50.
Definition ROOTINO : Z := 1.
Definition T_DIR : Z := 1.
Definition T_FILE : Z := 2.
Definition T_DEVICE : Z := 3.

Record superblock : Type := SB {
  sb_magic : Z; sb_size : Z; sb_nblocks : Z; sb_ninodes : Z;
  sb_nlog : Z; sb_logstart : Z; sb_inodestart : Z; sb_bmapstart : Z;
}.

Record inode : Type := Inode {
  i_dev : Z;
  i_inum : Z;
  i_ref : Z;
  i_lock : sleeplock;
  i_valid : Z;
  i_is_vault : Z;
  i_vault_id : Z;
  i_vault_open : Z;
  i_type : Z;            (* short *)
  i_major : Z;
  i_minor : Z;
  i_nlink : Z;
  i_size : Z;            (* uint *)
  i_addrs : list Z;      (* uint addrs[NDIRECT+1] *)
}.

Definition zero_inode : inode :=
  Inode 0 0 0 initsleeplock 0 0 0 0 0 0 0 0 0 (replicate 13 0).

(** struct stat, as far as stati fills it *)
Record stat_t : Type := StatT {
  s_dev : Z; s_ino : Z; s_type : Z; s_nlink : Z; s_size : Z; s_is_vault : Z; s_vault_id : Z;
}.

(** The file system around the journal [J] and the copies [U]; [mypid] is
    myproc()->pid. *)
Record fsst (J U : Type) : Type := FsSt {
  sb : superblock;
  itable : list inode;
  jn : J;
  env : U;
  fs_pid : Z;
}.
Arguments FsSt {J U}.
Arguments sb {J U}.
Arguments itable {J U}.
Arguments jn {J U}.
Arguments env {J U}.
Arguments fs_pid {J U}.

Definition set_i_ref (x : Z) (i : inode) : inode :=
  Inode (i_dev i) (i_inum i) x (i_lock i) (i_valid i) (i_is_vault i) (i_vault_id i) (i_vault_open i)
    (i_type i) (i_major i) (i_minor i) (i_nlink i) (i_size i) (i_addrs i).
Definition set_i_lock (x : sleeplock) (i : inode) : inode :=
  Inode (i_dev i) (i_inum i) (i_ref i) x (i_valid i) (i_is_vault i) (i_vault_id i) (i_vault_open i)
    (i_type i) (i_major i) (i_minor i) (i_nlink i) (i_size i) (i_addrs i).
Definition set_i_valid (x : Z) (i : inode) : inode :=
  Inode (i_dev i) (i_inum i) (i_ref i) (i_lock i) x (i_is_vault i) (i_vault_id i) (i_vault_open i)
    (i_type i) (i_major i) (i_minor i) (i_nlink i) (i_size i) (i_addrs i).
Definition set_i_type (x : Z) (i : inode) : inode :=
  Inode (i_dev i) (i_inum i) (i_ref i) (i_lock i) (i_valid i) (i_is_vault i) (i_vault_id i) (i_vault_open i)
    x (i_major i) (i_minor i) (i_nlink i) (i_size i) (i_addrs i).
Definition set_i_size (x : Z) (i : inode) : inode :=
  Inode (i_dev i) (i_inum i) (i_ref i) (i_lock i) (i_valid i) (i_is_vault i) (i_vault_id i) (i_vault_open i)
    (i_type i) (i_major i) (i_minor i) (i_nlink i) x (i_addrs i).
Definition set_i_addr (k : Z) (x : Z) (i : inode) : inode :=
  Inode (i_dev i) (i_inum i) (i_ref i) (i_lock i) (i_valid i) (i_is_vault i) (i_vault_id i) (i_vault_open i)
    (i_type i) (i_major i) (i_minor i) (i_nlink i) (i_size i) (<[Z.to_nat k := x]> (i_addrs i)).
(** iget recycles an entry *)
Definition set_i_id (dev inum : Z) (i : inode) : inode :=
  Inode dev inum 1 (i_lock i) 0 (i_is_vault i) (i_vault_id i) (i_vault_open i)
    (i_type i) (i_major i) (i_minor i) (i_nlink i) (i_size i) (i_addrs i).
Definition i_addr (i : inode) (k : Z) : Z := default 0 (i_addrs i !! Z.to_nat k).

(** *** struct dinode in the bytes of a block *)

Definition dinode_off (inum : Z) : Z := inum mod IPB * DINODE_SIZE.
Definition di_type (bs : block) (o : Z) : Z := i16 (ld16 bs o).
Definition di_addrs (bs : block) (o : Z) : list Z := map (fun k => ld32 bs (o + 12 + 4 * k)) (seqZ 0 13).
(** ip->xxx = dip->xxx *)
Definition load_dinode (bs : block) (o : Z) (i : inode) : inode :=
  Inode (i_dev i) (i_inum i) (i_ref i) (i_lock i) 1 (i_is_vault i) (i_vault_id i) (i_vault_open i)
    (di_type bs o) (i16 (ld16 bs (o + 2))) (i16 (ld16 bs (o + 4))) (i16 (ld16 bs (o + 6)))
    (ld32 bs (o + 8)) (di_addrs bs o).
Fixpoint st_addrs (bs : block) (o : Z) (xs : list Z) : block :=
  match xs with
  | [] => bs
  | x :: xs => st_addrs (st32 bs o x) (o + 4) xs
  end.
(** dip->xxx = ip->xxx *)
Definition store_dinode (bs : block) (o : Z) (i : inode) : block :=
  let bs := st16 bs o (i_type i) in
  let bs := st16 bs (o + 2) (i_major i) in
  let bs := st16 bs (o + 4) (i_minor i) in
  let bs := st16 bs (o + 6) (i_nlink i) in
  let bs := st32 bs (o + 8) (i_size i) in
  st_addrs bs (o + 12) (i_addrs i).

(** Bit [bi] of a bitmap block. *)
Definition bit_mask (bi : Z) : Z := Z.shiftl 1 (bi mod 8).
Definition bit_free (bs : block) (bi : Z) : bool := Z.land (byte_at bs (bi / 8)) (bit_mask bi) =? 0.
Definition set_bit (bs : block) (bi : Z) : block :=
  <[Z.to_nat (bi / 8) := u8 (Z.lor (byte_at bs (bi / 8)) (bit_mask bi))]> bs.
Definition clear_bit (bs : block) (bi : Z) : block :=
  <[Z.to_nat (bi / 8) := u8 (Z.land (byte_at bs (bi / 8)) (Z.lnot (bit_mask bi)))]> bs.

Section fs.
Context {J U : Type} `{Journal J} `{CopyEnv U}.

Definition FM (A : Type) : Type := M (fsst J U) A.

Definition jn_lens : lens (fsst J U) J := Lens jn (fun j s => FsSt (sb s) (itable s) j (env s) (fs_pid s)).
Definition env_lens : lens (fsst J U) U := Lens env (fun u s => FsSt (sb s) (itable s) (jn s) u (fs_pid s)).
Definition onj {A} (m : M J A) : FM A := zoom jn_lens m.
Definition onu {A} (m : M U A) : FM A := zoom env_lens m.
Definition upd_itable (f : list inode -> list inode) : FM unit :=
  modify (fun s => FsSt (sb s) (f (itable s)) (jn s) (env s) (fs_pid s)).
Definition upd_inode (ip : nat) (f : inode -> inode) : FM unit := upd_itable (alter f ip).
Definition geti (s : fsst J U) (ip : nat) : inode := default zero_inode (itable s !! ip).
Definition theinode (ip : nat) : FM inode := gets (fun s => geti s ip).

Definition bdata (bp : nat) : FM block := gets (fun s => jn_data (jn s) bp).

(** The stores of a caller into a block, and log_write. *)
Definition bupdate (bp : nat) (f : block -> block) : FM unit :=
  let* d := bdata bp in onj (jn_set bp (f d) ;; jn_log_write bp).

Definition IBLOCK (i : Z) (sb : superblock) : Z := u32 (i / IPB + sb_inodestart sb).
Definition BBLOCK (b : Z) (sb : superblock) : Z := u32 (b / BPB + sb_bmapstart sb).

Definition parse_sb (d : block) : superblock :=
  SB (ld32 d 0) (ld32 d 4) (ld32 d 8) (ld32 d 12) (ld32 d 16) (ld32 d 20) (ld32 d 24) (ld32 d 28).

Definition readsb (dev : Z) : FM superblock :=
  let* bp := onj (jn_bread dev 1) in
  let* d := bdata bp in
  onj (jn_brelse bp) ;;
  ret (parse_sb d).

Definition fsinit (dev : Z) : FM unit :=
  let* x := readsb dev in
  modify (fun s => FsSt x (itable s) (jn s) (env s) (fs_pid s)) ;;
  if negb (sb_magic x =? FSMAGIC) then panic "invalid file system"
  else onj (jn_initlog dev (sb_logstart x) (sb_nlog x)).

Definition bzero (dev bno : Z) : FM unit :=
  let* bp := onj (jn_bread dev bno) in
  bupdate bp (fun _ => zero_block) ;;
  onj (jn_brelse bp).

(** The scan of one bitmap block: the first free bit below the disk's size. *)
Definition scan_bits (d : block) (b size : Z) : option Z :=
  List.find (bit_free d) (seqZ 0 (Z.min BPB (size - b))).

Definition balloc_in (dev b : Z) : FM (option Z) :=
  let* s := get in
  let* bp := onj (jn_bread dev (BBLOCK b (sb s))) in
  let* d := bdata bp in
  match scan_bits d b (sb_size (sb s)) with
  | Some bi =>
      bupdate bp (fun d => set_bit d bi) ;;
      onj (jn_brelse bp) ;;
      bzero dev (b + bi) ;;
      ret (Some (b + bi))
  | None => onj (jn_brelse bp) ;; ret None
  end.

(** The bitmap blocks, by their first bit. *)
Definition bitmap_starts (size : Z) : list Z := map (fun k => k * BPB) (seqZ 0 ((size + BPB - 1) / BPB)).

Definition balloc (dev : Z) : FM Z :=
  let* s := get in
  let* r := for_until (bitmap_starts (sb_size (sb s))) (balloc_in dev) in
  ret (default 0 r).

Definition bfree (dev b : Z) : FM unit :=
  let* s := get in
  let* bp := onj (jn_bread dev (BBLOCK b (sb s))) in
  let* d := bdata bp in
  let bi := b mod BPB in
  if bit_free d bi then panic "freeing free block"
  else
    bupdate bp (fun d => clear_bit d bi) ;;
    onj (jn_brelse bp).

Definition iinit : FM unit :=
  for_each (seq 0 NINODE) (fun i => upd_inode i (set_i_lock initsleeplock)).

(** iget's scan: the entry of the inode, and the first empty one. *)
Definition iget (dev inum : Z) : FM nat :=
  let* s := get in
  let hit i := (0 <? i_ref (geti s i)) && (i_dev (geti s i) =? dev) && (i_inum (geti s i) =? inum) in
  match List.find hit (seq 0 NINODE) with
  | Some ip => upd_inode ip (fun i => set_i_ref (i32 (i_ref i + 1)) i) ;; ret ip
  | None =>
      match List.find (fun i => i_ref (geti s i) =? 0) (seq 0 NINODE) with
      | None => panic "iget: no inodes"
      | Some ip => upd_inode ip (set_i_id dev inum) ;; ret ip
      end
  end.

Definition ialloc_at (dev type inum : Z) : FM (option nat) :=
  let* s := get in
  let* bp := onj (jn_bread dev (IBLOCK inum (sb s))) in
  let* d := bdata bp in
  if di_type d (dinode_off inum) =? 0 then
    bupdate bp (fun d => st16 (splice d (dinode_off inum) (replicate 64 0)) (dinode_off inum) type) ;;
    onj (jn_brelse bp) ;;
    let* ip := iget dev inum in
    ret (Some ip)
  else onj (jn_brelse bp) ;; ret None.

Definition ialloc (dev type : Z) : FM (option nat) :=
  let* s := get in
  for_until (seqZ 1 (sb_ninodes (sb s) - 1)) (ialloc_at dev type).

Definition iupdate (ip : nat) : FM unit :=
  let* s := get in
  let* i := theinode ip in
  let* bp := onj (jn_bread (i_dev i) (IBLOCK (i_inum i) (sb s))) in
  bupdate bp (fun d => store_dinode d (dinode_off (i_inum i)) i) ;;
  onj (jn_brelse bp).

Definition idup (ip : nat) : FM nat :=
  upd_inode ip (fun i => set_i_ref (i32 (i_ref i + 1)) i) ;; ret ip.

(** acquiresleep(&ip->lock), or going to sleep on it. *)
Definition lock_inode (ip : nat) : FM unit :=
  let* s := get in
  match acquiresleep (fs_pid s) (i_lock (geti s ip)) with
  | Some l => upd_inode ip (set_i_lock l)
  | None => halt (Sleep (Z.of_nat ip))
  end.

Definition ilock (ip : nat) : FM unit :=
  let* i := theinode ip in
  if i_ref i <? 1 then panic "ilock"
  else
    lock_inode ip ;;
    let* i := theinode ip in
    if i_valid i =? 0 then
      let* s := get in
      let* bp := onj (jn_bread (i_dev i) (IBLOCK (i_inum i) (sb s))) in
      let* d := bdata bp in
      upd_inode ip (load_dinode d (dinode_off (i_inum i))) ;;
      onj (jn_brelse bp) ;;
      let* i := theinode ip in
      if i_type i =? 0 then panic "ilock: no type" else ret tt
    else ret tt.

Definition iunlock (ip : nat) : FM unit :=
  let* s := get in
  let i := geti s ip in
  if negb (holdingsleep (fs_pid s) (i_lock i)) || (i_ref i <? 1) then panic "iunlock"
  else upd_inode ip (fun i => set_i_lock (releasesleep (i_lock i)) i).

(** *** The contents of an inode *)

(** Entry [k] of an indirect block. *)
Definition ind_entry (d : block) (k : Z) : Z := ld32 d (4 * k).

Definition bmap (ip : nat) (bn : Z) : FM Z :=
  let* i := theinode ip in
  if bn <? NDIRECT then
    if i_addr i bn =? 0 then
      let* addr := balloc (i_dev i) in
      if addr =? 0 then ret 0 else upd_inode ip (set_i_addr bn addr) ;; ret addr
    else ret (i_addr i bn)
  else
    let bn := bn - NDIRECT in
    if bn <? NINDIRECT then
      let* ind :=
        if i_addr i NDIRECT =? 0 then
          let* addr := balloc (i_dev i) in
          if addr =? 0 then ret 0 else upd_inode ip (set_i_addr NDIRECT addr) ;; ret addr
        else ret (i_addr i NDIRECT) in
      if ind =? 0 then ret 0
      else
        let* bp := onj (jn_bread (i_dev i) ind) in
        let* a := bdata bp in
        let* addr :=
          if ind_entry a bn =? 0 then
            let* addr := balloc (i_dev i) in
            when (nz addr) (bupdate bp (fun d => st32 d (4 * bn) addr)) ;;
            ret addr
          else ret (ind_entry a bn) in
        onj (jn_brelse bp) ;;
        ret addr
    else panic "bmap: out of range".

Definition itrunc_direct (ip : nat) (k : Z) : FM unit :=
  let* i := theinode ip in
  if nz (i_addr i k) then bfree (i_dev i) (i_addr i k) ;; upd_inode ip (set_i_addr k 0)
  else ret tt.

Definition itrunc (ip : nat) : FM unit :=
  for_each (seqZ 0 NDIRECT) (itrunc_direct ip) ;;
  let* i := theinode ip in
  when (nz (i_addr i NDIRECT))
    (let* bp := onj (jn_bread (i_dev i) (i_addr i NDIRECT)) in
     for_each (seqZ 0 NINDIRECT) (fun j =>
       let* a := bdata bp in
       when (nz (ind_entry a j)) (bfree (i_dev i) (ind_entry a j))) ;;
     onj (jn_brelse bp) ;;
     bfree (i_dev i) (i_addr i NDIRECT) ;;
     upd_inode ip (set_i_addr NDIRECT 0)) ;;
  upd_inode ip (set_i_size 0) ;;
  iupdate ip.

Definition iput (ip : nat) : FM unit :=
  let* i := theinode ip in
  when ((i_ref i =? 1) && nz (i_valid i) && (i_nlink i =? 0))
    (lock_inode ip ;;
     itrunc ip ;;
     upd_inode ip (set_i_type 0) ;;
     iupdate ip ;;
     upd_inode ip (set_i_valid 0) ;;
     upd_inode ip (fun i => set_i_lock (releasesleep (i_lock i)) i)) ;;
  upd_inode ip (fun i => set_i_ref (i32 (i_ref i - 1)) i).

Definition iunlockput (ip : nat) : FM unit := iunlock ip ;; iput ip.

Definition stati (ip : nat) : FM stat_t :=
  let* i := theinode ip in
  ret (StatT (i_dev i) (i_inum i) (i_type i) (i_nlink i) (i_size i) (i_is_vault i) (i_vault_id i)).

(** The loop of readi. [tot] is returned as an int: -1 when a copy failed. *)
Fixpoint readi_loop (fuel : nat) (ip : nat) (user_dst : bool) (dst off n tot : Z) : FM Z :=
  match fuel with
  | O => halt NoFuel
  | S fuel =>
      if tot <? n then
        let* addr := bmap ip (off / BSIZE) in
        if addr =? 0 then ret tot
        else
          let* i := theinode ip in
          let* bp := onj (jn_bread (i_dev i) addr) in
          let m := Z.min (n - tot) (BSIZE - off mod BSIZE) in
          let* d := bdata bp in
          let* r := onu (ce_copyout user_dst dst (slice d (off mod BSIZE) m)) in
          onj (jn_brelse bp) ;;
          if r =? -1 then ret (-1)
          else readi_loop fuel ip user_dst (u64 (dst + m)) (u32 (off + m)) n (tot + m)
      else ret tot
  end.

Definition io_fuel (n : Z) : nat := Z.to_nat (n / BSIZE + 3).

Definition readi (ip : nat) (user_dst : bool) (dst off n : Z) : FM Z :=
  let* i := theinode ip in
  if nz (i_is_vault i) && negb (nz (i_vault_open i)) then ret (-1)
  else if (i_size i <? off) || (u32 (off + n) <? off) then ret 0
  else
    let n := if i_size i <? u32 (off + n) then i_size i - off else n in
    let* tot := readi_loop (io_fuel n) ip user_dst dst off n 0 in
    ret (i32 tot).

(** The loop of writei: how far it came, and the offset there. A failing copy
    leaves the bytes it has copied in the buffer. *)
Fixpoint writei_loop (fuel : nat) (ip : nat) (user_src : bool) (src off n tot : Z) : FM (Z * Z) :=
  match fuel with
  | O => halt NoFuel
  | S fuel =>
      if tot <? n then
        let* addr := bmap ip (off / BSIZE) in
        if addr =? 0 then ret (tot, off)
        else
          let* i := theinode ip in
          let* bp := onj (jn_bread (i_dev i) addr) in
          let m := Z.min (n - tot) (BSIZE - off mod BSIZE) in
          let* x := onu (ce_copyin user_src src m) in
          let '(r, bs) := x in
          if r =? -1 then
            let* d := bdata bp in
            onj (jn_set bp (splice d (off mod BSIZE) bs)) ;;
            onj (jn_brelse bp) ;;
            ret (tot, off)
          else
            bupdate bp (fun d => splice d (off mod BSIZE) bs) ;;
            onj (jn_brelse bp) ;;
            writei_loop fuel ip user_src (u64 (src + m)) (u32 (off + m)) n (tot + m)
      else ret (tot, off)
  end.

Definition writei (ip : nat) (user_src : bool) (src off n : Z) : FM Z :=
  let* i := theinode ip in
  if (i_size i <? off) || (u32 (off + n) <? off) then ret (-1)
  else if MAXFILE * BSIZE <? u32 (off + n) then ret (-1)
  else
    let* x := writei_loop (io_fuel n) ip user_src src off n 0 in
    let '(tot, off) := x in
    let* i := theinode ip in
    when (i_size i <? off) (upd_inode ip (set_i_size off)) ;;
    iupdate ip ;;
    ret (i32 tot).
End fs.

(** ** Specification of the block allocator *)

(** Block [b] is marked in the bitmap of the disk [V]. *)
Definition used (sb : superblock) (V : Z -> block) (b : Z) : bool :=
  negb (bit_free (V (BBLOCK b sb)) (b mod BPB)).

(** The bitmap covers the disk, marks the boot block and itself, and its
    blocks are on the disk. *)
Record bitmap_ok (sb : superblock) (V : Z -> block) : Prop := {
  bm_size : 0 < sb_size sb < 2 ^ 31;
  bm_start : 0 < sb_bmapstart sb < 2 ^ 31;
  bm_len : forall b, 0 <= b < sb_size sb -> length (V (BBLOCK b sb)) = Z.to_nat BSIZE;
  bm_self : forall b, 0 <= b < sb_size sb -> used sb V (BBLOCK b sb) = true /\ 0 <= BBLOCK b sb < sb_size sb;
  bm_boot : used sb V 0 = true;
}.

(** The caller holds no bitmap block and no free block. *)
Definition holds_used (sb : superblock) (H : Z -> option nat) (V : Z -> block) : Prop :=
  forall b, 0 <= b < sb_size sb -> H (BBLOCK b sb) = None /\ (used sb V b = false -> H b = None).

(** The first free block of the disk. *)
Definition first_free (sb : superblock) (V : Z -> block) (a : Z) : Prop :=
  0 <= a < sb_size sb /\ used sb V a = false /\ forall b, 0 <= b < a -> used sb V b = true.

Definition alloc_block (sb : superblock) (V : Z -> block) (a : Z) : Z -> block :=
  at_ (at_ V (BBLOCK a sb) (set_bit (V (BBLOCK a sb)) (a mod BPB))) a zero_block.
Definition free_block (sb : superblock) (V : Z -> block) (a : Z) : Z -> block :=
  at_ V (BBLOCK a sb) (clear_bit (V (BBLOCK a sb)) (a mod BPB)).

(** ** Lemmas *)

(** *** Bits *)

Lemma bit_free_spec d bi : 0 <= bi -> bit_free d bi = negb (Z.testbit (byte_at d (bi / 8)) (bi mod 8)).
Proof.
  intros Hb. unfold bit_free, bit_mask. pose proof (Z.mod_pos_bound bi 8 ltac:(lia)).
  generalize (byte_at d (bi / 8)). intros x. generalize dependent (bi mod 8). intros k Hk.
  rewrite Z.shiftl_1_l. destruct (Z.testbit x k) eqn:E; cbn [negb].
  - apply Z.eqb_neq. intros E0. assert (Z.testbit (Z.land x (2 ^ k)) k = false) as E1 by (rewrite E0; apply Z.bits_0).
    rewrite Z.land_spec, E, Z.pow2_bits_true in E1 by lia. discriminate.
  - apply Z.eqb_eq, Z.bits_inj_0. intros n. rewrite Z.land_spec.
    destruct (decide (n = k)) as [->|]; [by rewrite E|]. rewrite Z.pow2_bits_false by lia. apply andb_false_r.
Qed.

Lemma testbit_u8 x k : 0 <= k < 8 -> Z.testbit (u8 x) k = Z.testbit x k.
Proof. intros. unfold u8. apply Z.mod_pow2_bits_low. lia. Qed.

Lemma bit_update d bi bj (f : Z -> Z) v :
  0 <= bi < 8 * Z.of_nat (length d) -> 0 <= bj ->
  (forall x k, 0 <= k < 8 -> Z.testbit (f x) k = if k =? bi mod 8 then v else Z.testbit x k) ->
  bit_free (<[Z.to_nat (bi / 8) := u8 (f (byte_at d (bi / 8)))]> d) bj =
    if bj =? bi then negb v else bit_free d bj.
Proof.
  intros Hi Hj Hf. rewrite !bit_free_spec by lia.
  pose proof (Z.mod_pos_bound bj 8 ltac:(lia)).
  destruct (decide (bi / 8 = bj / 8)) as [E|E].
  - rewrite <- E, byte_at_insert_eq by mlia. rewrite testbit_u8, Hf by lia.
    destruct (Z.eqb_spec (bj mod 8) (bi mod 8)), (Z.eqb_spec bj bi); try done; exfalso; mlia.
  - rewrite byte_at_insert_ne by mlia. destruct (Z.eqb_spec bj bi) as [->|]; done.
Qed.

Lemma bit_free_set d bi bj :
  0 <= bi < 8 * Z.of_nat (length d) -> 0 <= bj ->
  bit_free (set_bit d bi) bj = if bj =? bi then false else bit_free d bj.
Proof.
  intros Hi Hj. unfold set_bit.
  apply (bit_update d bi bj (fun x => Z.lor x (bit_mask bi)) true Hi Hj).
  intros x k Hk. rewrite Z.lor_spec. unfold bit_mask. rewrite Z.shiftl_1_l.
  destruct (Z.eqb_spec k (bi mod 8)) as [->|].
  - rewrite Z.pow2_bits_true by lia. apply orb_true_r.
  - rewrite Z.pow2_bits_false by lia. apply orb_false_r.
Qed.

Lemma bit_free_clear d bi bj :
  0 <= bi < 8 * Z.of_nat (length d) -> 0 <= bj ->
  bit_free (clear_bit d bi) bj = if bj =? bi then true else bit_free d bj.
Proof.
  intros Hi Hj. unfold clear_bit.
  apply (bit_update d bi bj (fun x => Z.land x (Z.lnot (bit_mask bi))) false Hi Hj).
  intros x k Hk. rewrite Z.land_spec, Z.lnot_spec by lia. unfold bit_mask. rewrite Z.shiftl_1_l.
  destruct (Z.eqb_spec k (bi mod 8)) as [->|].
  - rewrite Z.pow2_bits_true by lia. apply andb_false_r.
  - rewrite Z.pow2_bits_false by lia. apply andb_true_r.
Qed.

Lemma BBLOCK_split sb b bi :
  b mod BPB = 0 -> 0 <= bi < BPB -> BBLOCK (b + bi) sb = BBLOCK b sb /\ (b + bi) mod BPB = bi.
Proof.
  intros Hb Hi. unfold BBLOCK, BPB, BSIZE in *. split; [|mlia].
  replace ((b + bi) / (1024 * 8)) with (b / (1024 * 8)) by mlia. done.
Qed.

Lemma find_seqZ (f : Z -> bool) n : forall m,
  match List.find f (seqZ m n) with
  | Some x => m <= x < m + n /\ f x = true /\ forall y, m <= y < x -> f y = false
  | None => forall y, m <= y < m + n -> f y = false
  end.
Proof.
  destruct (Z.leb_spec n 0) as [Hn|Hn].
  { intros m. rewrite seqZ_nil by lia. simpl. intros. lia. }
  generalize (Z.lt_le_incl _ _ Hn). clear Hn. revert n. refine (natlike_ind _ _ _).
  { intros m. simpl. intros. lia. }
  intros n Hn IH m. rewrite seqZ_cons by lia. cbn [List.find]. destruct (f m) eqn:Ef.
  { split_and!; [lia | lia | done |]. intros. lia. }
  replace (Z.pred (Z.succ n)) with n by lia. specialize (IH (Z.succ m)).
  destruct (List.find f (seqZ (Z.succ m) n)) as [x|].
  - destruct IH as (Hx & Hfx & Hb). split; [lia|]. split; [done|]. intros y Hy.
    destruct (decide (y = m)) as [->|]; [done|]. apply Hb. lia.
  - intros y Hy. destruct (decide (y = m)) as [->|]; [done|]. apply IH. lia.
Qed.

(** *** The calls of the journal *)

Section run.
Context {J U : Type} `{JournalLaws J} `{CopyEnv U}.
Implicit Types s : fsst J U.

Definition with_jn (j : J) s : fsst J U := FsSt (sb s) (itable s) j (env s) (fs_pid s).

Lemma wp_bread s Hd V b :
  jrep (jn s) Hd V -> Hd b = None ->
  wp (onj (jn_bread ROOTDEV b)) s (fun i s' => exists j, s' = with_jn j s /\ jrep j (at_ Hd b (Some i)) V).
Proof.
  intros Hr Hb. apply wp_zoom. eapply wp_mono; [by apply jn_bread_ok|]. intros i j Hj. by exists j.
Qed.

Lemma wp_bdata s Hd V b i (Q : block -> fsst J U -> Prop) :
  jrep (jn s) Hd V -> Hd b = Some i -> Q (V b) s -> wp (bdata i) s Q.
Proof. intros Hr Hb HQ. apply wp_gets. by rewrite (jn_held _ _ _ _ _ Hr Hb). Qed.

Lemma wp_bupdate s Hd V b i f :
  jrep (jn s) Hd V -> Hd b = Some i ->
  wp (bupdate i f) s (fun _ s' => exists j, s' = with_jn j s /\ jrep j Hd (at_ V b (f (V b)))).
Proof.
  intros Hr Hb. apply wp_bind. eapply wp_bdata; [done | done |].
  apply wp_zoom. eapply wp_mono; [by apply jn_update_ok|]. intros [] j Hj. by exists j.
Qed.

Lemma wp_brelse s Hd V b i :
  jrep (jn s) Hd V -> Hd b = Some i ->
  wp (onj (jn_brelse i)) s (fun _ s' => exists j, s' = with_jn j s /\ jrep j (at_ Hd b None) V).
Proof.
  intros Hr Hb. apply wp_zoom. eapply wp_mono; [by apply jn_brelse_ok|]. intros [] j Hj. by exists j.
Qed.

Lemma at_back {A} (f : Z -> A) b x y c : f b = y -> at_ (at_ f b x) b y c = f c.
Proof. intros <-. unfold at_. destruct (Z.eqb_spec c b); congruence. Qed.

(** Reading a block without changing it. *)
Lemma wp_peek {A} s Hd V b (f : block -> A) (k : A -> FM (J := J) (U := U) A) Q :
  jrep (jn s) Hd V -> Hd b = None ->
  (forall j, jrep j Hd V -> wp (k (f (V b))) (with_jn j s) Q) ->
  wp (let* bp := onj (jn_bread ROOTDEV b) in
      let* d := bdata bp in
      onj (jn_brelse bp) ;; k (f d)) s Q.
Proof.
  intros Hr Hb Hk. eapply wp_bind_mono; [by eapply wp_bread|]. intros i s1 (j1 & -> & R1).
  apply wp_bind. eapply (wp_bdata _ _ _ b); [exact R1 | apply at_eq |].
  eapply wp_bind_mono; [eapply wp_brelse; [exact R1 | apply at_eq]|].
  intros [] s2 (j2 & -> & R2). apply Hk. eapply jn_ext; [exact R2 | | done]. intros c. symmetry. by apply at_back.
Qed.

(** Changing a block, logging it and releasing it. *)
Lemma wp_change s Hd V b f :
  jrep (jn s) Hd V -> Hd b = None ->
  wp (let* bp := onj (jn_bread ROOTDEV b) in bupdate bp f ;; onj (jn_brelse bp)) s
    (fun _ s' => exists j, s' = with_jn j s /\ jrep j Hd (at_ V b (f (V b)))).
Proof.
  intros Hr Hb. eapply wp_bind_mono; [by eapply wp_bread|]. intros i s1 (j1 & -> & R1).
  eapply wp_bind_mono; [eapply wp_bupdate; [exact R1 | apply at_eq]|]. intros [] s2 (j2 & -> & R2).
  eapply wp_mono; [eapply wp_brelse; [exact R2 | apply at_eq]|]. intros [] s3 (j3 & -> & R3).
  exists j3. split; [done|]. eapply jn_ext; [exact R3 | | done]. intros c. symmetry. by apply at_back.
Qed.

(** *** balloc and bfree *)

Lemma bzero_ok s Hd V b :
  jrep (jn s) Hd V -> Hd b = None ->
  wp (bzero ROOTDEV b) s (fun _ s' => exists j, s' = with_jn j s /\ jrep j Hd (at_ V b zero_block)).
Proof. intros. unfold bzero. by apply wp_change. Qed.

Lemma used_at sb V b bi :
  b mod BPB = 0 -> 0 <= bi < BPB -> used sb V (b + bi) = negb (bit_free (V (BBLOCK b sb)) bi).
Proof. intros Hb Hi. unfold used. by destruct (BBLOCK_split sb b bi Hb Hi) as [-> ->]. Qed.

Lemma balloc_in_ok s Hd V b :
  jrep (jn s) Hd V -> bitmap_ok (sb s) V -> holds_used (sb s) Hd V ->
  0 <= b < sb_size (sb s) -> b mod BPB = 0 ->
  wp (balloc_in ROOTDEV b) s (fun r s' => exists j, s' = with_jn j s /\
    match r with
    | Some a => b <= a < sb_size (sb s) /\ used (sb s) V a = false /\
        (forall x, b <= x < a -> used (sb s) V x = true) /\ jrep j Hd (alloc_block (sb s) V a)
    | None => (forall x, b <= x < b + BPB -> x < sb_size (sb s) -> used (sb s) V x = true) /\ jrep j Hd V
    end).
Proof.
  intros Hr Hbm Hh Hb Hm. destruct (Hh b Hb) as [HB _].
  unfold balloc_in. apply wp_bind, wp_get.
  eapply wp_bind_mono; [by eapply wp_bread|]. intros i s1 (j1 & -> & R1).
  apply wp_bind. eapply (wp_bdata _ _ _ (BBLOCK b (sb s))); [exact R1 | apply at_eq |].
  unfold scan_bits. cbn [sb with_jn].
  pose proof (find_seqZ (bit_free (V (BBLOCK b (sb s)))) (Z.min BPB (sb_size (sb s) - b)) 0) as Hf.
  destruct (List.find _ _) as [bi|].
  - destruct Hf as (Hbi & Hfree & Hlow). assert (0 <= bi < BPB) as Hbi' by lia.
    destruct (BBLOCK_split (sb s) b bi Hm Hbi') as [EB EM].
    assert (used (sb s) V (b + bi) = false) as Hu by (rewrite used_at, Hfree; done).
    assert (b + bi <> BBLOCK b (sb s)) as Hne.
    { intros E. destruct (bm_self _ _ Hbm b Hb) as [Hs _]. rewrite <- E in Hs. congruence. }
    eapply wp_bind_mono; [eapply wp_bupdate; [exact R1 | apply at_eq]|]. intros [] s2 (j2 & -> & R2).
    eapply wp_bind_mono; [eapply wp_brelse; [exact R2 | apply at_eq]|]. intros [] s3 (j3 & -> & R3).
    eapply wp_bind_mono.
    { eapply bzero_ok; [exact R3|]. rewrite at_ne, at_ne by done. apply (Hh (b + bi)); [lia | exact Hu]. }
    intros [] s4 (j4 & -> & R4). apply wp_ret. exists j4. split; [done|]. split; [lia|]. split; [done|]. split.
    + intros x Hx. replace x with (b + (x - b)) by lia. rewrite used_at by lia. by rewrite Hlow by lia.
    + eapply jn_ext; [exact R4 | |].
      * intros c. symmetry. by apply at_back.
      * intros c. unfold alloc_block. by rewrite EB, EM.
  - eapply wp_bind_mono; [eapply wp_brelse; [exact R1 | apply at_eq]|]. intros [] s3 (j3 & -> & R3).
    apply wp_ret. exists j3. split; [done|]. split.
    + intros x Hx Hx'. replace x with (b + (x - b)) by lia. rewrite used_at by lia. by rewrite Hf by lia.
    + eapply jn_ext; [exact R3 | | done]. intros c. symmetry. by apply at_back.
Qed.

Lemma balloc_loop s Hd V k : forall m j,
  jrep j Hd V -> bitmap_ok (sb s) V -> holds_used (sb s) Hd V -> 0 <= m ->
  (m + Z.of_nat k) * BPB < sb_size (sb s) + BPB ->
  (forall x, 0 <= x < m * BPB -> x < sb_size (sb s) -> used (sb s) V x = true) ->
  wp (for_until (map (fun k => k * BPB) (seqZ m (Z.of_nat k))) (balloc_in ROOTDEV)) (with_jn j s)
    (fun r s' => exists j', s' = with_jn j' s /\
      match r with
      | Some a => first_free (sb s) V a /\ jrep j' Hd (alloc_block (sb s) V a)
      | None => (forall x, 0 <= x < (m + Z.of_nat k) * BPB -> x < sb_size (sb s) -> used (sb s) V x = true) /\ jrep j' Hd V
      end).
Proof.
  induction k as [|k IH]; intros m j Hr Hbm Hh Hm Hk Hlow.
  { simpl. apply wp_ret. exists j. split; [done|]. split; [|done]. intros. apply Hlow; lia. }
  rewrite seqZ_cons by lia. cbn [map for_until]. unfold BPB, BSIZE in *.
  eapply wp_bind_mono.
  { apply (balloc_in_ok (with_jn j s) Hd V (m * (1024 * 8))); try done; cbn [sb with_jn]; [lia | unfold BPB, BSIZE; mlia]. }
  intros r s1 (j1 & -> & Hp). cbn [sb with_jn] in Hp. destruct r as [a|].
  - apply wp_ret. exists j1. split; [done|]. destruct Hp as (Ha & Hu & Hl & Hr1). split; [|done].
    split; [lia|]. split; [done|]. intros x Hx. destruct (Z.ltb_spec x (m * (1024 * 8))); [apply Hlow; lia | apply Hl; lia].
  - destruct Hp as [Hl Hr1].
    replace (Z.pred (Z.of_nat (S k))) with (Z.of_nat k) by lia.
    eapply wp_mono; [apply (IH (Z.succ m) j1); try done; try lia|].
    + intros x Hx Hx'. destruct (Z.ltb_spec x (m * (1024 * 8))); [apply Hlow; lia | apply Hl; unfold BPB, BSIZE in *; lia].
    + intros r s2 (j2 & -> & Hp). exists j2. split; [done|]. destruct r; [done|].
      destruct Hp as [Hp ?]. split; [|done]. intros x Hx. apply Hp. lia.
Qed.

Lemma balloc_ok s Hd V :
  jrep (jn s) Hd V -> bitmap_ok (sb s) V -> holds_used (sb s) Hd V ->
  wp (balloc ROOTDEV) s (fun a s' => exists j, s' = with_jn j s /\
    (a = 0 /\ (forall b, 0 <= b < sb_size (sb s) -> used (sb s) V b = true) /\ jrep j Hd V \/
     0 < a /\ first_free (sb s) V a /\ jrep j Hd (alloc_block (sb s) V a))).
Proof.
  intros Hr Hbm Hh. unfold balloc. apply wp_bind, wp_get. pose proof (bm_size _ _ Hbm).
  unfold bitmap_starts. set (k := (sb_size (sb s) + BPB - 1) / BPB).
  assert (0 <= k /\ k * BPB < sb_size (sb s) + BPB /\ sb_size (sb s) <= k * BPB) as (Hk & Hk1 & Hk2).
  { subst k. unfold BPB, BSIZE in *. mlia. }
  replace s with (with_jn (jn s) s) by (by destruct s).
  eapply wp_bind_mono.
  { replace k with (Z.of_nat (Z.to_nat k)) by lia. change (sb (with_jn (jn s) s)) with (sb s).
    eapply balloc_loop; try done; [lia|]. intros. lia. }
  intros r s1 (j & -> & Hp). apply wp_ret. exists j. split; [by destruct s|]. cbn [sb with_jn].
  destruct r as [a|]; cbn [default from_option id].
  - right. destruct Hp as [(Ha & Hu & Hl) Hr']. split; [|done].
    destruct (decide (a = 0)) as [->|]; [|lia]. rewrite (bm_boot _ _ Hbm) in Hu. done.
  - left. destruct Hp as [Hl Hr']. rewrite Z.add_0_l, Z2Nat.id in Hl by lia. split; [done|]. split; [|done].
    intros b Hb. apply Hl; lia.
Qed.

Lemma bfree_ok s Hd V b :
  jrep (jn s) Hd V -> bitmap_ok (sb s) V -> holds_used (sb s) Hd V -> 0 <= b < sb_size (sb s) ->
  (used (sb s) V b = true ->
   wp (bfree ROOTDEV b) s (fun _ s' => exists j, s' = with_jn j s /\ jrep j Hd (free_block (sb s) V b))) /\
  (used (sb s) V b = false ->
   match bfree ROOTDEV b s with
   | Ok _ _ => False
   | Stop e _ => exhausted e \/ e = Panic "freeing free block"
   end).
Proof.
  intros Hr Hbm Hh Hb. destruct (Hh b Hb) as [HB _]. split; intros Hu.
  - unfold bfree. apply wp_bind, wp_get.
    eapply wp_bind_mono; [by eapply wp_bread|]. intros i s1 (j1 & -> & R1).
    apply wp_bind. eapply (wp_bdata _ _ _ (BBLOCK b (sb s))); [exact R1 | apply at_eq |].
    unfold used in Hu. apply negb_true_iff in Hu. rewrite Hu.
    eapply wp_bind_mono; [eapply wp_bupdate; [exact R1 | apply at_eq]|]. intros [] s2 (j2 & -> & R2).
    eapply wp_mono; [eapply wp_brelse; [exact R2 | apply at_eq]|]. intros [] s3 (j3 & -> & R3).
    exists j3. split; [done|]. eapply jn_ext; [exact R3 | | done]. intros c. symmetry. by apply at_back.
  - pose proof (wp_bread s Hd V (BBLOCK b (sb s)) Hr HB) as Hw. unfold wp in Hw.
    unfold bfree, bind at 1, get, bind at 1. destruct (onj _ s) as [i s1|e s1]; [|by left].
    destruct Hw as (j1 & -> & R1). unfold bdata, gets, bind at 1. cbn [jn with_jn].
    rewrite (jn_held _ _ _ _ _ R1 (at_eq _ _ _)). unfold used in Hu. apply negb_false_iff in Hu.
    rewrite Hu. by right.
Qed.
End run.
