(* ===== verification/Fileio.v ===== *)
(** * fs.c: what readi and writei do to a file

    A file is its inode and the blocks the inode maps. bmap, readi and writei
    of [Inode] are proved against the bytes of the file: readi hands them out,
    writei replaces them, allocating blocks as it goes and leaving every other
    file alone. *)

From stdpp Require Import base gmap list strings.
From Stdlib Require Import ZArith Lia.
From S2P Require Import Prelude Sleeplock Bytes Bio Journal Inode.

(** ** Specification *)

(** The block of disk [V] that holds block [bn] of the file, 0 if none. *)
Definition blk_addr (i : inode) (V : Z -> block) (bn : Z) : Z :=
  if bn <? NDIRECT then i_addr i bn
  else if i_addr i NDIRECT =? 0 then 0
  else ind_entry (V (i_addr i NDIRECT)) (bn - NDIRECT).

Definition mapped (i : inode) (V : Z -> block) (bn : Z) : Prop := blk_addr i V bn <> 0.
Definition file_byte (i : inode) (V : Z -> block) (o : Z) : Z :=
  byte_at (V (blk_addr i V (o / BSIZE))) (o mod BSIZE).

(** The blocks of a file, its indirect block included. *)
Definition file_block (i : inode) (V : Z -> block) (a : Z) : Prop :=
  a <> 0 /\ (a = i_addr i NDIRECT \/ exists bn, 0 <= bn < MAXFILE /\ a = blk_addr i V bn).

(** A block of the disk that is in use and not part of the bitmap. *)
Definition in_use (sb : superblock) (V : Z -> block) (a : Z) : Prop :=
  0 < a < sb_size sb /\ used sb V a = true /\ forall b, 0 <= b < sb_size sb -> BBLOCK b sb <> a.

Definition blocks_ok (V : Z -> block) : Prop := forall b, length (V b) = Z.to_nat BSIZE.

Record file_ok (sb : superblock) (V : Z -> block) (i : inode) : Prop := {
  fo_dev : i_dev i = ROOTDEV;
  fo_len : length (i_addrs i) = 13%nat;
  fo_use : forall a, file_block i V a -> in_use sb V a;
  fo_inj : forall k k', 0 <= k < MAXFILE -> 0 <= k' < MAXFILE -> mapped i V k ->
    blk_addr i V k = blk_addr i V k' -> k = k';
  fo_ind : forall k, 0 <= k < MAXFILE -> mapped i V k -> blk_addr i V k <> i_addr i NDIRECT;
}.

(** A block in use that is not one of the file's. *)
Definition foreign (sb : superblock) (i : inode) (V : Z -> block) (b : Z) : Prop :=
  in_use sb V b /\ ~ file_block i V b.

Definition set_i_addrs (xs : list Z) (i : inode) : inode :=
  Inode (i_dev i) (i_inum i) (i_ref i) (i_lock i) (i_valid i) (i_is_vault i) (i_vault_id i) (i_vault_open i)
    (i_type i) (i_major i) (i_minor i) (i_nlink i) (i_size i) xs.

(** From [i] and [V] to [i'] and [V'] the bytes [lo..hi-1] of the file were
    written, and what else was mapped kept; other files are as before. *)
Record wrote (sb : superblock) (i : inode) (V : Z -> block) (i' : inode) (V' : Z -> block)
    (lo hi : Z) (src : Z -> Z) : Prop := {
  w_meta : exists xs, i' = set_i_addrs xs i;
  w_bitmap : bitmap_ok sb V';
  w_file : file_ok sb V' i';
  w_blocks : blocks_ok V';
  w_byte : forall o, 0 <= o < MAXFILE * BSIZE -> mapped i V (o / BSIZE) \/ lo <= o < hi ->
    mapped i' V' (o / BSIZE) /\
    file_byte i' V' o = if (lo <=? o) && (o <? hi) then src o else file_byte i V o;
  w_other : forall b, foreign sb i V b -> foreign sb i' V' b /\ V' b = V b;
}.

(** ** Lemmas *)

Lemma at_BBLOCK_used sb V b x :
  (forall c, 0 <= c < sb_size sb -> BBLOCK c sb <> b) ->
  forall c, 0 <= c < sb_size sb -> used sb (at_ V b x) c = used sb V c.
Proof. intros Hb c Hc. unfold used. by rewrite at_ne by auto. Qed.

Lemma bitmap_ok_at sb V b x :
  (forall c, 0 <= c < sb_size sb -> BBLOCK c sb <> b) -> bitmap_ok sb V -> bitmap_ok sb (at_ V b x).
Proof.
  intros Hb []. split; auto.
  - intros c Hc. rewrite at_ne by auto. auto.
  - intros c Hc. destruct (bm_self c Hc) as [Hu Hr]. split; [|done]. by rewrite at_BBLOCK_used.
  - by rewrite at_BBLOCK_used by (done || lia).
Qed.

Lemma blocks_ok_at V b x : length x = Z.to_nat BSIZE -> blocks_ok V -> blocks_ok (at_ V b x).
Proof. intros Hx HV c. unfold at_. by destruct (c =? b). Qed.

Lemma free_not_bitmap sb V a : bitmap_ok sb V -> used sb V a = false ->
  forall c, 0 <= c < sb_size sb -> BBLOCK c sb <> a.
Proof. intros Hbm Hu c Hc <-. destruct (bm_self _ _ Hbm c Hc) as [Hs _]. congruence. Qed.

(** *** Allocation on the disk *)

Lemma used_alloc sb V a b :
  bitmap_ok sb V -> first_free sb V a -> 0 <= b < sb_size sb ->
  used sb (alloc_block sb V a) b = (b =? a) || used sb V b.
Proof.
  intros Hbm (Ha & Hu & _) Hb. unfold alloc_block.
  rewrite at_BBLOCK_used by (try done; by eapply free_not_bitmap). unfold used.
  assert (0 <= a mod BPB < BPB) by (apply Z.mod_pos_bound; reflexivity).
  assert (0 <= b mod BPB < BPB) by (apply Z.mod_pos_bound; reflexivity).
  pose proof (bm_len _ _ Hbm a Ha) as Hl.
  destruct (decide (BBLOCK b sb = BBLOCK a sb)) as [E|E].
  - rewrite E, at_eq, bit_free_set by (unfold BPB, BSIZE in *; lia).
    destruct (Z.eqb_spec (b mod BPB) (a mod BPB)) as [E2|E2], (Z.eqb_spec b a) as [->|]; try done.
    exfalso. apply n. unfold BBLOCK, u32 in E. pose proof (bm_start _ _ Hbm). pose proof (bm_size _ _ Hbm).
    assert (0 <= a / BPB < 2 ^ 31 /\ 0 <= b / BPB < 2 ^ 31) by (unfold BPB, BSIZE; split; mlia).
    rewrite !Z.mod_small in E by lia. rewrite (Z.div_mod b BPB), (Z.div_mod a BPB) by done. lia.
  - rewrite at_ne by done. destruct (Z.eqb_spec b a) as [->|]; done.
Qed.

Lemma length_set_bit d bi : length (set_bit d bi) = length d.
Proof. apply length_insert. Qed.

Lemma alloc_blocks_ok sb V a : blocks_ok V -> blocks_ok (alloc_block sb V a).
Proof. intros HV. apply blocks_ok_at; [done|]. apply blocks_ok_at; [|done]. rewrite length_set_bit. apply HV. Qed.

Lemma alloc_bitmap_ok sb V a :
  bitmap_ok sb V -> first_free sb V a -> bitmap_ok sb (alloc_block sb V a).
Proof.
  intros Hbm Hf. pose proof Hf as (Ha & Hu & _).
  assert (forall c, 0 <= c < sb_size sb -> BBLOCK c sb <> a) as Hn by (by eapply free_not_bitmap).
  pose proof (used_alloc sb V a) as Hua. destruct Hbm as [? ? Hl Hs Hb0]. split; auto.
  - intros b Hb. unfold alloc_block. rewrite at_ne by auto. unfold at_.
    destruct (_ =? _); [|auto]. rewrite length_set_bit. auto.
  - intros b Hb. destruct (Hs b Hb) as [Hub Hr]. split; [|done]. rewrite Hua, Hub by done. apply orb_true_r.
  - rewrite Hua, Hb0 by (done || lia). apply orb_true_r.
Qed.

Lemma alloc_other sb V a b : b <> a -> b <> BBLOCK a sb -> alloc_block sb V a b = V b.
Proof. intros. unfold alloc_block. by rewrite !at_ne. Qed.

(** *** One more block for the file *)

Lemma wrote_refl sb i V lo src :
  bitmap_ok sb V -> file_ok sb V i -> blocks_ok V -> wrote sb i V i V lo lo src.
Proof.
  intros. split; try done.
  - exists (i_addrs i). by destruct i.
  - intros o Ho [Hm|?]; [|lia]. split; [done|].
    destruct (Z.leb_spec lo o), (Z.ltb_spec o lo); try done; lia.
Qed.

Lemma file_use_old sb V i a k :
  file_ok sb V i -> used sb V a = false -> 0 <= k < MAXFILE -> blk_addr i V k <> 0 -> blk_addr i V k <> a.
Proof.
  intros Hf Hu Hk H0 <-. destruct (fo_use _ _ _ Hf (blk_addr i V k)) as (_ & Hu' & _); [|congruence].
  split; eauto.
Qed.

Lemma wrote_more sb i V i' V' lo src a bn xs :
  bitmap_ok sb V -> file_ok sb V i -> blocks_ok V -> first_free sb V a -> 0 < a ->
  i' = set_i_addrs xs i -> length xs = 13%nat ->
  bitmap_ok sb V' -> blocks_ok V' ->
  (forall b, 0 <= b < sb_size sb -> used sb V' b = (b =? a) || used sb V b) ->
  (forall k, 0 <= k < MAXFILE -> blk_addr i' V' k = blk_addr i V k \/
     blk_addr i V k = 0 /\ blk_addr i' V' k = a /\ k = bn /\ i_addr i' NDIRECT <> a) ->
  (i_addr i' NDIRECT = i_addr i NDIRECT \/
   i_addr i NDIRECT = 0 /\ i_addr i' NDIRECT = a) ->
  (forall b, in_use sb V b -> b <> i_addr i NDIRECT -> V' b = V b) ->
  wrote sb i V i' V' lo lo src.
Proof.
  intros Hbm Hf HV (Ha & Hu & Hlow) H0 Hi' Hxs Hbm' HV' Hused Hblk Hind Hkeep.
  assert (forall b, in_use sb V b -> in_use sb V' b) as Hin.
  { intros b (Hr & Hub & Hnb). split; [done|]. split; [|done]. rewrite Hused, Hub by lia. apply orb_true_r. }
  assert (in_use sb V' a) as Ha'.
  { split; [lia|]. split; [rewrite Hused, Z.eqb_refl by lia; done|]. exact (free_not_bitmap _ _ _ Hbm Hu). }
  assert (forall x, file_block i' V' x -> x = a \/ file_block i V x) as Hfb.
  { intros x [Hx [->|(k & Hk & ->)]].
    - destruct Hind as [E|[_ E]]; rewrite E in *; [|by left]. right. split; [done|]. by left.
    - destruct (Hblk k Hk) as [E|(_ & E & _)]; rewrite E in *; [|by left]. right. split; [done|]. right. eauto. }
  assert (forall x, in_use sb V x -> x <> a) as Hne by (intros x (_ & Hx & _) ->; congruence).
  split; auto.
  - by exists xs.
  - destruct Hf as [Hd Hl Huse Hinj Hi]. split.
    + by rewrite Hi'.
    + by rewrite Hi'.
    + intros x [->|Hx]%Hfb; auto.
    + unfold mapped. intros k k' Hk Hk' Hm E. destruct (Hblk k Hk) as [E1|(Z1 & E1 & -> & _)], (Hblk k' Hk') as [E2|(Z2 & E2 & -> & _)].
      * apply Hinj; unfold mapped; congruence.
      * exfalso. apply (Hne (blk_addr i V k)); [|congruence]. apply Huse. split; [congruence|]. right. eauto.
      * exfalso. apply (Hne (blk_addr i V k')); [|congruence]. apply Huse. split; [congruence|]. right. eauto.
      * done.
    + unfold mapped. intros k Hk Hm. destruct (Hblk k Hk) as [E1|(Z1 & E1 & -> & E3)]; [|congruence]. rewrite E1 in *.
      destruct Hind as [E|[_ E]]; rewrite E; [by apply Hi|]. apply Hne, Huse. split; [done|]. right. eauto.
  - intros o Ho [Hm|?]; [|lia].
    assert (0 <= o / BSIZE < MAXFILE) as Hk by (unfold MAXFILE, NDIRECT, NINDIRECT, BSIZE in *; mlia).
    assert (blk_addr i' V' (o / BSIZE) = blk_addr i V (o / BSIZE)) as E by (destruct (Hblk _ Hk) as [E|(? & _)]; done).
    unfold mapped, file_byte. rewrite E. split; [done|].
    destruct (Z.leb_spec lo o), (Z.ltb_spec o lo); try lia; cbn [andb].
    all: rewrite Hkeep; [done | apply (fo_use _ _ _ Hf); split; [done|right; eauto] | by apply (fo_ind _ _ _ Hf)].
  - intros b [Hb Hnf]. split; [|apply Hkeep; [done|]].
    + split; [auto|]. intros [->|?]%Hfb; [|done]. by apply (Hne a).
    + intros ->. apply Hnf. split; [|by left]. destruct Hb as [? _]. lia.
Qed.

Lemma i_addr_set i k x k' :
  length (i_addrs i) = 13%nat -> 0 <= k < 13 -> 0 <= k' ->
  i_addr (set_i_addr k x i) k' = if k' =? k then x else i_addr i k'.
Proof.
  intros Hl Hk Hk'. unfold i_addr, set_i_addr. cbn [i_addrs].
  destruct (Z.eqb_spec k' k) as [->|Hne].
  - rewrite list_lookup_insert_eq by lia. done.
  - by rewrite list_lookup_insert_ne by lia.
Qed.

Lemma alloc_keeps sb V a b :
  bitmap_ok sb V -> first_free sb V a -> in_use sb V b -> alloc_block sb V a b = V b.
Proof.
  intros Hbm (Ha & Hu & _) (Hb & Hub & Hnb). apply alloc_other; [congruence|]. intros ->. by apply (Hnb a).
Qed.

Lemma ind_in_use sb V i : file_ok sb V i -> i_addr i NDIRECT <> 0 -> in_use sb V (i_addr i NDIRECT).
Proof. intros Hf Hi. apply (fo_use _ _ _ Hf). split; [done|]. by left. Qed.

(** bmap puts a new block at a direct address, ... *)
Lemma wrote_direct sb i V lo src a bn :
  bitmap_ok sb V -> file_ok sb V i -> blocks_ok V -> first_free sb V a -> 0 < a ->
  0 <= bn < NDIRECT -> i_addr i bn = 0 ->
  wrote sb i V (set_i_addr bn a i) (alloc_block sb V a) lo lo src.
Proof.
  intros Hbm Hf HV Hff Ha Hbn H0. pose proof (fo_len _ _ _ Hf) as Hl. unfold NDIRECT in *.
  assert (i_addr (set_i_addr bn a i) 12 = i_addr i 12) as E12.
  { rewrite i_addr_set by lia. destruct (Z.eqb_spec 12 bn); [lia|done]. }
  eapply (wrote_more sb i V _ _ lo src a bn (<[Z.to_nat bn := a]> (i_addrs i))); try done.
  - by rewrite length_insert.
  - by apply alloc_bitmap_ok.
  - by apply alloc_blocks_ok.
  - intros b Hb. by apply used_alloc.
  - intros k Hk. unfold blk_addr, NDIRECT. rewrite E12.
    destruct (Z.ltb_spec k 12).
    + rewrite i_addr_set by lia. destruct (Z.eqb_spec k bn) as [->|]; [|by left].
      right. split_and!; try done. intros E. destruct (Z.eq_dec (i_addr i 12) 0); [lia|].
      destruct (ind_in_use sb V i Hf) as (_ & Hu & _); [done|]. unfold NDIRECT in Hu. destruct Hff as (_ & Hu' & _). congruence.
    + left. destruct (Z.eqb_spec (i_addr i 12) 0); [done|]. rewrite (alloc_keeps sb); try done. by eapply ind_in_use.
  - by left.
  - intros b Hb _. by apply alloc_keeps.
Qed.

(** ... as the indirect block, ... *)
Lemma wrote_indirect sb i V lo src a :
  bitmap_ok sb V -> file_ok sb V i -> blocks_ok V -> first_free sb V a -> 0 < a ->
  i_addr i NDIRECT = 0 ->
  wrote sb i V (set_i_addr NDIRECT a i) (alloc_block sb V a) lo lo src.
Proof.
  intros Hbm Hf HV Hff Ha H0. pose proof (fo_len _ _ _ Hf) as Hl.
  eapply (wrote_more sb i V _ _ lo src a 0 (<[Z.to_nat NDIRECT := a]> (i_addrs i))); try done.
  - by rewrite length_insert.
  - by apply alloc_bitmap_ok.
  - by apply alloc_blocks_ok.
  - intros b Hb. by apply used_alloc.
  - intros k Hk. left. unfold blk_addr. rewrite !i_addr_set, H0 by (unfold NDIRECT; lia).
    rewrite Z.eqb_refl. destruct (Z.ltb_spec k NDIRECT).
    + destruct (Z.eqb_spec k NDIRECT); [lia|done].
    + destruct (Z.eqb_spec a 0); [lia|]. cbn [Z.eqb]. unfold alloc_block. rewrite at_eq.
      unfold ind_entry, ld32. unfold MAXFILE, NINDIRECT in Hk.
      change (ld zero_block (4 * (k - NDIRECT)) 4 = 0).
      assert (forall m o, ld zero_block o m = 0) as Hz; [|apply Hz].
      induction m as [|m IH]; intros o; cbn [ld]; [done|]. rewrite IH. unfold byte_at, zero_block.
      destruct (replicate _ 0 !! _) as [x|] eqn:E; [|done]. apply lookup_replicate in E as [E _]. by rewrite E.
  - right. split; [done|]. rewrite i_addr_set, Z.eqb_refl by (unfold NDIRECT; lia). done.
  - intros b Hb _. by apply alloc_keeps.
Qed.

(** ... or in the indirect block. *)
Lemma wrote_entry sb i V lo src a bn :
  bitmap_ok sb V -> file_ok sb V i -> blocks_ok V -> first_free sb V a -> 0 < a ->
  let ind := i_addr i NDIRECT in
  0 <= bn < NINDIRECT -> ind <> 0 -> ind_entry (V ind) bn = 0 ->
  let V' := at_ (alloc_block sb V a) ind (st32 (alloc_block sb V a ind) (4 * bn) a) in
  wrote sb i V i V' lo lo src /\ blk_addr i V' (bn + NDIRECT) = a.
Proof.
  intros Hbm Hf HV Hff Ha ind Hbn Hi H0 V'. pose proof (ind_in_use sb V i Hf Hi) as Hu. fold ind in Hu.
  assert (alloc_block sb V a ind = V ind) as Ek by (by apply alloc_keeps).
  assert (ind <> a) as Hia by (destruct Hu as (_ & Hu & _); destruct Hff as (_ & Hu' & _); congruence).
  assert (blocks_ok (alloc_block sb V a)) as HVa by by apply alloc_blocks_ok.
  pose proof (bm_size _ _ Hbm) as Hsz. destruct Hu as (Hir & Hiu & Hin).
  assert (forall k, 0 <= k < NINDIRECT -> ind_entry (V' ind) k = if k =? bn then a else ind_entry (V ind) k) as He.
  { intros k Hk. unfold V', ind_entry. rewrite at_eq, Ek. specialize (HV ind). unfold BSIZE in HV. change NINDIRECT with 256 in Hbn, Hk.
    destruct (Z.eqb_spec k bn) as [->|].
    - rewrite ld32_st32 by (rewrite ?HV; lia). apply u32_id. destruct Hff as (? & _). lia.
    - apply ld32_st32_out; lia. }
  assert (forall k, 0 <= k < MAXFILE -> blk_addr i V' k = if k =? bn + NDIRECT then a else blk_addr i V k) as Hblk.
  { intros k Hk. unfold blk_addr. fold ind. destruct (Z.eqb_spec ind 0); [done|].
    destruct (Z.ltb_spec k NDIRECT); [destruct (Z.eqb_spec k (bn + NDIRECT)); [lia|done]|].
    rewrite He by (unfold MAXFILE in Hk; lia).
    destruct (Z.eqb_spec (k - NDIRECT) bn), (Z.eqb_spec k (bn + NDIRECT)); done || lia. }
  split.
  - eapply (wrote_more sb i V i V' lo src a (bn + NDIRECT) (i_addrs i)); try done.
    + by destruct i.
    + by apply (fo_len _ _ _ Hf).
    + apply bitmap_ok_at; [done|]. by apply alloc_bitmap_ok.
    + apply blocks_ok_at; [|done]. unfold st32. rewrite length_st. apply HVa.
    + intros b Hb. unfold V'. rewrite at_BBLOCK_used by done. by apply used_alloc.
    + intros k Hk. rewrite Hblk by done. destruct (Z.eqb_spec k (bn + NDIRECT)) as [->|]; [|by left].
      right. split_and!; try done. unfold blk_addr. fold ind.
      destruct (Z.ltb_spec (bn + NDIRECT) NDIRECT); [lia|]. destruct (Z.eqb_spec ind 0); [done|].
      replace (bn + NDIRECT - NDIRECT) with bn by lia. done.
    + by left.
    + intros b Hb Hne. unfold V'. rewrite at_ne by done. by apply alloc_keeps.
  - rewrite Hblk by (unfold MAXFILE; unfold NDIRECT; lia). by rewrite Z.eqb_refl.
Qed.

(** Writing the data of a mapped block. *)
Lemma wrote_data sb i V o src bs :
  bitmap_ok sb V -> file_ok sb V i -> blocks_ok V ->
  0 <= o -> 0 < Z.of_nat (length bs) -> o + Z.of_nat (length bs) <= MAXFILE * BSIZE ->
  o mod BSIZE + Z.of_nat (length bs) <= BSIZE -> mapped i V (o / BSIZE) ->
  (forall k, 0 <= k < Z.of_nat (length bs) -> byte_at bs k = src (o + k)) ->
  let b := blk_addr i V (o / BSIZE) in
  wrote sb i V i (at_ V b (splice (V b) (o mod BSIZE) bs)) o (o + Z.of_nat (length bs)) src.
Proof.
  intros Hbm Hf HV Ho Hl Hend Hm Hmap Hsrc b. set (V' := at_ V b _).
  assert (0 < BSIZE) as HB by reflexivity.
  assert (0 <= o / BSIZE < MAXFILE) as Hk by (split; [apply Z.div_pos; lia | apply Z.div_lt_upper_bound; lia]).
  assert (file_block i V b) as Hfb by (split; [done|]; right; eauto).
  destruct (fo_use _ _ _ Hf b Hfb) as (Hr & Hu & Hnb).
  assert (b <> i_addr i NDIRECT) as Hni by (by apply (fo_ind _ _ _ Hf)).
  assert (forall k, blk_addr i V' k = blk_addr i V k) as Hblk.
  { intros k. unfold blk_addr. destruct (k <? NDIRECT); [done|]. destruct (_ =? 0); [done|].
    unfold V'. by rewrite at_ne. }
  assert (forall c, in_use sb V c <-> in_use sb V' c) as Hin.
  { intros c. unfold in_use. split; intros (Hc & Hcu & Hcb); (split; [done|]); (split; [|done]);
      revert Hcu; unfold V'; rewrite at_BBLOCK_used by (done || lia); done. }
  assert (forall c, file_block i V c <-> file_block i V' c) as Hfbs.
  { intros c. unfold file_block. split; intros [H0 [Hc|(k & Hk' & ->)]]; (split; [done|]); auto; right; exists k; split; auto. }
  split.
  - exists (i_addrs i). by destruct i.
  - by apply bitmap_ok_at.
  - destruct Hf as [? ? Huse Hinj Hi]. split; try done.
    + intros c Hc%Hfbs. by apply Hin, Huse.
    + unfold mapped. intros k k' ? ?. rewrite !Hblk. by apply Hinj.
    + unfold mapped. intros k ?. rewrite Hblk. by apply Hi.
  - apply blocks_ok_at; [|done]. rewrite length_splice; [apply HV | mlia |]. rewrite HV. lia.
  - intros p Hp Hmp.
    assert (0 <= p / BSIZE < MAXFILE) as Hpk by (split; [apply Z.div_pos; lia | apply Z.div_lt_upper_bound; lia]).
    assert (o <= p < o + Z.of_nat (length bs) -> p / BSIZE = o / BSIZE) as Hsame by (unfold BSIZE in *; intros; mlia).
    assert (mapped i V (p / BSIZE)) as Hmp' by (destruct Hmp as [?|Hx]; [done|]; by rewrite Hsame).
    unfold mapped. rewrite Hblk. split; [done|]. unfold file_byte. rewrite Hblk.
    assert (0 <= p mod BSIZE < BSIZE) as Hpm by (apply Z.mod_pos_bound; lia).
    assert (0 <= o mod BSIZE < BSIZE) as Hom by (apply Z.mod_pos_bound; lia).
    destruct (decide (p / BSIZE = o / BSIZE)) as [E|E].
    + rewrite E. fold b. unfold V'. rewrite at_eq, byte_at_splice by (rewrite ?HV; lia).
      assert (p - o = p mod BSIZE - o mod BSIZE) as Ed.
      { rewrite (Z.div_mod p BSIZE), (Z.div_mod o BSIZE), E at 1 by lia. lia. }
      destruct (Z.leb_spec o p), (Z.leb_spec (o mod BSIZE) (p mod BSIZE)); try lia; cbn [andb]; [|done].
      destruct (Z.ltb_spec p (o + Z.of_nat (length bs))), (Z.ltb_spec (p mod BSIZE) (o mod BSIZE + Z.of_nat (length bs))); try lia; try done.
      rewrite Hsrc by lia. f_equal. lia.
    + assert (blk_addr i V (p / BSIZE) <> b) as Hne.
      { intros Eb. apply E. by apply (fo_inj _ _ _ Hf). }
      unfold V'. rewrite at_ne by done.
      destruct (Z.leb_spec o p), (Z.ltb_spec p (o + Z.of_nat (length bs))); try done.
      exfalso. apply E, Hsame. lia.
  - intros c [Hc Hnf]. assert (c <> b) as Hcb by (intros ->; done).
    split; [|unfold V'; by rewrite at_ne]. split; [by apply Hin|]. by rewrite <- Hfbs.
Qed.

Lemma wrote_trans sb i V i1 V1 i2 V2 lo mid hi src :
  wrote sb i V i1 V1 lo mid src -> wrote sb i1 V1 i2 V2 mid hi src -> lo <= mid <= hi ->
  wrote sb i V i2 V2 lo hi src.
Proof.
  intros A B Hm. split.
  - destruct (w_meta _ _ _ _ _ _ _ _ A) as [xs ->], (w_meta _ _ _ _ _ _ _ _ B) as [ys ->]. by exists ys.
  - apply B.
  - apply B.
  - apply B.
  - intros o Ho Hmp.
    assert (mapped i V (o / BSIZE) \/ lo <= o < mid \/ mid <= o < hi) as Hc by (destruct Hmp as [?|?]; [auto|lia]).
    destruct (decide (mapped i V (o / BSIZE) \/ lo <= o < mid)) as [H1|H1].
    + destruct (w_byte _ _ _ _ _ _ _ _ A o Ho H1) as [M1 E1].
      destruct (w_byte _ _ _ _ _ _ _ _ B o Ho (or_introl M1)) as [M2 E2]. split; [done|]. rewrite E2, E1.
      destruct (Z.leb_spec lo o), (Z.ltb_spec o hi), (Z.leb_spec mid o), (Z.ltb_spec o mid); try lia; done.
    + assert (mid <= o < hi) as H2 by tauto.
      destruct (w_byte _ _ _ _ _ _ _ _ B o Ho (or_intror H2)) as [M2 E2]. split; [done|]. rewrite E2.
      destruct (Z.leb_spec lo o), (Z.ltb_spec o hi), (Z.leb_spec mid o); try lia; done.
  - intros b Hb. destruct (w_other _ _ _ _ _ _ _ _ A b Hb) as [Hb1 E1].
    destruct (w_other _ _ _ _ _ _ _ _ B b Hb1) as [Hb2 E2]. split; [done | congruence].
Qed.

Section run.
Context {J U : Type} `{JournalLaws J} `{CopyEnvLaws U}.
Implicit Types s : fsst J U.

Definition none_held : Z -> option nat := fun _ => None.

Lemma none_holds sb V : holds_used sb none_held V.
Proof. done. Qed.

Lemma one_holds sb V b i : in_use sb V b -> holds_used sb (at_ none_held b (Some i)) V.
Proof.
  intros (Hb & Hu & Hn) c Hc. split; [by rewrite at_ne by auto|]. intros Huc. rewrite at_ne; [done | congruence].
Qed.

(** A locked file in the state. *)
Record has_file s (ip : nat) (i : inode) (V : Z -> block) : Prop := {
  hf_at : itable s !! ip = Some i;
  hf_bitmap : bitmap_ok (sb s) V;
  hf_file : file_ok (sb s) V i;
  hf_blocks : blocks_ok V;
}.

(** No block of the disk is free. *)
Definition full (sb : superblock) (V : Z -> block) : Prop :=
  forall b, 0 <= b < sb_size sb -> used sb V b = true.

(** Only entry [ip] of the table, the journal and the environment differ. *)
Definition near (ip : nat) s s' : Prop :=
  sb s' = sb s /\ fs_pid s' = fs_pid s /\ forall k, k <> ip -> itable s' !! k = itable s !! k.

Lemma near_refl ip s : near ip s s.
Proof. done. Qed.
Lemma near_trans ip s1 s2 s3 : near ip s1 s2 -> near ip s2 s3 -> near ip s1 s3.
Proof. intros (A & B & C) (A' & B' & C'). split_and!; try congruence. intros k Hk. by rewrite C', C. Qed.

#[local] Instance near_preorder ip : PreOrder (near ip).
Proof. split; [exact (near_refl ip) | exact (near_trans ip)]. Qed.

Lemma geti_has s ip i V : has_file s ip i V -> geti s ip = i.
Proof. intros []. unfold geti. by rewrite hf_at0. Qed.

Lemma wp_theinode s ip i V Q : has_file s ip i V -> Q i s -> wp (theinode ip) s Q.
Proof. intros Hf HQ. apply wp_gets. by rewrite (geti_has _ _ _ _ Hf). Qed.

Lemma wp_upd_inode s ip i f Q :
  itable s !! ip = Some i ->
  (forall s', near ip s s' -> jn s' = jn s -> env s' = env s -> itable s' !! ip = Some (f i) -> Q tt s') ->
  wp (upd_inode ip f) s Q.
Proof.
  intros Hi HQ. apply wp_modify. apply HQ; try done.
  - split_and!; try done. intros k Hk. cbn [itable]. by rewrite list_lookup_alter_ne.
  - cbn [itable]. by rewrite list_lookup_alter_eq, Hi.
Qed.

Lemma MAXFILE_eq : MAXFILE = 268.
Proof. reflexivity. Qed.

Definition bmap_post s ip i V lo src bn (a : Z) s' : Prop :=
  near ip s s' /\ env s' = env s /\ exists i' V',
    has_file s' ip i' V' /\ jrep (jn s') none_held V' /\ wrote (sb s) i V i' V' lo lo src /\
    (a = 0 /\ full (sb s) V' \/ a <> 0 /\ a = blk_addr i' V' bn).

(** A call of balloc for the file. *)
Lemma wp_balloc s ip i V Hd Q :
  has_file s ip i V -> jrep (jn s) Hd V -> holds_used (sb s) Hd V ->
  (forall j, full (sb s) V -> jrep j Hd V -> Q 0 (with_jn j s)) ->
  (forall a j, 0 < a -> first_free (sb s) V a -> jrep j Hd (alloc_block (sb s) V a) -> Q a (with_jn j s)) ->
  wp (balloc (i_dev i)) s Q.
Proof.
  intros Hf Hr Hh Hz Ha. rewrite (fo_dev _ _ _ (hf_file _ _ _ _ Hf)).
  eapply wp_mono; [apply balloc_ok; [done | apply (hf_bitmap _ _ _ _ Hf) | done]|].
  intros a s' (j & -> & [(-> & ? & Hj)|(? & ? & ?)]); auto.
Qed.

Lemma has_file_jn s ip i V j : has_file s ip i V -> has_file (with_jn j s) ip i V.
Proof. by intros []. Qed.

Lemma has_file_wrote s s' ip i V i' V' lo hi src :
  near ip s s' -> wrote (sb s) i V i' V' lo hi src -> itable s' !! ip = Some i' -> has_file s' ip i' V'.
Proof. intros (E & _) []  Hi. split; rewrite ?E; done. Qed.

Lemma bmap_done s ip i V lo src bn a j :
  has_file s ip i V -> jrep j none_held V -> a = 0 /\ full (sb s) V \/ a <> 0 /\ a = blk_addr i V bn ->
  bmap_post s ip i V lo src bn a (with_jn j s).
Proof.
  intros Hf Hr Ha. split; [done|]. split; [done|]. exists i, V.
  split_and!; [by apply has_file_jn | done | destruct Hf; by apply wrote_refl | done].
Qed.

(** The direct half of bmap. *)
Lemma bmap_direct_ok s ip i V lo src bn :
  has_file s ip i V -> jrep (jn s) none_held V -> 0 <= bn < NDIRECT ->
  wp (bmap ip bn) s (bmap_post s ip i V lo src bn).
Proof.
  intros Hf Hr Hbn. unfold bmap. apply wp_bind. eapply wp_theinode; [done|].
  assert (bn <? NDIRECT = true) as E by lia. rewrite E.
  destruct (Z.eqb_spec (i_addr i bn) 0) as [Hz|Hz].
  - apply wp_bind. eapply wp_balloc; try done.
    + intros j Hfull Hj. apply wp_ret. apply bmap_done; auto.
    + intros a j Ha Hff Hj. destruct (Z.eqb_spec a 0); [lia|]. destruct Hf.
      assert (wrote (sb s) i V (set_i_addr bn a i) (alloc_block (sb s) V a) lo lo src) as Hw by (by apply wrote_direct).
      apply wp_bind. eapply wp_upd_inode; [exact hf_at0|]. intros s' Hn Ej Ee Hi. apply wp_ret.
      split; [exact Hn|]. split; [exact Ee|]. exists (set_i_addr bn a i), (alloc_block (sb s) V a).
      split_and!; [by eapply has_file_wrote | by rewrite Ej | done |].
      right. split; [lia|]. unfold blk_addr. rewrite E, i_addr_set, Z.eqb_refl; try done.
      * apply (fo_len _ _ _ hf_file0).
      * unfold NDIRECT in Hbn. lia.
      * lia.
  - apply wp_ret. replace s with (with_jn (jn s) s) at 2 by (by destruct s).
    apply bmap_done; try done. right. split; [done|]. unfold blk_addr. by rewrite E.
Qed.

(** The second half, with the indirect block in place. *)
Lemma bmap_entry_ok s ip i V lo src bn :
  has_file s ip i V -> jrep (jn s) none_held V -> 0 <= bn < NINDIRECT -> i_addr i NDIRECT <> 0 ->
  wp (let* bp := onj (jn_bread (i_dev i) (i_addr i NDIRECT)) in
      let* a := bdata bp in
      let* addr :=
        if ind_entry a bn =? 0 then
          let* addr := balloc (i_dev i) in
          when (nz addr) (bupdate bp (fun d => st32 d (4 * bn) addr)) ;;
          ret addr
        else ret (ind_entry a bn) in
      onj (jn_brelse bp) ;;
      ret addr) s (bmap_post s ip i V lo src (bn + NDIRECT)).
Proof.
  intros Hf Hr Hbn Hi. pose proof Hf as [Hat Hbm Hfi Hbl].
  pose proof (ind_in_use _ _ _ Hfi Hi) as Hu. set (ind := i_addr i NDIRECT) in *.
  assert (blk_addr i V (bn + NDIRECT) = ind_entry (V ind) bn) as Eb.
  { unfold blk_addr. fold ind. destruct (Z.ltb_spec (bn + NDIRECT) NDIRECT); [lia|].
    destruct (Z.eqb_spec ind 0); [done|]. do 2 f_equal. lia. }
  rewrite (fo_dev _ _ _ Hfi) at 1.
  eapply wp_bind_mono; [by eapply wp_bread|]. intros bp s1 (j1 & -> & R1).
  apply wp_bind. eapply (wp_bdata _ _ _ ind); [exact R1 | apply at_eq |].
  assert (forall V2 j a, jrep j (at_ none_held ind (Some bp)) V2 ->
    (forall j', jrep j' none_held V2 -> bmap_post s ip i V lo src (bn + NDIRECT) a (with_jn j' s)) ->
    wp (onj (jn_brelse bp) ;; ret a) (with_jn j s) (bmap_post s ip i V lo src (bn + NDIRECT))) as Hrel.
  { intros V2 j a Rj HQ. eapply wp_bind_mono; [eapply (wp_brelse _ _ _ ind); [exact Rj | apply at_eq]|].
    intros [] s2 (j2 & -> & R2). apply wp_ret. apply HQ. eapply jn_ext; [exact R2 | | done].
    intros c. symmetry. by apply at_back. }
  apply wp_bind. destruct (Z.eqb_spec (ind_entry (V ind) bn) 0) as [Hz|Hz].
  - apply wp_bind. eapply (wp_balloc _ ip); [by apply has_file_jn | exact R1 | by apply one_holds | |].
    + intros j Hfull Rj. apply wp_bind. apply wp_ret. apply wp_ret. eapply Hrel; [exact Rj|].
      intros j' Rj'. apply bmap_done; auto.
    + intros a j Ha Hff Rj. cbn [sb with_jn] in *. unfold nz. destruct (Z.eqb_spec a 0); [lia|]. cbn [negb when].
      eapply wp_bind_mono; [eapply (wp_bupdate _ _ _ ind); [exact Rj | apply at_eq]|]. intros [] s2 (j2 & -> & R2).
      apply wp_ret. eapply Hrel; [exact R2|]. intros j' Rj'.
      destruct (wrote_entry (sb s) i V lo src a bn Hbm Hfi Hbl Hff Ha Hbn Hi Hz) as [Hw Ea].
      split; [done|]. split; [done|]. eexists i, _. split_and!; [eapply has_file_wrote; [|exact Hw|]; done | exact Rj' | exact Hw |].
      right. split; [lia | by rewrite Ea].
  - apply wp_ret. eapply Hrel; [exact R1|]. intros j' Rj'. apply bmap_done; try done. right. by rewrite Eb.
Qed.

Lemma bmap_post_trans s s1 ip i V i1 V1 lo src bn a s2 :
  near ip s s1 -> env s1 = env s -> wrote (sb s) i V i1 V1 lo lo src ->
  bmap_post s1 ip i1 V1 lo src bn a s2 -> bmap_post s ip i V lo src bn a s2.
Proof.
  intros Hn He Hw (Hn2 & He2 & i2 & V2 & Hf2 & Hr2 & Hw2 & Ha).
  destruct (Hn) as (Es & _). rewrite Es in Hw2, Ha.
  split; [exact (near_trans _ _ _ _ Hn Hn2)|]. split; [congruence|]. exists i2, V2.
  split_and!; try done. eapply wrote_trans; [exact Hw | exact Hw2 | lia].
Qed.

(** bmap finds the block of the file, or gives it one, or returns 0. *)
Lemma bmap_ok s ip i V lo src bn :
  has_file s ip i V -> jrep (jn s) none_held V -> 0 <= bn < MAXFILE ->
  wp (bmap ip bn) s (bmap_post s ip i V lo src bn).
Proof.
  intros Hf Hr Hbn. destruct (Z.ltb_spec bn NDIRECT) as [Hlt|Hge]; [apply bmap_direct_ok; done || lia|].
  unfold bmap. apply wp_bind. eapply wp_theinode; [done|].
  rewrite (proj2 (Z.ltb_ge _ _) Hge).
  assert (0 <= bn - NDIRECT < NINDIRECT) as Hk by (unfold MAXFILE in Hbn; lia).
  rewrite (proj2 (Z.ltb_lt _ _) (proj2 Hk)). cbv zeta.
  replace (bmap_post s ip i V lo src bn) with (bmap_post s ip i V lo src (bn - NDIRECT + NDIRECT)) by (f_equal; lia).
  apply wp_bind. destruct (Z.eqb_spec (i_addr i NDIRECT) 0) as [Hz|Hz].
  - apply wp_bind. eapply wp_balloc; try done.
    + intros j Hfull Hj. apply wp_ret. apply wp_ret. apply bmap_done; auto.
    + intros a j Ha Hff Hj. destruct (Z.eqb_spec a 0); [lia|]. pose proof Hf as [Hat Hbm Hfi Hbl].
      assert (wrote (sb s) i V (set_i_addr NDIRECT a i) (alloc_block (sb s) V a) lo lo src) as Hw by (by apply wrote_indirect).
      apply wp_bind. eapply wp_upd_inode; [exact Hat|]. intros s1 Hn Ej Ee Hi. apply wp_ret.
      destruct (Z.eqb_spec a 0); [lia|]. fold (i_dev i).
      assert (i_addr (set_i_addr NDIRECT a i) NDIRECT = a) as Ea.
      { rewrite i_addr_set, Z.eqb_refl; try done. apply (fo_len _ _ _ Hfi). }
      eapply wp_mono.
      { pose proof (bmap_entry_ok s1 ip (set_i_addr NDIRECT a i) (alloc_block (sb s) V a) lo src (bn - NDIRECT)) as Hb.
        rewrite Ea in Hb. apply Hb; try done; [by eapply has_file_wrote | by rewrite Ej]. }
      intros a' s2 Hp. by eapply bmap_post_trans.
  - apply wp_ret. destruct (Z.eqb_spec (i_addr i NDIRECT) 0); [done|]. by apply bmap_entry_ok.
Qed.

(** A mapped block is found without a change. *)
Lemma bmap_mapped s ip i V bn :
  has_file s ip i V -> jrep (jn s) none_held V -> 0 <= bn < MAXFILE -> mapped i V bn ->
  wp (bmap ip bn) s (fun a s' => a = blk_addr i V bn /\ exists j, s' = with_jn j s /\ jrep j none_held V).
Proof.
  intros Hf Hr Hbn Hm. unfold mapped in Hm. unfold bmap. apply wp_bind. eapply wp_theinode; [done|].
  unfold blk_addr in *. destruct (Z.ltb_spec bn NDIRECT) as [Hlt|Hge].
  - destruct (Z.eqb_spec (i_addr i bn) 0); [done|]. apply wp_ret. split; [done|]. exists (jn s). by destruct s.
  - assert (0 <= bn - NDIRECT < NINDIRECT) as Hk by (unfold MAXFILE in Hbn; lia).
    rewrite (proj2 (Z.ltb_lt _ _) (proj2 Hk)). cbv zeta.
    destruct (Z.eqb_spec (i_addr i NDIRECT) 0) as [Hz|Hz]; [done|].
    apply wp_bind, wp_ret. destruct (Z.eqb_spec (i_addr i NDIRECT) 0); [done|].
    rewrite (fo_dev _ _ _ (hf_file _ _ _ _ Hf)).
    eapply wp_bind_mono; [by eapply wp_bread|]. intros bp s1 (j1 & -> & R1).
    apply wp_bind. eapply (wp_bdata _ _ _ (i_addr i NDIRECT)); [exact R1 | apply at_eq |].
    destruct (Z.eqb_spec (ind_entry (V (i_addr i NDIRECT)) (bn - NDIRECT)) 0); [done|].
    apply wp_bind, wp_ret. eapply wp_bind_mono; [eapply wp_brelse; [exact R1 | apply at_eq]|].
    intros [] s2 (j2 & -> & R2). apply wp_ret. split; [done|]. exists j2. split; [done|].
    eapply jn_ext; [exact R2 | | done]. intros c. symmetry. by apply at_back.
Qed.

(** *** readi *)

(** One chunk: what a transfer of at most [n] bytes at [off] moves. *)
Lemma chunk_range off n tot :
  0 <= off -> tot < n -> 0 < Z.min (n - tot) (BSIZE - off mod BSIZE) <= BSIZE /\
  off mod BSIZE + Z.min (n - tot) (BSIZE - off mod BSIZE) <= BSIZE /\ 0 <= off mod BSIZE < BSIZE.
Proof. intros. unfold BSIZE. mlia. Qed.

(** The fuel of a transfer: one unit per block, and one to see the end. *)
Definition enough (fuel : nat) (off n tot : Z) : Prop :=
  (0 < fuel)%nat /\ (tot < n -> n - tot + off mod BSIZE <= BSIZE * (Z.of_nat fuel - 1)).

Lemma enough_start off n : 0 <= off -> 0 <= n -> enough (io_fuel n) off n 0.
Proof. intros. unfold enough, io_fuel, BSIZE. split; [mlia|]. intros. mlia. Qed.

Lemma enough_step off n tot k :
  0 <= off -> tot < n -> enough (S k) off n tot ->
  let m := Z.min (n - tot) (BSIZE - off mod BSIZE) in enough k (off + m) n (tot + m).
Proof.
  intros Ho Ht [_ Hf] m. specialize (Hf Ht). unfold enough. subst m. unfold BSIZE in *.
  split; [mlia|]. intros Hlt. mlia.
Qed.

Lemma same_chunk off o m :
  0 <= off -> off <= o < off + m -> off mod BSIZE + m <= BSIZE ->
  o / BSIZE = off / BSIZE /\ o mod BSIZE = off mod BSIZE + (o - off).
Proof. unfold BSIZE. intros. split; mlia. Qed.

Lemma slice_lookup (bs : list Z) o n k :
  0 <= o -> Z.of_nat k < n -> o + n <= Z.of_nat (length bs) ->
  slice bs o n !! k = Some (byte_at bs (o + Z.of_nat k)).
Proof.
  intros Ho Hk Hl. unfold slice, byte_at. rewrite lookup_take_lt, lookup_drop by lia.
  replace (Z.to_nat (o + Z.of_nat k)) with (Z.to_nat o + k)%nat by lia.
  destruct (lookup_lt_is_Some_2 bs (Z.to_nat o + k)%nat) as [x ->]; [lia|done].
Qed.

Definition read_post s ip i V user dst off n tot (r : Z) s' : Prop :=
  near ip s s' /\ itable s' !! ip = Some i /\ jrep (jn s') none_held V /\
  (r = -1 /\ user = true \/ r = n /\
   (forall o, off <= o < off + (n - tot) -> ce_byte user (env s') (dst + (o - off)) = file_byte i V o) /\
   (forall a, 0 <= a -> a < dst \/ dst + (n - tot) <= a -> ce_byte user (env s') a = ce_byte user (env s) a)).

Lemma readi_loop_ok ip i V user n fuel : forall s dst off tot,
  has_file s ip i V -> jrep (jn s) none_held V ->
  0 <= off -> 0 <= dst -> 0 <= tot <= n -> dst + (n - tot) < 2 ^ 64 -> off + (n - tot) <= MAXFILE * BSIZE ->
  (forall o, off <= o < off + (n - tot) -> mapped i V (o / BSIZE)) ->
  enough fuel off n tot ->
  wp (readi_loop fuel ip user dst off n tot) s (read_post s ip i V user dst off n tot).
Proof.
  induction fuel as [|fuel IH]; intros s dst off tot Hf Hr Ho Hd Ht Hdst Hend Hmap Hfuel; [by destruct Hfuel; lia|].
  cbn [readi_loop]. destruct (Z.ltb_spec tot n) as [Hlt|Hge].
  2: { apply wp_ret. split; [done|]. split; [apply Hf|]. split; [done|]. right. split; [lia|]. split; [lia|done]. }
  pose proof (chunk_range off n tot Ho Hlt) as (Hm & Hmb & Hmo).
  pose proof (enough_step off n tot fuel Ho Hlt Hfuel) as Hnext. cbv zeta in Hnext.
  set (m := Z.min (n - tot) (BSIZE - off mod BSIZE)) in *.
  assert (0 <= off / BSIZE < MAXFILE) as Hk.
  { split; [apply Z.div_pos; [lia|reflexivity] | apply Z.div_lt_upper_bound; [reflexivity | lia]]. }
  assert (mapped i V (off / BSIZE)) as Hmp by (apply Hmap; lia).
  eapply wp_bind_mono; [by eapply bmap_mapped|]. intros a s1 (-> & j1 & -> & R1).
  set (b := blk_addr i V (off / BSIZE)). destruct (Z.eqb_spec b 0) as [Eb|_]; [done|].
  apply wp_bind. eapply wp_theinode; [by apply has_file_jn|].
  rewrite (fo_dev _ _ _ (hf_file _ _ _ _ Hf)).
  eapply wp_bind_mono; [by eapply wp_bread|]. intros bp s2 (j2 & -> & R2).
  apply wp_bind. eapply (wp_bdata _ _ _ b); [exact R2 | apply at_eq |].
  pose proof (hf_blocks _ _ _ _ Hf b) as Hlb.
  assert (Z.of_nat (length (slice (V b) (off mod BSIZE) m)) = m) as Hls.
  { unfold slice. rewrite length_take, length_drop. lia. }
  destruct (ce_copyout_ok user dst (slice (V b) (off mod BSIZE) m) (env s)) as (r & u & Ec & Hc).
  rewrite Hls in Hc. apply wp_bind, wp_zoom. cbn [view env_lens env with_jn]. unfold wp at 1. rewrite Ec.
  eapply wp_bind_mono; [eapply wp_brelse; [exact R2 | apply at_eq]|]. intros [] s3 (j3 & -> & R3).
  assert (jrep j3 none_held V) as R3'.
  { eapply jn_ext; [exact R3 | | done]. intros c. symmetry. by apply at_back. }
  destruct Hc as [[-> ->]|(-> & Hin & Hout)].
  { apply wp_ret. split; [done|]. split; [apply Hf|]. split; [done|]. by left. }
  cbn [Z.eqb]. rewrite !u64_id, u32_id by (rewrite ?MAXFILE_eq in *; unfold BSIZE in *; lia).
  set (s4 := with_jn j3 _).
  eapply wp_mono.
  { apply (IH s4 (dst + m) (off + m) (tot + m)); try done; try lia.
    - destruct Hf. by split.
    - intros o Hoo. apply Hmap. lia. }
  intros r s' (Hn & Hi & Hrj & Hp). split; [exact Hn|]. split; [exact Hi|]. split; [exact Hrj|].
  destruct Hp as [?|(-> & Hp1 & Hp2)]; [by left|]. right. split; [done|]. split.
  - intros o Hoo. destruct (Z.ltb_spec o (off + m)) as [Hl|Hl].
    + rewrite Hp2 by lia.
      assert (slice (V b) (off mod BSIZE) m !! Z.to_nat (o - off) = Some (file_byte i V o)) as Hs.
      { unfold file_byte. destruct (same_chunk off o m Ho ltac:(lia) Hmb) as [-> ->]. fold b.
        replace (off mod BSIZE + (o - off)) with (off mod BSIZE + Z.of_nat (Z.to_nat (o - off))) by lia.
        apply slice_lookup; rewrite ?Hlb; lia. }
      apply Hin in Hs. rewrite <- Hs. cbn [env s4 with_jn over env_lens]. f_equal. lia.
    + rewrite <- Hp1 by lia. f_equal. lia.
  - intros x Hx Hxo. rewrite Hp2 by lia. apply Hout; lia.
Qed.

(** *** writei *)

(** Every part of the source can be copied in. *)
Definition readable (user : bool) (src n : Z) (u : U) : Prop :=
  forall a k, src <= a -> 0 <= k -> a + k <= src + n -> exists bs, ce_copyin user a k u = Ok (0, bs) u.

Definition write_post s ip i V user src off n tot (x : Z * Z) s' : Prop :=
  near ip s s' /\ env s' = env s /\ tot <= x.1 <= n /\ x.2 = off + (x.1 - tot) /\ exists i' V',
    has_file s' ip i' V' /\ jrep (jn s') none_held V' /\
    wrote (sb s) i V i' V' off x.2 (fun o => ce_byte user (env s) (src + (o - off))) /\
    (x.1 < n -> full (sb s) V').

Lemma w_shift sb i V i' V' lo hi f g :
  (forall o, f o = g o) -> wrote sb i V i' V' lo hi f -> wrote sb i V i' V' lo hi g.
Proof.
  intros E [A B C D E' F]. split; auto. intros o Ho Hm. destruct (E' o Ho Hm) as [M1 E1]. split; [done|].
  by rewrite E1, E.
Qed.

Lemma writei_loop_ok ip user n fuel : forall s i V src off tot,
  has_file s ip i V -> jrep (jn s) none_held V ->
  0 <= off -> 0 <= src -> 0 <= tot <= n -> src + (n - tot) < 2 ^ 64 -> off + (n - tot) <= MAXFILE * BSIZE ->
  readable user src (n - tot) (env s) -> enough fuel off n tot ->
  wp (writei_loop fuel ip user src off n tot) s (write_post s ip i V user src off n tot).
Proof.
  induction fuel as [|fuel IH]; intros s i V src off tot Hf Hr Ho Hs Ht Hsrc Hend Hread Hfuel; [by destruct Hfuel; lia|].
  cbn [writei_loop]. set (g := fun o => ce_byte user (env s) (src + (o - off))).
  destruct (Z.ltb_spec tot n) as [Hlt|Hge].
  2: { apply wp_ret. split; [done|]. split; [done|]. cbn [fst snd]. split; [lia|]. split; [lia|].
       exists i, V. split_and!; [done | done | destruct Hf; by apply wrote_refl | lia]. }
  pose proof (chunk_range off n tot Ho Hlt) as (Hm & Hmb & Hmo).
  pose proof (enough_step off n tot fuel Ho Hlt Hfuel) as Hnext. cbv zeta in Hnext.
  set (m := Z.min (n - tot) (BSIZE - off mod BSIZE)) in *.
  assert (0 <= off / BSIZE < MAXFILE) as Hk.
  { split; [apply Z.div_pos; [lia|reflexivity] | apply Z.div_lt_upper_bound; [reflexivity | lia]]. }
  eapply wp_bind_mono; [apply (bmap_ok s ip i V off g); done|].
  intros a s1 (Hn1 & He1 & i1 & V1 & Hf1 & Hr1 & Hw1 & Ha).
  destruct Ha as [[-> Hfull]|[Ha0 Ha]].
  { cbn [Z.eqb]. apply wp_ret. split; [done|]. split; [done|]. cbn [fst snd]. split; [lia|]. split; [lia|].
    exists i1, V1. split_and!; try done. }
  destruct (Z.eqb_spec a 0); [done|].
  apply wp_bind. eapply wp_theinode; [done|].
  rewrite (fo_dev _ _ _ (hf_file _ _ _ _ Hf1)).
  eapply wp_bind_mono; [by eapply wp_bread|]. intros bp s2 (j2 & -> & R2).
  destruct (Hread src m) as (bs & Ec); [lia..|].
  destruct (ce_copyin_ok user src m (env s)) as (r & bs' & Ec' & Hc); [lia|].
  rewrite Ec in Ec'. injection Ec' as <- <-. destruct Hc as [[? _]|(_ & Hlb & Hbs)]; [lia|].
  apply wp_bind, wp_zoom. cbn [view env_lens env with_jn]. rewrite He1. unfold wp at 1. rewrite Ec. cbn [Z.eqb].
  eapply wp_bind_mono; [eapply (wp_bupdate _ _ _ a); [exact R2 | apply at_eq]|]. intros [] s3 (j3 & -> & R3).
  eapply wp_bind_mono; [eapply (wp_brelse _ _ _ a); [exact R3 | apply at_eq]|]. intros [] s4 (j4 & -> & R4).
  set (V2 := at_ V1 a (splice (V1 a) (off mod BSIZE) bs)) in *.
  assert (jrep j4 none_held V2) as R4'.
  { eapply jn_ext; [exact R4 | | done]. intros c. symmetry. by apply at_back. }
  destruct (Hn1) as (Esb & _ & _).
  assert (wrote (sb s) i1 V1 i1 V2 off (off + m) g) as Hw2.
  { unfold V2. rewrite Ha, <- Hlb. destruct Hf1 as [_ Hb1 Hfi1 Hbl1]. rewrite Esb in Hb1, Hfi1.
    apply wrote_data; try done; try lia; [unfold mapped; congruence|].
    intros k Hk'. unfold g. unfold byte_at. destruct (bs !! Z.to_nat k) as [y|] eqn:Ey.
    - apply Hbs in Ey. cbn [default from_option id]. rewrite Ey. f_equal. lia.
    - apply lookup_ge_None_1 in Ey. lia. }
  pose proof (wrote_trans _ _ _ _ _ _ _ _ _ _ _ Hw1 Hw2 ltac:(lia)) as Hw.
  rewrite u64_id, u32_id by (rewrite ?MAXFILE_eq in *; unfold BSIZE in *; lia).
  set (s5 := with_jn j4 _).
  assert (near ip s s5 /\ env s5 = env s) as [Hn5 He5] by (split; [exact Hn1 | done]).
  assert (has_file s5 ip i1 V2) as Hf5 by (eapply has_file_wrote; [exact Hn5 | exact Hw | apply Hf1]).
  eapply wp_mono.
  { apply (IH s5 i1 V2 (src + m) (off + m) (tot + m) Hf5); try done; try lia.
    rewrite He5. intros a' k' ? ? ?. apply Hread; lia. }
  intros [t o] s' (Hn & He & Hx1 & Hx2 & i' & V' & Hf' & Hr' & Hw' & Hfull). cbn [fst snd] in *.
  split; [exact (near_trans _ _ _ _ Hn5 Hn)|]. split; [congruence|]. cbn [fst snd]. split; [lia|]. split; [lia|].
  destruct (Hn5) as (Es5 & _). rewrite Es5 in Hw', Hfull.
  exists i', V'. split_and!; try done.
  eapply wrote_trans; [exact Hw | | lia]. eapply w_shift; [|exact Hw'].
  intros p. unfold g. rewrite He5. f_equal. lia.
Qed.

(** *** iupdate *)

Lemma iupdate_ok s ip i V :
  itable s !! ip = Some i -> jrep (jn s) none_held V -> i_dev i = ROOTDEV ->
  let b := IBLOCK (i_inum i) (sb s) in
  wp (iupdate ip) s (fun _ s' => exists j, s' = with_jn j s /\
    jrep j none_held (at_ V b (store_dinode (V b) (dinode_off (i_inum i)) i))).
Proof.
  intros Hi Hr Hd b. unfold iupdate. apply wp_bind, wp_get. apply wp_bind, wp_gets.
  unfold geti. rewrite Hi. cbn [default from_option id]. rewrite Hd. by apply wp_change.
Qed.

Lemma length_store_dinode d o i : length (store_dinode d o i) = length d.
Proof.
  unfold store_dinode.
  assert (forall xs d o, length (st_addrs d o xs) = length d) as Ha.
  { induction xs as [|x xs IH]; intros; cbn [st_addrs]; [done|]. rewrite IH. apply length_st. }
  rewrite Ha. unfold st32, st16. by rewrite !length_st.
Qed.

(** Writing a block that is not the file's. *)
Lemma wrote_foreign sb i V b x lo src :
  bitmap_ok sb V -> file_ok sb V i -> blocks_ok V -> foreign sb i V b -> length x = Z.to_nat BSIZE ->
  bitmap_ok sb (at_ V b x) /\ file_ok sb (at_ V b x) i /\ blocks_ok (at_ V b x) /\
  (forall k, blk_addr i (at_ V b x) k = blk_addr i V k) /\
  (forall o, 0 <= o < MAXFILE * BSIZE -> mapped i V (o / BSIZE) -> file_byte i (at_ V b x) o = file_byte i V o) /\
  (forall c, foreign sb i V c -> foreign sb i (at_ V b x) c) /\ wrote sb i V i V lo lo src.
Proof.
  intros Hbm Hf HV [(Hr & Hu & Hnb) Hnf] Hx.
  assert (forall k, blk_addr i (at_ V b x) k = blk_addr i V k) as Hblk.
  { intros k. unfold blk_addr. destruct (k <? NDIRECT); [done|]. destruct (Z.eqb_spec (i_addr i NDIRECT) 0); [done|].
    rewrite at_ne; [done|]. intros E. apply Hnf. split; [lia|]. by left. }
  assert (forall c, in_use sb V c <-> in_use sb (at_ V b x) c) as Hin.
  { intros c. unfold in_use. split; intros (Hc & Hcu & Hcb); (split; [done|]); (split; [|done]);
      revert Hcu; rewrite at_BBLOCK_used by (done || lia); done. }
  assert (forall c, file_block i V c <-> file_block i (at_ V b x) c) as Hfbs.
  { intros c. unfold file_block. split; intros [Hc0 [Hc|(k & Hk' & ->)]]; (split; [done|]); auto; right; exists k; split; auto. }
  split_and!.
  - by apply bitmap_ok_at.
  - destruct Hf as [? ? Huse Hinj Hi]. split; try done.
    + intros c Hc%Hfbs. by apply Hin, Huse.
    + unfold mapped. intros k k' ? ?. rewrite !Hblk. by apply Hinj.
    + unfold mapped. intros k ?. rewrite Hblk. by apply Hi.
  - by apply blocks_ok_at.
  - exact Hblk.
  - intros o Ho Hm. unfold file_byte. rewrite Hblk. rewrite at_ne; [done|]. intros E. apply Hnf. split; [lia|].
    right. exists (o / BSIZE). split; [|done]. split; [apply Z.div_pos; [lia|done] | apply Z.div_lt_upper_bound; [done|lia]].
  - intros c [Hc Hn]. split; [by apply Hin|]. by rewrite <- Hfbs.
  - by apply wrote_refl.
Qed.

Lemma size_bound : MAXFILE * BSIZE = 274432.
Proof. reflexivity. Qed.

(** What readi is asked for, cut at the end of the file. *)
Definition read_len (size off n : Z) : Z :=
  if (size <? off) || (2 ^ 32 <=? off + n) then 0 else Z.min n (size - off).

Lemma readi_ok s ip i V user dst off n :
  has_file s ip i V -> jrep (jn s) none_held V ->
  i_is_vault i = 0 \/ i_vault_open i <> 0 ->
  0 <= off < 2 ^ 32 -> 0 <= n < 2 ^ 32 -> 0 <= dst -> dst + n < 2 ^ 64 ->
  0 <= i_size i <= MAXFILE * BSIZE ->
  (forall o, 0 <= o < i_size i -> mapped i V (o / BSIZE)) ->
  wp (readi ip user dst off n) s (read_post s ip i V user dst off (read_len (i_size i) off n) 0).
Proof.
  intros Hf Hr Hv Ho Hn Hd Hdn Hsz Hmap. unfold readi. apply wp_bind. eapply wp_theinode; [done|].
  assert (nz (i_is_vault i) && negb (nz (i_vault_open i)) = false) as ->.
  { unfold nz. destruct Hv as [->|Hv]; [done|]. rewrite (proj2 (Z.eqb_neq _ _) Hv). apply andb_false_r. }
  assert (forall r, r = read_len (i_size i) off n -> r = 0 -> wp (ret 0) s (read_post s ip i V user dst off r 0)) as Hz.
  { intros r _ ->. apply wp_ret. split; [done|]. split; [apply Hf|]. split; [done|]. right. split; [lia|]. split; [lia|done]. }
  unfold read_len in *. rewrite size_bound in *. destruct (Z.ltb_spec (i_size i) off); [by apply Hz|].
  destruct (Z.leb_spec (2 ^ 32) (off + n)).
  { assert (u32 (off + n) = off + n - 2 ^ 32) as -> by (unfold u32; mlia).
    rewrite (proj2 (Z.ltb_lt _ _)) by lia. by apply Hz. }
  rewrite u32_id by lia. destruct (Z.ltb_spec (off + n) off); [lia|]. cbn [orb].
  assert ((if i_size i <? off + n then i_size i - off else n) = Z.min n (i_size i - off)) as ->.
  { destruct (Z.ltb_spec (i_size i) (off + n)); lia. }
  eapply wp_bind_mono.
  { apply (readi_loop_ok ip i V user (Z.min n (i_size i - off))); try done; try lia.
    - rewrite size_bound. lia.
    - intros o Hoo. apply Hmap. lia.
    - apply enough_start; lia. }
  intros r s' (Hn' & Hi & Hj & Hp). apply wp_ret.
  assert (i32 r = r) as -> by (apply i32_id; destruct Hp as [[-> _]|[-> _]]; lia).
  done.
Qed.

Definition writei_post s ip i V user src off n (r : Z) s' : Prop :=
  near ip s s' /\ env s' = env s /\ 0 <= r <= n /\ exists i' V',
    has_file s' ip i' V' /\ jrep (jn s') none_held V' /\
    i_size i' = Z.max (i_size i) (off + r) /\
    (forall o, 0 <= o < MAXFILE * BSIZE -> mapped i V (o / BSIZE) \/ off <= o < off + r ->
       mapped i' V' (o / BSIZE) /\
       file_byte i' V' o =
         if (off <=? o) && (o <? off + r) then ce_byte user (env s) (src + (o - off)) else file_byte i V o) /\
    (forall b, foreign (sb s) i V b -> b <> IBLOCK (i_inum i) (sb s) -> V' b = V b) /\
    V' (IBLOCK (i_inum i) (sb s)) =
      store_dinode (V (IBLOCK (i_inum i) (sb s))) (dinode_off (i_inum i)) i' /\
    (r < n -> full (sb s) V').

Lemma has_size s ip i V x :
  has_file s ip i V -> has_file s ip i V /\ file_ok (sb s) V (set_i_size x i).
Proof. intros Hf. split; [done|]. destruct (hf_file _ _ _ _ Hf). by split. Qed.

Lemma writei_ok s ip i V user src off n :
  has_file s ip i V -> jrep (jn s) none_held V ->
  foreign (sb s) i V (IBLOCK (i_inum i) (sb s)) ->
  0 <= i_size i < 2 ^ 32 -> 0 <= off <= i_size i -> 0 <= n -> off + n <= MAXFILE * BSIZE ->
  0 <= src -> src + n < 2 ^ 64 -> readable user src n (env s) ->
  wp (writei ip user src off n) s (writei_post s ip i V user src off n).
Proof.
  intros Hf Hr Hib Hsz Ho Hn Hon Hs Hsn Hread. unfold writei. apply wp_bind. eapply wp_theinode; [done|].
  rewrite u32_id by (rewrite size_bound in *; lia).
  destruct (Z.ltb_spec (i_size i) off), (Z.ltb_spec (off + n) off); try lia. cbn [orb].
  destruct (Z.ltb_spec (MAXFILE * BSIZE) (off + n)); [lia|].
  eapply wp_bind_mono.
  { apply (writei_loop_ok ip user n _ s i V src off 0 Hf Hr); try lia.
    - by rewrite Z.sub_0_r.
    - apply enough_start; lia. }
  intros [t o] s1 (Hn1 & He1 & Hx1 & Hx2 & i1 & V1 & Hf1 & Hr1 & Hw & Hfull). cbn [fst snd] in *.
  rewrite Z.sub_0_r in Hx2. subst o.
  destruct (w_meta _ _ _ _ _ _ _ _ Hw) as [xs Exs].
  assert (i_size i1 = i_size i /\ i_inum i1 = i_inum i /\ i_dev i1 = ROOTDEV) as (Es & Ei & Ed).
  { rewrite Exs. split_and!; try done. cbn. apply (fo_dev _ _ _ (hf_file _ _ _ _ Hf)). }
  destruct (Hn1) as (Esb & _).
  set (i2 := if i_size i1 <? off + t then set_i_size (off + t) i1 else i1).
  assert (i_size i2 = Z.max (i_size i) (off + t) /\ i_inum i2 = i_inum i /\ i_dev i2 = ROOTDEV) as (Es2 & Ei2 & Ed2).
  { unfold i2. destruct (Z.ltb_spec (i_size i1) (off + t)); cbn; split_and!; try done; lia. }
  assert (forall V, file_ok (sb s) V i1 -> file_ok (sb s) V i2) as Hf2.
  { intros W []. unfold i2. destruct (_ <? _); by split. }
  assert (forall W k, blk_addr i2 W k = blk_addr i1 W k) as Hblk.
  { intros W k. unfold i2. by destruct (_ <? _). }
  apply wp_bind. eapply wp_theinode; [done|].
  assert (forall Q, (forall s2, near ip s s2 -> env s2 = env s -> itable s2 !! ip = Some i2 -> jn s2 = jn s1 -> Q tt s2) ->
    wp (when (i_size i1 <? off + t) (upd_inode ip (set_i_size (off + t)))) s1 Q) as Hsize.
  { intros Q HQ. unfold i2 in HQ. destruct (_ <? _); cbn [when].
    - eapply wp_upd_inode; [apply Hf1|]. intros s2 Hn2 Ej2 Ee2 Hi2. apply HQ; try done; [|congruence].
      exact (near_trans _ _ _ _ Hn1 Hn2).
    - apply wp_ret. apply HQ; try done. apply Hf1. }
  apply wp_bind. apply Hsize. intros s2 Hn2 He2 Hi2 Ej2. destruct (Hn2) as (Esb2 & _).
  assert (foreign (sb s) i2 V1 (IBLOCK (i_inum i2) (sb s))) as Hib1.
  { rewrite Ei2. destruct (w_other _ _ _ _ _ _ _ _ Hw _ Hib) as [[Hu Hnf] _]. split; [done|].
    intros [Hz [E|(k & Hk & E)]]; apply Hnf; (split; [done|]).
    - left. rewrite E. unfold i2. by destruct (_ <? _).
    - right. exists k. split; [done|]. by rewrite <- Hblk. }
  eapply wp_bind_mono.
  { eapply (iupdate_ok s2 ip i2 V1); [done | by rewrite Ej2 | done]. }
  intros [] s3 (j3 & -> & R3). rewrite Esb2 in R3. set (ib := IBLOCK (i_inum i2) (sb s)) in *.
  pose proof Hf1 as [_ Hbm1 Hfi1 Hbl1]. rewrite Esb in Hbm1, Hfi1.
  destruct (wrote_foreign (sb s) i2 V1 ib (store_dinode (V1 ib) (dinode_off (i_inum i2)) i2) 0 (fun _ => 0)
    Hbm1 (Hf2 _ Hfi1) Hbl1 Hib1) as (Hbm3 & Hfi3 & Hbl3 & Hblk3 & Hby3 & Hfo3 & _).
  { rewrite length_store_dinode. apply Hbl1. }
  set (V3 := at_ V1 ib _) in *. apply wp_ret. rewrite i32_id by (rewrite size_bound in *; lia).
  split; [exact Hn2|]. split; [exact He2|]. split; [lia|]. exists i2, V3.
  split_and!; [split; cbn [itable sb with_jn]; rewrite ?Esb2; done | exact R3 | exact Es2 | | | |].
  - intros p Hp Hm. destruct (w_byte _ _ _ _ _ _ _ _ Hw p Hp Hm) as [M1 E1].
    assert (mapped i2 V1 (p / BSIZE)) as M2 by (unfold mapped; by rewrite Hblk).
    split; [unfold mapped; by rewrite Hblk3|]. rewrite Hby3 by done. unfold file_byte at 1. rewrite Hblk. exact E1.
  - intros b Hb Hne. destruct (w_other _ _ _ _ _ _ _ _ Hw b Hb) as [_ E]. unfold V3.
    rewrite at_ne; [done|]. unfold ib. by rewrite Ei2.
  - unfold V3. rewrite <- Ei2. fold ib. rewrite at_eq. f_equal.
    destruct (w_other _ _ _ _ _ _ _ _ Hw _ Hib) as [_ E]. unfold ib. by rewrite Ei2.
  - intros Htn b Hb. specialize (Hfull Htn b Hb). unfold V3. rewrite at_BBLOCK_used; [done | apply Hib1 | done].
Qed.
End run.

Section allocator.
Context {J U : Type} `{JournalLaws J} `{CopyEnv U}.
Implicit Types s : fsst J U.

Lemma used_free sb V a b :
  bitmap_ok sb V -> 0 <= a < sb_size sb -> 0 <= b < sb_size sb ->
  used sb (free_block sb V a) b = negb (b =? a) && used sb V b.
Proof.
  intros Hbm Ha Hb. unfold free_block, used.
  assert (0 <= a mod BPB < BPB) by (apply Z.mod_pos_bound; reflexivity).
  assert (0 <= b mod BPB < BPB) by (apply Z.mod_pos_bound; reflexivity).
  pose proof (bm_len _ _ Hbm a Ha) as Hl.
  destruct (decide (BBLOCK b sb = BBLOCK a sb)) as [E|E].
  - rewrite E, at_eq, bit_free_clear by (unfold BPB, BSIZE in *; lia).
    destruct (Z.eqb_spec (b mod BPB) (a mod BPB)) as [E2|E2], (Z.eqb_spec b a) as [->|]; try done.
    exfalso. apply n. unfold BBLOCK, u32 in E. pose proof (bm_start _ _ Hbm). pose proof (bm_size _ _ Hbm).
    assert (0 <= a / BPB < 2 ^ 31 /\ 0 <= b / BPB < 2 ^ 31) by (unfold BPB, BSIZE; split; mlia).
    rewrite !Z.mod_small in E by lia. rewrite (Z.div_mod b BPB), (Z.div_mod a BPB) by done. lia.
  - rewrite at_ne by done. destruct (Z.eqb_spec b a) as [->|]; done.
Qed.
End allocator.

(** ** Properties *)

Section properties.
Context {J U : Type} `{JournalLaws J} `{CopyEnvLaws U}.
Implicit Types s : fsst J U.

(** The block allocator. balloc returns 0 only when every block of the
    disk is in use, and changes nothing then; otherwise it returns the first
    free block, marks it and zeroes it, and no other block changes its mark.
    bfree of a block in use clears its mark alone; bfree of a free block ends
    in the panic the code announces. *)
Theorem block_allocator_correct s Hd V b :
  jrep (jn s) Hd V -> bitmap_ok (sb s) V -> holds_used (sb s) Hd V -> 0 <= b < sb_size (sb s) ->
  wp (balloc ROOTDEV) s (fun a s' => exists V', jrep (jn s') Hd V' /\ bitmap_ok (sb s) V' /\
    (a = 0 /\ (forall c, V' c = V c) /\ full (sb s) V \/
     first_free (sb s) V a /\ 0 < a /\ V' a = zero_block /\
     forall c, 0 <= c < sb_size (sb s) -> used (sb s) V' c = (c =? a) || used (sb s) V c)) /\
  (used (sb s) V b = true ->
   wp (bfree ROOTDEV b) s (fun _ s' => exists V', jrep (jn s') Hd V' /\
     forall c, 0 <= c < sb_size (sb s) -> used (sb s) V' c = negb (c =? b) && used (sb s) V c)) /\
  (used (sb s) V b = false ->
   match bfree ROOTDEV b s with
   | Ok _ _ => False
   | Stop e _ => exhausted e \/ e = Panic "freeing free block"
   end).
Proof.
  intros Hr Hbm Hh Hb. destruct (bfree_ok s Hd V b Hr Hbm Hh Hb) as [F1 F2]. split; [|split; [|exact F2]].
  - eapply wp_mono; [by apply balloc_ok|]. intros a s' (j & -> & [(-> & Hfull & Hj)|(Ha & Hff & Hj)]).
    + exists V. split_and!; try done. by left.
    + exists (alloc_block (sb s) V a). split; [exact Hj|]. split; [by apply alloc_bitmap_ok|]. right.
      split_and!; try done; [unfold alloc_block; apply at_eq|]. intros c Hc. by apply used_alloc.
  - intros Hu. eapply wp_mono; [by apply F1|]. intros [] s' (j & -> & Hj). eexists. split; [exact Hj|].
    intros c Hc. by apply used_free.
Qed.

(** C25: readi hands out the bytes of the file. It returns the number of bytes
    between [off] and the end of the file, at most [n] (0 when [off] is beyond
    the end or [off + n] overflows), and the destination holds exactly these
    bytes, nothing outside it changed; or it returns -1 because the user's
    destination could not be written. The file and the disk are unchanged. A
    closed vault is never read: readi returns -1. *)
Theorem readi_correct s ip i V user dst off n :
  has_file s ip i V -> jrep (jn s) none_held V ->
  0 <= off < 2 ^ 32 -> 0 <= n < 2 ^ 32 -> 0 <= dst -> dst + n < 2 ^ 64 ->
  0 <= i_size i <= MAXFILE * BSIZE ->
  (forall o, 0 <= o < i_size i -> mapped i V (o / BSIZE)) ->
  (i_is_vault i = 0 \/ i_vault_open i <> 0 ->
   wp (readi ip user dst off n) s (read_post s ip i V user dst off (read_len (i_size i) off n) 0)) /\
  (i_is_vault i <> 0 -> i_vault_open i = 0 -> readi ip user dst off n s = Ok (-1) s).
Proof.
  intros Hf Hr Ho Hn Hd Hdn Hsz Hmap. split; [intros Hv; by apply readi_ok|].
  intros Hv Hc. unfold readi, theinode, gets, bind at 1. rewrite (geti_has _ _ _ _ Hf). unfold nz.
  rewrite (proj2 (Z.eqb_neq _ _) Hv), Hc. done.
Qed.

(** C24: writei replaces the bytes of the file. It returns how many bytes it
    wrote, fewer than asked only when no block of the disk is free; these bytes
    of the file now are the source's, every other byte of the file is as
    before, the size grows to the end of the write, the inode is stored in its
    block on the disk, and no block outside the file, the bitmap and the inode
    block changed, so that no other file did. *)
Theorem writei_correct s ip i V user src off n :
  has_file s ip i V -> jrep (jn s) none_held V ->
  foreign (sb s) i V (IBLOCK (i_inum i) (sb s)) ->
  0 <= i_size i < 2 ^ 32 -> 0 <= off <= i_size i -> 0 <= n -> off + n <= MAXFILE * BSIZE ->
  0 <= src -> src + n < 2 ^ 64 -> readable user src n (env s) ->
  wp (writei ip user src off n) s (writei_post s ip i V user src off n).
Proof. apply writei_ok. Qed.
End properties.

(** ** Witnesses: a disk of 100 blocks with one file of three bytes *)

Definition demo_sb : superblock := SB FSMAGIC 100 95 16 0 0 2 3.
Definition demo_disk : flat :=
  Flat (<[3 := 31 :: replicate 1023 0]> {[4 := [7; 8; 9] ++ replicate 1021 0]}) ∅.
Definition demo_inode : inode :=
  Inode ROOTDEV 1 1 {| sl_locked := 1; sl_pid := 7 |} 1 0 0 0 2 0 0 1 3 (4 :: replicate 12 0).
Definition demo_fs : fsst flat mems :=
  FsSt demo_sb (demo_inode :: replicate 49 zero_inode) demo_disk (Mems (replicate 16 65) ∅) 7.
Definition demo_V : Z -> block := f_read demo_disk.

Lemma demo_jrep : jrep (jn demo_fs) none_held demo_V.
Proof. split; [done|]. intros b. rewrite decide_False; [done|]. set_solver. Qed.

Lemma demo_len : blocks_ok demo_V.
Proof.
  intros b. unfold demo_V, f_read, demo_disk. cbn [f_blocks].
  destruct (decide (b = 3)) as [->|]; [by rewrite lookup_insert_eq|]. rewrite lookup_insert_ne by done.
  destruct (decide (b = 4)) as [->|]; [by rewrite lookup_singleton_eq|]. by rewrite lookup_singleton_ne.
Qed.

Lemma demo_BBLOCK b : 0 <= b < 100 -> BBLOCK b demo_sb = 3.
Proof. intros Hb. unfold BBLOCK. rewrite Z.div_small by (unfold BPB, BSIZE; lia). done. Qed.

Lemma demo_bitmap : bitmap_ok demo_sb demo_V.
Proof.
  split; [cbn; lia | cbn; lia | | | reflexivity].
  - intros b Hb. apply demo_len.
  - intros b Hb. rewrite demo_BBLOCK by done. split; [reflexivity | cbn; lia].
Qed.

Lemma demo_blk k : 0 <= k < MAXFILE -> blk_addr demo_inode demo_V k = if k =? 0 then 4 else 0.
Proof.
  intros Hk. unfold blk_addr. destruct (Z.ltb_spec k NDIRECT) as [Hl|Hl].
  - assert (k = 0 \/ k = 1 \/ k = 2 \/ k = 3 \/ k = 4 \/ k = 5 \/ k = 6 \/ k = 7 \/ k = 8 \/ k = 9 \/ k = 10 \/ k = 11)
      as Hc by (unfold NDIRECT in Hl; lia).
    repeat destruct Hc as [->|Hc]; try reflexivity. by subst.
  - destruct (Z.eqb_spec k 0); [unfold NDIRECT in Hl; lia|]. done.
Qed.

Lemma demo_block a : file_block demo_inode demo_V a -> a = 4.
Proof.
  intros [Ha [->|(k & Hk & ->)]]; [by destruct Ha|]. rewrite demo_blk in * by done. by destruct (k =? 0).
Qed.

Lemma demo_use a : a = 2 \/ a = 4 -> in_use demo_sb demo_V a.
Proof.
  intros Ha. split; [destruct Ha; subst; cbn; lia|]. split; [destruct Ha; subst; reflexivity|].
  intros b Hb. rewrite demo_BBLOCK by done. lia.
Qed.

Lemma demo_has : has_file demo_fs 0 demo_inode demo_V.
Proof.
  split; [done | exact demo_bitmap | | exact demo_len]. split; try done.
  - intros a ->%demo_block. apply demo_use. by right.
  - unfold mapped. intros k k' Hk Hk'. rewrite !demo_blk by done.
    destruct (Z.eqb_spec k 0), (Z.eqb_spec k' 0); congruence || lia.
Qed.

Lemma demo_foreign : foreign demo_sb demo_inode demo_V 2.
Proof. split; [apply demo_use; by left|]. by intros ?%demo_block. Qed.

Lemma block_allocator_correct_witness :
  exists a s', balloc ROOTDEV demo_fs = Ok a s' /\ a = 5 /\ used demo_sb demo_V 5 = false.
Proof.
  pose proof (proj1 (block_allocator_correct demo_fs none_held demo_V 4 demo_jrep demo_bitmap
    ltac:(done) ltac:(cbn; lia))) as Hw.
  unfold wp in Hw. destruct (balloc ROOTDEV demo_fs) as [a s'|e s'] eqn:E; [|vm_compute in E; discriminate].
  assert (a = 5) as -> by (apply (f_equal (fun x => match x with Ok r _ => r | Stop _ _ => 0 end)) in E; vm_compute in E; congruence).
  exists 5, s'. split; [reflexivity|]. split; [reflexivity|].
  destruct Hw as (V' & _ & _ & [(Ha & _)|((_ & Hu & _) & _)]); [discriminate Ha | exact Hu].
Defined.

Lemma readi_correct_witness :
  exists s', readi 0 true 2 1 10 demo_fs = Ok 2 s' /\ ce_byte true (env s') 2 = 8 /\ ce_byte true (env s') 3 = 9.
Proof.
  pose proof (proj1 (readi_correct demo_fs 0 demo_inode demo_V true 2 1 10 demo_has demo_jrep
    ltac:(lia) ltac:(lia) ltac:(lia) ltac:(lia) ltac:(vm_compute; split; discriminate)
    ltac:(intros o Ho; unfold mapped; cbn in Ho; rewrite Z.div_small by (unfold BSIZE; lia); discriminate))
    ltac:(by left)) as Hw.
  unfold wp in Hw. destruct (readi 0 true 2 1 10 demo_fs) as [r s'|e s'] eqn:E; [|vm_compute in E; discriminate].
  destruct Hw as (_ & _ & _ & [[-> _]|(Hr & Hb & _)]).
  - vm_compute in E. discriminate.
  - exists s'. rewrite Hr. split; [reflexivity|]. split.
    + change 2 with (2 + (1 - 1)). rewrite Hb by (vm_compute; split; [discriminate|reflexivity]). vm_compute. reflexivity.
    + change 3 with (2 + (2 - 1)). rewrite Hb by (vm_compute; split; [discriminate|reflexivity]). vm_compute. reflexivity.
Defined.

Lemma writei_correct_witness :
  exists s', writei 0 true 1 2 4 demo_fs = Ok 4 s' /\ i_size (geti s' 0) = 6.
Proof.
  pose proof (writei_correct demo_fs 0 demo_inode demo_V true 1 2 4 demo_has demo_jrep demo_foreign
    ltac:(cbn; lia) ltac:(cbn; lia) ltac:(lia) ltac:(vm_compute; discriminate) ltac:(lia) ltac:(lia)) as Hw.
  assert (readable true 1 4 (env demo_fs)) as Hread.
  { intros a k Ha Hk Hak. unfold ce_copyin, mems_env, in_user. cbn [env demo_fs m_user length replicate andb].
    rewrite (proj2 (Z.leb_le 0 a)), (proj2 (Z.leb_le _ _)) by (cbn; lia). cbn [andb negb]. eauto. }
  specialize (Hw Hread). unfold wp in Hw.
  destruct (writei 0 true 1 2 4 demo_fs) as [r s'|e s'] eqn:E; [|vm_compute in E; discriminate].
  destruct Hw as (_ & _ & Hr & i' & V' & Hf' & _ & Hs & _ & _ & _ & Hfull).
  assert (r = 4) as -> by (apply (f_equal (fun x => match x with Ok r _ => r | Stop _ _ => 0 end)) in E; vm_compute in E; congruence).
  exists s'. split; [reflexivity|]. rewrite (geti_has _ _ _ _ Hf'), Hs. reflexivity.
Defined.
