(* ===== verification/Dir.v ===== *)
(** * fs.c: directories and path names

    A directory is a file of 16-byte entries; [de] is the address of the local
    struct dirent of a function, in the kernel's memory. A path is the bytes
    from a pointer on, a missing byte reads as the terminating NUL; a name is
    the array of DIRSIZ bytes. *)

From stdpp Require Import base gmap list strings.
From Stdlib Require Import ZArith Lia.
From S2P Require Import Prelude Sleeplock Bytes Bio Journal Inode Fileio.

Definition DIRSIZ : nat := 14.
Definition DIRENT : Z := 16.
Definition SLASH : Z := 47.

(** strncmp on byte arrays. *)
Fixpoint strncmp_bytes (n : nat) (s t : list Z) : Z :=
  match n with
  | O => 0
  | S n =>
      let p := byte_at s 0 in let q := byte_at t 0 in
      if negb (p =? 0) && (p =? q) then strncmp_bytes n (tail s) (tail t) else u8 p - u8 q
  end.

(** strncpy(dst, src, n): the [n] bytes it stores. *)
Fixpoint strncpy_bytes (n : nat) (src : list Z) : list Z :=
  match n with
  | O => []
  | S n => if byte_at src 0 =? 0 then replicate (S n) 0 else byte_at src 0 :: strncpy_bytes n (tail src)
  end.

Definition namecmp (s t : list Z) : Z := strncmp_bytes DIRSIZ s t.

(** *** Path elements *)

Fixpoint skip_slashes (path : list Z) : list Z :=
  match path with
  | c :: rest => if c =? SLASH then skip_slashes rest else path
  | [] => []
  end.

(** The bytes up to a slash or the NUL, and the rest. *)
Fixpoint path_elem (path : list Z) : list Z * list Z :=
  match path with
  | c :: rest =>
      if (c =? SLASH) || (c =? 0) then ([], path)
      else let '(e, r) := path_elem rest in (c :: e, r)
  | [] => ([], [])
  end.

Definition skipelem (path name : list Z) : option (list Z * list Z) :=
  let path := skip_slashes path in
  if byte_at path 0 =? 0 then None
  else
    let '(s, rest) := path_elem path in
    let name := if (DIRSIZ <=? length s)%nat then splice name 0 (take DIRSIZ s)
                else splice name 0 (s ++ [0]) in
    Some (skip_slashes rest, name).

Section dir.
Context {J U : Type} `{Journal J} `{CopyEnv U}.

(** The kernel's memory, for the local variables whose address is passed on. *)
Definition kload (a n : Z) : FM (J := J) (U := U) (list Z) :=
  gets (fun s => map (fun k => ce_byte false (env s) (a + k)) (seqZ 0 n)).
Definition kstore (a : Z) (bs : list Z) : FM (J := J) (U := U) unit :=
  let* r := onu (ce_copyout false a bs) in ret tt.

Definition de_inum (d : list Z) : Z := ld16 d 0.
Definition de_name (d : list Z) : list Z := slice d 2 14.

Definition entry_offs (from size : Z) : list Z :=
  map (fun k => from + k * DIRENT) (seqZ 0 ((size - from + DIRENT - 1) / DIRENT)).

(** readi(dp, 0, &de, off, sizeof(de)), or the panic. *)
Definition read_dirent (dp : nat) (de off : Z) (msg : string) : FM (J := J) (U := U) (list Z) :=
  let* r := readi dp false de off DIRENT in
  if negb (r =? DIRENT) then panic msg else kload de DIRENT.

(** One turn of dirlookup's loop. *)
Definition dirlookup_at (dp : nat) (name : list Z) (de off : Z) : FM (J := J) (U := U) (option (nat * Z)) :=
  let* d := read_dirent dp de off "dirlookup read" in
  if de_inum d =? 0 then ret None
  else if namecmp name (de_name d) =? 0 then
    let* i := theinode dp in
    let* ip := iget (i_dev i) (de_inum d) in
    ret (Some (ip, off))
  else ret None.

(** The inode and the offset of the entry, if there is one. *)
Definition dirlookup (dp : nat) (name : list Z) (de : Z) : FM (J := J) (U := U) (option (nat * Z)) :=
  let* i := theinode dp in
  if negb (i_type i =? T_DIR) then panic "dirlookup not DIR"
  else for_until (entry_offs 0 (i_size i)) (dirlookup_at dp name de).

Definition dirlink (dp : nat) (name : list Z) (inum de : Z) : FM (J := J) (U := U) Z :=
  let* r := dirlookup dp name de in
  match r with
  | Some (ip, _) => iput ip ;; ret (-1)
  | None =>
      let* i := theinode dp in
      let offs := entry_offs 0 (i_size i) in
      let* hole := for_until offs (fun off =>
        let* d := read_dirent dp de off "dirlink read" in
        ret (if de_inum d =? 0 then Some off else None)) in
      let off := default (DIRENT * Z.of_nat (length offs)) hole in
      kstore (de + 2) (strncpy_bytes DIRSIZ name) ;;
      kstore de [u8 inum; u8 (inum / 256)] ;;
      let* r := writei dp false de off DIRENT in
      if negb (r =? DIRENT) then ret (-1) else ret 0
  end.

(** The loop of namex on path elements; [None] is a null inode. *)
Fixpoint namex_loop (fuel : nat) (ip : nat) (path name : list Z) (nameiparent : bool) (de : Z) :
    FM (J := J) (U := U) (option nat * list Z) :=
  match fuel with
  | O => halt NoFuel
  | S fuel =>
      match skipelem path name with
      | None =>
          if nameiparent then iput ip ;; ret (None, name) else ret (Some ip, name)
      | Some (path, name) =>
          ilock ip ;;
          let* i := theinode ip in
          if negb (i_type i =? T_DIR) then iunlockput ip ;; ret (None, name)
          else if nameiparent && (byte_at path 0 =? 0) then iunlock ip ;; ret (Some ip, name)
          else
            let* r := dirlookup ip name de in
            match r with
            | None => iunlockput ip ;; ret (None, name)
            | Some (next, _) => iunlockput ip ;; namex_loop fuel next path name nameiparent de
            end
      end
  end.

Definition namex (path name : list Z) (nameiparent : bool) (cwd : nat) (de : Z) :
    FM (J := J) (U := U) (option nat * list Z) :=
  let* ip := if byte_at path 0 =? SLASH then iget ROOTDEV ROOTINO else idup cwd in
  namex_loop (S (length path)) ip path name nameiparent de.

Definition namei (path : list Z) (cwd : nat) (de : Z) : FM (J := J) (U := U) (option nat) :=
  let* r := namex path (replicate DIRSIZ 0) false cwd de in ret (fst r).
Definition nameiparent (path name : list Z) (cwd : nat) (de : Z) : FM (J := J) (U := U) (option nat * list Z) :=
  namex path name true cwd de.

(** Is the directory dp empty except for "." and ".." ? *)
Definition isdirempty (dp : nat) (de : Z) : FM (J := J) (U := U) Z :=
  let* i := theinode dp in
  let* r := for_until (entry_offs (2 * DIRENT) (i_size i)) (fun off =>
    let* d := read_dirent dp de off "isdirempty: readi" in
    ret (if de_inum d =? 0 then None else Some 0)) in
  ret (default 1 r).
End dir.

(** ** Specification *)

(** The C string at the start of a byte array. *)
Fixpoint cstring (bs : list Z) : list Z :=
  match bs with
  | c :: rest => if c =? 0 then [] else c :: cstring rest
  | [] => []
  end.

(** The elements of a path: the nonempty runs of bytes between slashes. *)
Fixpoint split_slash (p : list Z) : list (list Z) :=
  match p with
  | [] => [[]]
  | c :: rest =>
      if c =? SLASH then [] :: split_slash rest
      else match split_slash rest with
           | e :: es => (c :: e) :: es
           | [] => [[c]]
           end
  end.
Definition elements (path : list Z) : list (list Z) :=
  List.filter (fun e => negb (length e =? 0)%nat) (split_slash (cstring path)).

(** Name array [name] holds the element [e], cut at DIRSIZ bytes. *)
Definition holds_name (name e : list Z) : Prop :=
  length name = DIRSIZ /\ take DIRSIZ e = take (length e) name /\
  ((length e < DIRSIZ)%nat -> name !! length e = Some 0).

(** Entry [k] of a directory. *)
Definition dirent_of (i : inode) (V : Z -> block) (k : Z) : list Z :=
  map (fun j => file_byte i V (DIRENT * k + j)) (seqZ 0 DIRENT).
Definition entry_hit (i : inode) (V : Z -> block) (name : list Z) (k : Z) : bool :=
  negb (de_inum (dirent_of i V k) =? 0) && (namecmp name (de_name (dirent_of i V k)) =? 0).

(** ** Lemmas *)

(** *** Paths *)

Lemma skip_slashes_elements path : elements (skip_slashes path) = elements path.
Proof.
  induction path as [|c path IH]; [done|]. cbn [skip_slashes]. destruct (Z.eqb_spec c SLASH) as [->|]; [|done].
  rewrite IH. unfold elements. cbn [cstring]. by cbn [Z.eqb SLASH split_slash List.filter].
Qed.

Lemma skip_slashes_head path : byte_at (skip_slashes path) 0 <> SLASH.
Proof.
  induction path as [|c path IH]; [done|]. cbn [skip_slashes].
  destruct (Z.eqb_spec c SLASH); [done|]. by unfold byte_at.
Qed.

Lemma path_elem_length path : (length (fst (path_elem path)) + length (snd (path_elem path)) = length path)%nat.
Proof.
  induction path as [|c path IH]; [done|]. cbn [path_elem]. destruct (_ || _); [done|].
  destruct (path_elem path) as [e r]. simpl in *. lia.
Qed.

Lemma skip_slashes_length path : (length (skip_slashes path) <= length path)%nat.
Proof. induction path as [|c path IH]; [done|]. cbn [skip_slashes]. destruct (_ =? _); simpl; lia. Qed.

Lemma path_elem_split path :
  split_slash (cstring path) = fst (path_elem path) :: tail (split_slash (cstring path)) /\
  elements (snd (path_elem path)) =
    List.filter (fun e => negb (length e =? 0)%nat) (tail (split_slash (cstring path))).
Proof.
  induction path as [|c path [IH1 IH2]]; [done|]. cbn [path_elem cstring].
  destruct (Z.eqb_spec c 0) as [->|Hc]; [rewrite orb_true_r; done|].
  destruct (Z.eqb_spec c SLASH) as [->|Hs]; cbn [orb].
  - cbn [fst snd]. split; [done|]. unfold elements. cbn [cstring]. by cbn [Z.eqb SLASH split_slash List.filter].
  - cbn [split_slash]. rewrite (proj2 (Z.eqb_neq _ _) Hs).
    destruct (path_elem path) as [e r]. cbn [fst snd] in *. rewrite IH1. by cbn [tail].
Qed.

Lemma path_elem_nonempty path :
  byte_at path 0 <> 0 -> byte_at path 0 <> SLASH -> fst (path_elem path) <> [].
Proof.
  destruct path as [|c path]; [done|]. change (byte_at (c :: path) 0) with c. cbn [path_elem]. intros H0 Hs.
  rewrite (proj2 (Z.eqb_neq _ _) Hs), (proj2 (Z.eqb_neq _ _) H0). cbn [orb]. by destruct (path_elem path).
Qed.

Lemma skipelem_spec path name :
  length name = DIRSIZ ->
  match skipelem path name with
  | None => elements path = []
  | Some (rest, name') => exists e, elements path = e :: elements rest /\ e <> [] /\
      holds_name name' e /\ byte_at rest 0 <> SLASH /\ (length rest < length path)%nat
  end.
Proof.
  intros Hn. unfold skipelem. rewrite <- (skip_slashes_elements path). pose proof (skip_slashes_head path) as Hh.
  pose proof (skip_slashes_length path) as Hlp. set (p := skip_slashes path) in *. clearbody p.
  destruct (Z.eqb_spec (byte_at p 0) 0) as [H0|H0].
  { destruct p as [|c p]; [done|]. change (byte_at (c :: p) 0) with c in H0. subst c. done. }
  pose proof (path_elem_nonempty p H0 Hh) as He. destruct (path_elem_split p) as [E1 E2].
  pose proof (path_elem_length p) as Hl.
  destruct (path_elem p) as [e rest]. cbn [fst snd] in *. exists e. split.
  { rewrite skip_slashes_elements, E2. unfold elements. rewrite E1. cbn [List.filter].
    destruct e; [done|]. done. }
  split; [done|]. pose proof (skip_slashes_length rest).
  assert (0 < length e)%nat by (destruct e; [done|cbn; lia]).
  split; [|split; [apply skip_slashes_head | lia]].
  unfold holds_name, DIRSIZ in *. destruct (Nat.leb_spec 14 (length e)) as [Hle|Hgt].
  - unfold splice. change (take (Z.to_nat 0) name) with (@nil Z). cbn [app]. rewrite length_take. rewrite (drop_ge name) by lia. rewrite app_nil_r.
    split; [rewrite length_take; lia|]. split; [|lia]. rewrite take_take. f_equal. lia.
  - unfold splice. change (take (Z.to_nat 0) name) with (@nil Z). cbn [app].
    split; [rewrite length_app, length_drop, length_app; cbn [length]; lia|].
    rewrite <- app_assoc. split.
    + rewrite take_app_length. by rewrite take_ge by lia.
    + intros _. rewrite lookup_app_r by lia. by rewrite Nat.sub_diag.
Qed.

(** *** Names *)

Lemma strncmp_bytes_zero n : forall s t,
  (forall k, 0 <= byte_at s k < 256) -> (forall k, 0 <= byte_at t k < 256) ->
  strncmp_bytes n s t = 0 <-> take n (cstring s) = take n (cstring t).
Proof.
  assert (forall l : list Z, (forall k, 0 <= byte_at l k < 256) -> forall k, 0 <= byte_at (tail l) k < 256) as Htl.
  { intros l Hl k. destruct l as [|x l]; [exact (Hl k)|]. destruct (Z.leb_spec 0 k).
    - specialize (Hl (k + 1)). unfold byte_at in *. by replace (Z.to_nat (k + 1)) with (S (Z.to_nat k)) in Hl by lia.
    - specialize (Hl 1). unfold byte_at in *. by replace (Z.to_nat k) with 0%nat by lia. }
  induction n as [|n IH]; intros s t Hs Ht; [done|]. cbn [strncmp_bytes].
  pose proof (Hs 0) as Hs0. pose proof (Ht 0) as Ht0.
  assert (forall l, cstring l = if byte_at l 0 =? 0 then [] else byte_at l 0 :: cstring (tail l)) as Hc.
  { intros [|x l]; [done|]. change (byte_at (x :: l) 0) with x. cbn. by destruct (x =? 0). }
  rewrite (Hc s), (Hc t).
  destruct (Z.eqb_spec (byte_at s 0) 0) as [E1|E1], (Z.eqb_spec (byte_at t 0) 0) as [E2|E2]; cbn [negb andb].
  - rewrite E1, E2. done.
  - rewrite !u8_id by lia. cbn [take]. split; [lia|discriminate].
  - destruct (Z.eqb_spec (byte_at s 0) (byte_at t 0)); [congruence|]. rewrite !u8_id by lia. cbn [take]. split; [lia|discriminate].
  - destruct (Z.eqb_spec (byte_at s 0) (byte_at t 0)) as [E|E].
    + rewrite IH by auto. cbn [take]. rewrite E. split; [by intros ->|]. by intros [= ?].
    + rewrite !u8_id by lia. cbn [take]. split; [lia|]. intros [= ?]. done.
Qed.

Section run.
Context {J U : Type} `{JournalLaws J} `{CopyEnvLaws U}.
Implicit Types s : fsst J U.

(** *** The inode table *)

(** Every inode has one entry at most, and some entry is not referenced. *)
Record table_ok s : Prop := {
  tb_len : length (itable s) = NINODE;
  tb_ref : forall k, (k < NINODE)%nat -> 0 <= i_ref (geti s k) < 2 ^ 31 - 1;
  tb_uniq : forall a b, (a < NINODE)%nat -> (b < NINODE)%nat ->
    0 < i_ref (geti s a) -> 0 < i_ref (geti s b) ->
    i_dev (geti s a) = i_dev (geti s b) -> i_inum (geti s a) = i_inum (geti s b) -> a = b;
}.
Definition has_spare s : Prop := exists k, (k < NINODE)%nat /\ i_ref (geti s k) = 0.

Definition with_itable (l : list inode) s : fsst J U := FsSt (sb s) l (jn s) (env s) (fs_pid s).

Lemma geti_alter_eq s ip f :
  (ip < length (itable s))%nat -> geti (with_itable (alter f ip (itable s)) s) ip = f (geti s ip).
Proof.
  intros Hl. unfold geti, with_itable. cbn [itable]. rewrite list_lookup_alter_eq.
  by apply lookup_lt_is_Some in Hl as [x ->].
Qed.
Lemma geti_alter_ne s ip f k : k <> ip -> geti (with_itable (alter f ip (itable s)) s) k = geti s k.
Proof. intros. unfold geti, with_itable. cbn [itable]. by rewrite list_lookup_alter_ne. Qed.

Lemma table_alter s ip f :
  table_ok s -> (ip < NINODE)%nat ->
  (0 <= i_ref (f (geti s ip)) < 2 ^ 31 - 1) ->
  (forall k, (k < NINODE)%nat -> k <> ip -> 0 < i_ref (geti s k) ->
     ~ (i_dev (geti s k) = i_dev (f (geti s ip)) /\ i_inum (geti s k) = i_inum (f (geti s ip)))) ->
  table_ok (with_itable (alter f ip (itable s)) s).
Proof.
  intros [] Hip Hr Hu. split.
  - cbn. by rewrite length_alter.
  - intros k Hk. destruct (decide (k = ip)) as [->|]; [by rewrite geti_alter_eq by lia | by rewrite geti_alter_ne; auto].
  - intros a b Ha Hb. destruct (decide (a = ip)) as [->|], (decide (b = ip)) as [->|]; [done | | |];
      rewrite ?geti_alter_eq by lia; rewrite ?geti_alter_ne by done; intros Ra Rb Ed Ei.
    + exfalso. by apply (Hu b).
    + exfalso. by apply (Hu a).
    + by apply tb_uniq0.
Qed.

(** The table can take one more reference. *)
Record table_ready s : Prop := {
  tr_ok : table_ok s;
  tr_spare : has_spare s;
  tr_ref : forall k, (k < NINODE)%nat -> i_ref (geti s k) < 2 ^ 31 - 2;
}.

Lemma geti_itable s s' k : itable s' = itable s -> geti s' k = geti s k.
Proof. unfold geti. by intros ->. Qed.

Lemma table_ready_eq s s' : itable s' = itable s -> table_ready s -> table_ready s'.
Proof.
  intros E [[Hl Hr Hu] (k0 & Hk0 & Hz) Hb].
  assert (forall k, geti s' k = geti s k) as Eg by (intros k; by apply geti_itable).
  split; [split | exists k0 |].
  - by rewrite E.
  - intros k Hk. rewrite Eg. auto.
  - intros a b. rewrite !Eg. auto.
  - by rewrite Eg.
  - intros k Hk. rewrite Eg. auto.
Qed.

Definition iget_post s dev inum (ip : nat) s' : Prop :=
  (ip < NINODE)%nat /\ s' = with_itable (itable s') s /\ table_ok s' /\
  i_dev (geti s' ip) = dev /\ i_inum (geti s' ip) = inum /\ 0 < i_ref (geti s' ip) /\
  (forall k, k <> ip -> geti s' k = geti s k).

(** iget returns the entry of the inode, which stays the only one. *)
Lemma iget_ok s dev inum :
  table_ready s -> wp (iget dev inum) s (iget_post s dev inum).
Proof.
  intros [Ht (k0 & Hk0 & Hz) Hb]. pose proof Ht as [Hl Hr Hu]. unfold iget. apply wp_bind, wp_get.
  assert (forall ip f, (ip < NINODE)%nat -> i_dev (f (geti s ip)) = dev -> i_inum (f (geti s ip)) = inum ->
    0 < i_ref (f (geti s ip)) < 2 ^ 31 - 1 ->
    (forall k, (k < NINODE)%nat -> k <> ip -> 0 < i_ref (geti s k) ->
      ~ (i_dev (geti s k) = dev /\ i_inum (geti s k) = inum)) ->
    wp (upd_inode ip f ;; ret ip) s (iget_post s dev inum)) as Hupd.
  { intros ip f Hip Ed Ei Hrf Hn. apply wp_bind, wp_modify, wp_ret.
    change (FsSt _ _ _ _ _) with (with_itable (alter f ip (itable s)) s).
    split; [done|]. split; [done|]. split; [apply table_alter; try done; [lia | by rewrite Ed, Ei]|].
    rewrite geti_alter_eq by lia. split_and!; try done; [lia|]. intros k Hk. by apply geti_alter_ne. }
  destruct (List.find _ (seq 0 NINODE)) as [ip|] eqn:Ef.
  - apply List.find_some in Ef as [Hip%list_elem_of_In%elem_of_seq Ef]. bool_to_prop.
    assert (ip < NINODE)%nat by lia. specialize (Hb ip ltac:(lia)).
    apply Hupd; try done; cbn [i_ref set_i_ref].
    + rewrite i32_id by lia. lia.
    + intros k Hk Hne Hkr [Ed Ei]. apply Hne. apply Hu; auto; congruence.
  - assert (forall k, (k < NINODE)%nat -> 0 < i_ref (geti s k) -> ~ (i_dev (geti s k) = dev /\ i_inum (geti s k) = inum)) as Hno.
    { intros k Hk Hkr [Ed Ei]. pose proof (List.find_none _ _ Ef k) as Hf. cbv beta in Hf.
      rewrite Ed, Ei, !Z.eqb_refl, (proj2 (Z.ltb_lt _ _)) in Hf by done. cbn [andb] in Hf.
      discriminate Hf. apply list_elem_of_In, elem_of_seq. lia. }
    destruct (List.find (fun i => i_ref (geti s i) =? 0) (seq 0 NINODE)) as [ip|] eqn:Ee.
    + apply List.find_some in Ee as [Hip%list_elem_of_In%elem_of_seq Ee].
      apply (Hupd ip (set_i_id dev inum)); cbn [i_ref i_dev i_inum set_i_id]; auto; lia.
    + pose proof (List.find_none _ _ Ee k0) as Hf. cbv beta in Hf. rewrite Hz in Hf. discriminate Hf.
      apply list_elem_of_In, elem_of_seq. lia.
Qed.

(** *** dirlookup *)

(** A directory whose entries can be read into [de]. *)
Record is_dir s (dp : nat) (i : inode) (V : Z -> block) (de : Z) : Prop := {
  id_file : has_file s dp i V;
  id_rep : jrep (jn s) none_held V;
  id_type : i_type i = T_DIR;
  id_vault : i_is_vault i = 0 \/ i_vault_open i <> 0;
  id_size : 0 <= i_size i <= MAXFILE * BSIZE;
  id_whole : i_size i mod DIRENT = 0;
  id_mapped : forall o, 0 <= o < i_size i -> mapped i V (o / BSIZE);
  id_de : 0 <= de /\ de + DIRENT < 2 ^ 64;
}.

Lemma is_dir_near s s' dp i V de :
  is_dir s dp i V de -> near dp s s' -> itable s' !! dp = Some i -> jrep (jn s') none_held V -> is_dir s' dp i V de.
Proof.
  intros [[] ? ? ? ? ? ? ?] (Esb & _) Hi Hj. split; auto. split; rewrite ?Esb; done.
Qed.

Lemma read_dirent_ok s dp i V de k msg :
  is_dir s dp i V de -> 0 <= k < i_size i / DIRENT ->
  wp (read_dirent dp de (k * DIRENT) msg) s (fun d s' =>
    d = dirent_of i V k /\ near dp s s' /\ is_dir s' dp i V de).
Proof.
  intros Hd Hk. pose proof Hd as [Hf Hr _ Hv Hsz Hw Hm [Hde1 Hde2]]. rewrite size_bound in *.
  assert (0 <= k * DIRENT /\ k * DIRENT + DIRENT <= i_size i) as [Ho1 Ho2] by (unfold DIRENT in *; mlia).
  unfold read_dirent. eapply wp_bind_mono.
  { apply (readi_ok s dp i V false de (k * DIRENT) DIRENT); try done; rewrite ?size_bound; unfold DIRENT in *; lia. }
  intros r s' (Hn & Hi & Hj & Hp).
  assert (read_len (i_size i) (k * DIRENT) DIRENT = DIRENT) as E.
  { unfold read_len. destruct (Z.ltb_spec (i_size i) (k * DIRENT)), (Z.leb_spec (2 ^ 32) (k * DIRENT + DIRENT));
      cbn [orb]; unfold DIRENT in *; lia. }
  rewrite E in Hp. destruct Hp as [[_ ?]|(-> & Hb & _)]; [done|]. cbn [negb Z.eqb DIRENT].
  apply wp_gets. split; [|split; [exact Hn | by eapply is_dir_near]].
  unfold dirent_of. apply map_ext_in. intros j Hj'%list_elem_of_In%elem_of_seqZ.
  replace (de + j) with (de + (k * DIRENT + j - k * DIRENT)) by lia. rewrite Hb by lia. f_equal. lia.
Qed.

Definition lookup_post s i V name (lo hi : Z) (r : option (nat * Z)) s' : Prop :=
  match r with
  | None => (forall k, lo <= k < hi -> entry_hit i V name k = false)
  | Some (ip, off) => exists k s1, lo <= k < hi /\ off = k * DIRENT /\ entry_hit i V name k = true /\
      (forall k', lo <= k' < k -> entry_hit i V name k' = false) /\
      iget_post s1 (i_dev i) (de_inum (dirent_of i V k)) ip s' /\ itable s1 = itable s
  end.

Lemma near_itable dp s s' i : near dp s s' -> itable s !! dp = Some i -> itable s' !! dp = Some i -> itable s' = itable s.
Proof.
  intros (_ & _ & Hn) Hi Hi'. apply list_eq. intros k. destruct (decide (k = dp)) as [->|]; [congruence | auto].
Qed.


Lemma dirlookup_loop dp i V name de n : forall lo s,
  is_dir s dp i V de -> table_ready s ->
  0 <= lo -> lo + Z.of_nat n <= i_size i / DIRENT ->
  wp (for_until (map (fun k => 0 + k * DIRENT) (seqZ lo (Z.of_nat n))) (dirlookup_at dp name de)) s
    (lookup_post s i V name lo (lo + Z.of_nat n)).
Proof.
  induction n as [|n IH]; intros lo s Hd Ht Hlo Hn.
  { apply wp_ret. intros k Hk. lia. }
  rewrite seqZ_cons by lia. cbn [map for_until]. rewrite Z.add_0_l.
  eapply (wp_bind_mono _ _ _ (fun r s' => match r with
     | Some (ip, off) => off = lo * DIRENT /\ entry_hit i V name lo = true /\
         exists s1, iget_post s1 (i_dev i) (de_inum (dirent_of i V lo)) ip s' /\ itable s1 = itable s
     | None => entry_hit i V name lo = false /\ near dp s s' /\ is_dir s' dp i V de end)).
  { unfold dirlookup_at. eapply wp_bind_mono; [apply (read_dirent_ok s dp i V de lo); [done|lia]|].
    intros d s1 (-> & Hn1 & Hd1). unfold entry_hit.
    destruct (Z.eqb_spec (de_inum (dirent_of i V lo)) 0); cbn [negb andb]; [by apply wp_ret|].
    destruct (Z.eqb_spec (namecmp name (de_name (dirent_of i V lo))) 0); [|by apply wp_ret].
    apply wp_bind. eapply wp_theinode; [apply Hd1|].
    assert (itable s1 = itable s) as Ei.
    { eapply near_itable; [exact Hn1 | apply (id_file _ _ _ _ _ Hd) | apply (id_file _ _ _ _ _ Hd1)]. }
    eapply wp_bind_mono; [apply iget_ok; by eapply table_ready_eq|].
    intros ip s2 Hp. apply wp_ret. split; [done|]. split; [done|]. by exists s1. }
  intros [[ip off]|] s1.
  - intros (-> & Hh & s2 & Hp & Ei). apply wp_ret. exists lo, s2. split_and!; try done; lia.
  - intros (Hh & Hn1 & Hd1).
    assert (itable s1 = itable s) as Ei.
    { eapply near_itable; [exact Hn1 | apply (id_file _ _ _ _ _ Hd) | apply (id_file _ _ _ _ _ Hd1)]. }
    replace (Z.pred (Z.of_nat (S n))) with (Z.of_nat n) by lia.
    eapply wp_mono; [apply (IH (Z.succ lo) s1); try done; try lia; by eapply table_ready_eq|].
    intros [[ip off]|] s2; unfold lookup_post.
    + intros (k & s3 & Hk & -> & Hhk & Hlow & Hp & Ei3). exists k, s3. split_and!; try done; try lia; [|congruence].
      intros k' Hk'. destruct (decide (k' = lo)) as [->|]; [done|]. apply Hlow. lia.
    + intros Hno k Hk. destruct (decide (k = lo)) as [->|]; [done|]. apply Hno. lia.
Qed.
End run.

(** ** Properties *)

(** Path parsing. skipelem returns null exactly when the path has no
    element left; otherwise it puts the first element into the name array, cut
    at DIRSIZ bytes and terminated when shorter, and returns a shorter path,
    without a leading slash, whose elements are the remaining ones. *)
Theorem skipelem_correct path name :
  length name = DIRSIZ ->
  match skipelem path name with
  | None => elements path = []
  | Some (rest, name') => exists e, elements path = e :: elements rest /\ e <> [] /\
      holds_name name' e /\ byte_at rest 0 <> SLASH /\ (length rest < length path)%nat
  end.
Proof. apply skipelem_spec. Qed.

Lemma dirlookup_ok {J U} `{JournalLaws J} `{CopyEnvLaws U} (s : fsst J U) dp i V name de :
  is_dir s dp i V de -> table_ready s ->
  wp (dirlookup dp name de) s (lookup_post s i V name 0 (i_size i / DIRENT)).
Proof.
  intros Hd Ht. pose proof Hd as [Hf _ Hty _ Hsz Hw _ _]. unfold dirlookup. apply wp_bind. eapply wp_theinode; [done|].
  rewrite Hty. cbn [negb Z.eqb T_DIR Pos.eqb]. unfold entry_offs.
  assert ((i_size i - 0 + DIRENT - 1) / DIRENT = Z.of_nat (Z.to_nat (i_size i / DIRENT))) as ->.
  { unfold DIRENT in *. mlia. }
  assert (i_size i / DIRENT = 0 + Z.of_nat (Z.to_nat (i_size i / DIRENT))) as E by (unfold DIRENT in *; mlia).
  rewrite E at 2. apply dirlookup_loop; try done; lia.
Qed.

(** C26: dirlookup finds the first entry in use with the name. It returns null
    exactly when no entry matches; otherwise the offset of the first match, and
    a referenced entry of the inode table for the inode the entry names, which
    is the only one; no other entry of the table changes. *)
Theorem dirlookup_correct {J U} `{JournalLaws J} `{CopyEnvLaws U} (s : fsst J U) dp i V name de :
  is_dir s dp i V de -> table_ready s ->
  wp (dirlookup dp name de) s (lookup_post s i V name 0 (i_size i / DIRENT)).
Proof. apply dirlookup_ok. Qed.

(** ** Witnesses *)

Definition demo_name : list Z := [97; 98; 0].   (* ab *)
Definition demo_dirent : list Z := [5; 0; 97; 98] ++ replicate 12 0.
Definition demo_dir : inode :=
  Inode ROOTDEV 1 1 {| sl_locked := 1; sl_pid := 7 |} 1 0 0 0 1 0 0 1 32 (4 :: replicate 12 0).
Definition demo_dir_disk : flat :=
  Flat (<[3 := 31 :: replicate 1023 0]> {[4 := replicate 16 0 ++ demo_dirent ++ replicate 992 0]}) ∅.
Definition demo_dir_fs : fsst flat mems :=
  FsSt demo_sb (demo_dir :: replicate 49 zero_inode) demo_dir_disk (Mems [] ∅) 7.
Definition demo_dir_V : Z -> block := f_read demo_dir_disk.

Lemma demo_dir_blk k : 0 <= k < MAXFILE -> blk_addr demo_dir demo_dir_V k = if k =? 0 then 4 else 0.
Proof.
  intros Hk. unfold blk_addr. destruct (Z.ltb_spec k NDIRECT) as [Hl|Hl].
  - rewrite <- (demo_blk k Hk). unfold blk_addr. by rewrite (proj2 (Z.ltb_lt _ _) Hl).
  - destruct (Z.eqb_spec k 0); [unfold NDIRECT in Hl; lia|]. done.
Qed.

Lemma demo_dir_is : is_dir demo_dir_fs 0 demo_dir demo_dir_V 4096.
Proof.
  assert (blocks_ok demo_dir_V) as Hb.
  { intros b. unfold demo_dir_V, f_read, demo_dir_disk. cbn [f_blocks].
    destruct (decide (b = 3)) as [->|]; [by rewrite lookup_insert_eq|]. rewrite lookup_insert_ne by done.
    destruct (decide (b = 4)) as [->|]; [by rewrite lookup_singleton_eq|]. by rewrite lookup_singleton_ne. }
  assert (bitmap_ok demo_sb demo_dir_V) as Hbm.
  { split; [cbn; lia | cbn; lia | | | reflexivity].
    - intros b _. apply Hb.
    - intros b Hb'. rewrite demo_BBLOCK by done. split; [reflexivity | cbn; lia]. }
  assert (forall a, file_block demo_dir demo_dir_V a -> a = 4) as Hfb.
  { intros a [Ha [->|(k & Hk & ->)]]; [by destruct Ha|]. rewrite demo_dir_blk in * by done. by destruct (k =? 0). }
  split; try done.
  - split; try done. split; try done.
    + intros a ->%Hfb. split; [cbn; lia|]. split; [reflexivity|]. intros b Hb'. by rewrite demo_BBLOCK.
    + unfold mapped. intros k k' Hk Hk'. rewrite !demo_dir_blk by done.
      destruct (Z.eqb_spec k 0), (Z.eqb_spec k' 0); congruence || lia.
  - by left.
  - intros o Ho. cbn in Ho. unfold mapped. rewrite Z.div_small by (unfold BSIZE; lia). done.
Qed.

Lemma demo_geti k : (k < NINODE)%nat -> geti demo_dir_fs k = if decide (k = 0%nat) then demo_dir else zero_inode.
Proof.
  intros Hk. unfold geti. destruct k as [|k]; [done|]. rewrite decide_False by done.
  change (itable demo_dir_fs !! S k) with (replicate 49 zero_inode !! k).
  rewrite lookup_replicate_2; [done|]. unfold NINODE in Hk. lia.
Qed.

Lemma demo_table : table_ready demo_dir_fs.
Proof.
  split; [split; [done | |] | exists 1%nat |].
  - intros k Hk. rewrite demo_geti by done. case_decide; cbn; lia.
  - intros a b Ha Hb. rewrite !demo_geti by done. repeat case_decide; cbn; lia.
  - split; [unfold NINODE; lia|]. by rewrite demo_geti by (unfold NINODE; lia).
  - intros k Hk. rewrite demo_geti by done. case_decide; cbn; lia.
Qed.

(** ///ab/cdefghijklmnopqrst with a 19-byte second element *)
Lemma skipelem_correct_witness :
  skipelem [47; 47; 97; 98; 47; 99] (replicate 14 1) = Some ([99], [97; 98; 0] ++ replicate 11 1) /\
  exists e, elements [47; 47; 97; 98; 47; 99] = e :: elements [99].
Proof.
  split; [reflexivity|].
  pose proof (skipelem_correct [47; 47; 97; 98; 47; 99] (replicate 14 1) eq_refl) as Hs.
  change (skipelem [47; 47; 97; 98; 47; 99] (replicate 14 1)) with (Some ([99], [97; 98; 0] ++ replicate 11 1)) in Hs.
  destruct Hs as (e & E & _). exists e. exact E.
Defined.

Lemma dirlookup_correct_witness :
  exists ip s', dirlookup 0 demo_name 4096 demo_dir_fs = Ok (Some (ip, 16)) s' /\ i_inum (geti s' ip) = 5.
Proof.
  pose proof (dirlookup_correct demo_dir_fs 0 demo_dir demo_dir_V demo_name 4096 demo_dir_is demo_table) as Hw.
  unfold wp in Hw. destruct (dirlookup 0 demo_name 4096 demo_dir_fs) as [[[ip off]|] s'|e s'] eqn:E.
  - destruct Hw as (k & s1 & Hk & -> & Hh & _ & (_ & _ & _ & _ & Hi & _) & _).
    assert (k = 0 \/ k = 1) as [->| ->] by (change (i_size demo_dir / DIRENT) with 2 in Hk; lia); [vm_compute in Hh; discriminate|].
    exists ip, s'. split; [reflexivity|]. rewrite Hi. vm_compute. reflexivity.
  - specialize (Hw 1 ltac:(vm_compute; split; [discriminate|reflexivity])). vm_compute in Hw. discriminate.
  - apply (f_equal (fun x => match x with Ok _ _ => true | Stop _ _ => false end)) in E. vm_compute in E. discriminate.
Defined.
