(* ===== verification/File.v ===== *)
(** * file.c: open files

    The table of open files over the file system of [Inode] and [Dir]. Pipes,
    devices, the arguments of system calls and exec are the interface [SysEnv];
    the pipes themselves are in [Pipe]. A file is named by its index in ftable. *)

From stdpp Require Import base gmap list strings.
From Stdlib Require Import ZArith Lia.
From S2P Require Import Prelude Sleeplock Bytes Bio Journal Inode Dir.

Inductive fdtype : Type := FD_NONE | FD_PIPE | FD_INODE | FD_DEVICE.

Record file : Type := File {
  f_type : fdtype;
  f_ref : Z;
  f_readable : bool;
  f_writable : bool;
  f_pipe : Z;           (* FD_PIPE *)
  f_ip : nat;           (* FD_INODE and FD_DEVICE *)
  f_off : Z;            (* FD_INODE *)
  f_major : Z;          (* FD_DEVICE *)
}.

Definition zero_file : file := File FD_NONE 0 false false 0 0 0 0.
Definition NFILE : nat := 100.
Definition NDEV : Z := 10.

(** What file.c and sysfile.c ask of pipe.c, the devices, syscall.c, kalloc.c
    and exec.c. *)
Class SysEnv (K : Type) : Type := {
  se_pipe_init : Z -> M K unit;               (* the fields of a new pipe *)
  se_pipeclose : Z -> bool -> M K unit;       (* pipeclose(pi, writable) *)
  se_piperead : Z -> Z -> Z -> M K Z;
  se_pipewrite : Z -> Z -> Z -> M K Z;
  se_dev_read : Z -> option (Z -> Z -> M K Z);   (* devsw[major].read(1, addr, n) *)
  se_dev_write : Z -> option (Z -> Z -> M K Z);
  se_arg : K -> Z -> Z;                       (* argraw(n) *)
  se_argstr : Z -> Z -> M K (option (list Z)); (* argstr(n, buf, max): the buffer *)
  se_fetchaddr : Z -> M K (option Z);
  se_kalloc : M K Z;
  se_kfree : Z -> M K unit;
  se_fetchstr : Z -> Z -> M K bool;           (* fetchstr(uarg, page, PGSIZE) >= 0 *)
  se_exec : list Z -> list Z -> M K Z;        (* exec(path, argv) *)
}.

(** The state of the current process's system calls: its descriptors and its
    directory are part of struct proc. *)
Record sst (J U K : Type) : Type := SysSt {
  fs : fsst J U;
  ftable : list file;
  ofile : list (option nat);    (* p->ofile[NOFILE] *)
  cwd : nat;                    (* p->cwd *)
  kern : K;
}.
Arguments SysSt {J U K}.
Arguments fs {J U K}.
Arguments ftable {J U K}.
Arguments ofile {J U K}.
Arguments cwd {J U K}.
Arguments kern {J U K}.

Definition set_f_ref (r : Z) (f : file) : file :=
  File (f_type f) r (f_readable f) (f_writable f) (f_pipe f) (f_ip f) (f_off f) (f_major f).
Definition set_f_type (t : fdtype) (f : file) : file :=
  File t (f_ref f) (f_readable f) (f_writable f) (f_pipe f) (f_ip f) (f_off f) (f_major f).
Definition set_f_off (o : Z) (f : file) : file :=
  File (f_type f) (f_ref f) (f_readable f) (f_writable f) (f_pipe f) (f_ip f) o (f_major f).
(** the fields sys_open and pipealloc fill in; the reference count stays *)
Definition set_f_desc (t : fdtype) (rd wr : bool) (pipe : Z) (ip : nat) (off major : Z) (f : file) : file :=
  File t (f_ref f) rd wr pipe ip off major.

(** struct stat as stati fills it, in the 40 bytes of a local variable: the
    padding and vault_open keep what the stack held. *)
Definition stat_bytes (st : stat_t) (stack : list Z) : list Z :=
  let b := st32 stack 0 (s_dev st) in
  let b := st32 b 4 (s_ino st) in
  let b := st16 b 8 (s_type st) in
  let b := st16 b 10 (s_nlink st) in
  let b := Bytes.st b 16 8 (s_size st) in
  let b := st32 b 24 (s_is_vault st) in
  st32 b 28 (s_vault_id st).

Section file.
Context {J U K : Type} `{Journal J} `{CopyEnv U} `{SysEnv K}.

Definition SM (A : Type) : Type := M (sst J U K) A.

Definition fs_lens : lens (sst J U K) (fsst J U) :=
  Lens fs (fun x s => SysSt x (ftable s) (ofile s) (cwd s) (kern s)).
Definition kern_lens : lens (sst J U K) K :=
  Lens kern (fun k s => SysSt (fs s) (ftable s) (ofile s) (cwd s) k).
Definition onfs {A} (m : FM (J := J) (U := U) A) : SM A := zoom fs_lens m.
Definition onk {A} (m : M K A) : SM A := zoom kern_lens m.

Definition upd_ftable (f : list file -> list file) : SM unit :=
  modify (fun s => SysSt (fs s) (f (ftable s)) (ofile s) (cwd s) (kern s)).
Definition upd_file (i : nat) (f : file -> file) : SM unit := upd_ftable (alter f i).
Definition getf (s : sst J U K) (i : nat) : file := default zero_file (ftable s !! i).
Definition thefile (i : nat) : SM file := gets (fun s => getf s i).

Definition fs_begin_op : SM unit := onfs (onj jn_begin_op).
Definition fs_end_op : SM unit := onfs (onj jn_end_op).

Definition filealloc : SM (option nat) :=
  let* s := get in
  match List.find (fun i => f_ref (getf s i) =? 0) (seq 0 NFILE) with
  | Some i => upd_file i (set_f_ref 1) ;; ret (Some i)
  | None => ret None
  end.

Definition filedup (i : nat) : SM nat :=
  let* f := thefile i in
  if f_ref f <? 1 then panic "filedup"
  else upd_file i (set_f_ref (i32 (f_ref f + 1))) ;; ret i.

Definition fileclose (i : nat) : SM unit :=
  let* ff := thefile i in
  if f_ref ff <? 1 then panic "fileclose"
  else
    upd_file i (set_f_ref (f_ref ff - 1)) ;;
    if 0 <? f_ref ff - 1 then ret tt
    else
      upd_file i (set_f_ref 0) ;;
      upd_file i (set_f_type FD_NONE) ;;
      match f_type ff with
      | FD_PIPE => onk (se_pipeclose (f_pipe ff) (f_writable ff))
      | FD_INODE | FD_DEVICE => fs_begin_op ;; onfs (iput (f_ip ff)) ;; fs_end_op
      | FD_NONE => ret tt
      end.

(** pipealloc: the read end and the write end. *)
Definition pipealloc : SM (option (nat * nat)) :=
  let bad (pi : Z) (f0 f1 : option nat) : SM (option (nat * nat)) :=
    when (nz pi) (onk (se_kfree pi)) ;;
    match f0 with Some f => fileclose f | None => ret tt end ;;
    match f1 with Some f => fileclose f | None => ret tt end ;;
    ret None in
  let* r0 := filealloc in
  match r0 with
  | None => bad 0 None None
  | Some f0 =>
      let* r1 := filealloc in
      match r1 with
      | None => bad 0 (Some f0) None
      | Some f1 =>
          let* pi := onk se_kalloc in
          if pi =? 0 then bad 0 (Some f0) (Some f1)
          else
            onk (se_pipe_init pi) ;;
            upd_file f0 (fun f => set_f_desc FD_PIPE true false pi (f_ip f) (f_off f) (f_major f) f) ;;
            upd_file f1 (fun f => set_f_desc FD_PIPE false true pi (f_ip f) (f_off f) (f_major f) f) ;;
            ret (Some (f0, f1))
      end
  end.

(** filestat(f, addr); [stack] is what the local struct stat held. *)
Definition filestat (i : nat) (addr : Z) (stack : list Z) : SM Z :=
  let* f := thefile i in
  match f_type f with
  | FD_INODE | FD_DEVICE =>
      onfs (ilock (f_ip f)) ;;
      let* st := onfs (stati (f_ip f)) in
      onfs (iunlock (f_ip f)) ;;
      let* r := onfs (onu (ce_copyout true addr (stat_bytes st stack))) in
      if r <? 0 then ret (-1) else ret 0
  | _ => ret (-1)
  end.

Definition fileread (i : nat) (addr n : Z) : SM Z :=
  let* f := thefile i in
  if negb (f_readable f) then ret (-1)
  else
    match f_type f with
    | FD_PIPE => onk (se_piperead (f_pipe f) addr n)
    | FD_DEVICE =>
        if (f_major f <? 0) || (NDEV <=? f_major f) then ret (-1)
        else match se_dev_read (f_major f) with
             | None => ret (-1)
             | Some read => onk (read addr n)
             end
    | FD_INODE =>
        onfs (ilock (f_ip f)) ;;
        let* r := onfs (readi (f_ip f) true addr (f_off f) (u32 n)) in
        when (0 <? r) (upd_file i (fun f => set_f_off (u32 (f_off f + r)) f)) ;;
        onfs (iunlock (f_ip f)) ;;
        ret r
    | FD_NONE => panic "fileread"
    end.

(** The loop of filewrite on an inode: how many bytes it has written. *)
Definition WRITE_MAX : Z := (MAXOPBLOCKS - 1 - 1 - 2) / 2 * BSIZE.
Fixpoint filewrite_loop (fuel : nat) (i : nat) (addr n k : Z) : SM Z :=
  match fuel with
  | O => halt NoFuel
  | S fuel =>
      if k <? n then
        let n1 := Z.min (n - k) WRITE_MAX in
        let* f := thefile i in
        fs_begin_op ;;
        onfs (ilock (f_ip f)) ;;
        let* r := onfs (writei (f_ip f) true (u64 (addr + k)) (f_off f) n1) in
        when (0 <? r) (upd_file i (fun f => set_f_off (u32 (f_off f + r)) f)) ;;
        onfs (iunlock (f_ip f)) ;;
        fs_end_op ;;
        if negb (r =? n1) then ret k else filewrite_loop fuel i addr n (k + r)
      else ret k
  end.

Definition filewrite (i : nat) (addr n : Z) : SM Z :=
  let* f := thefile i in
  if negb (f_writable f) then ret (-1)
  else
    match f_type f with
    | FD_PIPE => onk (se_pipewrite (f_pipe f) addr n)
    | FD_DEVICE =>
        if (f_major f <? 0) || (NDEV <=? f_major f) then ret (-1)
        else match se_dev_write (f_major f) with
             | None => ret (-1)
             | Some write => onk (write addr n)
             end
    | FD_INODE =>
        let* k := filewrite_loop (S (Z.to_nat (n / WRITE_MAX + 1))) i addr n 0 in
        ret (if k =? n then n else -1)
    | FD_NONE => panic "filewrite"
    end.

(** The fuel of filewrite is never what ends its loop: a turn that does not
    leave the loop writes all of its [n1] bytes, so one turn per WRITE_MAX
    bytes and one more test are enough, and more fuel changes nothing. *)
Lemma filewrite_loop_enough fuel fuel' i addr n k s :
  (Z.to_nat ((n - k + WRITE_MAX - 1) / WRITE_MAX) < fuel)%nat -> (fuel <= fuel')%nat ->
  filewrite_loop fuel i addr n k s = filewrite_loop fuel' i addr n k s.
Proof.
  revert fuel' k s. induction fuel as [|fuel IH]; intros [|fuel'] k s Hf Hle; [lia..|].
  cbn [filewrite_loop]. destruct (Z.ltb_spec k n) as [Hk|]; [|done].
  repeat (apply bind_ext; intros ? ? _). destruct (_ =? _) eqn:Er; cbn [negb]; [|done].
  apply Z.eqb_eq in Er. apply IH; [|lia]. rewrite Er.
  change WRITE_MAX with 3072 in *. mlia.
Qed.

Lemma filewrite_fuel_enough fuel i addr n s :
  (S (Z.to_nat (n / WRITE_MAX + 1)) <= fuel)%nat ->
  filewrite_loop (S (Z.to_nat (n / WRITE_MAX + 1))) i addr n 0 s = filewrite_loop fuel i addr n 0 s.
Proof.
  intros Hf. apply filewrite_loop_enough; [|done]. change WRITE_MAX with 3072 in *. mlia.
Qed.

(** A negative count, as sys_write passes it on, is refused on an inode. *)
Lemma filewrite_negative i addr n s :
  n < 0 -> f_writable (getf s i) = true -> f_type (getf s i) = FD_INODE ->
  filewrite i addr n s = Ok (-1) s.
Proof.
  intros Hn Hw Ht. unfold filewrite. rewrite (bind_run (thefile i) _ s (getf s i) s eq_refl), Hw, Ht.
  cbn [negb]. rewrite (bind_run (filewrite_loop _ i addr n 0) _ s 0 s).
  - unfold ret. by rewrite (proj2 (Z.eqb_neq 0 n)) by lia.
  - cbn [filewrite_loop]. by rewrite (proj2 (Z.ltb_ge 0 n)) by lia.
Qed.
End file.
