(* ===== verification/Sysfile.v ===== *)
(** * sysfile.c: the system calls on files

    Every system call of sysfile.c, over [File], [Dir] and [Inode]. [de] is the
    kernel address of a local struct dirent; a null struct inode * is [None].
    The invariant: the reference counts of the open files are the number of
    descriptors that name them. *)

From stdpp Require Import base gmap list strings relations.
From Stdlib Require Import ZArith Lia.
From S2P Require Import Prelude Sleeplock Bytes Bio Journal Inode Fileio Dir File.

Definition MAXPATH : Z := 128.
Definition MAXARG : nat := 32.
Definition O_RDONLY : Z := 0.
Definition O_WRONLY : Z := 1.
Definition O_RDWR : Z := 2.
Definition O_CREATE : Z := 0x200.
Definition O_TRUNC : Z := 0x400.

Definition set_i_nlink (x : Z) (i : inode) : inode :=
  Inode (i_dev i) (i_inum i) (i_ref i) (i_lock i) (i_valid i) (i_is_vault i) (i_vault_id i) (i_vault_open i)
    (i_type i) (i_major i) (i_minor i) x (i_size i) (i_addrs i).
Definition set_i_devno (major minor : Z) (i : inode) : inode :=
  Inode (i_dev i) (i_inum i) (i_ref i) (i_lock i) (i_valid i) (i_is_vault i) (i_vault_id i) (i_vault_open i)
    (i_type i) major minor (i_nlink i) (i_size i) (i_addrs i).
Definition set_i_vault (is_vault vault_id : Z) (i : inode) : inode :=
  Inode (i_dev i) (i_inum i) (i_ref i) (i_lock i) (i_valid i) is_vault vault_id (i_vault_open i)
    (i_type i) (i_major i) (i_minor i) (i_nlink i) (i_size i) (i_addrs i).
Definition add_nlink (d : Z) (i : inode) : inode := set_i_nlink (i16 (i_nlink i + d)) i.

(** The names . and .. *)
Definition DOT : list Z := [46; 0].
Definition DOTDOT : list Z := [46; 46; 0].

Section sysfile.
Context {J U K : Type} `{Journal J} `{CopyEnv U} `{SysEnv K}.
Context (de : Z).

Definition argint (n : Z) : SM (J := J) (U := U) Z := gets (fun s => i32 (se_arg (kern s) n)).
Definition argaddr (n : Z) : SM (J := J) (U := U) Z := gets (fun s => se_arg (kern s) n).
Definition argstr (n max : Z) : SM (J := J) (U := U) (option (list Z)) := onk (se_argstr n max).
Definition upd_ofile (f : list (option nat) -> list (option nat)) : SM (J := J) (U := U) (K := K) unit :=
  modify (fun s => SysSt (fs s) (ftable s) (f (ofile s)) (cwd s) (kern s)).
Definition set_ofile (fd : Z) (f : option nat) : SM (J := J) (U := U) (K := K) unit := upd_ofile (<[Z.to_nat fd := f]>).

(** The descriptor and the file, unless it is not open. *)
Definition argfd (n : Z) : SM (J := J) (U := U) (option (Z * nat)) :=
  let* fd := argint n in
  let* s := get in
  if (fd <? 0) || (16 <=? fd) then ret None
  else match default None (ofile s !! Z.to_nat fd) with
       | None => ret None
       | Some f => ret (Some (fd, f))
       end.

Definition fdalloc (f : nat) : SM (J := J) (U := U) (K := K) Z :=
  let* s := get in
  match List.find (fun fd => bool_decide (default None (ofile s !! Z.to_nat fd) = None)) (seqZ 0 16) with
  | Some fd => set_ofile fd (Some f) ;; ret fd
  | None => ret (-1)
  end.

Definition sys_dup : SM (J := J) (U := U) Z :=
  let* r := argfd 0 in
  match r with
  | None => ret (-1)
  | Some (_, f) =>
      let* fd := fdalloc f in
      if fd <? 0 then ret (-1) else filedup f ;; ret fd
  end.

Definition sys_read : SM (J := J) (U := U) Z :=
  let* p := argaddr 1 in
  let* n := argint 2 in
  let* r := argfd 0 in
  match r with None => ret (-1) | Some (_, f) => fileread f p n end.

Definition sys_write : SM (J := J) (U := U) Z :=
  let* p := argaddr 1 in
  let* n := argint 2 in
  let* r := argfd 0 in
  match r with None => ret (-1) | Some (_, f) => filewrite f p n end.

Definition sys_close : SM (J := J) (U := U) Z :=
  let* r := argfd 0 in
  match r with
  | None => ret (-1)
  | Some (fd, f) => set_ofile fd None ;; fileclose f ;; ret 0
  end.

Definition sys_fstat (stack : list Z) : SM (J := J) (U := U) Z :=
  let* st := argaddr 1 in
  let* r := argfd 0 in
  match r with None => ret (-1) | Some (_, f) => filestat f st stack end.

(** namei and nameiparent from the current directory. *)
Definition path_inode (path : list Z) : SM (J := J) (U := U) (K := K) (option nat) :=
  let* s := get in onfs (namei path (cwd s) de).
Definition path_parent (path : list Z) : SM (J := J) (U := U) (K := K) (option nat * list Z) :=
  let* s := get in onfs (nameiparent path (replicate DIRSIZ 0) (cwd s) de).

Definition sys_link : SM (J := J) (U := U) Z :=
  let* old := argstr 0 MAXPATH in
  match old with
  | None => ret (-1)
  | Some old =>
  let* new := argstr 1 MAXPATH in
  match new with
  | None => ret (-1)
  | Some new =>
      fs_begin_op ;;
      let* r := path_inode old in
      match r with
      | None => fs_end_op ;; ret (-1)
      | Some ip =>
          onfs (ilock ip) ;;
          let* i := onfs (theinode ip) in
          if i_type i =? T_DIR then onfs (iunlockput ip) ;; fs_end_op ;; ret (-1)
          else
            onfs (upd_inode ip (add_nlink 1)) ;;
            onfs (iupdate ip) ;;
            onfs (iunlock ip) ;;
            let bad :=
              onfs (ilock ip) ;;
              onfs (upd_inode ip (add_nlink (-1))) ;;
              onfs (iupdate ip) ;;
              onfs (iunlockput ip) ;;
              fs_end_op ;;
              ret (-1) in
            let* r := path_parent new in
            match r with
            | (None, _) => bad
            | (Some dp, name) =>
                onfs (ilock dp) ;;
                let* d := onfs (theinode dp) in
                let* i := onfs (theinode ip) in
                let* r := if negb (i_dev d =? i_dev i) then ret (-1)
                          else onfs (dirlink dp name (i_inum i) de) in
                if r <? 0 then onfs (iunlockput dp) ;; bad
                else onfs (iunlockput dp) ;; onfs (iput ip) ;; fs_end_op ;; ret 0
            end
      end
  end
  end.

Definition sys_unlink : SM (J := J) (U := U) Z :=
  let* path := argstr 0 MAXPATH in
  match path with
  | None => ret (-1)
  | Some path =>
      fs_begin_op ;;
      let* r := path_parent path in
      match r with
      | (None, _) => fs_end_op ;; ret (-1)
      | (Some dp, name) =>
          let bad := onfs (iunlockput dp) ;; fs_end_op ;; ret (-1) in
          onfs (ilock dp) ;;
          if (namecmp name DOT =? 0) || (namecmp name DOTDOT =? 0) then bad
          else
            let* r := onfs (dirlookup dp name de) in
            match r with
            | None => bad
            | Some (ip, off) =>
                onfs (ilock ip) ;;
                let* i := onfs (theinode ip) in
                if i_nlink i <? 1 then panic "unlink: nlink < 1"
                else
                  let* full := if i_type i =? T_DIR
                               then let* e := onfs (isdirempty ip de) in ret (e =? 0)
                               else ret false in
                  if full : bool then onfs (iunlockput ip) ;; bad
                  else
                    onfs (kstore de (replicate 16 0)) ;;
                    let* r := onfs (writei dp false de off DIRENT) in
                    if negb (r =? DIRENT) then panic "unlink: writei"
                    else
                      let* i := onfs (theinode ip) in
                      when (i_type i =? T_DIR)
                        (onfs (upd_inode dp (add_nlink (-1))) ;; onfs (iupdate dp)) ;;
                      onfs (iunlockput dp) ;;
                      onfs (upd_inode ip (add_nlink (-1))) ;;
                      onfs (iupdate ip) ;;
                      onfs (iunlockput ip) ;;
                      fs_end_op ;;
                      ret 0
            end
      end
  end.

Definition create (path : list Z) (type major minor : Z) : SM (J := J) (U := U) (K := K) (option nat) :=
  let* r := path_parent path in
  match r with
  | (None, _) => ret None
  | (Some dp, name) =>
      let* d := onfs (theinode dp) in
      let is_vault := if nz (i_is_vault d) then 1 else 0 in
      let vault_id := if nz (i_is_vault d) then i_vault_id d else 0 in
      onfs (ilock dp) ;;
      let* r := onfs (dirlookup dp name de) in
      match r with
      | Some (ip, _) =>
          onfs (iunlockput dp) ;;
          onfs (ilock ip) ;;
          let* i := onfs (theinode ip) in
          if (type =? T_FILE) && ((i_type i =? T_FILE) || (i_type i =? T_DEVICE)) then ret (Some ip)
          else onfs (iunlockput ip) ;; ret None
      | None =>
          let* d := onfs (theinode dp) in
          let* r := onfs (ialloc (i_dev d) type) in
          match r with
          | None => onfs (iunlockput dp) ;; ret None
          | Some ip =>
              onfs (upd_inode ip (set_i_vault is_vault vault_id)) ;;
              onfs (ilock ip) ;;
              onfs (upd_inode ip (fun i => set_i_nlink 1 (set_i_devno major minor i))) ;;
              onfs (iupdate ip) ;;
              let fail :=
                onfs (upd_inode ip (set_i_nlink 0)) ;;
                onfs (iupdate ip) ;;
                onfs (iunlockput ip) ;;
                onfs (iunlockput dp) ;;
                ret None in
              let* i := onfs (theinode ip) in
              let* r :=
                if type =? T_DIR then
                  let* r := onfs (dirlink ip DOT (i_inum i) de) in
                  if r <? 0 then ret r else onfs (dirlink ip DOTDOT (i_inum d) de)
                else ret 0 in
              if r <? 0 then fail
              else
                let* r := onfs (dirlink dp name (i_inum i) de) in
                if r <? 0 then fail
                else
                  when (type =? T_DIR) (onfs (upd_inode dp (add_nlink 1)) ;; onfs (iupdate dp)) ;;
                  onfs (iunlockput dp) ;;
                  ret (Some ip)
          end
      end
  end.

(** The part of sys_open that follows the lookup; [ip] is locked. *)
Definition open_inode (ip : nat) (omode : Z) : SM (J := J) (U := U) Z :=
  let bad := onfs (iunlockput ip) ;; fs_end_op ;; ret (-1) in
  let* i := onfs (theinode ip) in
  if (i_type i =? T_DEVICE) && ((i_major i <? 0) || (NDEV <=? i_major i)) then bad
  else
    let* r := filealloc in
    match r with
    | None => bad
    | Some f =>
        let* fd := fdalloc f in
        if fd <? 0 then fileclose f ;; bad
        else
          let rd := Z.land omode O_WRONLY =? 0 in
          let wr := nz (Z.land omode O_WRONLY) || nz (Z.land omode O_RDWR) in
          upd_file f (fun x =>
            if i_type i =? T_DEVICE then set_f_desc FD_DEVICE rd wr (f_pipe x) ip (f_off x) (i_major i) x
            else set_f_desc FD_INODE rd wr (f_pipe x) ip 0 (f_major x) x) ;;
          when (nz (Z.land omode O_TRUNC) && (i_type i =? T_FILE)) (onfs (itrunc ip)) ;;
          onfs (iunlock ip) ;;
          fs_end_op ;;
          ret fd
    end.

Definition sys_open : SM (J := J) (U := U) Z :=
  let* omode := argint 1 in
  let* path := argstr 0 MAXPATH in
  match path with
  | None => ret (-1)
  | Some path =>
      fs_begin_op ;;
      if nz (Z.land omode O_CREATE) then
        let* r := create path T_FILE 0 0 in
        match r with
        | None => fs_end_op ;; ret (-1)
        | Some ip => open_inode ip omode
        end
      else
        let* r := path_inode path in
        match r with
        | None => fs_end_op ;; ret (-1)
        | Some ip =>
            onfs (ilock ip) ;;
            let* i := onfs (theinode ip) in
            if (i_type i =? T_DIR) && negb (omode =? O_RDONLY) then onfs (iunlockput ip) ;; fs_end_op ;; ret (-1)
            else open_inode ip omode
        end
  end.

(** sys_mkdir and sys_mknod after their arguments. *)
Definition make_node (type major minor : Z) : SM (J := J) (U := U) Z :=
  let* path := argstr 0 MAXPATH in
  match path with
  | None => fs_end_op ;; ret (-1)
  | Some path =>
      let* r := create path type major minor in
      match r with
      | None => fs_end_op ;; ret (-1)
      | Some ip => onfs (iunlockput ip) ;; fs_end_op ;; ret 0
      end
  end.
Definition sys_mkdir : SM (J := J) (U := U) Z := fs_begin_op ;; make_node T_DIR 0 0.
Definition sys_mknod : SM (J := J) (U := U) Z :=
  fs_begin_op ;;
  let* major := argint 1 in
  let* minor := argint 2 in
  make_node T_DEVICE (i16 major) (i16 minor).

Definition sys_chdir : SM (J := J) (U := U) Z :=
  fs_begin_op ;;
  let* path := argstr 0 MAXPATH in
  match path with
  | None => fs_end_op ;; ret (-1)
  | Some path =>
      let* r := path_inode path in
      match r with
      | None => fs_end_op ;; ret (-1)
      | Some ip =>
          onfs (ilock ip) ;;
          let* i := onfs (theinode ip) in
          if negb (i_type i =? T_DIR) then onfs (iunlockput ip) ;; fs_end_op ;; ret (-1)
          else
            onfs (iunlock ip) ;;
            let* s := get in
            onfs (iput (cwd s)) ;;
            fs_end_op ;;
            modify (fun s => SysSt (fs s) (ftable s) (ofile s) ip (kern s)) ;;
            ret 0
      end
  end.

(** The loop of sys_exec over the user's argv: the pages that hold the
    arguments, and whether all of them were fetched. *)
Fixpoint fetch_args (k : nat) (uargv : Z) (argv : list Z) : SM (J := J) (U := U) (K := K) (list Z * bool) :=
  match k with
  | O => ret (argv, false)
  | S k =>
      let* r := onk (se_fetchaddr (u64 (uargv + 8 * Z.of_nat (length argv)))) in
      match r with
      | None => ret (argv, false)
      | Some uarg =>
          if uarg =? 0 then ret (argv, true)
          else
            let* page := onk se_kalloc in
            if page =? 0 then ret (argv, false)
            else
              let* ok := onk (se_fetchstr uarg page) in
              if ok : bool then fetch_args k uargv (argv ++ [page]) else ret (argv ++ [page], false)
      end
  end.

Definition sys_exec : SM (J := J) (U := U) Z :=
  let* uargv := argaddr 1 in
  let* path := argstr 0 MAXPATH in
  match path with
  | None => ret (-1)
  | Some path =>
      let* x := fetch_args MAXARG uargv [] in
      let '(argv, ok) := x in
      let* r := if ok : bool then onk (se_exec path argv) else ret (-1) in
      for_each argv (fun a => onk (se_kfree a)) ;;
      ret r
  end.

(** An int in the user's memory. *)
Definition put_int (addr v : Z) : SM (J := J) (U := U) (K := K) Z :=
  onfs (onu (ce_copyout true addr (Bytes.st (replicate 4 0) 0 4 v))).

Definition sys_pipe : SM (J := J) (U := U) Z :=
  let* fdarray := argaddr 0 in
  let* r := pipealloc in
  match r with
  | None => ret (-1)
  | Some (rf, wf) =>
      let* fd0 := fdalloc rf in
      let* fd1 := if fd0 <? 0 then ret (-1) else fdalloc wf in
      if (fd0 <? 0) || (fd1 <? 0) then
        when (0 <=? fd0) (set_ofile fd0 None) ;;
        fileclose rf ;;
        fileclose wf ;;
        ret (-1)
      else
        let* r0 := put_int fdarray fd0 in
        let* r1 := if r0 <? 0 then ret (-1) else put_int (u64 (fdarray + 4)) fd1 in
        if (r0 <? 0) || (r1 <? 0) then
          set_ofile fd0 None ;;
          set_ofile fd1 None ;;
          fileclose rf ;;
          fileclose wf ;;
          ret (-1)
        else ret 0
  end.

(** The system calls of this file, and a process that makes some of them. *)
Inductive call : Type :=
  | Cdup | Cread | Cwrite | Cclose | Cfstat (stack : list Z) | Clink | Cunlink
  | Copen | Cmkdir | Cmknod | Cchdir | Cexec | Cpipe.

Definition do_call (c : call) : SM (J := J) (U := U) Z :=
  match c with
  | Cdup => sys_dup | Cread => sys_read | Cwrite => sys_write | Cclose => sys_close
  | Cfstat stack => sys_fstat stack | Clink => sys_link | Cunlink => sys_unlink
  | Copen => sys_open | Cmkdir => sys_mkdir | Cmknod => sys_mknod
  | Cchdir => sys_chdir | Cexec => sys_exec | Cpipe => sys_pipe
  end.
Definition do_calls (cs : list (call * (K -> K))) : SM (J := J) (U := U) unit :=
  for_each cs (fun '(c, args) => onk (modify args) ;; do_call c ;; ret tt).
End sysfile.

(** ** The reference counts of the open files *)

(** The number of descriptors that name file [i]. *)
Definition fdcount (i : nat) (l : list (option nat)) : Z :=
  Z.of_nat (length (filter (fun x => x = Some i) l)).

(** [o i] references to file [i] are not descriptors of this process: those
    of the other processes, and the pointers a system call holds. *)
Definition refs {J U K} (o : nat -> Z) (s : sst J U K) : Prop :=
  length (ftable s) = NFILE /\ length (ofile s) = 16%nat /\
  (forall fd i, ofile s !! fd = Some (Some i) -> (i < NFILE)%nat) /\
  forall i, (i < NFILE)%nat -> f_ref (getf s i) = o i + fdcount i (ofile s).

Definition one (i j : nat) : Z := if decide (i = j) then 1 else 0.

Lemma fdcount_nonneg i l : 0 <= fdcount i l.
Proof. unfold fdcount. lia. Qed.
Lemma fdcount_le i l : fdcount i l <= Z.of_nat (length l).
Proof. unfold fdcount. pose proof (length_filter (fun x => x = Some i) l). lia. Qed.

Lemma fdcount_cons i x l : fdcount i (x :: l) = (if decide (x = Some i) then 1 else 0) + fdcount i l.
Proof. unfold fdcount. rewrite filter_cons. case_decide; cbn [length]; lia. Qed.

Lemma fdcount_insert i l : forall fd x y, l !! fd = Some x ->
  fdcount i (<[fd := y]> l) =
    fdcount i l - (if decide (x = Some i) then 1 else 0) + (if decide (y = Some i) then 1 else 0).
Proof.
  induction l as [|a l IH]; intros fd x y Hl; [done|]. destruct fd; simpl in Hl.
  - injection Hl as ->. cbn [insert list_insert]. rewrite !fdcount_cons. lia.
  - change (<[S fd := y]> (a :: l)) with (a :: <[fd := y]> l). rewrite !fdcount_cons, (IH _ _ _ Hl). lia.
Qed.


Section refs.
Context {J U K : Type} `{Journal J} `{CopyEnv U} `{SysEnv K}.
Context (de : Z) (others : nat -> Z).
Context (Hothers : forall i, 0 <= others i < 2 ^ 31 - 32).
Implicit Types (s : sst J U K) (o : nat -> Z).

(** No reference is lost: those of the other processes and the descriptors
    are all counted. *)
Definition safe s : Prop := exists o, (forall i, others i <= o i) /\ refs o s.

(** [m] started with the references [o]: what it returns satisfies [Q], and
    where it stops no reference is lost. *)
Definition tri {A} o (m : SM (J := J) (U := U) (K := K) A) (Q : A -> sst J U K -> Prop) s : Prop :=
  refs o s -> match m s with Ok a s' => Q a s' | Stop _ s' => safe s' end.

Definition quiet {A} (m : SM (J := J) (U := U) (K := K) A) : Prop :=
  forall o l, preserves (fun s => refs o s /\ ofile s = l) m.

Lemma refs_ext o o' s : refs o s -> (forall i, o i = o' i) -> refs o' s.
Proof. intros (A & B & C & D) E. split_and!; auto. intros i Hi. rewrite <-E. auto. Qed.

Lemma quiet_onfs {A} (m : FM (J := J) (U := U) A) : quiet (onfs m).
Proof. intros o l s Hs. unfold onfs, zoom. destruct (m _); exact Hs. Qed.
Lemma quiet_onk {A} (m : M K A) : quiet (onk m).
Proof. intros o l s Hs. unfold onk, zoom. destruct (m _); exact Hs. Qed.

Lemma getf_upd_file s i f j (x : fsst J U) :
  length (ftable s) = NFILE -> (i < NFILE)%nat ->
  getf (SysSt x (alter f i (ftable s)) (ofile s) (cwd s) (kern s)) j = if decide (i = j) then f (getf s j) else getf s j.
Proof.
  intros HL Hi. unfold getf. cbn [ftable]. case_decide as E.
  - subst j. rewrite list_lookup_alter_eq. destruct (lookup_lt_is_Some_2 (ftable s) i) as [y Hy]; [lia|].
    by rewrite Hy.
  - by rewrite list_lookup_alter_ne.
Qed.

(** A store to an open file that moves its count by [d]. *)
Lemma upd_file_refs o i f (d : Z) s : (i < NFILE)%nat -> f_ref (f (getf s i)) = f_ref (getf s i) + d ->
  refs o s -> match upd_file i f s with Ok _ s' => refs (fun j => o j + d * one i j) s' /\ ofile s' = ofile s
                                           /\ getf s' i = f (getf s i) | Stop _ _ => False end.
Proof.
  intros Hi Hf (A & B & C & D). unfold upd_file, upd_ftable, modify. split; [|split; [done|]].
  - split_and!; [cbn [ftable]; by rewrite length_alter|done|done|]. intros j Hj. rewrite getf_upd_file by done.
    cbn [ofile]. unfold one. case_decide as E; [subst j; rewrite Hf, D by done; lia|].
    rewrite D by done. lia.
  - rewrite getf_upd_file by done. by rewrite decide_True.
Qed.

Lemma quiet_upd_file i f : (forall x, f_ref (f x) = f_ref x) -> quiet (upd_file i f).
Proof.
  intros Hf o l s [Hs Hl]. destruct (decide (i < NFILE)%nat) as [Hi|Hi].
  - pose proof (upd_file_refs o i f 0 s Hi) as P. specialize (P ltac:(rewrite Hf; lia) Hs).
    destruct (upd_file i f s); [|done]. destruct P as (P & El & _). split; [|congruence]. eapply refs_ext; [exact P|]. intros j. cbv beta. lia.
  - destruct Hs as (A & B & C & D). unfold upd_file, upd_ftable, modify.
    replace (alter f i (ftable s)) with (ftable s); [by destruct s|].
    apply list_eq. intros j. destruct (decide (i = j)) as [<-|]; [|by rewrite list_lookup_alter_ne].
    rewrite list_lookup_alter_eq, lookup_ge_None_2 by lia. done.
Qed.

Lemma quiet_ret {A} (a : A) : quiet (ret a).
Proof. intros o l'. apply preserves_ret. Qed.
Lemma quiet_bind {A B} (m : SM A) (k : A -> SM B) : quiet m -> (forall a, quiet (k a)) -> quiet (bind m k).
Proof. intros Hm Hk o l'. apply preserves_bind; [apply Hm|intros; apply Hk]. Qed.
Lemma quiet_halt {A} e : quiet (@halt _ A e).
Proof. intros o l'. apply preserves_halt. Qed.
Lemma quiet_get : quiet get.
Proof. intros o l'. apply preserves_get. Qed.
Lemma quiet_gets {A} (f : sst J U K -> A) : quiet (gets f).
Proof. intros o l'. apply preserves_gets. Qed.
Lemma quiet_when b m : quiet m -> quiet (when b m).
Proof. intros Hm o l'. apply preserves_when, Hm. Qed.
Lemma quiet_for_each {A} (l : list A) f : (forall a, quiet (f a)) -> quiet (for_each l f).
Proof. intros Hf o l'. apply preserves_for_each. intros. apply Hf. Qed.
Lemma quiet_cwd ip : quiet (modify (fun s => SysSt (fs s) (ftable s) (ofile s) ip (kern s))).
Proof. intros o l s Hs. exact Hs. Qed.
End refs.

Create HintDb quiet.
#[export] Hint Resolve quiet_onfs quiet_onk quiet_ret quiet_halt quiet_get quiet_gets quiet_when quiet_for_each
  quiet_cwd quiet_upd_file : quiet.

(** Follow the code of a computation that does not touch the counts. *)
Ltac quiet :=
  repeat first
    [ match goal with |- forall _, _ => intro end
    | progress cbv beta zeta
    | solve [eauto with quiet]
    | simple apply quiet_bind
    | simple apply quiet_when
    | match goal with
      | |- quiet (match ?x with _ => _ end) => destruct x
      end ].

Section quiet.
Context {J U K : Type} `{Journal J} `{CopyEnv U} `{SysEnv K}.
Context (de : Z).
#[local] Abbreviation quiet := (quiet (J := J) (U := U) (K := K)).

Lemma argfd_quiet n : quiet (argfd n).
Proof. unfold argfd, argint. quiet. Qed.
Lemma fileread_quiet i addr n : quiet (fileread i addr n).
Proof. unfold fileread, thefile, panic. quiet. Qed.
Lemma filewrite_loop_quiet fuel : forall i addr n k, quiet (filewrite_loop fuel i addr n k).
Proof.
  induction fuel as [|fuel IH]; intros; cbn [filewrite_loop]; [apply quiet_halt|].
  unfold thefile, fs_begin_op, fs_end_op. quiet.
Qed.
Lemma filewrite_quiet i addr n : quiet (filewrite i addr n).
Proof.
  unfold filewrite, thefile, panic. quiet; apply filewrite_loop_quiet.
Qed.
Lemma filestat_quiet i addr stack : quiet (filestat i addr stack).
Proof. unfold filestat, thefile. quiet. Qed.
Lemma create_quiet path type major minor : quiet (create de path type major minor).
Proof. unfold create, path_parent. quiet. Qed.
Lemma make_node_quiet type major minor : quiet (make_node de type major minor).
Proof. unfold make_node, argstr, fs_end_op. quiet; apply create_quiet. Qed.
Lemma fetch_args_quiet k : forall uargv argv, quiet (fetch_args k uargv argv).
Proof. induction k as [|k IH]; intros; cbn [fetch_args]; quiet. Qed.
End quiet.
#[export] Hint Resolve argfd_quiet fileread_quiet filewrite_quiet filestat_quiet create_quiet make_node_quiet
  fetch_args_quiet : quiet.

Section refcounts.
Context {J U K : Type} `{Journal J} `{CopyEnv U} `{SysEnv K}.
Context (de : Z) (others : nat -> Z).
Context (Hothers : forall i, 0 <= others i < 2 ^ 31 - 32).
Implicit Types (s : sst J U K) (o : nat -> Z).
#[local] Abbreviation tri := (tri (J := J) (U := U) (K := K) others).
#[local] Abbreviation safe := (safe (J := J) (U := U) (K := K) others).
#[local] Abbreviation quiet := (quiet (J := J) (U := U) (K := K)).

Lemma tri_bind {A B} o (m : SM A) (k : A -> SM B) (P : A -> sst J U K -> Prop) Q s :
  tri o m P s -> (forall a s', P a s' -> match k a s' with Ok b s'' => Q b s'' | Stop _ s'' => safe s'' end) ->
  tri o (bind m k) Q s.
Proof. intros Hm Hk Hs. specialize (Hm Hs). unfold bind. destruct (m s); [by apply Hk | done]. Qed.

Lemma tri_quiet {A} o (m : SM A) s : (forall i, others i <= o i) -> quiet m ->
  tri o m (fun _ s' => ofile s' = ofile s /\ refs o s') s.
Proof.
  intros Ho Hm Hs. specialize (Hm o (ofile s) s (conj Hs eq_refl)). destruct (m s); [tauto|]. exists o. tauto.
Qed.

(** A quiet computation in front of another. *)
Lemma tri_quiet_bind {A B} o (m : SM A) (k : A -> SM B) Q s : (forall i, others i <= o i) -> quiet m ->
  (forall a s', ofile s' = ofile s -> tri o (k a) Q s') -> tri o (bind m k) Q s.
Proof.
  intros Ho Hm Hk. eapply tri_bind; [by apply tri_quiet|]. intros a s' [E Hs']. by apply Hk.
Qed.

Lemma tri_mono {A} o (m : SM A) (P Q : A -> sst J U K -> Prop) s :
  tri o m P s -> (forall a s', P a s' -> Q a s') -> tri o m Q s.
Proof. intros Hm HPQ Hs. specialize (Hm Hs). destruct (m s); auto. Qed.

Lemma tri_ext {A} o o' (m : SM A) Q s : (forall i, o i = o' i) -> tri o' m Q s -> tri o m Q s.
Proof. intros E Hm Hs. apply Hm. by eapply refs_ext. Qed.

(** What [refs] says of one file. *)
Lemma refs_file o s i : refs o s -> (i < NFILE)%nat ->
  f_ref (getf s i) = o i + fdcount i (ofile s) /\ 0 <= fdcount i (ofile s) <= 16.
Proof.
  intros (A & B & C & D) Hi. split; [by apply D|]. pose proof (fdcount_le i (ofile s)).
  pose proof (fdcount_nonneg i (ofile s)). lia.
Qed.

Lemma filealloc_tri o s : (forall i, others i <= o i) -> tri o filealloc (fun r s' => ofile s' = ofile s /\
  match r with
  | Some i => (i < NFILE)%nat /\ refs (fun j => o j + one i j) s'
  | None => refs o s'
  end) s.
Proof.
  intros Ho Hs. unfold filealloc, bind, get. destruct (List.find _ _) as [i|] eqn:E; [|done].
  apply List.find_some in E as [Hi E]. bool_to_prop. apply list_elem_of_In, elem_of_seq in Hi.
  pose proof (upd_file_refs o i (set_f_ref 1) 1 s ltac:(lia)) as P.
  specialize (P ltac:(cbn [set_f_ref f_ref]; lia) Hs).
  destruct (upd_file i (set_f_ref 1) s); [|done]. destruct P as (P & E' & _). cbn. split; [done|].
  split; [lia|]. eapply refs_ext; [exact P|]. intros j. cbv beta. lia.
Qed.

(** Storing a descriptor moves a reference between the table and the rest. *)
Lemma set_ofile_refs o fd x y s : 0 <= fd < 16 -> ofile s !! Z.to_nat fd = Some x ->
  (forall i, y = Some i -> (i < NFILE)%nat) -> refs o s ->
  match set_ofile fd y s with
  | Ok _ s' => refs (fun j => o j + (if decide (x = Some j) then 1 else 0) - (if decide (y = Some j) then 1 else 0)) s'
      /\ ftable s' = ftable s /\ ofile s' = <[Z.to_nat fd := y]> (ofile s)
  | Stop _ _ => False
  end.
Proof.
  intros Hfd Hx Hy (A & B & C & D). unfold set_ofile, upd_ofile, modify. split; [|done].
  split_and!; [done|cbn [ofile]; by rewrite length_insert| |].
  - cbn [ofile]. intros fd' i Hi. destruct (decide (Z.to_nat fd = fd')) as [E|E].
    + subst fd'. rewrite list_lookup_insert_eq in Hi by lia. injection Hi as ->. by apply Hy.
    + rewrite list_lookup_insert_ne in Hi by done. eauto.
  - intros i Hi. cbn [ofile]. rewrite (fdcount_insert _ _ _ _ _ Hx). unfold getf. cbn [ftable].
    specialize (D i Hi). unfold getf in D. rewrite D. lia.
Qed.

(** fdalloc takes a reference over, or finds no free descriptor. *)
Lemma fdalloc_tri o f s : (forall i, others i <= o i) -> (f < NFILE)%nat -> tri o (fdalloc f) (fun fd s' =>
  (fd = -1 /\ s' = s /\ refs o s' \/
   0 <= fd < 16 /\ ofile s' !! Z.to_nat fd = Some (Some f) /\ ofile s !! Z.to_nat fd = Some None /\
   ofile s' = <[Z.to_nat fd := Some f]> (ofile s) /\ ftable s' = ftable s /\
   refs (fun j => o j - one f j) s')) s.
Proof.
  intros Ho Hf Hs. unfold fdalloc, bind, get. destruct (List.find _ _) as [fd|] eqn:E; [|by left].
  apply List.find_some in E as [Hi E]. apply list_elem_of_In, elem_of_seqZ in Hi. apply bool_decide_eq_true in E.
  destruct (lookup_lt_is_Some_2 (ofile s) (Z.to_nat fd)) as [x Hx]; [destruct Hs as (_ & -> & _); lia|].
  rewrite Hx in E. cbn in E. subst x.
  pose proof (set_ofile_refs o fd None (Some f) s ltac:(lia) Hx ltac:(congruence) Hs) as P.
  destruct (set_ofile fd (Some f) s); [|done]. destruct P as (P & E1 & E2). cbn. right.
  split_and!; try done; [lia|lia| |].
  - rewrite E2, list_lookup_insert_eq; [done|]. destruct Hs as (_ & -> & _). lia.
  - eapply refs_ext; [exact P|]. intros j. unfold one. cbv beta.
    destruct (decide (None = Some j)); [done|]. destruct (decide (Some f = Some j)), (decide (f = j)); congruence || lia.
Qed.

Lemma filedup_tri o i s : (i < NFILE)%nat -> 1 <= f_ref (getf s i) < 2 ^ 31 - 1 ->
  tri o (filedup i) (fun _ s' => ofile s' = ofile s /\ refs (fun j => o j + one i j) s') s.
Proof.
  intros Hi Hr Hs. unfold filedup, thefile, gets, bind. rewrite (proj2 (Z.ltb_ge _ _)) by lia.
  set (r := i32 _). assert (r = f_ref (getf s i) + 1) as -> by (subst r; apply i32_id; lia).
  pose proof (upd_file_refs o i (set_f_ref (f_ref (getf s i) + 1)) 1 s Hi) as P.
  specialize (P ltac:(done) Hs). destruct (upd_file _ _ s); [|done]. destruct P as (P & E & _). cbn.
  split; [done|]. eapply refs_ext; [exact P|]. intros j. cbv beta. lia.
Qed.

Lemma upd_file_tri o i f (d : Z) s : (i < NFILE)%nat -> f_ref (f (getf s i)) = f_ref (getf s i) + d ->
  tri o (upd_file i f) (fun _ s' => (ofile s' = ofile s /\ getf s' i = f (getf s i)) /\
                                    refs (fun j => o j + d * one i j) s') s.
Proof.
  intros Hi Hf Hs. pose proof (upd_file_refs o i f d s Hi Hf Hs) as P.
  destruct (upd_file i f s); [|done]. destruct P as (? & ? & ?). done.
Qed.

Lemma tri_thefile {A} o i (k : file -> SM A) Q s : tri o (k (getf s i)) Q s -> tri o (bind (thefile i) k) Q s.
Proof. done. Qed.

(** fileclose gives up a reference the system call holds. *)
Lemma fileclose_tri o i s : (forall j, others j + one i j <= o j) -> (i < NFILE)%nat ->
  tri o (fileclose i) (fun _ s' => ofile s' = ofile s /\ refs (fun j => o j - one i j) s') s.
Proof.
  intros Ho Hi Hs. revert Hs. generalize (fun Hs => refs_file o s i Hs Hi). intros Hr Hs.
  destruct (Hr Hs) as [Hr' Hc]. revert Hs. pose proof (Ho i) as Hoi. unfold one in Hoi.
  rewrite decide_True in Hoi by done. pose proof (Hothers i) as Hoth.
  unfold fileclose. apply tri_thefile. rewrite (proj2 (Z.ltb_ge _ _)) by lia.
  eapply tri_bind; [apply (upd_file_tri _ _ _ (-1)); [done|cbn [set_f_ref f_ref]; lia]|].
  intros [] s1 [[E1 G1] P1]. apply (refs_ext _ (fun j => o j - one i j)) in P1; [|intros; cbv beta; lia].
  destruct (Z.ltb_spec 0 (f_ref (getf s i) - 1)); [done|]. revert P1. rewrite <-E1.
  eapply tri_bind; [apply (upd_file_tri _ _ _ 0); [done|rewrite G1; cbn [set_f_ref f_ref]; lia]|].
  intros [] s2 [[E2 G2] P2]. apply (refs_ext _ (fun j => o j - one i j)) in P2; [|intros; cbv beta; lia].
  revert P2. rewrite <-E2. apply tri_quiet; [intros j; specialize (Ho j); lia|].
  unfold fs_begin_op, fs_end_op. quiet.
Qed.

Lemma argfd_spec n s : exists r, argfd (J := J) (U := U) n s = Ok r s /\
  forall fd f, r = Some (fd, f) -> 0 <= fd < 16 /\ ofile s !! Z.to_nat fd = Some (Some f).
Proof.
  unfold argfd, argint, gets, get, bind. set (fd := i32 _). destruct (_ || _) eqn:E; [by eexists; split|].
  bool_to_prop. destruct (ofile s !! Z.to_nat fd) as [[f|]|] eqn:Ef; cbn; eexists; (split; [reflexivity|]); try done.
  intros ? ? [= <- <-]. auto with lia.
Qed.

Lemma tri_argfd {A} o n (k : option (Z * nat) -> SM A) Q s :
  (forall r, (forall fd f, r = Some (fd, f) -> 0 <= fd < 16 /\ ofile s !! Z.to_nat fd = Some (Some f)) ->
     tri o (k r) Q s) -> tri o (bind (argfd n) k) Q s.
Proof.
  intros Hk Hs. destruct (argfd_spec n s) as (r & E & Hr). rewrite (bind_run _ _ _ _ _ E). by apply Hk.
Qed.

Lemma fdcount_pos i l fd : l !! fd = Some (Some i) -> 1 <= fdcount i l.
Proof.
  intros Hl. pose proof (fdcount_insert i l fd _ None Hl) as E. rewrite decide_True, decide_False in E by done.
  pose proof (fdcount_nonneg i (<[fd := None]> l)). lia.
Qed.

Definition kept {A} : A -> sst J U K -> Prop := fun _ s' => refs others s'.

Lemma kept_quiet {A} (m : SM A) s : quiet m -> tri others m kept s.
Proof. intros Hm. eapply tri_mono; [by apply tri_quiet|]. by intros a s' [_ Hs']. Qed.

Lemma tri_ret {A} o (a : A) (Q : A -> sst J U K -> Prop) s : (refs o s -> Q a s) -> tri o (ret a) Q s.
Proof. intros HQ Hs. by apply HQ. Qed.

Lemma sys_dup_tri s : tri others sys_dup kept s.
Proof.
  unfold sys_dup. apply tri_argfd. intros [[fd f]|] Hr; [|by apply kept_quiet, quiet_ret].
  destruct (Hr _ _ eq_refl) as [Hfd Hl]. intros Hs. pose proof Hs as (_ & _ & Hlt & _). apply Hlt in Hl as Hf.
  destruct (refs_file _ _ f Hs Hf) as [Hc Hc']. pose proof (fdcount_pos _ _ _ Hl). pose proof (Hothers f).
  revert Hs. eapply tri_bind; [by apply fdalloc_tri|]. intros r s1 [(-> & -> & P)|(Hr0 & Hl1 & Hl0 & Eo & Et & P)].
  - exact P.
  - rewrite (proj2 (Z.ltb_ge _ _)) by lia. revert P. eapply tri_bind.
    + apply filedup_tri; [done|]. unfold getf in *. rewrite Et. lia.
    + intros a s2 [_ P2]. cbn. eapply refs_ext; [exact P2|]. intros j. cbv beta. lia.
Qed.

Lemma set_ofile_tri o fd f s : 0 <= fd < 16 -> ofile s !! Z.to_nat fd = Some (Some f) ->
  tri o (set_ofile fd None) (fun _ s' => ofile s' = <[Z.to_nat fd := None]> (ofile s) /\
                                         refs (fun j => o j + one f j) s') s.
Proof.
  intros Hfd Hl Hs. pose proof (set_ofile_refs o fd _ None s Hfd Hl ltac:(congruence) Hs) as P.
  destruct (set_ofile fd None s); [|done]. destruct P as (P & _ & E). split; [done|].
  eapply refs_ext; [exact P|]. intros j. unfold one. cbv beta.
  repeat case_decide; simplify_eq; lia || congruence.
Qed.

Lemma sys_close_tri s : tri others sys_close kept s.
Proof.
  unfold sys_close. apply tri_argfd. intros [[fd f]|] Hr; [|by apply kept_quiet, quiet_ret].
  destruct (Hr _ _ eq_refl) as [Hfd Hl]. intros Hs. pose proof Hs as (_ & _ & Hlt & _). apply Hlt in Hl as Hf.
  revert Hs. eapply tri_bind; [by apply set_ofile_tri|]. intros [] s1 [_ P]. revert P.
  eapply tri_bind; [apply fileclose_tri; [intros; cbv beta; lia|done]|]. intros [] s2 [_ P]. cbn.
  eapply refs_ext; [exact P|]. intros j. cbv beta. lia.
Qed.

Lemma one_nonneg i j : 0 <= one i j.
Proof. unfold one. case_decide; lia. Qed.

Lemma open_inode_tri ip omode s : tri others (open_inode ip omode) kept s.
Proof.
  unfold open_inode. apply tri_quiet_bind; [done|quiet|]. intros i s1 _.
  assert (forall s', tri others (onfs (iunlockput ip) ;; fs_end_op ;; ret (-1)) kept s') as Hbad.
  { intros s'. apply kept_quiet. unfold fs_end_op. quiet. }
  destruct (_ && _); [apply Hbad|]. eapply tri_bind; [by apply filealloc_tri|].
  intros [f|] s2 [Eo P]; [|revert P; apply Hbad]. destruct P as [Hf P]. revert P.
  eapply tri_bind; [apply fdalloc_tri; [|done]|].
  { intros j. pose proof (one_nonneg f j). cbv beta. lia. }
  intros fd s3 [(-> & -> & P)|(Hfd & Hl & _ & _ & _ & P)].
  - change (-1 <? 0) with true. cbv iota. revert P.
    eapply tri_bind; [apply fileclose_tri; [intros; cbv beta; lia|done]|].
    intros [] s4 [_ P]. apply (refs_ext _ others) in P; [|intros; cbv beta; lia]. revert P. apply Hbad.
  - rewrite (proj2 (Z.ltb_ge _ _)) by lia. apply (refs_ext _ others) in P; [|intros; cbv beta; lia]. revert P.
    apply kept_quiet. unfold fs_end_op. quiet. apply quiet_upd_file. intros x. by case_match.
Qed.

Lemma sys_open_tri s : tri others (sys_open de) kept s.
Proof.
  unfold sys_open, argint, argstr. apply tri_quiet_bind; [done|quiet|]. intros omode s1 _.
  apply tri_quiet_bind; [done|quiet|]. intros [path|] s2 _; [|by apply kept_quiet, quiet_ret].
  apply tri_quiet_bind; [done|unfold fs_begin_op; quiet|]. intros [] s3 _.
  destruct (nz _); (apply tri_quiet_bind; [done|unfold path_inode; quiet|]);
    intros [ip|] s4 _; try apply open_inode_tri; try (apply kept_quiet; unfold fs_end_op; quiet; fail).
  apply tri_quiet_bind; [done|quiet|]. intros [] s5 _. apply tri_quiet_bind; [done|quiet|]. intros i s6 _.
  destruct (_ && _); [apply kept_quiet; unfold fs_end_op; quiet | apply open_inode_tri].
Qed.

Lemma tri_ret_bind {A B} o (a : A) (k : A -> SM B) Q s : tri o (k a) Q s -> tri o (bind (ret a) k) Q s.
Proof. done. Qed.

(** fileclose in front of the rest of a system call. *)
Lemma tri_fileclose {B} o o' i (k : unit -> SM B) Q s :
  (i < NFILE)%nat -> (forall j, o j = o' j + one i j) -> (forall j, others j <= o' j) ->
  (forall a s', ofile s' = ofile s -> tri o' (k a) Q s') -> tri o (bind (fileclose i) k) Q s.
Proof.
  intros Hi E Ho Hk. eapply tri_bind; [apply fileclose_tri; [|done]|].
  - intros j. rewrite E. specialize (Ho j). lia.
  - intros a s' [Eo P]. apply (Hk a s' Eo). eapply refs_ext; [exact P|]. intros j. cbv beta. rewrite E. lia.
Qed.

Definition with2 (f0 f1 : nat) : nat -> Z := fun j => others j + one f1 j + one f0 j.
Definition with1 (f : nat) : nat -> Z := fun j => others j + one f j.
Lemma with2_ge f0 f1 j : others j <= with2 f0 f1 j.
Proof. unfold with2. pose proof (one_nonneg f0 j). pose proof (one_nonneg f1 j). lia. Qed.
Lemma with1_ge f j : others j <= with1 f j.
Proof. unfold with1. pose proof (one_nonneg f j). lia. Qed.
#[local] Hint Resolve with1_ge with2_ge : core.

(** Closing the two ends of a pipe that could not be handed out. *)
Lemma close_both_tri {A} f0 f1 (r : A) s : (f0 < NFILE)%nat -> (f1 < NFILE)%nat ->
  tri (with2 f0 f1) (fileclose f0 ;; fileclose f1 ;; ret r) kept s.
Proof.
  intros Hf0 Hf1. apply (tri_fileclose _ (with1 f1)); auto. intros [] s1 _.
  apply (tri_fileclose _ others); auto; [done|]. intros [] s2 _. by apply kept_quiet, quiet_ret.
Qed.

Lemma pipealloc_tri s : tri others pipealloc (fun r s' =>
  match r with
  | Some (f0, f1) => (f0 < NFILE)%nat /\ (f1 < NFILE)%nat /\ refs (with2 f0 f1) s'
  | None => refs others s'
  end) s.
Proof.
  unfold pipealloc. cbv zeta. eapply tri_bind; [by apply filealloc_tri|].
  intros [f0|] s1 [_ P]; [|exact P]. destruct P as [Hf0 P]. revert P.
  eapply tri_bind; [apply filealloc_tri; intros; apply with1_ge|].
  intros [f1|] s2 [_ P].
  - destruct P as [Hf1 P]. apply (refs_ext _ (with2 f0 f1)) in P; [|intros; unfold with2; lia]. revert P.
    apply tri_quiet_bind; [auto|quiet|].
    intros pi s3 _. destruct (pi =? 0).
    + apply tri_ret_bind, (tri_fileclose _ (with1 f1)); auto. intros [] s4 _.
      apply (tri_fileclose _ others); auto; [done|]. intros [] s5 _. by apply tri_ret.
    + apply tri_quiet_bind; [auto|quiet|]. intros [] s4 _.
      apply tri_quiet_bind; [auto|quiet|]. intros [] s5 _.
      apply tri_quiet_bind; [auto|quiet|]. intros [] s6 _. apply tri_ret. auto.
  - revert P. apply tri_ret_bind, (tri_fileclose _ others); auto; [done|]. intros [] s3 _.
    apply tri_ret_bind. by apply tri_ret.
Qed.

(** The descriptors sys_pipe stores and takes back. *)
Lemma tri_take_fd {B} o o' fd f (k : unit -> SM B) Q s :
  0 <= fd < 16 -> ofile s !! Z.to_nat fd = Some (Some f) -> (forall j, o' j = o j + one f j) ->
  (forall a s', ofile s' = <[Z.to_nat fd := None]> (ofile s) -> tri o' (k a) Q s') ->
  tri o (bind (set_ofile fd None) k) Q s.
Proof.
  intros Hfd Hl E Hk. eapply tri_bind; [by apply set_ofile_tri|]. intros a s' [Eo P]. apply (Hk a s' Eo).
  eapply refs_ext; [exact P|]. intros j. by rewrite E.
Qed.

Lemma sys_pipe_tri s : tri others sys_pipe kept s.
Proof.
  unfold sys_pipe, argaddr, put_int. apply tri_quiet_bind; [done|quiet|]. intros fdarray s1 _.
  eapply tri_bind; [apply pipealloc_tri|]. intros [[f0 f1]|] s2 P; [|by apply (kept_quiet (ret (-1))), P; apply quiet_ret].
  destruct P as (Hf0 & Hf1 & P). revert P. eapply tri_bind; [by apply fdalloc_tri|].
  intros fd0 s3 [(-> & -> & P)|(Hfd0 & Hl0 & _ & Eo0 & _ & P)].
  - apply (tri_ret_bind (with2 f0 f1) (-1)); [|exact P]. change (-1 <? 0) with true. cbn [orb].
    change (0 <=? -1) with false. apply tri_ret_bind. by apply close_both_tri.
  - apply (refs_ext _ (with1 f1)) in P; [|intros j; unfold with1, with2; lia]. revert P.
    rewrite (proj2 (Z.ltb_ge fd0 0)) by lia. cbn [orb]. eapply tri_bind; [by apply fdalloc_tri|].
    intros fd1 s4 [(-> & -> & P)|(Hfd1 & Hl1 & Hn1 & Eo1 & _ & P)].
    + revert P. change (-1 <? 0) with true. cbv iota. rewrite (proj2 (Z.leb_le 0 fd0)) by lia. cbn [when].
      apply (tri_take_fd _ (with2 f0 f1) _ f0); [done|done|intros; unfold with1, with2; lia|].
      intros [] s5 _. by apply close_both_tri.
    + apply (refs_ext _ others) in P; [|intros j; unfold with1; lia]. revert P.
      rewrite (proj2 (Z.ltb_ge fd1 0)) by lia. 
      apply tri_quiet_bind; [done|quiet|]. intros r0 s5 E5.
      apply tri_quiet_bind; [done|quiet|]. intros r1 s6 E6.
      destruct (_ || _); [|by apply kept_quiet, quiet_ret].
      assert (Z.to_nat fd0 <> Z.to_nat fd1) as Hne by (intros E; rewrite <-E, Hl0 in Hn1; done).
      apply (tri_take_fd _ (with1 f0) _ f0); [done| |done|].
      { by rewrite E6, E5, Eo1, list_lookup_insert_ne by done. }
      intros [] s7 E7. apply (tri_take_fd _ (with2 f0 f1) _ f1); [done| |intros; unfold with1, with2; lia|].
      { by rewrite E7, list_lookup_insert_ne, E6, E5. }
      intros [] s8 _. by apply close_both_tri.
Qed.

Lemma do_call_tri c s : tri others (do_call de c) kept s.
Proof.
  destruct c; cbn [do_call]; auto using sys_dup_tri, sys_close_tri, sys_open_tri, sys_pipe_tri; apply kept_quiet.
  - unfold sys_read, argaddr, argint. quiet.
  - unfold sys_write, argaddr, argint. quiet.
  - unfold sys_fstat, argaddr. quiet.
  - unfold sys_link, argstr, path_inode, path_parent, fs_begin_op, fs_end_op. quiet.
  - unfold sys_unlink, argstr, path_parent, fs_begin_op, fs_end_op, panic. quiet.
  - unfold sys_mkdir, fs_begin_op. quiet.
  - unfold sys_mknod, fs_begin_op, argint. quiet.
  - unfold sys_chdir, argstr, path_inode, fs_begin_op, fs_end_op. quiet.
  - unfold sys_exec, argstr, argaddr. quiet.
Qed.

Lemma do_calls_tri cs : forall s, tri others (do_calls de cs) kept s.
Proof.
  induction cs as [|[c args] cs IH]; intros s; [by apply tri_ret|].
  unfold do_calls. cbn [for_each]. apply (tri_bind _ _ _ kept); [|intros [] s1 P; exact (IH s1 P)].
  apply tri_quiet_bind; [done|quiet|]. intros [] s1 _.
  eapply tri_bind; [apply do_call_tri|]. intros r s2 P. exact P.
Qed.
End refcounts.

(** ** The property *)

(** C27: Open files are counted exactly, whatever system calls a process
    makes, with whatever arguments, and on every error path: if before the
    calls the count of each file is the number of the process's descriptors
    that name it plus the references the other processes hold, then so it is
    after them; and if a call stops in the middle (asleep, or in a panic of
    the file system) no reference has been lost: the count of a file is at
    least what the descriptors and the others need, so no file in use is ever
    on the free list of the table. A write of any count, also a negative one,
    is never cut off by the bound of its loop ([File.filewrite_fuel_enough]). *)
Theorem open_files_counted {J U K} `{Journal J} `{CopyEnv U} `{SysEnv K} de (others : nat -> Z)
  (cs : list (call * (K -> K))) (s : sst J U K) :
  (forall i, 0 <= others i < 2 ^ 31 - 32) -> refs others s ->
  match do_calls de cs s with
  | Ok _ s' => refs others s' /\
      forall i, (i < NFILE)%nat -> (f_ref (getf s' i) = 0 <->
        others i = 0 /\ forall fd, ofile s' !! fd <> Some (Some i))
  | Stop _ s' => exists o, (forall i, others i <= o i) /\ refs o s' /\
      forall i fd, ofile s' !! fd = Some (Some i) -> 0 < f_ref (getf s' i)
  end.
Proof.
  intros Ho Hs. pose proof (do_calls_tri de others Ho cs s Hs) as P.
  destruct (do_calls de cs s) as [a s'|e s'].
  - split; [exact P|]. intros i Hi. destruct (refs_file _ _ i P Hi) as [E Hc]. specialize (Ho i). split.
    + intros E0. split; [lia|]. intros fd Hfd. apply fdcount_pos in Hfd. lia.
    + intros [E0 Hno]. rewrite E, E0. unfold fdcount.
      destruct (filter _ _) as [|x l] eqn:Ef; [done|]. exfalso.
      assert (x ∈ filter (fun x => x = Some i) (ofile s')) as Hx by (rewrite Ef; left).
      apply list_elem_of_filter in Hx as [-> Hx]. apply list_elem_of_lookup in Hx as [fd Hfd]. by apply (Hno fd).
  - destruct P as (o & Hge & P). exists o. split_and!; [done|done|]. intros i fd Hfd.
    pose proof P as (_ & _ & Hlt & _). apply Hlt in Hfd as Hi. destruct (refs_file _ _ i P Hi) as [E Hc].
    apply fdcount_pos in Hfd. specialize (Hge i). specialize (Ho i). lia.
Qed.

(** A kernel whose pipes hold nothing: the arguments of the next call. *)
#[export] Instance args_env : SysEnv (list Z) := {
  se_pipe_init pi := ret tt;
  se_pipeclose pi w := ret tt;
  se_piperead pi addr n := ret 0;
  se_pipewrite pi addr n := ret n;
  se_dev_read _ := None;
  se_dev_write _ := Some (fun addr n => ret n);
  se_arg k n := default 0 (k !! Z.to_nat n);
  se_argstr n max := ret None;
  se_fetchaddr a := ret None;
  se_kalloc := ret 4096;
  se_kfree a := ret tt;
  se_fetchstr a page := ret false;
  se_exec path argv := ret (-1);
}.

Definition demo_sys : sst flat mems (list Z) :=
  SysSt (FsSt demo_sb [] (Flat ∅ ∅) (Mems (replicate 16 0) ∅) 1)
    (replicate NFILE zero_file) (replicate 16 None) 0 [].

(** pipe(), dup of the read end, close of the read end, and two bad calls *)
Definition demo_calls : list (call * (list Z -> list Z)) :=
  [(Cpipe, fun _ => [8]); (Cdup, fun _ => [0]); (Cclose, fun _ => [0]); (Cclose, fun _ => [0]); (Cdup, fun _ => [99])].

Lemma open_files_counted_witness : exists s',
  do_calls 4096 demo_calls demo_sys = Ok tt s' /\ refs (fun _ => 0) s' /\
  take 3 (ofile s') = [None; Some 1%nat; Some 0%nat] /\ map f_ref (take 3 (ftable s')) = [1; 1; 0].
Proof.
  pose proof (open_files_counted 4096 (fun _ => 0) demo_calls demo_sys ltac:(intros; split; [done|reflexivity])) as Hw.
  assert (refs (fun _ => 0) demo_sys) as Hd.
  { split_and!; [reflexivity|reflexivity| |].
    - intros fd i Hi. cbn [demo_sys ofile] in Hi. apply lookup_replicate in Hi as [[=] _].
    - intros i Hi. unfold getf. cbn [demo_sys ftable ofile]. by rewrite lookup_replicate_2. }
  assert (match do_calls 4096 demo_calls demo_sys with
          | Ok _ x => (take 3 (ofile x), map f_ref (take 3 (ftable x)))
          | Stop _ _ => ([], [])
          end = ([None; Some 1%nat; Some 0%nat], [1; 1; 0])) as HV by (vm_compute; reflexivity).
  specialize (Hw Hd). destruct (do_calls 4096 demo_calls demo_sys) as [[] s'|e s']; [|discriminate].
  apply pair_equal_spec in HV as [HV1 HV2]. exists s'. split; [done|]. split; [apply Hw | split; [exact HV1 | exact HV2]].
Defined.
