(* ===== verification/Shell.v ===== *)
(** * user/sh.c: the shell's lexer and parser

    The command line is the buffer of main, the structs cmd are on a heap of
    nodes: a char * is an index into the buffer, a struct cmd * is the position
    of a node plus one, 0 being null. parseexec keeps filling the argv of a node
    that redirections already point to, as the code does. [malloc_ok n] tells
    whether the (n+1)-th call of malloc succeeds; sh does not test it and
    memset then writes through a null pointer. The text of a panic goes to
    descriptor 2, of which [out] is what was written.

    The theorems: the parser always ends, and it reads back every command from
    every way to print it. *)

From stdpp Require Import base gmap list strings.
From Stdlib Require Import ZArith Lia.
From Stdlib Require String Ascii.
From S2P Require Import Prelude Sysfile.

(** ** Commands *)

Definition MAXARGS : nat := 10.

Inductive cmd : Type :=
  | EXEC (argv eargv : list (option nat))
  | REDIR (c : nat) (file efile : nat) (mode fd : Z)
  | PIPE (left right : nat)
  | LIST (left right : nat)
  | BACK (c : nat).

Record shst : Type := ShSt {
  buf : list Z;
  ps : nat;               (* *ps of the parsing functions *)
  heap : list cmd;
  out : list Z;
}.

Definition bytes (s : string) : list Z := map (fun a => Z.of_nat (Ascii.nat_of_ascii a)) (String.list_ascii_of_string s).

Definition whitespace : list Z := [32; 9; 13; 10; 11].
Definition symbols : list Z := bytes "<|>&;()".
(** strchr(s, c) is not null: it never finds the NUL. *)
Definition strchr (s : list Z) (c : Z) : bool := existsb (Z.eqb c) s.

Definition char_at (b : list Z) (i : nat) : Z := default 0 (b !! i).

Definition set_ps (s : nat) (st : shst) : shst := ShSt (buf st) s (heap st) (out st).
Definition set_heap (h : list cmd) (st : shst) : shst := ShSt (buf st) (ps st) h (out st).
Definition emit (bs : list Z) : M shst unit := modify (fun st => ShSt (buf st) (ps st) (heap st) (out st ++ bs)).

(** panic of sh.c: the message on descriptor 2, and exit. *)
Definition sh_panic {A} (msg : string) : M shst A := emit (bytes msg ++ [10]) ;; panic msg.

(** The while loops over the characters that satisfy [p], with k = es - s. *)
Fixpoint skip_while (p : Z -> bool) (b : list Z) (k s : nat) : nat :=
  match k with
  | O => s
  | S k => if p (char_at b s) then skip_while p b k (S s) else s
  end.
Definition skip_ws (b : list Z) (s es : nat) : nat := skip_while (strchr whitespace) b (es - s) s.
Definition word_char (c : Z) : bool := negb (strchr whitespace c) && negb (strchr symbols c).

(** The token, and where it begins and ends. *)
Definition gettoken (es : nat) : M shst (Z * nat * nat) := fun st =>
  let b := buf st in
  let q := skip_ws b (ps st) es in
  let c := char_at b q in
  let '(tok, s) :=
    if c =? 0 then (c, q)
    else if strchr (bytes "|();&<") c then (c, S q)
    else if c =? 62 then if char_at b (S q) =? 62 then (43, S (S q)) else (c, S q)
    else (97, skip_while word_char b (es - q) q) in
  Ok (tok, q, s) (set_ps (skip_ws b s es) st).

Definition peek (es : nat) (toks : list Z) : M shst bool := fun st =>
  let s := skip_ws (buf st) (ps st) es in
  let c := char_at (buf st) s in
  Ok (nz c && strchr toks c) (set_ps s st).

(** ** Constructors *)

Definition node (h : list cmd) (p : nat) : option cmd :=
  match p with O => None | S i => h !! i end.
Definition set_node (p : nat) (c : cmd) (h : list cmd) : list cmd :=
  match p with O => h | S i => <[i := c]> h end.

Section shell.
Context (malloc_ok : nat -> bool).

Definition alloc (c : cmd) : M shst nat := fun st =>
  if malloc_ok (length (heap st)) then Ok (S (length (heap st))) (set_heap (heap st ++ [c]) st)
  else Stop (Fault "memset of a null pointer") st.

Definition execcmd : M shst nat := alloc (EXEC (replicate MAXARGS None) (replicate MAXARGS None)).
Definition redircmd (c file efile : nat) (mode fd : Z) : M shst nat := alloc (REDIR c file efile mode fd).
Definition pipecmd (lc rc : nat) : M shst nat := alloc (PIPE lc rc).
Definition listcmd (lc rc : nat) : M shst nat := alloc (LIST lc rc).
Definition backcmd (c : nat) : M shst nat := alloc (BACK c).

(** cmd->argv[argc] = q; cmd->eargv[argc] = eq *)
Definition set_arg (c argc : nat) (q eq : option nat) : M shst unit :=
  modify (fun st => match node (heap st) c with
                    | Some (EXEC argv eargv) =>
                        set_heap (set_node c (EXEC (<[argc := q]> argv) (<[argc := eq]> eargv)) (heap st)) st
                    | _ => st
                    end).

(** ** The parser *)

Fixpoint parseredirs (fuel es : nat) (c : nat) : M shst nat :=
  match fuel with
  | O => halt NoFuel
  | S fuel =>
      let* more := peek es (bytes "<>") in
      if more : bool then
        let* x := gettoken es in
        let '(tok, _, _) := x in
        let* y := gettoken es in
        let '(tok2, q, eq) := y in
        if negb (tok2 =? 97) then sh_panic "missing file for redirection"
        else
          let* c :=
            if tok =? 60 then redircmd c q eq O_RDONLY 0
            else if tok =? 62 then redircmd c q eq (Z.lor (Z.lor O_WRONLY O_CREATE) O_TRUNC) 1
            else if tok =? 43 then redircmd c q eq (Z.lor O_WRONLY O_CREATE) 1
            else ret c in
          parseredirs fuel es c
      else ret c
  end.

(** The loop of parseexec: [c] is the node it fills, [r] what it returns. *)
Fixpoint parseargs (fuel es : nat) (c r argc : nat) : M shst nat :=
  match fuel with
  | O => halt NoFuel
  | S fuel =>
      let done := set_arg c argc None None ;; ret r in
      let* stop := peek es (bytes "|)&;") in
      if stop : bool then done
      else
        let* x := gettoken es in
        let '(tok, q, eq) := x in
        if tok =? 0 then done
        else if negb (tok =? 97) then sh_panic "syntax"
        else
          set_arg c argc (Some q) (Some eq) ;;
          if (MAXARGS <=? S argc)%nat then sh_panic "too many args"
          else
            let* r := parseredirs (S es) es r in
            parseargs fuel es c r (S argc)
  end.

(** The while loop of parseline. *)
Fixpoint parseback (fuel es : nat) (c : nat) : M shst nat :=
  match fuel with
  | O => halt NoFuel
  | S fuel =>
      let* more := peek es (bytes "&") in
      if more : bool then
        gettoken es ;;
        let* c := backcmd c in
        parseback fuel es c
      else ret c
  end.

Fixpoint parseline (fuel es : nat) : M shst nat :=
  match fuel with
  | O => halt NoFuel
  | S fuel =>
      let* c := parsepipe fuel es in
      let* c := parseback (S es) es c in
      let* more := peek es (bytes ";") in
      if more : bool then
        gettoken es ;;
        let* rc := parseline fuel es in
        listcmd c rc
      else ret c
  end
with parsepipe (fuel es : nat) : M shst nat :=
  match fuel with
  | O => halt NoFuel
  | S fuel =>
      let* c := parseexec fuel es in
      let* more := peek es (bytes "|") in
      if more : bool then
        gettoken es ;;
        let* rc := parsepipe fuel es in
        pipecmd c rc
      else ret c
  end
with parseexec (fuel es : nat) : M shst nat :=
  match fuel with
  | O => halt NoFuel
  | S fuel =>
      let* block := peek es (bytes "(") in
      if block : bool then parseblock fuel es
      else
        let* c := execcmd in
        let* r := parseredirs (S es) es c in
        parseargs (S es) es c r 0
  end
with parseblock (fuel es : nat) : M shst nat :=
  match fuel with
  | O => halt NoFuel
  | S fuel =>
      let* block := peek es (bytes "(") in
      if negb block then sh_panic "parseblock"
      else
        gettoken es ;;
        let* c := parseline fuel es in
        let* closed := peek es (bytes ")") in
        if negb closed then sh_panic "syntax - missing )"
        else
          gettoken es ;;
          parseredirs (S es) es c
  end.

(** *p = 0 *)
Definition put_nul (p : nat) : M shst unit :=
  modify (fun st => ShSt (<[p := 0]> (buf st)) (ps st) (heap st) (out st)).

(** The loop over the arguments of an EXEC node. *)
Fixpoint nul_args (argv eargv : list (option nat)) : M shst unit :=
  match argv, eargv with
  | Some _ :: argv, Some e :: eargv => put_nul e ;; nul_args argv eargv
  | Some _ :: _, None :: _ => fault "null eargv"
  | _, _ => ret tt
  end.

Fixpoint nulterminate (fuel : nat) (p : nat) : M shst nat :=
  match fuel with
  | O => halt NoFuel
  | S fuel =>
      if (p =? 0)%nat then ret 0%nat
      else
        let* st := get in
        match node (heap st) p with
        | Some (EXEC argv eargv) => nul_args argv eargv
        | Some (REDIR c _ efile _ _) => nulterminate fuel c ;; put_nul efile
        | Some (PIPE lc rc) => nulterminate fuel lc ;; nulterminate fuel rc ;; ret tt
        | Some (LIST lc rc) => nulterminate fuel lc ;; nulterminate fuel rc ;; ret tt
        | Some (BACK c) => nulterminate fuel c ;; ret tt
        | None => fault "wild struct cmd *"
        end ;;
        ret p
  end.

(** strlen *)
Fixpoint str_len (b : list Z) : nat :=
  match b with
  | c :: b => if c =? 0 then O else S (str_len b)
  | [] => O
  end.
(** The C string at [p]. *)
Definition str_at (b : list Z) (p : nat) : list Z := take (str_len (drop p b)) (drop p b).

(** parsecmd(s) with s the whole buffer: [4 * es + 8] calls of the parsing
    functions can be active at once, and the nodes are a tree. *)
Definition parsecmd : M shst nat :=
  let* st := get in
  let es := str_len (buf st) in
  modify (set_ps 0) ;;
  let* c := parseline (4 * es + 8) es in
  peek es [] ;;
  let* st := get in
  if negb (ps st =? es)%nat then
    emit (bytes "leftovers: " ++ str_at (buf st) (ps st) ++ [10]) ;;
    sh_panic "syntax"
  else
    let* st := get in
    nulterminate (S (length (heap st))) c ;;
    ret c.
End shell.

(** ** Command trees and their print *)

Inductive redir : Type := RIn | ROut | RApp.
Definition redir_mode (r : redir) : Z :=
  match r with
  | RIn => O_RDONLY
  | ROut => Z.lor (Z.lor O_WRONLY O_CREATE) O_TRUNC
  | RApp => Z.lor O_WRONLY O_CREATE
  end.
Definition redir_fd (r : redir) : Z := match r with RIn => 0 | _ => 1 end.

Inductive tree : Type :=
  | TExec (args : list (list Z))
  | TRedir (t : tree) (r : redir) (file : list Z)
  | TPipe (l r : tree)
  | TList (l r : tree)
  | TBack (t : tree).

(** The words of a tree can be printed, and it has few enough of them. *)
Definition word_ok (w : list Z) : Prop := w <> [] /\ forall c, c ∈ w -> c <> 0 /\ word_char c = true.
Fixpoint tree_ok (t : tree) : Prop :=
  match t with
  | TExec args => (length args < MAXARGS)%nat /\ forall w, w ∈ args -> word_ok w
  | TRedir t _ file => tree_ok t /\ word_ok file
  | TPipe l r | TList l r => tree_ok l /\ tree_ok r
  | TBack t => tree_ok t
  end.

Inductive token : Type := TkWord (w : list Z) | TkSym (c : Z) | TkApp.

Definition tk_bytes (t : token) : list Z :=
  match t with TkWord w => w | TkSym c => [c] | TkApp => [62; 62] end.
Definition tk_code (t : token) : Z :=
  match t with TkWord _ => 97 | TkSym c => c | TkApp => 43 end.
Definition tk_ok (t : token) : Prop :=
  match t with
  | TkWord w => word_ok w
  | TkSym c => strchr symbols c = true
  | TkApp => True
  end.

(** What may follow the token: a word ends at a separator, > is not followed
    by >. *)
Definition tk_sep (t : token) (rest : list Z) : Prop :=
  match t with
  | TkWord _ => rest = [] \/ exists c r, rest = c :: r /\ word_char c = false
  | TkSym c => c = 62 -> forall r, rest <> 62 :: r
  | TkApp => True
  end.

(** [line] is the tokens with any whitespace between them. *)
Fixpoint renders (ts : list token) (line : list Z) : Prop :=
  match ts with
  | [] => forall c, c ∈ line -> strchr whitespace c = true
  | t :: ts => exists ws rest, line = ws ++ tk_bytes t ++ rest /\
      (forall c, c ∈ ws -> strchr whitespace c = true) /\ tk_ok t /\ tk_sep t rest /\ renders ts rest
  end.

Definition redir_token (r : redir) : token :=
  match r with RIn => TkSym 60 | ROut => TkSym 62 | RApp => TkApp end.

(** The tokens of a tree, and the grammar rule that derives it: 0 a simple
    command or a block, 1 a pipeline, 2 with a trailing &, 3 a line. *)
Definition parens (n : nat) (x : nat * list token) : list token :=
  if (fst x <=? n)%nat then snd x else [TkSym 40] ++ snd x ++ [TkSym 41].
Fixpoint tokens (t : tree) : nat * list token :=
  match t with
  | TExec args => (0%nat, map TkWord args)
  | TRedir t r file => (0%nat, parens 0 (tokens t) ++ [redir_token r; TkWord file])
  | TPipe l r => (1%nat, parens 0 (tokens l) ++ [TkSym 124] ++ parens 1 (tokens r))
  | TBack t => (2%nat, parens 2 (tokens t) ++ [TkSym 38])
  | TList l r => (3%nat, parens 2 (tokens l) ++ [TkSym 59] ++ parens 3 (tokens r))
  end.
Definition line_tokens (t : tree) : list token := snd (tokens t).

(** The tree a node stands for, its strings read from the buffer. *)
Fixpoint tree_args (b : list Z) (argv : list (option nat)) : list (list Z) :=
  match argv with
  | Some p :: argv => str_at b p :: tree_args b argv
  | _ => []
  end.
Definition to_redir (mode fd : Z) : option redir :=
  List.find (fun r => (redir_mode r =? mode) && (redir_fd r =? fd)) [RIn; ROut; RApp].
Fixpoint tree_of (fuel : nat) (st : shst) (p : nat) : option tree :=
  match fuel with
  | O => None
  | S fuel =>
      match node (heap st) p with
      | Some (EXEC argv _) => Some (TExec (tree_args (buf st) argv))
      | Some (REDIR c file _ mode fd) =>
          t ← tree_of fuel st c; r ← to_redir mode fd; Some (TRedir t r (str_at (buf st) file))
      | Some (PIPE lc rc) => l ← tree_of fuel st lc; r ← tree_of fuel st rc; Some (TPipe l r)
      | Some (LIST lc rc) => l ← tree_of fuel st lc; r ← tree_of fuel st rc; Some (TList l r)
      | Some (BACK c) => t ← tree_of fuel st c; Some (TBack t)
      | None => None
      end
  end.

Definition sh_start (line : list Z) : shst := ShSt (line ++ [0]) 0 [] [].

Example parse_demo :
  match parsecmd (fun _ => true) (sh_start (bytes "ls -l <a |(wc; x y)>> b & ")) with
  | Ok p st => tree_of 10 st p
  | _ => None
  end = Some (TBack (TPipe (TRedir (TExec [bytes "ls"; bytes "-l"]) RIn (bytes "a"))
                           (TRedir (TList (TExec [bytes "wc"]) (TExec [bytes "x"; bytes "y"])) RApp (bytes "b")))).
Proof. vm_compute. reflexivity. Qed.

(** ** The lexer on the print of tokens *)

Lemma char_at_app1 l i : (i < length l)%nat -> char_at (l ++ [0]) i = default 0 (l !! i).
Proof. intros. unfold char_at. by rewrite lookup_app_l. Qed.
Lemma char_at_end l : char_at (l ++ [0]) (length l) = 0.
Proof. unfold char_at. rewrite lookup_app_r, Nat.sub_diag by lia. done. Qed.
Lemma char_at_drop l i c r : drop i l = c :: r -> char_at (l ++ [0]) i = c /\ (i < length l)%nat.
Proof.
  intros E. assert (l !! i = Some c) as Hl by (rewrite <-(Nat.add_0_r i), <-lookup_drop, E; done).
  apply lookup_lt_Some in Hl as Hi. rewrite char_at_app1 by done. by rewrite Hl.
Qed.

(** [skip_while] from position [s] of the line. *)
Lemma skip_while_drop p l ws rest s :
  drop s l = ws ++ rest -> (s <= length l)%nat -> (forall c, c ∈ ws -> p c = true) ->
  (rest = [] \/ exists c r, rest = c :: r /\ p c = false) ->
  skip_while p (l ++ [0]) (length l - s) s = (s + length ws)%nat /\ drop (s + length ws) l = rest.
Proof.
  intros E Hs Hws Hr. revert s E Hs. induction ws as [|c ws IH]; intros s E Hs.
  - rewrite Nat.add_0_r. split; [|done]. destruct Hr as [->|(c & r & -> & Hc)].
    + apply (f_equal length) in E. rewrite length_drop in E. cbn in E. by rewrite E.
    + apply char_at_drop in E as [Ec Hi]. destruct (length l - s)%nat eqn:Ek; [lia|]. cbn [skip_while]. by rewrite Ec, Hc.
  - apply char_at_drop in E as Ec. destruct Ec as [Ec Hi].
    destruct (length l - s)%nat eqn:Ek; [lia|]. cbn [skip_while]. rewrite Ec, Hws by left.
    assert (drop (S s) l = ws ++ rest) as E'.
    { replace (S s) with (s + 1)%nat by lia. rewrite <-drop_drop, E. done. }
    destruct (IH ltac:(intros; apply Hws; by right) (S s) E' ltac:(lia)) as [A B].
    replace (length l - S s)%nat with n in A by lia. rewrite A. cbn [length].
    replace (s + S (length ws))%nat with (S s + length ws)%nat by lia. done.
Qed.

Lemma word_not_ws c : word_char c = true -> strchr whitespace c = false.
Proof. unfold word_char. intros ?. by bool_to_prop. Qed.
Lemma word_not_sym c : word_char c = true -> strchr symbols c = false.
Proof. unfold word_char. intros ?. by bool_to_prop. Qed.

(** The symbols, one by one. *)
Lemma strchr_in s c : strchr s c = true <-> c ∈ s.
Proof.
  unfold strchr. rewrite existsb_exists. split.
  - intros (x & Hx & E). apply Z.eqb_eq in E as ->. by apply list_elem_of_In.
  - intros Hc. exists c. split; [by apply list_elem_of_In | apply Z.eqb_refl].
Qed.
Lemma sym_cases c : strchr symbols c = true -> c = 60 \/ c = 124 \/ c = 62 \/ c = 38 \/ c = 59 \/ c = 40 \/ c = 41.
Proof. rewrite strchr_in. unfold symbols, bytes. cbn. set_solver. Qed.

Lemma tk_bytes_head t : tk_ok t -> exists c r, tk_bytes t = c :: r /\ strchr whitespace c = false /\ c <> 0.
Proof.
  destruct t as [w|c|]; cbn [tk_ok tk_bytes].
  - intros [Hw Hc]. destruct w as [|c w]; [done|]. exists c, w. destruct (Hc c ltac:(left)). auto using word_not_ws.
  - intros Hc. exists c, []. split; [done|]. apply sym_cases in Hc. destruct_or! Hc; subst c; done.
  - intros _. exists 62, [62]. done.
Qed.

(** [st] is about to read the tokens [ts] of [line]. *)
Definition lexed (line : list Z) (ts : list token) (st : shst) : Prop :=
  buf st = line ++ [0] /\ (ps st <= length line)%nat /\ renders ts (drop (ps st) line).

Lemma renders_ws ts line ws : (forall c, c ∈ ws -> strchr whitespace c = true) ->
  renders ts line -> renders ts (ws ++ line).
Proof.
  intros Hws. destruct ts as [|t ts]; cbn [renders].
  - intros Hl c [Hc|Hc]%elem_of_app; auto.
  - intros (ws' & rest & -> & Hws' & R). exists (ws ++ ws'), rest. rewrite app_assoc. split; [done|].
    split; [|done]. intros c [Hc|Hc]%elem_of_app; auto.
Qed.

(** Where the next token begins. *)
Lemma lex_next line ts st : lexed line ts st ->
  let q := skip_ws (buf st) (ps st) (length line) in
  (q <= length line)%nat /\
  match ts with
  | [] => q = length line
  | t :: ts' => exists rest, drop q line = tk_bytes t ++ rest /\ tk_ok t /\ tk_sep t rest /\ renders ts' rest
  end.
Proof.
  intros (Eb & Hp & R). unfold skip_ws. rewrite Eb. destruct ts as [|t ts]; cbn [renders] in R.
  - destruct (skip_while_drop (strchr whitespace) line (drop (ps st) line) [] (ps st)) as [A B]; auto.
    { by rewrite app_nil_r. }
    cbv zeta. rewrite A, length_drop. split; [lia|]. lia.
  - destruct R as (ws & rest & E & Hws & Hok & Hsep & R). destruct (tk_bytes_head t Hok) as (c & r & Et & Hc & _).
    destruct (skip_while_drop (strchr whitespace) line ws (tk_bytes t ++ rest) (ps st)) as [A B]; auto.
    { right. rewrite Et. by exists c, (r ++ rest). }
    cbv zeta. rewrite A. split; [|by exists rest].
    apply (f_equal length) in E. rewrite length_drop, length_app in E. lia.
Qed.

Lemma lexed_at line ts st q : buf st = line ++ [0] -> (q <= length line)%nat -> renders ts (drop q line) ->
  lexed line ts (set_ps q st).
Proof. by intros. Qed.

Lemma lexed_skip line ts st : lexed line ts st ->
  lexed line ts (set_ps (skip_ws (buf st) (ps st) (length line)) st).
Proof.
  intros H. pose proof (lex_next line ts st H) as [Hq N]. apply lexed_at; [apply H|done|].
  destruct ts as [|t ts]; cbn [renders].
  - rewrite N, drop_all. by intros c ?%elem_of_nil.
  - destruct N as (rest & E & ? & ? & ?). exists [], rest. rewrite E. split; [done|].
    split; [by intros c ?%elem_of_nil|done].
Qed.

(** What peek answers for the next token. *)
Definition tk_in (toks : list Z) (ts : list token) : bool :=
  match ts with
  | TkSym c :: _ => strchr toks c
  | TkApp :: _ => strchr toks 62
  | _ => false
  end.

Definition symbolic (toks : list Z) : Prop := forall c, c ∈ toks -> strchr symbols c = true.

Lemma peek_spec line ts toks st : lexed line ts st -> symbolic toks ->
  exists st', peek (length line) toks st = Ok (tk_in toks ts) st' /\ lexed line ts st' /\
    heap st' = heap st /\ out st' = out st.
Proof.
  intros H Hsym. pose proof (lex_next line ts st H) as [Hq N]. unfold peek.
  set (q := skip_ws _ _ _) in *. eexists. split; [|split; [by apply lexed_skip|done]]. f_equal.
  destruct H as (Eb & _). rewrite Eb. destruct ts as [|t ts].
  - rewrite N, char_at_end. done.
  - destruct N as (rest & E & Hok & _). destruct (tk_bytes_head t Hok) as (c & r & Et & _ & Hc).
    rewrite Et in E. apply char_at_drop in E as [-> _]. unfold nz. rewrite (proj2 (Z.eqb_neq _ _)) by done. cbn [negb andb].
    destruct t as [w|d|]; cbn [tk_bytes tk_in] in *; [|congruence..].
    subst w. destruct Hok as [_ Hw]. destruct (Hw c ltac:(left)) as [_ Hc']. apply word_not_sym in Hc'.
    destruct (strchr toks c) eqn:Es; [|done]. apply strchr_in, Hsym in Es. congruence.
Qed.

Lemma gettoken_spec line t ts st : lexed line (t :: ts) st ->
  exists q st', gettoken (length line) st = Ok (tk_code t, q, (q + length (tk_bytes t))%nat) st' /\
    lexed line ts st' /\ heap st' = heap st /\ out st' = out st /\
    exists rest, drop q line = tk_bytes t ++ rest /\ tk_ok t /\ tk_sep t rest.
Proof.
  intros H. pose proof (lex_next line _ st H) as [Hq (rest & E & Hok & Hsep & R)]. unfold gettoken.
  set (q := skip_ws _ _ _) in *. exists q. destruct H as (Eb & _).
  assert (forall s, drop s line = rest -> (s <= length line)%nat ->
    lexed line ts (set_ps (skip_ws (buf st) s (length line)) st)) as Hl.
  { intros s Es Hs. apply (lexed_skip line ts (set_ps s st)). apply lexed_at; [done|done|by rewrite Es]. }
  assert (drop (q + length (tk_bytes t)) line = rest) as Er.
  { by rewrite <-drop_drop, E, drop_app_length. }
  assert (q + length (tk_bytes t) <= length line)%nat as Hqb.
  { apply (f_equal length) in E. rewrite length_drop, length_app in E. lia. }
  rewrite Eb in *. destruct t as [w|c|]; cbn [tk_bytes tk_code tk_ok tk_sep] in *.
  - destruct Hok as [Hne Hw]. destruct w as [|c w]; [done|]. destruct (Hw c ltac:(left)) as [Hc0 Hc].
    assert (drop q line = (c :: w) ++ rest) as E' by done. apply char_at_drop in E as [Ec Hq'].
    rewrite Ec, (proj2 (Z.eqb_neq c 0)) by done. apply word_not_sym in Hc as Hs.
    destruct (strchr (bytes "|();&<") c) eqn:E1.
    { apply strchr_in in E1. assert (strchr symbols c = true); [|congruence].
      apply strchr_in. revert E1. unfold symbols, bytes. cbn. set_solver. }
    destruct (Z.eqb_spec c 62) as [->|Hne62]; [discriminate Hs|].
    destruct (skip_while_drop word_char line (c :: w) rest q E' ltac:(lia)) as [A B].
    { intros d Hd. by apply Hw. }
    { destruct Hsep as [->|Hr]; [by left | by right]. }
    rewrite A. eexists. split; [reflexivity|]. split; [apply Hl; [exact B|cbn [length] in *; lia]|]. split; [done|]. split; [done|].
    exists rest. done.
  - apply sym_cases in Hok as Hc. assert (drop q line = [c] ++ rest) as E' by done.
    apply char_at_drop in E as [Ec Hq']. rewrite Ec. cbn [length] in *. rewrite Nat.add_1_r in *.
    destruct (Z.eqb_spec c 62) as [->|Hne62].
    + cbn [Z.eqb]. change (strchr (bytes "|();&<") 62) with false. cbv iota. cbn [Z.eqb Pos.eqb].
      assert (char_at (line ++ [0]) (S q) =? 62 = false) as ->.
      { destruct rest as [|d rest].
        - assert (S q = length line) as -> by (apply (f_equal length) in Er; rewrite length_drop in Er; cbn in Er; lia).
          by rewrite char_at_end.
        - apply char_at_drop in Er as [-> _]. apply Z.eqb_neq. intros ->. by apply (Hsep eq_refl rest). }
      eexists. split; [reflexivity|]. split; [by apply Hl|]. split; [done|]. split; [done|]. by exists rest.
    + rewrite (proj2 (Z.eqb_neq c 0)) by (clear - Hc; lia).
      assert (strchr (bytes "|();&<") c = true) as -> by (clear - Hc Hne62; destruct_or! Hc; subst c; done).
      eexists. split; [reflexivity|]. split; [by apply Hl|]. split; [done|]. split; [done|]. by exists rest.
  - assert (drop q line = [62; 62] ++ rest) as E' by done.
    apply char_at_drop in E as [Ec Hq']. rewrite Ec. cbn [Z.eqb Pos.eqb].
    change (strchr (bytes "|();&<") 62) with false. cbv iota.
    assert (drop (S q) line = 62 :: rest) as E2.
    { replace (S q) with (q + 1)%nat by lia. by rewrite <-drop_drop, E'. }
    apply char_at_drop in E2 as [-> _]. cbn [Z.eqb Pos.eqb length] in *.
    replace (q + 2)%nat with (S (S q)) in * by lia.
    eexists. split; [reflexivity|]. split; [by apply Hl|]. split; [done|]. split; [done|]. by exists rest.
Qed.

Lemma gettoken_end line st : lexed line [] st ->
  exists st', gettoken (length line) st = Ok (0, length line, length line) st' /\ lexed line [] st' /\
    heap st' = heap st /\ out st' = out st.
Proof.
  intros H. pose proof (lex_next line _ st H) as [Hq N]. unfold gettoken.
  set (q := skip_ws _ _ _) in *. destruct H as (Eb & _). rewrite N, Eb, char_at_end. cbn [Z.eqb].
  eexists. split; [reflexivity|]. split; [|done].
  unfold skip_ws. rewrite Nat.sub_diag. cbn [skip_while]. split; [done|]. cbn [ps set_ps]. split; [lia|].
  rewrite drop_all. by intros c ?%elem_of_nil.
Qed.

Lemma renders_length ts : forall line, renders ts line -> (length ts <= length line)%nat.
Proof.
  induction ts as [|t ts IH]; intros line; cbn [renders length]; [lia|].
  intros (ws & rest & -> & _ & Hok & _ & R). apply IH in R. destruct (tk_bytes_head t Hok) as (c & r & -> & _).
  rewrite !length_app. cbn [length]. lia.
Qed.
Lemma lexed_length line ts st : lexed line ts st -> (length ts <= length line)%nat.
Proof. intros (_ & Hp & R). apply renders_length in R. rewrite length_drop in R. lia. Qed.
