(* ===== verification/Shellparse.v ===== *)
(** * The parser of sh.c reads back what is printed

    [den]: the tree a node stands for while the buffer is still the line;
    the parsing functions, one lemma each, on the tokens of a tree followed by
    any others; nulterminate; and the parser on arbitrary input. *)

From stdpp Require Import base gmap list strings.
From Stdlib Require Import ZArith Lia.
From S2P Require Import Prelude Sysfile Shell.

(** ** What the nodes stand for *)

Definition sep_rest (rest : list Z) : Prop := rest = [] \/ exists c r, rest = c :: r /\ word_char c = false.

(** The word [w] is at [q .. e-1] of the line. *)
Definition span (line : list Z) (q e : nat) (w : list Z) : Prop :=
  word_ok w /\ e = (q + length w)%nat /\ exists rest, drop q line = w ++ rest /\ sep_rest rest.

Definition argvec (ps : list nat) : list (option nat) := map Some ps ++ replicate (MAXARGS - length ps) None.

Fixpoint den (sp : nat -> nat -> list Z -> Prop) (h : list cmd) (p : nat) (t : tree) : Prop :=
  match t with
  | TExec args => exists qs es, node h p = Some (EXEC (argvec qs) (argvec es)) /\
      Forall3 sp qs es args
  | TRedir t r file => exists c q e, node h p = Some (REDIR c q e (redir_mode r) (redir_fd r)) /\
      (c < p)%nat /\ sp q e file /\ den sp h c t
  | TPipe l r => exists a b, node h p = Some (PIPE a b) /\ (a < p /\ b < p)%nat /\ den sp h a l /\ den sp h b r
  | TList l r => exists a b, node h p = Some (LIST a b) /\ (a < p /\ b < p)%nat /\ den sp h a l /\ den sp h b r
  | TBack t => exists c, node h p = Some (BACK c) /\ (c < p)%nat /\ den sp h c t
  end.

Lemma node_app h h' p c : node h p = Some c -> node (h ++ h') p = Some c.
Proof. destruct p; simpl; [done|]. apply lookup_app_l_Some. Qed.
Lemma node_last h c : node (h ++ [c]) (S (length h)) = Some c.
Proof. simpl. by rewrite lookup_app_r, Nat.sub_diag by lia. Qed.

Lemma den_app sp h h' t : forall p, den sp h p t -> den sp (h ++ h') p t.
Proof.
  induction t; intros p; cbn [den].
  - intros (qs & es & Hn & Hs). exists qs, es. auto using node_app.
  - intros (c & q & e & Hn & ? & ? & ?). exists c, q, e. auto using node_app.
  - intros (a & b & Hn & ? & ? & ?). exists a, b. auto using node_app.
  - intros (a & b & Hn & ? & ? & ?). exists a, b. auto using node_app.
  - intros (c & Hn & ? & ?). exists c. auto using node_app.
Qed.

(** Redirections on top of the node [c]. *)
Definition wrap (t : tree) (rs : list (redir * list Z)) : tree := fold_left (fun t '(r, f) => TRedir t r f) rs t.
Fixpoint chain (line : list Z) (h : list cmd) (c p : nat) (rs : list (redir * list Z)) : Prop :=
  match rs with
  | [] => p = c
  | (r, f) :: rs => exists n q e, node h n = Some (REDIR c q e (redir_mode r) (redir_fd r)) /\
      (c < n)%nat /\ span line q e f /\ chain line h n p rs
  end.
Definition redir_tokens (rs : list (redir * list Z)) : list token :=
  concat (map (fun '(r, f) => [redir_token r; TkWord f]) rs).

Lemma redir_tokens_length rs : (length rs <= length (redir_tokens rs))%nat.
Proof.
  induction rs as [|[r f] rs IH]; [done|]. cbn [redir_tokens map concat length app] in *. unfold redir_tokens in IH. lia.
Qed.

Lemma chain_app line h h' rs : forall c p, chain line h c p rs -> chain line (h ++ h') c p rs.
Proof.
  induction rs as [|[r f] rs IH]; intros c p; cbn [chain]; [done|].
  intros (n & q & e & Hn & ? & ? & ?). exists n, q, e. auto using node_app.
Qed.

Lemma chain_den line h rs : forall c p t, chain line h c p rs -> den (span line) h c t -> den (span line) h p (wrap t rs).
Proof.
  induction rs as [|[r f] rs IH]; intros c p t; cbn [chain].
  - by intros ->.
  - intros (n & q & e & Hn & Hlt & Hs & Hc) Hd. apply (IH n p (TRedir t r f) Hc). cbn [den]. eauto 7.
Qed.

(** ** The parsing functions *)

(** [m] reads the tokens [ts] and leaves a node with the property [Q]. *)
Definition parses {A} (line : list Z) (m : M shst A) (ts rest : list token) (Q : list cmd -> list cmd -> A -> Prop) : Prop :=
  forall st, lexed line (ts ++ rest) st -> exists a st',
    m st = Ok a st' /\ lexed line rest st' /\ out st' = out st /\
    (exists h, heap st' = heap st ++ h) /\ Q (heap st) (heap st') a.

Section parse.
Context (malloc_ok : nat -> bool) (Hm : forall n, malloc_ok n = true).
Context (line : list Z).
Implicit Types (ts rest : list token) (st : shst) (h : list cmd).
#[local] Abbreviation es := (length line).

Lemma alloc_ok c st : alloc malloc_ok c st = Ok (S (length (heap st))) (set_heap (heap st ++ [c]) st).
Proof. unfold alloc. by rewrite Hm. Qed.

Lemma lexed_heap ts st h : lexed line ts st -> lexed line ts (set_heap h st).
Proof. done. Qed.

(** Steps of a parsing function. *)
Lemma parses_peek {A} toks (k : bool -> M shst A) ts rest Q : symbolic toks ->
  parses line (k (tk_in toks (ts ++ rest))) ts rest Q -> parses line (bind (peek es toks) k) ts rest Q.
Proof.
  intros Hsym Hk st H. destruct (peek_spec line _ toks st H Hsym) as (st1 & E & H1 & Eh & Eo).
  rewrite (bind_run _ _ _ _ _ E), <-Eh, <-Eo. by apply Hk.
Qed.

Lemma parses_token {A} (k : Z * nat * nat -> M shst A) t ts rest Q :
  (forall q, (exists r, drop q line = tk_bytes t ++ r /\ tk_ok t /\ tk_sep t r) ->
     parses line (k (tk_code t, q, (q + length (tk_bytes t))%nat)) ts rest Q) ->
  parses line (bind (gettoken es) k) (t :: ts) rest Q.
Proof.
  intros Hk st H. destruct (gettoken_spec line t (ts ++ rest) st H) as (q & st1 & E & H1 & Eh & Eo & Hr).
  rewrite (bind_run _ _ _ _ _ E), <-Eh, <-Eo. by apply Hk.
Qed.

Lemma parses_alloc {A} c (k : nat -> M shst A) ts rest (Q : list cmd -> list cmd -> A -> Prop) :
  (forall h, parses line (k (S (length h))) ts rest (fun h1 h2 a => h1 = h ++ [c] -> Q h h2 a)) ->
  parses line (bind (alloc malloc_ok c) k) ts rest Q.
Proof.
  intros Hk st H. rewrite (bind_run _ _ _ _ _ (alloc_ok c st)).
  destruct (Hk (heap st) _ (lexed_heap _ _ (heap st ++ [c]) H)) as (a & st' & E & H' & Eo & [h Eh] & HQ).
  exists a, st'. split; [exact E|]. split; [done|]. split; [done|]. split; [|by apply HQ].
  exists ([c] ++ h). rewrite Eh. cbn [heap set_heap]. by rewrite <-app_assoc.
Qed.

Lemma parses_ret {A} (a : A) rest (Q : list cmd -> list cmd -> A -> Prop) :
  (forall h, Q h h a) -> parses line (ret a) [] rest Q.
Proof. intros HQ st H. exists a, st. split; [done|]. split; [done|]. split; [done|]. split; [|done]. exists []. by rewrite app_nil_r. Qed.

Lemma parses_bind {A B} (m : M shst A) (k : A -> M shst B) ts1 ts2 rest P Q :
  parses line m ts1 (ts2 ++ rest) P ->
  (forall h a, parses line (k a) ts2 rest (fun h1 h2 b => P h h1 a -> Q h h2 b)) ->
  parses line (bind m k) (ts1 ++ ts2) rest Q.
Proof.
  intros Hm' Hk st H. rewrite <-app_assoc in H.
  destruct (Hm' st H) as (a & st1 & E & H1 & Eo & [h Eh] & HP).
  destruct (Hk (heap st) a st1 H1) as (b & st2 & E2 & H2 & Eo2 & [h2 Eh2] & HQ).
  exists b, st2. rewrite (bind_run _ _ _ _ _ E). split; [done|]. split; [done|]. split; [congruence|]. split; [|auto].
  exists (h ++ h2). by rewrite Eh2, Eh, app_assoc.
Qed.

Lemma parses_mono {A} (m : M shst A) ts rest (P Q : list cmd -> list cmd -> A -> Prop) :
  parses line m ts rest P -> (forall h h' a, (exists g, h' = h ++ g) -> P h h' a -> Q h h' a) -> parses line m ts rest Q.
Proof.
  intros Hp HPQ st H. destruct (Hp st H) as (a & st' & E & H' & Eo & Eh & HP). exists a, st'. auto 6.
Qed.

(** The tokens a phase stops at. *)
Definition stops (toks : list Z) rest : Prop :=
  rest = [] \/ exists c r, rest = TkSym c :: r /\ strchr toks c = true.

Lemma symbolic_b toks : forallb (strchr symbols) toks = true -> symbolic toks.
Proof. intros Hb c Hc. apply (proj1 (forallb_forall _ _) Hb). by apply list_elem_of_In. Qed.

Lemma stops_in toks toks' rest : stops toks rest -> forallb (fun c => negb (strchr toks' c)) toks = true ->
  tk_in toks' rest = false.
Proof.
  intros [->|(c & r & -> & Hc)] Hd; [done|]. apply strchr_in, list_elem_of_In in Hc.
  apply (proj1 (forallb_forall _ _) Hd), negb_true_iff in Hc. exact Hc.
Qed.
Lemma stops_sub toks toks' rest : stops toks rest -> forallb (strchr toks') toks = true -> stops toks' rest.
Proof.
  intros [->|(c & r & -> & Hc)] Hs; [by left|]. right. exists c, r. split; [done|].
  apply strchr_in, list_elem_of_In in Hc. by apply (proj1 (forallb_forall _ _) Hs).
Qed.

Lemma redir_tokens_in rs r f : tk_in (bytes "<>") (redir_tokens ((r, f) :: rs)) = true.
Proof. by destruct r. Qed.

Lemma redir_tokens_app rs r f ts : redir_tokens ((r, f) :: rs) ++ ts = redir_token r :: TkWord f :: redir_tokens rs ++ ts.
Proof. done. Qed.

Lemma span_of q w : (exists r, drop q line = tk_bytes (TkWord w) ++ r /\ tk_ok (TkWord w) /\ tk_sep (TkWord w) r) ->
  span line q (q + length w) w.
Proof. intros (r & E & Hok & Hs). split; [done|]. split; [done|]. by exists r. Qed.

Lemma parseredirs_ok fuel : forall c rs rest, (length rs < fuel)%nat -> tk_in (bytes "<>") rest = false ->
  parses line (parseredirs malloc_ok fuel es c) (redir_tokens rs) rest
    (fun h h' p => (c <= length h)%nat -> chain line h' c p rs).
Proof.
  induction fuel as [|fuel IH]; intros c rs rest Hf Hrest; [lia|]. cbn [parseredirs].
  apply parses_peek; [by apply symbolic_b|]. destruct rs as [|[r f] rs].
  - change (tk_in (bytes "<>") (redir_tokens [] ++ rest)) with (tk_in (bytes "<>") rest). rewrite Hrest.
    by apply parses_ret.
  - replace (tk_in _ _) with true by (by destruct r).
    change (redir_tokens ((r, f) :: rs)) with (redir_token r :: TkWord f :: redir_tokens rs).
    apply parses_token. intros q1 _. apply parses_token. intros q Hq. apply span_of in Hq. cbn [tk_code tk_bytes].
    change (negb (97 =? 97)) with false. cbv iota.
    assert (forall k : nat -> M shst nat, 
      (let* c0 := if tk_code (redir_token r) =? 60 then redircmd malloc_ok c q (q + length f) O_RDONLY 0
         else if tk_code (redir_token r) =? 62 then redircmd malloc_ok c q (q + length f) (Z.lor (Z.lor O_WRONLY O_CREATE) O_TRUNC) 1
         else if tk_code (redir_token r) =? 43 then redircmd malloc_ok c q (q + length f) (Z.lor O_WRONLY O_CREATE) 1
         else ret c in k c0) = (let* c0 := alloc malloc_ok (REDIR c q (q + length f) (redir_mode r) (redir_fd r)) in k c0)) as ->
      by (intros k; by destruct r).
    apply parses_alloc. intros h. eapply parses_mono; [apply IH; [cbn in Hf; lia|done]|].
    intros h1 h2 p [g Eg] Hc -> Hch. cbn [chain]. exists (S (length h)), q, (q + length f)%nat. split; [|split; [lia|]].
    + rewrite Eg. apply node_app, node_last.
    + split; [done|]. apply Hc. rewrite length_app. cbn. lia.
Qed.

(** argv while it is filled *)
Lemma argvec_free qs : (length qs < MAXARGS)%nat -> argvec qs !! length qs = Some None.
Proof.
  intros. unfold argvec. rewrite lookup_app_r by (by rewrite length_fmap). rewrite length_fmap, Nat.sub_diag.
  apply lookup_replicate_2. lia.
Qed.
Lemma argvec_add qs q : (length qs < MAXARGS)%nat -> <[length qs := Some q]> (argvec qs) = argvec (qs ++ [q]).
Proof.
  intros. unfold argvec. rewrite length_app. cbn [length]. rewrite fmap_app, <-app_assoc.
  replace (length qs) with (length (Some <$> qs) + 0)%nat at 1 by (rewrite length_fmap; lia).
  rewrite insert_app_r. f_equal. destruct (MAXARGS - length qs)%nat eqn:E; [lia|].
  replace (MAXARGS - (length qs + 1))%nat with n by lia. done.
Qed.

Lemma set_node_id p c h : node h p = Some c -> set_node p c h = h.
Proof. destruct p; simpl; [done|]. apply list_insert_id. Qed.
Lemma set_node_last h c c' g : set_node (S (length h)) c' (h ++ c :: g) = h ++ c' :: g.
Proof. simpl. replace (length h) with (length h + 0)%nat by lia. by rewrite insert_app_r. Qed.
Lemma node_mid h c g : node (h ++ c :: g) (S (length h)) = Some c.
Proof. simpl. by rewrite lookup_app_r, Nat.sub_diag by lia. Qed.

Lemma parseredirs_none fuel c ts st : lexed line ts st -> tk_in (bytes "<>") ts = false ->
  exists st', parseredirs malloc_ok (S fuel) es c st = Ok c st' /\ lexed line ts st' /\ heap st' = heap st /\ out st' = out st.
Proof.
  intros Hlex Ht. destruct (peek_spec line _ (bytes "<>") st Hlex ltac:(by apply symbolic_b)) as (st1 & E & H1 & Eh & Eo).
  cbn [parseredirs]. rewrite (bind_run _ _ _ _ _ E), Ht. by exists st1.
Qed.

(** The end of the arguments: argv[argc] was null already. *)
Lemma parseargs_end fuel c r qs eqs rest st :
  lexed line rest st -> stops (bytes "|)&;") rest -> node (heap st) c = Some (EXEC (argvec qs) (argvec eqs)) ->
  length eqs = length qs -> (length qs < MAXARGS)%nat ->
  exists st', parseargs malloc_ok (S fuel) es c r (length qs) st = Ok r st' /\ lexed line rest st' /\
    heap st' = heap st /\ out st' = out st.
Proof.
  intros Hlex Hs Hn El Hq.
  assert (forall st1, heap st1 = heap st -> set_arg c (length qs) None None st1 = Ok tt st1) as Hset.
  { intros st1 E1. unfold set_arg, modify. rewrite E1, Hn. f_equal.
    rewrite (list_insert_id _ _ _ (argvec_free qs Hq)). rewrite <-El at 1.
    rewrite (list_insert_id _ _ _ (argvec_free eqs ltac:(lia))), (set_node_id _ _ _ Hn), <-E1. by destruct st1. }
  cbn [parseargs]. destruct (peek_spec line _ (bytes "|)&;") st Hlex ltac:(by apply symbolic_b)) as (st1 & E & H1 & Eh & Eo).
  rewrite (bind_run _ _ _ _ _ E). destruct Hs as [->|(d & rr & -> & Hd)].
  - cbn [tk_in]. destruct (gettoken_end line st1 H1) as (st2 & E2 & H2 & Eh2 & Eo2).
    rewrite (bind_run _ _ _ _ _ E2). cbn [Z.eqb]. rewrite (bind_run _ _ _ _ _ (Hset st2 ltac:(congruence))).
    exists st2. split_and!; [done|done|congruence|congruence].
  - cbn [tk_in]. rewrite Hd. rewrite (bind_run _ _ _ _ _ (Hset st1 Eh)). exists st1. done.
Qed.

Lemma parseargs_ok args : forall fuel qs eqs rs rest st h0,
  args <> [] -> (length args < fuel)%nat -> (length qs + length args < MAXARGS)%nat -> length eqs = length qs ->
  lexed line (map TkWord args ++ redir_tokens rs ++ rest) st -> stops (bytes "|)&;") rest ->
  heap st = h0 ++ [EXEC (argvec qs) (argvec eqs)] ->
  exists p st' qs' eqs' g,
    parseargs malloc_ok fuel es (S (length h0)) (S (length h0)) (length qs) st = Ok p st' /\ lexed line rest st' /\
    out st' = out st /\ heap st' = h0 ++ EXEC (argvec (qs ++ qs')) (argvec (eqs ++ eqs')) :: g /\
    Forall3 (span line) qs' eqs' args /\ chain line (heap st') (S (length h0)) p rs.
Proof.
  induction args as [|w args IH]; intros fuel qs eqs rs rest st h0 Hne Hf Hmax El Hlex Hs Hh; [done|].
  destruct fuel as [|fuel]; [cbn in Hf; lia|]. cbn [length] in *. cbn [map app] in Hlex.
  cbn [parseargs]. destruct (peek_spec line _ (bytes "|)&;") st Hlex ltac:(by apply symbolic_b)) as (st1 & E & H1 & Eh & Eo).
  rewrite (bind_run _ _ _ _ _ E). cbn [tk_in]. cbv iota.
  destruct (gettoken_spec _ _ _ _ H1) as (q & st2 & E2 & H2 & Eh2 & Eo2 & Hsp). apply span_of in Hsp.
  rewrite (bind_run _ _ _ _ _ E2). cbn [tk_code tk_bytes]. change (97 =? 0) with false. change (negb (97 =? 97)) with false. cbv iota.
  set (e := (q + length w)%nat) in *.
  set (st3 := set_heap (h0 ++ [EXEC (argvec (qs ++ [q])) (argvec (eqs ++ [e]))]) st2).
  assert (set_arg (S (length h0)) (length qs) (Some q) (Some e) st2 = Ok tt st3) as E3.
  { unfold set_arg, modify. rewrite Eh2, Eh, Hh, node_mid, argvec_add by lia.
    rewrite <-El at 1. rewrite argvec_add by lia. by rewrite set_node_last. }
  rewrite (bind_run _ _ _ _ _ E3). replace (MAXARGS <=? S (length qs))%nat with false
    by (symmetry; apply Nat.leb_gt; lia). cbv iota.
  assert (lexed line (map TkWord args ++ redir_tokens rs ++ rest) st3) as H3 by exact H2.
  pose proof (lexed_length _ _ _ H3) as Hlen. rewrite !length_app, length_map in Hlen.
  pose proof (redir_tokens_length rs) as Hrs.
  replace (S (length qs)) with (length (qs ++ [q])) by (rewrite length_app; cbn; lia).
  destruct args as [|w' args].
  - cbn [map app] in H3. destruct (parseredirs_ok (S es) (S (length h0)) rs rest) with (st := st3)
      as (p & st4 & E4 & H4 & Eo4 & [g Eg] & Hc); [lia|by eapply stops_in|done|].
    rewrite (bind_run _ _ _ _ _ E4). cbn [heap st3 set_heap] in Eg, Hc.
    destruct fuel as [|fuel]; [lia|].
    destruct (parseargs_end fuel (S (length h0)) p (qs ++ [q]) (eqs ++ [e]) rest st4 H4 Hs) as (st5 & E5 & H5 & Eh5 & Eo5).
    { rewrite Eg, <-app_assoc. apply node_mid. }
    { rewrite !length_app. cbn. lia. }
    { rewrite length_app. cbn. lia. }
    exists p, st5, [q], [e], g. split_and!; [done|done|cbn in *; congruence| | |].
    + rewrite Eh5, Eg, <-app_assoc. done.
    + by constructor; [|constructor].
    + rewrite Eh5. apply Hc. rewrite length_app. cbn. lia.
  - destruct (parseredirs_none es (S (length h0)) _ st3 H3 eq_refl) as (st4 & E4 & H4 & Eh4 & Eo4).
    rewrite (bind_run _ _ _ _ _ E4).
    destruct (IH fuel (qs ++ [q]) (eqs ++ [e]) rs rest st4 h0) as (p' & st5 & qs' & eqs' & g' & E5 & H5 & Eo5 & Eh5 & Hsp5 & Hc5); try done.
    { cbn [length] in *. lia. }
    { rewrite length_app. cbn [length] in *. lia. }
    { rewrite !length_app. cbn. lia. }
    exists p', st5, (q :: qs'), (e :: eqs'), g'. rewrite <-!app_assoc in Eh5. split_and!; try done; [cbn in *; congruence|].
    by constructor.
Qed.

(** ** Every tree, by its size *)

Fixpoint tsize (t : tree) : nat :=
  match t with
  | TExec _ => 1
  | TRedir t _ _ | TBack t => S (tsize t)
  | TPipe l r | TList l r => S (tsize l + tsize r)
  end.
Fixpoint backs (k : nat) (t : tree) : tree := match k with O => t | S k => TBack (backs k t) end.

Lemma wrap_snoc t rs r f : wrap t (rs ++ [(r, f)]) = TRedir (wrap t rs) r f.
Proof. unfold wrap. by rewrite fold_left_app. Qed.
Lemma redir_tokens_snoc rs r f : redir_tokens (rs ++ [(r, f)]) = redir_tokens rs ++ [redir_token r; TkWord f].
Proof. unfold redir_tokens. by rewrite map_app, concat_app. Qed.

(** The command under the redirections. *)
Lemma spine t : exists base rs, t = wrap base rs /\ (forall t' r f, base <> TRedir t' r f) /\
  parens 0 (tokens t) = parens 0 (tokens base) ++ redir_tokens rs /\ (tsize base + length rs = tsize t)%nat /\
  (tree_ok t -> tree_ok base).
Proof.
  induction t as [args|t IH r f|l IHl r IHr|l IHl r IHr|t IH].
  1, 3-5: eexists _, []; (split; [reflexivity|]); split; [done|]; split; [by rewrite app_nil_r|]; split; [cbn; lia|done].
  destruct IH as (base & rs & -> & Hb & Et & Es & Hok). exists base, (rs ++ [(r, f)]).
  rewrite wrap_snoc, redir_tokens_snoc, length_app. split_and!; [done|done| |cbn [tsize length]; lia|].
  - cbn [tokens parens fst Nat.leb snd]. change (parens 0 (0%nat, ?x)) with x. rewrite Et. by rewrite <-app_assoc.
  - intros [H _]. auto.
Qed.

(** The pipeline under the &. *)
Lemma back_spine t : exists k e, t = backs k e /\ (forall d, e <> TBack d) /\
  parens 2 (tokens t) = parens 1 (tokens e) ++ replicate k (TkSym 38) /\ (tsize e + k = tsize t)%nat /\
  (tree_ok t -> tree_ok e).
Proof.
  induction t as [args|t IH r f|l IHl r IHr|l IHl r IHr|t IH].
  1-4: eexists 0%nat, _; (split; [reflexivity|]); split; [done|]; split; [by rewrite app_nil_r|]; split; [cbn; lia|done].
  destruct IH as (k & e & -> & Hb & Et & Es & Hok). exists (S k), e. split_and!; [done|done| |cbn [tsize]; lia|done].
  change (parens 2 (tokens (TBack (backs k e)))) with (parens 2 (tokens (backs k e)) ++ [TkSym 38]).
  rewrite Et, <-app_assoc. f_equal. by rewrite <-replicate_S_end.
Qed.

Lemma den_bound h p t : den (span line) h p t -> (p <= length h)%nat.
Proof.
  assert (forall c, node h p = Some c -> (p <= length h)%nat) as Hn.
  { intros c. destruct p; simpl; [lia|]. intros Hl%lookup_lt_Some. lia. }
  destruct t; cbn [den]; intros Hd; decompose [ex and] Hd; eauto.
Qed.

Lemma parses_len {A} (m : M shst A) ts rest Q :
  ((length ts <= es)%nat -> parses line m ts rest Q) -> parses line m ts rest Q.
Proof.
  intros Hp st H. pose proof (lexed_length _ _ _ H) as Hl. rewrite length_app in Hl. apply (Hp ltac:(lia) st H).
Qed.

Definition is_tree (t : tree) : list cmd -> list cmd -> nat -> Prop := fun _ h' p => den (span line) h' p t.

Definition exec_stmt (t : tree) : Prop := forall fuel rest,
  (4 * length (parens 0 (tokens t)) + 2 <= fuel)%nat -> stops (bytes "|)&;") rest ->
  parses line (parseexec malloc_ok fuel es) (parens 0 (tokens t)) rest (is_tree t).
Definition pipe_stmt (t : tree) : Prop := forall fuel rest,
  (4 * length (parens 1 (tokens t)) + 3 <= fuel)%nat -> stops (bytes ")&;") rest ->
  parses line (parsepipe malloc_ok fuel es) (parens 1 (tokens t)) rest (is_tree t).
Definition line_stmt (t : tree) : Prop := forall fuel rest,
  (4 * length (parens 3 (tokens t)) + 4 <= fuel)%nat -> stops (bytes ")") rest ->
  parses line (parseline malloc_ok fuel es) (parens 3 (tokens t)) rest (is_tree t).

Lemma parseback_ok fuel : forall c k rest, (k < fuel)%nat -> tk_in (bytes "&") rest = false ->
  parses line (parseback malloc_ok fuel es c) (replicate k (TkSym 38)) rest
    (fun h h' p => forall t, den (span line) h c t -> den (span line) h' p (backs k t)).
Proof.
  induction fuel as [|fuel IH]; intros c k rest Hk Hrest; [lia|]. cbn [parseback].
  apply parses_peek; [by apply symbolic_b|]. destruct k as [|k].
  - change (replicate 0 (TkSym 38) ++ rest) with rest. rewrite Hrest. apply parses_ret. auto.
  - change (tk_in (bytes "&") (replicate (S k) (TkSym 38) ++ rest)) with true. cbv iota.
    change (replicate (S k) (TkSym 38)) with (TkSym 38 :: replicate k (TkSym 38)).
    apply parses_token. intros q _. apply parses_alloc. intros h.
    eapply parses_mono; [apply IH; [lia|done]|]. intros h1 h2 p _ Hd -> t Ht.
    replace (backs (S k) t) with (backs k (TBack t)) by (clear; induction k; cbn in *; congruence).
    apply Hd. cbn [den]. exists c. split; [apply node_last|]. split; [apply den_bound in Ht; lia|]. by apply den_app.
Qed.

(** The first two statements of parseline. *)
Lemma back_phase t e k fuel ts rest (K : nat -> M shst nat) Q :
  t = backs k e -> parens 2 (tokens t) = parens 1 (tokens e) ++ replicate k (TkSym 38) -> pipe_stmt e ->
  (4 * length (parens 2 (tokens t)) + 3 <= fuel)%nat -> stops (bytes ");") (ts ++ rest) ->
  (forall p h, parses line (K p) ts rest (fun h1 h2 a => den (span line) h1 p t -> Q h h2 a)) ->
  parses line (bind (parsepipe malloc_ok fuel es) (fun c => bind (parseback malloc_ok (S es) es c) K))
    (parens 2 (tokens t) ++ ts) rest Q.
Proof.
  intros -> Et Hp Hf Hs HK. rewrite Et in *. rewrite length_app in Hf. rewrite <-app_assoc.
  eapply parses_bind.
  { apply Hp; [lia|]. rewrite <-app_assoc. destruct k; [eapply stops_sub; [exact Hs|reflexivity]|].
    right. by eexists 38, _. }
  intros h c. apply parses_len. intros Hlen. rewrite length_app, length_replicate in Hlen.
  eapply parses_bind; [apply parseback_ok; [lia|by eapply stops_in]|].
  intros h1 p. eapply parses_mono; [apply (HK p h)|]. intros h2 h3 a _ HQ Hb Hc. apply HQ, Hb, Hc.
Qed.

Lemma parses_nil_r {A} (m : M shst A) ts rest Q : parses line m (ts ++ []) rest Q -> parses line m ts rest Q.
Proof. by rewrite app_nil_r. Qed.

Lemma tokens_level t : (fst (tokens t) <= 3)%nat.
Proof. destruct t; cbn; lia. Qed.
Lemma parens_le n t : (fst (tokens t) <= n)%nat -> parens n (tokens t) = snd (tokens t).
Proof. intros Hn. unfold parens. by rewrite (proj2 (Nat.leb_le _ _)). Qed.
Lemma parens_gt n t : (n < fst (tokens t))%nat -> parens n (tokens t) = TkSym 40 :: parens 3 (tokens t) ++ [TkSym 41].
Proof. intros Hn. unfold parens. rewrite (proj2 (Nat.leb_gt _ _)), (proj2 (Nat.leb_le _ 3)) by auto using tokens_level. done. Qed.

Lemma line_of_pipe t : (forall l r, t <> TList l r) -> (forall e k, t = backs k e -> (tsize e + k = tsize t)%nat ->
  (forall d, e <> TBack d) -> pipe_stmt e) -> line_stmt t.
Proof.
  intros Hl Hp fuel rest Hf Hs. destruct fuel as [|fuel]; [lia|]. cbn [parseline].
  destruct (back_spine t) as (k & e & Ht & Hb & Et & Es & _).
  assert (parens 3 (tokens t) = parens 2 (tokens t)) as E3.
  { destruct t; try done. by destruct (Hl t1 t2). }
  rewrite E3 in *. apply parses_nil_r. eapply back_phase; [done|done|by apply (Hp e k)|lia| |].
  { eapply stops_sub; [exact Hs|reflexivity]. }
  intros p h. apply parses_peek; [by apply symbolic_b|]. cbn [app].
  replace (tk_in (bytes ";") rest) with false by (symmetry; by eapply stops_in).
  apply parses_ret. unfold is_tree. auto.
Qed.

Lemma parses_ext {A} (m : M shst A) ts rest P :
  parses line m ts rest P -> parses line m ts rest (fun h h' a => P h h' a /\ exists g, h' = h ++ g).
Proof. intros Hp. eapply parses_mono; [exact Hp|auto]. Qed.
Lemma parses_alloc_ret c rest :
  parses line (alloc malloc_ok c) [] rest (fun h h' p => h' = h ++ [c] /\ p = S (length h)).
Proof.
  intros st Hst. eexists _, _. split; [apply alloc_ok|]. split; [done|]. split; [done|]. split; [by eexists|done].
Qed.

(** The node with two children that ends a phase. *)
Lemma parses_pair (c : nat -> nat -> cmd) (f : tree -> tree -> tree) p (m : M shst nat) ts rest (l r : tree) :
  (forall h n a b, node h n = Some (c a b) -> (a < n /\ b < n)%nat -> den (span line) h a l -> den (span line) h b r -> den (span line) h n (f l r)) ->
  parses line m ts rest (is_tree r) ->
  parses line (bind m (fun rc => alloc malloc_ok (c p rc))) ts rest (fun h1 h2 n => den (span line) h1 p l -> den (span line) h2 n (f l r)).
Proof.
  intros Hf Hr. apply parses_nil_r. eapply parses_bind; [apply parses_ext, Hr|]. intros h rc.
  eapply parses_mono; [apply parses_alloc_ret|]. intros h1 h2 n _ [-> ->] [Hrc [g Eg]] Hp. unfold is_tree in Hrc.
  assert (den (span line) h1 p l) as Hp1 by (rewrite Eg; by apply den_app).
  apply (Hf _ _ p rc); [apply node_last| |by apply den_app..].
  apply den_bound in Hp1. apply den_bound in Hrc. lia.
Qed.

Lemma line_of_list l r : (forall e k, l = backs k e -> (tsize e + k = tsize l)%nat -> pipe_stmt e) -> line_stmt r ->
  line_stmt (TList l r).
Proof.
  intros Hp Hr fuel rest Hf Hs. destruct fuel as [|fuel]; [lia|]. cbn [parseline].
  destruct (back_spine l) as (k & e & Ht & Hb & Et & Es & _).
  change (parens 3 (tokens (TList l r))) with (parens 2 (tokens l) ++ TkSym 59 :: parens 3 (tokens r)) in *.
  rewrite length_app in Hf. cbn [length] in Hf.
  eapply back_phase; [done|done|by apply (Hp e k)|lia| |].
  { right. by eexists 59, _. }
  intros p h. apply parses_peek; [by apply symbolic_b|]. change (tk_in _ (_ ++ rest)) with true. cbv iota.
  apply parses_token. intros q _. eapply parses_mono.
  - apply (parses_pair LIST TList p _ _ _ l r); [|apply Hr; [lia|done]]. intros h1 n a b Hn Hlt Ha Hb'. cbn [den]. eauto 7.
  - intros h1 h2 a _ HQ Hd. unfold is_tree. auto.
Qed.

Lemma pipe_of_exec t : (forall l r, t <> TPipe l r) -> exec_stmt t -> pipe_stmt t.
Proof.
  intros Ht He fuel rest Hf Hs. destruct fuel as [|fuel]; [lia|]. cbn [parsepipe].
  assert (parens 1 (tokens t) = parens 0 (tokens t)) as E1.
  { destruct t; try done. by destruct (Ht t1 t2). }
  rewrite E1 in *. apply parses_nil_r. eapply parses_bind.
  { apply He; [lia|]. eapply stops_sub; [exact Hs|reflexivity]. }
  intros h p. apply parses_peek; [by apply symbolic_b|]. cbn [app].
  replace (tk_in (bytes "|") rest) with false by (symmetry; by eapply stops_in).
  apply parses_ret. unfold is_tree. auto.
Qed.

Lemma pipe_of_pipe l r : exec_stmt l -> pipe_stmt r -> pipe_stmt (TPipe l r).
Proof.
  intros Hl Hr fuel rest Hf Hs. destruct fuel as [|fuel]; [lia|]. cbn [parsepipe].
  change (parens 1 (tokens (TPipe l r))) with (parens 0 (tokens l) ++ TkSym 124 :: parens 1 (tokens r)) in *.
  rewrite length_app in Hf. cbn [length] in Hf.
  eapply parses_bind; [apply Hl; [lia|right; by eexists 124, _]|].
  intros h p. apply parses_peek; [by apply symbolic_b|]. change (tk_in _ (_ ++ rest)) with true. cbv iota.
  apply parses_token. intros q _. 
  apply (parses_pair PIPE TPipe p _ _ _ l r); [|apply Hr; [lia|done]]. intros h1 n a b Hn Hlt Ha Hb'. cbn [den]. eauto 7.
Qed.

(** A block with its redirections. *)
Lemma block_ok base rs fuel rest : line_stmt base -> (0 < fst (tokens base))%nat ->
  (4 * length (parens 0 (tokens base)) + 2 <= fuel)%nat -> stops (bytes "|)&;") rest ->
  parses line (parseexec malloc_ok fuel es) (parens 0 (tokens base) ++ redir_tokens rs) rest (is_tree (wrap base rs)).
Proof.
  intros Hl Hlev Hf Hs. rewrite parens_gt in * by done. cbn [length app] in *. rewrite length_app in Hf. cbn [length] in Hf.
  destruct fuel as [|[|fuel]]; [lia..|]. cbn [parseexec parseblock].
  apply parses_peek; [by apply symbolic_b|]. change (tk_in (bytes "(") _) with true. cbv iota.
  apply parses_peek; [by apply symbolic_b|]. change (tk_in (bytes "(") _) with true. cbn [negb].
  apply parses_token. intros q _. rewrite <-app_assoc. eapply parses_bind.
  { apply Hl; [lia|]. right. by eexists 41, _. }
  intros h p. apply parses_peek; [by apply symbolic_b|]. change (tk_in (bytes ")") _) with true. cbn [negb].
  apply parses_token. intros q2 _. apply parses_len. intros Hlen.
  pose proof (redir_tokens_length rs) as Hrs.
  eapply parses_mono; [apply parseredirs_ok; [cbn in Hlen; lia|by eapply stops_in]|].
  intros h1 h2 a [g Eg] Hc Hp. unfold is_tree in *. apply den_bound in Hp as Hb. eapply chain_den; [by apply Hc|].
  rewrite Eg. by apply den_app.
Qed.

(** A simple command with its redirections. *)
Lemma simple_ok args rs fuel rest : (length args < MAXARGS)%nat -> (2 <= fuel)%nat -> stops (bytes "|)&;") rest ->
  parses line (parseexec malloc_ok fuel es) (map TkWord args ++ redir_tokens rs) rest (is_tree (wrap (TExec args) rs)).
Proof.
  intros Ha Hf Hs. destruct fuel as [|fuel]; [lia|]. cbn [parseexec].
  apply parses_len. intros Hlen. rewrite length_app, length_map in Hlen.
  pose proof (redir_tokens_length rs) as Hrs.
  apply parses_peek; [by apply symbolic_b|].
  replace (tk_in _ _) with false.
  2:{ destruct args as [|w args]; [|done]. destruct rs as [|[r f] rs]; [|by destruct r]. symmetry. by eapply stops_in. }
  unfold execcmd. intros st Hlex. rewrite (bind_run _ _ _ _ _ (alloc_ok _ st)). set (st1 := set_heap _ st).
  assert (lexed line ((map TkWord args ++ redir_tokens rs) ++ rest) st1) as H1 by done. rewrite <-app_assoc in H1.
  change (EXEC (replicate MAXARGS None) (replicate MAXARGS None)) with (EXEC (argvec []) (argvec [])) in st1.
  destruct args as [|w args].
  - cbn [map app] in H1. destruct (parseredirs_ok (S es) (S (length (heap st))) rs rest) with (st := st1)
      as (p & st2 & E2 & H2 & Eo2 & [g Eg] & Hc); [lia|by eapply stops_in|done|].
    rewrite (bind_run _ _ _ _ _ E2). cbn [heap st1 set_heap] in Eg.
    destruct (parseargs_end es (S (length (heap st))) p [] [] rest st2 H2 Hs) as (st3 & E3 & H3 & Eh3 & Eo3).
    { rewrite Eg, <-app_assoc. apply node_mid. } { done. } { cbn. lia. }
    exists p, st3. split; [exact E3|]. split; [done|]. split; [cbn in *; congruence|]. split.
    { eexists. rewrite Eh3, Eg, <-app_assoc. reflexivity. }
    unfold is_tree. eapply chain_den; [rewrite Eh3; apply Hc; cbn; rewrite length_app; cbn; lia|].
    cbn [den]. exists [], []. split; [|constructor]. rewrite Eh3, Eg, <-app_assoc. apply node_mid.
  - destruct (parseredirs_none es (S (length (heap st))) _ st1 H1 eq_refl) as (st2 & E2 & H2 & Eh2 & Eo2).
    rewrite (bind_run _ _ _ _ _ E2).
    destruct (parseargs_ok (w :: args) (S es) [] [] rs rest st2 (heap st)) as (p & st3 & qs & eqs & g & E3 & H3 & Eo3 & Eh3 & Hsp & Hc); try done.
    { lia. }
    exists p, st3. split; [exact E3|]. split; [done|]. split; [cbn in *; congruence|]. split.
    { eexists. exact Eh3. }
    unfold is_tree. eapply chain_den; [exact Hc|]. cbn [den]. exists qs, eqs. split; [|done].
    rewrite Eh3. apply node_mid.
Qed.

Lemma tree_ok_wrap rs : forall t, tree_ok (wrap t rs) -> tree_ok t.
Proof. induction rs as [|[r f] rs IH]; intros t; [done|]. intros Hok%(IH (TRedir t r f)). by destruct Hok. Qed.
Lemma tree_ok_backs k e : tree_ok (backs k e) -> tree_ok e.
Proof. induction k; cbn; auto. Qed.

Lemma exec_of_line t : tree_ok t -> (forall base rs, t = wrap base rs -> (tsize base + length rs = tsize t)%nat ->
  (0 < fst (tokens base))%nat -> line_stmt base) -> exec_stmt t.
Proof.
  intros Hok Hl fuel rest Hf Hs. destruct (spine t) as (base & rs & Et & Hb & Etk & Es & Hbok). specialize (Hbok Hok).
  rewrite Etk in *. rewrite Et. rewrite length_app in Hf. destruct (decide (0 < fst (tokens base))%nat) as [Hlev|Hlev].
  - apply block_ok; [by eapply Hl|done|lia|done].
  - destruct base; cbn [tokens fst] in Hlev; try lia; [|by destruct (Hb base r file)].
    apply simple_ok; [apply Hbok|lia|done].
Qed.

Lemma all_stmts n : forall t, (tsize t <= n)%nat -> tree_ok t -> exec_stmt t /\ pipe_stmt t /\ line_stmt t.
Proof.
  induction n as [|n IH]; intros t Hn Hok; [destruct t; cbn in Hn; lia|].
  assert (forall e k, t = backs (S k) e -> (tsize e + S k = tsize t)%nat -> pipe_stmt e) as Hbacks.
  { intros e k -> E. apply IH; [lia|]. by apply (tree_ok_backs (S k)). }
  assert ((forall l r, t <> TList l r) -> ((forall d, t <> TBack d) -> pipe_stmt t) -> line_stmt t) as HL.
  { intros Hl Hp. apply line_of_pipe; [done|]. intros e k Eb Es Hnb. destruct k as [|k]; [|by apply (Hbacks e k)].
    cbn [backs] in Eb. subst e. auto. }
  assert (((0 < fst (tokens t))%nat -> line_stmt t) -> exec_stmt t) as HE.
  { intros Hl. apply exec_of_line; [done|]. intros base rs Eb Es Hlev. destruct rs as [|rf rs].
    - cbn in Eb. subst base. auto.
    - cbn [length] in Es. apply IH; [lia|]. rewrite Eb in Hok. by apply tree_ok_wrap in Hok. }
  destruct t as [args|t r f|l r|l r|t]; cbn [tsize tree_ok tokens fst] in *.
  - assert (exec_stmt (TExec args)) as He by (apply HE; lia).
    assert (pipe_stmt (TExec args)) as Hp by (by apply pipe_of_exec). auto.
  - assert (exec_stmt (TRedir t r f)) as He by (apply HE; lia).
    assert (pipe_stmt (TRedir t r f)) as Hp by (by apply pipe_of_exec). auto.
  - destruct Hok as [Hl Hr]. destruct (IH l ltac:(lia) Hl) as (? & _ & _), (IH r ltac:(lia) Hr) as (_ & ? & _).
    assert (pipe_stmt (TPipe l r)) as Hp by (by apply pipe_of_pipe). auto 6.
  - destruct Hok as [Hl Hr]. destruct (IH r ltac:(lia) Hr) as (_ & _ & Hlr).
    assert (line_stmt (TList l r)) as Hll.
    { apply line_of_list; [|done]. intros e k Eb Es. apply IH; [lia|]. rewrite Eb in Hl. by apply tree_ok_backs in Hl. }
    assert (exec_stmt (TList l r)) as He by auto. split; [done|]. split; [by apply pipe_of_exec|done].
  - assert (line_stmt (TBack t)) as Hll by (apply HL; [done|]; intros Hn'; by destruct (Hn' t)).
    assert (exec_stmt (TBack t)) as He by auto. split; [done|]. split; [by apply pipe_of_exec|done].
Qed.
End parse.

(** ** nulterminate *)

(** The buffer [b] after some ends of words have been overwritten. *)
Definition cut (line b : list Z) : Prop := length b = S (length line) /\
  forall i, (i <= length line)%nat ->
    char_at b i = char_at (line ++ [0]) i \/ word_char (char_at (line ++ [0]) i) = false \/ i = length line.
Definition zeros_kept (b b' : list Z) : Prop := forall i, char_at b i = 0 -> char_at b' i = 0.
(** A word of the line whose end holds a NUL. *)
Definition ended (line b : list Z) (q e : nat) (w : list Z) : Prop := span line q e w /\ char_at b e = 0.

Lemma zeros_refl b : zeros_kept b b.
Proof. by intros i. Qed.
Lemma zeros_trans b1 b2 b3 : zeros_kept b1 b2 -> zeros_kept b2 b3 -> zeros_kept b1 b3.
Proof. intros A B i Hi. auto. Qed.

Lemma den_mono (sp sp' : nat -> nat -> list Z -> Prop) h t : (forall q e w, sp q e w -> sp' q e w) ->
  forall p, den sp h p t -> den sp' h p t.
Proof.
  intros Hsp. induction t; intros p; cbn [den].
  - intros (qs & es & Hn & Hs). exists qs, es. split; [done|]. eapply Forall3_impl; [exact Hs|auto].
  - intros (c & q & e & Hn & ? & ? & ?). exists c, q, e. auto.
  - intros (a & b & Hn & ? & ? & ?). exists a, b. auto.
  - intros (a & b & Hn & ? & ? & ?). exists a, b. auto.
  - intros (c & Hn & ? & ?). exists c. auto.
Qed.

Lemma char_at_insert b i j x : (i < length b)%nat -> char_at (<[i := x]> b) j = if decide (i = j) then x else char_at b j.
Proof.
  intros. unfold char_at. case_decide as E; [subst; by rewrite list_lookup_insert_eq | by rewrite list_lookup_insert_ne].
Qed.

(** The parts of the claims below that are equations or compositions. *)
Ltac nul_done := split_and!; try reflexivity; try congruence; try solve [eauto using zeros_refl, zeros_trans].

Section nul.
Context (line : list Z).
Implicit Types (st : shst) (h : list cmd).

Lemma span_bound q e w : span line q e w -> (e <= length line)%nat /\ (q + length w <= length line)%nat.
Proof.
  intros ([Hw _] & -> & rest & E & _). apply (f_equal length) in E. rewrite length_drop, length_app in E.
  destruct w; [done|]. cbn [length] in *. lia.
Qed.

Lemma span_end q e w : span line q e w -> word_char (char_at (line ++ [0]) e) = false \/ e = length line.
Proof.
  intros Hsp. pose proof (span_bound _ _ _ Hsp) as [Hb _]. destruct Hsp as (_ & -> & rest & E & Hs).
  assert (drop (q + length w) line = rest) as Er by (by rewrite <-drop_drop, E, drop_app_length).
  destruct Hs as [->|(c & r & -> & Hc)].
  - right. apply (f_equal length) in Er. rewrite length_drop in Er. cbn in Er. lia.
  - left. apply char_at_drop in Er as [-> _]. done.
Qed.

Lemma put_nul_ok q e w st : span line q e w -> cut line (buf st) ->
  exists st', put_nul e st = Ok tt st' /\ heap st' = heap st /\ ps st' = ps st /\ out st' = out st /\
    cut line (buf st') /\ zeros_kept (buf st) (buf st') /\ char_at (buf st') e = 0.
Proof.
  intros Hsp [Hl Hc]. pose proof (span_bound _ _ _ Hsp) as [Hb _]. eexists. split; [reflexivity|]. cbn [buf heap ps out].
  split_and!; try done.
  - split; [by rewrite length_insert|]. intros i Hi. rewrite char_at_insert by lia. case_decide as E; [|auto].
    subst i. right. by eapply span_end.
  - intros i Hi. rewrite char_at_insert by lia. by case_decide.
  - rewrite char_at_insert by lia. by rewrite decide_True.
Qed.

Lemma nul_args_ok qs es args : Forall3 (span line) qs es args -> forall n st, cut line (buf st) ->
  exists st', nul_args (map Some qs ++ replicate n None) (map Some es ++ replicate n None) st = Ok tt st' /\
    heap st' = heap st /\ ps st' = ps st /\ out st' = out st /\
    cut line (buf st') /\ zeros_kept (buf st) (buf st') /\ Forall3 (ended line (buf st')) qs es args.
Proof.
  induction 1 as [|q e w qs es args Hsp _ IH]; intros n st Hc; cbn [map app nul_args].
  - exists st. assert (nul_args (replicate n None) (replicate n None) st = Ok tt st) as -> by (by destruct n).
    split_and!; auto using zeros_refl. constructor.
  - destruct (put_nul_ok _ _ _ _ Hsp Hc) as (st1 & E1 & Eh & Ep & Eo & Hc1 & Hz1 & He).
    rewrite (bind_run _ _ _ _ _ E1). destruct (IH n st1 Hc1) as (st2 & E2 & Eh2 & Ep2 & Eo2 & Hc2 & Hz2 & Hf).
    exists st2. nul_done. constructor; [|done].
    split; [done|]. by apply Hz2.
Qed.

Lemma Forall3_len {A B C} (R : A -> B -> C -> Prop) l k m : Forall3 R l k m -> length l = length k /\ length l = length m.
Proof. induction 1; cbn; lia. Qed.

Definition nul_ok (h : list cmd) (m : M shst nat) (p : nat) (t : tree) : Prop :=
  forall st, heap st = h -> cut line (buf st) -> exists st', m st = Ok p st' /\
    heap st' = h /\ ps st' = ps st /\ out st' = out st /\
    cut line (buf st') /\ zeros_kept (buf st) (buf st') /\ den (ended line (buf st')) h p t.

Lemma ended_mono b b' : zeros_kept b b' -> forall q e w, ended line b q e w -> ended line b' q e w.
Proof. intros Hz q e w [Hs He]. split; [done|]. by apply Hz. Qed.

(** Two subtrees, one after the other. *)
Lemma nul_two h m1 m2 a b l r st : nul_ok h m1 a l -> nul_ok h m2 b r -> heap st = h -> cut line (buf st) ->
  exists st', (m1 ;; m2 ;; ret tt) st = Ok tt st' /\ heap st' = h /\ ps st' = ps st /\ out st' = out st /\
    cut line (buf st') /\ zeros_kept (buf st) (buf st') /\ den (ended line (buf st')) h a l /\ den (ended line (buf st')) h b r.
Proof.
  intros H1 H2 Eh Hc. destruct (H1 st Eh Hc) as (st1 & E1 & Eh1 & Ep1 & Eo1 & Hc1 & Hz1 & Hd1).
  destruct (H2 st1 Eh1 Hc1) as (st2 & E2 & Eh2 & Ep2 & Eo2 & Hc2 & Hz2 & Hd2).
  exists st2. rewrite (bind_run _ _ _ _ _ E1), (bind_run _ _ _ _ _ E2).
  nul_done. eapply den_mono; [|exact Hd1]. by apply ended_mono.
Qed.

Lemma nulterminate_ok h t : forall p fuel, den (span line) h p t -> (p < fuel)%nat -> nul_ok h (nulterminate fuel p) p t.
Proof.
  induction t as [args|t IH r f|l IHl r IHr|l IHl r IHr|t IH]; intros p fuel Hd Hf st Eh Hc; (destruct fuel as [|fuel]; [lia|]);
    cbn [den] in Hd; cbn [nulterminate].
  all: assert (forall c, node h p = Some c -> (p =? 0)%nat = false) as Hp0 by (intros c Hn; by destruct p).
  - destruct Hd as (qs & es & Hn & Hs). rewrite (Hp0 _ Hn). rewrite (bind_run get _ st st st eq_refl), Eh, Hn.
    pose proof (Forall3_len _ _ _ _ Hs) as [El _]. unfold argvec at 1 2. rewrite <-El.
    destruct (nul_args_ok _ _ _ Hs (MAXARGS - length qs) st Hc) as (st1 & E1 & Eh1 & Ep1 & Eo1 & Hc1 & Hz1 & Hf1).
    rewrite (bind_run _ _ _ _ _ E1). exists st1. nul_done. cbn [den]. eauto.
  - destruct Hd as (c & q & e & Hn & Hlt & Hs & Hd). rewrite (Hp0 _ Hn). rewrite (bind_run get _ st st st eq_refl), Eh, Hn.
    destruct (IH c fuel Hd ltac:(lia) st Eh Hc) as (st1 & E1 & Eh1 & Ep1 & Eo1 & Hc1 & Hz1 & Hd1).
    rewrite bind_assoc, (bind_run _ _ _ _ _ E1).
    destruct (put_nul_ok _ _ _ st1 Hs Hc1) as (st2 & E2 & Eh2 & Ep2 & Eo2 & Hc2 & Hz2 & He).
    rewrite (bind_run _ _ _ _ _ E2). exists st2. nul_done.
    cbn [den]. exists c, q, e. split; [done|]. split; [done|]. split; [done|]. eapply den_mono; [by apply ended_mono|done].
  - destruct Hd as (a & b & Hn & Hlt & Hd1 & Hd2). rewrite (Hp0 _ Hn). rewrite (bind_run get _ st st st eq_refl), Eh, Hn.
    destruct (nul_two h _ _ a b l r st (IHl a fuel Hd1 ltac:(lia)) (IHr b fuel Hd2 ltac:(lia)) Eh Hc)
      as (st2 & E2 & ? & ? & ? & ? & ? & ? & ?).
    rewrite (bind_run _ _ _ _ _ E2). exists st2. cbn [den]. eauto 12.
  - destruct Hd as (a & b & Hn & Hlt & Hd1 & Hd2). rewrite (Hp0 _ Hn). rewrite (bind_run get _ st st st eq_refl), Eh, Hn.
    destruct (nul_two h _ _ a b l r st (IHl a fuel Hd1 ltac:(lia)) (IHr b fuel Hd2 ltac:(lia)) Eh Hc)
      as (st2 & E2 & ? & ? & ? & ? & ? & ? & ?).
    rewrite (bind_run _ _ _ _ _ E2). exists st2. cbn [den]. eauto 12.
  - destruct Hd as (c & Hn & Hlt & Hd). rewrite (Hp0 _ Hn). rewrite (bind_run get _ st st st eq_refl), Eh, Hn.
    destruct (IH c fuel Hd ltac:(lia) st Eh Hc) as (st1 & E1 & Eh1 & Ep1 & Eo1 & Hc1 & Hz1 & Hd1).
    rewrite bind_assoc, (bind_run _ _ _ _ _ E1). exists st1. cbn [den]. eauto 12.
Qed.
End nul.

(** ** Reading the tree off the memory *)

Lemma str_len_app w rest : (forall c, c ∈ w -> c <> 0) -> str_len (w ++ 0 :: rest) = length w.
Proof.
  induction w as [|c w IH]; intros Hw; [done|]. cbn [app str_len length].
  rewrite (proj2 (Z.eqb_neq c 0)) by (apply Hw; left). f_equal. apply IH. intros d Hd. apply Hw. by right.
Qed.

Lemma char_at_lookup b i : (i < length b)%nat -> b !! i = Some (char_at b i).
Proof. intros Hi. destruct (lookup_lt_is_Some_2 b i Hi) as [x Hx]. unfold char_at. by rewrite Hx. Qed.

Lemma str_at_word line b q e w : ended line b q e w -> cut line b -> str_at b q = w.
Proof.
  intros [Hsp He] [Hl Hc]. pose proof (span_bound _ _ _ _ Hsp) as [Hb Hq]. destruct Hsp as ([Hne Hw] & -> & rest & E & _).
  assert (forall i c, w !! i = Some c -> b !! (q + i)%nat = Some c) as Hin.
  { intros i c Hi. apply lookup_lt_Some in Hi as Hlt. rewrite char_at_lookup by lia. f_equal.
    assert (line !! (q + i)%nat = Some c) as Hli by (rewrite <-lookup_drop, E; by apply lookup_app_l_Some).
    assert (char_at (line ++ [0]) (q + i)%nat = c) as Ec by (unfold char_at; by rewrite (lookup_app_l_Some _ _ _ _ Hli)).
    destruct (Hw c (list_elem_of_lookup_2 _ _ _ Hi)) as [_ Hwc].
    destruct (Hc (q + i)%nat ltac:(lia)) as [Hx|[Hx|Hx]]; [congruence|congruence|lia]. }
  unfold str_at. assert (drop q b = w ++ 0 :: drop (S (q + length w)) b) as ->.
  { etrans; [symmetry; apply (take_drop (length w))|]. rewrite drop_drop.
    rewrite (drop_S b 0 (q + length w)) by (rewrite char_at_lookup by lia; congruence). f_equal.
    apply list_eq. intros i. destruct (decide (i < length w)%nat) as [Hi|Hi].
    - rewrite lookup_take_lt by done. rewrite lookup_drop. destruct (lookup_lt_is_Some_2 w i Hi) as [c Hci].
      by rewrite Hci, (Hin i c Hci).
    - rewrite !lookup_ge_None_2; [done|lia|rewrite length_take; lia]. }
  rewrite str_len_app by (intros c Hcw; by apply Hw). by rewrite take_app_length.
Qed.

Lemma tree_args_of line b qs es args : Forall3 (ended line b) qs es args -> cut line b ->
  forall n, tree_args b (map Some qs ++ replicate n None) = args.
Proof.
  intros Hf Hc n. induction Hf as [|q e w qs es args Hw _ IH]; cbn [map app tree_args]; [by destruct n|].
  by rewrite (str_at_word _ _ _ _ _ Hw Hc), IH.
Qed.

Lemma tree_of_den line st t : cut line (buf st) -> forall p fuel, den (ended line (buf st)) (heap st) p t ->
  (p < fuel)%nat -> tree_of fuel st p = Some t.
Proof.
  intros Hc. induction t as [args|t IH r f|l IHl r IHr|l IHl r IHr|t IH]; intros p fuel Hd Hf;
    (destruct fuel as [|fuel]; [lia|]); cbn [den tree_of] in *.
  - destruct Hd as (qs & es & -> & Hs). unfold argvec. by rewrite (tree_args_of _ _ _ _ _ Hs Hc).
  - destruct Hd as (c & q & e & -> & Hlt & Hs & Hd). rewrite (IH c fuel Hd) by lia. cbn [mbind option_bind].
    rewrite (str_at_word _ _ _ _ _ Hs Hc). by destruct r.
  - destruct Hd as (a & b & -> & Hlt & Hd1 & Hd2). by rewrite (IHl a fuel Hd1), (IHr b fuel Hd2) by lia.
  - destruct Hd as (a & b & -> & Hlt & Hd1 & Hd2). by rewrite (IHl a fuel Hd1), (IHr b fuel Hd2) by lia.
  - destruct Hd as (c & -> & Hlt & Hd). by rewrite (IH c fuel Hd) by lia.
Qed.

Lemma tk_bytes_no_nul t c : tk_ok t -> c ∈ tk_bytes t -> c <> 0.
Proof.
  destruct t as [w|d|]; cbn [tk_ok tk_bytes].
  - intros [_ Hw] Hc. by apply Hw.
  - intros Hd ->%list_elem_of_singleton. apply sym_cases in Hd. lia.
  - intros _ Hc. set_solver.
Qed.
Lemma renders_no_nul ts : forall line, renders ts line -> forall c, c ∈ line -> c <> 0.
Proof.
  assert (forall c, strchr whitespace c = true -> c <> 0) as Hws.
  { intros c Hc%strchr_in ->. unfold whitespace in Hc. set_solver. }
  induction ts as [|t ts IH]; intros line; cbn [renders]; [auto|].
  intros (ws & rest & -> & Hw & Hok & _ & R) c. rewrite !elem_of_app. intros [Hc|[Hc|Hc]]; eauto using tk_bytes_no_nul.
Qed.

Lemma parsecmd_ok malloc_ok t line : (forall n, malloc_ok n = true) -> tree_ok t -> renders (line_tokens t) line ->
  exists p st', parsecmd malloc_ok (sh_start line) = Ok p st' /\ out st' = [] /\
    tree_of (S (length (heap st'))) st' p = Some t.
Proof.
  intros Hm Hok R. unfold parsecmd. rewrite (bind_run get _ _ _ _ eq_refl). cbn [buf sh_start].
  assert (str_len (line ++ [0]) = length line) as -> by (apply str_len_app; by eapply renders_no_nul).
  rewrite (bind_run (modify _) _ _ _ _ eq_refl).
  assert (lexed line (parens 3 (tokens t) ++ []) (set_ps 0 (sh_start line))) as Hlex.
  { rewrite app_nil_r, parens_le by apply tokens_level. split; [done|]. split; [cbn; lia|]. exact R. }
  pose proof (lexed_length _ _ _ Hlex) as Hlen. rewrite app_nil_r in Hlen.
  destruct (all_stmts malloc_ok Hm line (tsize t) t ltac:(lia) Hok) as (_ & _ & Hl).
  destruct (Hl (4 * length line + 8)%nat [] ltac:(lia) ltac:(by left) _ Hlex) as (p & st1 & E1 & H1 & Eo1 & _ & Hd).
  rewrite (bind_run _ _ _ _ _ E1). unfold is_tree in Hd.
  pose proof (lex_next line [] st1 H1) as [_ Hq]. cbv zeta in Hq.
  unfold peek at 1. rewrite (bind_run (fun st => _) _ st1 _ _ eq_refl). rewrite Hq.
  rewrite (bind_run get _ _ _ _ eq_refl). cbn [ps set_ps]. rewrite Nat.eqb_refl. cbn [negb].
  rewrite (bind_run get _ _ _ _ eq_refl). cbn [heap set_ps].
  destruct (nulterminate_ok line (heap st1) t p (S (length (heap st1))) Hd) with (st := set_ps (length line) st1)
    as (st2 & E2 & Eh2 & _ & Eo2 & Hc2 & _ & Hd2).
  { apply den_bound in Hd. lia. } { done. }
  { cbn [buf set_ps]. destruct H1 as (-> & _). split; [rewrite length_app; cbn; lia|]. auto. }
  rewrite (bind_run _ _ _ _ _ E2). exists p, st2. split; [done|]. split; [cbn in *; congruence|].
  apply (tree_of_den line); [done| |].
  - by rewrite Eh2.
  - rewrite Eh2. apply den_bound in Hd. lia.
Qed.

(** ** Any input: the parser ends *)

(** The ways sh may stop while it parses: a syntax error or a failed malloc. *)
Definition benign (e : stop) : Prop :=
  e ∈ [Panic "syntax"; Panic "missing file for redirection"; Panic "too many args"; Panic "parseblock";
       Panic "syntax - missing )"; Fault "memset of a null pointer"].

(** The pointers of a node point to earlier nodes, and each argument has an end. *)
Definition node_ok (i : nat) (c : cmd) : Prop :=
  match c with
  | EXEC argv eargv => Forall2 (fun a e => is_Some a -> is_Some e) argv eargv
  | REDIR c _ _ _ _ | BACK c => (0 < c <= i)%nat
  | PIPE a b | LIST a b => (0 < a <= i)%nat /\ (0 < b <= i)%nat
  end.
Definition heap_ok (h : list cmd) : Prop := forall i c, h !! i = Some c -> node_ok i c.

Section total.
Context (malloc_ok : nat -> bool) (b : list Z).
#[local] Abbreviation es := (str_len b).

Definition pinv (st : shst) : Prop := buf st = b /\ (ps st <= es)%nat /\ heap_ok (heap st).

(** [m] started with [n] characters left ends well, at least [d] characters further on. *)
Definition tot {A} (d : nat) (m : M shst A) (Q : A -> shst -> Prop) (st : shst) : Prop :=
  match m st with
  | Ok a st' => pinv st' /\ (ps st + d <= ps st')%nat /\ (length (heap st) <= length (heap st'))%nat /\ Q a st'
  | Stop e _ => benign e
  end.

Definition ptr (p : nat) (st : shst) : Prop := (0 < p <= length (heap st))%nat.

Lemma tot_bind {A B} d1 d2 (m : M shst A) (k : A -> M shst B) (P : A -> shst -> Prop) Q st :
  tot d1 m P st ->
  (forall a st', pinv st' -> (ps st + d1 <= ps st')%nat -> (length (heap st) <= length (heap st'))%nat -> P a st' -> tot d2 (k a) Q st') ->
  tot (d1 + d2) (bind m k) Q st.
Proof.
  unfold tot. intros Hm Hk. unfold bind. destruct (m st) as [a st1|]; [|done]. destruct Hm as (I & Hp & Hh & HP).
  specialize (Hk a st1 I Hp Hh HP). destruct (k a st1); [|done]. destruct Hk as (? & ? & ? & ?). split_and!; auto; lia.
Qed.

Lemma tot_mono {A} d d' (m : M shst A) (P Q : A -> shst -> Prop) st : tot d m P st -> (d' <= d)%nat ->
  (forall a st', (length (heap st) <= length (heap st'))%nat -> P a st' -> Q a st') -> tot d' m Q st.
Proof. unfold tot. destruct (m st); [|done]. intros (? & ? & ? & ?) ? HQ. split_and!; auto; lia. Qed.

Lemma tot_ret {A} (a : A) (Q : A -> shst -> Prop) st : pinv st -> Q a st -> tot 0 (ret a) Q st.
Proof. intros. unfold tot, ret. split_and!; auto; lia. Qed.

Lemma tot_panic {A} d msg Q st : benign (Panic msg) -> tot (A := A) d (sh_panic msg) Q st.
Proof. done. Qed.

Lemma char_at_es : char_at b es = 0.
Proof.
  unfold char_at. clear. induction b as [|c l IH]; [done|]. cbn [str_len]. destruct (Z.eqb_spec c 0) as [->|]; [done|]. exact IH.
Qed.

Lemma skip_while_range p k : forall s, (s <= skip_while p b k s <= s + k)%nat.
Proof. induction k as [|k IH]; intros s; cbn [skip_while]; [lia|]. destruct (p _); [|lia]. specialize (IH (S s)). lia. Qed.
Lemma skip_ws_range s : (s <= es)%nat -> (s <= skip_ws b s es <= es)%nat.
Proof. intros. unfold skip_ws. pose proof (skip_while_range (strchr whitespace) (es - s) s). lia. Qed.
Lemma skip_while_stop p k s : p (char_at b s) = false -> skip_while p b k s = s.
Proof. destruct k; cbn [skip_while]; [done|]. by intros ->. Qed.
Lemma nonzero_before i : (i <= es)%nat -> char_at b i <> 0 -> (i < es)%nat.
Proof. intros Hi Hne. destruct (decide (i = es)) as [->|]; [by rewrite char_at_es in Hne|lia]. Qed.

(** peek: when it answers true the next character is a token of the list. *)
Lemma peek_tot toks st : pinv st -> tot 0 (peek es toks) (fun r st' => heap st' = heap st /\
  (r = true -> char_at b (ps st') <> 0 /\ strchr toks (char_at b (ps st')) = true)) st.
Proof.
  intros (Eb & Hp & Hh). unfold tot, peek. rewrite Eb. pose proof (skip_ws_range (ps st) Hp).
  set (q := skip_ws b (ps st) es) in *. split; [split; [done|]; split; [cbn; lia|done]|].
  cbn [ps heap set_ps]. split; [lia|]. split; [done|]. split; [done|].
  intros Hr. unfold nz in Hr. by bool_to_prop.
Qed.

Lemma gettoken_tot st : pinv st -> tot 0 (gettoken es) (fun '(tok, q, e) st' => heap st' = heap st /\
  (tok <> 0 -> (ps st < ps st')%nat)) st /\
  (char_at b (ps st) <> 0 -> strchr whitespace (char_at b (ps st)) = false ->
   match gettoken es st with Ok (tok, _, _) _ => tok <> 0 | Stop _ _ => False end).
Proof.
  intros (Eb & Hp & Hh). unfold tot, gettoken. rewrite Eb. pose proof (skip_ws_range (ps st) Hp) as Hq.
  set (q := skip_ws b (ps st) es) in *.
  assert (forall s, (q <= s <= es)%nat -> pinv (set_ps (skip_ws b s es) st) /\ (s <= skip_ws b s es)%nat) as Hs.
  { intros s Hs. pose proof (skip_ws_range s ltac:(lia)). split; [|lia]. split; [done|]. split; [cbn; lia|done]. }
  assert (char_at b (ps st) <> 0 -> strchr whitespace (char_at b (ps st)) = false -> q = ps st) as Hq0.
  { intros _ Hw. by apply skip_while_stop. }
  destruct (Z.eqb_spec (char_at b q) 0) as [E0|E0].
  - destruct (Hs q ltac:(lia)) as [I Hle]. cbn [ps heap set_ps]. split; [|intros Hne Hw; pose proof (Hq0 Hne Hw); congruence].
    split; [exact I|]. split; [lia|]. split; [done|]. split; [done|]. by intros [].
  - apply nonzero_before in E0 as Hlt; [|lia].
    assert (forall tok s, tok <> 0 -> (q < s <= es)%nat ->
      (pinv (set_ps (skip_ws b s es) st) /\ (ps st + 0 <= ps (set_ps (skip_ws b s es) st))%nat /\
      (length (heap st) <= length (heap (set_ps (skip_ws b s es) st)))%nat /\ heap (set_ps (skip_ws b s es) st) = heap st /\
      (tok <> 0 -> (ps st < ps (set_ps (skip_ws b s es) st))%nat)) /\
      (char_at b (ps st) <> 0 -> strchr whitespace (char_at b (ps st)) = false -> tok <> 0)) as Hfin.
    { intros tok s Ht Hqs. destruct (Hs s ltac:(lia)) as [I Hle]. cbn [ps heap set_ps]. split_and!; auto; lia. }
    destruct (strchr (bytes "|();&<") (char_at b q)) eqn:E1; [apply Hfin; [done|lia]|].
    destruct (Z.eqb_spec (char_at b q) 62) as [E2|E2].
    + destruct (Z.eqb_spec (char_at b (S q)) 62) as [E3|E3]; [|apply Hfin; [done|lia]].
      assert (S q < es)%nat as Hlt2 by (apply nonzero_before; [lia|rewrite E3; done]). apply Hfin; [done|lia].
    + destruct (word_char (char_at b q)) eqn:Ew.
      * destruct (es - q)%nat as [|k] eqn:Ek; [lia|]. cbn [skip_while]. rewrite Ew.
        pose proof (skip_while_range word_char k (S q)). apply Hfin; [done|lia].
      * exfalso. unfold word_char in Ew. apply andb_false_iff in Ew as [Ew|Ew]; apply negb_false_iff in Ew.
        -- assert (strchr whitespace (char_at b q) = false) as Hn; [|congruence].
           clear - Hp Hlt Hq. unfold q, skip_ws in *. clear q.
           remember (es - ps st)%nat as k eqn:Ek. revert Hlt Hp Ek. generalize (ps st). clear Hq.
           induction k as [|k IH]; intros s Hlt Hp Ek; cbn [skip_while] in *; [lia|].
           destruct (strchr whitespace (char_at b s)) eqn:Es; [|done]. apply IH; [done|lia|lia].
        -- apply sym_cases in Ew. assert (strchr (bytes "|();&<") (char_at b q) = true); [|congruence].
           destruct_or! Ew; rewrite Ew in E2 |- *; done.
Qed.

Lemma tot_peek {A} d toks (k : bool -> M shst A) Q st : pinv st -> symbolic toks ->
  (forall r st', pinv st' -> (ps st <= ps st')%nat -> heap st' = heap st ->
     (r = true -> char_at b (ps st') <> 0 /\ strchr whitespace (char_at b (ps st')) = false) -> tot d (k r) Q st') ->
  tot d (bind (peek es toks) k) Q st.
Proof.
  intros I Hsym Hk. change d with (0 + d)%nat. eapply tot_bind; [by apply peek_tot|].
  intros r st' I' Hp _ [Eh Hr]. apply Hk; [done|lia|done|]. intros Er. destruct (Hr Er) as [Hne Hin]. split; [done|].
  apply strchr_in, Hsym, sym_cases in Hin. clear Hr. destruct_or! Hin; rewrite Hin; done.
Qed.

Lemma tot_gettoken {A} d (k : Z * nat * nat -> M shst A) Q st : pinv st ->
  (forall tok q e st', pinv st' -> (ps st <= ps st')%nat -> (tok <> 0 -> (ps st < ps st')%nat) -> heap st' = heap st ->
     (char_at b (ps st) <> 0 -> strchr whitespace (char_at b (ps st)) = false -> tok <> 0) -> tot d (k (tok, q, e)) Q st') ->
  tot d (bind (gettoken es) k) Q st.
Proof.
  intros I Hk. destruct (gettoken_tot st I) as [Ht Hn]. unfold tot, bind in *.
  destruct (gettoken es st) as [[[tok q] e] st1|]; [|done]. destruct Ht as (I1 & Hp & _ & Eh & Htok).
  specialize (Hk tok q e st1 I1 ltac:(lia) Htok Eh Hn). destruct (k _ st1); [|done].
  destruct Hk as (? & ? & Hl & ?). rewrite Eh in Hl. split_and!; auto; lia.
Qed.

Lemma tot_alloc c st : pinv st -> node_ok (length (heap st)) c -> tot 0 (alloc malloc_ok c) (fun p st' => ptr p st') st.
Proof.
  intros (Eb & Hp & Hh) Hc. unfold tot, alloc. destruct (malloc_ok _); [|unfold benign; set_solver].
  cbn [buf ps heap set_heap]. unfold ptr. cbn [heap set_heap]. rewrite length_app. cbn [length]. split_and!; try lia.
  split; [done|]. split; [done|]. intros i c' Hi. cbn [heap set_heap] in Hi. apply lookup_app_Some in Hi as [Hi|[Hge Hi]]; [by apply Hh|].
  destruct (i - length (heap st))%nat eqn:Ei; [|done]. injection Hi as <-. by replace i with (length (heap st)) by lia.
Qed.

Lemma tot_set_arg c n x y st : pinv st -> (is_Some x -> is_Some y) -> tot 0 (set_arg c n x y) (fun _ _ => True) st.
Proof.
  intros (Eb & Hp & Hh) Hxy. unfold tot, set_arg, modify.
  destruct (node (heap st) c) as [[argv eargv| | | |]|] eqn:En; try (split_and!; [split; [done|split; done]|lia|done|done]).
  destruct c as [|i]; [done|]. cbn [set_node buf ps heap set_heap]. simpl in En. rewrite length_insert.
  split_and!; try lia; try done. split; [done|]. split; [done|]. cbn [heap set_heap]. intros j c Hj.
  apply list_lookup_insert_Some in Hj as [(-> & <- & _)|[_ Hj]]; [|by apply Hh].
  apply Forall2_insert; [exact (Hh _ _ En)|done].
Qed.

Lemma symbolic_all : symbolic (bytes "<>") /\ symbolic (bytes "|)&;") /\ symbolic (bytes "&") /\ symbolic (bytes ";") /\
  symbolic (bytes "|") /\ symbolic (bytes "(") /\ symbolic (bytes ")") /\ symbolic [].
Proof. split_and!; by apply symbolic_b. Qed.

Lemma ptr_grow p st st' : (length (heap st) <= length (heap st'))%nat -> ptr p st -> ptr p st'.
Proof. unfold ptr. lia. Qed.

Lemma tot_weaken {A} (m : M shst A) d Q st : tot d m Q st -> tot 0 m Q st.
Proof. intros Hm. eapply tot_mono; [exact Hm|lia|auto]. Qed.

Lemma parseredirs_tot fuel : forall c st, pinv st -> (es - ps st < fuel)%nat -> ptr c st ->
  tot 0 (parseredirs malloc_ok fuel es c) ptr st.
Proof.
  induction fuel as [|fuel IH]; intros c st I Hf Hc; [lia|]. cbn [parseredirs].
  apply tot_peek; [done|apply symbolic_all|]. intros [] st1 I1 Hp1 E1 Hr; [|apply tot_ret; [done|unfold ptr in *; by rewrite E1]].
  destruct (Hr eq_refl) as [Hne Hws]. apply tot_gettoken; [done|]. intros tok q e st2 I2 Hp2 Ht2 E2 Hn2.
  specialize (Ht2 (Hn2 Hne Hws)). apply tot_gettoken; [done|]. intros tok2 q2 e2 st3 I3 Hp3 _ E3 _.
  destruct (negb (tok2 =? 97)); [apply tot_panic; unfold benign; set_solver|].
  assert (ptr c st3) as Hc3 by (unfold ptr in *; by rewrite E3, E2, E1).
  assert (forall mode fd, tot 0 (redircmd malloc_ok c q2 e2 mode fd) ptr st3) as Ha.
  { intros mode fd. apply tot_alloc; [done|]. cbn [node_ok]. unfold ptr in Hc3. lia. }
  change 0%nat with (0 + 0)%nat. apply (tot_bind _ _ _ _ ptr).
  - destruct (tok =? 60); [apply Ha|]. destruct (tok =? 62); [apply Ha|]. destruct (tok =? 43); [apply Ha|]. by apply tot_ret.
  - intros c' st4 I4 Hp4 _ Hc4. apply IH; [done| |done]. destruct I1 as (_ & ? & _), I4 as (_ & ? & _). lia.
Qed.

Lemma parseback_tot fuel : forall c st, pinv st -> (es - ps st < fuel)%nat -> ptr c st ->
  tot 0 (parseback malloc_ok fuel es c) ptr st.
Proof.
  induction fuel as [|fuel IH]; intros c st I Hf Hc; [lia|]. cbn [parseback].
  apply tot_peek; [done|apply symbolic_all|]. intros [] st1 I1 Hp1 E1 Hr; [|apply tot_ret; [done|unfold ptr in *; by rewrite E1]].
  destruct (Hr eq_refl) as [Hne Hws]. apply tot_gettoken; [done|]. intros tok q e st2 I2 Hp2 Ht2 E2 Hn2.
  specialize (Ht2 (Hn2 Hne Hws)). change 0%nat with (0 + 0)%nat. eapply tot_bind.
  - apply tot_alloc; [done|]. cbn [node_ok]. unfold ptr in Hc. rewrite E2, E1. lia.
  - intros c' st4 I4 Hp4 _ Hc4. apply IH; [done| |done]. destruct I1 as (_ & ? & _), I4 as (_ & ? & _). lia.
Qed.

Lemma parseargs_tot fuel : forall c r argc st, pinv st -> (es - ps st < fuel)%nat -> ptr r st ->
  tot 0 (parseargs malloc_ok fuel es c r argc) ptr st.
Proof.
  induction fuel as [|fuel IH]; intros c r argc st I Hf Hc; [lia|]. cbn [parseargs]. cbv zeta.
  assert (forall st', pinv st' -> ptr r st' -> tot 0 (set_arg c argc None None ;; ret r) ptr st') as Hdone.
  { intros st' I' Hr'. change 0%nat with (0 + 0)%nat. eapply tot_bind; [by apply tot_set_arg|].
    intros [] st2 I2 _ Hl _. apply tot_ret; [done|by eapply ptr_grow]. }
  apply tot_peek; [done|apply symbolic_all|]. intros [] st1 I1 Hp1 E1 _; [apply Hdone; [done|unfold ptr in *; by rewrite E1]|].
  apply tot_gettoken; [done|]. intros tok q e st2 I2 Hp2 Ht2 E2 _. assert (ptr r st2) as Hr2 by (unfold ptr in *; by rewrite E2, E1).
  destruct (Z.eqb_spec tok 0) as [->|Hne]; [by apply Hdone|]. specialize (Ht2 Hne).
  destruct (negb (tok =? 97)); [apply tot_panic; unfold benign; set_solver|].
  change 0%nat with (0 + 0)%nat. eapply tot_bind; [by apply tot_set_arg|]. intros [] st3 I3 Hp3 Hl3 _.
  destruct (_ <=? _)%nat; [apply tot_panic; unfold benign; set_solver|].
  assert ((ps st < ps st3)%nat /\ (ps st3 <= es)%nat) as [Hlt Hle] by (destruct I3 as (_ & ? & _); lia).
  change 0%nat with (0 + 0)%nat. eapply tot_bind.
  - apply parseredirs_tot; [done|lia|by eapply ptr_grow].
  - intros r' st4 I4 Hp4 _ Hr4. apply IH; [done|lia|done].
Qed.

Lemma parse_tot fuel : forall st, pinv st ->
  ((4 * (es - ps st) + 4 <= fuel)%nat -> tot 0 (parseline malloc_ok fuel es) ptr st) /\
  ((4 * (es - ps st) + 3 <= fuel)%nat -> tot 0 (parsepipe malloc_ok fuel es) ptr st) /\
  ((4 * (es - ps st) + 2 <= fuel)%nat -> tot 0 (parseexec malloc_ok fuel es) ptr st) /\
  ((4 * (es - ps st) + 1 <= fuel)%nat -> tot 0 (parseblock malloc_ok fuel es) ptr st).
Proof.
  induction fuel as [|fuel IH]; intros st I; [split_and!; intros; lia|]. split_and!; intros Hf.
  - cbn [parseline]. change 0%nat with (0 + 0)%nat. eapply tot_bind; [apply IH; [done|lia]|].
    intros c st1 I1 Hp1 _ Hc1. change 0%nat with (0 + 0)%nat. eapply tot_bind; [apply parseback_tot; [done|lia|done]|].
    intros c2 st2 I2 Hp2 _ Hc2. apply tot_peek; [done|apply symbolic_all|].
    intros [] st3 I3 Hp3 E3 Hr; [|apply tot_ret; [done|unfold ptr in *; by rewrite E3]].
    destruct (Hr eq_refl) as [Hne Hws]. apply tot_gettoken; [done|]. intros tok q e st4 I4 Hp4 Ht4 E4 Hn4.
    specialize (Ht4 (Hn4 Hne Hws)). assert (ps st4 <= es)%nat by (by destruct I4 as (_ & ? & _)).
    change 0%nat with (0 + 0)%nat. eapply tot_bind; [apply IH; [done|lia]|].
    intros rc st5 I5 _ Hl Hrc. apply tot_alloc; [done|]. cbn [node_ok]. unfold ptr in *. rewrite E4, E3 in Hl. lia.
  - cbn [parsepipe]. change 0%nat with (0 + 0)%nat. eapply tot_bind; [apply IH; [done|lia]|].
    intros c2 st2 I2 Hp2 _ Hc2. apply tot_peek; [done|apply symbolic_all|].
    intros [] st3 I3 Hp3 E3 Hr; [|apply tot_ret; [done|unfold ptr in *; by rewrite E3]].
    destruct (Hr eq_refl) as [Hne Hws]. apply tot_gettoken; [done|]. intros tok q e st4 I4 Hp4 Ht4 E4 Hn4.
    specialize (Ht4 (Hn4 Hne Hws)). assert (ps st4 <= es)%nat by (by destruct I4 as (_ & ? & _)).
    change 0%nat with (0 + 0)%nat. eapply tot_bind; [apply IH; [done|lia]|].
    intros rc st5 I5 _ Hl Hrc. apply tot_alloc; [done|]. cbn [node_ok]. unfold ptr in *. rewrite E4, E3 in Hl. lia.
  - cbn [parseexec]. apply tot_peek; [done|apply symbolic_all|]. intros [] st1 I1 Hp1 E1 _; [apply IH; [done|lia]|].
    change 0%nat with (0 + 0)%nat. eapply tot_bind.
    { apply tot_alloc; [done|]. cbn [node_ok]. by apply Forall2_replicate. }
    intros c st2 I2 Hp2 _ Hc2. change 0%nat with (0 + 0)%nat. eapply tot_bind; [apply parseredirs_tot; [done|lia|done]|].
    intros r st3 I3 Hp3 _ Hr3. apply parseargs_tot; [done|lia|done].
  - cbn [parseblock]. apply tot_peek; [done|apply symbolic_all|].
    intros [] st1 I1 Hp1 E1 Hr; [|apply tot_panic; unfold benign; set_solver]. cbn [negb].
    destruct (Hr eq_refl) as [Hne Hws]. apply tot_gettoken; [done|]. intros tok q e st2 I2 Hp2 Ht2 E2 Hn2.
    specialize (Ht2 (Hn2 Hne Hws)). assert (ps st2 <= es)%nat by (by destruct I2 as (_ & ? & _)).
    change 0%nat with (0 + 0)%nat. eapply tot_bind; [apply IH; [done|lia]|].
    intros c st3 I3 Hp3 _ Hc3. apply tot_peek; [done|apply symbolic_all|].
    intros [] st4 I4 Hp4 E4 _; [|apply tot_panic; unfold benign; set_solver]. cbn [negb].
    apply tot_gettoken; [done|]. intros tok' q' e' st5 I5 Hp5 _ E5 _.
    apply parseredirs_tot; [done|lia|]. unfold ptr in *. by rewrite E5, E4.
Qed.
End total.

Lemma nul_args_total argv eargv : Forall2 (fun a e : option nat => is_Some a -> is_Some e) argv eargv ->
  forall st, exists st', nul_args argv eargv st = Ok tt st' /\ heap st' = heap st.
Proof.
  induction 1 as [|a e argv eargv Hae _ IH]; intros st; cbn [nul_args]; [by exists st|].
  destruct a as [q|]; [|by exists st]. destruct (Hae ltac:(by eexists)) as [x ->].
  destruct (IH (ShSt (<[x := 0]> (buf st)) (ps st) (heap st) (out st))) as (st' & E & Eh). exists st'. split; [exact E|exact Eh].
Qed.

Lemma nulterminate_total fuel : forall p st, heap_ok (heap st) -> (0 < p <= length (heap st))%nat -> (p < fuel)%nat ->
  exists st', nulterminate fuel p st = Ok p st' /\ heap st' = heap st.
Proof.
  induction fuel as [|fuel IH]; intros p st Hh Hp Hf; [lia|]. cbn [nulterminate].
  destruct p as [|i]; [lia|]. cbn [Nat.eqb]. rewrite (bind_run get _ _ _ _ eq_refl). cbn [node].
  destruct (lookup_lt_is_Some_2 (heap st) i) as [c Hc]; [lia|]. pose proof (Hh _ _ Hc) as Hok. rewrite Hc.
  assert (forall a st1, (0 < a <= i)%nat -> heap st1 = heap st -> exists st', nulterminate fuel a st1 = Ok a st' /\ heap st' = heap st) as Hrec.
  { intros a st1 Ha E1. rewrite <-E1. apply IH; rewrite ?E1; [done|lia|lia]. }
  destruct c as [argv eargv|a f e mo fd|a b'|a b'|a]; cbn [node_ok] in Hok.
  - destruct (nul_args_total _ _ Hok st) as (st1 & E1 & Eh1). rewrite (bind_run _ _ _ _ _ E1). by exists st1.
  - destruct (Hrec a st Hok eq_refl) as (st1 & E1 & Eh1). rewrite bind_assoc, (bind_run _ _ _ _ _ E1).
    eexists. split; [reflexivity|done].
  - destruct Hok as [Ha Hb]. destruct (Hrec a st Ha eq_refl) as (st1 & E1 & Eh1). rewrite bind_assoc, (bind_run _ _ _ _ _ E1).
    destruct (Hrec b' st1 Hb Eh1) as (st2 & E2 & Eh2). rewrite bind_assoc, (bind_run _ _ _ _ _ E2). by exists st2.
  - destruct Hok as [Ha Hb]. destruct (Hrec a st Ha eq_refl) as (st1 & E1 & Eh1). rewrite bind_assoc, (bind_run _ _ _ _ _ E1).
    destruct (Hrec b' st1 Hb Eh1) as (st2 & E2 & Eh2). rewrite bind_assoc, (bind_run _ _ _ _ _ E2). by exists st2.
  - destruct (Hrec a st Hok eq_refl) as (st1 & E1 & Eh1). rewrite bind_assoc, (bind_run _ _ _ _ _ E1). by exists st1.
Qed.

Lemma parsecmd_total_ok malloc_ok b p0 out0 :
  match parsecmd malloc_ok (ShSt b p0 [] out0) with
  | Ok p st' => heap_ok (heap st') /\ (0 < p <= length (heap st'))%nat
  | Stop e _ => benign e
  end.
Proof.
  unfold parsecmd. rewrite (bind_run get _ _ _ _ eq_refl). cbn [buf].
  rewrite (bind_run (modify _) _ _ _ _ eq_refl). set (st0 := set_ps 0 _).
  assert (pinv b st0) as I0 by (split; [done|]; split; [cbn; lia|]; intros i c Hi; done).
  destruct (parse_tot malloc_ok b (4 * str_len b + 8) st0 I0) as [Ht _]. specialize (Ht ltac:(cbn; lia)).
  unfold tot in Ht. unfold bind at 1. destruct (parseline _ _ _ st0) as [p st1|]; [|done]. destruct Ht as (I1 & _ & _ & Hp).
  unfold peek at 1. rewrite (bind_run (fun st => _) _ st1 _ _ eq_refl). set (st2 := set_ps _ st1).
  rewrite (bind_run get _ _ _ _ eq_refl). destruct (negb _).
  { unfold bind, emit, sh_panic, modify, panic, halt. unfold benign. set_solver. }
  rewrite (bind_run get _ _ _ _ eq_refl).
  destruct (nulterminate_total (S (length (heap st2))) p st2) as (st3 & E3 & Eh3); [apply I1|exact Hp|destruct Hp; cbn [heap st2 set_ps]; lia|].
  rewrite (bind_run _ _ _ _ _ E3). cbn. rewrite Eh3. split; [apply I1|exact Hp].
Qed.

(** ** Properties *)

(** C28: The parser of the shell inverts printing. However the tokens of a
    command tree are laid out on the line, with any blanks, tabs and newlines
    between them and parentheses where the grammar needs them, parsecmd reads
    the line without complaint and the structs it leaves, with the strings
    that nulterminate has cut out of the line, are that tree: arguments and
    their order, redirections (file, mode, descriptor) and their nesting, and
    the precedence of |, & and ;. *)
Theorem parser_inverts_print malloc_ok t line :
  (forall n, malloc_ok n = true) -> tree_ok t -> renders (line_tokens t) line ->
  exists p st', parsecmd malloc_ok (sh_start line) = Ok p st' /\ out st' = [] /\
    tree_of (S (length (heap st'))) st' p = Some t.
Proof. apply parsecmd_ok. Qed.

(** C29: The parser ends on every input. Whatever bytes the buffer holds and
    whichever calls of malloc fail, parsecmd either returns a command whose
    pointers all lead to nodes built before the node that holds them (so that
    nulterminate and runcmd end), or stops with one of its five syntax errors
    or in the memset after a failed malloc; it never loops and never follows a
    wild or null pointer. *)
Theorem parser_total malloc_ok b p0 out0 :
  match parsecmd malloc_ok (ShSt b p0 [] out0) with
  | Ok p st' => heap_ok (heap st') /\ (0 < p <= length (heap st'))%nat
  | Stop e _ => benign e
  end.
Proof. apply parsecmd_total_ok. Qed.

Definition demo_tree : tree :=
  TBack (TPipe (TRedir (TExec [bytes "ls"; bytes "-l"]) RIn (bytes "a"))
               (TRedir (TList (TExec [bytes "wc"]) (TExec [bytes "x"])) RApp (bytes "b"))).
Definition demo_line : list Z := bytes "ls -l <a |(wc; x)>> b &".

Lemma parser_inverts_print_witness :
  exists p st', parsecmd (fun _ => true) (sh_start demo_line) = Ok p st' /\
    tree_of (S (length (heap st'))) st' p = Some demo_tree.
Proof.
  assert (forall l : list Z, forallb (strchr whitespace) l = true -> forall c, c ∈ l -> strchr whitespace c = true) as Hws.
  { intros l Hl c Hc. apply (proj1 (forallb_forall _ _) Hl). by apply list_elem_of_In. }
  assert (forall w, forallb (fun c => negb (c =? 0) && word_char c) w = true -> w <> [] -> word_ok w) as Hwd.
  { intros w Hw Hne. split; [done|]. intros c Hc. apply list_elem_of_In in Hc.
    apply (proj1 (forallb_forall _ _) Hw) in Hc. by bool_to_prop. }
  destruct (parser_inverts_print (fun _ => true) demo_tree demo_line) as (p & st' & E & _ & Et).
  - done.
  - cbn [demo_tree tree_ok length]. unfold MAXARGS. split_and!; try lia; try (apply Hwd; vm_compute; done).
    all: intros w Hw; repeat (apply elem_of_cons in Hw as [->|Hw]; [apply Hwd; vm_compute; done|]); by apply elem_of_nil in Hw.
  - assert (forall t ts ws rest, forallb (strchr whitespace) ws = true -> tk_ok t -> tk_sep t rest -> renders ts rest ->
      renders (t :: ts) (ws ++ tk_bytes t ++ rest)) as Hstep.
    { intros t ts ws rest Hw Hok Hs Hr. cbn [renders]. exists ws, rest.
      split; [done|]. split; [by apply Hws|done]. }
    assert (forall w, forallb (fun c => negb (c =? 0) && word_char c) w = true -> w <> [] -> tk_ok (TkWord w)) as Htw by exact Hwd.
    assert (forall w c r, word_char c = false -> tk_sep (TkWord w) (c :: r)) as Hsw by (intros w c r Hc; right; eauto).
    change demo_line with ([] ++ bytes "ls" ++ [32] ++ bytes "-l" ++ [32] ++ [60] ++ [] ++ bytes "a" ++ [32] ++ [124] ++ [] ++ [40] ++
      [] ++ bytes "wc" ++ [] ++ [59] ++ [32] ++ bytes "x" ++ [] ++ [41] ++ [] ++ [62; 62] ++ [32] ++ bytes "b" ++ [32] ++ [38] ++ []).
    change (line_tokens demo_tree) with [TkWord (bytes "ls"); TkWord (bytes "-l"); TkSym 60; TkWord (bytes "a"); TkSym 124; TkSym 40;
      TkWord (bytes "wc"); TkSym 59; TkWord (bytes "x"); TkSym 41; TkApp; TkWord (bytes "b"); TkSym 38].
    repeat match goal with
    | |- renders (_ :: _) _ => apply Hstep; [reflexivity| | |]
    | |- tk_ok (TkWord _) => apply Htw; vm_compute; done
    | |- tk_ok _ => done
    | |- tk_sep (TkWord _) _ => apply Hsw; reflexivity
    | |- tk_sep _ _ => done
    end.
    intros c Hc. by apply elem_of_nil in Hc.
  - exists p, st'. split; [exact E|exact Et].
Defined.
