(* ===== verification/Shellrun.v ===== *)
(** * user/sh.c: running commands

    runcmd, fork1, panic and the loop of main, as the program of system calls a
    process makes: [prog] has a constructor per system call, with the rest of
    the process after each result sh.c tells apart. [run] runs such a program
    and every process it forks on tables of descriptors, and gives what each of
    them does: [act]. The theorem: a line the shell reads makes the processes of
    its tree, each with the descriptors of the shell, but for its redirections
    and its ends of pipes, and with the waits that put them in order. *)

From stdpp Require Import base gmap list strings.
From Stdlib Require Import ZArith Lia.
From S2P Require Import Prelude Sysfile Shell Shellparse.

(** ** System calls *)

Inductive prog : Type :=
  | PExit (status : Z)
  | PExec (path : list Z) (argv : list (list Z)) (failed : prog)
  | PWrite (fd : Z) (bs : list Z) (k : prog)
  | PClose (fd : Z) (k : prog)
  | PDup (fd : Z) (k : prog)
  | POpen (path : list Z) (mode : Z) (failed : prog) (k : prog)
  | PChdir (path : list Z) (failed : prog) (k : prog)
  | PPipe (failed : prog) (k : Z -> Z -> prog)          (* p[0], p[1] *)
  | PFork (failed child parent : prog)
  | PWait (k : prog)
  | PFault.

(** panic(s) *)
Definition run_panic (msg : string) : prog := PWrite 2 (bytes msg ++ [10]) (PExit 1).
Definition fork1 (child parent : prog) : prog := PFork (run_panic "fork") child parent.

(** The arguments of an EXEC node. *)
Fixpoint runcmd (fuel : nat) (st : shst) (p : nat) : prog :=
  match fuel with
  | O => PFault
  | S fuel =>
      if (p =? 0)%nat then PExit 1
      else
        match node (heap st) p with
        | Some (EXEC argv _) =>
            match tree_args (buf st) argv with
            | [] => PExit 1
            | path :: _ =>
                PExec path (tree_args (buf st) argv) (PWrite 2 (bytes "exec " ++ path ++ bytes " failed" ++ [10]) (PExit 0))
            end
        | Some (REDIR c file _ mode fd) =>
            let f := str_at (buf st) file in
            PClose fd (POpen f mode (PWrite 2 (bytes "open " ++ f ++ bytes " failed" ++ [10]) (PExit 1)) (runcmd fuel st c))
        | Some (LIST lc rc) => fork1 (runcmd fuel st lc) (PWait (runcmd fuel st rc))
        | Some (PIPE lc rc) =>
            PPipe (run_panic "pipe") (fun p0 p1 =>
              fork1 (PClose 1 (PDup p1 (PClose p0 (PClose p1 (runcmd fuel st lc)))))
                (fork1 (PClose 0 (PDup p0 (PClose p0 (PClose p1 (runcmd fuel st rc)))))
                  (PClose p0 (PClose p1 (PWait (PWait (PExit 0)))))))
        | Some (BACK c) => fork1 (runcmd fuel st c) (PExit 0)
        | None => PFault
        end
  end.

(** runcmd(parsecmd(buf)) *)
Definition run_line (malloc_ok : nat -> bool) (b : list Z) : prog :=
  match parsecmd malloc_ok (ShSt b 0 [] []) with
  | Ok p st => runcmd (S (length (heap st))) st p
  | Stop (Panic _) st => PWrite 2 (out st) (PExit 1)
  | Stop _ _ => PFault
  end.

(** One turn of the loop of main with a line in buf; [next] is the next turn. *)
Definition sh_turn (malloc_ok : nat -> bool) (b : list Z) (next : prog) : prog :=
  if (char_at b 0 =? 99) && (char_at b 1 =? 100) && (char_at b 2 =? 32) then
    let b := <[(str_len b - 1)%nat := 0]> b in
    let dir := str_at b 3 in
    PChdir dir (PWrite 2 (bytes "cannot cd " ++ dir ++ [10]) next) next
  else fork1 (run_line malloc_ok b) (PWait next).

(** The loop of main over the lines it reads; at the end of the input gets
    leaves buf empty. *)
Fixpoint sh_loop (malloc_ok : nat -> bool) (lines : list (list Z)) : prog :=
  match lines with
  | [] => PWrite 2 (bytes "$ ") (PExit 0)
  | b :: lines =>
      PWrite 2 (bytes "$ ") (if char_at b 0 =? 0 then PExit 0 else sh_turn malloc_ok b (sh_loop malloc_ok lines))
  end.

(** ** Descriptors *)

Inductive object : Type := OTty (n : nat) | OFile (path : list Z) (mode : Z) | ORead (pipe : nat) | OWrite (pipe : nat).
Abbreviation table := (list (option object)).

Fixpoint lowest (t : table) : nat :=
  match t with
  | None :: _ => O
  | Some _ :: t => S (lowest t)
  | [] => O
  end.
Definition tclose (fd : Z) (t : table) : table := <[Z.to_nat fd := None]> t.
Definition tadd (o : object) (t : table) : table := <[lowest t := Some o]> t.
Definition tdup (fd : Z) (t : table) : table :=
  match t !! Z.to_nat fd with Some (Some o) => tadd o t | _ => t end.

(** What can be seen of a process, in order: the program it becomes, with its
    arguments and descriptors; what it prints; the children it makes, with what
    they do; its waits for a child, with the descriptors it holds meanwhile;
    its exit. *)
Inductive act : Type :=
  | AExec (argv : list (list Z)) (t : table)
  | AWrite (fd : Z) (bs : list Z)
  | AFork (child : list act)
  | AWait (t : table)
  | AExit (status : Z)
  | AFault.

Section run.
Context (exec_ok : list Z -> bool) (open_ok : list Z -> Z -> bool).

(** What a process does; [n] numbers the pipes. fork, pipe and chdir succeed. *)
Fixpoint run (p : prog) (t : table) (n : nat) : list act * nat :=
  match p with
  | PExit st => ([AExit st], n)
  | PFault => ([AFault], n)
  | PExec path argv failed => if exec_ok path then ([AExec argv t], n) else run failed t n
  | PWrite fd bs k => let '(e, n1) := run k t n in (AWrite fd bs :: e, n1)
  | PWait k => let '(e, n1) := run k t n in (AWait t :: e, n1)
  | PClose fd k => run k (tclose fd t) n
  | PDup fd k => run k (tdup fd t) n
  | POpen path mode failed k => if open_ok path mode then run k (tadd (OFile path mode) t) n else run failed t n
  | PChdir _ _ k => run k t n
  | PPipe _ k =>
      let p0 := lowest t in
      let t1 := tadd (ORead n) t in
      let p1 := lowest t1 in
      run (k (Z.of_nat p0) (Z.of_nat p1)) (tadd (OWrite n) t1) (S n)
  | PFork _ child parent =>
      let '(e1, n1) := run child t n in
      let '(e2, n2) := run parent t n1 in
      (AFork e1 :: e2, n2)
  end.

(** ** What the process of a command tree should do

    A command becomes its program; both sides of a pipe run at once, each with
    its end of the pipe, while their parent waits for both, with no end of it;
    the left side of a list has ended before the right side begins; a command
    in the background is not waited for. *)

Fixpoint wiring (c : tree) (t : table) (n : nat) : list act * nat :=
  match c with
  | TExec [] => ([AExit 1], n)
  | TExec (path :: args) =>
      if exec_ok path then ([AExec (path :: args) t], n)
      else ([AWrite 2 (bytes "exec " ++ path ++ bytes " failed" ++ [10]); AExit 0], n)
  | TRedir c r f =>
      if open_ok f (redir_mode r) then wiring c (<[Z.to_nat (redir_fd r) := Some (OFile f (redir_mode r))]> t) n
      else ([AWrite 2 (bytes "open " ++ f ++ bytes " failed" ++ [10]); AExit 1], n)
  | TPipe a b =>
      let '(e1, n1) := wiring a (<[1%nat := Some (OWrite n)]> t) (S n) in
      let '(e2, n2) := wiring b (<[0%nat := Some (ORead n)]> t) n1 in
      ([AFork e1; AFork e2; AWait t; AWait t; AExit 0], n2)
  | TList a b =>
      let '(e1, n1) := wiring a t n in
      let '(e2, n2) := wiring b t n1 in
      (AFork e1 :: AWait t :: e2, n2)
  | TBack c => let '(e, n1) := wiring c t n in ([AFork e; AExit 0], n1)
  end.

(** Descriptors 0 and 1 are open, and at least two are free. *)
Definition table_ok (t : table) : Prop :=
  is_Some (mjoin (t !! 0%nat)) /\ is_Some (mjoin (t !! 1%nat)) /\
  exists i j, (i < j)%nat /\ t !! i = Some None /\ t !! j = Some None.

Lemma lowest_le t : forall i, t !! i = Some None -> (lowest t <= i)%nat /\ t !! lowest t = Some None.
Proof.
  induction t as [|[o|] t IH]; intros i Hi; [done| |]; cbn [lowest].
  - destruct i as [|i]; [done|]. destruct (IH i Hi) as [Hl Hn]. split; [lia|done].
  - split; [lia|done].
Qed.

Lemma lowest_is t i : t !! i = Some None -> (forall j, (j < i)%nat -> exists o, t !! j = Some (Some o)) -> lowest t = i.
Proof.
  intros Hi Hj. destruct (lowest_le t i Hi) as [Hl Hn].
  destruct (decide (lowest t = i)) as [|Hne]; [done|]. destruct (Hj (lowest t) ltac:(lia)) as [o Ho]. congruence.
Qed.

Lemma table_ok_cons t : table_ok t -> exists a b r, t = Some a :: Some b :: r /\
  exists i j, (i < j)%nat /\ r !! i = Some None /\ r !! j = Some None.
Proof.
  intros ([a Ha] & [b Hb] & i & j & Hij & Hi & Hj). destruct t as [|x [|y r]]; [done|done|]. simpl in Ha, Hb. subst.
  exists a, b, r. split; [done|]. destruct i as [|[|i]]; [done|done|]. destruct j as [|[|j]]; [done|done|].
  exists i, j. split; [lia|done].
Qed.
Lemma table_ok_set t fd o : table_ok t -> (fd <= 1)%nat -> table_ok (<[fd := Some o]> t).
Proof.
  intros (a & b & r & -> & i & j & Hij & Hi & Hj)%table_ok_cons Hfd.
  destruct fd as [|[|fd]]; [| |lia]; (split; [by eexists|]; split; [by eexists|]; exists (S (S i)), (S (S j)); split; [lia|done]).
Qed.

(** close(fd) then a new descriptor: it takes the place of [fd]. *)
Lemma replace_fd t fd o x y : t !! 0%nat = Some (Some x) -> t !! 1%nat = Some (Some y) -> (fd <= 1)%nat ->
  tadd o (tclose (Z.of_nat fd) t) = <[fd := Some o]> t.
Proof.
  intros H0 H1 Hfd. destruct t as [|a [|b r]]; [done|done|]. simpl in H0, H1. injection H0 as ->. injection H1 as ->.
  unfold tadd, tclose. rewrite Nat2Z.id. destruct fd as [|[|fd]]; [done|done|lia].
Qed.
Lemma table_ok_std t : table_ok t -> exists x y, t !! 0%nat = Some (Some x) /\ t !! 1%nat = Some (Some y).
Proof. intros (a & b & r & -> & _)%table_ok_cons. by exists a, b. Qed.

(** The two ends of a new pipe. *)
Lemma pipe_fds t n : table_ok t -> exists p0 p1, (1 < p0 < p1)%nat /\ p0 = lowest t /\ p1 = lowest (tadd (ORead n) t) /\
  t !! p0 = Some None /\ t !! p1 = Some None /\
  tadd (OWrite n) (tadd (ORead n) t) = <[p1 := Some (OWrite n)]> (<[p0 := Some (ORead n)]> t).
Proof.
  intros (a & b & r & -> & i & j & Hij & Hi & Hj)%table_ok_cons. set (t := Some a :: Some b :: r).
  destruct (lowest_le t (S (S i)) Hi) as [Hl Hn].
  assert (exists k, tadd (ORead n) t !! k = Some None) as [k Hk].
  { exists (S (S j)). unfold tadd. rewrite list_lookup_insert_ne by lia. exact Hj. }
  destruct (lowest_le _ k Hk) as [_ Hn1]. remember (lowest (tadd (ORead n) t)) as p1 eqn:Ep1.
  exists (lowest t), p1. unfold tadd in Hn1. pose proof (lookup_lt_Some _ _ _ Hn) as Hlt.
  assert (lowest t <> p1) as Hne by (intros <-; by rewrite list_lookup_insert_eq in Hn1).
  rewrite list_lookup_insert_ne in Hn1 by done. destruct (lowest_le t _ Hn1) as [Hle _].
  split; [cbn [t lowest] in *; lia|]. split; [done|]. split; [done|]. split; [done|]. split; [done|].
  unfold tadd at 1. by rewrite <-Ep1.
Qed.

(** The child of a pipe that keeps one of its ends as descriptor [fd]. *)
Lemma pipe_child t n p0 p1 fd p o : table_ok t -> (1 < p0 < p1)%nat -> t !! p0 = Some None -> t !! p1 = Some None ->
  (fd <= 1)%nat -> (p = p0 /\ o = ORead n \/ p = p1 /\ o = OWrite n) ->
  tclose (Z.of_nat p1) (tclose (Z.of_nat p0) (tdup (Z.of_nat p) (tclose (Z.of_nat fd)
    (<[p1 := Some (OWrite n)]> (<[p0 := Some (ORead n)]> t))))) = <[fd := Some o]> t.
Proof.
  intros Ht Hp H0 H1 Hfd Ho. pose proof (lookup_lt_Some _ _ _ H0). pose proof (lookup_lt_Some _ _ _ H1).
  set (T := <[p1 := _]> _). unfold tdup. rewrite Nat2Z.id.
  assert (T !! p = Some (Some o)) as HT.
  { unfold T. destruct Ho as [[-> ->]|[-> ->]].
    - rewrite list_lookup_insert_ne, list_lookup_insert_eq by lia. done.
    - rewrite list_lookup_insert_eq by (rewrite length_insert; lia). done. }
  assert (tclose (Z.of_nat fd) T !! p = Some (Some o)) as ->.
  { unfold tclose. rewrite Nat2Z.id, list_lookup_insert_ne by (destruct Ho as [[-> _]|[-> _]]; lia). done. }
  destruct (table_ok_std t Ht) as (x & y & E0 & E1).
  rewrite (replace_fd T fd o x y) by (done || (unfold T; by rewrite !list_lookup_insert_ne by lia)).
  unfold tclose. rewrite !Nat2Z.id. apply list_eq. intros i.
  assert (length T = length t) as HlT by (unfold T; by rewrite !length_insert).
  destruct (decide (i = p1)) as [->|N1].
  { rewrite list_lookup_insert_eq by (rewrite !length_insert; lia). by rewrite list_lookup_insert_ne by lia. }
  rewrite list_lookup_insert_ne by done. destruct (decide (i = p0)) as [->|N0].
  { rewrite list_lookup_insert_eq by (rewrite !length_insert; lia). by rewrite list_lookup_insert_ne by lia. }
  rewrite list_lookup_insert_ne by done. destruct (decide (i = fd)) as [->|Nf].
  { apply lookup_lt_Some in E1. rewrite !list_lookup_insert_eq by lia. done. }
  rewrite !list_lookup_insert_ne by done. unfold T. by rewrite !list_lookup_insert_ne by done.
Qed.

(** The shell itself closes both ends. *)
Lemma pipe_parent t n p0 p1 : (p0 < p1)%nat -> t !! p0 = Some None -> t !! p1 = Some None ->
  tclose (Z.of_nat p1) (tclose (Z.of_nat p0) (<[p1 := Some (OWrite n)]> (<[p0 := Some (ORead n)]> t))) = t.
Proof.
  intros Hp H0 H1. pose proof (lookup_lt_Some _ _ _ H0). pose proof (lookup_lt_Some _ _ _ H1).
  unfold tclose. rewrite !Nat2Z.id. apply list_eq. intros i. destruct (decide (i = p1)) as [->|N1].
  { rewrite list_lookup_insert_eq by (rewrite !length_insert; lia). done. }
  rewrite list_lookup_insert_ne by done. destruct (decide (i = p0)) as [->|N0].
  { rewrite list_lookup_insert_eq by (rewrite !length_insert; lia). done. }
  by rewrite !list_lookup_insert_ne by done.
Qed.

Lemma to_redir_ok mode fd r : to_redir mode fd = Some r -> mode = redir_mode r /\ fd = redir_fd r.
Proof. unfold to_redir. intros [_ E]%List.find_some. by bool_to_prop. Qed.

(** runcmd executes what its tree says. *)
Lemma runcmd_wiring fuel st : forall p c, tree_of fuel st p = Some c ->
  forall t n, table_ok t -> run (runcmd fuel st p) t n = wiring c t n.
Proof.
  induction fuel as [|fuel IH]; intros p c Hc t n Ht; [done|]. cbn [tree_of runcmd] in *.
  destruct p as [|i]; [done|]. cbn [Nat.eqb]. destruct (node (heap st) (S i)) as [[argv eargv|q f e mo fd|a b|a b|a]|]; [..|done].
  - injection Hc as <-. destruct (tree_args (buf st) argv) as [|path args]; [done|]. cbn [run wiring]. by destruct (exec_ok path).
  - destruct (tree_of fuel st q) as [c1|] eqn:E1; [|done]. cbn [mbind option_bind] in Hc.
    destruct (to_redir mo fd) as [r|] eqn:Er; [|done]. injection Hc as <-. apply to_redir_ok in Er as [-> ->].
    cbn [run wiring]. destruct (open_ok _ _); [|done].
    destruct (table_ok_std t Ht) as (x & y & H0 & H1).
    assert (exists k, redir_fd r = Z.of_nat k /\ (k <= 1)%nat) as (k & -> & Hk) by (by destruct r; [exists 0%nat|exists 1%nat..]; split; lia || done).
    rewrite (replace_fd t k _ x y) by done. rewrite Nat2Z.id. apply IH; [done|]. by apply table_ok_set.
  - destruct (tree_of fuel st a) as [c1|] eqn:E1; [|done]. destruct (tree_of fuel st b) as [c2|] eqn:E2; [|done].
    cbn [mbind option_bind] in Hc. injection Hc as <-.
    destruct (pipe_fds t n Ht) as (p0 & p1 & Hp & E0 & Ep1 & H0 & H1 & ET).
    cbn [run wiring fork1]. rewrite <-Ep1, <-E0, ET.
    change (tclose 1) with (tclose (Z.of_nat 1)). change (tclose 0) with (tclose (Z.of_nat 0)).
    rewrite (pipe_child t n p0 p1 1 p1 (OWrite n)) by auto. rewrite (IH a c1 E1) by (apply table_ok_set; auto).
    destruct (wiring c1 _ (S n)) as [e1 n1].
    rewrite (pipe_child t n p0 p1 0 p0 (ORead n)) by auto. rewrite (IH b c2 E2) by (apply table_ok_set; auto).
    destruct (wiring c2 _ n1) as [e2 n2]. by rewrite (pipe_parent t n p0 p1) by (done || lia).
  - destruct (tree_of fuel st a) as [c1|] eqn:E1; [|done]. destruct (tree_of fuel st b) as [c2|] eqn:E2; [|done].
    cbn [mbind option_bind] in Hc. injection Hc as <-. cbn [run wiring fork1].
    rewrite (IH a c1 E1 t n Ht). destruct (wiring c1 t n) as [e1 n1]. rewrite (IH b c2 E2 t n1 Ht). by destruct (wiring c2 t n1).
  - destruct (tree_of fuel st a) as [c1|] eqn:E1; [|done]. cbn [mbind option_bind] in Hc. injection Hc as <-.
    cbn [run wiring fork1]. rewrite (IH a c1 E1 t n Ht). by destruct (wiring c1 t n).
Qed.
End run.

(** C30: The shell executes what the line says. For every command tree and
    every way to lay it out on the line, the turn of the shell's loop that
    reads the line (unless it is a cd) makes one child that does what the tree
    says and waits for it, holding the descriptors it had, before it goes on.
    Every program of the tree is run with its arguments, and finds the
    descriptors of the shell except for its own redirections and the ends of
    its pipes: the write end as descriptor 1 on the left, the read end as
    descriptor 0 on the right. No process keeps a spare end of a pipe open
    while it runs a program or waits, which would keep a reader from its end of
    file; the process of a pipe waits for both sides, that of a list for the
    left side before the right side begins; a command whose redirection fails
    is not executed. *)
Theorem shell_executes_tree exec_ok open_ok malloc_ok c line next t n :
  (forall k, malloc_ok k = true) -> tree_ok c -> renders (line_tokens c) line -> table_ok t ->
  take 3 line <> bytes "cd " ->
  run exec_ok open_ok (sh_turn malloc_ok (line ++ [0]) next) t n =
    let '(es, n1) := wiring exec_ok open_ok c t n in
    let '(es', n2) := run exec_ok open_ok next t n1 in
    (AFork es :: AWait t :: es', n2).
Proof.
  intros Hm Hok Hr Ht Hcd. unfold sh_turn. destruct (_ && _) eqn:Eb.
  - exfalso. apply Hcd. bool_to_prop. destruct line as [|x [|y [|z l]]]; try done.
    unfold char_at in *. simpl in *. by subst.
  - cbn [fork1 run]. destruct (parsecmd_ok malloc_ok c line Hm Hok Hr) as (p & st & E & _ & Et).
    unfold run_line. unfold sh_start in E. rewrite E. rewrite (runcmd_wiring _ _ _ _ _ _ Et) by done.
    destruct (wiring _ _ c t n) as [es n1]. by destruct (run _ _ next t n1).
Qed.

Definition demo_table : table := [Some (OTty 0); Some (OTty 1); Some (OTty 2)] ++ replicate 13 None.

(** ls -l <a | wc: both ends of the pipe and the redirection. *)
Definition demo_run_line : list Z := bytes "ls -l <a|wc".
Definition demo_run_tree : tree :=
  TPipe (TRedir (TExec [bytes "ls"; bytes "-l"]) RIn (bytes "a")) (TExec [bytes "wc"]).

Lemma shell_executes_tree_witness :
  run (fun _ => true) (fun _ _ => true) (sh_turn (fun _ => true) (demo_run_line ++ [0]) (PExit 0)) demo_table 0 =
  ([AFork
     [AFork [AExec [bytes "ls"; bytes "-l"] ([Some (OFile (bytes "a") O_RDONLY); Some (OWrite 0); Some (OTty 2)] ++ replicate 13 None)];
      AFork [AExec [bytes "wc"] ([Some (ORead 0); Some (OTty 1); Some (OTty 2)] ++ replicate 13 None)];
      AWait demo_table; AWait demo_table; AExit 0];
    AWait demo_table; AExit 0], 1%nat).
Proof.
  assert (forall w, forallb (fun c => negb (c =? 0) && word_char c) w = true -> w <> [] -> word_ok w) as Hwd.
  { intros w Hw Hne. split; [done|]. intros c Hc. apply list_elem_of_In in Hc.
    apply (proj1 (forallb_forall _ _) Hw) in Hc. by bool_to_prop. }
  rewrite (shell_executes_tree (fun _ => true) (fun _ _ => true) (fun _ => true) demo_run_tree demo_run_line); [reflexivity|done| | | |done].
  - cbn [demo_run_tree tree_ok length]. unfold MAXARGS. split_and!; try lia; try (apply Hwd; vm_compute; done).
    all: intros w Hw; repeat (apply elem_of_cons in Hw as [->|Hw]; [apply Hwd; vm_compute; done|]); by apply elem_of_nil in Hw.
  - change (line_tokens demo_run_tree) with [TkWord (bytes "ls"); TkWord (bytes "-l"); TkSym 60; TkWord (bytes "a"); TkSym 124; TkWord (bytes "wc")].
    assert (forall t ts ws rest, forallb (strchr whitespace) ws = true -> tk_ok t -> tk_sep t rest -> renders ts rest ->
      renders (t :: ts) (ws ++ tk_bytes t ++ rest)) as Hstep.
    { intros t ts ws rest Hw Hk Hs Hr. cbn [renders]. exists ws, rest. split; [done|]. split; [|done].
      intros c Hc. apply (proj1 (forallb_forall _ _) Hw). by apply list_elem_of_In. }
    assert (forall w c r, word_char c = false -> tk_sep (TkWord w) (c :: r)) as Hsw by (intros w c r Hc; right; eauto).
    change demo_run_line with ([] ++ bytes "ls" ++ [32] ++ bytes "-l" ++ [32] ++ [60] ++ [] ++ bytes "a" ++ [] ++ [124] ++ [] ++ bytes "wc" ++ []).
    repeat match goal with
    | |- renders (_ :: _) _ => apply Hstep; [reflexivity| | |]
    | |- tk_ok (TkWord _) => apply Hwd; vm_compute; done
    | |- tk_ok _ => done
    | |- tk_sep (TkWord _) _ => first [by left | apply Hsw; reflexivity]
    | |- tk_sep _ _ => done
    end.
    intros c Hc. by apply elem_of_nil in Hc.
  - split; [by eexists|]. split; [by eexists|]. exists 3%nat, 4%nat. split; [lia|done].
Defined.
