(* ===== verification/Printf.v ===== *)
(** * printf.c of the kernel and of user programs

    The output is a list of bytes: consputc of the kernel, putc(fd, .) of the
    library. The variable arguments are 64-bit words; [str] gives the C string
    at an address, without its NUL. A read past the last argument is a fault
    of the model, as is a store past the end of the buffer of printint. *)

From stdpp Require Import base gmap list strings.
From Stdlib Require Import ZArith Lia.
From S2P Require Import Prelude Shell.

Record pst : Type := PSt { outb : list Z; va : list Z }.

Definition consputc (c : Z) : M pst unit := modify (fun s => PSt (outb s ++ [u8 c]) (va s)).
Definition va_arg : M pst Z := fun s =>
  match va s with
  | w :: ws => Ok w (PSt (outb s) ws)
  | [] => Stop (Fault "va_arg") s
  end.

Definition digits : list Z := bytes "0123456789abcdef".
Definition udigits : list Z := bytes "0123456789ABCDEF".
Definition digit (ds : list Z) (k : Z) : Z := default 0 (ds !! Z.to_nat k).

(** buf[i++] = c, in the 16 bytes of the local array. *)
Definition push_char (c : Z) (buf : list Z) : option (list Z) :=
  if (length buf <? 16)%nat then Some (buf ++ [c]) else None.

(** The do-while loop over the digits: at most 32 of them. *)
Fixpoint digit_loop (fuel : nat) (ds : list Z) (base x : Z) (buf : list Z) : option (list Z) :=
  match fuel with
  | O => None
  | S fuel =>
      b ← push_char (digit ds (x mod base)) buf;
      if x / base =? 0 then Some b else digit_loop fuel ds base (x / base) b
  end.

(** The characters of printint, last one first; [neg] as the code computes it. *)
Definition int_chars (ds : list Z) (base x : Z) (neg : bool) : option (list Z) :=
  b ← digit_loop 32 ds base x [];
  if neg then push_char 45 b else Some b.

Definition put_chars (o : option (list Z)) : M pst unit :=
  match o with
  | Some b => for_each (rev b) consputc
  | None => fault "printint: buf"
  end.

(** kernel/printf.c *)
Definition printint (xx base : Z) (sign : bool) : M pst unit :=
  let neg := sign && (xx <? 0) in
  let x := if neg then u32 (- xx) else u32 xx in
  put_chars (int_chars digits base x neg).

Fixpoint ptr_loop (n : nat) (ds : list Z) (x : Z) : M pst unit :=
  match n with
  | O => ret tt
  | S n => consputc (digit ds (Z.shiftr x 60)) ;; ptr_loop n ds (u64 (Z.shiftl x 4))
  end.
Definition printptr (x : Z) : M pst unit := consputc 48 ;; consputc 120 ;; ptr_loop 16 digits x.

Section printf.
Context (str : Z -> list Z).

Definition print_str (s : Z) : M pst unit := for_each (if s =? 0 then bytes "(null)" else str s) consputc.

(** The loop of printf from the rest of the format. *)
Fixpoint printf (fmt : list Z) : M pst unit :=
  match fmt with
  | [] => ret tt
  | c :: fmt =>
      if c =? 0 then ret tt
      else if negb (c =? 37) then consputc c ;; printf fmt
      else
        match fmt with
        | [] => ret tt
        | c :: fmt =>
            if c =? 0 then ret tt
            else
              (if c =? 100 then let* w := va_arg in printint (i32 w) 10 true
               else if c =? 120 then let* w := va_arg in printint (i32 w) 16 true
               else if c =? 112 then let* w := va_arg in printptr w
               else if c =? 115 then let* w := va_arg in print_str w
               else if c =? 37 then consputc 37
               else consputc 37 ;; consputc c) ;;
              printf fmt
        end
  end.

(** panic: the message on the console; then the CPU loops. *)
Definition kpanic (s : list Z) : M pst unit := printf (bytes "panic: ") ;; printf s ;; printf [10].

(** user/printf.c *)
Definition uprintint (xx base : Z) (sgn : bool) : M pst unit :=
  let neg := sgn && (xx <? 0) in
  let x := if neg then u32 (- xx) else u32 xx in
  put_chars (int_chars udigits base x neg).
Definition uprintptr (x : Z) : M pst unit := consputc 48 ;; consputc 120 ;; ptr_loop 16 udigits x.

(** vprintf(fd, fmt, ap); [state] is whether the last character was %. *)
Fixpoint vprintf_loop (state : bool) (fmt : list Z) : M pst unit :=
  match fmt with
  | [] => ret tt
  | c :: fmt =>
      if c =? 0 then ret tt
      else if negb state then
        if c =? 37 then vprintf_loop true fmt else consputc c ;; vprintf_loop false fmt
      else
        (if c =? 100 then let* w := va_arg in uprintint (i32 w) 10 true
         else if c =? 108 then let* w := va_arg in uprintint (i32 w) 10 false
         else if c =? 120 then let* w := va_arg in uprintint (i32 w) 16 false
         else if c =? 112 then let* w := va_arg in uprintptr w
         else if c =? 115 then let* w := va_arg in print_str w
         else if c =? 99 then let* w := va_arg in consputc w
         else if c =? 37 then consputc c
         else consputc 37 ;; consputc c) ;;
        vprintf_loop false fmt
  end.
Definition vprintf (fmt : list Z) : M pst unit := vprintf_loop false fmt.
End printf.

(** user/ulib.c: atoi *)
Fixpoint atoi_loop (s : list Z) (n : Z) : Z :=
  match s with
  | c :: s => if (48 <=? c) && (c <=? 57) then atoi_loop s (i32 (i32 (i32 (n * 10) + c) - 48)) else n
  | [] => n
  end.
Definition atoi (s : list Z) : Z := atoi_loop s 0.

(** ** Numerals *)

Definition value (base : Z) (ks : list Z) : Z := fold_left (fun a k => a * base + k) ks 0.
(** The digits of a number, the first one not zero unless it is the only one. *)
Definition canonical (base : Z) (ks : list Z) : Prop :=
  (forall k, k ∈ ks -> 0 <= k < base) /\ (ks = [0] \/ exists k r, ks = k :: r /\ k <> 0).

Lemma value_snoc base ks k : value base (ks ++ [k]) = value base ks * base + k.
Proof. unfold value. by rewrite fold_left_app. Qed.
Lemma value_app base ks : forall l, value base (l ++ ks) = value base l * base ^ Z.of_nat (length ks) + value base ks.
Proof.
  induction ks as [|k ks IH] using rev_ind; intros l.
  - rewrite app_nil_r. cbn. lia.
  - rewrite app_assoc, !value_snoc, IH, length_app. cbn [length].
    replace (Z.of_nat (length ks + 1)) with (Z.succ (Z.of_nat (length ks))) by lia. rewrite Z.pow_succ_r by lia. lia.
Qed.

Lemma digit_loop_ok ds base : 2 <= base -> forall m fuel x buf,
  (0 < m <= fuel)%nat -> 0 <= x < base ^ Z.of_nat m -> (length buf + m <= 16)%nat ->
  exists ks, digit_loop fuel ds base x buf = Some (buf ++ rev (map (digit ds) ks)) /\
    value base ks = x /\ canonical base ks /\ (length ks <= m)%nat.
Proof.
  intros Hb. induction m as [|m IH]; intros fuel x buf Hm Hx Hlen; [lia|].
  destruct fuel as [|fuel]; [lia|]. cbn [digit_loop]. unfold push_char.
  replace (length buf <? 16)%nat with true by (symmetry; apply Nat.ltb_lt; lia). cbn [mbind option_bind].
  pose proof (Z.mod_pos_bound x base ltac:(lia)). pose proof (Z.div_mod x base ltac:(lia)) as Hdm.
  destruct (Z.eqb_spec (x / base) 0) as [E|E].
  - exists [x mod base]. rewrite E in Hdm. split; [done|]. split; [unfold value; cbn; lia|]. split; [|cbn; lia].
    split; [by intros k ->%list_elem_of_singleton|]. destruct (Z.eq_dec (x mod base) 0) as [->|Hne]; [by left|right; eauto].
  - assert (0 <= x / base < base ^ Z.of_nat m) as Hd.
    { split; [apply Z.div_pos; lia|]. apply Z.div_lt_upper_bound; [lia|]. rewrite <-Z.pow_succ_r by lia.
      replace (Z.succ (Z.of_nat m)) with (Z.of_nat (S m)) by lia. lia. }
    assert (m <> 0)%nat by (intros ->; cbn in Hd; lia).
    destruct (IH fuel (x / base) (buf ++ [digit ds (x mod base)])) as (ks & -> & Hv & [Hc Hh] & Hl); [lia|lia|rewrite length_app; cbn; lia|].
    exists (ks ++ [x mod base]). split; [by rewrite map_app, rev_app_distr, <-app_assoc|].
    split; [rewrite value_snoc, Hv; lia|]. split; [|rewrite length_app; cbn; lia]. split.
    + intros k Hk. apply elem_of_app in Hk as [Hk|Hk]; [auto|]. apply list_elem_of_singleton in Hk. by subst.
    + right. destruct Hh as [->|(k & r & -> & Hk)]; [unfold value in Hv; cbn in Hv; lia|]. by exists k, (r ++ [x mod base]).
Qed.

(** What printint puts out for [x]: at most [m] digits and a sign. *)
Definition numeral (ds : list Z) (base : Z) (neg : bool) (ks : list Z) : list Z :=
  (if neg then [45] else []) ++ map (digit ds) ks.

Lemma int_chars_ok ds base x neg m : 2 <= base -> (0 < m <= 15)%nat -> 0 <= x < base ^ Z.of_nat m ->
  exists ks, int_chars ds base x neg = Some (rev (numeral ds base neg ks)) /\
    value base ks = x /\ canonical base ks /\ (length ks <= m)%nat.
Proof.
  intros Hb Hm Hx. destruct (digit_loop_ok ds base Hb m 32 x [] ltac:(lia) Hx ltac:(cbn; lia)) as (ks & E & Hv & Hc & Hl).
  exists ks. split; [|done]. unfold int_chars. rewrite E. cbn [mbind option_bind app]. unfold numeral.
  destruct neg; [|done]. unfold push_char. rewrite length_rev, length_map.
  replace (length ks <? 16)%nat with true by (symmetry; apply Nat.ltb_lt; lia). done.
Qed.

Lemma put_all l : forall s, (forall c, c ∈ l -> 0 <= c < 256) ->
  for_each l consputc s = Ok tt (PSt (outb s ++ l) (va s)).
Proof.
  induction l as [|c l IH]; intros s Hl; cbn [for_each]; [rewrite app_nil_r; by destruct s|].
  unfold bind, consputc, modify. rewrite u8_id by (apply Hl; left). rewrite IH by (intros; apply Hl; by right).
  cbn [outb va]. by rewrite <-app_assoc.
Qed.

(** A table of 16 digits. *)
Definition digits_ok (ds : list Z) : Prop := forall k, 0 <= k < 16 -> 0 <= digit ds k < 256.
Lemma table_digits ds : forallb (fun k => (0 <=? digit ds k) && (digit ds k <? 256)) (seqZ 0 16) = true -> digits_ok ds.
Proof.
  intros Hb k Hk. apply (proj1 (forallb_forall _ _)) with (x := k) in Hb; [by bool_to_prop|].
  apply list_elem_of_In, elem_of_seqZ. lia.
Qed.
Lemma digits_are : digits_ok digits /\ digits_ok udigits.
Proof. split; by apply table_digits. Qed.

Lemma numeral_bytes ds base neg ks : digits_ok ds -> base <= 16 -> canonical base ks ->
  forall c, c ∈ numeral ds base neg ks -> 0 <= c < 256.
Proof.
  intros Hd Hb [Hc _] c. unfold numeral. rewrite elem_of_app. intros [Hs|(k & -> & Hk)%list_elem_of_fmap].
  - destruct neg; [apply list_elem_of_singleton in Hs; lia|by apply elem_of_nil in Hs].
  - apply Hd. specialize (Hc k Hk). lia.
Qed.

Lemma pow10_ge : 2 ^ 32 <= 10 ^ Z.of_nat 10 /\ 2 ^ 32 <= 16 ^ Z.of_nat 10.
Proof. split; vm_compute; discriminate. Qed.

(** printing [x], in base 10 or 16 *)
Lemma put_number ds base x neg s : digits_ok ds -> base = 10 \/ base = 16 -> 0 <= x < 2 ^ 32 ->
  exists ks, put_chars (int_chars ds base x neg) s = Ok tt (PSt (outb s ++ numeral ds base neg ks) (va s)) /\
    value base ks = x /\ canonical base ks /\ (length ks <= 10)%nat.
Proof.
  intros Hd Hb Hx. destruct (int_chars_ok ds base x neg 10 ltac:(lia) ltac:(lia)) as (ks & E & Hv & Hc & Hl).
  { pose proof pow10_ge. destruct Hb as [-> | ->]; lia. }
  exists ks. split; [|done]. rewrite E. unfold put_chars. rewrite rev_involutive.
  apply put_all. apply numeral_bytes with (base := base); [done|lia|done].
Qed.

Lemma signed_abs xx : - 2 ^ 31 <= xx < 2 ^ 31 -> (if xx <? 0 then u32 (- xx) else u32 xx) = Z.abs xx.
Proof. intros. destruct (Z.ltb_spec xx 0); rewrite u32_id; lia. Qed.

Lemma ptr_loop_ok ds n : digits_ok ds -> forall x s, (n <= 16)%nat -> 0 <= x < 2 ^ 64 ->
  exists ks, ptr_loop n ds x s = Ok tt (PSt (outb s ++ map (digit ds) ks) (va s)) /\ length ks = n /\
    (forall k, k ∈ ks -> 0 <= k < 16) /\ value 16 ks = x / 2 ^ (64 - 4 * Z.of_nat n).
Proof.
  intros Hd. induction n as [|n IH]; intros x s Hn Hx; cbn [ptr_loop].
  - exists []. split; [rewrite app_nil_r; by destruct s|]. split; [done|]. split; [by intros k ?%elem_of_nil|].
    symmetry. apply Z.div_small. exact Hx.
  - assert (0 <= Z.shiftr x 60 < 16) as Hk.
    { rewrite Z.shiftr_div_pow2 by lia. split; [apply Z.div_pos; lia|]. apply Z.div_lt_upper_bound; lia. }
    assert (u64 (Z.shiftl x 4) = 16 * (x mod 2 ^ 60)) as Hs.
    { unfold u64. rewrite Z.shiftl_mul_pow2 by lia. change (2 ^ 64) with (2 ^ 60 * 2 ^ 4). rewrite Z.mul_mod_distr_r by lia. lia. }
    pose proof (Z.mod_pos_bound x (2 ^ 60) ltac:(lia)).
    unfold bind, consputc, modify. rewrite u8_id by (by apply Hd).
    destruct (IH (u64 (Z.shiftl x 4)) (PSt (outb s ++ [digit ds (Z.shiftr x 60)]) (va s))) as (ks & E & Hl & Hks & Hv);
      [lia|apply u64_range|].
    exists (Z.shiftr x 60 :: ks). split; [rewrite E; cbn [outb va map]; by rewrite <-app_assoc|]. split; [cbn; lia|]. split.
    { intros k Hin. apply elem_of_cons in Hin as [->|Hin]; auto. }
    change (Z.shiftr x 60 :: ks) with ([Z.shiftr x 60] ++ ks). rewrite value_app, Hv, Hl, Hs.
    rewrite Z.shiftr_div_pow2 by lia. unfold value. cbn [fold_left]. rewrite Z.add_0_l.
    replace (64 - 4 * Z.of_nat n) with (4 + (60 - 4 * Z.of_nat n)) by lia.
    rewrite Z.pow_add_r by lia. change (2 ^ 4) with 16. rewrite Z.div_mul_cancel_l by lia.
    replace (64 - 4 * Z.of_nat (S n)) with (60 - 4 * Z.of_nat n) by lia.
    set (p := 2 ^ (60 - 4 * Z.of_nat n)). change 16 with (2 ^ 4) at 1. rewrite <-Z.pow_mul_r by lia.
    assert (2 ^ 60 = 2 ^ (4 * Z.of_nat n) * p) as E60 by (unfold p; rewrite <-Z.pow_add_r by lia; f_equal; lia).
    assert (0 < p) by (apply Z.pow_pos_nonneg; lia).
    assert (x = x mod 2 ^ 60 + (x / 2 ^ 60 * 2 ^ (4 * Z.of_nat n)) * p) as Ex.
    { pose proof (Z.div_mod x (2 ^ 60) ltac:(lia)) as Hdm. rewrite E60 in Hdm at 1. lia. }
    transitivity ((x mod 2 ^ 60 + (x / 2 ^ 60 * 2 ^ (4 * Z.of_nat n)) * p) / p); [rewrite Z.div_add by lia; lia | f_equal; lia].
Qed.

Lemma printptr_ok ds x s : digits_ok ds -> 0 <= x < 2 ^ 64 ->
  exists ks, (consputc 48 ;; consputc 120 ;; ptr_loop 16 ds x) s =
      Ok tt (PSt (outb s ++ [48; 120] ++ map (digit ds) ks) (va s)) /\ length ks = 16%nat /\ value 16 ks = x /\
      (forall k, k ∈ ks -> 0 <= k < 16).
Proof.
  intros Hd Hx. unfold bind, consputc, modify.
  destruct (ptr_loop_ok ds 16 Hd x (PSt ((outb s ++ [48]) ++ [120]) (va s)) ltac:(lia) Hx) as (ks & E & Hl & Hk & Hv).
  exists ks. split; [|split; [done|split; [|done]]].
  - cbn [outb va] in *. rewrite !u8_id by lia. rewrite E. by rewrite <-!app_assoc.
  - rewrite Hv. apply Z.div_1_r.
Qed.

(** atoi reads a decimal numeral. *)
Lemma atoi_loop_ok ks : forall n rest, (forall k, k ∈ ks -> 0 <= k < 10) -> 0 <= n ->
  n * 10 ^ Z.of_nat (length ks) + value 10 ks < 2 ^ 31 ->
  (rest = [] \/ exists c r, rest = c :: r /\ (c < 48 \/ 57 < c)) ->
  atoi_loop (map (digit udigits) ks ++ rest) n = n * 10 ^ Z.of_nat (length ks) + value 10 ks.
Proof.
  assert (forall k, 0 <= k < 10 -> digit udigits k = 48 + k) as Hdig.
  { intros k Hk. assert (In k (seqZ 0 10)) as Hin by (apply list_elem_of_In, elem_of_seqZ; lia).
    apply Z.eqb_eq. clear Hk. revert k Hin. by apply forallb_forall. }
  assert (forall ks, (forall k, k ∈ ks -> 0 <= k < 10) -> 0 <= value 10 ks) as Hpos.
  { induction ks0 as [|k l IH] using rev_ind; intros Hl; [done|]. rewrite value_snoc.
    assert (0 <= value 10 l) by (apply IH; intros; apply Hl; set_solver). specialize (Hl k ltac:(set_solver)). lia. }
  induction ks as [|k ks IH]; intros n rest Hk Hn Hlt Hr.
  - cbn [map app length]. change (10 ^ Z.of_nat 0) with 1. change (value 10 []) with 0. destruct Hr as [->|(c & r & -> & Hc)]; cbn [atoi_loop]; [lia|].
    replace ((48 <=? c) && (c <=? 57)) with false by (symmetry; apply andb_false_iff; rewrite !Z.leb_gt; lia). lia.
  - cbn [map app atoi_loop]. assert (0 <= k < 10) as Hk0 by (apply Hk; left). rewrite Hdig by done.
    replace ((48 <=? 48 + k) && (48 + k <=? 57)) with true by (symmetry; apply andb_true_iff; rewrite !Z.leb_le; lia).
    change (k :: ks) with ([k] ++ ks) in Hlt |- *. rewrite value_app in Hlt |- *. rewrite length_app in Hlt |- *.
    change (value 10 [k]) with k in Hlt |- *. cbn [length] in Hlt |- *.
    replace (Z.of_nat (1 + length ks)) with (Z.succ (Z.of_nat (length ks))) in Hlt |- * by lia. rewrite Z.pow_succ_r in Hlt |- * by lia.
    assert (0 <= value 10 ks) by (apply Hpos; intros; apply Hk; by right).
    assert (1 <= 10 ^ Z.of_nat (length ks)) as Hp1 by (pose proof (Z.pow_pos_nonneg 10 (Z.of_nat (length ks))); lia).
    assert (n * 10 + k < 2 ^ 31) as Hb.
    { set (P := 10 ^ Z.of_nat (length ks)) in *. assert ((n * 10 + k) * 1 <= (n * 10 + k) * P) by (apply Z.mul_le_mono_nonneg_l; lia). lia. }
    assert (i32 (i32 (i32 (n * 10) + (48 + k)) - 48) = n * 10 + k) as ->.
    { rewrite (i32_id (n * 10)) by lia. destruct (Z.lt_ge_cases (n * 10 + (48 + k)) (2 ^ 31)).
      - rewrite (i32_id (n * 10 + (48 + k))) by lia. rewrite i32_id; lia.
      - unfold i32, sgn. change (32 - 1) with 31. change (2 ^ 32) with 4294967296 in *. change (2 ^ 31) with 2147483648 in *.
        rewrite (Z.mod_small (n * 10 + (48 + k))) by lia. rewrite (proj2 (Z.ltb_ge (n * 10 + (48 + k)) 2147483648)) by lia.
        replace ((n * 10 + (48 + k) - 4294967296 - 48) mod 4294967296) with (n * 10 + k)
          by (apply Z.mod_unique with (q := -1); lia).
        rewrite (proj2 (Z.ltb_lt (n * 10 + k) 2147483648)) by lia. done. }
    rewrite IH; [lia|intros; apply Hk; by right|lia|lia|done].
Qed.

(** ** The property *)

(** C31: Numbers are printed exactly, within the 16 bytes of the local buffer.
    For every int, INT_MIN included, printint of the kernel (base 10 and 16)
    and of the library (signed and unsigned) put out an optional minus sign and
    at most ten digits, without leading zeros, whose value is the absolute
    value of the int, or its 32-bit unsigned value where no sign was asked for;
    nothing is written past the buffer. printptr puts out 0x and the sixteen
    digits of the word. And atoi reads back what printf printed with %d for
    every int that is not negative. *)
Theorem printed_numbers_correct xx base s : - 2 ^ 31 <= xx < 2 ^ 31 -> base = 10 \/ base = 16 ->
  (exists ks, printint xx base true s = Ok tt (PSt (outb s ++ numeral digits base (xx <? 0) ks) (va s)) /\
     value base ks = Z.abs xx /\ canonical base ks /\ (length ks <= 10)%nat) /\
  (exists ks, uprintint xx base false s = Ok tt (PSt (outb s ++ numeral udigits base false ks) (va s)) /\
     value base ks = u32 xx /\ canonical base ks /\ (length ks <= 10)%nat) /\
  (exists ks, printptr (u64 xx) s = Ok tt (PSt (outb s ++ [48; 120] ++ map (digit digits) ks) (va s)) /\
     length ks = 16%nat /\ value 16 ks = u64 xx) /\
  (exists ks, uprintint xx 10 true s = Ok tt (PSt (outb s ++ numeral udigits 10 (xx <? 0) ks) (va s)) /\
     (0 <= xx -> atoi (numeral udigits 10 (xx <? 0) ks) = xx)).
Proof.
  intros Hx Hb. destruct digits_are as [Hd Hu]. split_and!.
  - unfold printint. cbn [andb]. rewrite signed_abs by done. apply put_number; [done|done|lia].
  - unfold uprintint. cbn [andb]. apply put_number; [done|done|apply u32_range].
  - destruct (printptr_ok digits (u64 xx) s Hd (u64_range xx)) as (ks & E & Hl & Hv & _). by exists ks.
  - unfold uprintint. cbn [andb]. rewrite signed_abs by done.
    destruct (put_number udigits 10 (Z.abs xx) (xx <? 0) s Hu ltac:(by left) ltac:(lia)) as (ks & E & Hv & [Hc _] & _).
    exists ks. split; [done|]. intros Hpos. rewrite (proj2 (Z.ltb_ge xx 0)) by lia.
    unfold numeral, atoi. cbn [app]. rewrite <-(app_nil_r (map _ _)).
    rewrite atoi_loop_ok; [lia|done|lia|lia|by left].
Qed.

Lemma printed_numbers_correct_witness :
  outb (match printint (- 2 ^ 31) 10 true (PSt [] []) with Ok _ s => s | Stop _ s => s end) = bytes "-2147483648" /\
  exists ks, printint (- 2 ^ 31) 10 true (PSt [] []) = Ok tt (PSt ([] ++ numeral digits 10 true ks) []) /\ value 10 ks = 2 ^ 31.
Proof.
  split; [reflexivity|].
  destruct (printed_numbers_correct (- 2 ^ 31) 10 (PSt [] []) ltac:(lia) ltac:(by left)) as ((ks & E & Hv & _) & _).
  exists ks. split; [exact E|exact Hv].
Defined.

(** The two printfs differ on %x of a negative int: the kernel prints its
    sign, the library its 32-bit pattern. *)
Example printf_hex_kernel : printf (fun _ => []) (bytes "%x") (PSt [] [u64 (-1)]) = Ok tt (PSt (bytes "-1") []).
Proof. reflexivity. Qed.
Example printf_hex_user : vprintf (fun _ => []) (bytes "%x") (PSt [] [u64 (-1)]) = Ok tt (PSt (bytes "FFFFFFFF") []).
Proof. reflexivity. Qed.
