(* ===== verification/Uart.v ===== *)
(** * uart.c: the serial port

    The transmit buffer of the driver and what it sees of the 16550: the bytes
    it was given ([thr]), the input that waits ([rhr]), and the answers the
    next reads of LSR give about the holding register ([lsr], idle when the
    list is used up). A call of uartputc that finds the buffer full sleeps on
    uart_tx_r; when it is woken it starts over at its loop. *)

From stdpp Require Import base list strings.
From Stdlib Require Import ZArith Lia.
From S2P Require Import Prelude Env Ring.

Definition UART_TX_BUF_SIZE : Z := 32.

Record uart (U : Type) : Type := Uart {
  tx_buf : list Z;
  tx_w : Z;             (* uart_tx_w, a uint64 *)
  tx_r : Z;
  panicked : bool;
  thr : list Z;
  rhr : list Z;
  lsr : list bool;
  uk : U;
}.
Arguments Uart {U}.
Arguments tx_buf {U}.
Arguments tx_w {U}.
Arguments tx_r {U}.
Arguments panicked {U}.
Arguments thr {U}.
Arguments rhr {U}.
Arguments lsr {U}.
Arguments uk {U}.

(** The address of uart_tx_r. *)
Definition chan_tx_r : Z := 0x80020000.

Section uart.
Context {U : Type} `{!Env U}.
Abbreviation UM := (M (uart U)).

(** ReadReg(LSR) & LSR_TX_IDLE *)
Definition read_idle : UM bool := fun s =>
  match lsr s with
  | b :: bs => Ok b (Uart (tx_buf s) (tx_w s) (tx_r s) (panicked s) (thr s) (rhr s) bs (uk s))
  | [] => Ok true s
  end.
(** WriteReg(THR, c) *)
Definition write_thr (c : Z) : UM unit :=
  modify (fun s => Uart (tx_buf s) (tx_w s) (tx_r s) (panicked s) (thr s ++ [u8 c]) (rhr s) (lsr s) (uk s)).

Definition uart_wakeup : UM unit :=
  modify (fun s => Uart (tx_buf s) (tx_w s) (tx_r s) (panicked s) (thr s) (rhr s) (lsr s) (env_wakeup chan_tx_r (uk s))).

(** uartinit: the line is set up and both FIFOs are cleared. *)
Definition uartinit : UM unit :=
  modify (fun s => Uart (tx_buf s) (tx_w s) (tx_r s) (panicked s) (thr s) [] (lsr s) (uk s)).

Fixpoint uartstart_loop (fuel : nat) : UM unit :=
  match fuel with
  | O => halt NoFuel
  | S fuel =>
      let* s := get in
      if tx_w s =? tx_r s then ret tt
      else
        let* idle := read_idle in
        if negb idle then ret tt
        else
          let c := default 0 (tx_buf s !! slot UART_TX_BUF_SIZE (tx_r s)) in
          modify (fun s => Uart (tx_buf s) (tx_w s) (u64 (tx_r s + 1)) (panicked s) (thr s) (rhr s) (lsr s) (uk s)) ;;
          uart_wakeup ;;
          write_thr c ;;
          uartstart_loop fuel
  end.
Definition uartstart : UM unit :=
  let* s := get in uartstart_loop (S (Z.to_nat (u64 (tx_w s - tx_r s)))).

Definition uartputc (c : Z) : UM unit :=
  let* s := get in
  if panicked s then fault "panicked: spins forever"
  else if tx_w s =? u64 (tx_r s + UART_TX_BUF_SIZE) then halt (Sleep chan_tx_r)
  else
    put (Uart (<[slot UART_TX_BUF_SIZE (tx_w s) := u8 c]> (tx_buf s)) (u64 (tx_w s + 1)) (tx_r s) (panicked s)
          (thr s) (rhr s) (lsr s) (uk s)) ;;
    uartstart.

(** The spin on LSR of uartputc_sync. *)
Fixpoint spin_idle (l : list bool) : list bool :=
  match l with
  | true :: l => l
  | false :: l => spin_idle l
  | [] => []
  end.
Definition uartputc_sync (c : Z) : UM unit :=
  let* s := get in
  if panicked s then fault "panicked: spins forever"
  else
    put (Uart (tx_buf s) (tx_w s) (tx_r s) (panicked s) (thr s) (rhr s) (spin_idle (lsr s)) (uk s)) ;;
    write_thr c.

Definition uartgetc : UM Z := fun s =>
  match rhr s with
  | c :: cs => Ok c (Uart (tx_buf s) (tx_w s) (tx_r s) (panicked s) (thr s) cs (lsr s) (uk s))
  | [] => Ok (-1) s
  end.

(** ** The bytes in the buffer are a queue *)

Definition txq (s : uart U) : list Z := ring UART_TX_BUF_SIZE 64 (tx_buf s) (tx_r s) (tx_w s).
Definition uart_ok (s : uart U) : Prop :=
  length (tx_buf s) = Z.to_nat UART_TX_BUF_SIZE /\ Forall (fun c => 0 <= c < 256) (tx_buf s) /\
  0 <= tx_r s < 2 ^ 64 /\ 0 <= tx_w s < 2 ^ 64 /\ (length (txq s) <= 32)%nat.

Lemma uart_div : (UART_TX_BUF_SIZE | 2 ^ 64).
Proof. exists (2 ^ 59). reflexivity. Qed.

Lemma txq_length s : Z.of_nat (length (txq s)) = ahead 64 (tx_r s) (tx_w s).
Proof. unfold txq. rewrite length_ring. pose proof (ahead_range 64 ltac:(lia) (tx_r s) (tx_w s)). lia. Qed.

Lemma buf_byte l k : Forall (fun c => 0 <= c < 256) l -> 0 <= default 0 (l !! k) < 256.
Proof.
  intros Hl. destruct (l !! k) as [c|] eqn:E; cbn; [|lia]. exact (proj1 (Forall_lookup _ _) Hl _ _ E).
Qed.

(** What a step of the driver may do: send bytes from the front, append [added]. *)
Definition sends (s s' : uart U) (added : list Z) : Prop :=
  uart_ok s' /\ thr s' ++ txq s' = thr s ++ txq s ++ added /\ panicked s' = panicked s /\ rhr s' = rhr s.

Lemma sends_refl s : uart_ok s -> sends s s [].
Proof. intros. unfold sends. by rewrite app_nil_r. Qed.
Lemma sends_trans s1 s2 s3 l1 l2 : sends s1 s2 l1 -> sends s2 s3 l2 -> sends s1 s3 (l1 ++ l2).
Proof.
  intros (A1 & B1 & C1 & D1) (A2 & B2 & C2 & D2). split; [done|]. split; [|split; congruence].
  by rewrite B2, app_assoc, B1, <-!app_assoc.
Qed.

(** One byte goes from the buffer to the device. *)
Lemma send_one s ls : uart_ok s -> tx_w s <> tx_r s ->
  let s1 := Uart (tx_buf s) (tx_w s) (u64 (tx_r s + 1)) (panicked s)
              (thr s ++ [u8 (default 0 (tx_buf s !! slot UART_TX_BUF_SIZE (tx_r s)))]) (rhr s) ls (env_wakeup chan_tx_r (uk s)) in
  sends s s1 [] /\ S (length (txq s1)) = length (txq s).
Proof.
  intros (Hb & Hf & Hr & Hw & Hq) Hne s1. pose proof (txq_length s) as Hl.
  assert (0 < ahead 64 (tx_r s) (tx_w s)) as Ha.
  { pose proof (ahead_range 64 ltac:(lia) (tx_r s) (tx_w s)). destruct (Z.eq_dec (ahead 64 (tx_r s) (tx_w s)) 0) as [H0|]; [|lia].
    apply ahead_zero in H0; [congruence|lia..]. }
  pose proof (ring_pop UART_TX_BUF_SIZE 64 ltac:(done) ltac:(lia) uart_div (tx_buf s) (tx_r s) (tx_w s) Ha) as Hpop.
  assert (txq s = default 0 (tx_buf s !! slot UART_TX_BUF_SIZE (tx_r s)) :: txq s1) as Hq1 by exact Hpop.
  rewrite Hq1 in Hl, Hq. cbn [length] in *.
  split; [|by rewrite Hq1]. split; [|split; [|done]].
  - do 2 (split; [done|]). split; [apply u64_range|]. split; [done|]. lia.
  - cbn [thr s1]. rewrite u8_id by (by apply buf_byte). rewrite Hq1. by rewrite <-app_assoc, app_nil_r.
Qed.

Lemma uartstart_loop_ok fuel : forall s, uart_ok s -> (length (txq s) < fuel)%nat ->
  exists s', uartstart_loop fuel s = Ok tt s' /\ sends s s' [] /\
    (txq s' = [] \/ exists asked, lsr s = asked ++ false :: lsr s').
Proof.
  induction fuel as [|fuel IH]; intros s Hok Hf; [lia|]. cbn [uartstart_loop].
  rewrite (bind_run get _ s s s eq_refl). destruct (Z.eqb_spec (tx_w s) (tx_r s)) as [E|E].
  - exists s. split; [done|]. split; [by apply sends_refl|]. left. unfold txq, ring. by rewrite E, ahead_self.
  - destruct (lsr s) as [|b ls] eqn:El.
    + rewrite (bind_run read_idle _ s true s) by (unfold read_idle; by rewrite El). cbn [negb].
      destruct (send_one s [] Hok E) as [Hs Hl]. set (s1 := Uart _ _ _ _ _ _ _ _) in *.
      destruct (IH s1 (proj1 Hs) ltac:(lia)) as (s' & E' & Hs' & Hend). exists s'. split; [|split; [exact (sends_trans s s1 s' [] [] Hs Hs')|]].
      * rewrite <-E'. unfold bind, modify, uart_wakeup, write_thr. subst s1. cbn. by rewrite El.
      * destruct Hend as [?|[asked Ha]]; [by left|]. cbn [lsr s1] in Ha. by destruct asked.
    + rewrite (bind_run read_idle _ s b _) by (unfold read_idle; by rewrite El). destruct b; cbn [negb].
      * destruct (send_one s ls Hok E) as [Hs Hl]. set (s1 := Uart _ _ _ _ _ _ _ _) in *.
        destruct (IH s1 (proj1 Hs) ltac:(lia)) as (s' & E' & Hs' & Hend). exists s'. split; [|split; [exact (sends_trans s s1 s' [] [] Hs Hs')|]].
        -- exact E'.
        -- destruct Hend as [?|[asked Ha]]; [by left|]. right. exists (true :: asked). cbn [lsr s1] in Ha. by rewrite Ha.
      * eexists. split; [reflexivity|]. split; [apply (sends_refl s Hok)|]. right. by exists [].
Qed.

Lemma uartstart_ok s : uart_ok s -> exists s', uartstart s = Ok tt s' /\ sends s s' [] /\
  (txq s' = [] \/ exists asked, lsr s = asked ++ false :: lsr s').
Proof.
  intros Hok. unfold uartstart. rewrite (bind_run get _ s s s eq_refl). apply uartstart_loop_ok; [done|].
  pose proof (txq_length s) as Hl. unfold ahead in Hl. unfold u64. lia.
Qed.

(** The byte appended by uartputc. *)
Lemma push_ok s c : uart_ok s -> (length (txq s) < 32)%nat ->
  let s1 := Uart (<[slot UART_TX_BUF_SIZE (tx_w s) := u8 c]> (tx_buf s)) (u64 (tx_w s + 1)) (tx_r s) (panicked s)
              (thr s) (rhr s) (lsr s) (uk s) in
  sends s s1 [u8 c].
Proof.
  intros (Hb & Hf & Hr & Hw & Hq) Hl s1. pose proof (txq_length s) as Ha.
  assert (txq s1 = txq s ++ [u8 c]) as Hp.
  { unfold txq. cbn [tx_buf tx_r tx_w s1]. apply ring_push; try done; try exact uart_div; unfold UART_TX_BUF_SIZE; lia. }
  split; [|split; [by rewrite Hp|done]]. split; [cbn [tx_buf s1]; by rewrite length_insert|].
  split; [cbn [tx_buf s1]; apply Forall_insert; [done|apply u8_range]|]. split; [done|]. split; [apply u64_range|].
  rewrite Hp, length_app. cbn [length]. lia.
Qed.

Lemma tx_full s : uart_ok s -> tx_w s = u64 (tx_r s + UART_TX_BUF_SIZE) <-> length (txq s) = 32%nat.
Proof.
  intros (Hb & Hf & Hr & Hw & Hq). pose proof (txq_length s) as Ha. unfold ahead, u64, UART_TX_BUF_SIZE in *. split.
  - intros E. rewrite E in Ha. rewrite Zminus_mod_idemp_l in Ha. replace (tx_r s + 32 - tx_r s) with 32 in Ha by lia.
    change (32 mod 2 ^ 64) with 32 in Ha. lia.
  - intros E. rewrite E in Ha. change (Z.of_nat 32) with 32 in Ha.
    replace (tx_r s + 32) with (tx_r s + (tx_w s - tx_r s) mod 2 ^ 64) by lia.
    rewrite Zplus_mod_idemp_r. replace (tx_r s + (tx_w s - tx_r s)) with (tx_w s) by lia. by rewrite Z.mod_small.
Qed.

Lemma uartputc_ok c s : uart_ok s -> panicked s = false ->
  match uartputc c s with
  | Ok _ s' => (length (txq s) < 32)%nat /\ sends s s' [u8 c]
  | Stop e s' => e = Sleep chan_tx_r /\ length (txq s) = 32%nat /\ s' = s
  end.
Proof.
  intros Hok Hp. unfold uartputc. rewrite (bind_run get _ s s s eq_refl), Hp.
  pose proof (tx_full s Hok) as Hfull. destruct (Z.eqb_spec (tx_w s) (u64 (tx_r s + UART_TX_BUF_SIZE))) as [E|E].
  - split; [done|]. split; [by apply Hfull|done].
  - assert (length (txq s) < 32)%nat as Hl.
    { destruct (decide (length (txq s) = 32%nat)) as [E'|]; [by apply Hfull in E'|]. destruct Hok as (_ & _ & _ & _ & ?). lia. }
    pose proof (push_ok s c Hok Hl) as Hs. cbv zeta in Hs. rewrite Hp in Hs.
    rewrite (bind_run (put _) _ s tt _ eq_refl). set (s1 := Uart _ _ _ _ _ _ _ _) in *. destruct (uartstart_ok s1 (proj1 Hs)) as (s' & -> & Hs' & _).
    split; [done|]. exact (sends_trans s s1 s' [u8 c] [] Hs Hs').
Qed.

(** A run of the driver: processes that write and interrupts. *)
Inductive uart_op : Type := UPut (c : Z) | UStart.
Definition uart_do (o : uart_op) : UM unit := match o with UPut c => uartputc c | UStart => uartstart end.
(** A call that sleeps is left for later: the bytes that were taken. *)
Fixpoint uart_run (os : list uart_op) (s : uart U) : uart U * list Z :=
  match os with
  | [] => (s, [])
  | o :: os =>
      match uart_do o s with
      | Ok _ s' => let '(s2, l) := uart_run os s' in (s2, match o with UPut c => u8 c :: l | UStart => l end)
      | Stop _ s' => uart_run os s'
      end
  end.

Lemma uart_run_ok os : forall s, uart_ok s -> panicked s = false -> sends s (uart_run os s).1 (uart_run os s).2.
Proof.
  induction os as [|o os IH]; intros s Hok Hp; [by apply sends_refl|]. cbn [uart_run]. destruct o as [c|]; cbn [uart_do].
  - pose proof (uartputc_ok c s Hok Hp) as Hu. destruct (uartputc c s) as [[] s1|e s1].
    + destruct Hu as [_ Hs]. pose proof (IH s1 (proj1 Hs) ltac:(destruct Hs as (_ & _ & -> & _); done)) as Hr.
      destruct (uart_run os s1) as [s2 l]. cbn [fst snd] in *. exact (sends_trans s s1 s2 [u8 c] l Hs Hr).
    + destruct Hu as (_ & _ & ->). by apply IH.
  - destruct (uartstart_ok s Hok) as (s1 & -> & Hs & _).
    pose proof (IH s1 (proj1 Hs) ltac:(destruct Hs as (_ & _ & -> & _); done)) as Hr.
    destruct (uart_run os s1) as [s2 l]. cbn [fst snd] in *. exact (sends_trans s s1 s2 [] l Hs Hr).
Qed.
End uart.

(** C32: The serial driver is a bounded queue that loses, repeats and
    reorders nothing. For every interleaving of writers and transmit
    interrupts, and however slowly the device becomes idle, what the device
    was given followed by what the 32-byte buffer holds is what it was before
    followed by exactly the bytes uartputc accepted, in their order, also when
    the 64-bit counters wrap; a byte is refused (its writer sleeps) only when
    the buffer is full; and uartstart stops only when the buffer is empty or
    the device has just answered that it is busy. *)
Theorem uart_fifo {U} `{!Env U} os (s : uart U) : uart_ok s -> panicked s = false ->
  (let '(s', taken) := uart_run os s in thr s' ++ txq s' = thr s ++ txq s ++ taken /\ (length (txq s') <= 32)%nat) /\
  (forall c, match uartputc c s with Ok _ _ => True | Stop e s' => e = Sleep chan_tx_r /\ length (txq s) = 32%nat /\ s' = s end) /\
  exists s', uartstart s = Ok tt s' /\ (txq s' = [] \/ exists asked, lsr s = asked ++ false :: lsr s').
Proof.
  intros Hok Hp. split_and!.
  - pose proof (uart_run_ok os s Hok Hp) as Hs. destruct (uart_run os s) as [s' l]. cbn [fst snd] in Hs.
    destruct Hs as ((_ & _ & _ & _ & Hl) & E & _). done.
  - intros c. pose proof (uartputc_ok c s Hok Hp). by destruct (uartputc c s).
  - destruct (uartstart_ok s Hok) as (s' & E & _ & He). by exists s'.
Qed.

(** Counters about to wrap and a device that is busy half of the time. *)
Definition demo_uart : uart tiny :=
  Uart (replicate 32 0) (2 ^ 64 - 1) (2 ^ 64 - 1) false [] [] [false; true; false; true] (Tiny [] false [] []).

Lemma uart_fifo_witness :
  let '(s', taken) := uart_run [UPut 104; UPut 105; UStart; UPut 10] demo_uart in
  taken = [104; 105; 10] /\ thr s' ++ txq s' = [104; 105; 10] /\ thr s' = [104; 105; 10].
Proof.
  destruct (uart_fifo [UPut 104; UPut 105; UStart; UPut 10] demo_uart) as [Hw _].
  - split; [reflexivity|]. split; [apply Forall_replicate; lia|]. split; [vm_compute; split; [discriminate|reflexivity]|].
    split; [vm_compute; split; [discriminate|reflexivity]|]. apply Nat.leb_le. reflexivity.
  - reflexivity.
  - assert (uart_run [UPut 104; UPut 105; UStart; UPut 10] demo_uart =
      (Uart (<[1%nat := 10]> (<[0%nat := 105]> (<[31%nat := 104]> (replicate 32 0)))) 2 2 false [104; 105; 10] [] [] (Tiny [] false [chan_tx_r; chan_tx_r; chan_tx_r] []),
       [104; 105; 10])) as E by (vm_compute; reflexivity).
    rewrite E in *. cbn [fst snd] in *. destruct Hw as [Hw _]. split; [done|]. split; [exact Hw|done].
Defined.
