(* ===== verification/Console.v ===== *)
(** * console.c: the console

    The input buffer and its line editing, over the serial port of [Uart]. A
    read that has to wait returns [CSleep] with what is left of it, and resumes
    at the test of its inner loop. [procdump_text] is what procdump prints.
    The theorem: the buffer is two queues, the finished lines and the line that
    is being edited. *)

From stdpp Require Import base gmap list strings.
From Stdlib Require Import ZArith Lia.
From S2P Require Import Prelude Env Ring Uart.

Definition BACKSPACE : Z := 0x100.
Definition INPUT_BUF_SIZE : Z := 128.

Record cst (U : Type) : Type := Cst {
  c_buf : list Z;
  c_r : Z;          (* Read index, a uint *)
  c_w : Z;          (* Write index *)
  c_e : Z;          (* Edit index *)
  ua : uart U;
}.
Arguments Cst {U}.
Arguments c_buf {U}.
Arguments c_r {U}.
Arguments c_w {U}.
Arguments c_e {U}.
Arguments ua {U}.

(** The address of cons.r. *)
Definition chan_cons_r : Z := 0x80020400.

(** consoleread ends, or sleeps with [n] bytes left to go to [dst]. *)
Inductive cread : Type := CDone (r : Z) | CSleep (dst n : Z).

Section console.
Context {U : Type} `{!Env U}.
Context (procdump_text : U -> list Z).
Abbreviation CM := (M (cst U)).

Definition ua_lens : lens (cst U) (uart U) := Lens ua (fun x s => Cst (c_buf s) (c_r s) (c_w s) (c_e s) x).
Definition onua {A} (m : M (uart U) A) : CM A := zoom ua_lens m.
Definition on_kern (f : U -> U) : CM unit :=
  onua (modify (fun x => Uart (tx_buf x) (tx_w x) (tx_r x) (panicked x) (thr x) (rhr x) (lsr x) (f (uk x)))).

Definition consputc (c : Z) : CM unit :=
  if c =? BACKSPACE then onua (uartputc_sync 8) ;; onua (uartputc_sync 32) ;; onua (uartputc_sync 8)
  else onua (uartputc_sync c).

Definition set_r (r : Z) : CM unit := modify (fun s => Cst (c_buf s) r (c_w s) (c_e s) (ua s)).
Definition set_w (w : Z) : CM unit := modify (fun s => Cst (c_buf s) (c_r s) w (c_e s) (ua s)).
Definition set_e (e : Z) : CM unit := modify (fun s => Cst (c_buf s) (c_r s) (c_w s) e (ua s)).
(** cons.buf[k % INPUT_BUF_SIZE] *)
Definition buf_at (s : cst U) (k : Z) : Z := default 0 (c_buf s !! slot INPUT_BUF_SIZE k).

(** consolewrite(1, src, n) from byte [i]: the bytes taken, or asleep in
    uartputc. *)
Fixpoint consolewrite_loop (k : nat) (src i : Z) : CM Z :=
  match k with
  | O => ret i
  | S k =>
      let* s := get in
      match env_copyin1 (src + i) (uk (ua s)) with
      | None => ret i
      | Some c => onua (uartputc c) ;; consolewrite_loop k src (i + 1)
      end
  end.
Definition consolewrite (src n : Z) : CM Z := consolewrite_loop (Z.to_nat n) src 0.

(** consoleread(1, dst, n) with [n] bytes to go out of [target]. *)
Fixpoint consoleread_loop (k : nat) (target dst : Z) : CM cread :=
  match k with
  | O => ret (CDone target)
  | S k' =>
      let n := Z.of_nat k in
      let* s := get in
      if c_r s =? c_w s then
        if env_killed (uk (ua s)) then ret (CDone (-1)) else ret (CSleep dst n)
      else
        let c := buf_at s (c_r s) in
        set_r (u32 (c_r s + 1)) ;;
        if c =? 4 then
          when (n <? target) (let* s := get in set_r (u32 (c_r s - 1))) ;;
          ret (CDone (target - n))
        else
          match env_copyout1 dst c (uk (ua s)) with
          | None => ret (CDone (target - n))
          | Some u =>
              on_kern (fun _ => u) ;;
              if c =? 10 then ret (CDone (target - (n - 1)))
              else consoleread_loop k' target (dst + 1)
          end
  end.
Definition consoleread (dst n : Z) : CM cread :=
  if n <=? 0 then ret (CDone 0) else consoleread_loop (Z.to_nat n) n dst.

(** The loop of Control-U. *)
Fixpoint kill_line (fuel : nat) : CM unit :=
  match fuel with
  | O => halt NoFuel
  | S fuel =>
      let* s := get in
      if negb (c_e s =? c_w s) && negb (buf_at s (u32 (c_e s - 1)) =? 10) then
        set_e (u32 (c_e s - 1)) ;; consputc BACKSPACE ;; kill_line fuel
      else ret tt
  end.

Definition consoleintr (c : Z) : CM unit :=
  let* s := get in
  if c =? 16 then for_each (procdump_text (uk (ua s))) consputc
  else if c =? 21 then kill_line (S (Z.to_nat (u32 (c_e s - c_w s))))
  else if (c =? 8) || (c =? 127) then
    when (negb (c_e s =? c_w s)) (set_e (u32 (c_e s - 1)) ;; consputc BACKSPACE)
  else if nz c && (u32 (c_e s - c_r s) <? INPUT_BUF_SIZE) then
    let c := if c =? 13 then 10 else c in
    consputc c ;;
    modify (fun s => Cst (<[slot INPUT_BUF_SIZE (c_e s) := u8 c]> (c_buf s)) (c_r s) (c_w s) (u32 (c_e s + 1)) (ua s)) ;;
    let* s := get in
    when ((c =? 10) || (c =? 4) || (u32 (c_e s - c_r s) =? INPUT_BUF_SIZE))
      (set_w (c_e s) ;; on_kern (env_wakeup chan_cons_r))
  else ret tt.

(** uartintr: the input that waits, then the transmit buffer. *)
Fixpoint uartintr_loop (fuel : nat) : CM unit :=
  match fuel with
  | O => halt NoFuel
  | S fuel =>
      let* c := onua uartgetc in
      if c =? -1 then ret tt else consoleintr c ;; uartintr_loop fuel
  end.
Definition uartintr : CM unit :=
  let* s := get in uartintr_loop (S (length (rhr (ua s)))) ;; onua uartstart.

(** ** Two queues *)

(** The lines consoleread may take, and the line being edited. *)
Record lines : Type := Lines { ready : list Z; edit : list Z }.

Definition a_intr (c : Z) (l : lines) : lines :=
  if c =? 16 then l
  else if c =? 21 then Lines (ready l) []
  else if (c =? 8) || (c =? 127) then Lines (ready l) (removelast (edit l))
  else if nz c && (length (ready l ++ edit l) <? 128)%nat then
    let c := if c =? 13 then 10 else c in
    let e := edit l ++ [c] in
    if (c =? 10) || (c =? 4) || (length (ready l ++ e) =? 128)%nat then Lines (ready l ++ e) [] else Lines (ready l) e
  else l.

(** What is echoed. *)
Definition a_echo (c : Z) (l : lines) : list Z :=
  if c =? 21 then concat (map (fun _ => [8; 32; 8]) (edit l))
  else if (c =? 8) || (c =? 127) then match edit l with [] => [] | _ => [8; 32; 8] end
  else if nz c && (length (ready l ++ edit l) <? 128)%nat then [if c =? 13 then 10 else c]
  else [].

(** A read takes from the first queue: up to a newline, up to an end of file
    (which it takes only when it comes first) or up to [k] bytes. *)
Fixpoint a_read (k : nat) (target dst : Z) (q : list Z) (u : U) : cread * list Z * U :=
  match k with
  | O => (CDone target, q, u)
  | S k' =>
      match q with
      | [] => (if env_killed u then CDone (-1) else CSleep dst (Z.of_nat k), [], u)
      | c :: q' =>
          if c =? 4 then (CDone (target - Z.of_nat k), if Z.of_nat k <? target then q else q', u)
          else match env_copyout1 dst c u with
               | None => (CDone (target - Z.of_nat k), q', u)
               | Some u => if c =? 10 then (CDone (target - Z.of_nat k'), q', u) else a_read k' target (dst + 1) q' u
               end
      end
  end.

(** The buffer holds the two queues one after the other. *)
Definition crep (s : cst U) (l : lines) : Prop :=
  length (c_buf s) = Z.to_nat INPUT_BUF_SIZE /\ 0 <= c_r s < 2 ^ 32 /\
  c_w s = u32 (c_r s + Z.of_nat (length (ready l))) /\
  c_e s = u32 (c_r s + Z.of_nat (length (ready l ++ edit l))) /\
  ring INPUT_BUF_SIZE 32 (c_buf s) (c_r s) (c_e s) = ready l ++ edit l /\
  (length (ready l ++ edit l) <= 128)%nat /\ (10 ∉ edit l) /\ panicked (ua s) = false.

Lemma console_div : (INPUT_BUF_SIZE | 2 ^ 32).
Proof. exists (2 ^ 25). reflexivity. Qed.

(** Distances between the indices. *)
Lemma u32_dist r k j : 0 <= j - k < 2 ^ 32 -> u32 (u32 (r + j) - u32 (r + k)) = j - k.
Proof.
  intros Hj. unfold u32. rewrite <-Zminus_mod. replace (r + j - (r + k)) with (j - k) by lia. by apply Z.mod_small.
Qed.
Lemma u32_dist0 r j : 0 <= r < 2 ^ 32 -> 0 <= j < 2 ^ 32 -> u32 (u32 (r + j) - r) = j.
Proof.
  intros Hr Hj. unfold u32. rewrite Zminus_mod_idemp_l. replace (r + j - r) with j by lia. by apply Z.mod_small.
Qed.
Lemma u32_same r k j : 0 <= k < 2 ^ 31 -> 0 <= j < 2 ^ 31 -> u32 (r + j) = u32 (r + k) <-> j = k.
Proof.
  intros Hk Hj. split; [|by intros ->]. intros E. destruct (Z.le_ge_cases k j).
  - pose proof (u32_dist r k j ltac:(lia)) as D. rewrite E, Z.sub_diag in D. change (u32 0) with 0 in D. lia.
  - pose proof (u32_dist r j k ltac:(lia)) as D. rewrite E, Z.sub_diag in D. change (u32 0) with 0 in D. lia.
Qed.
Lemma u32_step r k : u32 (u32 (r + k) + 1) = u32 (r + (k + 1)).
Proof. unfold u32. rewrite Zplus_mod_idemp_l. f_equal. lia. Qed.
Lemma u32_back r k : u32 (u32 (r + k) - 1) = u32 (r + (k - 1)).
Proof. unfold u32. rewrite Zminus_mod_idemp_l. f_equal. lia. Qed.

Lemma sync_ok c s : panicked (ua s) = false -> 0 <= c < 256 -> exists s', onua (uartputc_sync c) s = Ok tt s' /\
  c_buf s' = c_buf s /\ c_r s' = c_r s /\ c_w s' = c_w s /\ c_e s' = c_e s /\
  thr (ua s') = thr (ua s) ++ [c] /\ panicked (ua s') = false /\ uk (ua s') = uk (ua s) /\ rhr (ua s') = rhr (ua s).
Proof.
  intros Hp Hc. unfold onua, zoom, uartputc_sync. cbn [view ua_lens]. rewrite (bind_run get _ _ _ _ eq_refl), Hp.
  eexists. split; [reflexivity|]. cbn. rewrite u8_id by done. auto 10.
Qed.

(** Only the serial port changed: it sent [l]. *)
Definition echoed (s s' : cst U) (l : list Z) : Prop :=
  c_buf s' = c_buf s /\ c_r s' = c_r s /\ c_w s' = c_w s /\ c_e s' = c_e s /\
  thr (ua s') = thr (ua s) ++ l /\ panicked (ua s') = false /\ uk (ua s') = uk (ua s) /\ rhr (ua s') = rhr (ua s).

Lemma consputc_ok c s : panicked (ua s) = false -> 0 <= c <= 256 ->
  exists s', consputc c s = Ok tt s' /\ echoed s s' (if c =? BACKSPACE then [8; 32; 8] else [c]).
Proof.
  intros Hp Hc. unfold consputc, echoed. destruct (Z.eqb_spec c BACKSPACE) as [->|Hne].
  - destruct (sync_ok 8 s Hp ltac:(lia)) as (s1 & E1 & ? & ? & ? & ? & T1 & P1 & U1 & R1).
    destruct (sync_ok 32 s1 P1 ltac:(lia)) as (s2 & E2 & ? & ? & ? & ? & T2 & P2 & U2 & R2).
    destruct (sync_ok 8 s2 P2 ltac:(lia)) as (s3 & E3 & ? & ? & ? & ? & T3 & P3 & U3 & R3).
    exists s3. rewrite (bind_run _ _ _ _ _ E1), (bind_run _ _ _ _ _ E2). split; [done|].
    rewrite T3, T2, T1, <-!app_assoc. repeat split; congruence.
  - unfold BACKSPACE in Hne. apply sync_ok; [done|lia].
Qed.

(** Deleting the last character of the line. *)
Lemma delete_ok s r x e : crep s (Lines r (e ++ [x])) ->
  buf_at s (u32 (c_e s - 1)) = x /\
  exists s', (set_e (u32 (c_e s - 1)) ;; consputc BACKSPACE) s = Ok tt s' /\ crep s' (Lines r e) /\
    thr (ua s') = thr (ua s) ++ [8; 32; 8] /\ uk (ua s') = uk (ua s) /\ c_w s' = c_w s /\
    rhr (ua s') = rhr (ua s).
Proof.
  intros (Hb & Hr & Hw & He & Hq & Hl & Hn & Hp). cbn [ready edit] in *.
  assert (ahead 32 (c_r s) (c_e s) = Z.of_nat (length (r ++ e ++ [x]))) as Ha.
  { rewrite <-Hq, length_ring. pose proof (ahead_range 32 ltac:(lia) (c_r s) (c_e s)). lia. }
  pose proof (ring_retract INPUT_BUF_SIZE 32 ltac:(lia) console_div (c_buf s) (c_r s) (c_e s)) as Hret.
  rewrite !length_app in Ha, Hl. cbn [length] in *. specialize (Hret ltac:(lia)). rewrite Hq in Hret.
  rewrite app_assoc in Hret. apply app_inj_tail in Hret as [Hq' Hx].
  assert (buf_at s (u32 (c_e s - 1)) = x) as Hbx.
  { unfold buf_at, u32. by rewrite (slot_mod INPUT_BUF_SIZE 32 console_div). }
  split; [done|]. rewrite (bind_run (set_e _) _ s tt _ eq_refl).
  destruct (consputc_ok BACKSPACE (Cst (c_buf s) (c_r s) (c_w s) (u32 (c_e s - 1)) (ua s)) Hp ltac:(unfold BACKSPACE; lia))
    as (s' & E & B & R & W & Ee & T & P & Ku & Rh). cbn [c_buf c_r c_w c_e ua] in *.
  exists s'. split; [exact E|]. split; [|done]. unfold crep. rewrite B, R, W, Ee. cbn [ready edit].
  split; [done|]. split; [done|]. split; [done|]. split.
  { rewrite He, u32_back. f_equal. rewrite !length_app. cbn [length]. lia. }
  split; [symmetry; exact Hq'|]. split; [rewrite length_app; lia|]. split; [set_solver|done].
Qed.

Lemma crep_edit_empty s l : crep s l -> (c_e s =? c_w s) = match edit l with [] => true | _ => false end.
Proof.
  intros (Hb & Hr & Hw & He & Hq & Hl & Hn & Hp). rewrite Hw, He, length_app in *.
  destruct (edit l) as [|x e].
  - apply Z.eqb_eq. do 2 f_equal. cbn [length] in *. lia.
  - apply Z.eqb_neq. intros E. apply u32_same in E; cbn [length] in *; lia.
Qed.

Lemma kill_line_ok e : forall fuel s r, crep s (Lines r e) -> (length e < fuel)%nat ->
  exists s', kill_line fuel s = Ok tt s' /\ crep s' (Lines r []) /\
    thr (ua s') = thr (ua s) ++ concat (map (fun _ => [8; 32; 8]) e) /\ uk (ua s') = uk (ua s) /\ rhr (ua s') = rhr (ua s).
Proof.
  induction e as [|x e IH] using rev_ind; intros fuel s r Hrep Hf; (destruct fuel as [|fuel]; [lia|]); cbn [kill_line].
  - rewrite (bind_run get _ s s s eq_refl), (crep_edit_empty _ _ Hrep). cbn [edit negb andb]. exists s.
    rewrite app_nil_r. auto.
  - rewrite (bind_run get _ s s s eq_refl), (crep_edit_empty _ _ Hrep).
    destruct (delete_ok s r x e Hrep) as [Hx (s1 & E1 & Hrep1 & T1 & U1 & _ & R1)].
    replace (match edit (Lines r (e ++ [x])) with [] => true | _ => false end) with false by (cbn; by destruct e).
    rewrite Hx. assert (x <> 10) as Hne.
    { destruct Hrep as (_ & _ & _ & _ & _ & _ & Hn & _). cbn [edit] in Hn. set_solver. }
    rewrite (proj2 (Z.eqb_neq x 10) Hne). cbn [negb andb]. rewrite <-bind_assoc, (bind_run _ _ _ _ _ E1).
    rewrite length_app in Hf. cbn [length] in Hf.
    destruct (IH fuel s1 r Hrep1 ltac:(lia)) as (s2 & E2 & Hrep2 & T2 & U2 & R2). exists s2. split; [done|]. split; [done|].
    split; [|split; congruence]. rewrite T2, T1, map_app, concat_app, <-app_assoc. f_equal.
    clear. induction e as [|y e IH]; [done|]. cbn [map concat app] in *. by rewrite IH.
Qed.

(** consoleintr on every character but Control-P. *)
Lemma consoleintr_ok c s l : crep s l -> 0 <= c < 256 -> c <> 16 ->
  exists s', consoleintr c s = Ok tt s' /\ crep s' (a_intr c l) /\ thr (ua s') = thr (ua s) ++ a_echo c l /\
    rhr (ua s') = rhr (ua s).
Proof.
  intros Hrep Hc Hp. unfold consoleintr, a_intr, a_echo. rewrite (bind_run get _ s s s eq_refl).
  rewrite (proj2 (Z.eqb_neq c 16) Hp). destruct l as [r e]. pose proof (crep_edit_empty _ _ Hrep) as Hemp. cbn [ready edit] in *.
  pose proof Hrep as (Hb & Hr & Hw & He & Hq & Hl & Hn & Hpan). cbn [ready edit] in *.
  destruct (Z.eqb_spec c 21) as [->|N21].
  - destruct (kill_line_ok e (S (Z.to_nat (u32 (c_e s - c_w s)))) s r Hrep) as (s' & E & R & T & _ & Rh).
    { rewrite Hw, He, length_app, u32_dist; rewrite length_app in Hl; lia. }
    by exists s'.
  - destruct ((c =? 8) || (c =? 127)) eqn:Ebs.
    + rewrite Hemp. destruct e as [|x e] using rev_ind.
      * exists s. cbn. rewrite app_nil_r. auto.
      * replace (match e ++ [x] with [] => true | _ => false end) with false by (by destruct e).
        destruct (delete_ok s r x e Hrep) as [_ (s1 & E1 & Hrep1 & T1 & _ & _ & R1)]. cbn [negb when].
        exists s1. rewrite removelast_last. split; [done|]. split; [done|]. split; [|done].
        rewrite T1. by destruct e.
    + rewrite He, u32_dist0 by lia. unfold INPUT_BUF_SIZE at 1.
      replace (Z.of_nat (length (r ++ e)) <? 128) with (length (r ++ e) <? 128)%nat
        by (destruct (Nat.ltb_spec (length (r ++ e)) 128), (Z.ltb_spec (Z.of_nat (length (r ++ e))) 128); lia).
      destruct (nz c && _) eqn:Efit; [|exists s; rewrite app_nil_r; auto].
      bool_to_prop. apply Nat.ltb_lt in H0. set (c1 := if c =? 13 then 10 else c).
      assert (0 <= c1 < 256) as Hc1 by (subst c1; destruct (c =? 13); lia).
      destruct (consputc_ok c1 s Hpan ltac:(lia)) as (s1 & E1 & B1 & R1 & W1 & Ee1 & T1 & P1 & K1 & Rh1).
      rewrite (proj2 (Z.eqb_neq c1 BACKSPACE)) in T1 by (unfold BACKSPACE; lia).
      rewrite (bind_run _ _ _ _ _ E1), (bind_run (modify _) _ s1 tt _ eq_refl), (bind_run get _ _ _ _ eq_refl).
      set (s2 := Cst _ _ _ _ _).
      assert (length (c_buf s2) = Z.to_nat INPUT_BUF_SIZE) as Hb2.
      { change (length (<[slot INPUT_BUF_SIZE (c_e s1) := u8 c1]> (c_buf s1)) = Z.to_nat INPUT_BUF_SIZE).
        rewrite length_insert. congruence. }
      assert (0 <= c_r s2 < 2 ^ 32) as Hr2 by (change (0 <= c_r s1 < 2 ^ 32); by rewrite R1).
      assert (ahead 32 (c_r s) (c_e s) = Z.of_nat (length (r ++ e))) as Ha.
      { rewrite <-Hq, length_ring. pose proof (ahead_range 32 ltac:(lia) (c_r s) (c_e s)). lia. }
      assert (ring INPUT_BUF_SIZE 32 (c_buf s2) (c_r s2) (c_e s2) = r ++ e ++ [c1]) as Hq2.
      { cbn [c_buf c_r c_e s2]. rewrite B1, R1, Ee1, u8_id by done. rewrite app_assoc, <-Hq.
        apply (ring_push INPUT_BUF_SIZE 32 ltac:(done) ltac:(lia) console_div); [done|unfold INPUT_BUF_SIZE; lia|lia]. }
      assert (c_e s2 = u32 (c_r s2 + Z.of_nat (length (r ++ e ++ [c1])))) as He2.
      { cbn [c_r c_e s2]. rewrite R1, Ee1, He, u32_step. do 2 f_equal. rewrite !length_app. cbn [length]. lia. }
      assert (length (r ++ e ++ [c1]) <= 128)%nat as Hl2 by (rewrite app_assoc, length_app; cbn [length]; lia).
      assert (u32 (c_e s2 - c_r s2) = Z.of_nat (length (r ++ e ++ [c1]))) as Hd2.
      { rewrite He2. apply u32_dist0; [exact Hr2|lia]. }
      rewrite Hd2. unfold INPUT_BUF_SIZE.
      replace (Z.of_nat (length (r ++ e ++ [c1])) =? 128) with (length (r ++ e ++ [c1]) =? 128)%nat
        by (destruct (Nat.eqb_spec (length (r ++ e ++ [c1])) 128), (Z.eqb_spec (Z.of_nat (length (r ++ e ++ [c1]))) 128); lia).
      destruct ((c1 =? 10) || (c1 =? 4) || _) eqn:Ecommit; cbn [when].
      * rewrite (bind_run (set_w _) _ s2 tt _ eq_refl). eexists. split; [reflexivity|]. cbn [thr ua rhr].
        split; [|split; [cbn; by rewrite T1|exact Rh1]]. unfold crep. cbn [c_buf c_r c_w c_e ua ready edit panicked].
        rewrite app_nil_r. split; [exact Hb2|]. split; [exact Hr2|].
        split; [exact He2|]. split; [exact He2|]. split; [exact Hq2|]. split; [done|]. split; [by apply not_elem_of_nil|exact P1].
      * eexists. split; [reflexivity|]. split; [|split; [exact T1|exact Rh1]].
        unfold crep. cbn [ready edit]. split; [exact Hb2|]. split; [exact Hr2|].
        split; [cbn [c_w c_r s2]; by rewrite W1, R1|]. split; [exact He2|]. split; [exact Hq2|]. split; [done|].
        split; [|exact P1]. bool_to_prop. set_solver.
Qed.

(** Taking the first byte of the finished lines. *)
Lemma take_ok s c q e : crep s (Lines (c :: q) e) ->
  buf_at s (c_r s) = c /\ (c_r s =? c_w s) = false /\ u32 (u32 (c_r s + 1) - 1) = c_r s /\
  crep (Cst (c_buf s) (u32 (c_r s + 1)) (c_w s) (c_e s) (ua s)) (Lines q e).
Proof.
  intros (Hb & Hr & Hw & He & Hq & Hl & Hn & Hp). cbn [ready edit app length] in *.
  assert (ahead 32 (c_r s) (c_e s) = Z.of_nat (S (length (q ++ e)))) as Ha.
  { change (S (length (q ++ e))) with (length (c :: q ++ e)). rewrite <-Hq, length_ring.
    pose proof (ahead_range 32 ltac:(lia) (c_r s) (c_e s)). lia. }
  pose proof (ring_pop INPUT_BUF_SIZE 32 ltac:(done) ltac:(lia) console_div (c_buf s) (c_r s) (c_e s) ltac:(lia)) as Hpop.
  rewrite Hq in Hpop. injection Hpop as Hc Hrest. rewrite length_app in *.
  split; [by symmetry|]. split; [|split].
  - apply Z.eqb_neq. rewrite Hw. replace (c_r s) with (u32 (c_r s + 0)) at 1 by (rewrite Z.add_0_r; by apply u32_id).
    intros E. apply u32_same in E; lia.
  - rewrite u32_back. replace (c_r s + (1 - 1)) with (c_r s) by lia. by apply u32_id.
  - unfold crep. cbn [c_buf c_r c_w c_e ua ready edit]. split; [done|]. split; [apply u32_range|].
    assert (forall k, u32 (u32 (c_r s + 1) + k) = u32 (c_r s + (1 + k))) as Hk.
    { intros k. unfold u32. rewrite Zplus_mod_idemp_l. f_equal. lia. }
    rewrite !Hk, length_app. split; [rewrite Hw; do 2 f_equal; lia|]. split; [rewrite He; do 2 f_equal; lia|].
    split; [by symmetry|]. split; [lia|done].
Qed.

Lemma consoleread_loop_ok k : forall target dst s q e, crep s (Lines q e) -> Z.of_nat k <= target ->
  exists s', let '(r, q', u) := a_read k target dst q (uk (ua s)) in
    consoleread_loop k target dst s = Ok r s' /\ crep s' (Lines q' e) /\ uk (ua s') = u /\ thr (ua s') = thr (ua s).
Proof.
  induction k as [|k IH]; intros target dst s q e Hrep Hk; cbn [a_read consoleread_loop]; [by exists s|].
  rewrite (bind_run get _ s s s eq_refl). destruct q as [|c q].
  - pose proof Hrep as (_ & Hr & Hw & _). cbn [ready length] in Hw. rewrite Z.add_0_r, u32_id in Hw by done.
    rewrite Hw, Z.eqb_refl. exists s. by destruct (env_killed (uk (ua s))).
  - destruct (take_ok s c q e Hrep) as (Hc & Hne & Hback & Hrep1). rewrite Hne, Hc.
    rewrite (bind_run (set_r _) _ s tt _ eq_refl). set (s1 := Cst _ _ _ _ _) in *.
    destruct (Z.eqb_spec c 4) as [->|N4].
    + destruct (Z.ltb_spec (Z.of_nat (S k)) target) as [Hlt|Hge]; cbn [when].
      * eexists. split; [reflexivity|]. split; [|done]. cbn [c_r s1]. rewrite Hback. by destruct s.
      * exists s1. done.
    + destruct (env_copyout1 dst c (uk (ua s))) as [u|] eqn:Eu; [|by exists s1].
      rewrite (bind_run (on_kern _) _ s1 tt _ eq_refl).
      set (s2 := over ua_lens _ s1). assert (crep s2 (Lines q e)) as Hrep2 by exact Hrep1.
      destruct (Z.eqb_spec c 10) as [->|N10].
      * exists s2. split; [|done]. unfold ret. do 2 f_equal. lia.
      * destruct (IH target (dst + 1) s2 q e Hrep2 ltac:(lia)) as (s' & Hs'). exists s'. exact Hs'.
Qed.
End console.

(** C33: The console is a line discipline over two queues. In every reachable
    state the 128-byte ring and its three wrapping indices stand for the bytes
    of the finished lines and of the line being edited. A character from the
    keyboard edits or extends only the second queue (backspace and delete take
    its last byte, Control-U empties it, carriage return becomes newline, a
    full buffer drops input), is echoed accordingly, and moves the whole edited
    line to the first queue exactly at a newline, at Control-D, or when the
    buffer is full; a read takes bytes in order from the first queue only: up
    to a newline, up to the count, or none at an end of file, which it leaves
    for the next read unless it comes first; it sleeps when the queue runs out.
    No byte is lost, duplicated or reordered, and no byte of an unfinished line
    is ever handed out. *)
Theorem console_line_discipline {U} `{!Env U} pd (s : cst U) l : crep s l ->
  (forall c, 0 <= c < 256 -> c <> 16 -> exists s', consoleintr pd c s = Ok tt s' /\
     crep s' (a_intr c l) /\ thr (ua s') = thr (ua s) ++ a_echo c l) /\
  (forall dst n, exists s', let '(r, q, u) := a_read (Z.to_nat n) (Z.max 0 n) dst (ready l) (uk (ua s)) in
     consoleread dst n s = Ok r s' /\ crep s' (Lines q (edit l)) /\ uk (ua s') = u /\ thr (ua s') = thr (ua s)).
Proof.
  intros Hrep. split.
  - intros c Hc Hp. destruct (consoleintr_ok pd c s l Hrep Hc Hp) as (s' & E & R & T & _). by exists s'.
  - intros dst n. unfold consoleread. destruct l as [q e]. destruct (Z.leb_spec n 0) as [Hn|Hn].
    + replace (Z.to_nat n) with 0%nat by lia. rewrite Z.max_l by lia. cbn [a_read]. by exists s.
    + rewrite Z.max_r by lia. apply consoleread_loop_ok; [done|lia].
Qed.

(** Indices about to wrap; "lx", backspace, "s", return, then a read of 10. *)
Definition demo_console : cst tiny :=
  Cst (replicate 128 0) (2 ^ 32 - 2) (2 ^ 32 - 2) (2 ^ 32 - 2)
    (Uart (replicate 32 0) 0 0 false [] [] [] (Tiny (replicate 4 0) false [] [])).
Definition demo_keys : cst tiny -> cst tiny := fun s =>
  fold_left (fun s c => match consoleintr (fun _ => []) c s with Ok _ s => s | Stop _ s => s end) [108; 120; 8; 115; 13] s.
Definition demo_typed : cst tiny := demo_keys demo_console.

Lemma demo_typed_rep : crep demo_typed (Lines [108; 115; 10] []).
Proof.
  unfold crep. split; [reflexivity|]. split; [vm_compute; split; [discriminate|reflexivity]|]. split; [reflexivity|].
  split; [reflexivity|]. split; [vm_compute; reflexivity|]. split; [cbn; lia|]. split; [by apply not_elem_of_nil|reflexivity].
Qed.

Lemma console_line_discipline_witness :
  exists s', consoleread 0 10 demo_typed = Ok (CDone 3) s' /\ tiny_mem (uk (ua s')) = [108; 115; 10; 0] /\ crep s' (Lines [] []) /\
    thr (ua s') = [108; 120; 8; 32; 8; 115; 10].
Proof.
  destruct (console_line_discipline (fun _ => []) demo_typed (Lines [108; 115; 10] []) demo_typed_rep) as [_ Hr].
  destruct (Hr 0 10) as (s' & Hs). exists s'.
  assert (a_read (Z.to_nat 10) (Z.max 0 10) 0 (ready (Lines [108; 115; 10] [])) (uk (ua demo_typed)) =
    (CDone 3, [], Tiny [108; 115; 10; 0] false [chan_cons_r] [])) as E by (vm_compute; reflexivity).
  rewrite E in Hs. destruct Hs as (Ec & Hc & Hu & Ht). split; [exact Ec|]. rewrite Hu. split; [done|]. split; [exact Hc|].
  rewrite Ht. vm_compute. reflexivity.
Defined.
