(* ===== verification/Vault.v ===== *)
(** * The vault system calls

    mkvault, openvault and closevault of proc.c and their system calls of
    sysproc.c, over [Sysfile]. The struct mkvault and the struct stat behind it
    are pages of kalloc, which fills them with the byte 5. What they print is
    left out. The theorem: the calls never make a vault readable. *)

From stdpp Require Import base gmap list strings.
From Stdlib Require Import ZArith Lia.
From S2P Require Import Prelude Sleeplock Bytes Bio Journal Inode Fileio Dir File Sysfile.

(** struct stat with its last field. *)
Record vstat : Type := VStat { v_stat : stat_t; v_open : Z }.

(** A field of four bytes of a fresh page. *)
Definition JUNK : Z := 0x05050505.
Definition junk_stat : vstat := VStat (StatT JUNK JUNK 0x0505 0x0505 (JUNK + JUNK * 2 ^ 32) JUNK JUNK) JUNK.
Definition set_s_vault (is_vault vault_id : Z) (st : stat_t) : stat_t :=
  StatT (s_dev st) (s_ino st) (s_type st) (s_nlink st) (s_size st) is_vault vault_id.

(** The globals mkv and st. *)
Record vst (J U K : Type) : Type := VSt {
  vsys : sst J U K;
  mkv : bool;                  (* mkv is allocated *)
  mkv_inode : option nat;      (* mkv->inode *)
  mkv_st : bool;               (* mkv->st is st *)
  st : option vstat;           (* *st, once allocated *)
}.
Arguments VSt {J U K}.
Arguments vsys {J U K}.
Arguments mkv {J U K}.
Arguments mkv_inode {J U K}.
Arguments mkv_st {J U K}.
Arguments st {J U K}.

Section vault.
Context {J U K : Type} `{Journal J} `{CopyEnv U} `{SysEnv K}.
Context (de : Z).

Definition VM (A : Type) : Type := M (vst J U K) A.
Definition sys_lens : lens (vst J U K) (sst J U K) :=
  Lens vsys (fun x s => VSt x (mkv s) (mkv_inode s) (mkv_st s) (st s)).
Definition onsys {A} (m : SM (J := J) (U := U) (K := K) A) : VM A := zoom sys_lens m.
Definition set_mkv : VM unit := modify (fun s => VSt (vsys s) true (mkv_inode s) (mkv_st s) (st s)).
Definition set_mkv_inode (ip : option nat) : VM unit := modify (fun s => VSt (vsys s) (mkv s) ip (mkv_st s) (st s)).
Definition set_mkv_st : VM unit := modify (fun s => VSt (vsys s) (mkv s) (mkv_inode s) true (st s)).
Definition set_st (x : option vstat) : VM unit := modify (fun s => VSt (vsys s) (mkv s) (mkv_inode s) (mkv_st s) x).

(** if(st == 0) st = kalloc(), or the panic. *)
Definition alloc_st : VM unit :=
  let* s := get in
  match st s with
  | Some _ => ret tt
  | None =>
      let* pa := onsys (onk se_kalloc) in
      if pa =? 0 then panic "Failed to allocate memory for stat" else set_st (Some junk_stat)
  end.

Definition upd_st (f : vstat -> vstat) : VM unit :=
  let* s := get in
  match st s with Some x => set_st (Some (f x)) | None => fault "null struct stat" end.
(** mkv->inode, which the code does not test. *)
Definition the_inode : VM nat :=
  let* s := get in
  match mkv_inode s with Some ip => ret ip | None => fault "null struct inode" end.

Definition mkvault : VM Z :=
  let* ip := the_inode in
  let* e := onsys (onfs (isdirempty ip de)) in
  if e =? -1 then ret (-1)
  else
    alloc_st ;;
    set_mkv_st ;;
    let* i := onsys (onfs (theinode ip)) in
    onsys (onfs (upd_inode ip (set_i_vault 1 (i_inum i)))) ;;
    upd_st (fun x => VStat (set_s_vault 1 (i_inum i) (v_stat x)) (v_open x)) ;;
    let* x := onsys (onfs (stati ip)) in
    upd_st (fun y => VStat x (v_open y)) ;;
    ret 0.

(** mkv->st, unless mkv is null or its page is fresh. *)
Definition the_st : VM vstat :=
  let* s := get in
  if negb (mkv s) || negb (mkv_st s) then fault "null or wild mkv->st"
  else match st s with Some x => ret x | None => fault "null struct stat" end.

Definition openvault : VM Z :=
  let* x := the_st in
  if nz (s_is_vault (v_stat x)) && negb (nz (v_open x)) then
    upd_st (fun x => VStat (v_stat x) 1) ;;
    let* ip := the_inode in
    onsys (onfs (iupdate ip)) ;;
    ret 0
  else ret (-1).

Definition closevault : VM Z :=
  let* x := the_st in
  if nz (s_is_vault (v_stat x)) && nz (v_open x) then
    upd_st (fun x => VStat (v_stat x) 0) ;;
    let* ip := the_inode in
    onsys (onfs (iupdate ip)) ;;
    ret 0
  else ret (-1).

Definition sys_mkvault : VM Z :=
  let* path := onsys (argstr 0 100) in
  match path with
  | None => ret (-1)
  | Some path =>
      let* s := get in
      (if mkv s then ret tt
       else
         let* pa := onsys (onk se_kalloc) in
         if pa =? 0 then panic "Failed to allocate memory for mkv" else set_mkv) ;;
      let* r := onsys (path_inode de path) in
      set_mkv_inode r ;;
      match r with
      | None =>
          onsys fs_begin_op ;;
          let* r := onsys (onfs (ialloc ROOTDEV T_DIR)) in
          set_mkv_inode r ;;
          match r with
          | None => onsys fs_end_op ;; panic "Failed to allocate inode for mkvault"
          | Some _ => onsys fs_end_op ;; mkvault
          end
      | Some ip =>
          alloc_st ;;
          set_mkv_st ;;
          let* x := onsys (onfs (stati ip)) in
          upd_st (fun y => VStat x (v_open y)) ;;
          mkvault
      end
  end.

Definition sys_openvault : VM Z :=
  let* path := onsys (argstr 0 100) in
  match path with None => ret (-1) | Some _ => openvault end.
Definition sys_closevault : VM Z :=
  let* path := onsys (argstr 0 100) in
  match path with None => ret (-1) | Some _ => closevault end.

(** ** What the calls do to the inodes *)

Definition inodes (s : vst J U K) : list inode := itable (fs (vsys s)).

Lemma iupdate_itable ip t : preserves (fun s : fsst J U => itable s = t) (iupdate ip).
Proof.
  assert (forall A (m : M J A), preserves (fun s : fsst J U => itable s = t) (onj m)) as Hj.
  { intros A m s Hs. unfold onj, zoom. by destruct (m _). }
  unfold iupdate, bupdate, bdata. eauto 10 with xv6.
Qed.

Lemma onfs_inodes {A} (m : FM (J := J) (U := U) A) t :
  preserves (fun s => itable s = t) m -> preserves (fun s => inodes s = t) (onsys (onfs m)).
Proof.
  intros Hm s Hs. specialize (Hm (fs (vsys s)) Hs). unfold onsys, onfs, zoom. cbn [view sys_lens fs_lens].
  by destruct (m _).
Qed.

Lemma upd_st_inodes f t : preserves (fun s => inodes s = t) (upd_st f).
Proof. intros s Hs. unfold upd_st, bind, get, set_st, modify. destruct (st s); exact Hs. Qed.
Lemma the_inode_inodes t : preserves (fun s => inodes s = t) the_inode.
Proof. intros s Hs. unfold the_inode, bind, get. by destruct (mkv_inode s). Qed.
Lemma the_st_inodes t : preserves (fun s => inodes s = t) the_st.
Proof. intros s Hs. unfold the_st, bind, get. destruct (_ || _); [exact Hs|]. by destruct (st s). Qed.

Lemma openvault_inodes t : preserves (fun s => inodes s = t) openvault.
Proof.
  unfold openvault. apply preserves_bind; [apply the_st_inodes|]. intros x. destruct (_ && _); [|apply preserves_ret].
  apply preserves_bind; [apply upd_st_inodes|]. intros []. apply preserves_bind; [apply the_inode_inodes|]. intros ip.
  apply preserves_bind; [apply onfs_inodes, iupdate_itable|]. intros []. apply preserves_ret.
Qed.
Lemma closevault_inodes t : preserves (fun s => inodes s = t) closevault.
Proof.
  unfold closevault. apply preserves_bind; [apply the_st_inodes|]. intros x. destruct (_ && _); [|apply preserves_ret].
  apply preserves_bind; [apply upd_st_inodes|]. intros []. apply preserves_bind; [apply the_inode_inodes|]. intros ip.
  apply preserves_bind; [apply onfs_inodes, iupdate_itable|]. intros []. apply preserves_ret.
Qed.

(** Reading the inode of a closed vault, and looking a name up in it. *)
Lemma readi_closed s ip user dst off n : i_is_vault (geti s ip) <> 0 -> i_vault_open (geti s ip) = 0 ->
  readi (J := J) (U := U) ip user dst off n s = Ok (-1) s.
Proof.
  intros Hv Ho. unfold readi, theinode, gets, bind at 1, nz. by rewrite (proj2 (Z.eqb_neq _ _) Hv), Ho.
Qed.

Lemma dirlookup_closed s ip name : i_is_vault (geti s ip) <> 0 -> i_vault_open (geti s ip) = 0 ->
  i_type (geti s ip) = T_DIR -> 0 < i_size (geti s ip) ->
  dirlookup (J := J) (U := U) ip name de s = Stop (Panic "dirlookup read") s.
Proof.
  intros Hv Ho Ht Hs. unfold dirlookup, theinode, gets, bind at 1. rewrite Ht. change (negb (T_DIR =? T_DIR)) with false. cbv iota.
  unfold entry_offs. rewrite seqZ_cons.
  2:{ unfold DIRENT. apply Z.div_str_pos. lia. }
  cbn [map for_until]. apply bind_halt. unfold dirlookup_at. apply bind_halt. unfold read_dirent.
  rewrite (bind_run _ _ _ _ _ (readi_closed s ip false de _ DIRENT Hv Ho)). done.
Qed.

(** A process that opens and closes vaults. *)
Fixpoint vault_calls (cs : list bool) (s : vst J U K) : vst J U K :=
  match cs with
  | [] => s
  | c :: cs =>
      match (if c then openvault else closevault) s with
      | Ok _ s' => vault_calls cs s'
      | Stop _ s' => s'
      end
  end.

Lemma vault_calls_inodes cs : forall s, inodes (vault_calls cs s) = inodes s.
Proof.
  induction cs as [|c cs IH]; intros s; [done|]. cbn [vault_calls].
  destruct c.
  - pose proof (openvault_inodes (inodes s) s eq_refl) as Hp. destruct (openvault s); [rewrite IH|]; exact Hp.
  - pose proof (closevault_inodes (inodes s) s eq_refl) as Hp. destruct (closevault s); [rewrite IH|]; exact Hp.
Qed.
End vault.

(** openvault and closevault do not open a vault. They set a field of the
    global struct stat, never of the inode: whatever sequence of them is
    called, the inodes in memory stay as they were, so a directory that
    mkvault has marked stays closed for readi, which returns -1, and any
    lookup of a name in it (open, ls, a path through it) panics the kernel.
    Moreover the first openvault after mkvault is refused, since the field it
    tests is still the 5s of a fresh page; and without a mkvault both follow a
    null pointer. *)
Theorem vaults_never_open {J U K} `{Journal J} `{CopyEnv U} `{SysEnv K} de cs (s : vst J U K) ip name :
  let s' := fs (vsys (vault_calls cs s)) in
  let i := geti (fs (vsys s)) ip in
  i_is_vault i <> 0 -> i_vault_open i = 0 -> i_type i = T_DIR -> 0 < i_size i ->
  (forall user dst off n, readi ip user dst off n s' = Ok (-1) s') /\
  dirlookup ip name de s' = Stop (Panic "dirlookup read") s' /\
  (forall x, mkv s = true -> mkv_st s = true -> st s = Some x -> v_open x = JUNK -> openvault s = Ok (-1) s) /\
  (mkv s = false -> openvault s = Stop (Fault "null or wild mkv->st") s /\ closevault s = Stop (Fault "null or wild mkv->st") s).
Proof.
  intros s' i Hv Ho Ht Hs.
  assert (geti s' ip = i) as Ei by (unfold geti; change (itable s') with (inodes (vault_calls cs s)); by rewrite vault_calls_inodes).
  split_and!.
  - intros user dst off n. apply readi_closed; congruence.
  - apply dirlookup_closed; congruence.
  - intros x Hm Hst Hx Hj. unfold openvault, the_st. rewrite (bind_run _ _ s x s).
    + rewrite Hj. change (nz JUNK) with true. cbn [negb]. by rewrite andb_false_r.
    + unfold bind, get. by rewrite Hm, Hst, Hx.
  - intros Hm. split; unfold openvault, closevault, the_st; apply bind_halt; unfold bind, get; by rewrite Hm.
Qed.

(** A directory that is a vault, after one mkvault. *)
Definition demo_vault : vst flat mems (list Z) :=
  VSt (SysSt (FsSt demo_sb (set_i_vault 1 4 demo_dir :: replicate 49 zero_inode) demo_dir_disk (Mems [] ∅) 7)
         (replicate NFILE zero_file) (replicate 16 None) 0 [])
    true (Some 0%nat) true (Some (VStat (StatT 1 4 1 1 32 1 4) JUNK)).

Lemma vaults_never_open_witness :
  openvault demo_vault = Ok (-1) demo_vault /\
  dirlookup 0 demo_name 4096 (fs (vsys (vault_calls [false; true; false] demo_vault))) =
    Stop (Panic "dirlookup read") (fs (vsys (vault_calls [false; true; false] demo_vault))).
Proof.
  destruct (vaults_never_open 4096 [false; true; false] demo_vault 0 demo_name) as (_ & Hd & Ho & _).
  - vm_compute. discriminate.
  - reflexivity.
  - reflexivity.
  - reflexivity.
  - split; [|exact Hd]. eapply Ho; reflexivity.
Defined.

(** The flag outlives the inode: an entry of the cache that iget reuses for
    another inode keeps it. *)
Example recycled_inode_is_vault :
  let s : fsst flat mems := FsSt demo_sb (replicate 50 (set_i_vault 1 4 zero_inode)) demo_dir_disk (Mems [] ∅) 7 in
  match iget 1 9 s with
  | Ok ip s' => i_inum (geti s' ip) = 9 /\ i_is_vault (geti s' ip) = 1
  | Stop _ _ => False
  end.
Proof. vm_compute. split; reflexivity. Qed.
