(* ===== verification/Umalloc.v ===== *)
(** * umalloc.c: the user-level allocator (Kernighan and Ritchie)

    A block is a header of sixteen bytes ([s.ptr] at offset 0, [s.size], the
    size of the block in headers, at offset 8) followed by its payload. The
    free blocks form a ring in the order of their addresses, which starts at
    the static [base]. The headers live in the byte-addressed memory, next to
    the payloads the program writes; [sbrk] is an interface. The loops over
    the ring run on fuel. *)

From stdpp Require Import base gmap list sorting.
From Stdlib Require Import ZArith Lia.
From S2P Require Import Prelude Mem.

(** sbrk: the system call, on the state of the kernel. The law is what the
    allocator relies on: a positive request fails with -1, or returns the old
    end of the process's memory, which grows by as much and stays below 2 GiB
    (the machine has 128 MiB). *)
Class Sbrk (K : Type) : Type := {
  k_sbrk : Z -> K -> Z * K;
  k_brk : K -> Z;
}.
Class SbrkLaws (K : Type) `{Sbrk K} : Prop := {
  sbrk_grows : forall n k, 0 < n ->
    (fst (k_sbrk n k) = u64 (-1) /\ k_brk (snd (k_sbrk n k)) = k_brk k) \/
    (fst (k_sbrk n k) = k_brk k /\ k_brk (snd (k_sbrk n k)) = k_brk k + n /\ k_brk k + n < 2 ^ 31);
}.

Section umalloc.
Context {K : Type} `{Sbrk K}.
Context (base : Z).   (* &base *)

Record ust : Type := Ust {
  umem : mem;     (* the memory of the process *)
  freep : Z;      (* freep *)
  ukern : K;      (* the kernel, behind sbrk *)
}.

Definition HDR : Z := 16.   (* sizeof(Header) *)

(** p->s.ptr and p->s.size *)
Definition hptr (m : mem) (p : Z) : Z := load64 m p.
Definition hsize (m : mem) (p : Z) : Z := load32 m (p + 8).
Definition set_hptr (p v : Z) : M ust unit :=
  modify (fun s => Ust (store64 (umem s) p v) (freep s) (ukern s)).
Definition set_hsize (p v : Z) : M ust unit :=
  modify (fun s => Ust (store32 (umem s) (p + 8) v) (freep s) (ukern s)).
Definition set_freep (p : Z) : M ust unit := modify (fun s => Ust (umem s) p (ukern s)).
Definition rdptr (p : Z) : M ust Z := gets (fun s => hptr (umem s) p).
Definition rdsize (p : Z) : M ust Z := gets (fun s => hsize (umem s) p).

(** p + n for a Header pointer *)
Definition hadd (p n : Z) : Z := u64 (p + n * HDR).

(** The loop of free: the place in the ring where bp belongs. *)
Fixpoint free_loop (fuel : nat) (bp p : Z) : M ust Z :=
  match fuel with
  | O => halt NoFuel
  | S fuel =>
      let* n := rdptr p in
      if (p <? bp) && (bp <? n) then ret p
      else if (n <=? p) && ((p <? bp) || (bp <? n)) then ret p
      else free_loop fuel bp n
  end.

(** The two if statements of free have the same form: put the block a before
    its successor b, or merge b into a when they touch. *)
Definition join (a b : Z) : M ust unit :=
  let* asize := rdsize a in
  if hadd a asize =? b then
    let* bsize := rdsize b in
    set_hsize a (u32 (asize + bsize)) ;;
    let* bptr := rdptr b in
    set_hptr a bptr
  else set_hptr a b.

Definition free (fuel : nat) (ap : Z) : M ust unit :=
  let bp := hadd ap (-1) in
  let* p0 := gets freep in
  let* p := free_loop fuel bp p0 in
  let* n := rdptr p in
  join bp n ;;
  join p bp ;;
  set_freep p.

Definition sbrk (n : Z) : M ust Z := fun s =>
  let '(r, k) := k_sbrk n (ukern s) in Ok r (Ust (umem s) (freep s) k).

(** sbrk takes an int: the 64-bit product is cut to 32 bits. *)
Definition morecore (fuel : nat) (nu : Z) : M ust Z :=
  let nu := if nu <? 4096 then 4096 else nu in
  let* p := sbrk (i32 (nu * HDR)) in
  if p =? u64 (-1) then ret 0
  else
    set_hsize p nu ;;
    free fuel (hadd p 1) ;;
    gets freep.

Definition nunits_of (nbytes : Z) : Z := u32 ((nbytes + HDR - 1) / HDR + 1).

(** Take nunits from the block p, whose predecessor is prevp. *)
Definition take_block (prevp p nunits : Z) : M ust Z :=
  let* sz := rdsize p in
  let* r :=
    (if sz =? nunits then
       let* n := rdptr p in set_hptr prevp n ;; ret p
     else
       set_hsize p (u32 (sz - nunits)) ;;
       let* sz := rdsize p in
       let p := hadd p sz in
       set_hsize p nunits ;; ret p) in
  set_freep prevp ;;
  ret (hadd r 1).

Fixpoint malloc_loop (fuel ffuel : nat) (nunits prevp p : Z) : M ust Z :=
  match fuel with
  | O => halt NoFuel
  | S fuel =>
      let* sz := rdsize p in
      if nunits <=? sz then take_block prevp p nunits
      else
        let* fp := gets freep in
        if p =? fp then
          let* p := morecore ffuel nunits in
          if p =? 0 then ret 0
          else let* n := rdptr p in malloc_loop fuel ffuel nunits p n
        else let* n := rdptr p in malloc_loop fuel ffuel nunits p n
  end.

Definition malloc (fuel : nat) (nbytes : Z) : M ust Z :=
  let nunits := nunits_of nbytes in
  let* fp := gets freep in
  (if fp =? 0 then set_hptr base base ;; set_freep base ;; set_hsize base 0 else ret tt) ;;
  let* prevp := gets freep in
  let* p := rdptr prevp in
  malloc_loop fuel fuel nunits prevp p.

(** ** Specification *)

(** Blocks: the address of the header and the size in headers. *)
Abbreviation block := (Z * Z)%type.

Definition inb (x : Z) (b : block) : bool := (b.1 <=? x) && (x <? b.1 + 16 * b.2).

(** How many of the blocks the byte at [x] belongs to. *)
Fixpoint occ (x : Z) (l : list block) : Z :=
  match l with
  | [] => 0
  | b :: l => b2z (inb x b) + occ x l
  end.

(** The segment of the ring from [p] to [q]. *)
Fixpoint seg (m : mem) (p : Z) (l : list block) (q : Z) : Prop :=
  match l with
  | [] => p = q
  | b :: l => p = b.1 /\ hsize m p = b.2 /\ seg m (hptr m p) l q
  end.

(** The blocks are in the order of their addresses and no two touch: the first
    begins after [e], every other after the end of the one before. *)
Fixpoint incr (e : Z) (l : list block) : Prop :=
  match l with
  | [] => True
  | b :: l => e < b.1 /\ incr (b.1 + 16 * b.2) l
  end.

(** The block lies between lo and hi. *)
Definition fits (lo hi : Z) (b : block) : Prop := 1 <= b.2 /\ lo <= b.1 /\ b.1 + 16 * b.2 <= hi.

(** The free blocks are [l], those in the hands of the program [live]. *)
Record heap_ok (s : ust) (l live : list block) : Prop := {
  ho_ring : seg (umem s) base ((base, 0) :: l) base;
  ho_incr : incr (base + 15) l;
  ho_freep : freep s ∈ ((base, 0) :: l).*1;
  ho_live : forall b, b ∈ live -> hsize (umem s) b.1 = b.2;
  ho_size : forall b, b ∈ l ++ live -> fits (base + 16) (k_brk (ukern s)) b;
  ho_occ : forall x, occ x (l ++ live) <= 1;
  ho_base : 0 < base /\ base + 16 <= k_brk (ukern s) < 2 ^ 31;
}.

(** ** Lemmas: headers *)

Definition apart (a b : Z) : Prop := a + 16 <= b \/ b + 16 <= a.

Lemma hptr_store64 m p v : hptr (store64 m p v) p = u64 v.
Proof. apply load64_store64_eq. Qed.
Lemma hsize_store64 m p v : hsize (store64 m p v) p = hsize m p.
Proof. apply load_le_store_le_out. lia. Qed.
Lemma hptr_store32 m p v : hptr (store32 m (p + 8) v) p = hptr m p.
Proof. apply load_le_store_le_out. lia. Qed.
Lemma hsize_store32 m p v : hsize (store32 m (p + 8) v) p = u32 v.
Proof. unfold hsize, load32, store32. rewrite load_le_store_le_eq. done. Qed.
Lemma hptr_store64_out m p v q : apart p q -> hptr (store64 m p v) q = hptr m q.
Proof. intros. apply load_le_store_le_out. unfold apart in *. lia. Qed.
Lemma hsize_store64_out m p v q : apart p q -> hsize (store64 m p v) q = hsize m q.
Proof. intros. apply load_le_store_le_out. unfold apart in *. lia. Qed.
Lemma hptr_store32_out m p v q : apart p q -> hptr (store32 m (p + 8) v) q = hptr m q.
Proof. intros. apply load_le_store_le_out. unfold apart in *. lia. Qed.
Lemma hsize_store32_out m p v q : apart p q -> hsize (store32 m (p + 8) v) q = hsize m q.
Proof. intros. apply load_le_store_le_out. unfold apart in *. lia. Qed.

(** The memory is the same outside the header at [a]. *)
Definition same_but (m m' : mem) (a : Z) : Prop :=
  forall x, x < a \/ a + 16 <= x -> load8 m' x = load8 m x.

Lemma same_but_hdr m m' a b : same_but m m' a -> apart a b -> hptr m' b = hptr m b /\ hsize m' b = hsize m b.
Proof. intros Hs Ha. split; apply load_le_ext; intros; apply Hs; unfold apart in *; lia. Qed.
Lemma same_but_store64 m a v : same_but m (store64 m a v) a.
Proof. intros x Hx. apply load8_store_le_out. lia. Qed.
Lemma same_but_store32 m a v : same_but m (store32 m (a + 8) v) a.
Proof. intros x Hx. apply load8_store_le_out. lia. Qed.
Lemma same_but_trans m1 m2 m3 a : same_but m1 m2 a -> same_but m2 m3 a -> same_but m1 m3 a.
Proof. intros H1 H2 x Hx. by rewrite H2, H1. Qed.

Lemma seg_ext m m' l : forall p q,
  (forall b, b ∈ l -> hptr m' b.1 = hptr m b.1 /\ hsize m' b.1 = hsize m b.1) ->
  seg m p l q -> seg m' p l q.
Proof.
  induction l as [|b l IH]; intros p q He; simpl; [done|]. intros (-> & Hs & Hl).
  destruct (He b) as [E1 E2]; [by left|]. rewrite E1, E2. split_and!; [done..|].
  apply IH; [|done]. intros c Hc. apply He. by right.
Qed.

Lemma seg_app m x y : forall p q, seg m p (x ++ y) q <-> exists r, seg m p x r /\ seg m r y q.
Proof.
  induction x as [|b x IH]; intros p q; simpl.
  - split; [by exists p | by intros (r & -> & ?)].
  - setoid_rewrite IH. naive_solver.
Qed.

(** ** Lemmas: blocks *)

Lemma occ_app x l1 l2 : occ x (l1 ++ l2) = occ x l1 + occ x l2.
Proof. induction l1; simpl; lia. Qed.

Lemma occ_nonneg x l : 0 <= occ x l.
Proof. induction l as [|b l IH]; simpl; [lia|]. destruct (inb x b); simpl; lia. Qed.

Lemma occ_perm x l1 l2 : l1 ≡ₚ l2 -> occ x l1 = occ x l2.
Proof. induction 1; simpl; lia. Qed.

Lemma occ_elem x l b : b ∈ l -> inb x b = true -> 1 <= occ x l.
Proof.
  intros (l1 & l2 & ->)%list_elem_of_split E. rewrite occ_app. cbn [occ]. rewrite E.
  pose proof (occ_nonneg x l1). pose proof (occ_nonneg x l2). simpl. lia.
Qed.

(** Two blocks of a disjoint family do not overlap. *)
Lemma occ_disjoint l a b r :
  (forall x, occ x l <= 1) -> l ≡ₚ a :: b :: r -> 1 <= a.2 -> 1 <= b.2 ->
  a.1 + 16 * a.2 <= b.1 \/ b.1 + 16 * b.2 <= a.1.
Proof.
  intros Ho Hp Ha Hb. specialize (Ho (Z.max a.1 b.1)). rewrite (occ_perm _ _ _ Hp) in Ho. cbn [occ] in Ho.
  pose proof (occ_nonneg (Z.max a.1 b.1) r). unfold inb in Ho.
  destruct (Z.leb_spec a.1 (Z.max a.1 b.1)), (Z.ltb_spec (Z.max a.1 b.1) (a.1 + 16 * a.2)),
    (Z.leb_spec b.1 (Z.max a.1 b.1)), (Z.ltb_spec (Z.max a.1 b.1) (b.1 + 16 * b.2)); simpl in Ho; lia.
Qed.

Lemma occ_disjoint2 l1 l2 a b :
  (forall x, occ x (l1 ++ l2) <= 1) -> a ∈ l1 -> b ∈ l2 -> 1 <= a.2 -> 1 <= b.2 ->
  a.1 + 16 * a.2 <= b.1 \/ b.1 + 16 * b.2 <= a.1.
Proof.
  intros Ho (x1 & y1 & ->)%list_elem_of_split (x2 & y2 & ->)%list_elem_of_split Ha Hb.
  apply (occ_disjoint _ a b (x1 ++ y1 ++ x2 ++ y2) Ho); [|done..]. solve_Permutation.
Qed.

(** The end of the last block. *)
Fixpoint lend (e : Z) (l : list block) : Z :=
  match l with
  | [] => e
  | b :: l => lend (b.1 + 16 * b.2) l
  end.

Lemma incr_app x y : forall e, incr e (x ++ y) <-> incr e x /\ incr (lend e x) y.
Proof. induction x as [|b x IH]; intros e; simpl; [naive_solver|]. rewrite IH. naive_solver. Qed.

Lemma incr_weaken l e e' : e' <= e -> incr e l -> incr e' l.
Proof. destruct l; simpl; [done|]. intros ? [? ?]. split; [lia | done]. Qed.

Lemma lend_snoc e x b : lend e (x ++ [b]) = b.1 + 16 * b.2.
Proof. revert e. induction x; intros e; simpl; auto. Qed.

(** Put a block before others; merge it with the first when they touch. *)
Definition joinl (a : block) (r : list block) : list block :=
  match r with
  | b :: r' => if a.1 + 16 * a.2 =? b.1 then (a.1, a.2 + b.2) :: r' else a :: r
  | [] => [a]
  end.

Lemma occ_joinl x a r : 0 <= a.2 -> (forall b, b ∈ r -> 0 <= b.2) -> occ x (joinl a r) = occ x (a :: r).
Proof.
  intros Ha Hr. destruct r as [|b r]; [done|]. simpl. destruct (Z.eqb_spec (a.1 + 16 * a.2) b.1); [|done].
  simpl. assert (0 <= b.2) by (apply Hr; by left). unfold inb; simpl.
  zcases; simpl; lia.
Qed.

Lemma incr_joinl e a r : e < a.1 -> incr (a.1 + 16 * a.2 - 1) r -> incr e (joinl a r).
Proof.
  intros He Hr. destruct r as [|b r]; simpl; [done|]. destruct Hr as [Hb Hr].
  destruct (Z.eqb_spec (a.1 + 16 * a.2) b.1); simpl; split_and!; try lia; [|done].
  eapply incr_weaken; [|exact Hr]. lia.
Qed.

Lemma elem_of_joinl a r c : c ∈ joinl a r ->
  c = a \/ c ∈ r \/ exists b, b ∈ r /\ a.1 + 16 * a.2 = b.1 /\ c = (a.1, a.2 + b.2).
Proof.
  destruct r as [|b r]; simpl; [rewrite list_elem_of_singleton; tauto|].
  destruct (Z.eqb_spec (a.1 + 16 * a.2) b.1); rewrite !elem_of_cons; [|tauto].
  intros [->|?]; [|tauto]. right. right. exists b. split_and!; [by left | done | done].
Qed.

(** ** Lemmas: free *)

Lemma hadd_id p n : 0 <= p + 16 * n < 2 ^ 64 -> hadd p n = p + 16 * n.
Proof. intros. unfold hadd, HDR. rewrite u64_id by lia. lia. Qed.

Lemma hptr_range m p : 0 <= hptr m p < 2 ^ 64.
Proof. apply load64_range. Qed.

(** The block at [a] can be joined with a ring that goes on with [r]. *)
Record joinable (m : mem) (a : block) (r : list block) (b : Z) : Prop := {
  jn_seg : seg m b r base;
  jn_size : hsize m a.1 = a.2;
  jn_bound : 0 <= a.1 /\ 0 <= a.2 /\ a.1 + 16 * a.2 < 2 ^ 31 /\ 0 <= b < 2 ^ 31;
  jn_apart : apart a.1 b /\ forall c, c ∈ r -> apart a.1 c.1;
  jn_sizes : forall c, c ∈ r -> 0 <= c.2 < 2 ^ 31;
  jn_end : r = [] -> a.1 + 16 * a.2 <> b;
}.

Lemma join_ok s a r b :
  joinable (umem s) a r b ->
  exists m', join a.1 b s = Ok tt (Ust m' (freep s) (ukern s)) /\ same_but (umem s) m' a.1 /\
    seg m' a.1 (joinl a r) base.
Proof.
  intros [Hr Hs Hb [Hab Har] Hz He]. destruct s as [m fp k], a as [a sa]. cbn [fst snd umem freep ukern] in *.
  unfold join, rdsize, gets. erewrite bind_run by reflexivity. cbn [umem]. rewrite Hs.
  rewrite hadd_id by lia.
  assert (forall m', same_but m m' a -> seg m' b r base) as Hk.
  { intros m' Hm. eapply seg_ext; [|exact Hr]. intros c Hc. eapply same_but_hdr; eauto. }
  destruct (Z.eqb_spec (a + 16 * sa) b) as [E|E].
  - destruct r as [|[b' sb] r]; [by exfalso; apply He|]. cbn [seg fst snd] in Hr. destruct Hr as (<- & Hsb & Hr).
    pose proof (Hz (b, sb) ltac:(by left)) as Hzb. cbn [snd] in Hzb.
    erewrite bind_run by reflexivity. unfold set_hsize, set_hptr, rdptr, gets, modify, bind. cbn [umem freep ukern].
    eexists. split; [reflexivity|]. rewrite hptr_store32_out, Hsb, !(u32_id (sa + sb)) by (done || lia).
    assert (same_but m (store64 (store32 m (a + 8) (sa + sb)) a (hptr m b)) a) as Hsame.
    { eapply same_but_trans; [apply same_but_store32 | apply same_but_store64]. }
    split; [exact Hsame|]. cbn [joinl fst snd]. rewrite (proj2 (Z.eqb_eq _ _) E). cbn [seg fst snd].
    rewrite hptr_store64, hsize_store64, hsize_store32, (u64_id (hptr m b)) by apply hptr_range.
    rewrite !(u32_id (sa + sb)) by lia. split_and!; [done | done |].
    eapply seg_ext; [|exact Hr]. intros c Hc. eapply same_but_hdr; [exact Hsame|]. apply Har. by right.
  - unfold set_hptr, modify. cbn [umem freep ukern]. eexists. split; [reflexivity|].
    split; [apply same_but_store64|].
    assert (seg (store64 m a b) a ((a, sa) :: r) base) as Hgo.
    { cbn [seg fst snd]. rewrite hptr_store64, hsize_store64, u64_id by lia.
      split_and!; [done | done |]. apply Hk, same_but_store64. }
    destruct r as [|[b' sb] r]; [exact Hgo|]. cbn [joinl fst snd]. destruct Hr as (-> & _). cbn [fst] in E.
    destruct (Z.eqb_spec (a + 16 * sa) b'); [done | exact Hgo].
Qed.

(** The search of free: past the blocks of a segment that lie on one side of
    bp, if the segment goes up. *)
Fixpoint up (y : list block) (c : Z) : Prop :=
  match y with
  | [] => True
  | b :: y => b.1 < match y with [] => c | b' :: _ => b'.1 end /\ up y c
  end.

Lemma up_hd b y c : up (b :: y) c -> b.1 < c.
Proof. revert b. induction y as [|b' y IH]; intros b [Hb Hy]; [done|]. specialize (IH _ Hy). lia. Qed.

Lemma seg_hd m a y c : seg m a y c -> a = match y with [] => c | b :: _ => b.1 end.
Proof. destruct y; simpl; naive_solver. Qed.

Lemma free_skip bp y : forall a c fuel s,
  seg (umem s) a y c -> up y c -> c < bp \/ bp < a ->
  free_loop (length y + fuel) bp a s = free_loop fuel bp c s.
Proof.
  induction y as [|b y IH]; intros a c fuel s Hs Hu Hc; [by simpl in Hs; subst|].
  pose proof (up_hd _ _ _ Hu) as Hbc. destruct Hs as (-> & _ & Hs), Hu as [Hb Hu].
  pose proof (seg_hd _ _ _ _ Hs) as Hn.
  assert (b.1 < hptr (umem s) b.1 <= c) as Hr.
  { rewrite Hn. split; [done|]. destruct y as [|b' y]; [lia|]. apply up_hd in Hu. lia. }
  cbn [length Nat.add free_loop]. unfold rdptr, gets. erewrite bind_run by reflexivity.
  replace ((b.1 <? bp) && (bp <? hptr (umem s) b.1)) with false by (zcases; simpl; lia).
  replace ((hptr (umem s) b.1 <=? b.1) && ((b.1 <? bp) || (bp <? hptr (umem s) b.1))) with false by (zcases; simpl; lia).
  apply IH; [done | done | lia].
Qed.

Lemma incr_up e l c : incr e l -> (forall b, b ∈ l -> 1 <= b.2) -> lend e l <= c -> up l c.
Proof.
  revert e. induction l as [|b l IH]; intros e; cbn [incr lend up]; [done|]. intros [He Hi] Hl Hc.
  assert (1 <= b.2) by (apply Hl; by left). split.
  - destruct l as [|b' l]; [simpl in Hc; lia|]. destruct Hi as [Hi _]. lia.
  - eapply IH; [exact Hi | | exact Hc]. intros. apply Hl. by right.
Qed.
Lemma up_app x b y c : up (x ++ b :: y) c -> up x b.1 /\ up (b :: y) c.
Proof.
  induction x as [|a x IH]; cbn [app]; [done|]. intros [Ha Hu]. destruct (IH Hu) as [Hx Hb]. split; [|exact Hb].
  split; [|exact Hx]. destruct x; exact Ha.
Qed.

Lemma up_elem y b c : up y c -> b ∈ y -> b.1 < c.
Proof. intros Hu (y1 & y2 & ->)%list_elem_of_split. apply up_app in Hu as [_ Hu]. eapply up_hd, Hu. Qed.

Lemma free_stop bp p fuel s :
  p < bp -> bp < hptr (umem s) p \/ hptr (umem s) p <= p -> free_loop (S fuel) bp p s = Ok p s.
Proof.
  intros Hp Hn. cbn [free_loop]. unfold rdptr, gets. erewrite bind_run by reflexivity.
  destruct ((p <? bp) && (bp <? hptr (umem s) p)) eqn:E; [done|].
  replace ((hptr (umem s) p <=? p) && ((p <? bp) || (bp <? hptr (umem s) p))) with true; [done|].
  destruct (Z.ltb_spec p bp), (Z.ltb_spec bp (hptr (umem s) p)), (Z.leb_spec (hptr (umem s) p) p);
    simpl in *; try done; lia.
Qed.

(** The search ends at the block before bp, from wherever in the ring it
    starts. *)
Lemma free_find s x p ps l2 bp C fuel :
  seg (umem s) base (x ++ (p, ps) :: l2) base -> up (x ++ (p, ps) :: l2) C ->
  freep s ∈ (x ++ (p, ps) :: l2).*1 -> base <= p -> p < bp -> (forall b, b ∈ l2 -> bp < b.1) ->
  (length (x ++ (p, ps) :: l2) < fuel)%nat ->
  free_loop fuel bp (freep s) s = Ok p s.
Proof.
  intros Hseg Hup Hf Hbase Hp Hl2 Hfuel. rewrite length_app in Hfuel. cbn [length] in Hfuel.
  pose proof (up_app _ _ _ _ Hup) as [Ux U2]. cbn [fst] in Ux.
  assert (up l2 C) as U2' by apply U2.
  apply seg_app in Hseg as (r & Sx & Sp). destruct Sp as (-> & _ & S2). cbn [fst] in *.
  assert (forall n, free_loop (S n) bp p s = Ok p s) as Hstop.
  { intros n. apply free_stop; [done|]. rewrite (seg_hd _ _ _ _ S2).
    destruct l2 as [|b l2]; [right; done | left; apply Hl2; by left]. }
  assert (forall a y n, seg (umem s) a y p -> up y p -> (length y < n)%nat -> free_loop n bp a s = Ok p s) as Hgo.
  { intros a y n Sy Uy Hn. replace n with (length y + S (n - length y - 1))%nat by lia.
    rewrite (free_skip _ _ _ _ _ _ Sy Uy) by (left; done). apply Hstop. }
  rewrite fmap_app in Hf. cbn [fmap list_fmap fst] in Hf.
  apply elem_of_app in Hf as [(b & -> & Hb)%list_elem_of_fmap | [-> | (b & -> & Hb)%list_elem_of_fmap]%elem_of_cons].
  - apply list_elem_of_split in Hb as (x1 & x2 & ->). apply seg_app in Sx as (r & _ & Sx).
    apply up_app in Ux as [_ Ux]. pose proof (seg_hd _ _ _ _ Sx) as ->.
    apply (Hgo _ (b :: x2)); [done | done |]. rewrite length_app in Hfuel. simpl in *. lia.
  - apply (Hgo _ []); [done | done |]. simpl. lia.
  - apply list_elem_of_split in Hb as (y1 & y2 & ->). apply seg_app in S2 as (r & _ & S2).
    apply up_app in U2' as [_ U2']. pose proof (seg_hd _ _ _ _ S2) as ->.
    destruct (exists_last (l := b :: y2)) as (w & z & Ew); [done|]. rewrite Ew in S2, U2'.
    apply seg_app in S2 as (r & Sw & Sz). destruct Sz as (-> & _ & Sz). cbn [seg] in Sz.
    apply up_app in U2' as [Uw _].
    assert (bp < b.1) as Hbb by (apply Hl2; apply elem_of_app; right; left).
    assert (bp < z.1) as Hbz. { apply Hl2. apply elem_of_app. right. rewrite Ew. apply elem_of_app. right. by left. }
    assert (length w <= length y2)%nat.
    { apply (f_equal length) in Ew. rewrite length_app in Ew. simpl in Ew. lia. }
    rewrite length_app in Hfuel. simpl in Hfuel.
    replace fuel with (length w + S (fuel - length w - 1))%nat by lia.
    rewrite (free_skip _ _ _ _ _ _ Sw Uw) by (right; done).
    cbn [free_loop]. unfold rdptr, gets. erewrite bind_run by reflexivity. rewrite Sz.
    replace ((z.1 <? bp) && (bp <? base)) with false by (zcases; simpl; lia).
    replace ((base <=? z.1) && ((z.1 <? bp) || (bp <? base))) with false by (zcases; simpl; lia).
    apply (Hgo _ x); [done | done | lia].
Qed.

(** Where a block goes among the free blocks it is disjoint from. *)
Lemma free_place l bp n : forall e0 e,
  incr e0 l -> e <= bp -> (forall b, b ∈ l -> b.1 + 16 * b.2 <= bp \/ bp + 16 * n <= b.1) ->
  exists l1 l2, l = l1 ++ l2 /\ lend e l1 <= bp /\ incr (bp + 16 * n - 1) l2.
Proof.
  induction l as [|b l IH]; intros e0 e; [intros; by exists [], []|]. intros [Hb Hi] He Hd.
  destruct (Hd b) as [Hd1|Hd1]; [by left | |].
  - destruct (IH _ (b.1 + 16 * b.2) Hi Hd1) as (l1 & l2 & -> & H1 & H2).
    { intros c Hc. apply Hd. by right. }
    by exists (b :: l1), l2.
  - exists [], (b :: l). split_and!; [done | done |]. split; [lia | done].
Qed.
Lemma fits_joinl lo hi a r :
  fits lo hi a -> (forall b, b ∈ r -> fits lo hi b) -> forall b, b ∈ joinl a r -> fits lo hi b.
Proof.
  intros Ha Hr b [->|[Hb|(c & Hc & E & ->)]]%elem_of_joinl; [done | auto |].
  destruct (Hr _ Hc) as (? & ? & ?), Ha as (? & ? & ?). split_and!; simpl; lia.
Qed.

Lemma incr_elem e l b : incr e l -> (forall c, c ∈ l -> 1 <= c.2) -> b ∈ l -> e < b.1.
Proof.
  revert e. induction l as [|c l IH]; intros e; [by intros _ _ ?%elem_of_nil|]. intros [Hc Hi] Hs Hb.
  apply elem_of_cons in Hb as [->|Hb]; [done|]. assert (1 <= c.2) by (apply Hs; by left).
  enough (c.1 + 16 * c.2 < b.1) by lia. apply IH; [done | | done]. intros. apply Hs. by right.
Qed.

(** The ring seen from a place in it. *)
Lemma ring_split l1 l2 bp :
  lend (base + 16) l1 <= bp -> incr (base + 15) (l1 ++ l2) -> (forall c, c ∈ l1 ++ l2 -> 1 <= c.2) -> base + 16 <= bp ->
  exists x p ps, (base, 0) :: l1 = x ++ [(p, ps)] /\ base <= p /\ p + 16 <= bp /\ p + 16 * ps <= bp /\ 0 <= ps /\
    (forall c, c ∈ x -> c.1 + 16 <= p) /\
    ((x = [] /\ p = base /\ ps = 0) \/ exists x', x = (base, 0) :: x' /\ l1 = x' ++ [(p, ps)] /\ base + 15 < p).
Proof.
  intros Hl Hi Hs Hb. destruct (decide (l1 = [])) as [->|Hne].
  - exists [], base, 0. split_and!; try done; try lia; [intros c Hc; by apply elem_of_nil in Hc | by left].
  - destruct (exists_last Hne) as (x & [p ps] & ->). rewrite lend_snoc in Hl. cbn [fst snd] in Hl.
    rewrite <- app_assoc in Hi, Hs. cbn [app] in Hi, Hs.
    assert (1 <= ps) by (apply (Hs (p, ps)); apply elem_of_app; right; left).
    assert (base + 15 < p).
    { apply (incr_elem _ _ (p, ps) Hi Hs). apply elem_of_app. right. left. }
    exists ((base, 0) :: x), p, ps. split_and!; try done; try lia; [|right; by exists x].
    intros c [->|Hc]%elem_of_cons; [simpl; lia|].
    apply list_elem_of_split in Hc as (x1 & x2 & ->). rewrite <- app_assoc in Hi, Hs. cbn [app] in Hi, Hs.
    apply incr_app in Hi as [_ [_ Hi]].
    assert (c.1 + 16 * c.2 < p).
    { apply (incr_elem _ _ (p, ps) Hi); [|apply elem_of_app; right; left].
      intros d Hd. apply Hs. apply elem_of_app. right. by right. }
    assert (1 <= c.2) by (apply Hs; apply elem_of_app; right; left). lia.
Qed.

Lemma ring_up l : incr (base + 15) l -> (forall c, c ∈ l -> 1 <= c.2) -> exists C, up ((base, 0) :: l) C.
Proof.
  intros Hi Hs. exists (Z.max (base + 1) (lend (base + 15) l)). split.
  - destruct l; [simpl; lia|]. destruct Hi as [? _]. simpl. lia.
  - eapply incr_up; [exact Hi | exact Hs | lia].
Qed.

(** The bytes of the blocks are the same. *)
Definition keeps (m m' : mem) (bs : list block) : Prop :=
  forall b x, b ∈ bs -> b.1 <= x < b.1 + 16 * b.2 -> load8 m' x = load8 m x.

Lemma keeps_same_but m m' a bs :
  same_but m m' a -> (forall b, b ∈ bs -> a + 16 <= b.1 \/ b.1 + 16 * b.2 <= a) -> keeps m m' bs.
Proof. intros Hs Ha b x Hb Hx. apply Hs. specialize (Ha b Hb). lia. Qed.

Lemma keeps_trans m1 m2 m3 bs : keeps m1 m2 bs -> keeps m2 m3 bs -> keeps m1 m3 bs.
Proof. intros H1 H2 b x Hb Hx. rewrite (H2 b), (H1 b); done. Qed.

Lemma keeps_hsize m m' bs b : keeps m m' bs -> b ∈ bs -> 1 <= b.2 -> hsize m' b.1 = hsize m b.1.
Proof. intros Hk Hb H1. apply load_le_ext. intros x Hx. apply (Hk b); [done|]. lia. Qed.
Lemma joinl_cons a r : exists n r', joinl a r = (a.1, n) :: r'.
Proof. destruct a, r as [|b r]; simpl; [eauto|]. destruct (_ =? _); eauto. Qed.

(** The stores of free, once the place is found. *)
Lemma free_links s x p ps l2 bp n :
  seg (umem s) base (x ++ (p, ps) :: l2) base -> hsize (umem s) bp = n ->
  base <= p -> 0 < base -> p + 16 <= bp -> p + 16 * ps <= bp -> 0 <= ps -> 1 <= n -> bp + 16 * n < 2 ^ 31 ->
  (forall c, c ∈ x -> c.1 + 16 <= p) ->
  (forall c, c ∈ l2 -> bp + 16 * n <= c.1 /\ 1 <= c.2 /\ c.1 + 16 * c.2 < 2 ^ 31) ->
  exists m', (join bp (hptr (umem s) p) ;; join p bp ;; set_freep p) s = Ok tt (Ust m' p (ukern s)) /\
    seg m' base (x ++ joinl (p, ps) (joinl (bp, n) l2)) base /\
    (forall y, ~ (p <= y < p + 16) -> ~ (bp <= y < bp + 16) -> load8 m' y = load8 (umem s) y).
Proof.
  intros Hseg Hn Hp Hb0 Hp16 Hps Hps0 Hn1 Hmax Hx Hl2.
  apply seg_app in Hseg as (r & Sx & -> & Sps & S2). cbn [fst snd] in *.
  pose proof (seg_hd _ _ _ _ S2) as Hnx.
  destruct (join_ok s (bp, n) l2 (hptr (umem s) p)) as (m1 & E1 & B1 & S1).
  { split; cbn [fst snd]; try done.
    - split_and!; try lia; rewrite Hnx; destruct l2 as [|c l2]; try lia; destruct (Hl2 c) as (? & ? & ?); (by left) || lia.
    - split; [|intros c Hc; destruct (Hl2 c Hc) as (? & ? & ?); unfold apart; lia].
      rewrite Hnx. destruct l2 as [|c l2]; [unfold apart; lia|]. destruct (Hl2 c) as (? & ? & ?); [by left | unfold apart; lia].
    - intros c Hc. destruct (Hl2 c Hc) as (? & ? & ?). lia.
    - intros ->. lia. }
  cbn [fst] in *.
  destruct (join_ok (Ust m1 (freep s) (ukern s)) (p, ps) (joinl (bp, n) l2) bp) as (m2 & E2 & B2 & S3).
  { split; cbn [fst snd umem]; try done; try lia.
    - destruct (same_but_hdr _ _ bp p B1) as [_ ->]; [unfold apart; lia | done].
    - split; [unfold apart; lia|]. intros c Hc. unfold apart.
      apply elem_of_joinl in Hc as [->|[Hc|(d & Hd & _ & ->)]]; simpl; try lia. destruct (Hl2 c Hc). lia.
    - intros c Hc. apply elem_of_joinl in Hc as [->|[Hc|(d & Hd & Ed & ->)]]; cbn [fst snd] in *; try lia.
      + destruct (Hl2 c Hc) as (? & ? & ?). lia.
      + destruct (Hl2 d Hd) as (? & ? & ?). lia.
    - intros E. apply (f_equal (fun l => length l)) in E. destruct l2; simpl in E; [done|]. by destruct (_ =? _). }
  cbn [fst umem freep ukern] in *. exists m2. rewrite (bind_run _ _ _ _ _ E1), (bind_run _ _ _ _ _ E2).
  split_and!; [done | |].
  - apply seg_app. exists p. split; [|exact S3]. eapply seg_ext; [|exact Sx]. intros c Hc. specialize (Hx c Hc).
    destruct (same_but_hdr _ _ p c.1 B2) as [-> ->]; [unfold apart; lia|].
    apply (same_but_hdr _ _ bp c.1 B1). unfold apart. lia.
  - intros y Hy1 Hy2. rewrite (B2 y), (B1 y) by lia. done.
Qed.

Lemma length_joinl a r : (length (joinl a r) <= S (length r))%nat.
Proof. destruct r as [|b r]; simpl; [lia|]. destruct (_ =? _); simpl; lia. Qed.

(** A block is merged into a bigger one or kept. *)
Lemma joinl_big a r b : 0 <= a.2 -> (forall c, c ∈ r -> 0 <= c.2) -> b ∈ a :: r ->
  exists c, c ∈ joinl a r /\ b.2 <= c.2.
Proof.
  intros Ha Hr Hb. destruct r as [|d r]; simpl in *; [exists b; split; [done | lia]|].
  destruct (Z.eqb_spec (a.1 + 16 * a.2) d.1); [|exists b; split; [done | lia]]. assert (0 <= d.2) by (apply Hr; by left).
  apply elem_of_cons in Hb as [->|[->|Hb]%elem_of_cons].
  - eexists; split; [by left | simpl; lia].
  - eexists; split; [by left | simpl; lia].
  - exists b. split; [by right | lia].
Qed.

(** The list of free blocks after free. *)
Lemma free_list hi x p ps l1 l2 bp n :
  ((x = [] /\ p = base /\ ps = 0 /\ l1 = []) \/ exists x', x = (base, 0) :: x' /\ l1 = x' ++ [(p, ps)] /\ base + 15 < p) ->
  incr (base + 15) (l1 ++ l2) -> (forall c, c ∈ l1 ++ l2 -> fits (base + 16) hi c) -> fits (base + 16) hi (bp, n) ->
  p + 16 * ps <= bp -> incr (bp + 16 * n - 1) l2 ->
  exists l', x ++ joinl (p, ps) (joinl (bp, n) l2) = (base, 0) :: l' /\ incr (base + 15) l' /\
    (forall c, c ∈ l' -> fits (base + 16) hi c) /\ (length l' <= S (length (l1 ++ l2)))%nat /\
    (forall y, occ y l' = occ y (l1 ++ l2) + occ y [(bp, n)]) /\ (exists c, c ∈ l' /\ n <= c.2).
Proof.
  intros Hx Hi Hf Hfb Hp Hi2. pose proof Hfb as (? & ? & ?). cbn [fst snd] in *.
  assert (forall c, c ∈ l2 -> fits (base + 16) hi c) as Hfz2. { intros c Hc. apply Hf, elem_of_app. by right. }
  assert (forall c, c ∈ l2 -> 0 <= c.2) as Hz2. { intros c Hc. destruct (Hfz2 c Hc). lia. }
  assert (forall y, occ y (joinl (bp, n) l2) = occ y [(bp, n)] + occ y l2) as Ho.
  { intros y. rewrite occ_joinl by (done || simpl; lia). simpl. lia. }
  destruct (joinl_big (bp, n) l2 (bp, n)) as (d & Hd & Hdn); [simpl; lia | done | by left |].
  pose proof (fits_joinl _ _ _ _ Hfb Hfz2) as Hfj. pose proof (length_joinl (bp, n) l2) as Hlen.
  destruct Hx as [(-> & -> & -> & ->)|(x' & -> & -> & Hbp)].
  - exists (joinl (bp, n) l2). cbn [app]. split_and!; try done.
    + destruct (joinl_cons (bp, n) l2) as (k & r & ->). simpl. destruct (Z.eqb_spec (base + 16 * 0) bp); [lia | done].
    + apply incr_joinl; simpl; [lia | done].
    + intros y. rewrite Ho. simpl. lia.
    + eauto.
  - assert (fits (base + 16) hi (p, ps)) as Hfp. { apply Hf. apply elem_of_app. left. apply elem_of_app. right. by left. }
    exists (x' ++ joinl (p, ps) (joinl (bp, n) l2)). split_and!; try done.
    + rewrite <- app_assoc in Hi. apply incr_app in Hi as [Hi Hi']. apply incr_app. split; [done|].
      cbn [app incr] in Hi'. apply incr_joinl; [apply Hi'|]. apply incr_joinl; [simpl; lia | done].
    + intros c [Hc|Hc]%elem_of_app.
      * apply Hf. rewrite <- app_assoc. apply elem_of_app. by left.
      * revert c Hc. by apply fits_joinl.
    + rewrite !length_app. pose proof (length_joinl (p, ps) (joinl (bp, n) l2)). simpl in *. lia.
    + intros y. rewrite !occ_app, occ_joinl; cbn [occ snd]; [rewrite Ho; simpl; lia | destruct Hfp; simpl in *; lia |].
      intros c Hc. destruct (Hfj c Hc). lia.
    + destruct (joinl_big (p, ps) (joinl (bp, n) l2) d) as (c & Hc & Hcd); [destruct Hfp; simpl in *; lia | | by right |].
      { intros c Hc. destruct (Hfj c Hc). lia. }
      exists c. split; [apply elem_of_app; by right | simpl in *; lia].
Qed.

(** A block of the program is disjoint from every other block. *)
Lemma heap_disjoint s l live b live' c :
  heap_ok s l live -> live ≡ₚ b :: live' -> c ∈ l ++ live' -> c.1 + 16 * c.2 <= b.1 \/ b.1 + 16 * b.2 <= c.1.
Proof.
  intros Hok Hperm Hc.
  assert (fits (base + 16) (k_brk (ukern s)) b) as Hf.
  { apply (ho_size _ _ _ Hok). apply elem_of_app. right. rewrite Hperm. by left. }
  assert (fits (base + 16) (k_brk (ukern s)) c) as Hfc.
  { apply (ho_size _ _ _ Hok). rewrite Hperm. apply elem_of_app in Hc as [?|?]; apply elem_of_app; [by left | right; by right]. }
  apply list_elem_of_split in Hc as (c1 & c2 & Ec).
  apply (occ_disjoint _ c b (c1 ++ c2) (ho_occ _ _ _ Hok)); [|apply Hfc | apply Hf].
  rewrite Hperm, <- Permutation_middle, Ec. solve_Permutation.
Qed.

(** free gives the block back: the bytes of all blocks stay, and nothing but
    headers of free blocks is written. *)
Lemma free_ok s l live bp n live' fuel :
  heap_ok s l live -> live ≡ₚ (bp, n) :: live' -> (length l + 1 < fuel)%nat ->
  exists m' p l', free fuel (bp + 16) s = Ok tt (Ust m' p (ukern s)) /\ heap_ok (Ust m' p (ukern s)) l' live' /\
    (forall x, occ x (l' ++ live') = occ x (l ++ live)) /\ (length l' <= S (length l))%nat /\
    (exists c, c ∈ l' /\ n <= c.2) /\ keeps (umem s) m' live'.
Proof.
  intros Hok Hperm Hfuel. pose proof Hok as [Hring Hincr Hfp Hlive Hsize Hocc [Hb0 Hbrk]].
  assert (forall c, c ∈ l ++ live' -> c.1 + 16 * c.2 <= bp \/ bp + 16 * n <= c.1) as Hdis.
  { intros c. apply (heap_disjoint s l live (bp, n) live' c Hok Hperm). }
  assert (fits (base + 16) (k_brk (ukern s)) (bp, n)) as Hfb.
  { apply Hsize. apply elem_of_app. right. rewrite Hperm. by left. }
  assert (forall c, c ∈ l -> fits (base + 16) (k_brk (ukern s)) c) as Hfl.
  { intros c Hc. apply Hsize, elem_of_app. by left. }
  assert (forall c, c ∈ live' -> fits (base + 16) (k_brk (ukern s)) c) as Hfv.
  { intros c Hc. apply Hsize, elem_of_app. right. rewrite Hperm. by right. }
  pose proof Hfb as (Hn1 & Hlo & Hhi). cbn [fst snd] in *.
  destruct (free_place l bp n (base + 15) (base + 16)) as (l1 & l2 & -> & Hl1 & Hi2); [done | done | |].
  { intros c Hc. apply Hdis, elem_of_app. by left. }
  assert (forall c, c ∈ l1 ++ l2 -> 1 <= c.2) as Hs1 by (intros c Hc; apply (Hfl c Hc)).
  destruct (ring_split l1 l2 bp) as (x & p & ps & Ex & Hp & Hp16 & Hpps & Hps0 & Hxc & Hcase); [done..|].
  rewrite app_comm_cons, Ex, <- app_assoc in Hring, Hfp. cbn [app] in Hring, Hfp.
  assert (forall c, c ∈ l2 -> bp + 16 * n <= c.1 /\ 1 <= c.2 /\ c.1 + 16 * c.2 < 2 ^ 31) as Hg2.
  { intros c Hc. destruct (Hfl c) as (? & ? & ?); [apply elem_of_app; by right|]. split; [|lia].
    enough (bp + 16 * n - 1 < c.1) by lia. apply (incr_elem _ l2); [done | | done].
    intros d Hd. apply Hs1, elem_of_app. by right. }
  destruct (ring_up _ Hincr Hs1) as [C HC]. rewrite app_comm_cons, Ex, <- app_assoc in HC. cbn [app] in HC.
  destruct (free_links s x p ps l2 bp n) as (m' & E & Sg & Same); try done; try lia.
  { apply (Hlive (bp, n)). rewrite Hperm. by left. }
  destruct (free_list (k_brk (ukern s)) x p ps l1 l2 bp n) as (l' & El & Hi' & Hf' & Hlen & Ho' & Hbig); try done.
  { destruct Hcase as [(-> & -> & ->)|?]; [left | by right]. split_and!; try done. by destruct l1. }
  rewrite El in Sg.
  assert (keeps (umem s) m' live') as Hkeep.
  { intros c y Hc Hy. pose proof (Hdis c ltac:(apply elem_of_app; by right)) as Hdc. destruct (Hfv c Hc) as (? & ? & ?).
    apply Same; [|lia]. destruct Hcase as [(_ & -> & _)|(x' & _ & -> & _)]; [lia|].
    enough (c.1 + 16 * c.2 <= p \/ p + 16 * ps <= c.1 /\ 1 <= ps) by lia.
    assert ((p, ps) ∈ (x' ++ [(p, ps)]) ++ l2) as Hin.
    { apply elem_of_app. left. apply elem_of_app. right. by left. }
    pose proof (Hs1 _ Hin) as Hps1. cbn [snd] in Hps1.
    destruct (occ_disjoint2 _ live (p, ps) c Hocc Hin) as [?|?]; [rewrite Hperm; by right | done | lia | |]; simpl in *; lia. }
  exists m', p, l'. split_and!; [| | |done|done|done].
  - unfold free. rewrite hadd_id by lia. replace (bp + 16 + 16 * -1) with bp by lia.
    unfold gets, rdptr. erewrite bind_run by reflexivity.
    erewrite bind_run; [|eapply free_find; try done; try lia].
    + exact E.
    + intros b Hb. destruct (Hg2 b Hb). lia.
    + apply (f_equal length) in Ex. rewrite !length_app in *. simpl in *. lia.
  - split; cbn [umem freep ukern]; try done.
    + rewrite <- El, fmap_app, elem_of_app. right.
      destruct (joinl_cons (p, ps) (joinl (bp, n) l2)) as (k & r & ->). left.
    + intros c Hc. rewrite (keeps_hsize _ _ _ _ Hkeep Hc); [|apply (Hfv c Hc)]. apply Hlive. rewrite Hperm. by right.
    + intros c [Hc|Hc]%elem_of_app; auto.
    + intros y. rewrite occ_app, Ho'. specialize (Hocc y). rewrite (occ_perm y (_ ++ live) ((l1 ++ l2) ++ (bp, n) :: live')) in Hocc by (by rewrite Hperm).
      rewrite occ_app in Hocc. simpl in *. lia.
  - intros y. rewrite !(occ_app y _ live), occ_app, Ho', (occ_perm y live _ Hperm). simpl. lia.
Qed.
(** ** Lemmas: malloc *)

Lemma ring_order l u a v b :
  incr (base + 15) l -> (forall c, c ∈ l -> 1 <= c.2) -> (base, 0) :: l = u ++ a :: v -> b ∈ v ->
  a.1 + 16 <= b.1 /\ a.1 + 16 * a.2 <= b.1.
Proof.
  intros Hi Hs E Hb. destruct u as [|c u]; simplify_eq/=.
  - pose proof (incr_elem _ _ _ Hi Hs Hb). lia.
  - apply incr_app in Hi as [_ [_ Hi]].
    assert (a.1 + 16 * a.2 < b.1).
    { apply (incr_elem _ v); [done | | done]. intros c' Hc. apply Hs, elem_of_app. right. by right. }
    assert (1 <= a.2) by (apply Hs, elem_of_app; right; by left). lia.
Qed.

Lemma up_split l1 l1' : forall p a l2 b l2' C,
  up (l1 ++ (p, a) :: l2) C -> l1 ++ (p, a) :: l2 = l1' ++ (p, b) :: l2' -> l1 = l1'.
Proof.
  revert l1'. induction l1 as [|c l1 IH]; intros [|c' l1'] p a l2 b l2' C Hu E; simplify_eq/=; [done | | |].
  - destruct Hu as [Hh Hu]. exfalso.
    assert (up ((p, a) :: l1' ++ (p, b) :: l2') C) as Hw by (split; done).
    change ((p, a) :: l1' ++ (p, b) :: l2') with (((p, a) :: l1') ++ (p, b) :: l2') in Hw.
    apply up_app in Hw as [Hw _]. apply up_hd in Hw. simpl in Hw. lia.
  - destruct Hu as [Hh Hu]. exfalso.
    assert (up ((p, b) :: l1 ++ (p, a) :: l2) C) as Hw by (split; done).
    change ((p, b) :: l1 ++ (p, a) :: l2) with (((p, b) :: l1) ++ (p, a) :: l2) in Hw.
    apply up_app in Hw as [Hw _]. apply up_hd in Hw. simpl in Hw. lia.
  - f_equal. apply (IH l1' p a l2 b l2' C); [apply Hu | done].
Qed.

(** The block whose pointer leads to p is the one before p. *)
Lemma prev_unique m l1 p sz l2 prevp C :
  seg m base ((base, 0) :: l1 ++ (p, sz) :: l2) base -> up ((base, 0) :: l1 ++ (p, sz) :: l2) C ->
  prevp ∈ ((base, 0) :: l1 ++ (p, sz) :: l2).*1 -> hptr m prevp = p -> p <> base ->
  exists x ps, (base, 0) :: l1 = x ++ [(prevp, ps)].
Proof.
  intros Hs Hu Hp Hn Hne. apply list_elem_of_fmap in Hp as ([a ps] & -> & Hp). cbn [fst] in *.
  apply list_elem_of_split in Hp as (x & y & E). rewrite E in Hs.
  apply seg_app in Hs as (r & _ & -> & _ & Hs). cbn [fst] in Hs. rewrite Hn in Hs.
  destruct y as [|[p' b] y]; [done|]. destruct Hs as (Hp' & _). cbn [fst] in Hp'. subst p'.
  exists x, ps. eapply (up_split _ _ p sz l2 b y C); [exact Hu|].
  rewrite <- app_assoc. exact E.
Qed.
(** The stores of take_block. *)
Definition take_links (m : mem) (prevp p sz nunits : Z) : mem :=
  if sz =? nunits then store64 m prevp (hptr m p)
  else let m := store32 m (p + 8) (sz - nunits) in store32 m (p + 16 * (sz - nunits) + 8) nunits.

Lemma take_run s prevp p sz nunits :
  hsize (umem s) p = sz -> 1 <= nunits <= sz -> 0 <= p -> p + 16 * sz < 2 ^ 31 ->
  take_block prevp p nunits s =
    Ok (p + 16 * (sz - nunits) + 16) (Ust (take_links (umem s) prevp p sz nunits) prevp (ukern s)).
Proof.
  intros Hs Hn Hp Hb. unfold take_block, rdsize, rdptr, gets, set_hptr, set_hsize, set_freep, modify, take_links.
  erewrite bind_run by reflexivity. rewrite Hs. destruct (Z.eqb_spec sz nunits) as [E|E].
  - unfold bind, ret. cbn [umem freep ukern]. rewrite hadd_id by lia. f_equal. lia.
  - unfold bind, ret. cbn [umem freep ukern].
    rewrite (u32_id (sz - nunits)), hsize_store32, (u32_id (sz - nunits)) by lia. rewrite (hadd_id p), hadd_id by lia. repeat f_equal; lia.
Qed.

Lemma take_same m prevp p sz nunits y :
  1 <= nunits <= sz -> ~ (prevp <= y < prevp + 16) -> ~ (p <= y < p + 16 * sz) ->
  load8 (take_links m prevp p sz nunits) y = load8 m y.
Proof.
  intros Hn H1 H2. unfold take_links. destruct (Z.eqb_spec sz nunits).
  - apply same_but_store64. lia.
  - rewrite (same_but_store32 _ _ _ y), (same_but_store32 _ _ _ y) by lia. done.
Qed.

(** The block taken is the end of the free block, or the whole of it. *)
Definition take_rest (l1 l2 : list block) (p sz nunits : Z) : list block :=
  if sz =? nunits then l1 ++ l2 else l1 ++ (p, sz - nunits) :: l2.

Lemma take_rest_ok hi l1 l2 p sz nunits :
  1 <= nunits <= sz -> incr (base + 15) (l1 ++ (p, sz) :: l2) ->
  (forall c, c ∈ l1 ++ (p, sz) :: l2 -> fits (base + 16) hi c) ->
  incr (base + 15) (take_rest l1 l2 p sz nunits) /\
  (forall c, c ∈ take_rest l1 l2 p sz nunits -> fits (base + 16) hi c) /\
  (length (take_rest l1 l2 p sz nunits) <= length (l1 ++ (p, sz) :: l2))%nat /\
  (forall y, occ y (take_rest l1 l2 p sz nunits) + occ y [(p + 16 * (sz - nunits), nunits)] = occ y (l1 ++ (p, sz) :: l2)).
Proof.
  intros Hn Hi Hf. assert (fits (base + 16) hi (p, sz)) as (? & ? & ?) by (apply Hf, elem_of_app; right; by left).
  cbn [fst snd] in *. apply incr_app in Hi as [Hi1 [Hp Hi2]]. cbn [fst snd] in *.
  unfold take_rest. destruct (Z.eqb_spec sz nunits) as [->|Hne]; split_and!.
  - apply incr_app. split; [done|]. eapply incr_weaken; [|exact Hi2]. lia.
  - intros c [Hc|Hc]%elem_of_app; apply Hf, elem_of_app; [by left | right; by right].
  - rewrite !length_app. simpl. lia.
  - intros y. rewrite !occ_app. simpl. replace (p + 16 * (nunits - nunits)) with p by lia. lia.
  - apply incr_app. split; [done|]. split; [done|]. eapply incr_weaken; [|exact Hi2]. simpl. lia.
  - intros c [Hc|[->|Hc]%elem_of_cons]%elem_of_app; [| split_and!; simpl; lia |];
      apply Hf, elem_of_app; [by left | right; by right].
  - rewrite !length_app. simpl. lia.
  - intros y. rewrite !occ_app. simpl. unfold inb. simpl. zcases; simpl; lia.
Qed.

(** The ring after take_block. *)
Lemma take_ring m l1 l2 p sz nunits prevp :
  seg m base ((base, 0) :: l1 ++ (p, sz) :: l2) base -> 0 < base -> p + 16 * sz < 2 ^ 31 ->
  incr (base + 15) (l1 ++ (p, sz) :: l2) -> (forall c, c ∈ l1 ++ (p, sz) :: l2 -> 1 <= c.2) ->
  prevp ∈ ((base, 0) :: l1 ++ (p, sz) :: l2).*1 -> hptr m prevp = p -> 1 <= nunits <= sz ->
  seg (take_links m prevp p sz nunits) base ((base, 0) :: take_rest l1 l2 p sz nunits) base /\
  prevp ∈ ((base, 0) :: take_rest l1 l2 p sz nunits).*1 /\ prevp + 16 <= p.
Proof.
  intros Hs Hb0 Hmax Hi Hz Hp Hpp Hn. destruct (ring_up _ Hi Hz) as [C HC].
  assert (base < p) as Hpb.
  { pose proof (incr_elem _ _ (p, sz) Hi Hz ltac:(apply elem_of_app; right; by left)). simpl in *. lia. }
  destruct (prev_unique m l1 p sz l2 prevp C Hs HC Hp Hpp ltac:(lia)) as (x & ps & Ex).
  assert (forall c, c ∈ x -> c.1 + 16 <= prevp) as Hx.
  { intros c (x1 & x2 & ->)%list_elem_of_split.
    apply (ring_order _ x1 c (x2 ++ [(prevp, ps)] ++ (p, sz) :: l2) (prevp, ps) Hi Hz).
    - rewrite app_comm_cons, Ex, <- !app_assoc. done.
    - apply elem_of_app. right. by left. }
  assert (forall c, c ∈ l2 -> p + 16 * sz <= c.1) as Hl2.
  { intros c Hc. apply (ring_order _ ((base, 0) :: l1) (p, sz) l2 c Hi Hz); done. }
  assert (prevp + 16 <= p) as Hprev.
  { apply (ring_order _ x (prevp, ps) ((p, sz) :: l2) (p, sz) Hi Hz); [|by left].
    rewrite app_comm_cons, Ex, <- app_assoc. done. }
  unfold take_rest, take_links. destruct (Z.eqb_spec sz nunits) as [->|Hne].
  - rewrite !app_comm_cons, Ex, <- !app_assoc in *. cbn [app] in *.
    apply seg_app in Hs as (r & Sx & -> & Sps & Sp). cbn [fst snd] in *. rewrite Hpp in Sp. destruct Sp as (_ & _ & S2).
    split; [|split; [rewrite fmap_app; apply elem_of_app; right; by left | done]]. cbn [fst] in S2.
    apply seg_app. exists prevp. split; [|split; [done|split]].
    + eapply seg_ext; [|exact Sx]. intros c Hc. specialize (Hx c Hc).
      eapply same_but_hdr; [apply same_but_store64 | unfold apart; lia].
    + cbn [fst snd]. by rewrite hsize_store64.
    + rewrite hptr_store64, u64_id by apply hptr_range. eapply seg_ext; [|exact S2]. intros c Hc. specialize (Hl2 c Hc).
      eapply same_but_hdr; [apply same_but_store64 | unfold apart; lia].
  - split; [|split; [rewrite !app_comm_cons, !fmap_app in *; exact Hp | done]].
    rewrite !app_comm_cons in *. apply seg_app in Hs as (r & S1 & -> & Ssz & S2). cbn [fst snd] in *.
    set (m' := store32 (store32 m (p + 8) (sz - nunits)) (p + 16 * (sz - nunits) + 8) nunits).
    assert (forall c, c + 16 <= p \/ p + 16 * sz <= c -> hptr m' c = hptr m c /\ hsize m' c = hsize m c) as Hout.
    { intros c Hc. unfold m'. split; [rewrite !hptr_store32_out | rewrite !hsize_store32_out]; unfold apart; (done || lia). }
    apply seg_app. exists p. split; [|split; [done|split]].
    + eapply seg_ext; [|exact S1]. rewrite Ex. intros c [Hc|Hc%list_elem_of_singleton]%elem_of_app; apply Hout; left;
        [specialize (Hx c Hc); lia | subst c; done].
    + cbn [fst snd]. unfold m'. rewrite hsize_store32_out, hsize_store32, u32_id by (unfold apart; lia). done.
    + replace (hptr m' p) with (hptr m p); [|unfold m'; rewrite !hptr_store32_out by (unfold apart; lia); by rewrite hptr_store32].
      eapply seg_ext; [|exact S2]. intros c Hc. apply Hout. right. by apply Hl2.
Qed.

Lemma take_block_ok s l1 p sz l2 live prevp nunits :
  heap_ok s (l1 ++ (p, sz) :: l2) live -> prevp ∈ ((base, 0) :: l1 ++ (p, sz) :: l2).*1 ->
  hptr (umem s) prevp = p -> 1 <= nunits <= sz ->
  exists m' bp l', take_block prevp p nunits s = Ok (bp + 16) (Ust m' prevp (ukern s)) /\
    heap_ok (Ust m' prevp (ukern s)) l' ((bp, nunits) :: live) /\
    (forall y, occ y (l' ++ (bp, nunits) :: live) = occ y (l1 ++ (p, sz) :: l2 ++ live)) /\
    (length l' <= length (l1 ++ (p, sz) :: l2))%nat /\ keeps (umem s) m' live.
Proof.
  intros [Hring Hincr Hfp Hlive Hsize Hocc [Hb0 Hbrk]] Hp Hpp Hn.
  assert (forall c, c ∈ l1 ++ (p, sz) :: l2 -> fits (base + 16) (k_brk (ukern s)) c) as Hf.
  { intros c Hc. apply Hsize, elem_of_app. by left. }
  assert ((p, sz) ∈ l1 ++ (p, sz) :: l2) as Hin by (apply elem_of_app; right; by left).
  destruct (Hf _ Hin) as (Hsz & Hlo & Hhi). cbn [fst snd] in *.
  destruct (take_rest_ok (k_brk (ukern s)) l1 l2 p sz nunits Hn Hincr Hf) as (Ri & Rf & Rl & Ro).
  destruct (take_ring (umem s) l1 l2 p sz nunits prevp) as (Rr & Rp & Rpp); try done; try lia.
  { intros c Hc. apply (Hf c Hc). }
  assert (hsize (umem s) p = sz) as Es.
  { apply seg_app with (x := (base, 0) :: l1) in Hring as (r & _ & -> & E & _). done. }
  assert (keeps (umem s) (take_links (umem s) prevp p sz nunits) live) as Hkeep.
  { intros c y Hc Hy. assert (fits (base + 16) (k_brk (ukern s)) c) as (? & ? & ?) by (apply Hsize, elem_of_app; by right).
    apply take_same; [done | |].
    - cbn [fmap list_fmap] in Hp. apply elem_of_cons in Hp as [->|(d & -> & Hd)%list_elem_of_fmap]; [simpl; lia|].
      destruct (Hf d Hd) as (? & ? & ?). destruct (occ_disjoint2 _ _ d c Hocc Hd Hc); lia.
    - destruct (occ_disjoint2 _ _ (p, sz) c Hocc Hin Hc) as [?|?]; simpl in *; lia. }
  exists (take_links (umem s) prevp p sz nunits), (p + 16 * (sz - nunits)), (take_rest l1 l2 p sz nunits).
  assert (forall y, occ y (take_rest l1 l2 p sz nunits ++ (p + 16 * (sz - nunits), nunits) :: live) =
    occ y ((l1 ++ (p, sz) :: l2) ++ live)) as Ho.
  { intros y. specialize (Ro y). rewrite (occ_app y _ live), occ_app. simpl in *. lia. }
  split_and!; [apply take_run; (done || lia) | | | done | done]; cycle 1.
  { intros y. rewrite Ho, <- app_assoc. done. }
  split; cbn [umem freep ukern]; try done.
  - intros c [->|Hc]%elem_of_cons; [|rewrite (keeps_hsize _ _ _ _ Hkeep Hc); [by apply Hlive|];
      apply (Hsize c), elem_of_app; by right].
    cbn [fst snd]. unfold take_links. destruct (Z.eqb_spec sz nunits) as [->|Hne].
    + replace (p + 16 * (nunits - nunits)) with p by lia.
      rewrite hsize_store64_out by (unfold apart; lia). done.
    + rewrite hsize_store32, u32_id by lia. done.
  - intros c [Hc|[->|Hc]%elem_of_cons]%elem_of_app; [auto | split_and!; simpl; lia |].
    apply Hsize, elem_of_app. by right.
  - intros y. rewrite Ho. done.
Qed.
(** ** The search of malloc *)

Definition grow (n ffuel : nat) (nunits : Z) : M ust Z :=
  let* p := morecore ffuel nunits in
  if p =? 0 then ret 0
  else let* nx := rdptr p in malloc_loop n ffuel nunits p nx.

Lemma scan s ffuel nunits (A : list Z) y : forall prevp p q fs,
  seg (umem s) p (y ++ [(freep s, fs)]) q -> (forall c, c ∈ y -> c.1 <> freep s) ->
  hptr (umem s) prevp = p -> prevp ∈ A -> (forall c, c ∈ y -> c.1 ∈ A) ->
  (exists a b sz, (b, sz) ∈ y ++ [(freep s, fs)] /\ a ∈ A /\ hptr (umem s) a = b /\ nunits <= sz /\
     forall n, (length y < n)%nat -> malloc_loop n ffuel nunits prevp p s = take_block a b nunits s) \/
  ((forall c, c ∈ y ++ [(freep s, fs)] -> c.2 < nunits) /\
     forall n, malloc_loop (length y + S n) ffuel nunits prevp p s = grow n ffuel nunits s).
Proof.
  induction y as [|c y IH]; intros prevp p q fs Hs Hy Hpp Hprev HA; cbn [app] in *.
  - destruct Hs as (-> & Hfs & _). cbn [fst snd] in *.
    destruct (Z.leb_spec nunits fs) as [Hfit|Hsmall].
    + left. exists prevp, (freep s), fs. split_and!; try done; [by left|]. intros [|n] Hn; [simpl in Hn; lia|].
      cbn [malloc_loop]. unfold rdsize, gets. erewrite bind_run by reflexivity. rewrite Hfs.
      rewrite (proj2 (Z.leb_le _ _) Hfit). done.
    + right. split; [intros c ->%list_elem_of_singleton; done|]. intros n. cbn [length Nat.add malloc_loop].
      unfold rdsize, gets. erewrite bind_run by reflexivity. rewrite Hfs, (proj2 (Z.leb_gt _ _) Hsmall).
      erewrite bind_run by reflexivity. rewrite Z.eqb_refl. done.
  - destruct Hs as (-> & Hcs & Hs). destruct (Z.leb_spec nunits c.2) as [Hfit|Hsmall].
    + left. exists prevp, c.1, c.2. split_and!; try done; [destruct c; by left|]. intros [|n] Hn; [simpl in Hn; lia|].
      cbn [malloc_loop]. unfold rdsize, gets. erewrite bind_run by reflexivity. rewrite Hcs.
      rewrite (proj2 (Z.leb_le _ _) Hfit). done.
    + assert (forall n, malloc_loop (S n) ffuel nunits prevp c.1 s =
        malloc_loop n ffuel nunits c.1 (hptr (umem s) c.1) s) as Hstep.
      { intros n. cbn [malloc_loop]. unfold rdsize, gets. erewrite bind_run by reflexivity.
        rewrite Hcs, (proj2 (Z.leb_gt _ _) Hsmall). erewrite bind_run by reflexivity.
        rewrite (proj2 (Z.eqb_neq _ _) (Hy c ltac:(by left))). done. }
      destruct (IH c.1 _ q fs Hs) as [(a & b & sz & Hin & Ha & Hb & Hfit & Hrun)|[Hall Hrun]]; try done.
      * intros d Hd. apply Hy. by right.
      * apply HA. by left.
      * intros d Hd. apply HA. by right.
      * left. exists a, b, sz. split_and!; try done; [by right|]. intros [|n] Hn; [simpl in Hn; lia|].
        rewrite Hstep. apply Hrun. simpl in Hn. lia.
      * right. split; [intros d [->|Hd]%elem_of_cons; [done | by apply Hall]|]. intros n.
        cbn [length Nat.add]. rewrite Hstep. apply Hrun.
Qed.

(** The search from freep sees every free block. *)
Lemma scan_ring s l live ffuel nunits :
  heap_ok s l live -> 1 <= nunits ->
  (exists a b sz l1 l2, l = l1 ++ (b, sz) :: l2 /\ a ∈ ((base, 0) :: l).*1 /\ hptr (umem s) a = b /\ nunits <= sz /\
     forall n, (length l < n)%nat -> malloc_loop n ffuel nunits (freep s) (hptr (umem s) (freep s)) s = take_block a b nunits s) \/
  ((forall c, c ∈ l -> c.2 < nunits) /\
     forall n, malloc_loop (length l + S n) ffuel nunits (freep s) (hptr (umem s) (freep s)) s = grow n ffuel nunits s).
Proof.
  intros [Hring Hincr Hfp Hlive Hsize Hocc [Hb0 Hbrk]] Hn.
  assert (forall c, c ∈ l -> 1 <= c.2) as Hz. { intros c Hc. apply (Hsize c), elem_of_app. by left. }
  destruct (ring_up _ Hincr Hz) as [C HC].
  pose proof Hfp as ([f fs] & Ef & Hin)%list_elem_of_fmap. cbn [fst] in Ef.
  apply list_elem_of_split in Hin as (x & y & E). subst f.
  pose proof Hring as Hr. rewrite E in Hr. apply seg_app in Hr as (r & Sx & -> & Sfs & Sy). cbn [fst snd] in *.
  assert ((base, 0) :: l ≡ₚ (y ++ x) ++ [(freep s, fs)]) as Hperm by (rewrite E; solve_Permutation).
  assert (length (y ++ x) = length l) as Elen.
  { apply Permutation_length in Hperm. rewrite (length_app _ [_]) in Hperm. simpl in Hperm. lia. }
  assert (seg (umem s) (hptr (umem s) (freep s)) ((y ++ x) ++ [(freep s, fs)]) (hptr (umem s) (freep s))) as Sr.
  { rewrite <- app_assoc. apply seg_app. exists base. split; [done|]. apply seg_app. exists (freep s). by split. }
  rewrite E in HC.
  destruct (scan s ffuel nunits ((base, 0) :: l).*1 (y ++ x) (freep s) _ _ fs Sr) as [(a & b & sz & Hb & Ha & Hab & Hfit & Hrun)|[Hall Hrun]]; try done.
  - intros c Hc. apply elem_of_app in Hc as [Hc|Hc].
    + apply up_app in HC as [_ HC]. apply list_elem_of_split in Hc as (y1 & y2 & ->).
      change ((freep s, fs) :: y1 ++ c :: y2) with (((freep s, fs) :: y1) ++ c :: y2) in HC.
      apply up_app in HC as [HC _]. apply up_hd in HC. simpl in HC. lia.
    + apply up_app in HC as [HC _]. pose proof (up_elem _ _ _ HC Hc). simpl in *. lia.
  - intros c Hc. apply list_elem_of_fmap. exists c. split; [done|]. rewrite Hperm. apply elem_of_app. by left.
  - left. assert ((b, sz) ∈ l) as Hbl.
    { rewrite <- Hperm in Hb. apply elem_of_cons in Hb as [[= -> ->]|?]; [lia | done]. }
    apply list_elem_of_split in Hbl as (l1 & l2 & El). exists a, b, sz, l1, l2. split_and!; try done.
    intros n Hn'. apply Hrun. by rewrite Elen.
  - right. split; [|intros n; rewrite <- Elen; apply Hrun]. intros c Hc. apply Hall. rewrite <- Hperm. by right.
Qed.
(** ** morecore and malloc *)

Lemma occ_zero y l : (forall b, b ∈ l -> inb y b = false) -> occ y l = 0.
Proof.
  induction l as [|b l IH]; intros Hl; [done|]. cbn [occ]. rewrite (Hl b), IH; [done | | by left].
  intros c Hc. apply Hl. by right.
Qed.

Context `{!SbrkLaws K}.

(** The bytes sbrk added between two states. *)
Definition grown (k k' : K) (y : Z) : Z := b2z ((k_brk k <=? y) && (y <? k_brk k')).

Lemma heap_extend s l live k' nu :
  heap_ok s l live -> 1 <= nu -> k_brk k' = k_brk (ukern s) + 16 * nu -> k_brk k' < 2 ^ 31 ->
  let p := k_brk (ukern s) in let m' := store32 (umem s) (p + 8) nu in
  heap_ok (Ust m' (freep s) k') l ((p, nu) :: live) /\ keeps (umem s) m' live /\
  (forall y, occ y (l ++ (p, nu) :: live) = occ y (l ++ live) + grown (ukern s) k' y).
Proof.
  intros [Hring Hincr Hfp Hlive Hsize Hocc [Hb0 Hbrk]] Hnu Ek' Hk' p m'. fold p in Ek', Hsize, Hbrk.
  assert (keeps (umem s) m' live) as Hkeep.
  { apply (keeps_same_but _ _ p); [apply same_but_store32|]. intros b Hb. right. apply (Hsize b), elem_of_app. by right. }
  assert (forall y, occ y (l ++ (p, nu) :: live) = occ y (l ++ live) + grown (ukern s) k' y) as Ho.
  { intros y. rewrite !occ_app. cbn [occ]. unfold inb, grown. fold p. rewrite Ek'. cbn [fst snd]. lia. }
  split_and!; [|done|done]. split; cbn [umem freep ukern]; try done; rewrite ?Ek' in *.
  - eapply seg_ext; [|exact Hring]. intros b Hb. eapply same_but_hdr; [apply same_but_store32|]. right.
    apply elem_of_cons in Hb as [->|Hb]; [simpl; lia|]. destruct (Hsize b) as (? & ? & ?); [apply elem_of_app; by left | lia].
  - intros b [->|Hb]%elem_of_cons; [cbn [fst snd]; unfold m'; rewrite hsize_store32, u32_id by lia; done|].
    rewrite (keeps_hsize _ _ _ _ Hkeep Hb); [by apply Hlive|]. apply (Hsize b), elem_of_app. by right.
  - intros b [Hb|[->|Hb]%elem_of_cons]%elem_of_app; [|split_and!; simpl; lia|];
      (destruct (Hsize b) as (? & ? & ?); [apply elem_of_app; auto|]; split_and!; lia).
  - intros y. rewrite Ho. unfold grown. fold p. rewrite Ek'.
    destruct (Z.leb_spec p y), (Z.ltb_spec y (p + 16 * nu)); cbn [andb b2z]; try (specialize (Hocc y); lia).
    rewrite occ_zero; [lia|]. intros b Hb. destruct (Hsize b Hb) as (? & ? & ?). unfold inb. zcases; simpl; lia.
  - lia.
Qed.

Lemma morecore_ok s l live nunits ffuel :
  heap_ok s l live -> 1 <= nunits -> 16 * nunits < 2 ^ 31 -> (length l + 1 < ffuel)%nat ->
  (exists k', morecore ffuel nunits s = Ok 0 (Ust (umem s) (freep s) k') /\ k_brk k' = k_brk (ukern s)) \/
  (exists s' l', morecore ffuel nunits s = Ok (freep s') s' /\ heap_ok s' l' live /\
     (forall y, occ y (l' ++ live) = occ y (l ++ live) + grown (ukern s) (ukern s') y) /\
     (length l' <= S (length l))%nat /\ (exists c, c ∈ l' /\ nunits <= c.2) /\ keeps (umem s) (umem s') live).
Proof.
  intros Hok Hn Hmax Hfuel. pose proof (ho_base _ _ _ Hok) as [Hb0 Hbrk]. unfold morecore.
  set (nu := if nunits <? 4096 then 4096 else nunits).
  assert (nunits <= nu /\ 1 <= nu /\ 16 * nu < 2 ^ 31) as (Hnu & Hnu1 & Hnu2) by (unfold nu; zcases; lia).
  unfold HDR. rewrite i32_id by lia.
  pose proof (sbrk_grows (nu * 16) (ukern s) ltac:(lia)) as Hsb.
  destruct (k_sbrk (nu * 16) (ukern s)) as [r k'] eqn:Ek. cbn [fst snd] in Hsb.
  assert (sbrk (nu * 16) s = Ok r (Ust (umem s) (freep s) k')) as Es by (unfold sbrk; by rewrite Ek).
  rewrite (bind_run _ _ _ _ _ Es). destruct Hsb as [[-> Hk]|(-> & Hk & Hk2)].
  - left. exists k'. done.
  - right. destruct (Z.eqb_spec (k_brk (ukern s)) (u64 (-1))) as [E|_]; [change (u64 (-1)) with (2 ^ 64 - 1) in E; lia|].
    destruct (heap_extend s l live k' nu Hok Hnu1) as (Hok' & Hkeep & Ho); [lia..|].
    unfold set_hsize, modify. erewrite bind_run by reflexivity. cbn [umem freep ukern].
    destruct (free_ok _ l _ _ _ live ffuel Hok' ltac:(reflexivity) Hfuel) as (m2 & p & l' & E & Hok2 & Ho2 & Hl2 & Hbig & Hkeep2).
    rewrite hadd_id by lia. replace (k_brk (ukern s) + 16 * 1) with (k_brk (ukern s) + 16) by lia.
    rewrite (bind_run _ _ _ _ _ E). exists (Ust m2 p k'), l'. cbn [umem freep ukern] in *. split_and!; try done.
    + intros y. by rewrite Ho2, Ho.
    + destruct Hbig as (c & ? & ?). exists c. split; [done | lia].
    + by eapply keeps_trans.
Qed.
Lemma freep_pos s l live : heap_ok s l live -> 0 < freep s.
Proof.
  intros [_ _ Hfp _ Hsize _ [Hb _]]. cbn [fmap list_fmap] in Hfp.
  apply elem_of_cons in Hfp as [->|(b & -> & Hb')%list_elem_of_fmap]; [done|].
  destruct (Hsize b) as (_ & ? & _); [apply elem_of_app; by left | lia].
Qed.

(** A successful allocation, as its caller sees it. *)
Record allocated (s s' : ust) (l live : list block) (nunits bp : Z) (l' : list block) : Prop := {
  al_ok : heap_ok s' l' ((bp, nunits) :: live);
  al_occ : forall y, occ y (l' ++ (bp, nunits) :: live) = occ y (l ++ live) + grown (ukern s) (ukern s') y;
  al_keeps : keeps (umem s) (umem s') live;
}.

Lemma brk_grown_refl k y : grown k k y = 0.
Proof. unfold grown. destruct (Z.leb_spec (k_brk k) y), (Z.ltb_spec y (k_brk k)); simpl; lia. Qed.

(** The search from freep ends with a block, or finds that none is big enough. *)
Lemma search_ok s l live nunits ffuel :
  heap_ok s l live -> 1 <= nunits ->
  (exists s' bp l', allocated s s' l live nunits bp l' /\ ukern s' = ukern s /\
     forall n, (length l < n)%nat ->
       malloc_loop n ffuel nunits (freep s) (hptr (umem s) (freep s)) s = Ok (bp + 16) s') \/
  ((forall c, c ∈ l -> c.2 < nunits) /\
     forall n, malloc_loop (length l + S n) ffuel nunits (freep s) (hptr (umem s) (freep s)) s = grow n ffuel nunits s).
Proof.
  intros Hok Hn. destruct (scan_ring s l live ffuel nunits Hok Hn) as [(a & b & sz & l1 & l2 & -> & Ha & Hab & Hfit & Hrun)|?]; [|by right].
  left. destruct (take_block_ok s l1 b sz l2 live a nunits Hok Ha Hab) as (m' & bp & l' & E & Hok' & Ho & _ & Hkeep); [lia|].
  exists (Ust m' a (ukern s)), bp, l'. split; [|split; [done | intros n Hl; by rewrite Hrun]]. split; [done | | done].
  intros y. cbn [ukern]. rewrite Ho, brk_grown_refl, <- app_assoc. cbn [app]. lia.
Qed.

Lemma malloc_loop_ok s l live nunits fuel ffuel :
  heap_ok s l live -> 1 <= nunits -> 16 * nunits < 2 ^ 31 ->
  (2 * length l + 3 < fuel)%nat -> (length l + 1 < ffuel)%nat ->
  (exists k', malloc_loop fuel ffuel nunits (freep s) (hptr (umem s) (freep s)) s = Ok 0 (Ust (umem s) (freep s) k') /\
     k_brk k' = k_brk (ukern s) /\ forall c, c ∈ l -> c.2 < nunits) \/
  (exists s' bp l', malloc_loop fuel ffuel nunits (freep s) (hptr (umem s) (freep s)) s = Ok (bp + 16) s' /\
     allocated s s' l live nunits bp l').
Proof.
  intros Hok Hn Hmax Hf Hff. destruct (search_ok s l live nunits ffuel Hok Hn) as [(s' & bp & l' & Ha & _ & Hrun)|[Hsmall Hrun]].
  - right. exists s', bp, l'. split; [apply Hrun; lia | done].
  - replace fuel with (length l + S (fuel - length l - 1))%nat by lia. rewrite Hrun. unfold grow.
    destruct (morecore_ok s l live nunits ffuel Hok Hn Hmax Hff) as [(k' & E & Hk)|(s2 & l2 & E & Hok2 & Ho2 & Hl2 & Hbig & Hkeep2)].
    + left. exists k'. rewrite (bind_run _ _ _ _ _ E). done.
    + right. rewrite (bind_run _ _ _ _ _ E). pose proof (freep_pos _ _ _ Hok2).
      destruct (Z.eqb_spec (freep s2) 0); [lia|]. unfold rdptr, gets. erewrite bind_run by reflexivity.
      destruct (search_ok s2 l2 live nunits ffuel Hok2 Hn) as [(s' & bp & l' & Ha & Ek & Hrun')|[Hsmall' _]].
      * exists s', bp, l'. split; [apply Hrun'; lia|]. destruct Ha as [A1 A2 A3]. split; [done | | by eapply keeps_trans].
        intros y. rewrite A2, Ho2, Ek, brk_grown_refl. lia.
      * exfalso. destruct Hbig as (c & Hc & Hcn). specialize (Hsmall' c Hc). lia.
Qed.

(** The first call of malloc sets the ring up. *)
Definition fresh (s : ust) : Prop := freep s = 0 /\ 0 < base /\ base + 16 <= k_brk (ukern s) < 2 ^ 31.
Definition set_up (s : ust) : ust :=
  Ust (store32 (store64 (umem s) base base) (base + 8) 0) base (ukern s).

Lemma set_up_ok s : fresh s -> heap_ok (set_up s) [] [].
Proof.
  intros (Hf & Hb & Hk). split; cbn [set_up umem freep ukern app]; try done.
  - cbn [seg fst snd]. rewrite hsize_store32, hptr_store32, hptr_store64, u64_id by lia. done.
  - by left.
  - intros b Hb'. by apply elem_of_nil in Hb'.
  - intros b Hb'. by apply elem_of_nil in Hb'.
Qed.

Lemma malloc_fresh fuel nbytes s : fresh s -> malloc fuel nbytes s = malloc fuel nbytes (set_up s).
Proof.
  intros (Hf & Hb & _). unfold malloc, set_up, bind, gets, set_hptr, set_hsize, set_freep, modify, ret.
  rewrite Hf. cbn [freep umem ukern]. destruct (Z.eqb_spec base 0); [lia|]. reflexivity.
Qed.

Lemma malloc_run s l live fuel nbytes :
  heap_ok s l live ->
  malloc fuel nbytes s = malloc_loop fuel fuel (nunits_of nbytes) (freep s) (hptr (umem s) (freep s)) s.
Proof.
  intros Hok. pose proof (freep_pos _ _ _ Hok). unfold malloc, gets, rdptr. erewrite bind_run by reflexivity.
  destruct (Z.eqb_spec (freep s) 0); [lia|]. unfold bind, ret. done.
Qed.

Lemma nunits_bound n : 0 <= n < 2 ^ 31 - 31 ->
  1 <= nunits_of n /\ n <= 16 * (nunits_of n - 1) < n + 16 /\ 16 * nunits_of n < 2 ^ 31.
Proof. intros Hn. unfold nunits_of, HDR. rewrite u32_id; mlia. Qed.

(** The program writes into its blocks only. *)
Definition payload (live : list block) (y : Z) : Prop := exists b, b ∈ live /\ b.1 + 16 <= y < b.1 + 16 * b.2.

Lemma writes_ok s l live m' :
  heap_ok s l live -> (forall y, ~ payload live y -> load8 m' y = load8 (umem s) y) ->
  heap_ok (Ust m' (freep s) (ukern s)) l live.
Proof.
  intros [Hring Hincr Hfp Hlive Hsize Hocc Hb] Hm.
  assert (forall a, (forall b, b ∈ live -> a + 16 <= b.1 + 16 \/ b.1 + 16 * b.2 <= a) ->
    hptr m' a = hptr (umem s) a /\ hsize m' a = hsize (umem s) a) as Hout.
  { intros a Ha. split; apply load_le_ext; intros y Hy; apply Hm; intros (b & Hb' & Hyb); specialize (Ha b Hb'); lia. }
  split; cbn [umem freep ukern]; try done.
  - eapply seg_ext; [|exact Hring]. intros c Hc. apply Hout. intros b Hb'.
    destruct (Hsize b) as (? & ? & ?); [apply elem_of_app; by right|].
    apply elem_of_cons in Hc as [->|Hc]; [simpl; lia|].
    destruct (Hsize c) as (? & ? & ?); [apply elem_of_app; by left|].
    destruct (occ_disjoint2 _ _ c b Hocc Hc Hb'); lia.
  - intros c Hc. enough (forall b, b ∈ live -> c.1 + 16 <= b.1 + 16 \/ b.1 + 16 * b.2 <= c.1) as Hc'.
    { rewrite (proj2 (Hout c.1 Hc')). by apply Hlive. }
    intros b Hb'. destruct (decide (b = c)) as [->|Hne]; [lia|].
    apply list_elem_of_split in Hc as (x & y & ->).
    assert (b ∈ x ++ y) as Hbxy. { rewrite !elem_of_app, elem_of_cons in *. naive_solver. }
    apply list_elem_of_split in Hbxy as (x' & y' & E).
    destruct (Hsize b) as (? & _ & _); [apply elem_of_app; by right|].
    destruct (Hsize c) as (? & _ & _); [apply elem_of_app; right; apply elem_of_app; right; by left|].
    enough (b.1 + 16 * b.2 <= c.1 \/ c.1 + 16 * c.2 <= b.1) by lia.
    apply (occ_disjoint (l ++ x ++ c :: y) b c (l ++ x' ++ y') Hocc); [|done..].
    rewrite <- Permutation_middle, E. solve_Permutation.
Qed.

Lemma heap_kern s l live k' :
  heap_ok s l live -> k_brk k' = k_brk (ukern s) -> heap_ok (Ust (umem s) (freep s) k') l live.
Proof. intros [] Ek. split; cbn [umem freep ukern]; rewrite ?Ek; done. Qed.

(** The two ways malloc returns. *)
Definition malloc_fails (fuel : nat) (nbytes : Z) (s : ust) (l live : list block) : Prop :=
  exists s', malloc fuel nbytes s = Ok 0 s' /\ heap_ok s' l live /\ keeps (umem s) (umem s') live /\
    k_brk (ukern s') = k_brk (ukern s) /\ forall c, c ∈ l -> 16 * (c.2 - 1) < nbytes.
Definition malloc_succeeds (fuel : nat) (nbytes : Z) (s : ust) (l live : list block) : Prop :=
  exists s' bp n l', malloc fuel nbytes s = Ok (bp + 16) s' /\ nbytes <= 16 * (n - 1) /\
    allocated s s' l live n bp l' /\ forall c, c ∈ live -> c.1 + 16 * c.2 <= bp \/ bp + 16 * n <= c.1.

Lemma malloc_ok s l live nbytes fuel :
  heap_ok s l live -> 0 <= nbytes < 2 ^ 31 - 31 -> (2 * length l + 3 < fuel)%nat ->
  malloc_fails fuel nbytes s l live \/ malloc_succeeds fuel nbytes s l live.
Proof.
  intros Hok Hn Hfuel. destruct (nunits_bound nbytes Hn) as (N1 & N2 & N3).
  destruct (malloc_loop_ok s l live (nunits_of nbytes) fuel fuel Hok N1 N3) as [(k' & E & Hk & Hsm)|(s' & bp & l' & E & Ha)]; [lia..| |];
    rewrite <- (malloc_run s l live) in E by done.
  - left. eexists. split_and!; [exact E | by apply heap_kern | done | done |].
    intros c Hc. specialize (Hsm c Hc). lia.
  - right. exists s', bp, (nunits_of nbytes), l'. split_and!; [exact E | lia | done |].
    intros c Hc. apply (heap_disjoint s' l' ((bp, nunits_of nbytes) :: live) (bp, nunits_of nbytes) live c (al_ok _ _ _ _ _ _ _ Ha)); [reflexivity|].
    apply elem_of_app. by right.
Qed.

Lemma malloc_fresh_ok s nbytes fuel :
  fresh s -> 0 <= nbytes < 2 ^ 31 - 31 -> (3 < fuel)%nat ->
  malloc_fails fuel nbytes s [] [] \/ malloc_succeeds fuel nbytes s [] [].
Proof.
  intros Hf Hn Hfuel. pose proof (set_up_ok s Hf) as Hok.
  destruct (malloc_ok _ _ _ nbytes fuel Hok Hn) as [(s' & E & Hok' & _ & Hk & Hs)|(s' & bp & n & l' & E & Hb & [A1 A2 A3] & _)]; [simpl; lia | left | right];
    rewrite <- malloc_fresh in E by done.
  - exists s'. split_and!; try done. intros b y Hb. by apply elem_of_nil in Hb.
  - exists s', bp, n, l'. split_and!; try done; [split; try done; intros b y Hy | intros b Hy]; by apply elem_of_nil in Hy.
Qed.

(** ** Properties *)

(** C34: the allocator of umalloc.c, from its first call on, is a correct
    allocator: malloc returns null only if sbrk refuses and no free block is
    large enough, and then changes no block; otherwise it returns the payload
    of a new block of at least the bytes asked for, disjoint from every other
    block of the program, and every byte of the heap belongs to exactly one
    free or allocated block as before, plus the bytes sbrk added. free of an
    allocated block makes its bytes free, merged with its neighbours. Neither
    changes a byte of the blocks the program holds, and whatever the program
    writes into its blocks, the heap stays intact. *)
Theorem umalloc_correct s l live nbytes fuel :
  heap_ok s l live \/ fresh s /\ l = [] /\ live = [] -> 0 <= nbytes < 2 ^ 31 - 31 -> (2 * length l + 3 < fuel)%nat ->
  (malloc_fails fuel nbytes s l live \/ malloc_succeeds fuel nbytes s l live) /\
  (forall bp n live', live ≡ₚ (bp, n) :: live' ->
     exists s' l', free fuel (bp + 16) s = Ok tt s' /\ heap_ok s' l' live' /\
       (forall y, occ y (l' ++ live') = occ y (l ++ live)) /\ keeps (umem s) (umem s') live') /\
  (forall m', heap_ok s l live -> (forall y, ~ payload live y -> load8 m' y = load8 (umem s) y) ->
     heap_ok (Ust m' (freep s) (ukern s)) l live).
Proof.
  intros Hs Hn Hfuel. split_and!.
  - destruct Hs as [Hok|(Hf & -> & ->)]; [by apply malloc_ok | apply malloc_fresh_ok; try done; simpl in Hfuel; lia].
  - intros bp n live' Hp. destruct Hs as [Hok|(_ & _ & ->)]; [|by apply Permutation_nil_cons in Hp].
    destruct (free_ok s l live bp n live' fuel Hok Hp) as (m' & p & l' & E & Hok' & Ho & _ & _ & Hk); [lia|].
    eexists _, l'. split_and!; [exact E | done | done | done].
  - intros m' Hok Hm. by apply writes_ok.
Qed.
End umalloc.

(** A kernel that grants memory up to 128 MiB; its state is the end of the
    process's memory. *)
#[export] Instance ram_sbrk : Sbrk Z := {
  k_sbrk n brk := if brk + n <=? 2 ^ 27 then (brk, brk + n) else (u64 (-1), brk);
  k_brk brk := brk;
}.
#[export] Instance ram_sbrk_laws : SbrkLaws Z.
Proof.
  split. intros n k Hn. unfold k_sbrk, k_brk, ram_sbrk.
  destruct (Z.leb_spec (k + n) (2 ^ 27)); cbn [fst snd]; [right | left; done]. lia.
Qed.

(** A process that has not called malloc: base at 8192, the memory ends at
    16384. *)
Definition new_process : ust (K := Z) := Ust ∅ 0 16384.

Lemma umalloc_correct_witness :
  fresh 8192 new_process /\
  (malloc_fails 8192 10 100 new_process [] [] \/ malloc_succeeds 8192 10 100 new_process [] []).
Proof.
  assert (fresh 8192 new_process) as Hf by (split; [reflexivity | vm_compute; split; [reflexivity | split; [discriminate | reflexivity]]]).
  split; [exact Hf|].
  apply (umalloc_correct 8192 new_process [] [] 100 10).
  - right. split; [exact Hf | split; reflexivity].
  - vm_compute. split; [discriminate | reflexivity].
  - simpl. lia.
Defined.

(** Two blocks and their release: the second is cut from the end of the free
    block in front of the first, and the heap is one block again at the end. *)
Example malloc_demo :
  match (let* p := malloc 8192 10 100 in let* q := malloc 8192 10 24 in
         free 10 p ;; free 10 q ;; let* f := gets (freep (K := Z)) in
         let* n := rdptr f in let* sz := rdsize f in ret (p, q, f, n, sz)) new_process with
  | Ok r _ => r = (16384 + 16 * 4088 + 16, 16384 + 16 * 4085 + 16, 16384, 8192, 4096)
  | Stop _ _ => False
  end.
Proof. vm_compute. reflexivity. Qed.

(** Beyond 2 GiB the int of sbrk wraps: a request of 2^32 - 32 bytes shrinks
    the process by sixteen bytes and malloc returns a pointer into memory the
    process does not have. *)
Example malloc_wraps :
  match malloc 8192 10 (2 ^ 32 - 32) new_process with
  | Ok r s => r = 16384 + 16 /\ k_brk (ukern s) = 16384 - 16
  | Stop _ _ => False
  end.
Proof. vm_compute. split; reflexivity. Qed.
