(* ===== verification/Kmalloc.v ===== *)
(** * kernel/malloc.c: the kernel's static allocator

    The kernel has a second allocator, of which userinit gets the Shrimpy
    structure: free is the one of umalloc.c, allocation cuts pieces off a
    static array and never takes them back, and malloc walks a list of three
    headers made on the first call. The headers claim sizes of 512, 1028 and
    2048 units but only the sixteen bytes of each header were set aside. *)

From stdpp Require Import base gmap list strings.
From Stdlib Require Import ZArith Lia.
From S2P Require Import Prelude Mem Umalloc.

Definition ALLOC : Z := 10096.

(** memory_index and the pointer node; the rest of the state is the memory and
    freep of [ust]. *)
Record kmst : Type := Kmst { memory_index : Z; nodep : Z }.

#[export] Instance kmst_inhabited : Inhabited kmst := populate (Kmst 0 0).

Section kmalloc.
Context (memory : Z).   (* &memory[0] *)

Abbreviation KM := (M (ust (K := kmst))).

Definition set_node (p : Z) : KM unit :=
  modify (fun s => Ust (umem s) (freep s) (Kmst (memory_index (ukern s)) p)).

(** Accesses through a pointer: the null page of the kernel is not mapped. *)
Definition check (p : Z) : KM unit := if p =? 0 then fault "null pointer" else ret tt.
Definition ldp (p off : Z) : KM Z := check p ;; gets (fun s => load64 (umem s) (p + off)).
Definition stp (p off v : Z) : KM unit :=
  check p ;; modify (fun s => Ust (store64 (umem s) (p + off) v) (freep s) (ukern s)).
Definition ldsize (p : Z) : KM Z := check p ;; rdsize p.
Definition stsize (p v : Z) : KM unit := check p ;; set_hsize p v.

(** node->head, node->next, node->tail *)
Definition node_head : KM Z := let* s := get in ldp (nodep (ukern s)) 0.
Definition node_next : KM Z := let* s := get in ldp (nodep (ukern s)) 8.
Definition node_tail : KM Z := let* s := get in ldp (nodep (ukern s)) 16.

(** The message of the failure is left out. *)
Definition allocation (size : Z) : KM Z := fun s =>
  let k := ukern s in
  if ALLOC <? u64 (memory_index k + size) then Ok 0 s
  else Ok (memory + memory_index k)
          (Ust (umem s) (freep s) (Kmst (u32 (memory_index k + size)) (nodep k))).

Definition morecore (fuel : nat) (nu : Z) : KM Z :=
  let nu := if nu <? 4096 then 4096 else nu in
  let* p := allocation (u64 (nu * HDR)) in
  if p =? u64 (-1) then ret 0
  else
    stsize p (u32 nu) ;;
    free fuel (hadd p 1) ;;
    gets freep.

Definition init_node : KM unit :=
  let* n := allocation 24 in
  set_node n ;;
  let* h := allocation HDR in stp n 0 h ;; let* h := node_head in stsize h 512 ;;
  let* x := allocation HDR in stp n 8 x ;; let* x := node_next in stsize x 1028 ;;
  let* t := allocation HDR in stp n 16 t ;; let* t := node_tail in stsize t 2048 ;;
  let* h := node_head in let* x := node_next in stp h 0 x ;;
  let* x := node_next in let* t := node_tail in stp x 0 t ;;
  let* t := node_tail in stp t 0 0.

(** The body of the loop of malloc: a block, or None to go on. *)
Definition malloc_step (nunits : Z) : KM (option Z) :=
  let* h := node_head in let* hs := ldsize h in
  let* x := node_next in let* xs := ldsize x in
  (if (xs <? hs) && (nunits <=? hs) then stsize h (u32 (hs - nunits)) ;; set_freep h else ret tt) ;;
  let* hs := ldsize h in let* xs := ldsize x in
  if (hs <? xs) && (nunits <=? xs) then
    stsize x (u32 (xs - nunits)) ;; set_freep x ;; ret (Some (hadd x 1))
  else if (hs =? nunits) && (xs =? nunits) then
    stsize h (u32 (hs - nunits)) ;;
    let* xs := ldsize x in
    stsize x (u32 (xs - nunits)) ;; set_freep h ;; ret (Some (hadd h 1))
  else ret None.

Fixpoint malloc_search (fuel ffuel : nat) (nunits : Z) : KM Z :=
  match fuel with
  | O => halt NoFuel
  | S fuel =>
      let* h := node_head in
      let* n := ldp h 0 in
      if n =? 0 then
        let* t := node_tail in
        set_freep t ;;
        let* p := morecore ffuel nunits in
        let* t := node_tail in
        stp t 0 p ;;
        let* t := node_tail in
        ret (hadd t 1)
      else
        let* r := malloc_step nunits in
        match r with
        | Some p => ret p
        | None =>
            let* s := get in
            let* h := node_head in
            let* n := ldp h 0 in
            stp (nodep (ukern s)) 0 n ;;
            malloc_search fuel ffuel nunits
        end
  end.

Definition kmalloc_units (nbytes : Z) : Z := u64 (u64 (nbytes + HDR - 1) / HDR + 1).

Definition malloc (fuel : nat) (nbytes : Z) : KM Z :=
  let* s := get in
  (if nodep (ukern s) =? 0 then init_node else ret tt) ;;
  malloc_search fuel fuel (kmalloc_units nbytes).

(** ** Lemmas *)

(** The three headers; [hs] and [xs] are what the first two claim. *)
Record laid_out (s : ust (K := kmst)) (xs : Z) : Prop := {
  lo_node : nodep (ukern s) = memory;
  lo_head : load64 (umem s) memory = memory + 24;
  lo_next : load64 (umem s) (memory + 8) = memory + 40;
  lo_tail : load64 (umem s) (memory + 16) = memory + 56;
  lo_hptr : hptr (umem s) (memory + 24) = memory + 40;
  lo_hsize : hsize (umem s) (memory + 24) = 512;
  lo_xptr : hptr (umem s) (memory + 40) = memory + 56;
  lo_xsize : hsize (umem s) (memory + 40) = xs;
}.

Context (Hmem : 0 < memory /\ memory + ALLOC < 2 ^ 63).

Lemma load64_store32_out m a b v : b + 8 <= a \/ a + 4 <= b -> load64 (store32 m a v) b = load64 m b.
Proof. intros. apply load_le_store_le_out. lia. Qed.
Lemma load32_store64_out m a b v : b + 4 <= a \/ a + 8 <= b -> load32 (store64 m a v) b = load32 m b.
Proof. intros. apply load_le_store_le_out. lia. Qed.
Lemma load32_store32_out m a b v : b + 4 <= a \/ a + 4 <= b -> load32 (store32 m a v) b = load32 m b.
Proof. intros. apply load_le_store_le_out. lia. Qed.
Lemma load32_store32_eq m a v : load32 (store32 m a v) a = u32 v.
Proof. unfold load32, store32. by rewrite load_le_store_le_eq. Qed.

(** Loads after stores at known distances. *)
Ltac memsimp := repeat first
  [ rewrite load64_store64_eq | rewrite load32_store32_eq
  | rewrite load64_store64_out by lia | rewrite load64_store32_out by lia
  | rewrite load32_store64_out by lia | rewrite load32_store32_out by lia ].

Lemma check_ok p (s : ust (K := kmst)) : 0 < p -> check p s = Ok tt s.
Proof. intros. unfold check. destruct (Z.eqb_spec p 0); [lia | done]. Qed.
Lemma ldp_ok p off s : 0 < p -> ldp p off s = Ok (load64 (umem s) (p + off)) s.
Proof. intros. unfold ldp. by rewrite (bind_run _ _ _ _ _ (check_ok p s ltac:(done))). Qed.
Lemma stp_ok p off v s : 0 < p -> stp p off v s = Ok tt (Ust (store64 (umem s) (p + off) v) (freep s) (ukern s)).
Proof. intros. unfold stp. by rewrite (bind_run _ _ _ _ _ (check_ok p s ltac:(done))). Qed.
Lemma ldsize_ok p s : 0 < p -> ldsize p s = Ok (hsize (umem s) p) s.
Proof. intros. unfold ldsize. by rewrite (bind_run _ _ _ _ _ (check_ok p s ltac:(done))). Qed.
Lemma stsize_ok p v s : 0 < p -> stsize p v s = Ok tt (Ust (store32 (umem s) (p + 8) v) (freep s) (ukern s)).
Proof. intros. unfold stsize. by rewrite (bind_run _ _ _ _ _ (check_ok p s ltac:(done))). Qed.

Lemma node_ptr_ok off (s : ust (K := kmst)) : nodep (ukern s) = memory ->
  (let* s := get in ldp (nodep (ukern s)) off) s = Ok (load64 (umem s) (memory + off)) s.
Proof. intros E. rewrite (bind_run get _ s s s eq_refl), E. apply ldp_ok. lia. Qed.

Lemma allocation_ok n (s : ust (K := kmst)) : 0 <= n -> 0 <= memory_index (ukern s) -> memory_index (ukern s) + n <= ALLOC ->
  allocation n s = Ok (memory + memory_index (ukern s)) (Ust (umem s) (freep s) (Kmst (memory_index (ukern s) + n) (nodep (ukern s)))).
Proof.
  intros. unfold allocation, ALLOC in *. rewrite u64_id, u32_id by lia.
  destruct (Z.ltb_spec 10096 (memory_index (ukern s) + n)); [lia | done].
Qed.
Ltac zlit := repeat match goal with
  | |- context [ (?a + ?b)%Z ] =>
      let c := eval vm_compute in (a + b) in
      lazymatch c with Z0 => idtac | Zpos _ => idtac | Zneg _ => idtac end;
      progress change (a + b) with c
  end.
Ltac kstep :=
  first [ erewrite bind_run by (apply ldp_ok; lia) | erewrite bind_run by (apply stp_ok; lia)
        | erewrite bind_run by (apply ldsize_ok; lia) | erewrite bind_run by (apply stsize_ok; lia)
        | erewrite bind_run by (apply node_ptr_ok; done)
        | erewrite bind_run by (apply allocation_ok; cbn [ukern memory_index]; unfold ALLOC, HDR; lia)
        | erewrite bind_run by reflexivity ];
  cbn [umem freep ukern nodep memory_index]; unfold hptr, hsize, HDR;
  zlit; rewrite ?Z.add_0_r, <- ?(Z.add_assoc memory); zlit; memsimp;
  rewrite ?(u64_id (memory + _)), ?(u64_id memory) by (unfold ALLOC in *; lia).

(** The first call: the tail follows the next header at once and ends the list. *)
Lemma init_node_ok s : nodep (ukern s) = 0 -> memory_index (ukern s) = 0 ->
  exists m', init_node s = Ok tt (Ust m' (freep s) (Kmst 72 memory)) /\
    laid_out (Ust m' (freep s) (Kmst 72 memory)) 1028 /\ hptr m' (memory + 56) = 0 /\ hsize m' (memory + 56) = 2048.
Proof.
  intros Hn Hi. destruct s as [m fp [ix nd]]. cbn [ukern nodep memory_index umem freep] in *. subst ix nd.
  unfold init_node, node_head, node_next, node_tail. repeat kstep.
  eexists. split; [rewrite stp_ok by lia; cbn [umem freep ukern]; rewrite Z.add_0_r; reflexivity|]. split_and!; [split| |]; cbn [umem ukern nodep]; unfold hptr, hsize;
    rewrite <- ?(Z.add_assoc memory); zlit; memsimp; rewrite ?(u64_id (memory + _)) by (unfold ALLOC in *; lia); done.
Qed.

Lemma search_hit s xs u fuel ffuel :
  laid_out s xs -> 512 < xs < 2 ^ 32 -> 0 <= u <= xs ->
  exists s', malloc_search (S fuel) ffuel u s = Ok (memory + 56) s' /\ laid_out s' (xs - u).
Proof.
  intros [L1 L2 L3 L4 L5 L6 L7 L8] Hxs Hu. destruct s as [m fp [ix nd]]. cbn [ukern nodep memory_index umem freep] in *. subst nd.
  assert (load32 m (memory + 32) = 512) as K6 by (rewrite <- L6; unfold hsize; f_equal; lia).
  assert (load32 m (memory + 48) = xs) as K8 by (rewrite <- L8; unfold hsize; f_equal; lia).
  unfold hptr in *. cbn [malloc_search]. unfold node_head, node_next. kstep. rewrite L2. kstep. rewrite L5.
  destruct (Z.eqb_spec (memory + 40) 0); [lia|].
  unfold malloc_step, node_head, node_next. rewrite bind_assoc. kstep. rewrite L2. rewrite bind_assoc. kstep.
  rewrite K6, bind_assoc. kstep. rewrite L3, bind_assoc. kstep. rewrite K8, bind_assoc.
  destruct (Z.ltb_spec xs 512); [lia|]. cbn [andb]. kstep. rewrite bind_assoc. kstep. rewrite K6, bind_assoc. kstep. rewrite K8.
  destruct (Z.ltb_spec 512 xs); [|lia]. destruct (Z.leb_spec u xs); [|lia]. cbn [andb].
  rewrite bind_assoc. kstep. unfold set_freep, modify. rewrite bind_assoc. kstep. unfold ret at 1. kstep.
  rewrite hadd_id by (unfold ALLOC in *; lia). replace (memory + 40 + 16 * 1) with (memory + 56) by lia.
  eexists. split; [reflexivity|]. split; cbn [umem ukern nodep]; unfold hptr, hsize;
    rewrite <- ?(Z.add_assoc memory); zlit; memsimp; rewrite ?(u32_id (xs - u)) by lia; rewrite ?u32_id by lia; done.
Qed.

(** morecore compares with -1, but allocation fails with 0. *)
Lemma morecore_faults fuel u s : 0 <= u < 2 ^ 59 + 2 -> 0 <= memory_index (ukern s) <= ALLOC ->
  morecore fuel u s = Stop (Fault "null pointer") s.
Proof.
  intros Hu Hi. unfold morecore. set (nu := if u <? 4096 then 4096 else u).
  assert (4096 <= nu < 2 ^ 59 + 2) by (unfold nu; zcases; lia).
  assert (allocation (u64 (nu * HDR)) s = Ok 0 s) as E.
  { unfold allocation, HDR, ALLOC in *. rewrite (u64_id (nu * 16)) by lia. rewrite u64_id by lia.
    destruct (Z.ltb_spec 10096 (memory_index (ukern s) + nu * 16)); [done | lia]. }
  rewrite (bind_run _ _ _ _ _ E). done.
Qed.

Lemma step_none u s h x hs xs :
  0 < h -> 0 < x -> node_head s = Ok h s -> node_next s = Ok x s ->
  hsize (umem s) h = hs -> hsize (umem s) x = xs -> hs <= xs -> xs < u -> malloc_step u s = Ok None s.
Proof.
  intros H0 H1 Eh Ex Hh Hx Hle Hu. unfold malloc_step.
  rewrite (bind_run _ _ _ _ _ Eh), (bind_run _ _ _ _ _ (ldsize_ok h s H0)), Hh.
  rewrite (bind_run _ _ _ _ _ Ex), (bind_run _ _ _ _ _ (ldsize_ok x s H1)), Hx.
  destruct (Z.ltb_spec xs hs); [lia|]. cbn [andb]. rewrite (bind_run (ret tt) _ s tt s eq_refl).
  rewrite (bind_run _ _ _ _ _ (ldsize_ok h s H0)), Hh, (bind_run _ _ _ _ _ (ldsize_ok x s H1)), Hx.
  destruct (Z.leb_spec u xs); [lia|]. destruct (Z.eqb_spec hs u); [lia|]. rewrite andb_false_r. done.
Qed.

(** One turn of the loop that goes on to the next header. *)
Lemma search_next s u fuel ffuel h x n hs xs :
  nodep (ukern s) = memory -> load64 (umem s) memory = h -> load64 (umem s) (memory + 8) = x ->
  hptr (umem s) h = n -> hsize (umem s) h = hs -> hsize (umem s) x = xs ->
  0 < h -> 0 < x -> n <> 0 -> hs <= xs -> xs < u ->
  malloc_search (S fuel) ffuel u s = malloc_search fuel ffuel u (Ust (store64 (umem s) memory n) (freep s) (ukern s)).
Proof.
  intros Hn Eh Ex En Hh Hx H0 H1 Hn0 Hle Hu. cbn [malloc_search].
  assert (node_head s = Ok h s) as Nh. { unfold node_head. rewrite node_ptr_ok, Z.add_0_r, Eh; done. }
  assert (node_next s = Ok x s) as Nx. { unfold node_next. rewrite node_ptr_ok, Ex; done. }
  assert (ldp h 0 s = Ok n s) as Lh. { rewrite ldp_ok, Z.add_0_r; [|done]. unfold hptr in En. by rewrite En. }
  rewrite (bind_run _ _ _ _ _ Nh), (bind_run _ _ _ _ _ Lh).
  destruct (Z.eqb_spec n 0); [done|].
  rewrite (bind_run _ _ _ _ _ (step_none u s h x hs xs H0 H1 Nh Nx Hh Hx Hle Hu)).
  rewrite (bind_run get _ s s s eq_refl), (bind_run _ _ _ _ _ Nh), (bind_run _ _ _ _ _ Lh), Hn.
  rewrite (bind_run _ _ _ _ _ (stp_ok memory 0 n s ltac:(lia))), Z.add_0_r. done.
Qed.

Lemma search_miss s u fuel ffuel :
  laid_out s 1028 -> hptr (umem s) (memory + 56) = 0 -> 0 <= memory_index (ukern s) <= ALLOC ->
  1028 < u < 2 ^ 59 + 2 -> exists s', malloc_search (S (S (S fuel))) ffuel u s = Stop (Fault "null pointer") s'.
Proof.
  intros [L1 L2 L3 L4 L5 L6 L7 L8] Ht Hi Hu.
  erewrite search_next; try exact L1; try exact L2; try exact L3; try exact L5; try exact L6; try exact L8; try lia.
  erewrite search_next; cbn [umem freep ukern];
    [| exact L1 | rewrite load64_store64_eq, u64_id by (unfold ALLOC in *; lia); reflexivity
     | rewrite load64_store64_out by lia; exact L3
     | unfold hptr; rewrite load64_store64_out by lia; exact L7
     | unfold hsize; rewrite load32_store64_out by lia; exact L8
     | unfold hsize; rewrite load32_store64_out by lia; exact L8 | lia..].
  cbn [malloc_search]. unfold node_head, node_tail. rewrite (bind_run _ _ _ _ _ (node_ptr_ok 0 (Ust _ _ _) L1)).
  cbn [umem]. rewrite Z.add_0_r, load64_store64_eq, u64_id by (unfold ALLOC in *; lia).
  rewrite (bind_run _ _ _ _ _ (ldp_ok (memory + 56) 0 _ ltac:(lia))). cbn [umem]. rewrite Z.add_0_r.
  rewrite !load64_store64_out by lia. unfold hptr in Ht. rewrite Ht. cbn [Z.eqb].
  rewrite (bind_run _ _ _ _ _ (node_ptr_ok 16 (Ust _ _ _) L1)). cbn [umem].
  unfold set_freep at 1, modify. erewrite bind_run by reflexivity. cbn [umem freep ukern].
  erewrite bind_halt; [eauto|]. apply morecore_faults; [lia | done].
Qed.

(** ** Properties *)

(** C36: the static allocator of the kernel hands out the same memory twice.
    From the initial state, the first block of up to 8 KiB begins at the tail
    header of its list, inside the static array; the second request gets the
    very same address, whatever the kernel stored in the first block. A
    request of more than 1027 units stops the kernel at a null pointer,
    because allocation fails with 0 and morecore looks for -1. *)
Theorem kmalloc_hands_out_twice s n1 n2 fuel :
  nodep (ukern s) = 0 -> memory_index (ukern s) = 0 -> 0 <= n1 < 2 ^ 63 -> 0 <= n2 ->
  (kmalloc_units n1 <= 515 -> kmalloc_units n2 <= 1028 - kmalloc_units n1 ->
   exists s1, malloc (S fuel) n1 s = Ok (memory + 56) s1 /\
     forall m, (forall y, y < memory + 56 -> load8 m y = load8 (umem s1) y) ->
       exists s2, malloc (S fuel) n2 (Ust m (freep s1) (ukern s1)) = Ok (memory + 56) s2) /\
  (1028 < kmalloc_units n1 -> exists s1, malloc (S (S (S fuel))) n1 s = Stop (Fault "null pointer") s1).
Proof.
  intros Hn Hi Hn1 Hn2. destruct (init_node_ok s Hn Hi) as (m & E & L & Ht & _).
  assert (0 <= kmalloc_units n1 < 2 ^ 59 + 2) as Hu1. { unfold kmalloc_units, HDR. rewrite (u64_id (n1 + 16 - 1)) by lia. rewrite u64_id; mlia. }
  assert (0 <= kmalloc_units n2) as Hu2 by apply u64_range.
  assert (forall f, malloc f n1 s = malloc_search f f (kmalloc_units n1) (Ust m (freep s) (Kmst 72 memory))) as Em.
  { intros f. unfold malloc. rewrite (bind_run get _ s s s eq_refl), Hn. cbn [Z.eqb]. by rewrite (bind_run _ _ _ _ _ E). }
  rewrite !Em. split.
  - intros Hs1 Hs2. destruct (search_hit _ 1028 (kmalloc_units n1) fuel (S fuel) L) as (s1 & E1 & L1); [lia..|].
    exists s1. split; [exact E1|]. intros m' Hm. destruct L1 as [A1 A2 A3 A4 A5 A6 A7 A8].
    unfold malloc. rewrite (bind_run get _ (Ust m' (freep s1) (ukern s1)) _ _ eq_refl). cbn [ukern]. rewrite A1. destruct (Z.eqb_spec memory 0); [lia|].
    rewrite (bind_run (ret tt) _ (Ust m' (freep s1) (ukern s1)) tt _ eq_refl).
    destruct (search_hit (Ust m' (freep s1) (ukern s1)) (1028 - kmalloc_units n1) (kmalloc_units n2) fuel (S fuel)) as (s2 & E2 & _);
      [| lia | lia | by exists s2].
    assert (forall a k, a + Z.of_nat k <= memory + 56 -> load_le m' a k = load_le (umem s1) a k) as Hl.
    { intros a k Ha. apply load_le_ext. intros y Hy. apply Hm. lia. }
    split; cbn [umem ukern]; unfold hptr, hsize, load64, load32 in *; rewrite ?Hl by (simpl; lia); done.
  - intros Hbig. apply search_miss; [exact L | exact Ht | cbn [ukern memory_index]; unfold ALLOC; lia | lia].
Qed.
End kmalloc.

Definition kboot : ust (K := kmst) := Ust ∅ 0 (Kmst 0 0).

Lemma kmalloc_hands_out_twice_witness :
  (exists s1, malloc 4096 4 4096 kboot = Ok (4096 + 56) s1 /\
     forall m, (forall y, y < 4096 + 56 -> load8 m y = load8 (umem s1) y) ->
       exists s2, malloc 4096 4 100 (Ust m (freep s1) (ukern s1)) = Ok (4096 + 56) s2).
Proof.
  apply (kmalloc_hands_out_twice 4096 ltac:(vm_compute; split; reflexivity) kboot 4096 100 3); vm_compute; try discriminate; try reflexivity.
  split; [discriminate | reflexivity].
Defined.
