(* ===== verification/Table.v ===== *)
(** * table.c: the hash table of the kernel

    A struct hash_table_entry in memory has 512 pointers, 512 keys, 512 values
    and a pointer to the static [size]. getIndex scans HASH_TABLE_MAX_SIZE =
    4096 words from the first key on: it runs through the values and past the
    end of the struct. insert goes through [entries[size]], the look-ups through
    [entries[0]], and table_alloc never makes an entry. The messages on the
    console are left out.

    The theorems say what is left: every operation follows the null pointer of
    the table the kernel makes; if the pointers are set to one struct, a value
    inserted is found again; if they are set to two structs, it is not; and a
    key that is only a value of the table is taken for a key. *)

From stdpp Require Import base gmap list strings.
From Stdlib Require Import ZArith Lia.
From S2P Require Import Prelude Mem.

Definition HASH_TABLE_MAX_SIZE : Z := 4096.
Definition ENTRIES : Z := 512.

(** The offsets of key[i], val[i] and size in the struct. *)
Definition key_off (i : Z) : Z := 8 * ENTRIES + 8 * i.
Definition val_off (i : Z) : Z := 16 * ENTRIES + 8 * i.
Definition size_off : Z := 24 * ENTRIES.

(** The memory, the static variable size, and ht.table. *)
Record tst : Type := Tst { tmem : mem; tsize : Z; ht_table : Z }.
Definition curr_map : Z := 0.

Definition tload (a : Z) : M tst Z := gets (fun s => load64 (tmem s) a).
Definition tstore (a v : Z) : M tst unit := modify (fun s => Tst (store64 (tmem s) a v) (tsize s) (ht_table s)).
(** table->entries[i], followed. *)
Definition entry (table i : Z) : M tst Z :=
  let* e := tload (table + 8 * i) in
  if e =? 0 then fault "table: null" else ret e.

(** The first of the [k] words from key[i] on that is the key. *)
Fixpoint index_loop (m : mem) (e key i : Z) (k : nat) : Z :=
  match k with
  | O => -1
  | S k => if load64 m (e + key_off i) =? key then i else index_loop m e key (i + 1) k
  end.
Definition getIndex (table key : Z) : M tst Z :=
  let* e := entry table curr_map in
  gets (fun s => u64 (index_loop (tmem s) e key 0 (Z.to_nat HASH_TABLE_MAX_SIZE))).

Section table.
(** The addresses of hash_entry_table[1] and of the static size. *)
Context (hash_entry_table1 addr_size : Z).

(** table_alloc: an array is never null, so only ht.table is set. *)
Definition table_alloc : M tst unit :=
  modify (fun s => if ht_table s =? 0 then Tst (tmem s) (tsize s) hash_entry_table1 else s).

Definition insert (table key value : Z) : M tst unit :=
  let* index := getIndex table key in
  if i32 index =? -1 then
    let* size := gets tsize in
    if size <? HASH_TABLE_MAX_SIZE then
      let* e := entry table size in
      tstore (e + key_off size) key ;;
      let* e := entry table size in
      tstore (e + val_off size) value ;;
      modify (fun s => Tst (tmem s) (i32 (size + 1)) (ht_table s)) ;;
      tstore (table + size_off) addr_size
    else ret tt
  else ret tt.

Definition getVal (table key : Z) : M tst Z :=
  let* index := getIndex table key in
  if i32 index =? -1 then ret (u64 (-1))
  else let* e := entry table curr_map in tload (e + val_off (i32 index)).
Definition getKey (table key : Z) : M tst Z :=
  let* index := getIndex table key in
  if i32 index =? -1 then ret (u64 (-1))
  else let* e := entry table curr_map in tload (e + key_off (i32 index)).

(** ** Lemmas *)

Lemma entry_ok table i s : load64 (tmem s) (table + 8 * i) <> 0 -> entry table i s = Ok (load64 (tmem s) (table + 8 * i)) s.
Proof. intros H. unfold entry, bind, tload, gets. by rewrite (proj2 (Z.eqb_neq _ _) H). Qed.
Lemma entry_null table i s : load64 (tmem s) (table + 8 * i) = 0 -> entry table i s = Stop (Fault "table: null") s.
Proof. intros H. unfold entry, bind, tload, gets. by rewrite H. Qed.

(** What the scan returns. *)
Lemma index_loop_hit m e key k : forall i j, i <= j < i + Z.of_nat k -> load64 m (e + key_off j) = key ->
  (forall l, i <= l < j -> load64 m (e + key_off l) <> key) -> index_loop m e key i k = j.
Proof.
  induction k as [|k IH]; intros i j Hj Hk Hb; [lia|]. cbn [index_loop].
  destruct (Z.eqb_spec (load64 m (e + key_off i)) key) as [E|E].
  - destruct (decide (i = j)); [done|]. by destruct (Hb i); [lia|].
  - destruct (decide (i = j)) as [->|]; [done|]. apply IH; [lia | done | intros; apply Hb; lia].
Qed.
Lemma index_loop_miss m e key k : forall i, (forall l, i <= l < i + Z.of_nat k -> load64 m (e + key_off l) <> key) ->
  index_loop m e key i k = -1.
Proof.
  induction k as [|k IH]; intros i Hb; [done|]. cbn [index_loop].
  destruct (Z.eqb_spec (load64 m (e + key_off i)) key) as [E|E]; [by destruct (Hb i); [lia|]|]. apply IH. intros. apply Hb. lia.
Qed.

Definition e0 (m : mem) (table : Z) : Z := load64 m (table + 8 * curr_map).
(** The word at key[j] of the first entry is the key, and no word before it. *)
Definition found_at (m : mem) (table key j : Z) : Prop :=
  e0 m table <> 0 /\ 0 <= j < HASH_TABLE_MAX_SIZE /\ load64 m (e0 m table + key_off j) = key /\
  forall l, 0 <= l < j -> load64 m (e0 m table + key_off l) <> key.
Definition missing (m : mem) (table key : Z) : Prop :=
  e0 m table <> 0 /\ forall l, 0 <= l < HASH_TABLE_MAX_SIZE -> load64 m (e0 m table + key_off l) <> key.

Lemma index_loop_absent m e key k : forall i, 0 <= i -> index_loop m e key i k = -1 ->
  forall l, i <= l < i + Z.of_nat k -> load64 m (e + key_off l) <> key.
Proof.
  induction k as [|k IH]; intros i H0 E l Hl; [lia|]. cbn [index_loop] in E.
  destruct (Z.eqb_spec (load64 m (e + key_off i)) key); [lia|].
  destruct (decide (i = l)) as [->|]; [done|]. apply (IH (i + 1)); [lia | done | lia].
Qed.
Lemma scan_missing m table key : e0 m table <> 0 -> index_loop m (e0 m table) key 0 (Z.to_nat HASH_TABLE_MAX_SIZE) = -1 -> missing m table key.
Proof.
  intros H0 E. split; [done|]. intros l Hl. apply (index_loop_absent _ _ _ _ 0 (Z.le_refl 0) E). rewrite Z2Nat.id; [done | by unfold HASH_TABLE_MAX_SIZE].
Qed.

Lemma getIndex_hit s table key j : found_at (tmem s) table key j -> getIndex table key s = Ok j s.
Proof.
  intros (He & Hj & Hk & Hb). unfold getIndex. rewrite (bind_run _ _ _ _ _ (entry_ok _ _ _ He)). fold (e0 (tmem s) table). unfold gets.
  rewrite (index_loop_hit _ _ _ _ 0 j); [|unfold HASH_TABLE_MAX_SIZE in *; lia | done | done].
  rewrite u64_id; [done | unfold HASH_TABLE_MAX_SIZE in *; lia].
Qed.
Lemma getIndex_miss s table key : missing (tmem s) table key -> getIndex table key s = Ok (u64 (-1)) s.
Proof.
  intros (He & Hb). unfold getIndex. rewrite (bind_run _ _ _ _ _ (entry_ok _ _ _ He)). fold (e0 (tmem s) table). unfold gets.
  by rewrite (index_loop_miss _ _ _ _ 0) by (rewrite Z2Nat.id; [done | by unfold HASH_TABLE_MAX_SIZE]).
Qed.
Lemma getVal_hit s table key j : found_at (tmem s) table key j -> getVal table key s = Ok (load64 (tmem s) (e0 (tmem s) table + val_off j)) s.
Proof.
  intros H. pose proof H as (He & Hj & _). unfold getVal. rewrite (bind_run _ _ _ _ _ (getIndex_hit _ _ _ _ H)).
  unfold HASH_TABLE_MAX_SIZE in Hj. rewrite i32_id by lia. destruct (Z.eqb_spec j (-1)); [lia|].
  by rewrite (bind_run _ _ _ _ _ (entry_ok _ _ _ He)).
Qed.
Lemma getVal_miss s table key : missing (tmem s) table key -> getVal table key s = Ok (u64 (-1)) s.
Proof. intros H. unfold getVal. by rewrite (bind_run _ _ _ _ _ (getIndex_miss _ _ _ H)). Qed.

(** Two structs that do not overlap. *)
Definition apart (table e : Z) : Prop := table + size_off + 8 <= e \/ e + size_off + 8 <= table.

(** The three words an insertion stores. *)
Definition inserted (m : mem) (table e i key value : Z) : mem :=
  store64 (store64 (store64 m (e + key_off i) key) (e + val_off i) value) (table + size_off) addr_size.
Lemma insert_miss s table key value e : missing (tmem s) table key -> 0 <= tsize s < ENTRIES ->
  load64 (tmem s) (table + 8 * tsize s) = e -> e <> 0 -> apart table e ->
  insert table key value s = Ok tt (Tst (inserted (tmem s) table e (tsize s) key value) (tsize s + 1) (ht_table s)).
Proof.
  intros Hm Hs He Hn Hd. unfold ENTRIES in Hs. unfold insert. rewrite (bind_run _ _ _ _ _ (getIndex_miss _ _ _ Hm)).
  change (i32 (u64 (-1)) =? -1) with true. cbn iota. rewrite (bind_run (gets tsize) _ _ _ _ eq_refl).
  unfold HASH_TABLE_MAX_SIZE. destruct (Z.ltb_spec (tsize s) 4096); [|lia]. rewrite <- He in Hn.
  rewrite (bind_run _ _ _ _ _ (entry_ok _ _ _ Hn)), He. rewrite (bind_run (tstore _ _) _ _ _ _ eq_refl).
  assert (load64 (store64 (tmem s) (e + key_off (tsize s)) key) (table + 8 * tsize s) = e) as E2.
  { rewrite load64_store64_out; [done|]. unfold apart, key_off, size_off, ENTRIES in *. lia. }
  rewrite (bind_run _ _ _ _ _ (entry_ok table (tsize s) (Tst (store64 (tmem s) (e + key_off (tsize s)) key) (tsize s) (ht_table s)) ltac:(cbn [tmem]; rewrite E2; congruence))).
  cbn [tmem]. rewrite E2, i32_id by lia. done.
Qed.
(** A word that none of the three stores touches. *)
Lemma inserted_out m table e i key value a : 0 <= i < ENTRIES ->
  (a + 8 <= e + key_off i \/ e + key_off i + 8 <= a) -> (a + 8 <= e + val_off i \/ e + val_off i + 8 <= a) ->
  (a + 8 <= table + size_off \/ table + size_off + 8 <= a) -> load64 (inserted m table e i key value) a = load64 m a.
Proof. intros Hi H1 H2 H3. unfold inserted. rewrite !load64_store64_out; [done | lia..]. Qed.

Lemma inserted_key m table e i key value : 0 <= i < ENTRIES -> apart table e -> 0 <= key < 2 ^ 64 ->
  load64 (inserted m table e i key value) (e + key_off i) = key.
Proof.
  unfold apart, key_off, val_off, size_off, ENTRIES. intros Hi Hd Hk. unfold inserted, key_off, val_off, size_off, ENTRIES.
  rewrite !(load64_store64_out _ _ (e + (8 * 512 + 8 * i))) by lia. rewrite load64_store64_eq. by apply u64_id.
Qed.
Lemma inserted_val m table e i key value : 0 <= i < ENTRIES -> apart table e -> 0 <= value < 2 ^ 64 ->
  load64 (inserted m table e i key value) (e + val_off i) = value.
Proof.
  unfold apart, key_off, val_off, size_off, ENTRIES. intros Hi Hd Hk. unfold inserted, key_off, val_off, size_off, ENTRIES.
  rewrite (load64_store64_out _ _ (e + (16 * 512 + 8 * i))) by lia. rewrite load64_store64_eq. by apply u64_id.
Qed.
Ltac table_lia := unfold apart, key_off, val_off, size_off, curr_map, HASH_TABLE_MAX_SIZE, ENTRIES in *; lia.

(** ** The properties *)

(** Nothing makes the entries of the table: with entries[0] null, as in the
    zeroed memory the kernel starts with, every operation follows the null
    pointer, also after table_alloc. *)
Theorem table_never_usable s table key value : load64 (tmem s) table = 0 ->
  tmem (match table_alloc s with Ok _ s' => s' | Stop _ s' => s' end) = tmem s /\
  getIndex table key s = Stop (Fault "table: null") s /\ insert table key value s = Stop (Fault "table: null") s /\
  getVal table key s = Stop (Fault "table: null") s /\ getKey table key s = Stop (Fault "table: null") s.
Proof.
  intros H. assert (entry table curr_map s = Stop (Fault "table: null") s) as E by (apply entry_null; unfold curr_map; rewrite <- H; f_equal; lia).
  assert (getIndex table key s = Stop (Fault "table: null") s) as Eg by (unfold getIndex; by apply bind_halt).
  split; [cbn; by destruct (_ =? _)|]. split; [done|]. split_and!; by apply bind_halt.
Qed.

(** The table as a map, when its pointers are set. If the slot of the next
    insertion leads to the struct all look-ups use, a key that is not in the
    table is found with its value after it was inserted, and the keys before
    keep theirs; if it leads to another struct, the key is lost: the insertion
    succeeds and the look-up says that there is no such key. A key that is the
    value of another key is taken for present: it is not inserted. *)
Theorem table_insert_lookup s table key value e : let i := tsize s in
  0 <= i < ENTRIES -> 0 <= key < 2 ^ 64 -> 0 <= value < 2 ^ 64 -> load64 (tmem s) (table + 8 * i) = e -> e <> 0 -> apart table e ->
  (missing (tmem s) table key -> exists s', insert table key value s = Ok tt s' /\ tsize s' = i + 1 /\
     (e0 (tmem s) table = e -> getVal table key s' = Ok value s' /\
        forall key' j v, key' <> key -> found_at (tmem s) table key' j -> j < ENTRIES -> j <> i ->
          getVal table key' s = Ok v s -> getVal table key' s' = Ok v s') /\
     (e0 (tmem s) table + key_off HASH_TABLE_MAX_SIZE <= e -> e0 (tmem s) table + key_off HASH_TABLE_MAX_SIZE <= table ->
        getVal table key s' = Ok (u64 (-1)) s')) /\
  (forall j, 0 <= j < ENTRIES -> load64 (tmem s) (e0 (tmem s) table + val_off j) = key ->
     (forall l, 0 <= l < ENTRIES + j -> load64 (tmem s) (e0 (tmem s) table + key_off l) <> key) -> e0 (tmem s) table <> 0 ->
     insert table key value s = Ok tt s).
Proof.
  intros i Hi Hk Hv He Hn Hd. split.
  - intros Hm. set (m' := inserted (tmem s) table e i key value). exists (Tst m' (i + 1) (ht_table s)).
    split; [by apply insert_miss|]. split; [done|].
    assert (e0 m' table = e0 (tmem s) table) as E0.
    { unfold e0, m'. apply inserted_out; table_lia. }
    split.
    + intros Ee. split.
      * erewrite (getVal_hit _ _ _ i).
        { cbn [tmem]. rewrite E0, Ee. unfold m'. by rewrite inserted_val. }
        destruct Hm as [Hm0 Hm]. unfold found_at. cbn [tmem]. rewrite E0, Ee. split_and!; [done | table_lia | table_lia | by apply inserted_key|].
        intros l Hl. unfold m'. rewrite inserted_out; [rewrite <- Ee; apply Hm; table_lia | done | table_lia..].
      * intros key' j v Hne Hf Hj Hji. rewrite (getVal_hit _ _ _ _ Hf). intros [= <-]. pose proof Hf as (Hf0 & Hjr & Hfk & Hfb).
        erewrite (getVal_hit _ _ _ j).
        { cbn [tmem]. rewrite E0, Ee. unfold m'. rewrite inserted_out; [done | done | table_lia..]. }
        unfold found_at. cbn [tmem]. rewrite E0, Ee in *. split_and!; [done | lia | table_lia | |].
        { unfold m'. rewrite inserted_out; [done | done | table_lia..]. }
        intros l Hl. destruct (decide (l = i)) as [->|]; [unfold m'; rewrite inserted_key; [congruence | done..]|].
        unfold m'. rewrite inserted_out; [by apply Hfb | done | table_lia..].
    + intros H1 H2. apply getVal_miss. destruct Hm as [Hm0 Hm]. split; cbn [tmem]; rewrite E0; [done|].
      intros l Hl. unfold m'. rewrite inserted_out; [by apply Hm | done | table_lia..].
  - intros j Hj Hjk Hb H0. unfold insert.
    assert (found_at (tmem s) table key (ENTRIES + j)) as Hf.
    { split_and!; [done | table_lia.. | | done]. rewrite <- Hjk. f_equal. table_lia. }
    rewrite (bind_run _ _ _ _ _ (getIndex_hit s table key _ Hf)).
    rewrite i32_id by table_lia. destruct (Z.eqb_spec (ENTRIES + j) (-1)); [table_lia | done].
Qed.
End table.

(** A table whose first two pointers lead to one struct, and one where they
    lead to two. *)
Definition demo_table (second : Z) : tst := Tst (store64 (store64 (store64 ∅ 0x10000 0x20000) 0x10008 second) 0x21000 7) 1 0.
Definition demo_lookup (second : Z) : option Z :=
  match (insert 4 0x10000 5 50 ;; getVal 0x10000 5) (demo_table second) with Ok v _ => Some v | Stop _ _ => None end.
Lemma table_insert_lookup_witness : demo_lookup 0x20000 = Some 50 /\ demo_lookup 0x40000 = Some (u64 (-1)) /\
  exists s', insert 4 0x10000 5 50 (demo_table 0x20000) = Ok tt s'.
Proof.
  split; [vm_compute; reflexivity|]. split; [vm_compute; reflexivity|].
  destruct (table_insert_lookup 4 (demo_table 0x20000) 0x10000 5 50 0x20000) as [H _]; try (vm_compute; intuition discriminate).
  destruct H as (s' & E & _); [|by exists s'].
  apply scan_missing; vm_compute; [discriminate | reflexivity].
Defined.
