(* ===== verification/Spinlock.v ===== *)
(** * spinlock.c: mutual exclusion between CPUs

    The other files take a critical section of a spin lock as one atomic
    step. This file is why: acquire and release, one memory access at a time
    and interleaved with those of every other CPU, let one CPU at a time into
    the section of a lock and keep its interrupts off there. The memory is
    sequentially consistent, as the fences of acquire and release make it for
    the lock. *)

From stdpp Require Import base functions relations list strings.
From Stdlib Require Import ZArith Lia.
From S2P Require Import Prelude.

Record spinlock : Type := Spinlock {
  locked : Z;          (* is the lock held? *)
  lk_cpu : option nat; (* the cpu holding the lock, by index; None is the null pointer *)
}.

(** The part of struct cpu that push_off and pop_off use, and the interrupt
    enable bit of the hart's sstatus. *)
Record cpu : Type := Cpu {
  noff : Z;       (* depth of push_off nesting *)
  intena : bool;  (* were interrupts enabled before push_off? *)
  intr : bool;    (* intr_get() *)
}.

Definition initlock : spinlock := Spinlock 0 None.

(** The lock as the CPU [me] sees it: the two loads of holding. *)
Definition holding_locked (lk : spinlock) : bool := nz (locked lk).
Definition holding_cpu (lk : spinlock) (me : nat) : bool := bool_decide (lk_cpu lk = Some me).
Definition holding (lk : spinlock) (me : nat) : bool := holding_locked lk && holding_cpu lk me.

Definition intr_off : M cpu unit := modify (fun c => Cpu (noff c) (intena c) false).
Definition intr_on : M cpu unit := modify (fun c => Cpu (noff c) (intena c) true).

Definition push_off : M cpu unit :=
  let* old := gets intr in
  intr_off ;;
  let* n := gets noff in
  when (n =? 0) (modify (fun c => Cpu (noff c) old (intr c))) ;;
  modify (fun c => Cpu (i32 (noff c + 1)) (intena c) (intr c)).

Definition pop_off : M cpu unit :=
  let* on := gets intr in
  if on : bool then panic "pop_off - interruptible"
  else
    let* n := gets noff in
    if n <? 1 then panic "pop_off"
    else
      modify (fun c => Cpu (i32 (noff c - 1)) (intena c) (intr c)) ;;
      let* c := get in
      when ((noff c =? 0) && intena c) intr_on.

(** ** The system: all CPUs and all locks *)

(** Where a CPU is in acquire or release of a lock. *)
Inductive pc : Type :=
  | Idle
  | AcqHolding (l : nat)   (* acquire, after push_off *)
  | AcqCpu (l : nat)       (* acquire, in holding, lk->locked is set *)
  | AcqSpin (l : nat)      (* acquire, in the loop *)
  | AcqGot (l : nat)       (* acquire, after the swap that took the lock *)
  | RelHolding (l : nat)   (* release, in holding, lk->locked is set *)
  | RelCpu (l : nat)       (* release, after holding *)
  | RelFree (l : nat)      (* release, after lk->cpu = 0 *)
  | RelPop (l : nat)       (* release, after the lock is free *)
  | Panicked (msg : string) (l : nat).   (* in acquire or release of lock l *)

Record sys : Type := Sys {
  locks : nat -> spinlock;
  cpus : nat -> cpu;
  pcs : nat -> pc;
  held : nat -> list nat;   (* the locks whose acquire returned and whose release has not cleared lk->cpu *)
  was : nat -> bool;        (* what the CPU last set its interrupts to, without locks *)
}.

Definition goto (i : nat) (p : pc) (s : sys) : sys := Sys (locks s) (cpus s) (<[i := p]> (pcs s)) (held s) (was s).
Definition set_lock (l : nat) (lk : spinlock) (s : sys) : sys :=
  Sys (<[l := lk]> (locks s)) (cpus s) (pcs s) (held s) (was s).
Definition set_held (i : nat) (h : list nat) (s : sys) : sys :=
  Sys (locks s) (cpus s) (pcs s) (<[i := h]> (held s)) (was s).

Definition set_cpu (i : nat) (c : cpu) (s : sys) : sys :=
  Sys (locks s) (<[i := c]> (cpus s)) (pcs s) (held s) (was s).

(** Run push_off or pop_off for lock l on CPU i, then go on at p. *)
Definition on_cpu (i l : nat) (m : M cpu unit) (p : pc) (s : sys) : sys :=
  match m (cpus s i) with
  | Ok _ c => goto i p (set_cpu i c s)
  | Stop (Panic msg) c => goto i (Panicked msg l) (set_cpu i c s)
  | Stop _ _ => s
  end.

(** acquire(&l) and release(&l) begin on CPU i. *)
Definition acquire (l i : nat) (s : sys) : sys := on_cpu i l push_off (AcqHolding l) s.
Definition release (l i : nat) (s : sys) : sys :=
  if negb (holding_locked (locks s l)) then goto i (Panicked "release" l) s else goto i (RelHolding l) s.

(** The next access of CPU i. *)
Definition next (i : nat) (s : sys) : sys :=
  match pcs s i with
  | AcqHolding l => if holding_locked (locks s l) then goto i (AcqCpu l) s else goto i (AcqSpin l) s
  | AcqCpu l => if holding_cpu (locks s l) i then goto i (Panicked "acquire" l) s else goto i (AcqSpin l) s
  | AcqSpin l =>
      (* __sync_lock_test_and_set *)
      let old := locked (locks s l) in
      let s := set_lock l (Spinlock 1 (lk_cpu (locks s l))) s in
      if nz old then s else goto i (AcqGot l) s
  | AcqGot l => goto i Idle (set_held i (l :: held s i) (set_lock l (Spinlock (locked (locks s l)) (Some i)) s))
  | RelHolding l => if negb (holding_cpu (locks s l) i) then goto i (Panicked "release" l) s else goto i (RelCpu l) s
  | RelCpu l => goto i (RelFree l) (set_held i (filter (fun x => x <> l) (held s i)) (set_lock l (Spinlock (locked (locks s l)) None) s))
  | RelFree l => goto i (RelPop l) (set_lock l (Spinlock 0 (lk_cpu (locks s l))) s)
  | RelPop l => on_cpu i l pop_off Idle s
  | Idle | Panicked _ _ => s
  end.

Section system.
Context (nlocks : nat).   (* the kernel's locks *)

Inductive sys_step : sys -> sys -> Prop :=
  | step_acquire s i l : pcs s i = Idle -> (l < nlocks)%nat -> sys_step s (acquire l i s)
  | step_release s i l : pcs s i = Idle -> (l < nlocks)%nat -> sys_step s (release l i s)
  | step_next s i : sys_step s (next i s)
  | step_intr s i b :   (* intr_on or intr_off of a CPU without locks *)
      pcs s i = Idle -> noff (cpus s i) = 0 ->
      sys_step s (Sys (locks s) (<[i := Cpu (noff (cpus s i)) (intena (cpus s i)) b]> (cpus s)) (pcs s) (held s) (<[i := b]> (was s))).

Definition boot : sys := Sys (fun _ => initlock) (fun _ => Cpu 0 false false) (fun _ => Idle) (fun _ => []) (fun _ => false).

(** ** The invariant *)

(** CPU i is between taking lock l and freeing it. *)
Definition own (s : sys) (i l : nat) : Prop :=
  l ∈ held s i \/ pcs s i = AcqGot l \/ pcs s i = RelFree l.

Inductive lock_ok (s : sys) (l : nat) : Prop :=
  | lock_free : locks s l = Spinlock 0 None -> (forall i, ~ own s i l) -> lock_ok s l
  | lock_taken i : own s i l -> (forall j, own s j l -> j = i) ->
      locks s l = Spinlock 1 (if bool_decide (l ∈ held s i) then Some i else None) -> lock_ok s l.

(** The nesting the place of a CPU in acquire or release accounts for. *)
Definition busy (p : pc) : nat :=
  match p with Idle | Panicked _ _ | RelHolding _ | RelCpu _ => 0 | _ => 1 end.
Definition pc_ok (p : pc) (h : list nat) : Prop :=
  match p with
  | Idle => True
  | AcqHolding l | AcqCpu l | RelHolding l => (l < nlocks)%nat
  | AcqSpin l | AcqGot l | RelFree l | RelPop l => (l < nlocks)%nat /\ l ∉ h
  | RelCpu l => l ∈ h
  | Panicked msg l => msg = "release"%string /\ l ∉ h \/ msg = "acquire"%string /\ l ∈ h
  end.
Definition panicked (p : pc) : bool := match p with Panicked _ _ => true | _ => false end.

Record cpu_ok (c : cpu) (p : pc) (h : list nat) (w : bool) : Prop := {
  co_nodup : NoDup h;
  co_locks : forall l, l ∈ h -> (l < nlocks)%nat;
  co_pc : pc_ok p h;
  co_noff : panicked p = false -> noff c = Z.of_nat (length h + busy p);
  co_off : h <> [] \/ busy p = 1%nat -> intr c = false /\ intena c = w;
  co_on : h = [] -> p = Idle -> intr c = w;
}.

Definition inv (s : sys) : Prop :=
  (forall l, lock_ok s l) /\ forall i, cpu_ok (cpus s i) (pcs s i) (held s i) (was s i).

Context (Hlocks : Z.of_nat nlocks < 2 ^ 31 - 1).

Lemma held_bound c p h w : cpu_ok c p h w -> (length h <= nlocks)%nat.
Proof.
  intros [Hn Hl _ _ _ _]. transitivity (length (seq 0 nlocks)); [|by rewrite length_seq].
  apply submseteq_length, NoDup_submseteq; [done|]. intros l ?%Hl. apply elem_of_seq. lia.
Qed.

Lemma lock_ok_ext s s' l :
  locks s' l = locks s l -> (forall j, own s' j l <-> own s j l) -> (forall j, l ∈ held s' j <-> l ∈ held s j) ->
  lock_ok s l -> lock_ok s' l.
Proof.
  intros El Ho Hh [E Hn|i Hi Hu E].
  - apply lock_free; [congruence|]. intros j. rewrite Ho. apply Hn.
  - apply (lock_taken _ _ i); [by apply Ho | intros j Hj%Ho; by apply Hu |].
    rewrite El, E. f_equal. by rewrite (bool_decide_ext _ _ (Hh i)).
Qed.

(** lk->cpu alone tells a CPU whether it holds the lock, and a lock that is held
    is locked. *)
Lemma cpu_held s i l : lock_ok s l -> holding_cpu (locks s l) i = bool_decide (l ∈ held s i).
Proof.
  intros [E Hn|k Hk Hu E]; rewrite E; unfold holding_cpu; cbn [lk_cpu].
  - rewrite (bool_decide_false (l ∈ _)); [done|]. intros Hi. apply (Hn i). by left.
  - case_bool_decide as H1.
    + destruct (decide (i = k)) as [->|Hne]; [by rewrite !bool_decide_true|].
      rewrite (bool_decide_false (Some k = Some i)) by congruence.
      rewrite bool_decide_false; [done|]. intros Hi. apply Hne, Hu. by left.
    + rewrite bool_decide_false by done. rewrite bool_decide_false; [done|]. intros Hi.
      assert (i = k) as -> by (apply Hu; by left). done.
Qed.
Lemma held_locked s i l : lock_ok s l -> l ∈ held s i -> holding_locked (locks s l) = true.
Proof. intros [E Hn|k Hk Hu E] Hi; rewrite E; [|done]. exfalso. apply (Hn i). by left. Qed.
Lemma holding_held s i l : lock_ok s l -> holding (locks s l) i = bool_decide (l ∈ held s i).
Proof.
  intros Hl. unfold holding. rewrite (cpu_held _ _ _ Hl). case_bool_decide as Hi; [|apply andb_false_r].
  by rewrite (held_locked _ i _ Hl Hi).
Qed.

(** push_off and pop_off keep the bookkeeping of a CPU. *)
Lemma push_off_ok c h w p l :
  cpu_ok c Idle h w -> p = AcqHolding l -> (l < nlocks)%nat ->
  exists c', push_off c = Ok tt c' /\ cpu_ok c' p h w.
Proof.
  intros Hc -> Hl. pose proof (held_bound _ _ _ _ Hc) as Hb. destruct Hc as [C1 C2 _ C4 C5 C6].
  specialize (C4 ltac:(done)). cbn [busy] in C4. unfold push_off, gets, intr_off, modify, bind, when. cbn [noff intena intr].
  destruct (Z.eqb_spec (noff c) 0) as [E|E]; eexists; (split; [reflexivity|]); split; cbn [noff intena intr busy pc_ok]; try done.
  - intros _. rewrite i32_id by lia. lia.
  - intros _. destruct h; [|simpl in *; lia]. by rewrite C6.
  - intros _. rewrite i32_id by lia. lia.
  - intros _. destruct h as [|x h]; [simpl in *; lia|]. by destruct C5 as [_ ->]; [left|].
Qed.

Lemma pop_off_ok c h w l :
  cpu_ok c (RelPop l) h w -> exists c', pop_off c = Ok tt c' /\ cpu_ok c' Idle h w.
Proof.
  intros Hc. pose proof (held_bound _ _ _ _ Hc) as Hb. destruct Hc as [C1 C2 _ C4 C5 C6].
  specialize (C4 ltac:(done)). cbn [busy] in C4. destruct C5 as [Hoff Hwas]; [by right|].
  unfold pop_off, gets, bind, modify, get, when. rewrite Hoff.
  destruct (Z.ltb_spec (noff c) 1); [lia|]. cbn [noff intena intr].
  rewrite i32_id by lia. unfold intr_on, modify, ret.
  destruct (Z.eqb_spec (noff c - 1) 0) as [E|E]; cbn [andb].
  - assert (h = []) as -> by (destruct h; [done | simpl in *; lia]).
    destruct (intena c) eqn:Ei; eexists; (split; [reflexivity|]); split; cbn [noff intena intr busy pc_ok]; try done;
      try (intros [?|?]; done); try congruence; intros _; simpl in *; lia.
  - assert (h <> []) by (intros ->; simpl in *; lia).
    eexists; (split; [reflexivity|]); split; cbn [noff intena intr busy pc_ok]; try done. intros _. lia.
Qed.

Lemma inv_upd s s' i l :
  inv s ->
  (forall j, j <> i -> cpus s' j = cpus s j /\ pcs s' j = pcs s j /\ held s' j = held s j /\ was s' j = was s j) ->
  (forall l', l' <> l -> locks s' l' = locks s l' /\ (own s' i l' <-> own s i l') /\ (l' ∈ held s' i <-> l' ∈ held s i)) ->
  cpu_ok (cpus s' i) (pcs s' i) (held s' i) (was s' i) -> lock_ok s' l -> inv s'.
Proof.
  intros [HL HC] Hj Hl Hi Hlk. split.
  - intros l'. destruct (decide (l' = l)) as [->|Hne]; [done|]. destruct (Hl l' Hne) as (E & Ho & Hh).
    apply (lock_ok_ext s); [done | | | apply HL]; intros j; (destruct (decide (j = i)) as [->|Hji]; [done|]);
      destruct (Hj j Hji) as (_ & E1 & E2 & _); unfold own; by rewrite ?E1, E2.
  - intros j. destruct (decide (j = i)) as [->|Hji]; [done|]. destruct (Hj j Hji) as (-> & -> & -> & ->). apply HC.
Qed.

(** A step that changes neither a lock nor what is held. *)
Lemma inv_local s s' i :
  inv s ->
  (forall j, j <> i -> cpus s' j = cpus s j /\ pcs s' j = pcs s j /\ held s' j = held s j /\ was s' j = was s j) ->
  locks s' = locks s -> held s' i = held s i -> (forall l, own s' i l <-> own s i l) ->
  cpu_ok (cpus s' i) (pcs s' i) (held s' i) (was s' i) -> inv s'.
Proof.
  intros Hs Hj El Eh Ho Hi. apply (inv_upd s s' i 0%nat); [done | done | | done |].
  - intros l' _. rewrite El, Eh. done.
  - apply (lock_ok_ext s); [by rewrite El | | | apply Hs]; intros j; (destruct (decide (j = i)) as [->|Hji]; [rewrite ?Eh; done|]);
      destruct (Hj j Hji) as (_ & E1 & E2 & _); unfold own; by rewrite ?E1, E2.
Qed.

Ltac fsimp := cbn [locks cpus pcs held was goto set_lock set_held set_cpu]; rewrite ?fn_lookup_insert.
Ltac others := intros ? ?; fsimp; rewrite ?fn_lookup_insert_ne by congruence; done.

Lemma acquire_inv s i l : inv s -> pcs s i = Idle -> (l < nlocks)%nat -> inv (acquire l i s).
Proof.
  intros Hs Hp Hl. pose proof (proj2 Hs i) as Hc. rewrite Hp in Hc.
  destruct (push_off_ok _ _ _ (AcqHolding l) l Hc eq_refl Hl) as (c' & E & Hc').
  unfold acquire, on_cpu. rewrite E. apply (inv_local s _ i); try done; [others | | fsimp; exact Hc'].
  intros l'. unfold own. fsimp. rewrite Hp. naive_solver congruence.
Qed.

(** A CPU moves on inside acquire or release, and touches nothing. *)
Lemma cpu_ok_pc c p p' h w :
  cpu_ok c p h w -> panicked p = false -> p' <> Idle -> panicked p' || (busy p' =? busy p)%nat = true ->
  (busy p' <= busy p)%nat -> pc_ok p' h -> cpu_ok c p' h w.
Proof.
  intros [C1 C2 C3 C4 C5 C6] Hp Hi Hb Hle Hok. split; try done.
  - intros Hp'. rewrite Hp' in Hb. cbn [orb] in Hb. apply Nat.eqb_eq in Hb. rewrite Hb. by apply C4.
  - intros [?|Hb']; apply C5; [by left|]. right. destruct p; cbn [busy] in *; lia.
Qed.
Lemma goto_inv s i p' :
  inv s -> panicked (pcs s i) = false -> (forall l, ~ (pcs s i = AcqGot l \/ pcs s i = RelFree l)) ->
  (forall l, ~ (p' = AcqGot l \/ p' = RelFree l)) -> p' <> Idle -> panicked p' || (busy p' =? busy (pcs s i))%nat = true ->
  (busy p' <= busy (pcs s i))%nat -> pc_ok p' (held s i) -> inv (goto i p' s).
Proof.
  intros Hs Hp Hn Hn' Hi Hb Hle Hok. apply (inv_local s _ i); try done; [others | |].
  - intros l'. unfold own. fsimp. specialize (Hn l'). specialize (Hn' l'). naive_solver congruence.
  - fsimp. by eapply cpu_ok_pc; [apply Hs | ..].
Qed.

Lemma filter_out (h : list nat) l : l ∉ h -> filter (fun x => x <> l) h = h.
Proof.
  induction h as [|x h IH]; [done|]. rewrite not_elem_of_cons. intros [Hx Hh].
  rewrite filter_cons_True by congruence. by rewrite IH.
Qed.
Lemma length_without (h : list nat) l : NoDup h -> l ∈ h -> length h = S (length (filter (fun x => x <> l) h)).
Proof.
  induction h as [|x h IH]; intros Hn Hl; [by apply elem_of_nil in Hl|]. apply NoDup_cons in Hn as [Hx Hn].
  destruct (decide (x = l)) as [->|Hne].
  - rewrite filter_cons_False by (intros Hc; by apply Hc). by rewrite filter_out.
  - rewrite filter_cons_True by done. simpl. apply elem_of_cons in Hl as [->|Hl]; [done|]. by rewrite <- IH.
Qed.

Ltac moves Hp := rewrite ?Hp; try done; try (intros ? [?|?]; congruence); cbn [busy pc_ok]; try lia.

Lemma release_inv s i l : inv s -> pcs s i = Idle -> (l < nlocks)%nat -> inv (release l i s).
Proof.
  intros Hs Hp Hl. unfold release. destruct (holding_locked (locks s l)) eqn:E; cbn [negb]; apply goto_inv; moves Hp.
  left. split; [done|]. intros Hi. by rewrite (held_locked _ i _ (proj1 Hs l) Hi) in E.
Qed.

Lemma relcpu_inv s i l : inv s -> pcs s i = RelCpu l -> inv (next i s).
Proof.
  intros Hs Hp. pose proof (proj1 Hs l) as Hlk. unfold next. rewrite Hp.
  pose proof (proj2 Hs i) as [C1 C2 Hin C4 C5 C6]. rewrite Hp in *. cbn [pc_ok] in Hin. apply (inv_upd s _ i l); [done | others | | |].
  + intros l' Hne. unfold own. fsimp. rewrite !fn_lookup_insert_ne by congruence. rewrite Hp, list_elem_of_filter.
    naive_solver congruence.
  + fsimp. specialize (C4 ltac:(done)). cbn [busy] in C4.
    assert (length (held s i) = S (length (filter (fun x => x <> l) (held s i)))) as Elen.
    { by apply length_without. }
    split; cbn [busy pc_ok].
    * by apply NoDup_filter.
    * intros l' [_ Hl']%list_elem_of_filter. by apply C2.
    * split; [by apply C2|]. rewrite list_elem_of_filter. naive_solver.
    * intros _. rewrite C4, Elen. lia.
    * intros _. apply C5. left. intros E. rewrite E in Hin. by apply elem_of_nil in Hin.
    * done.
  + destruct Hlk as [E Hn|k Hk Hu E]; [exfalso; apply (Hn i); by left|].
    assert (i = k) as <- by (apply Hu; by left).
    apply (lock_taken _ _ i); [right; right; by fsimp | |].
    * intros j Hj. destruct (decide (j = i)) as [|Hji]; [done|]. apply Hu. unfold own in *.
      cbn [locks cpus pcs held was goto set_lock set_held set_cpu] in Hj. by rewrite !fn_lookup_insert_ne in Hj by congruence.
    * fsimp. rewrite E. cbn [locked]. f_equal. rewrite bool_decide_false; [done|]. rewrite list_elem_of_filter. naive_solver.
Qed.

Ltac self Hp := unfold own; fsimp; rewrite ?Hp; naive_solver congruence.

Lemma spin_inv s i l : inv s -> pcs s i = AcqSpin l -> inv (next i s).
Proof.
  intros Hs Hp. pose proof (proj1 Hs l) as Hlk. pose proof (proj2 Hs i) as Hc. rewrite Hp in Hc.
  unfold next. rewrite Hp. destruct Hlk as [E Hn|k Hk Hu E]; rewrite E; cbn [locked lk_cpu nz Z.eqb negb].
  - apply (inv_upd s _ i l); [done | others | | |].
    + intros l' Hne. fsimp. rewrite !fn_lookup_insert_ne by congruence. self Hp.
    + fsimp. eapply cpu_ok_pc; [exact Hc | done.. | apply Hc].
    + apply (lock_taken _ _ i); [right; left; by fsimp | |].
      * intros j Hj. destruct (decide (j = i)) as [|Hji]; [done|]. exfalso. apply (Hn j). unfold own in *.
        cbn [locks cpus pcs held was goto set_lock] in Hj. by rewrite !fn_lookup_insert_ne in Hj by congruence.
      * fsimp. destruct Hc as [_ _ [_ Hl] _ _ _]. by rewrite bool_decide_false.
  - apply (inv_upd s _ i l); [done | done | | |].
    + intros l' Hne. fsimp. rewrite !fn_lookup_insert_ne by congruence. self Hp.
    + fsimp. rewrite Hp. done.
    + apply (lock_taken _ _ k); [done | done |]. fsimp. done.
Qed.

Lemma got_inv s i l : inv s -> pcs s i = AcqGot l -> inv (next i s).
Proof.
  intros Hs Hp. pose proof (proj1 Hs l) as Hlk. pose proof (proj2 Hs i) as [C1 C2 C3 C4 C5 C6]. rewrite Hp in *.
  destruct C3 as [Hl Hnl]. specialize (C4 ltac:(done)). unfold next. rewrite Hp.
  destruct Hlk as [E Hn|k Hk Hu E]; [exfalso; apply (Hn i); right; by left|].
  assert (i = k) as <- by (apply Hu; right; by left). rewrite E. cbn [locked].
  apply (inv_upd s _ i l); [done | others | | |].
  - intros l' Hne. unfold own. fsimp. rewrite !fn_lookup_insert_ne by congruence. rewrite Hp, elem_of_cons. naive_solver congruence.
  - fsimp. split; cbn [busy pc_ok length].
    + by constructor.
    + intros l' [->|?]%elem_of_cons; auto.
    + done.
    + intros _. rewrite C4. cbn [busy]. lia.
    + intros _. apply C5. by right.
    + done.
  - apply (lock_taken _ _ i).
    + left. fsimp. by left.
    + intros j Hj. destruct (decide (j = i)) as [|Hji]; [done|]. apply Hu. unfold own in *.
      cbn [locks cpus pcs held was goto set_lock set_held] in Hj. by rewrite !fn_lookup_insert_ne in Hj by congruence.
    + fsimp. rewrite bool_decide_true; [done | by left].
Qed.

Lemma relfree_inv s i l : inv s -> pcs s i = RelFree l -> inv (next i s).
Proof.
  intros Hs Hp. pose proof (proj1 Hs l) as Hlk. pose proof (proj2 Hs i) as Hc. rewrite Hp in Hc.
  pose proof Hc as [_ _ [Hl Hnl] _ _ _]. unfold next. rewrite Hp.
  destruct Hlk as [E Hn|k Hk Hu E]; [exfalso; apply (Hn i); right; by right|].
  assert (i = k) as <- by (apply Hu; right; by right). rewrite E. cbn [lk_cpu]. rewrite bool_decide_false by done.
  apply (inv_upd s _ i l); [done | others | | |].
  - intros l' Hne. fsimp. rewrite !fn_lookup_insert_ne by congruence. self Hp.
  - fsimp. eapply cpu_ok_pc; [exact Hc | done.. | apply Hc].
  - apply lock_free; [by fsimp|]. intros j Hj. assert (j = i) as ->.
    { destruct (decide (j = i)) as [|Hji]; [done|]. apply Hu. unfold own in *.
      cbn [locks cpus pcs held was goto set_lock] in Hj. by rewrite !fn_lookup_insert_ne in Hj by congruence. }
    unfold own in Hj. cbn [locks cpus pcs held was goto set_lock] in Hj. rewrite !fn_lookup_insert in Hj. naive_solver congruence.
Qed.

Lemma next_inv s i : inv s -> inv (next i s).
Proof.
  intros Hs. pose proof (proj2 Hs i) as Hc. destruct (pcs s i) as [|l|l|l|l|l|l|l|l|msg l] eqn:Hp.
  - unfold next. by rewrite Hp.
  - pose proof (co_pc _ _ _ _ Hc) as Hl. unfold next. rewrite Hp. destruct (holding_locked (locks s l)) eqn:E; apply goto_inv; moves Hp.
    split; [done|]. intros Hi. by rewrite (held_locked _ i _ (proj1 Hs l) Hi) in E.
  - pose proof (co_pc _ _ _ _ Hc) as Hl. unfold next. rewrite Hp, (cpu_held _ _ _ (proj1 Hs l)).
    case_bool_decide as Hin; apply goto_inv; moves Hp; by right.
  - by apply (spin_inv s i l).
  - by apply (got_inv s i l).
  - unfold next. rewrite Hp, (cpu_held _ _ _ (proj1 Hs l)). case_bool_decide as Hin; cbn [negb]; apply goto_inv; moves Hp. by left.
  - by apply (relcpu_inv s i l).
  - by apply (relfree_inv s i l).
  - destruct (pop_off_ok _ _ _ l Hc) as (c' & E & Hc'). unfold next, on_cpu. rewrite Hp, E.
    apply (inv_local s _ i); try done; [others | intros l'; self Hp | fsimp; exact Hc'].
  - unfold next. by rewrite Hp.
Qed.

Lemma step_inv s s' : sys_step s s' -> inv s -> inv s'.
Proof.
  intros [s0 i l Hp Hl|s0 i l Hp Hl|s0 i|s0 i b Hp Hn] Hs.
  - by apply acquire_inv.
  - by apply release_inv.
  - by apply next_inv.
  - pose proof (proj2 Hs i) as [C1 C2 C3 C4 C5 C6]. rewrite Hp in *. specialize (C4 ltac:(done)). cbn [busy] in *.
    assert (held s0 i = []) as Eh by (destruct (held s0 i); [done | simpl in *; lia]).
    apply (inv_local s0 _ i); try done; [others |]. fsimp. rewrite Hp, Eh in *. split; try done. by intros [?|?].
Qed.

Lemma boot_inv : inv boot.
Proof.
  split.
  - intros l. apply lock_free; [done|]. intros i [Hi|[Hi|Hi]]; [by apply elem_of_nil in Hi | done..].
  - intros i. split; try done; try (by intros [?|?]); try apply NoDup_nil_2. intros l Hl. by apply elem_of_nil in Hl.
Qed.

Lemma reach_inv s : rtc (sys_step) boot s -> inv s.
Proof.
  intros Hr. revert Hr. generalize boot_inv. generalize boot. intros s0 H0 Hr. induction Hr; [done|].
  apply IHHr. by eapply step_inv.
Qed.

(** ** Properties *)

(** C35: the spin locks of spinlock.c exclude each other under every
    interleaving of the accesses of all CPUs: no two CPUs hold a lock at the
    same time; holding tells each CPU exactly whether it holds the lock; a CPU
    that holds a lock has its interrupts off, noff counts its locks, and once
    it holds none its interrupts are as it had set them; acquire and release
    panic only when a CPU acquires a lock it holds or releases one it does not
    hold. *)
Theorem spinlocks_exclude s :
  rtc (sys_step) boot s ->
  (forall i j l, l ∈ held s i -> l ∈ held s j -> i = j) /\
  (forall i l, holding (locks s l) i = bool_decide (l ∈ held s i)) /\
  (forall i, held s i <> [] -> intr (cpus s i) = false) /\
  (forall i, pcs s i = Idle -> noff (cpus s i) = Z.of_nat (length (held s i)) /\
     (held s i = [] -> intr (cpus s i) = was s i)) /\
  (forall i msg l, pcs s i = Panicked msg l ->
     msg = "release"%string /\ l ∉ held s i \/ msg = "acquire"%string /\ l ∈ held s i) /\
  (forall i l, pcs s i = Idle ->
     (l ∈ held s i -> pcs (next i (next i (release l i s))) i = RelFree l) /\
     ((l < nlocks)%nat -> l ∉ held s i ->
      exists n, (n <= 2)%nat /\ pcs (Nat.iter n (next i) (acquire l i s)) i = AcqSpin l)).
Proof.
  intros [HL HC]%reach_inv. split_and!.
  - intros i j l Hi Hj. destruct (HL l) as [_ Hn|k _ Hu _]; [exfalso; apply (Hn i); by left|].
    rewrite (Hu i), (Hu j); [done | by left..].
  - intros i l. apply holding_held, HL.
  - intros i Hi. apply (co_off _ _ _ _ (HC i)). by left.
  - intros i Hp. destruct (HC i) as [_ _ _ C4 _ C6]. rewrite Hp in *. split; [|by intros; apply C6].
    rewrite C4 by done. cbn [busy]. lia.
  - intros i msg l Hp. pose proof (co_pc _ _ _ _ (HC i)) as H0. by rewrite Hp in H0.
  - intros i l Hp. split.
    + intros Hl. unfold release. rewrite (held_locked _ i _ (HL l) Hl). cbn [negb].
      assert (next i (goto i (RelHolding l) s) = goto i (RelCpu l) (goto i (RelHolding l) s)) as ->.
      { unfold next. fsimp. by rewrite (cpu_held _ _ _ (HL l)), bool_decide_true. }
      unfold next. do 2 fsimp. done.
    + intros Hl Hn. pose proof (HC i) as Hc. rewrite Hp in Hc.
      destruct (push_off_ok _ _ _ (AcqHolding l) l Hc eq_refl Hl) as (c' & E & _).
      unfold acquire, on_cpu. rewrite E. set (s1 := goto i (AcqHolding l) _).
      assert (next i s1 = if holding_locked (locks s l) then goto i (AcqCpu l) s1 else goto i (AcqSpin l) s1) as E1.
      { unfold next, s1. by fsimp. }
      destruct (holding_locked (locks s l)); [exists 2%nat | exists 1%nat]; (split; [lia|]); cbn [Nat.iter nat_rect]; rewrite E1; [|by fsimp].
      unfold next. fsimp. unfold s1. fsimp. rewrite (cpu_held _ _ _ (HL l)), bool_decide_false by done. by fsimp.
Qed.
End system.

(** Two CPUs compete for lock 0; CPU 1 spins until CPU 0 has released it. *)
Definition contest : sys :=
  let s := acquire 0 1 (acquire 0 0 boot) in
  let s := next 0 (next 0 s) in                     (* CPU 0 swaps *)
  let s := next 1 (next 1 (next 1 s)) in            (* CPU 1 looks at the lock and spins *)
  next 1 (next 0 s).

Lemma contest_reachable : rtc (sys_step 1) boot contest.
Proof.
  unfold contest. repeat (eapply rtc_r; [|apply step_next]).
  eapply rtc_r; [|apply step_acquire; [reflexivity | lia]]. eapply rtc_r; [|apply step_acquire; [reflexivity | lia]]. apply rtc_refl.
Qed.

Lemma spinlocks_exclude_witness :
  held contest 0 = [0%nat] /\ pcs contest 1 = AcqSpin 0 /\
  (forall i j l, l ∈ held contest i -> l ∈ held contest j -> i = j).
Proof.
  split; [reflexivity | split; [reflexivity|]].
  apply (spinlocks_exclude 1 ltac:(vm_compute; reflexivity) contest contest_reachable).
Defined.
