(* ===== verification/Virtio.v ===== *)
(** * virtio_disk.c: the disk driver

    bio.c sees the disk as whole-block transfers. The driver makes them out of
    chains of three descriptors, a ring of chains for the device, a ring of
    finished chains for the interrupt handler, and sleeping processes. A
    pointer handed to the device is one of the objects it may name ([daddr]).
    The device is the environment: the steps [dev_fetch] and [dev_serve] are
    what section 5.2 of the virtio specification says of a block device that
    finds a well-formed chain, in any order and at any time. *)

From stdpp Require Import base functions relations gmap list strings.
From Stdlib Require Import ZArith Lia.
From S2P Require Import Prelude Env Ring Bio.

Definition NUM : Z := 8.
Definition VRING_DESC_F_NEXT : Z := 1.
Definition VRING_DESC_F_WRITE : Z := 2.
Definition VIRTIO_BLK_T_IN : Z := 0.
Definition VIRTIO_BLK_T_OUT : Z := 1.

(** disk.ops[i], b->data of buffer b, disk.info[i].status *)
Inductive daddr : Type := ANull | AOp (i : nat) | AData (b : nat) | AStatus (i : nat).

Record virtq_desc : Type := Vdesc { d_addr : daddr; d_len : Z; d_flags : Z; d_next : Z }.
Record virtio_blk_req : Type := Vreq { rq_type : Z; rq_sector : Z }.   (* reserved is always 0 *)

(** struct disk without the used ring, which the device writes. *)
Record disk_drv : Type := Drv {
  v_desc : nat -> virtq_desc;
  v_avail : list Z;             (* avail->ring *)
  v_avail_idx : Z;              (* avail->idx, a uint16 *)
  v_free : nat -> Z;
  v_used_idx : Z;               (* a uint16 *)
  v_info_b : nat -> option nat; (* info[i].b *)
  v_info_status : nat -> Z;     (* info[i].status *)
  v_ops : nat -> virtio_blk_req;
}.
(** The device: the used ring, what it has taken from the avail ring, the
    requests it works on, and the blocks of the disk. *)
Record device : Type := Dev {
  e_used : list Z;              (* used->ring[].id *)
  e_used_idx : Z;               (* used->idx *)
  e_avail : Z;
  e_work : list Z;
  e_media : Z -> block;
}.
(** The fields of struct buf the driver uses, by the index of the buffer. *)
Record vbuf : Type := Vbuf { vb_disk : Z; vb_blockno : Z; vb_data : block }.

(** virtio_disk_init talks to the registers of the device and the page
    allocator, which are an instance of this class. *)
Class Mmio (U : Type) : Type := {
  mmio_read : Z -> U -> Z * U;          (* *R(r) *)
  mmio_write : Z -> Z -> U -> U;        (* *R(r) = v *)
  virtio_kalloc : U -> Z * U;           (* kalloc(), zero when there is no page *)
}.

Definition VIRTIO_MMIO_MAGIC_VALUE : Z := 0x000.
Definition VIRTIO_MMIO_VERSION : Z := 0x004.
Definition VIRTIO_MMIO_DEVICE_ID : Z := 0x008.
Definition VIRTIO_MMIO_VENDOR_ID : Z := 0x00c.
Definition VIRTIO_MMIO_DEVICE_FEATURES : Z := 0x010.
Definition VIRTIO_MMIO_DRIVER_FEATURES : Z := 0x020.
Definition VIRTIO_MMIO_QUEUE_SEL : Z := 0x030.
Definition VIRTIO_MMIO_QUEUE_NUM_MAX : Z := 0x034.
Definition VIRTIO_MMIO_QUEUE_NUM : Z := 0x038.
Definition VIRTIO_MMIO_QUEUE_READY : Z := 0x044.
Definition VIRTIO_MMIO_QUEUE_NOTIFY : Z := 0x050.
Definition VIRTIO_MMIO_INTERRUPT_STATUS : Z := 0x060.
Definition VIRTIO_MMIO_INTERRUPT_ACK : Z := 0x064.
Definition VIRTIO_MMIO_STATUS : Z := 0x070.
Definition VIRTIO_MMIO_QUEUE_DESC_LOW : Z := 0x080.
Definition VIRTIO_MMIO_QUEUE_DESC_HIGH : Z := 0x084.
Definition VIRTIO_MMIO_DRIVER_DESC_LOW : Z := 0x090.
Definition VIRTIO_MMIO_DRIVER_DESC_HIGH : Z := 0x094.
Definition VIRTIO_MMIO_DEVICE_DESC_LOW : Z := 0x0a0.
Definition VIRTIO_MMIO_DEVICE_DESC_HIGH : Z := 0x0a4.
Definition VIRTIO_CONFIG_S_ACKNOWLEDGE : Z := 1.
Definition VIRTIO_CONFIG_S_DRIVER : Z := 2.
Definition VIRTIO_CONFIG_S_DRIVER_OK : Z := 4.
Definition VIRTIO_CONFIG_S_FEATURES_OK : Z := 8.
Definition VIRTIO_BLK_F_RO : Z := 5.
Definition VIRTIO_BLK_F_SCSI : Z := 7.
Definition VIRTIO_BLK_F_CONFIG_WCE : Z := 11.
Definition VIRTIO_BLK_F_MQ : Z := 12.
Definition VIRTIO_F_ANY_LAYOUT : Z := 27.
Definition VIRTIO_RING_F_INDIRECT_DESC : Z := 28.
Definition VIRTIO_RING_F_EVENT_IDX : Z := 29.

Section virtio.
Context {U : Type} `{Env U}.
Context (free_chan : Z) (buf_chan : nat -> Z).   (* &disk.free[0], b *)

Record vst : Type := Vst { drv : disk_drv; dev : device; vbufs : nat -> vbuf; vk : U }.

Definition upd_drv (f : disk_drv -> disk_drv) : M vst unit :=
  modify (fun s => Vst (f (drv s)) (dev s) (vbufs s) (vk s)).
Definition set_desc (i : nat) (d : virtq_desc) : M vst unit := upd_drv (fun v =>
  Drv (<[i := d]> (v_desc v)) (v_avail v) (v_avail_idx v) (v_free v) (v_used_idx v) (v_info_b v) (v_info_status v) (v_ops v)).
Definition set_vfree (i : nat) (x : Z) : M vst unit := upd_drv (fun v =>
  Drv (v_desc v) (v_avail v) (v_avail_idx v) (<[i := x]> (v_free v)) (v_used_idx v) (v_info_b v) (v_info_status v) (v_ops v)).
Definition set_avail_ring (k : nat) (x : Z) : M vst unit := upd_drv (fun v =>
  Drv (v_desc v) (<[k := x]> (v_avail v)) (v_avail_idx v) (v_free v) (v_used_idx v) (v_info_b v) (v_info_status v) (v_ops v)).
Definition set_avail_idx (x : Z) : M vst unit := upd_drv (fun v =>
  Drv (v_desc v) (v_avail v) x (v_free v) (v_used_idx v) (v_info_b v) (v_info_status v) (v_ops v)).
Definition set_used_idx (x : Z) : M vst unit := upd_drv (fun v =>
  Drv (v_desc v) (v_avail v) (v_avail_idx v) (v_free v) x (v_info_b v) (v_info_status v) (v_ops v)).
Definition set_info_b (i : nat) (x : option nat) : M vst unit := upd_drv (fun v =>
  Drv (v_desc v) (v_avail v) (v_avail_idx v) (v_free v) (v_used_idx v) (<[i := x]> (v_info_b v)) (v_info_status v) (v_ops v)).
Definition set_info_status (i : nat) (x : Z) : M vst unit := upd_drv (fun v =>
  Drv (v_desc v) (v_avail v) (v_avail_idx v) (v_free v) (v_used_idx v) (v_info_b v) (<[i := x]> (v_info_status v)) (v_ops v)).
Definition set_op (i : nat) (x : virtio_blk_req) : M vst unit := upd_drv (fun v =>
  Drv (v_desc v) (v_avail v) (v_avail_idx v) (v_free v) (v_used_idx v) (v_info_b v) (v_info_status v) (<[i := x]> (v_ops v))).
Definition set_bdisk (b : nat) (x : Z) : M vst unit :=
  modify (fun s => Vst (drv s) (dev s) (<[b := Vbuf x (vb_blockno (vbufs s b)) (vb_data (vbufs s b))]> (vbufs s)) (vk s)).
Definition vwakeup (chan : Z) : M vst unit :=
  modify (fun s => Vst (drv s) (dev s) (vbufs s) (env_wakeup chan (vk s))).

(** ** The driver *)

Section init.
Context `{Mmio U}.

Definition rd (r : Z) : M vst Z := fun s =>
  let '(x, k) := mmio_read r (vk s) in Ok x (Vst (drv s) (dev s) (vbufs s) k).
Definition wr (r v : Z) : M vst unit := modify (fun s => Vst (drv s) (dev s) (vbufs s) (mmio_write r (u32 v) (vk s))).
Definition kalloc_page : M vst Z := fun s =>
  let '(x, k) := virtio_kalloc (vk s) in Ok x (Vst (drv s) (dev s) (vbufs s) k).

(** The || of the four identification registers. *)
Fixpoint rd_differs (l : list (Z * Z)) : M vst bool :=
  match l with
  | [] => ret false
  | (r, x) :: l => let* y := rd r in if y =? x then rd_differs l else ret true
  end.

Definition negotiated (features : Z) : Z :=
  let f := Z.land features (Z.lnot (Z.shiftl 1 VIRTIO_BLK_F_RO)) in
  let f := Z.land f (Z.lnot (Z.shiftl 1 VIRTIO_BLK_F_SCSI)) in
  let f := Z.land f (Z.lnot (Z.shiftl 1 VIRTIO_BLK_F_CONFIG_WCE)) in
  let f := Z.land f (Z.lnot (Z.shiftl 1 VIRTIO_BLK_F_MQ)) in
  let f := Z.land f (Z.lnot (Z.shiftl 1 VIRTIO_F_ANY_LAYOUT)) in
  let f := Z.land f (Z.lnot (Z.shiftl 1 VIRTIO_RING_F_EVENT_IDX)) in
  Z.land f (Z.lnot (Z.shiftl 1 VIRTIO_RING_F_INDIRECT_DESC)).

(** memset of the three pages *)
Definition zero_queues : M vst unit := modify (fun s =>
  Vst (Drv (fun _ => Vdesc ANull 0 0 0) (repeat 0 8) 0 (v_free (drv s)) (v_used_idx (drv s)) (v_info_b (drv s)) (v_info_status (drv s)) (v_ops (drv s)))
    (Dev (repeat 0 8) 0 (e_avail (dev s)) (e_work (dev s)) (e_media (dev s))) (vbufs s) (vk s)).

(** The part of virtio_disk_init up to the check of FEATURES_OK; the value is
    the status register. *)
Definition init_negotiate : M vst Z :=
  let* bad := rd_differs [(VIRTIO_MMIO_MAGIC_VALUE, 0x74726976); (VIRTIO_MMIO_VERSION, 2);
                          (VIRTIO_MMIO_DEVICE_ID, 2); (VIRTIO_MMIO_VENDOR_ID, 0x554d4551)] in
  if bad : bool then panic "could not find virtio disk"
  else
    let status := 0 in
    wr VIRTIO_MMIO_STATUS status ;;
    let status := Z.lor status VIRTIO_CONFIG_S_ACKNOWLEDGE in
    wr VIRTIO_MMIO_STATUS status ;;
    let status := Z.lor status VIRTIO_CONFIG_S_DRIVER in
    wr VIRTIO_MMIO_STATUS status ;;
    let* features := rd VIRTIO_MMIO_DEVICE_FEATURES in
    wr VIRTIO_MMIO_DRIVER_FEATURES (negotiated features) ;;
    let status := Z.lor status VIRTIO_CONFIG_S_FEATURES_OK in
    wr VIRTIO_MMIO_STATUS status ;;
    let* status := rd VIRTIO_MMIO_STATUS in
    if negb (nz (Z.land status VIRTIO_CONFIG_S_FEATURES_OK)) then panic "virtio disk FEATURES_OK unset"
    else ret status.

(** The queue's three pages, and their addresses in the registers. *)
Definition init_queue : M vst unit :=
  let* d := kalloc_page in
  let* a := kalloc_page in
  let* u := kalloc_page in
  if (d =? 0) || (a =? 0) || (u =? 0) then panic "virtio disk kalloc"
  else
    zero_queues ;;
    wr VIRTIO_MMIO_QUEUE_NUM NUM ;;
    wr VIRTIO_MMIO_QUEUE_DESC_LOW d ;;
    wr VIRTIO_MMIO_QUEUE_DESC_HIGH (Z.shiftr d 32) ;;
    wr VIRTIO_MMIO_DRIVER_DESC_LOW a ;;
    wr VIRTIO_MMIO_DRIVER_DESC_HIGH (Z.shiftr a 32) ;;
    wr VIRTIO_MMIO_DEVICE_DESC_LOW u ;;
    wr VIRTIO_MMIO_DEVICE_DESC_HIGH (Z.shiftr u 32) ;;
    wr VIRTIO_MMIO_QUEUE_READY 1.

Definition virtio_disk_init : M vst unit :=
  let* status := init_negotiate in
  wr VIRTIO_MMIO_QUEUE_SEL 0 ;;
  let* ready := rd VIRTIO_MMIO_QUEUE_READY in
  if nz ready then panic "virtio disk should not be ready"
  else
    let* max := rd VIRTIO_MMIO_QUEUE_NUM_MAX in
    if max =? 0 then panic "virtio disk has no queue 0"
    else if max <? NUM then panic "virtio disk max queue too short"
    else
      init_queue ;;
      for_each (seq 0 (Z.to_nat NUM)) (fun i => set_vfree i 1) ;;
      wr VIRTIO_MMIO_STATUS (Z.lor status VIRTIO_CONFIG_S_DRIVER_OK).
End init.

Definition alloc_desc : M vst Z :=
  let* r := for_until (seq 0 (Z.to_nat NUM)) (fun i =>
    let* s := get in
    if nz (v_free (drv s) i) then set_vfree i 0 ;; ret (Some (Z.of_nat i)) else ret None) in
  ret (default (-1) r).

Definition free_desc (i : nat) : M vst unit :=
  let* s := get in
  if NUM <=? Z.of_nat i then panic "free_desc 1"
  else if nz (v_free (drv s) i) then panic "free_desc 2"
  else
    set_desc i (Vdesc ANull 0 0 0) ;;
    set_vfree i 1 ;;
    vwakeup free_chan.

(** The loop ends at a descriptor without the NEXT flag; a chain has at most
    NUM descriptors. *)
Fixpoint free_chain (fuel : nat) (i : nat) : M vst unit :=
  match fuel with
  | O => halt NoFuel
  | S fuel =>
      let* s := get in
      let flag := d_flags (v_desc (drv s) i) in
      let nxt := d_next (v_desc (drv s) i) in
      free_desc i ;;
      if nz (Z.land flag VRING_DESC_F_NEXT) then free_chain fuel (Z.to_nat nxt) else ret tt
  end.

(** The rest of alloc3_desc with [idx] allocated and [k] to go. *)
Fixpoint alloc_more (k : nat) (idx : list nat) : M vst (option (list nat)) :=
  match k with
  | O => ret (Some idx)
  | S k =>
      let* d := alloc_desc in
      if d <? 0 then for_each idx free_desc ;; ret None
      else alloc_more k (idx ++ [Z.to_nat d])
  end.
Definition alloc3_desc : M vst (option (list nat)) := alloc_more 3 [].

(** What a process in virtio_disk_rw does next: sleep on a channel, or wait
    for its request, or return. *)
Inductive rw_out : Type := RSleep (chan : Z) | RWait (idx : list nat) | RDone.

(** Format the three descriptors and queue the chain. *)
Definition queue_req (b : nat) (write : bool) (sector : Z) (i0 i1 i2 : nat) : M vst unit :=
  set_op i0 (Vreq (if write then VIRTIO_BLK_T_OUT else VIRTIO_BLK_T_IN) sector) ;;
  set_desc i0 (Vdesc (AOp i0) 16 VRING_DESC_F_NEXT (Z.of_nat i1)) ;;
  set_desc i1 (Vdesc (AData b) BSIZE
    (Z.lor (if write then 0 else VRING_DESC_F_WRITE) VRING_DESC_F_NEXT) (Z.of_nat i2)) ;;
  set_info_status i0 0xff ;;
  set_desc i2 (Vdesc (AStatus i0) 1 VRING_DESC_F_WRITE 0) ;;
  set_bdisk b 1 ;;
  set_info_b i0 (Some b) ;;
  let* s := get in
  set_avail_ring (slot NUM (v_avail_idx (drv s))) (Z.of_nat i0) ;;
  set_avail_idx (u16 (v_avail_idx (drv s) + 1)).

(** virtio_disk_rw up to the notification of the device (a write to a register,
    which has no state here); RSleep is the sleep
    in the loop around alloc3_desc, after which it starts over. The sector is
    a product of uints, widened to 64 bits after it has wrapped. *)
Definition virtio_disk_start (b : nat) (write : bool) : M vst rw_out :=
  let* s := get in
  let sector := u32 (vb_blockno (vbufs s b) * (BSIZE / 512)) in
  let* r := alloc3_desc in
  match r with
  | Some [i0; i1; i2] => queue_req b write sector i0 i1 i2 ;; ret (RWait [i0; i1; i2])
  | _ => ret (RSleep free_chan)
  end.

(** virtio_disk_rw from the loop that waits for the interrupt on. *)
Definition virtio_disk_end (b : nat) (idx : list nat) : M vst rw_out :=
  let* s := get in
  let i0 := hd O idx in
  if vb_disk (vbufs s b) =? 1 then ret (RSleep (buf_chan b))
  else set_info_b i0 None ;; free_chain (Z.to_nat NUM) i0 ;; ret RDone.

(** The loop of the interrupt handler; the acknowledgement of the interrupt is
    left out. *)
Fixpoint intr_loop (fuel : nat) : M vst unit :=
  match fuel with
  | O => halt NoFuel
  | S fuel =>
      let* s := get in
      if v_used_idx (drv s) =? e_used_idx (dev s) then ret tt
      else
        let id := Z.to_nat (default 0 (e_used (dev s) !! slot NUM (v_used_idx (drv s)))) in
        if nz (v_info_status (drv s) id) then panic "virtio_disk_intr status"
        else
          match v_info_b (drv s) id with
          | None => fault "virtio_disk_intr: null buf"
          | Some b =>
              set_bdisk b 0 ;;
              vwakeup (buf_chan b) ;;
              set_used_idx (u16 (v_used_idx (drv s) + 1)) ;;
              intr_loop fuel
          end
  end.
Definition virtio_disk_intr : M vst unit := intr_loop (S (Z.to_nat NUM)).

(** ** The device *)

(** What the device makes of the chain at a head: the request, if the chain is
    a well-formed one. *)
Definition parse_chain (v : disk_drv) (head : nat) : option (bool * Z * nat * nat) :=
  let d0 := v_desc v head in
  let d1 := v_desc v (Z.to_nat (d_next d0)) in
  let d2 := v_desc v (Z.to_nat (d_next d1)) in
  match d_addr d0, d_addr d1, d_addr d2 with
  | AOp i, AData b, AStatus j =>
      let rq := v_ops v i in
      let w := rq_type rq =? VIRTIO_BLK_T_OUT in
      if (d_len d0 =? 16) && (d_flags d0 =? VRING_DESC_F_NEXT) &&
         (d_len d1 =? BSIZE) && (d_flags d1 =? Z.lor (if w then 0 else VRING_DESC_F_WRITE) VRING_DESC_F_NEXT) &&
         (d_len d2 =? 1) && (d_flags d2 =? VRING_DESC_F_WRITE) &&
         (w || (rq_type rq =? VIRTIO_BLK_T_IN)) && (rq_sector rq mod (BSIZE / 512) =? 0)
      then Some (w, rq_sector rq / (BSIZE / 512), b, j) else None
  | _, _, _ => None
  end.

(** The device takes the next head from the avail ring. *)
Definition dev_fetch (s : vst) : vst :=
  let e := dev s in
  if e_avail e =? v_avail_idx (drv s) then s
  else Vst (drv s) (Dev (e_used e) (e_used_idx e) (u16 (e_avail e + 1))
    (e_work e ++ [default 0 (v_avail (drv s) !! slot NUM (e_avail e))]) (e_media e)) (vbufs s) (vk s).

(** The device does one of the requests it has taken: the transfer, the status
    byte, the entry of the used ring. None if the chain is malformed. *)
Definition dev_serve (s : vst) (pre : list Z) (head : Z) (post : list Z) : option vst :=
  let e := dev s in
  let v := drv s in
  match parse_chain v (Z.to_nat head) with
  | None => None
  | Some (w, blk, b, j) =>
      let bf := vbufs s b in
      Some (Vst
        (Drv (v_desc v) (v_avail v) (v_avail_idx v) (v_free v) (v_used_idx v) (v_info_b v)
           (<[j := 0]> (v_info_status v)) (v_ops v))
        (Dev (<[slot NUM (e_used_idx e) := head]> (e_used e)) (u16 (e_used_idx e + 1)) (e_avail e) (pre ++ post)
           (if w : bool then <[blk := vb_data bf]> (e_media e) else e_media e))
        (if w then vbufs s else <[b := Vbuf (vb_disk bf) (vb_blockno bf) (e_media e blk)]> (vbufs s)) (vk s))
  end.

(** ** Specification: whole-block transfers *)

Record spec : Type := Spec {
  sp_media : Z -> block;
  sp_block : nat -> Z;
  sp_data : nat -> block;
  sp_req : gmap nat (bool * bool);   (* the requests under way: write? transferred? *)
}.

(** What a process sees: it submits a request, returns from virtio_disk_rw, or
    changes a buffer it holds. *)
Inductive vlabel : Type := LTau | LSubmit (b : nat) (w : bool) | LReturn (b : nat) | LOwner (b : nat) (n : Z) (d : block).

(** The block of the device that a block number stands for. The sector number
    is computed in 32 bits and there are two sectors in a block, so it is the
    number itself below 2^31 and 2^31 less from there on. *)
Definition disk_block (n : Z) : Z := n mod 2 ^ 31.

(** Serving a request is the whole transfer at once. *)
Definition transfer (a : spec) (b : nat) (w : bool) : spec :=
  if w then Spec (<[disk_block (sp_block a b) := sp_data a b]> (sp_media a)) (sp_block a) (sp_data a) (<[b := (true, true)]> (sp_req a))
  else Spec (sp_media a) (sp_block a) (<[b := sp_media a (disk_block (sp_block a b))]> (sp_data a)) (<[b := (false, true)]> (sp_req a)).

Inductive spec_step : spec -> vlabel -> spec -> Prop :=
  | sp_idle a : spec_step a LTau a
  | sp_submit a b w : sp_req a !! b = None ->
      spec_step a (LSubmit b w) (Spec (sp_media a) (sp_block a) (sp_data a) (<[b := (w, false)]> (sp_req a)))
  | sp_transfer a b w : sp_req a !! b = Some (w, false) -> spec_step a LTau (transfer a b w)
  | sp_return a b w : sp_req a !! b = Some (w, true) ->
      spec_step a (LReturn b) (Spec (sp_media a) (sp_block a) (sp_data a) (delete b (sp_req a)))
  | sp_owner a b n d : sp_req a !! b = None ->
      spec_step a (LOwner b n d) (Spec (sp_media a) (<[b := n]> (sp_block a)) (<[b := d]> (sp_data a)) (sp_req a)).

(** ** The relation between the driver and the specification *)

(** A request under way. *)
Record areq : Type := Areq { a_i0 : nat; a_i1 : nat; a_i2 : nat; a_b : nat; a_w : bool }.
Definition a_idx (r : areq) : list nat := [a_i0 r; a_i1 r; a_i2 r].
Definition heads (l : list areq) : list Z := map (fun r => Z.of_nat (a_i0 r)) l.

Definition wflags (w : bool) : Z := Z.lor (if w then 0 else VRING_DESC_F_WRITE) VRING_DESC_F_NEXT.

Record chained (s : vst) (r : areq) : Prop := {
  ch_0 : v_desc (drv s) (a_i0 r) = Vdesc (AOp (a_i0 r)) 16 VRING_DESC_F_NEXT (Z.of_nat (a_i1 r));
  ch_1 : v_desc (drv s) (a_i1 r) = Vdesc (AData (a_b r)) BSIZE (wflags (a_w r)) (Z.of_nat (a_i2 r));
  ch_2 : v_desc (drv s) (a_i2 r) = Vdesc (AStatus (a_i0 r)) 1 VRING_DESC_F_WRITE 0;
  ch_op : v_ops (drv s) (a_i0 r) =
    Vreq (if a_w r then VIRTIO_BLK_T_OUT else VIRTIO_BLK_T_IN) (disk_block (vb_blockno (vbufs s (a_b r))) * 2);
  ch_info : v_info_b (drv s) (a_i0 r) = Some (a_b r);
}.

(** The descriptors and buffers of the requests under way. *)
Definition idxs (l : list areq) : list nat := l ≫= a_idx.

Record vcore (s : vst) (l : list areq) : Prop := {
  vc_nodup : NoDup (idxs l);
  vc_lt : forall i, i ∈ idxs l -> (i < 8)%nat;
  vc_free : forall i, (i < 8)%nat -> v_free (drv s) i = if decide (i ∈ idxs l) then 0 else 1;
  vc_bufs : NoDup (map a_b l);
  vc_chain : forall r, r ∈ l -> chained s r;
}.

(** The requests: [q] in the avail ring, [f] taken by the device, [v] in the
    used ring, [n] with their interrupt handled. *)
Record vinv (s : vst) (q f v n : list areq) : Prop := {
  vi_core : vcore s (q ++ f ++ v ++ n);
  vi_busy : forall r, r ∈ q ++ f ++ v -> vb_disk (vbufs s (a_b r)) = 1;
  vi_idle : forall r, r ∈ n -> vb_disk (vbufs s (a_b r)) = 0;
  vi_done : forall r, r ∈ v -> v_info_status (drv s) (a_i0 r) = 0;
  vi_avail : ring NUM 16 (v_avail (drv s)) (e_avail (dev s)) (v_avail_idx (drv s)) = heads q;
  vi_work : e_work (dev s) = heads f;
  vi_used : ring NUM 16 (e_used (dev s)) (v_used_idx (drv s)) (e_used_idx (dev s)) = heads v;
  vi_len : length (v_avail (drv s)) = 8%nat /\ length (e_used (dev s)) = 8%nat;
  vi_idx : 0 <= v_avail_idx (drv s) < 2 ^ 16 /\ 0 <= e_avail (dev s) < 2 ^ 16 /\
           0 <= v_used_idx (drv s) < 2 ^ 16 /\ 0 <= e_used_idx (dev s) < 2 ^ 16;
  vi_block : forall b, 0 <= vb_blockno (vbufs s b) < 2 ^ 32;
}.

(** The requests of the specification. *)
Definition reqs (p : list areq) (d : list areq) : gmap nat (bool * bool) :=
  list_to_map (map (fun r => (a_b r, (a_w r, false))) p ++ map (fun r => (a_b r, (a_w r, true))) d).

Record refines (s : vst) (a : spec) (q f v n : list areq) : Prop := {
  rf_inv : vinv s q f v n;
  rf_media : forall k, e_media (dev s) k = sp_media a k;
  rf_block : forall b, vb_blockno (vbufs s b) = sp_block a b;
  rf_data : forall b, vb_data (vbufs s b) = sp_data a b;
  rf_req : sp_req a = reqs (q ++ f) (v ++ n);
}.
(** ** Lemmas: descriptors *)

(** The states agree but for descriptors, the free flags and the kernel. *)
Record same_rest (s s' : vst) : Prop := {
  sr_avail : v_avail (drv s') = v_avail (drv s);
  sr_avail_idx : v_avail_idx (drv s') = v_avail_idx (drv s);
  sr_used_idx : v_used_idx (drv s') = v_used_idx (drv s);
  sr_info_b : v_info_b (drv s') = v_info_b (drv s);
  sr_info_status : v_info_status (drv s') = v_info_status (drv s);
  sr_ops : v_ops (drv s') = v_ops (drv s);
  sr_dev : dev s' = dev s;
  sr_bufs : vbufs s' = vbufs s;
}.

Lemma same_rest_refl s : same_rest s s.
Proof. by split. Qed.
Lemma same_rest_trans s1 s2 s3 : same_rest s1 s2 -> same_rest s2 s3 -> same_rest s1 s3.
Proof. intros [] []. split; congruence. Qed.

Lemma alloc_scan l : forall s,
  (exists i, i ∈ l /\ nz (v_free (drv s) i) = true /\
     for_until l (fun i => let* s := get in
       if nz (v_free (drv s) i) then set_vfree i 0 ;; ret (Some (Z.of_nat i)) else ret None) s =
     (set_vfree i 0 ;; ret (Some (Z.of_nat i))) s) \/
  ((forall i, i ∈ l -> nz (v_free (drv s) i) = false) /\
     for_until l (fun i => let* s := get in
       if nz (v_free (drv s) i) then set_vfree i 0 ;; ret (Some (Z.of_nat i)) else ret None) s = Ok None s).
Proof.
  induction l as [|i l IH]; intros s; cbn [for_until].
  - right. split; [intros i Hi; by apply elem_of_nil in Hi | done].
  - rewrite bind_assoc. erewrite bind_run by reflexivity. destruct (nz (v_free (drv s) i)) eqn:Ei.
    + left. exists i. split_and!; [by left | done | done].
    + erewrite bind_run by reflexivity. destruct (IH s) as [(j & Hj & Ej & E)|[Hn E]].
      * left. exists j. split_and!; [by right | done | exact E].
      * right. split; [intros j [->|Hj]%elem_of_cons; auto | exact E].
Qed.

Lemma alloc_desc_run s :
  (exists i s', (i < 8)%nat /\ nz (v_free (drv s) i) = true /\ alloc_desc s = Ok (Z.of_nat i) s' /\
     v_free (drv s') = <[i := 0]> (v_free (drv s)) /\ v_desc (drv s') = v_desc (drv s) /\ same_rest s s' /\ vk s' = vk s) \/
  ((forall i, (i < 8)%nat -> nz (v_free (drv s) i) = false) /\ alloc_desc s = Ok (-1) s).
Proof.
  unfold alloc_desc. destruct (alloc_scan (seq 0 (Z.to_nat NUM)) s) as [(i & Hi & Ei & E)|[Hn E]].
  - left. exists i. eexists. apply elem_of_seq in Hi. change (Z.to_nat NUM) with 8%nat in Hi. split_and!;
      [lia | done | unfold bind at 1; rewrite E; reflexivity | reflexivity | reflexivity | by split | reflexivity].
  - right. split; [intros i Hi; apply Hn, elem_of_seq; change (Z.to_nat NUM) with 8%nat; lia|]. rewrite (bind_run _ _ _ _ _ E). done.
Qed.

Lemma free_desc_run i s : (i < 8)%nat -> v_free (drv s) i = 0 ->
  exists s', free_desc i s = Ok tt s' /\ v_free (drv s') = <[i := 1]> (v_free (drv s)) /\
    v_desc (drv s') = <[i := Vdesc ANull 0 0 0]> (v_desc (drv s)) /\ same_rest s s'.
Proof.
  intros Hi Hf. unfold free_desc. erewrite bind_run by reflexivity.
  destruct (Z.leb_spec NUM (Z.of_nat i)) as [Hn|_]; [unfold NUM in Hn; lia|]. rewrite Hf. cbn [nz Z.eqb negb].
  eexists. split; [reflexivity|]. split_and!; [reflexivity | reflexivity | by split].
Qed.

Lemma free_all_run idx : forall s,
  NoDup idx -> (forall i, i ∈ idx -> (i < 8)%nat /\ v_free (drv s) i = 0) ->
  exists s', for_each idx free_desc s = Ok tt s' /\
    (forall i, v_free (drv s') i = if decide (i ∈ idx) then 1 else v_free (drv s) i) /\
    (forall i, i ∉ idx -> v_desc (drv s') i = v_desc (drv s) i) /\ same_rest s s'.
Proof.
  induction idx as [|i idx IH]; intros s Hd Hi.
  - exists s. split_and!; [done | intros i; by rewrite decide_False by apply not_elem_of_nil | done | apply same_rest_refl].
  - apply NoDup_cons in Hd as [Hni Hd]. destruct (Hi i) as [Hlt Hf]; [by left|].
    destruct (free_desc_run i s Hlt Hf) as (s1 & E1 & F1 & D1 & R1).
    destruct (IH s1 Hd) as (s2 & E2 & F2 & D2 & R2).
    { intros j Hj. destruct (Hi j) as [? ?]; [by right|]. split; [done|]. rewrite F1, fn_lookup_insert_ne; [done|]. intros ->. done. }
    exists s2. cbn [for_each]. rewrite (bind_run _ _ _ _ _ E1). split_and!; [done | | | by eapply same_rest_trans].
    + intros j. rewrite F2, F1. destruct (decide (j = i)) as [->|Hne].
      * rewrite fn_lookup_insert. rewrite (decide_True (P := i ∈ i :: idx)) by by left. by destruct (decide _).
      * rewrite fn_lookup_insert_ne by done. apply decide_ext. rewrite elem_of_cons. naive_solver.
    + intros j Hj. rewrite not_elem_of_cons in Hj. destruct Hj as [? ?]. rewrite D2, D1 by done. by rewrite fn_lookup_insert_ne.
Qed.

(** The descriptors in [idx] have been allocated since [s0]. *)
Record allocated_from (s0 s : vst) (idx : list nat) : Prop := {
  af_nodup : NoDup idx;
  af_were : forall i, i ∈ idx -> (i < 8)%nat /\ v_free (drv s0) i = 1;
  af_free : forall i, v_free (drv s) i = if decide (i ∈ idx) then 0 else v_free (drv s0) i;
  af_desc : v_desc (drv s) = v_desc (drv s0);
  af_rest : same_rest s0 s;
}.

Lemma alloc_more_ok s0 k : (forall i, (i < 8)%nat -> v_free (drv s0) i = 0 \/ v_free (drv s0) i = 1) ->
  forall idx s, allocated_from s0 s idx ->
  (exists idx' s', alloc_more k idx s = Ok (Some idx') s' /\ length idx' = (length idx + k)%nat /\ allocated_from s0 s' idx') \/
  (exists s', alloc_more k idx s = Ok None s' /\ (forall i, v_free (drv s') i = v_free (drv s0) i) /\
     (forall i, v_free (drv s0) i = 0 -> v_desc (drv s') i = v_desc (drv s0) i) /\ same_rest s0 s').
Proof.
  intros H01. induction k as [|k IH]; intros idx s Ha; cbn [alloc_more].
  - left. exists idx, s. split_and!; [done | lia | done].
  - pose proof Ha as [A1 A2 A3 A4 A5].
    destruct (alloc_desc_run s) as [(i & s1 & Hi & Hnz & E & F & D & R & _)|[Hn E]]; rewrite (bind_run _ _ _ _ _ E).
    + destruct (Z.ltb_spec (Z.of_nat i) 0); [lia|]. rewrite Nat2Z.id.
      assert (i ∉ idx /\ v_free (drv s0) i = 1) as [Hni Hf1].
      { rewrite A3 in Hnz. destruct (decide (i ∈ idx)); [done|]. split; [done|]. destruct (H01 i Hi) as [E0|?]; [by rewrite E0 in Hnz | done]. }
      destruct (IH (idx ++ [i]) s1) as [(idx' & s' & E' & Hl & Ha')|?]; [| |by right].
      * split.
        -- apply NoDup_app. split_and!; [done | | apply NoDup_singleton]. intros j Hj ->%list_elem_of_singleton. done.
        -- intros j [Hj| ->%list_elem_of_singleton]%elem_of_app; [by apply A2 | done].
        -- intros j. rewrite F. destruct (decide (j = i)) as [->|Hne].
           ++ rewrite fn_lookup_insert, decide_True; [done|]. apply elem_of_app. right. by left.
           ++ rewrite fn_lookup_insert_ne, A3 by done. apply decide_ext. rewrite elem_of_app, list_elem_of_singleton. naive_solver.
        -- by rewrite D.
        -- by eapply same_rest_trans.
      * left. exists idx', s'. split_and!; [done | rewrite Hl, length_app; simpl; lia | done].
    + right. cbn [Z.ltb Z.compare]. destruct (free_all_run idx s A1) as (s1 & E1 & F1 & D1 & R1).
      { intros i Hi. split; [by apply A2|]. rewrite A3. by rewrite decide_True. }
      exists s1. rewrite (bind_run _ _ _ _ _ E1). split_and!; [done | | | by eapply same_rest_trans].
      * intros i. rewrite F1, A3. destruct (decide (i ∈ idx)); [|done]. symmetry. by apply A2.
      * intros i Hi. rewrite D1, A4; [done|]. intros Hin. destruct (A2 i Hin). congruence.
Qed.
(** ** Lemmas: requests *)

Lemma idxs_app l1 l2 : idxs (l1 ++ l2) = idxs l1 ++ idxs l2.
Proof. apply bind_app. Qed.
Lemma idxs_perm l1 l2 : l1 ≡ₚ l2 -> idxs l1 ≡ₚ idxs l2.
Proof. intros Hp. unfold idxs. by rewrite Hp. Qed.
Lemma elem_of_idxs i l : i ∈ idxs l <-> exists r, i ∈ a_idx r /\ r ∈ l.
Proof. apply list_elem_of_bind. Qed.

Lemma vcore_perm s l l' : l ≡ₚ l' -> vcore s l -> vcore s l'.
Proof.
  intros Hp [C1 C2 C3 C4 C5]. pose proof (idxs_perm _ _ Hp) as Hi. split.
  - by rewrite <- Hi.
  - intros i. rewrite <- Hi. apply C2.
  - intros i Hlt. rewrite C3 by done. apply decide_ext. by rewrite Hi.
  - rewrite <- (Permutation_map a_b Hp). done.
  - intros r. rewrite <- Hp. apply C5.
Qed.

Lemma chained_ext s s' r :
  (forall i, i ∈ a_idx r -> v_desc (drv s') i = v_desc (drv s) i) ->
  v_ops (drv s') (a_i0 r) = v_ops (drv s) (a_i0 r) -> v_info_b (drv s') (a_i0 r) = v_info_b (drv s) (a_i0 r) ->
  vb_blockno (vbufs s' (a_b r)) = vb_blockno (vbufs s (a_b r)) -> chained s r -> chained s' r.
Proof.
  intros Hd Ho Hi Hb [D0 D1 D2 D3 D4].
  split; rewrite ?Ho, ?Hi, ?Hb, ?Hd; try done; unfold a_idx; set_solver.
Qed.

(** Requests of a core are apart: their descriptors and buffers differ. *)
Lemma vcore_apart s r l : vcore s (r :: l) ->
  (forall r' i, r' ∈ l -> i ∈ a_idx r' -> i ∉ a_idx r) /\ (forall r', r' ∈ l -> a_b r' <> a_b r) /\
  a_i0 r <> a_i1 r /\ a_i0 r <> a_i2 r /\ a_i1 r <> a_i2 r.
Proof.
  intros [C1 _ _ C4 _]. change (idxs (r :: l)) with (a_idx r ++ idxs l) in C1. apply NoDup_app in C1 as (N1 & N2 & N3).
  cbn [map] in C4. apply NoDup_cons in C4 as [B1 B2]. split_and!.
  - intros r' i Hr Hi Hi'. apply (N2 i Hi'). apply elem_of_idxs. eauto.
  - intros r' Hr E. apply B1. rewrite <- E. by apply list_elem_of_fmap_2.
  - unfold a_idx in N1. rewrite !NoDup_cons, !not_elem_of_cons in N1. naive_solver.
  - unfold a_idx in N1. rewrite !NoDup_cons, !not_elem_of_cons in N1. naive_solver.
  - unfold a_idx in N1. rewrite !NoDup_cons, !not_elem_of_cons in N1. naive_solver.
Qed.

(** The core after a step that leaves the requests alone. *)
Lemma vcore_ext s s' l :
  (forall i, (i < 8)%nat -> v_free (drv s') i = v_free (drv s) i) ->
  (forall r, r ∈ l -> chained s r -> chained s' r) -> vcore s l -> vcore s' l.
Proof. intros Hf Hc [C1 C2 C3 C4 C5]. split; auto. intros i Hi. by rewrite Hf, C3. Qed.

Lemma length_idxs l : length (idxs l) = (3 * length l)%nat.
Proof. induction l as [|r l IH]; [done|]. change (idxs (r :: l)) with (a_idx r ++ idxs l). rewrite length_app, IH. simpl. lia. Qed.

Lemma vcore_few s l : vcore s l -> (length l <= 2)%nat.
Proof.
  intros [C1 C2 _ _ _]. assert (length (idxs l) <= length (seq 0 8))%nat as Hl.
  { apply submseteq_length, NoDup_submseteq; [done|]. intros i Hi. apply elem_of_seq. specialize (C2 i Hi). lia. }
  rewrite length_idxs, length_seq in Hl. lia.
Qed.

(** ** Lemmas: the requests of the specification *)

Definition keyed (p d : list areq) : list (nat * (bool * bool)) :=
  map (fun r => (a_b r, (a_w r, false))) p ++ map (fun r => (a_b r, (a_w r, true))) d.

Lemma keyed_fst p d : (keyed p d).*1 = map a_b (p ++ d).
Proof. unfold keyed. rewrite fmap_app, map_app. f_equal; [induction p | induction d]; csimpl; congruence. Qed.

Lemma reqs_None p d b : b ∉ map a_b (p ++ d) -> reqs p d !! b = None.
Proof. intros Hn. unfold reqs. fold (keyed p d). apply not_elem_of_list_to_map. by rewrite keyed_fst. Qed.
Lemma reqs_pending p1 r p2 d :
  NoDup (map a_b ((p1 ++ r :: p2) ++ d)) ->
  reqs (p1 ++ r :: p2) d = <[a_b r := (a_w r, false)]> (reqs (p1 ++ p2) d) /\ reqs (p1 ++ p2) d !! a_b r = None.
Proof.
  intros Hn. assert (map a_b ((p1 ++ r :: p2) ++ d) ≡ₚ a_b r :: map a_b ((p1 ++ p2) ++ d)) as Hp.
  { rewrite <- !app_assoc, !map_app. cbn [map app]. by rewrite <- Permutation_middle. }
  rewrite Hp in Hn. apply NoDup_cons in Hn as [Hr Hn]. split; [|by apply reqs_None].
  unfold reqs. fold (keyed (p1 ++ r :: p2) d) (keyed (p1 ++ p2) d).
  change (<[a_b r := (a_w r, false)]> (list_to_map (keyed (p1 ++ p2) d) : gmap nat (bool * bool)))
    with (list_to_map ((a_b r, (a_w r, false)) :: keyed (p1 ++ p2) d) : gmap nat (bool * bool)).
  apply list_to_map_proper.
  - rewrite keyed_fst, Hp. by apply NoDup_cons.
  - unfold keyed. rewrite !map_app. cbn [map]. rewrite <- !app_assoc. cbn [app]. by rewrite <- Permutation_middle.
Qed.

Lemma reqs_done p d1 r d2 :
  NoDup (map a_b (p ++ d1 ++ r :: d2)) ->
  reqs p (d1 ++ r :: d2) = <[a_b r := (a_w r, true)]> (reqs p (d1 ++ d2)) /\ reqs p (d1 ++ d2) !! a_b r = None.
Proof.
  intros Hn. assert (map a_b (p ++ d1 ++ r :: d2) ≡ₚ a_b r :: map a_b (p ++ d1 ++ d2)) as Hp.
  { rewrite !map_app. cbn [map]. rewrite <- !Permutation_middle. done. }
  rewrite Hp in Hn. apply NoDup_cons in Hn as [Hr Hn]. split; [|by apply reqs_None].
  unfold reqs. fold (keyed p (d1 ++ r :: d2)) (keyed p (d1 ++ d2)).
  change (<[a_b r := (a_w r, true)]> (list_to_map (keyed p (d1 ++ d2)) : gmap nat (bool * bool)))
    with (list_to_map ((a_b r, (a_w r, true)) :: keyed p (d1 ++ d2)) : gmap nat (bool * bool)).
  apply list_to_map_proper.
  - rewrite keyed_fst, Hp. by apply NoDup_cons.
  - unfold keyed. rewrite !map_app. cbn [map]. rewrite <- !Permutation_middle. done.
Qed.

(** ** Lemmas: the steps of the driver *)

Lemma slot_lt8 k : (slot NUM k < 8)%nat.
Proof. apply (slot_lt NUM 16); unfold NUM; lia. Qed.

Lemma NUM_div : (NUM | 2 ^ 16).
Proof. exists (2 ^ 13). reflexivity. Qed.

Lemma heads_length l : length (heads l) = length l.
Proof. apply length_map. Qed.

Lemma core_rest s s' l : same_rest s s' -> (forall i, v_free (drv s') i = v_free (drv s) i) ->
  (forall i, v_free (drv s) i = 0 -> v_desc (drv s') i = v_desc (drv s) i) -> vcore s l -> vcore s' l.
Proof.
  intros [] Hf Hd Hc. apply (vcore_ext s); [auto | | done]. intros r Hr. apply chained_ext; try congruence.
  intros i Hi. apply Hd. assert (i ∈ idxs l) by (apply elem_of_idxs; eauto).
  rewrite (vc_free _ _ Hc) by (by apply (vc_lt _ _ Hc)). by rewrite decide_True.
Qed.

Lemma alloc3_ok s l : vcore s l ->
  (exists i0 i1 i2 s', alloc3_desc s = Ok (Some [i0; i1; i2]) s' /\ allocated_from s s' [i0; i1; i2]) \/
  (exists s', alloc3_desc s = Ok None s' /\ (forall i, v_free (drv s') i = v_free (drv s) i) /\
     (forall i, v_free (drv s) i = 0 -> v_desc (drv s') i = v_desc (drv s) i) /\ same_rest s s').
Proof.
  intros Hc. destruct (alloc_more_ok s 3) with (idx := @nil nat) (s := s) as [(idx & s' & E & Hl & Ha)|?]; [| |left|by right].
  - intros i Hi. rewrite (vc_free _ _ Hc i Hi). destruct (decide _); auto.
  - split; [apply NoDup_nil_2 | intros i Hi; by apply elem_of_nil in Hi | | done | apply same_rest_refl].
    intros i. rewrite decide_False; [done | apply not_elem_of_nil].
  - destruct idx as [|i0 [|i1 [|i2 [|? ?]]]]; simpl in Hl; try lia. by exists i0, i1, i2, s'.
Qed.

Lemma core_add s s1 s2 r l :
  vcore s l -> allocated_from s s1 (a_idx r) -> v_free (drv s2) = v_free (drv s1) -> a_b r ∉ map a_b l ->
  chained s2 r -> (forall r', r' ∈ l -> (forall i, i ∈ a_idx r' -> i ∉ a_idx r) -> chained s r' -> chained s2 r') ->
  vcore s2 (r :: l).
Proof.
  intros Hc [A1 A2 A3 _ _] Hf Hb Hr Hl. pose proof Hc as [C1 C2 C3 C4 C5].
  assert (forall i, i ∈ idxs l -> i ∉ a_idx r) as Hdis.
  { intros i Hi Hi'. destruct (A2 i Hi') as [Hlt E]. rewrite C3, decide_True in E; done. }
  split.
  - change (idxs (r :: l)) with (a_idx r ++ idxs l). apply NoDup_app. split_and!; [done | | done].
    intros i Hi Hi'. by apply (Hdis i).
  - intros i. change (idxs (r :: l)) with (a_idx r ++ idxs l). intros [Hi|Hi]%elem_of_app; [by apply A2 | by apply C2].
  - intros i Hlt. rewrite Hf, A3, C3 by done. change (idxs (r :: l)) with (a_idx r ++ idxs l).
    destruct (decide (i ∈ a_idx r)), (decide (i ∈ idxs l)), (decide (i ∈ a_idx r ++ idxs l)) as [Hin|Hin]; try done;
      rewrite elem_of_app in Hin; naive_solver.
  - cbn [map]. by apply NoDup_cons.
  - intros r' [->|Hr']%elem_of_cons; [done|]. apply Hl; [done | | by apply C5].
    intros i Hi. apply Hdis, elem_of_idxs. eauto.
Qed.

Lemma ring_few s r w (l l' : list areq) : ring NUM 16 s r w = heads l' -> (length l' <= length l)%nat -> (length l <= 2)%nat ->
  ahead 16 r w < NUM /\ ahead 16 r w + 1 < 2 ^ 16.
Proof.
  intros E Hl H2. apply (f_equal length) in E. rewrite length_ring, heads_length in E.
  pose proof (ahead_range 16 ltac:(lia) r w). unfold NUM. lia.
Qed.

(** The state queue_req makes. *)
Definition queued (s : vst) (b : nat) (w : bool) (sector : Z) (i0 i1 i2 : nat) : vst :=
  let v := drv s in
  Vst (Drv
    (<[i2 := Vdesc (AStatus i0) 1 VRING_DESC_F_WRITE 0]> (<[i1 := Vdesc (AData b) BSIZE (wflags w) (Z.of_nat i2)]>
      (<[i0 := Vdesc (AOp i0) 16 VRING_DESC_F_NEXT (Z.of_nat i1)]> (v_desc v))))
    (<[slot NUM (v_avail_idx v) := Z.of_nat i0]> (v_avail v)) (u16 (v_avail_idx v + 1)) (v_free v) (v_used_idx v)
    (<[i0 := Some b]> (v_info_b v)) (<[i0 := 255]> (v_info_status v))
    (<[i0 := Vreq (if w then VIRTIO_BLK_T_OUT else VIRTIO_BLK_T_IN) sector]> (v_ops v)))
    (dev s) (<[b := Vbuf 1 (vb_blockno (vbufs s b)) (vb_data (vbufs s b))]> (vbufs s)) (vk s).

(** The setters on a state in constructor form. *)
Lemma set_op_run i x d a ai f ui ib st o e vb k :
  set_op i x (Vst (Drv d a ai f ui ib st o) e vb k) = Ok tt (Vst (Drv d a ai f ui ib st (<[i := x]> o)) e vb k).
Proof. done. Qed.
Lemma set_desc_run i x d a ai f ui ib st o e vb k :
  set_desc i x (Vst (Drv d a ai f ui ib st o) e vb k) = Ok tt (Vst (Drv (<[i := x]> d) a ai f ui ib st o) e vb k).
Proof. done. Qed.
Lemma set_info_status_run i x d a ai f ui ib st o e vb k :
  set_info_status i x (Vst (Drv d a ai f ui ib st o) e vb k) = Ok tt (Vst (Drv d a ai f ui ib (<[i := x]> st) o) e vb k).
Proof. done. Qed.
Lemma set_info_b_run i x d a ai f ui ib st o e vb k :
  set_info_b i x (Vst (Drv d a ai f ui ib st o) e vb k) = Ok tt (Vst (Drv d a ai f ui (<[i := x]> ib) st o) e vb k).
Proof. done. Qed.
Lemma set_avail_ring_run i x d a ai f ui ib st o e vb k :
  set_avail_ring i x (Vst (Drv d a ai f ui ib st o) e vb k) = Ok tt (Vst (Drv d (<[i := x]> a) ai f ui ib st o) e vb k).
Proof. done. Qed.
Lemma set_avail_idx_run x d a ai f ui ib st o e vb k :
  set_avail_idx x (Vst (Drv d a ai f ui ib st o) e vb k) = Ok tt (Vst (Drv d a x f ui ib st o) e vb k).
Proof. done. Qed.
Lemma set_bdisk_run b x v e vb k :
  set_bdisk b x (Vst v e vb k) = Ok tt (Vst v e (<[b := Vbuf x (vb_blockno (vb b)) (vb_data (vb b))]> vb) k).
Proof. done. Qed.

Lemma queue_run s b w sector i0 i1 i2 : queue_req b w sector i0 i1 i2 s = Ok tt (queued s b w sector i0 i1 i2).
Proof.
  destruct s as [[d a ai f ui ib st o] e vb k]. unfold queue_req.
  rewrite (bind_run _ _ _ _ _ (set_op_run _ _ _ _ _ _ _ _ _ _ _ _ _)), !(bind_run _ _ _ _ _ (set_desc_run _ _ _ _ _ _ _ _ _ _ _ _ _)).
  rewrite (bind_run _ _ _ _ _ (set_info_status_run _ _ _ _ _ _ _ _ _ _ _ _ _)), (bind_run _ _ _ _ _ (set_desc_run _ _ _ _ _ _ _ _ _ _ _ _ _)).
  rewrite (bind_run _ _ _ _ _ (set_bdisk_run _ _ _ _ _ _)), (bind_run _ _ _ _ _ (set_info_b_run _ _ _ _ _ _ _ _ _ _ _ _ _)).
  rewrite (bind_run get _ _ _ _ eq_refl), (bind_run _ _ _ _ _ (set_avail_ring_run _ _ _ _ _ _ _ _ _ _ _ _ _)), set_avail_idx_run.
  done.
Qed.

Lemma disk_block_low n : 0 <= n < 2 ^ 31 -> disk_block n = n.
Proof. intros. unfold disk_block. apply Z.mod_small. lia. Qed.

(** Two block numbers of the kernel are one block of the disk. *)
Lemma disk_block_aliases n : 0 <= n < 2 ^ 31 -> disk_block (2 ^ 31 + n) = disk_block n.
Proof. intros. unfold disk_block. mlia. Qed.

Lemma sector_block n : u32 (n * (BSIZE / 512)) = disk_block n * 2.
Proof. unfold u32, disk_block. change (BSIZE / 512) with 2. mlia. Qed.

Lemma queued_chained s b w i0 i1 i2 :
  i0 <> i1 -> i0 <> i2 -> i1 <> i2 ->
  chained (queued s b w (disk_block (vb_blockno (vbufs s b)) * 2) i0 i1 i2) (Areq i0 i1 i2 b w).
Proof.
  intros H1 H2 H3. split; cbn [queued drv vbufs v_desc v_ops v_info_b a_i0 a_i1 a_i2 a_b a_w];
    rewrite ?fn_lookup_insert; try done;
    rewrite ?(fn_lookup_insert_ne _ i2), ?(fn_lookup_insert_ne _ i1) by congruence; by rewrite fn_lookup_insert.
Qed.

Lemma queued_other s b w sector i0 i1 i2 r :
  (forall i, i ∈ a_idx r -> i ∉ [i0; i1; i2]) -> chained s r -> chained (queued s b w sector i0 i1 i2) r.
Proof.
  intros Hi. assert (a_i0 r <> i0) as Hne by (specialize (Hi (a_i0 r)); unfold a_idx in Hi; set_solver).
  apply chained_ext; cbn [queued drv vbufs v_desc v_ops v_info_b].
  - intros i Hin. specialize (Hi i Hin). rewrite !not_elem_of_cons in Hi. by rewrite !fn_lookup_insert_ne by naive_solver.
  - by rewrite fn_lookup_insert_ne.
  - by rewrite fn_lookup_insert_ne.
  - destruct (decide (a_b r = b)) as [<-|]; [by rewrite fn_lookup_insert | by rewrite fn_lookup_insert_ne].
Qed.

(** A request that fits is formatted and queued. *)
Lemma start_queued s a q f v n b w :
  refines s a q f v n -> sp_req a !! b = None -> b ∉ map a_b (q ++ f ++ v ++ n) ->
  (exists idx s' r, virtio_disk_start b w s = Ok (RWait idx) s' /\ idx = a_idx r /\ a_b r = b /\ a_w r = w /\
     refines s' (Spec (sp_media a) (sp_block a) (sp_data a) (<[b := (w, false)]> (sp_req a))) (q ++ [r]) f v n) \/
  (exists s', virtio_disk_start b w s = Ok (RSleep free_chan) s' /\ refines s' a q f v n).
Proof.
  intros [[Hc Hbusy Hidle Hdone Hav Hwork Hused [Hl1 Hl2] [Hi1 [Hi2 [Hi3 Hi4]]] Hblk] Rm Rb Rd Rr] Hb Hnb.
  unfold virtio_disk_start. erewrite bind_run by reflexivity.
  destruct (alloc3_ok s _ Hc) as [(i0 & i1 & i2 & s1 & E & Ha)|(s1 & E & Hf & Hd & Hrest)]; rewrite (bind_run _ _ _ _ _ E).
  - left. pose proof (af_rest _ _ _ Ha) as [R1 R2 R3 R4 R5 R6 R7 R8].
    pose proof (af_nodup _ _ _ Ha) as Hnd. rewrite !NoDup_cons, !not_elem_of_cons in Hnd.
    set (r := Areq i0 i1 i2 b w).
    assert (u32 (vb_blockno (vbufs s b) * (BSIZE / 512)) = disk_block (vb_blockno (vbufs s1 b)) * 2) as ->.
    { rewrite R8. apply sector_block. }
    exists [i0; i1; i2], (queued s1 b w (disk_block (vb_blockno (vbufs s1 b)) * 2) i0 i1 i2), r.
    split; [by rewrite (bind_run _ _ _ _ _ (queue_run s1 b w _ i0 i1 i2))|]. split_and!; [done | done | done |].
    assert (vcore (queued s1 b w (disk_block (vb_blockno (vbufs s1 b)) * 2) i0 i1 i2) (r :: q ++ f ++ v ++ n)) as Hc'.
    { apply (core_add s s1); [done | done | done | done | apply queued_chained; naive_solver |].
      intros r' _ Hi Hch. apply queued_other; [done|]. revert Hch. apply chained_ext; [by rewrite (af_desc _ _ _ Ha) | congruence..]. }
    pose proof (vcore_few _ _ Hc') as Hfew. cbn [length] in Hfew. rewrite !length_app in Hfew.
    assert (vcore (queued s1 b w (disk_block (vb_blockno (vbufs s1 b)) * 2) i0 i1 i2) ((q ++ [r]) ++ f ++ v ++ n)) as Hc2.
    { eapply vcore_perm; [|exact Hc']. rewrite <- app_assoc. cbn [app]. apply Permutation_middle. }
    split; [split; [exact Hc2|..]|..]; cbn [queued drv dev vbufs v_avail v_avail_idx v_used_idx v_info_status sp_media sp_block sp_data sp_req];
      rewrite ?R1, ?R2, ?R3, ?R5, ?R7, ?R8.
    + intros r' Hr. destruct (decide (a_b r' = b)) as [->|Hne]; [by rewrite fn_lookup_insert|].
      rewrite fn_lookup_insert_ne by congruence. apply Hbusy. rewrite <- app_assoc in Hr. cbn [app] in Hr.
      rewrite elem_of_app, elem_of_cons in Hr. rewrite elem_of_app. destruct Hr as [?|[E'|?]]; [by left | by rewrite E' in Hne | by right].
    + intros r' Hr. rewrite fn_lookup_insert_ne; [by apply Hidle|]. intros E'. apply Hnb. rewrite E'.
      apply list_elem_of_fmap_2. rewrite !elem_of_app. auto.
    + intros r' Hr. rewrite fn_lookup_insert_ne; [by apply Hdone|]. intros E'.
      destruct (af_were _ _ _ Ha i0) as [Hlt Hf1]; [by left|]. rewrite (vc_free _ _ Hc) in Hf1 by done.
      rewrite decide_True in Hf1; [done|]. apply elem_of_idxs. exists r'. split; [rewrite E'; by left | rewrite !elem_of_app; auto].
    + unfold u16. rewrite ring_push; [| unfold NUM; lia | lia | exact NUM_div | exact Hl1 | ..].
      * rewrite Hav. unfold heads. by rewrite map_app.
      * apply (ring_few _ _ _ q q Hav); lia.
      * apply (ring_few _ _ _ q q Hav); lia.
    + done.
    + done.
    + split; [by rewrite length_insert | done].
    + split_and!; try lia; unfold u16; apply Z.mod_pos_bound; lia.
    + intros b'. destruct (decide (b' = b)) as [->|]; [rewrite fn_lookup_insert; apply Hblk | rewrite fn_lookup_insert_ne by congruence; apply Hblk].
    + done.
    + intros b'. destruct (decide (b' = b)) as [->|]; [rewrite fn_lookup_insert; apply Rb | rewrite fn_lookup_insert_ne by congruence; apply Rb].
    + intros b'. destruct (decide (b' = b)) as [->|]; [rewrite fn_lookup_insert; apply Rd | rewrite fn_lookup_insert_ne by congruence; apply Rd].
    + rewrite Rr. rewrite <- app_assoc. cbn [app]. symmetry. apply (reqs_pending q r f (v ++ n)).
      rewrite <- app_assoc. cbn [app]. rewrite map_app. cbn [map]. rewrite <- Permutation_middle, <- map_app. by apply NoDup_cons; split; [|apply (vc_bufs _ _ Hc)].
  - right. exists s1. split; [done|]. pose proof Hrest as [R1 R2 R3 R4 R5 R6 R7 R8].
    split; [split|..]; rewrite ?R1, ?R2, ?R3, ?R4, ?R5, ?R6, ?R7, ?R8; try done. by eapply core_rest.
Qed.

(** The steps of the device *)

Lemma heads_cons_nil (l : list areq) r w buf : 0 <= r < 2 ^ 16 -> 0 <= w < 2 ^ 16 ->
  ring NUM 16 buf r w = heads l ->
  match l with
  | [] => r = w
  | x :: l' => r <> w /\ Z.of_nat (a_i0 x) = default 0 (buf !! slot NUM r) /\ ring NUM 16 buf (u16 (r + 1)) w = heads l'
  end.
Proof.
  intros Hr Hw E. pose proof (f_equal length E) as El. rewrite length_ring, heads_length in El.
  pose proof (ahead_range 16 ltac:(lia) r w). destruct l as [|x l'].
  - apply (ahead_zero 16); try lia. cbn [length] in El. lia.
  - cbn [length] in El. rewrite ring_pop in E; [|unfold NUM; lia | lia | exact NUM_div | lia]. cbn [heads map] in E.
    injection E as E1 E2. split_and!; [|done|done]. intros ->. rewrite ahead_self in El. lia.
Qed.

Lemma fetch_refines s a q f v n : refines s a q f v n ->
  exists q' f', refines (dev_fetch s) a q' f' v n /\ q' ++ f' ++ v ++ n ≡ₚ q ++ f ++ v ++ n.
Proof.
  intros Href. pose proof Href as [[Hc Hbusy Hidle Hdone Hav Hwork Hused [Hl1 Hl2] [Hi1 [Hi2 [Hi3 Hi4]]] Hblk] Rm Rb Rd Rr].
  pose proof (heads_cons_nil q _ _ _ Hi2 Hi1 Hav) as Hq. unfold dev_fetch. destruct q as [|x q].
  - rewrite Hq, Z.eqb_refl. by exists [], f.
  - destruct Hq as (Hne & Hx & Hq). destruct (Z.eqb_spec (e_avail (dev s)) (v_avail_idx (drv s))); [done|].
    assert (q ++ (f ++ [x]) ++ v ++ n ≡ₚ x :: q ++ f ++ v ++ n) as Hp.
    { rewrite <- (app_assoc f). cbn [app]. rewrite <- Permutation_middle. symmetry. apply Permutation_middle. }
    exists q, (f ++ [x]). split; [|done].
    split; [split|..]; cbn [drv dev vbufs vk e_used e_used_idx e_avail e_work e_media]; auto.
    + eapply vcore_perm; [symmetry; exact Hp|]. apply (vcore_ext s); [done | | exact Hc]. intros r _. by apply chained_ext.
    + intros r Hr. apply Hbusy. rewrite <- app_assoc in Hr. cbn [app] in *. rewrite !elem_of_app, !elem_of_cons, !elem_of_app in *. naive_solver.
    + by rewrite Hwork, <- Hx; unfold heads; rewrite map_app.
    + split_and!; try lia; unfold u16; apply Z.mod_pos_bound; lia.
    + rewrite Rr. apply list_to_map_proper.
      * fold (keyed ((x :: q) ++ f) (v ++ n)). rewrite keyed_fst. rewrite <- app_assoc. apply (vc_bufs _ _ Hc).
      * apply Permutation_app; [|done]. apply Permutation_map. rewrite app_assoc. by rewrite <- Permutation_cons_append.
Qed.

Lemma parse_chained s r : chained s r ->
  parse_chain (drv s) (a_i0 r) = Some (a_w r, disk_block (vb_blockno (vbufs s (a_b r))), a_b r, a_i0 r).
Proof.
  intros [D0 D1 D2 D3 _]. unfold parse_chain. rewrite D0. cbn [d_addr d_next d_len d_flags].
  rewrite Nat2Z.id, D1. cbn [d_addr d_next d_len d_flags]. rewrite Nat2Z.id, D2. cbn [d_addr d_next d_len d_flags]. rewrite D3.
  cbn [rq_type rq_sector]. unfold wflags. change (BSIZE / 512) with 2. rewrite !Z.mod_mul, Z.div_mul by lia. destruct (a_w r); reflexivity.
Qed.

(** The state dev_serve makes of request [r]. *)
Definition served (s : vst) (r : areq) (work : list Z) : vst :=
  let v := drv s in let e := dev s in let bf := vbufs s (a_b r) in
  Vst (Drv (v_desc v) (v_avail v) (v_avail_idx v) (v_free v) (v_used_idx v) (v_info_b v)
        (<[a_i0 r := 0]> (v_info_status v)) (v_ops v))
    (Dev (<[slot NUM (e_used_idx e) := Z.of_nat (a_i0 r)]> (e_used e)) (u16 (e_used_idx e + 1)) (e_avail e) work
       (if a_w r then <[disk_block (vb_blockno bf) := vb_data bf]> (e_media e) else e_media e))
    (if a_w r then vbufs s else <[a_b r := Vbuf (vb_disk bf) (vb_blockno bf) (e_media e (disk_block (vb_blockno bf)))]> (vbufs s)) (vk s).

Lemma served_buf s r work b :
  vb_disk (vbufs (served s r work) b) = vb_disk (vbufs s b) /\ vb_blockno (vbufs (served s r work) b) = vb_blockno (vbufs s b).
Proof.
  unfold served. cbn [vbufs]. destruct (a_w r); [done|]. destruct (decide (b = a_b r)) as [->|].
  - by rewrite fn_lookup_insert.
  - by rewrite fn_lookup_insert_ne.
Qed.


Lemma served_refines s a q pre x post v n :
  refines s a q (pre ++ x :: post) v n ->
  refines (served s x (heads (pre ++ post))) (transfer a (a_b x) (a_w x)) q (pre ++ post) (v ++ [x]) n /\
  sp_req a !! a_b x = Some (a_w x, false).
Proof.
  intros Href. pose proof Href as [[Hc Hbusy Hidle Hdone Hav Hwork Hused [Hl1 Hl2] [Hi1 [Hi2 [Hi3 Hi4]]] Hblk] Rm Rb Rd Rr].
  assert (q ++ (pre ++ x :: post) ++ v ++ n ≡ₚ q ++ (pre ++ post) ++ (v ++ [x]) ++ n) as Hp.
  { apply Permutation_app_head. rewrite <- !app_assoc. cbn [app]. apply Permutation_app_head.
    rewrite !app_assoc. cbn [app]. apply Permutation_middle. }
  pose proof (vcore_few _ _ Hc) as Hfew. rewrite !length_app in Hfew. cbn [length] in Hfew.
  assert (NoDup (map a_b (((q ++ pre) ++ x :: post) ++ v ++ n))) as Hnd1.
  { pose proof (vc_bufs _ _ Hc) as Hb. rewrite <- !app_assoc in *. exact Hb. }
  assert (NoDup (map a_b ((q ++ pre ++ post) ++ v ++ x :: n))) as Hnd2.
  { pose proof (vc_bufs _ _ Hc) as Hb. rewrite (Permutation_map a_b Hp) in Hb. rewrite <- !app_assoc in *. exact Hb. }
  destruct (reqs_pending _ _ _ _ Hnd1) as [Q1 Q2]. destruct (reqs_done _ _ _ _ Hnd2) as [Q3 _].
  assert (sp_req a = <[a_b x := (a_w x, false)]> (reqs (q ++ pre ++ post) (v ++ n))) as Ereq.
  { rewrite Rr, <- app_assoc in *. rewrite <- app_assoc in Q1. exact Q1. }
  split; [|by rewrite Ereq, lookup_insert_eq].
  assert (forall r, chained s r -> chained (served s x (heads (pre ++ post))) r) as Hch.
  { intros r. apply chained_ext; try done. apply served_buf. }
  split; [split|..]; cbn [served drv dev v_avail v_avail_idx v_used_idx v_info_status e_used e_used_idx e_avail e_work];
    try (by intros r Hr; destruct (served_buf s x (heads (pre ++ post)) (a_b r)) as [-> _]; auto).
  - eapply vcore_perm; [exact Hp|]. apply (vcore_ext s); [done | auto | exact Hc].
  - intros r Hr. destruct (served_buf s x (heads (pre ++ post)) (a_b r)) as [-> _]. apply Hbusy.
    rewrite !elem_of_app, ?elem_of_cons, ?elem_of_app in *. rewrite elem_of_nil in Hr. naive_solver.
  - intros r Hr. destruct (decide (a_i0 r = a_i0 x)) as [->|Hne]; [by rewrite fn_lookup_insert|].
    rewrite fn_lookup_insert_ne by congruence. apply Hdone.
    apply elem_of_app in Hr as [?| ->%list_elem_of_singleton]; done.
  - exact Hav.
  - done.
  - unfold u16. rewrite ring_push; [| unfold NUM; lia | lia | exact NUM_div | exact Hl2 | ..].
    + rewrite Hused. unfold heads. by rewrite map_app.
    + apply (ring_few _ _ _ v v Hused); lia.
    + apply (ring_few _ _ _ v v Hused); lia.
  - split; [done | by rewrite length_insert].
  - split_and!; try lia; unfold u16; apply Z.mod_pos_bound; lia.
  - intros b. destruct (served_buf s x (heads (pre ++ post)) b) as [_ ->]. apply Hblk.
  - intros k. unfold served, transfer. cbn [dev e_media]. destruct (a_w x); cbn [sp_media]; [|apply Rm].
    rewrite Rb. destruct (decide (k = disk_block (sp_block a (a_b x)))) as [->|]; [rewrite !fn_lookup_insert; apply Rd | rewrite !fn_lookup_insert_ne by done; apply Rm].
  - intros b. destruct (served_buf s x (heads (pre ++ post)) b) as [_ ->]. rewrite Rb. unfold transfer. by destruct (a_w x).
  - intros b. unfold served, transfer. cbn [vbufs]. destruct (a_w x); cbn [sp_data]; [apply Rd|].
    destruct (decide (b = a_b x)) as [->|]; [rewrite !fn_lookup_insert; cbn [vb_data]; by rewrite Rb, Rm | rewrite !fn_lookup_insert_ne by done; apply Rd].
  - rewrite <- app_assoc. cbn [app]. rewrite Q3. transitivity (<[a_b x := (a_w x, true)]> (sp_req a)); [by destruct (a_w x) eqn:Ew; unfold transfer; rewrite ?Ew|].
    by rewrite Ereq, insert_insert_eq.
Qed.

Lemma dev_serve_run s pre x work :
  chained s x ->
  dev_serve s (heads pre) (Z.of_nat (a_i0 x)) (heads work) = Some (served s x (heads (pre ++ work))).
Proof.
  intros Hc. unfold dev_serve. rewrite Nat2Z.id, parse_chained by done. unfold served, heads. by rewrite map_app.
Qed.

(** The interrupt handler *)

(** The state an iteration of the handler makes for request [x]. *)
Definition handled (s : vst) (x : areq) : vst :=
  let v := drv s in let bf := vbufs s (a_b x) in
  Vst (Drv (v_desc v) (v_avail v) (v_avail_idx v) (v_free v) (u16 (v_used_idx v + 1)) (v_info_b v) (v_info_status v) (v_ops v))
    (dev s) (<[a_b x := Vbuf 0 (vb_blockno bf) (vb_data bf)]> (vbufs s)) (env_wakeup (buf_chan (a_b x)) (vk s)).

Lemma intr_step s fuel x :
  v_used_idx (drv s) <> e_used_idx (dev s) ->
  Z.of_nat (a_i0 x) = default 0 (e_used (dev s) !! slot NUM (v_used_idx (drv s))) ->
  v_info_status (drv s) (a_i0 x) = 0 -> v_info_b (drv s) (a_i0 x) = Some (a_b x) ->
  intr_loop (S fuel) s = intr_loop fuel (handled s x).
Proof.
  intros Hne Hx Hs Hb. cbn [intr_loop]. erewrite bind_run by reflexivity.
  destruct (Z.eqb_spec (v_used_idx (drv s)) (e_used_idx (dev s))); [done|]. rewrite <- Hx, Nat2Z.id, Hs, Hb. cbn [nz Z.eqb negb].
  destruct s as [[d av ai fr ui ib st o] e vb k]. cbn [drv v_used_idx].
  rewrite (bind_run _ _ _ _ _ (set_bdisk_run _ _ _ _ _ _)). erewrite bind_run by reflexivity. erewrite bind_run by reflexivity. done.
Qed.

Lemma handled_refines s a q f x v n :
  refines s a q f (x :: v) n -> refines (handled s x) a q f v (n ++ [x]).
Proof.
  intros Href. pose proof Href as [[Hc Hbusy Hidle Hdone Hav Hwork Hused [Hl1 Hl2] [Hi1 [Hi2 [Hi3 Hi4]]] Hblk] Rm Rb Rd Rr].
  assert (q ++ f ++ (x :: v) ++ n ≡ₚ q ++ f ++ v ++ n ++ [x]) as Hp.
  { do 2 apply Permutation_app_head. rewrite app_assoc. apply Permutation_cons_append. }
  assert (q ++ f ++ (x :: v) ++ n ≡ₚ x :: q ++ f ++ v ++ n) as Hp2.
  { cbn [app]. by rewrite !(Permutation_middle _ _ x). }
  assert (forall r, r ∈ q ++ f ++ v ++ n -> a_b r <> a_b x) as Hap.
  { pose proof (vcore_perm _ _ _ Hp2 Hc) as Hc'. apply vcore_apart in Hc' as (_ & Hb & _). exact Hb. }
  assert (forall b, vb_blockno (vbufs (handled s x) b) = vb_blockno (vbufs s b) /\ vb_data (vbufs (handled s x) b) = vb_data (vbufs s b)) as Hsame.
  { intros b. unfold handled. cbn [vbufs]. destruct (decide (b = a_b x)) as [->|]; [by rewrite fn_lookup_insert | by rewrite fn_lookup_insert_ne]. }
  pose proof (heads_cons_nil _ _ _ _ Hi3 Hi4 Hused) as (_ & _ & Hv).
  split; [split|..]; try done; cbn [handled drv dev vbufs v_used_idx v_info_status v_avail v_avail_idx].
  - eapply vcore_perm; [exact Hp|]. apply (vcore_ext s); [done | | exact Hc]. intros r _. apply chained_ext; try done. apply Hsame.
  - intros r Hr. rewrite fn_lookup_insert_ne; [apply Hbusy | symmetry; apply Hap]; rewrite !elem_of_app, ?elem_of_cons in *; tauto.
  - intros r [Hr| ->%list_elem_of_singleton]%elem_of_app; [|by rewrite fn_lookup_insert].
    rewrite fn_lookup_insert_ne; [by apply Hidle | symmetry; apply Hap; rewrite !elem_of_app; tauto].
  - intros r Hr. apply Hdone. by right.
  - split_and!; try lia; unfold u16; apply Z.mod_pos_bound; lia.
  - intros b. destruct (Hsame b) as [E _]. unfold handled in E. cbn [vbufs] in E. rewrite E. apply Hblk.
  - intros b. destruct (Hsame b) as [E _]. unfold handled in E. cbn [vbufs] in E. by rewrite E.
  - intros b. destruct (Hsame b) as [_ E]. unfold handled in E. cbn [vbufs] in E. by rewrite E.
  - rewrite Rr. apply list_to_map_proper.
    + fold (keyed (q ++ f) ((x :: v) ++ n)). rewrite keyed_fst, <- app_assoc. apply (vc_bufs _ _ Hc).
    + apply Permutation_app; [done|]. apply Permutation_map. rewrite app_assoc. apply Permutation_cons_append.
Qed.

Lemma intr_loop_refines v : forall fuel s a q f n,
  refines s a q f v n -> (length v < fuel)%nat ->
  exists s', intr_loop fuel s = Ok tt s' /\ refines s' a q f [] (n ++ v).
Proof.
  induction v as [|x v IH]; intros [|fuel] s a q f n Href Hf; cbn [length] in Hf; try lia;
    pose proof Href as [[Hc Hbusy Hidle Hdone Hav Hwork Hused [Hl1 Hl2] [Hi1 [Hi2 [Hi3 Hi4]]] Hblk] Rm Rb Rd Rr];
    pose proof (heads_cons_nil _ _ _ _ Hi3 Hi4 Hused) as Hv.
  - exists s. split; [|by rewrite app_nil_r]. cbn [intr_loop]. erewrite bind_run by reflexivity. by rewrite Hv, Z.eqb_refl.
  - destruct Hv as (Hne & Hx & _). rewrite (intr_step s fuel x); [ | done | done | by apply Hdone; left |].
    + destruct (IH fuel (handled s x) a q f (n ++ [x])) as (s' & E & R); [by apply handled_refines | lia |].
      exists s'. split; [done|]. by rewrite <- app_assoc in R.
    + apply ch_info, (vc_chain _ _ Hc). rewrite !elem_of_app. do 2 right. left. by left.
Qed.

Lemma intr_refines s a q f v n : refines s a q f v n ->
  exists s', virtio_disk_intr s = Ok tt s' /\ refines s' a q f [] (n ++ v).
Proof.
  intros Href. apply intr_loop_refines; [done|]. pose proof (vcore_few _ _ (vi_core _ _ _ _ _ (rf_inv _ _ _ _ _ _ Href))) as Hl.
  rewrite !length_app in Hl. unfold NUM. lia.
Qed.

(** The end of a request *)

Lemma free_chain_step fuel i s d :
  (i < 8)%nat -> v_free (drv s) i = 0 -> v_desc (drv s) i = d ->
  exists s', free_chain (S fuel) i s =
      (if nz (Z.land (d_flags d) VRING_DESC_F_NEXT) then free_chain fuel (Z.to_nat (d_next d)) else ret tt) s' /\
    v_free (drv s') = <[i := 1]> (v_free (drv s)) /\ v_desc (drv s') = <[i := Vdesc ANull 0 0 0]> (v_desc (drv s)) /\ same_rest s s'.
Proof.
  intros Hi Hf Hd. destruct (free_desc_run i s Hi Hf) as (s' & E & F & D & R). exists s'. split; [|done].
  cbn [free_chain]. erewrite bind_run by reflexivity. rewrite Hd. by rewrite (bind_run _ _ _ _ _ E).
Qed.

Lemma free_chain_run s r :
  chained s r -> NoDup (a_idx r) -> (forall i, i ∈ a_idx r -> (i < 8)%nat /\ v_free (drv s) i = 0) ->
  exists s', free_chain (Z.to_nat NUM) (a_i0 r) (Vst (Drv (v_desc (drv s)) (v_avail (drv s)) (v_avail_idx (drv s))
       (v_free (drv s)) (v_used_idx (drv s)) (<[a_i0 r := None]> (v_info_b (drv s))) (v_info_status (drv s)) (v_ops (drv s)))
       (dev s) (vbufs s) (vk s)) = Ok tt s' /\
    (forall i, v_free (drv s') i = if decide (i ∈ a_idx r) then 1 else v_free (drv s) i) /\
    (forall i, i ∉ a_idx r -> v_desc (drv s') i = v_desc (drv s) i) /\
    v_info_b (drv s') = <[a_i0 r := None]> (v_info_b (drv s)) /\
    v_avail (drv s') = v_avail (drv s) /\ v_avail_idx (drv s') = v_avail_idx (drv s) /\ v_used_idx (drv s') = v_used_idx (drv s) /\
    v_info_status (drv s') = v_info_status (drv s) /\ v_ops (drv s') = v_ops (drv s) /\ dev s' = dev s /\ vbufs s' = vbufs s.
Proof.
  intros [D0 D1 D2 _ _] Hnd Hi. match goal with |- context [free_chain _ _ ?t] => set (s0 := t) end.
  destruct r as [i0 i1 i2 b w]. cbn [a_i0 a_i1 a_i2 a_b a_w] in *. change (a_idx (Areq i0 i1 i2 b w)) with [i0; i1; i2] in *.
  rewrite !NoDup_cons, !not_elem_of_cons in Hnd. destruct Hnd as [(N01 & N02 & _) [(N12 & _) _]].
  destruct (Hi i0) as [L0 F0]; [set_solver|]. destruct (Hi i1) as [L1 F1]; [set_solver|]. destruct (Hi i2) as [L2 F2]; [set_solver|].
  change (Z.to_nat NUM) with 8%nat.
  destruct (free_chain_step 7 i0 s0 _ L0 F0 D0) as (s1 & E1 & G1 & K1 & R1). rewrite E1. cbn [d_flags d_next]. rewrite Nat2Z.id. clear E1.
  destruct (free_chain_step 6 i1 s1 (Vdesc (AData b) BSIZE (wflags w) (Z.of_nat i2)) L1) as (s2 & E2 & G2 & K2 & R2).
  { rewrite G1, fn_lookup_insert_ne by done. exact F1. }
  { rewrite K1, fn_lookup_insert_ne by done. exact D1. }
  change (nz (Z.land VRING_DESC_F_NEXT VRING_DESC_F_NEXT)) with true. cbn iota. rewrite E2. cbn [d_flags d_next]. rewrite Nat2Z.id. clear E2.
  assert (nz (Z.land (wflags w) VRING_DESC_F_NEXT) = true) as -> by by destruct w.
  destruct (free_chain_step 5 i2 s2 (Vdesc (AStatus i0) 1 VRING_DESC_F_WRITE 0) L2) as (s3 & E3 & G3 & K3 & R3).
  { rewrite G2, G1, !fn_lookup_insert_ne by done. exact F2. }
  { rewrite K2, K1, !fn_lookup_insert_ne by done. exact D2. }
  exists s3. split; [exact E3|]. destruct (same_rest_trans _ _ _ R1 (same_rest_trans _ _ _ R2 R3)) as [Q1 Q2 Q3 Q4 Q5 Q6 Q7 Q8].
  split_and!; try done.
  - intros i. rewrite G3, G2, G1. destruct (decide (i ∈ [i0; i1; i2])) as [Hin|Hin]; rewrite !elem_of_cons, elem_of_nil in Hin.
    + destruct (decide (i = i2)) as [->|]; [by rewrite fn_lookup_insert|]. rewrite fn_lookup_insert_ne by done.
      destruct (decide (i = i1)) as [->|]; [by rewrite fn_lookup_insert|]. rewrite fn_lookup_insert_ne by done.
      destruct (decide (i = i0)) as [->|]; [by rewrite fn_lookup_insert|]. tauto.
    + by rewrite !fn_lookup_insert_ne by naive_solver.
  - intros i Hin. rewrite !not_elem_of_cons in Hin. destruct Hin as (? & ? & ? & _). by rewrite K3, K2, K1, !fn_lookup_insert_ne.
Qed.

Lemma end_waits s a q f v n x : refines s a q f v n -> x ∈ q ++ f ++ v ->
  virtio_disk_end (a_b x) (a_idx x) s = Ok (RSleep (buf_chan (a_b x))) s.
Proof.
  intros Href Hx. unfold virtio_disk_end. erewrite bind_run by reflexivity.
  rewrite (vi_busy _ _ _ _ _ (rf_inv _ _ _ _ _ _ Href)) by done. done.
Qed.

(** The core without a request whose descriptors are free. *)
Lemma core_remove s s' x l :
  vcore s (x :: l) -> (forall i, v_free (drv s') i = if decide (i ∈ a_idx x) then 1 else v_free (drv s) i) ->
  (forall r, r ∈ l -> (forall i, i ∈ a_idx r -> i ∉ a_idx x) -> chained s r -> chained s' r) -> vcore s' l.
Proof.
  intros Hc Hf Hch. pose proof (vcore_apart _ _ _ Hc) as (Hap & _). destruct Hc as [C1 C2 C3 C4 C5].
  change (idxs (x :: l)) with (a_idx x ++ idxs l) in *. apply NoDup_app in C1 as (N1 & N2 & N3). cbn [map] in C4. apply NoDup_cons in C4 as [_ B].
  split; [done | | | done |].
  - intros i Hi. apply C2, elem_of_app. by right.
  - intros i Hi. rewrite Hf, C3 by done. destruct (decide (i ∈ a_idx x)) as [Hx|Hx].
    + rewrite decide_False; [done|]. by apply N2.
    + apply decide_ext. rewrite elem_of_app. tauto.
  - intros r Hr. apply Hch; [done | by intros i; apply Hap | apply C5; by right].
Qed.

Lemma end_returns s a q f v n1 x n2 : refines s a q f v (n1 ++ x :: n2) ->
  sp_req a !! a_b x = Some (a_w x, true) /\
  exists s', virtio_disk_end (a_b x) (a_idx x) s = Ok RDone s' /\
    refines s' (Spec (sp_media a) (sp_block a) (sp_data a) (delete (a_b x) (sp_req a))) q f v (n1 ++ n2).
Proof.
  intros Href. pose proof Href as [[Hc Hbusy Hidle Hdone Hav Hwork Hused [Hl1 Hl2] Hi Hblk] Rm Rb Rd Rr].
  assert (q ++ f ++ v ++ n1 ++ x :: n2 ≡ₚ x :: q ++ f ++ v ++ n1 ++ n2) as Hp.
  { by rewrite !(Permutation_middle _ _ x). }
  pose proof (vcore_perm _ _ _ Hp Hc) as Hc'.
  assert (NoDup (map a_b ((q ++ f) ++ (v ++ n1) ++ x :: n2))) as Hnd.
  { pose proof (vc_bufs _ _ Hc) as Hb. rewrite <- !app_assoc in *. exact Hb. }
  destruct (reqs_done _ _ _ _ Hnd) as [Q1 Q2]. rewrite <- (app_assoc v n1 (x :: n2)) in Q1. rewrite <- (app_assoc v n1 n2) in Q1, Q2. rewrite <- Rr in Q1. split; [by rewrite Q1, lookup_insert_eq|].
  assert (x ∈ q ++ f ++ v ++ n1 ++ x :: n2) as Hx by (rewrite Hp; by left).
  assert (vb_disk (vbufs s (a_b x)) = 0) as Hd by (apply Hidle; rewrite elem_of_app; right; by left).
  destruct (vcore_apart _ _ _ Hc') as (Hap1 & _ & Hap3).
  destruct (free_chain_run s x) as (s' & E & F & D & I & A1 & A2 & A3 & A4 & A5 & A6 & A7); [by apply (vc_chain _ _ Hc) | | |].
  { pose proof (vc_nodup _ _ Hc') as N. change (idxs (x :: ?l)) with (a_idx x ++ idxs l) in N. by apply NoDup_app in N as [? _]. }
  { intros i Hin. assert (i ∈ idxs (q ++ f ++ v ++ n1 ++ x :: n2)) by (apply elem_of_idxs; eauto).
    assert (i < 8)%nat by (by apply (vc_lt _ _ Hc)). rewrite (vc_free _ _ Hc) by done. by rewrite decide_True. }
  exists s'. split.
  { unfold virtio_disk_end. erewrite bind_run by reflexivity. rewrite Hd. cbn [Z.eqb a_idx hd]. destruct s as [[d av ai fr ui ib st o] e vb k].
    rewrite (bind_run _ _ _ _ _ (set_info_b_run _ _ _ _ _ _ _ _ _ _ _ _ _)), (bind_run _ _ _ _ _ E). done. }
  split; [split|..]; rewrite ?A1, ?A2, ?A3, ?A4, ?A5, ?A6, ?A7; cbn [sp_media sp_block sp_data sp_req]; try done.
  - apply (core_remove s s' x); [done | done |]. intros r Hr Hdis Hch.
    revert Hch. apply chained_ext; [intros i Hin; apply D, (Hdis i Hin) | by rewrite A5 | | by rewrite A7].
    rewrite I, fn_lookup_insert_ne; [done|]. intros E'. apply (Hdis (a_i0 r)); [by left|]. rewrite <- E'. by left.
  - intros r Hr. apply Hidle. rewrite elem_of_app, elem_of_cons in *. tauto.
  - by rewrite Q1, delete_insert_id.
Qed.

(** ** The whole system

    Processes in virtio_disk_rw, with the idx array each keeps on its stack
    while its buffer is under way, the interrupt handler and the device. *)

Abbreviation sys := (vst * gmap nat (list nat))%type.

(** A process changes a buffer it holds that is not under way. *)
Definition own (s : vst) (b : nat) (n : Z) (d : block) : vst :=
  Vst (drv s) (dev s) (<[b := Vbuf (vb_disk (vbufs s b)) n d]> (vbufs s)) (vk s).

Inductive sys_step : sys -> vlabel -> sys -> Prop :=
  | sy_start b wr idx s s' w : w !! b = None -> virtio_disk_start b wr s = Ok (RWait idx) s' ->
      sys_step (s, w) (LSubmit b wr) (s', <[b := idx]> w)
  | sy_full b wr c s s' w : w !! b = None -> virtio_disk_start b wr s = Ok (RSleep c) s' -> sys_step (s, w) LTau (s', w)
  | sy_wait b idx c s s' w : w !! b = Some idx -> virtio_disk_end b idx s = Ok (RSleep c) s' -> sys_step (s, w) LTau (s', w)
  | sy_end b idx s s' w : w !! b = Some idx -> virtio_disk_end b idx s = Ok RDone s' ->
      sys_step (s, w) (LReturn b) (s', delete b w)
  | sy_intr s s' w : virtio_disk_intr s = Ok tt s' -> sys_step (s, w) LTau (s', w)
  | sy_fetch s w : sys_step (s, w) LTau (dev_fetch s, w)
  | sy_serve pre h post s s' w : e_work (dev s) = pre ++ h :: post -> dev_serve s pre h post = Some s' -> sys_step (s, w) LTau (s', w)
  | sy_own b n d s w : w !! b = None -> 0 <= n < 2 ^ 32 -> sys_step (s, w) (LOwner b n d) (own s b n d, w).

Inductive sys_run : sys -> list vlabel -> sys -> Prop :=
  | sr_nil s : sys_run s [] s
  | sr_snoc s ls s1 l s2 : sys_run s ls s1 -> sys_step s1 l s2 -> sys_run s (ls ++ [l]) s2.
Inductive spec_run : spec -> list vlabel -> spec -> Prop :=
  | sp_nil a : spec_run a [] a
  | sp_snoc a ls a1 l a2 : spec_run a ls a1 -> spec_step a1 l a2 -> spec_run a (ls ++ [l]) a2.

(** Nothing the driver or the device may do next fails. *)
Record sys_safe (s : vst) (w : gmap nat (list nat)) : Prop := {
  ss_start : forall b wr, w !! b = None -> exists o s', virtio_disk_start b wr s = Ok o s' /\ o <> RDone;
  ss_end : forall b idx, w !! b = Some idx -> exists o s', virtio_disk_end b idx s = Ok o s';
  ss_intr : exists s', virtio_disk_intr s = Ok tt s';
  ss_serve : forall pre h post, e_work (dev s) = pre ++ h :: post -> exists s', dev_serve s pre h post = Some s';
}.

Record sys_rel (s : vst) (w : gmap nat (list nat)) (a : spec) (q f v n : list areq) : Prop := {
  sl_ref : refines s a q f v n;
  sl_wait : forall b idx, w !! b = Some idx <-> exists r, r ∈ q ++ f ++ v ++ n /\ a_b r = b /\ a_idx r = idx;
}.

Lemma wait_None s w a q f v n b : sys_rel s w a q f v n -> w !! b = None ->
  b ∉ map a_b (q ++ f ++ v ++ n) /\ sp_req a !! b = None.
Proof.
  intros [Href Hw] Hb. assert (b ∉ map a_b (q ++ f ++ v ++ n)) as Hn.
  { intros (r & E & Hr)%list_elem_of_fmap. assert (w !! b = Some (a_idx r)) as E' by (apply Hw; exists r; auto). congruence. }
  split; [done|]. rewrite (rf_req _ _ _ _ _ _ Href). apply reqs_None. by rewrite <- app_assoc.
Qed.

Lemma own_refines s a q f v n b k d :
  refines s a q f v n -> b ∉ map a_b (q ++ f ++ v ++ n) -> 0 <= k < 2 ^ 32 ->
  refines (own s b k d) (Spec (sp_media a) (<[b := k]> (sp_block a)) (<[b := d]> (sp_data a)) (sp_req a)) q f v n.
Proof.
  intros Href Hb Hk. pose proof Href as [[Hc Hbusy Hidle Hdone Hav Hwork Hused Hl Hi Hblk] Rm Rb Rd Rr].
  assert (forall r, r ∈ q ++ f ++ v ++ n -> a_b r <> b) as Hne.
  { intros r Hr <-. apply Hb. by apply list_elem_of_fmap_2. }
  assert (forall b', vb_disk (vbufs (own s b k d) b') = vb_disk (vbufs s b')) as Hd.
  { intros b'. unfold own. cbn [vbufs]. destruct (decide (b' = b)) as [->|]; [by rewrite fn_lookup_insert | by rewrite fn_lookup_insert_ne]. }
  split; [split|..]; try done; cbn [sp_media sp_block sp_data].
  - apply (vcore_ext s); [done | | done]. intros r Hr. apply chained_ext; try done.
    unfold own. cbn [vbufs]. rewrite fn_lookup_insert_ne; [done|]. symmetry. by apply Hne.
  - intros r Hr. rewrite Hd. by apply Hbusy.
  - intros r Hr. rewrite Hd. by apply Hidle.
  - intros b'. unfold own. cbn [vbufs]. destruct (decide (b' = b)) as [->|]; [by rewrite fn_lookup_insert | by rewrite fn_lookup_insert_ne].
  - intros b'. unfold own. cbn [vbufs]. destruct (decide (b' = b)) as [->|]; [by rewrite !fn_lookup_insert | by rewrite !fn_lookup_insert_ne].
  - intros b'. unfold own. cbn [vbufs]. destruct (decide (b' = b)) as [->|]; [by rewrite !fn_lookup_insert | by rewrite !fn_lookup_insert_ne].
Qed.

(** Where the request of a waiting process is. *)
Lemma wait_cases s w a q f v n b idx : sys_rel s w a q f v n -> w !! b = Some idx ->
  exists x, a_b x = b /\ a_idx x = idx /\ (x ∈ q ++ f ++ v \/ exists n1 n2, n = n1 ++ x :: n2).
Proof.
  intros [Href Hw] (x & Hx & Eb & Ei)%Hw. exists x. split_and!; [done | done |].
  rewrite !app_assoc in Hx. apply elem_of_app in Hx as [Hx|Hx]; [left; by rewrite <- app_assoc in Hx | right; by apply list_elem_of_split].
Qed.

Lemma heads_split f pre h post : heads f = pre ++ h :: post ->
  exists f1 x f2, f = f1 ++ x :: f2 /\ pre = heads f1 /\ h = Z.of_nat (a_i0 x) /\ post = heads f2.
Proof.
  revert pre. induction f as [|x f IH]; intros pre E; [by destruct pre|]. destruct pre as [|p pre]; injection E as E1 E2.
  - exists [], x, f. by rewrite E1, <- E2.
  - destruct (IH pre E2) as (f1 & y & f2 & -> & -> & -> & ->). exists (x :: f1), y, f2. by rewrite <- E1.
Qed.

Lemma serve_ok s a q f v n pre h post : refines s a q f v n -> e_work (dev s) = pre ++ h :: post ->
  exists f1 x f2, f = f1 ++ x :: f2 /\ dev_serve s pre h post = Some (served s x (heads (f1 ++ f2))).
Proof.
  intros Href Hw. rewrite (vi_work _ _ _ _ _ (rf_inv _ _ _ _ _ _ Href)) in Hw.
  destruct (heads_split _ _ _ _ Hw) as (f1 & x & f2 & -> & -> & -> & ->). exists f1, x, f2. split; [done|].
  apply dev_serve_run. apply (vc_chain _ _ (vi_core _ _ _ _ _ (rf_inv _ _ _ _ _ _ Href))). rewrite !elem_of_app, elem_of_cons. tauto.
Qed.

Lemma rel_safe s w a q f v n : sys_rel s w a q f v n -> sys_safe s w.
Proof.
  intros Hrel. pose proof Hrel as [Href Hw]. split.
  - intros b wr0 Hb. destruct (wait_None _ _ _ _ _ _ _ _ Hrel Hb) as [Hn Hr].
    destruct (start_queued _ _ _ _ _ _ b wr0 Href Hr Hn) as [(idx & s' & r & E & _)|(s' & E & _)]; by eexists _, _.
  - intros b idx Hb. destruct (wait_cases _ _ _ _ _ _ _ _ _ Hrel Hb) as (x & <- & <- & [Hx|(n1 & n2 & ->)]).
    + rewrite (end_waits _ _ _ _ _ _ _ Href Hx). by eexists _, _.
    + destruct (end_returns _ _ _ _ _ _ _ _ Href) as (_ & s' & E & _). by eexists _, _.
  - destruct (intr_refines _ _ _ _ _ _ Href) as (s' & E & _). by exists s'.
  - intros pre h post E. destruct (serve_ok _ _ _ _ _ _ _ _ _ Href E) as (f1 & x & f2 & _ & E'). by eexists.
Qed.

Lemma sys_rel_perm (w : gmap nat (list nat)) s' a' q f v n q' f' v' n' :
  (forall b idx, w !! b = Some idx <-> exists r, r ∈ q ++ f ++ v ++ n /\ a_b r = b /\ a_idx r = idx) ->
  q' ++ f' ++ v' ++ n' ≡ₚ q ++ f ++ v ++ n -> refines s' a' q' f' v' n' -> sys_rel s' w a' q' f' v' n'.
Proof. intros Hw Hp Href. split; [done|]. intros b idx. rewrite Hw. by setoid_rewrite Hp. Qed.

Lemma start_sim s w a q f v n b wr0 idx s' :
  sys_rel s w a q f v n -> w !! b = None -> virtio_disk_start b wr0 s = Ok (RWait idx) s' ->
  exists a' q', spec_step a (LSubmit b wr0) a' /\ sys_rel s' (<[b := idx]> w) a' q' f v n.
Proof.
  intros Hrel Hb E0. pose proof Hrel as [Href Hw]. destruct (wait_None _ _ _ _ _ _ _ _ Hrel Hb) as [Hn Hr].
  destruct (start_queued _ _ _ _ _ _ b wr0 Href Hr Hn) as [(idx' & s1 & r & E & -> & Eb & Ew & R)|(s1 & E & _)]; [|congruence].
  assert (idx = a_idx r /\ s' = s1) as [-> ->] by (split; congruence).
  eexists _, (q ++ [r]). split; [by apply sp_submit|]. split; [exact R|]. intros b' idx.
  assert (forall r', r' ∈ (q ++ [r]) ++ f ++ v ++ n <-> r' = r \/ r' ∈ q ++ f ++ v ++ n) as Hin.
  { intros r'. rewrite !elem_of_app, list_elem_of_singleton. tauto. }
  setoid_rewrite Hin. destruct (decide (b' = b)) as [->|Hne].
  - rewrite lookup_insert_eq. split; [intros [= <-]; eauto|]. intros (r' & [->|Hr'] & E1 & <-); [done|].
    destruct Hn. rewrite <- E1. by apply list_elem_of_fmap_2.
  - rewrite lookup_insert_ne, Hw by done. split; [naive_solver|]. intros (r' & [->|Hr'] & E1 & E2); [congruence | eauto].
Qed.

Lemma end_sim s w a q f v n b idx s' :
  sys_rel s w a q f v n -> w !! b = Some idx -> virtio_disk_end b idx s = Ok RDone s' ->
  exists a' n', spec_step a (LReturn b) a' /\ sys_rel s' (delete b w) a' q f v n'.
Proof.
  intros Hrel Hb E0. pose proof Hrel as [Href Hw].
  destruct (wait_cases _ _ _ _ _ _ _ _ _ Hrel Hb) as (x & <- & <- & [Hx|(n1 & n2 & ->)]).
  { rewrite (end_waits _ _ _ _ _ _ _ Href Hx) in E0. congruence. }
  destruct (end_returns _ _ _ _ _ _ _ _ Href) as (Er & s1 & E & R). assert (s' = s1) as -> by congruence.
  eexists _, (n1 ++ n2). split; [by eapply sp_return|]. split; [exact R|].
  assert (q ++ f ++ v ++ n1 ++ x :: n2 ≡ₚ x :: q ++ f ++ v ++ n1 ++ n2) as Hp.
  { by rewrite !(Permutation_middle _ _ x). }
  pose proof (vcore_perm _ _ _ Hp (vi_core _ _ _ _ _ (rf_inv _ _ _ _ _ _ Href))) as Hc.
  destruct (vcore_apart _ _ _ Hc) as (_ & Hap & _).
  intros b' idx. destruct (decide (b' = a_b x)) as [->|Hne].
  - rewrite lookup_delete_eq. split; [done|]. intros (r & Hr & E1 & _). by destruct (Hap r Hr).
  - rewrite lookup_delete_ne, Hw by done. setoid_rewrite Hp. setoid_rewrite elem_of_cons. split; [|naive_solver].
    intros (r & [->|Hr] & E1 & E2); [congruence | eauto].
Qed.

Lemma step_sim s w a q f v n l s' w' :
  sys_rel s w a q f v n -> sys_step (s, w) l (s', w') ->
  exists a' q' f' v' n', spec_step a l a' /\ sys_rel s' w' a' q' f' v' n'.
Proof.
  intros Hrel Hstep. pose proof Hrel as [Href Hw].
  inversion Hstep as [b wr0 idx ? ? ? Hb E0|b wr0 c ? ? ? Hb E0|b idx c ? ? ? Hb E0|b idx ? ? ? Hb E0|? ? ? E0| |pre h post ? ? ? Hb E0|b k d ? ? Hb Hk]; subst.
  - destruct (start_sim _ _ _ _ _ _ _ _ _ _ _ Hrel Hb E0) as (a' & q' & ? & ?). by exists a', q', f, v, n.
  - destruct (wait_None _ _ _ _ _ _ _ _ Hrel Hb) as [Hn Hr].
    destruct (start_queued _ _ _ _ _ _ b wr0 Href Hr Hn) as [(idx' & s1 & r & E & _)|(s1 & E & R)]; [congruence|].
    assert (s' = s1) as -> by congruence. exists a, q, f, v, n. split; [constructor | by split].
  - destruct (wait_cases _ _ _ _ _ _ _ _ _ Hrel Hb) as (x & <- & <- & [Hx|(n1 & n2 & ->)]).
    + rewrite (end_waits _ _ _ _ _ _ _ Href Hx) in E0. assert (s' = s) as -> by congruence. exists a, q, f, v, n. split; [constructor | done].
    + destruct (end_returns _ _ _ _ _ _ _ _ Href) as (_ & s1 & E & _). congruence.
  - destruct (end_sim _ _ _ _ _ _ _ _ _ _ Hrel Hb E0) as (a' & n' & ? & ?). by exists a', q, f, v, n'.
  - destruct (intr_refines _ _ _ _ _ _ Href) as (s1 & E & R). assert (s' = s1) as -> by congruence.
    exists a, q, f, [], (n ++ v). split; [constructor|]. eapply sys_rel_perm; [exact Hw | | exact R].
    cbn [app]. by rewrite (Permutation_app_comm n v).
  - destruct (fetch_refines _ _ _ _ _ _ Href) as (q' & f' & R & Hp). exists a, q', f', v, n.
    split; [constructor|]. by eapply sys_rel_perm.
  - destruct (serve_ok _ _ _ _ _ _ _ _ _ Href Hb) as (f1 & x & f2 & -> & E). assert (s' = served s x (heads (f1 ++ f2))) as -> by congruence.
    destruct (served_refines _ _ _ _ _ _ _ _ Href) as [R Er]. eexists _, q, (f1 ++ f2), (v ++ [x]), n.
    split; [by apply sp_transfer|]. eapply sys_rel_perm; [exact Hw | | exact R].
    apply Permutation_app_head. rewrite <- !app_assoc. cbn [app]. apply Permutation_app_head.
    rewrite !app_assoc. symmetry. apply Permutation_middle.
  - destruct (wait_None _ _ _ _ _ _ _ _ Hrel Hb) as [Hn Hr].
    eexists _, q, f, v, n. split; [by apply sp_owner|]. eapply sys_rel_perm; [exact Hw | done | by apply own_refines].
Qed.

(** ** virtio_disk_init *)

(** The system has booted: nothing is under way. *)
Record booted (s : vst) : Prop := {
  bt_free : forall i, (i < 8)%nat -> v_free (drv s) i = 1;
  bt_avail : v_avail_idx (drv s) = 0 /\ e_avail (dev s) = 0 /\ length (v_avail (drv s)) = 8%nat;
  bt_used : v_used_idx (drv s) = 0 /\ e_used_idx (dev s) = 0 /\ length (e_used (dev s)) = 8%nat;
  bt_work : e_work (dev s) = [];
  bt_block : forall b, 0 <= vb_blockno (vbufs s b) < 2 ^ 32;
}.

Lemma booted_rel s : booted s -> sys_rel s ∅ (Spec (e_media (dev s)) (fun b => vb_blockno (vbufs s b)) (fun b => vb_data (vbufs s b)) ∅) [] [] [] [].
Proof.
  intros [Hf (A1 & A2 & A3) (U1 & U2 & U3) Hw Hb]. split.
  - split; [split|..]; try done; try (by intros r Hr; apply elem_of_nil in Hr).
    + split; try (by apply NoDup_nil_2); try (by intros i Hi; apply elem_of_nil in Hi). intros i Hi. rewrite Hf by done.
      by rewrite decide_False by apply not_elem_of_nil.
    + by rewrite A1, A2.
    + by rewrite U1, U2.
    + rewrite A1, A2, U1, U2. lia.
  - intros b idx. rewrite lookup_empty. split; [done|]. intros (r & Hr & _). by apply elem_of_nil in Hr.
Qed.

Section init_ok.
Context `{Mmio U}.

(** A computation that touches neither the driver's data nor the queues. *)
Definition quiet {A} (m : M vst A) : Prop :=
  forall s x s', m s = Ok x s' -> drv s' = drv s /\ dev s' = dev s /\ vbufs s' = vbufs s.

Lemma untouched_bind {A B} (m : M vst A) (g : A -> M vst B) : quiet m -> (forall x, quiet (g x)) -> quiet (bind m g).
Proof.
  intros Hm Hg s x s' (y & s1 & E1 & E2)%bind_Ok.  destruct (Hm _ _ _ E1) as (D1 & D2 & D3). destruct (Hg _ _ _ _ E2) as (D4 & D5 & D6). by rewrite D4, D5, D6.
Qed.
Lemma untouched_ret {A} (x : A) : quiet (ret x).
Proof. by intros s y s' [= <- <-]. Qed.
Lemma untouched_panic {A} msg : quiet (@panic vst A msg).
Proof. by intros s y s'. Qed.
Lemma untouched_rd r : quiet (rd r).
Proof. intros s x s'. unfold rd. destruct (mmio_read r (vk s)). by intros [= <- <-]. Qed.
Lemma untouched_wr r x : quiet (wr r x).
Proof. by intros s y s' [= <- <-]. Qed.
Lemma untouched_kalloc : quiet kalloc_page.
Proof. intros s x s'. unfold kalloc_page. destruct (virtio_kalloc (vk s)). by intros [= <- <-]. Qed.
Lemma untouched_differs l : quiet (rd_differs l).
Proof.
  induction l as [|[r x] l IH]; cbn [rd_differs]; [apply untouched_ret|]. apply untouched_bind; [apply untouched_rd|].
  intros y. destruct (y =? x); [exact IH | apply untouched_ret].
Qed.

Ltac quiet := repeat (first [ apply untouched_bind; [|intros ?] | apply untouched_ret | apply untouched_panic | apply untouched_rd | apply untouched_wr
  | apply untouched_kalloc | apply untouched_differs | match goal with |- quiet (if ?b then _ else _) => destruct b end ]).

Lemma untouched_negotiate : quiet init_negotiate.
Proof. unfold init_negotiate. quiet. Qed.

Lemma free_all_ones l : forall s, exists s',
  for_each l (fun i => set_vfree i 1) s = Ok tt s' /\
  (forall i, v_free (drv s') i = if decide (i ∈ l) then 1 else v_free (drv s) i) /\
  v_avail_idx (drv s') = v_avail_idx (drv s) /\ v_avail (drv s') = v_avail (drv s) /\ v_used_idx (drv s') = v_used_idx (drv s) /\
  dev s' = dev s /\ vbufs s' = vbufs s.
Proof.
  induction l as [|i l IH]; intros s; cbn [for_each].
  - by exists s.
  - erewrite bind_run by reflexivity. destruct (IH (Vst (Drv (v_desc (drv s)) (v_avail (drv s)) (v_avail_idx (drv s)) (<[i := 1]> (v_free (drv s)))
      (v_used_idx (drv s)) (v_info_b (drv s)) (v_info_status (drv s)) (v_ops (drv s))) (dev s) (vbufs s) (vk s))) as (s' & E & F & ? & ? & ? & ? & ?).
    exists s'. split_and!; try done. intros j. rewrite F. cbn [drv v_free]. destruct (decide (j = i)) as [->|Hne].
    + rewrite fn_lookup_insert. rewrite (decide_True (P := i ∈ i :: l)) by by left. by destruct (decide _).
    + rewrite fn_lookup_insert_ne by done. apply decide_ext. rewrite elem_of_cons. tauto.
Qed.

(** The queues after init_queue are empty. *)
Lemma init_queue_ok s s' : init_queue s = Ok tt s' ->
  drv s' = Drv (fun _ => Vdesc ANull 0 0 0) (repeat 0 8) 0 (v_free (drv s)) (v_used_idx (drv s)) (v_info_b (drv s)) (v_info_status (drv s)) (v_ops (drv s)) /\
  dev s' = Dev (repeat 0 8) 0 (e_avail (dev s)) (e_work (dev s)) (e_media (dev s)) /\ vbufs s' = vbufs s.
Proof.
  unfold init_queue. intros (d & s1 & E1 & E)%bind_Ok. apply bind_Ok in E as (av & s2 & E2 & E). apply bind_Ok in E as (u & s3 & E3 & E).
  destruct (untouched_kalloc _ _ _ E1) as (D1 & D2 & D3). destruct (untouched_kalloc _ _ _ E2) as (D4 & D5 & D6). destruct (untouched_kalloc _ _ _ E3) as (D7 & D8 & D9).
  destruct ((d =? 0) || (av =? 0) || (u =? 0)); [done|]. apply bind_Ok in E as ([] & s4 & E4 & E).
  assert (quiet (wr VIRTIO_MMIO_QUEUE_NUM NUM ;; wr VIRTIO_MMIO_QUEUE_DESC_LOW d ;; wr VIRTIO_MMIO_QUEUE_DESC_HIGH (Z.shiftr d 32) ;;
    wr VIRTIO_MMIO_DRIVER_DESC_LOW av ;; wr VIRTIO_MMIO_DRIVER_DESC_HIGH (Z.shiftr av 32) ;; wr VIRTIO_MMIO_DEVICE_DESC_LOW u ;;
    wr VIRTIO_MMIO_DEVICE_DESC_HIGH (Z.shiftr u 32) ;; wr VIRTIO_MMIO_QUEUE_READY 1)) as Hq by quiet.
  destruct (Hq _ _ _ E) as (-> & -> & ->). injection E4 as <-. cbn [drv dev vbufs]. by rewrite D7, D8, D9, D4, D5, D6, D1, D2, D3.
Qed.

Lemma init_boots s s' :
  v_used_idx (drv s) = 0 -> e_avail (dev s) = 0 -> e_work (dev s) = [] -> (forall b, 0 <= vb_blockno (vbufs s b) < 2 ^ 32) ->
  virtio_disk_init s = Ok tt s' ->
  booted s' /\ e_media (dev s') = e_media (dev s) /\ vbufs s' = vbufs s.
Proof.
  intros Hu Ha Hw Hb. unfold virtio_disk_init. intros (st & s1 & E1 & E)%bind_Ok. destruct (untouched_negotiate _ _ _ E1) as (D1 & D2 & D3).
  apply bind_Ok in E as ([] & s2 & E2 & E). destruct (untouched_wr _ _ _ _ _ E2) as (D4 & D5 & D6).
  apply bind_Ok in E as (rdy & s3 & E3 & E). destruct (untouched_rd _ _ _ _ E3) as (D7 & D8 & D9). destruct (nz rdy); [done|].
  apply bind_Ok in E as (mx & s4 & E4 & E). destruct (untouched_rd _ _ _ _ E4) as (D10 & D11 & D12).
  destruct (mx =? 0); [done|]. destruct (mx <? NUM); [done|]. apply bind_Ok in E as ([] & s5 & E5 & E).
  destruct (init_queue_ok _ _ E5) as (Q1 & Q2 & Q3). apply bind_Ok in E as ([] & s6 & E6 & E).
  destruct (free_all_ones (seq 0 (Z.to_nat NUM)) s5) as (s6' & E6' & F1 & F2 & F3 & F4 & F5 & F6).
  rewrite E6 in E6'. injection E6' as <-. destruct (untouched_wr _ _ _ _ _ E) as (W1 & W2 & W3).
  assert (dev s4 = dev s /\ drv s4 = drv s /\ vbufs s4 = vbufs s) as (G1 & G2 & G3) by (split_and!; congruence).
  assert (vbufs s' = vbufs s) as Hbuf by congruence. split; [|split; [|done]].
  - split.
    + intros i Hi. rewrite W1, F1, decide_True; [done|]. apply elem_of_seq. change (Z.to_nat NUM) with 8%nat. lia.
    + rewrite W1, W2, F2, F3, F5, Q1, Q2. cbn [v_avail_idx v_avail e_avail]. split_and!; [done | congruence | done].
    + rewrite W1, W2, F4, F5, Q1, Q2. cbn [v_used_idx e_used_idx e_used]. split_and!; [congruence | done | done].
    + rewrite W2, F5, Q2. cbn [e_work]. congruence.
    + intros b. rewrite Hbuf. apply Hb.
  - rewrite W2, F5, Q2. cbn [e_media]. congruence.
Qed.
End init_ok.

(** Every run of the system is a run of the specification, and is safe. *)
Lemma runs_refine s0 ls s w :
  booted s0 -> sys_run (s0, ∅) ls (s, w) ->
  exists a q f v n, spec_run (Spec (e_media (dev s0)) (fun b => vb_blockno (vbufs s0 b)) (fun b => vb_data (vbufs s0 b)) ∅) ls a /\
    sys_rel s w a q f v n.
Proof.
  intros Hb Hr. remember (s0, ∅) as x eqn:Ex. remember (s, w) as y eqn:Ey. revert s w Ey.
  induction Hr as [x|x ls y1 l y2 Hr IH Hs]; intros s w ->.
  - injection Ex as -> ->. eexists _, [], [], [], []. split; [constructor | by apply booted_rel].
  - destruct y1 as [s1 w1]. destruct (IH Ex s1 w1 eq_refl) as (a1 & q & f & v & n & Ha & Hrel).
    destruct (step_sim _ _ _ _ _ _ _ _ _ _ Hrel Hs) as (a2 & q' & f' & v' & n' & Hstep & Hrel').
    exists a2, q', f', v', n'. split; [by econstructor | done].
Qed.

(** The buffers a process waits for are the requests under way. *)
Lemma rel_dom s w a q f v n : sys_rel s w a q f v n -> dom (sp_req a) = dom w.
Proof.
  intros [Href Hw]. apply set_eq. intros b. rewrite !elem_of_dom. split.
  - intros [x Hx]. destruct (w !! b) as [idx|] eqn:E; [by eexists|]. exfalso.
    destruct (wait_None s w a q f v n b ltac:(by split) E) as [_ E']. congruence.
  - intros [idx (r & Hr & Eb & Ei)%Hw]. rewrite (rf_req _ _ _ _ _ _ Href).
    destruct (reqs (q ++ f) (v ++ n) !! b) as [y|] eqn:E; [by eexists|]. unfold reqs in E. apply not_elem_of_list_to_map in E.
    fold (keyed (q ++ f) (v ++ n)) in E. rewrite keyed_fst, <- app_assoc, <- Eb in E. destruct E. by apply list_elem_of_fmap_2.
Qed.
End virtio.

(** ** The driver is correct *)

(** C6: after virtio_disk_init has returned, whatever processes, the interrupt
    handler and the device do in whatever order, the program sees whole-block
    transfers: every run of virtio_disk_rw, virtio_disk_intr and the device
    is, with the same submissions, returns and buffer changes, a run of the
    specification, in which a request transfers, once between its submission
    and its return, the block of its buffer: the block of that number when it
    is below 2^31, and the one 2^31 below it otherwise, since the sector is
    computed in 32 bits. The blocks of the disk, the data of
    the buffers and the set of buffers under way agree. No panic or null
    buffer is reached and the device never finds a malformed chain. *)
Theorem virtio_refines {U} `{Env U} `{Mmio U} free_chan buf_chan (s0 s1 s : vst) w ls :
  v_used_idx (drv s0) = 0 -> e_avail (dev s0) = 0 -> e_work (dev s0) = [] ->
  (forall b, 0 <= vb_blockno (vbufs s0 b) < 2 ^ 32) ->
  virtio_disk_init s0 = Ok tt s1 -> sys_run free_chan buf_chan (s1, ∅) ls (s, w) ->
  sys_safe free_chan buf_chan s w /\
  exists a, spec_run (Spec (e_media (dev s0)) (fun b => vb_blockno (vbufs s0 b)) (fun b => vb_data (vbufs s0 b)) ∅) ls a /\
    (forall k, e_media (dev s) k = sp_media a k) /\ (forall b, vb_data (vbufs s b) = sp_data a b) /\ dom (sp_req a) = dom w.
Proof.
  intros Hu Ha Hw Hb Hi Hr. destruct (init_boots buf_chan s0 s1 Hu Ha Hw Hb Hi) as (Hboot & Em & Eb).
  destruct (runs_refine free_chan buf_chan s1 ls s w Hboot Hr) as (a & q & f & v & n & Hrun & Hrel). split; [by eapply rel_safe|].
  exists a. rewrite <- Em, <- Eb. split_and!; [done | apply Hrel | apply Hrel | by eapply rel_dom].
Qed.

(** A device as qemu presents it, at a kernel with one free page address. *)
Definition qemu_read (r : Z) (k : tiny) : Z * tiny :=
  (if r =? VIRTIO_MMIO_MAGIC_VALUE then 0x74726976 else if r =? VIRTIO_MMIO_VERSION then 2
   else if r =? VIRTIO_MMIO_DEVICE_ID then 2 else if r =? VIRTIO_MMIO_VENDOR_ID then 0x554d4551
   else if r =? VIRTIO_MMIO_STATUS then 11 else if r =? VIRTIO_MMIO_QUEUE_NUM_MAX then 1024 else 0, k).
#[export] Instance tiny_mmio : Mmio tiny := {
  mmio_read := qemu_read;
  mmio_write _ _ k := k;
  virtio_kalloc k := (0x87fff000, k);
}.

Definition demo0 : vst := Vst
  (Drv (fun _ => Vdesc ANull 0 0 0) [] 0 (fun _ => 0) 0 (fun _ => None) (fun _ => 0) (fun _ => Vreq 0 0))
  (Dev [] 0 0 [] (fun _ => [0])) (fun _ => Vbuf 0 0 []) (Tiny [] false [] []).
Definition after {A} (r : res (@vst tiny) A) : vst := match r with Ok _ s => s | Stop _ s => s end.
Definition demo1 : vst := after (virtio_disk_init demo0).
Definition demo2 : vst := own demo1 3 7 [42].
Definition demo3 : vst := after (virtio_disk_start 1 3 true demo2).
Definition demo4 : vst := dev_fetch demo3.
Definition demo5 : vst := default demo4 (dev_serve demo4 [] 0 []).
Definition demo6 : vst := after (virtio_disk_intr Z.of_nat demo5).
Definition demo7 : vst := after (virtio_disk_end 1 Z.of_nat 3 [0; 1; 2]%nat demo6).

(** A buffer is filled and its write runs to its end: block 7 is on the disk. *)
Lemma virtio_refines_witness :
  sys_run 1 Z.of_nat (demo1, ∅) [LOwner 3 7 [42]; LSubmit 3 true; LTau; LTau; LTau; LReturn 3] (demo7, delete 3%nat (<[3%nat := [0; 1; 2]%nat]> ∅)) /\
  e_media (dev demo7) 7 = [42] /\
  sys_safe 1 Z.of_nat demo7 (delete 3%nat (<[3%nat := [0; 1; 2]%nat]> ∅)).
Proof.
  assert (sys_run 1 Z.of_nat (demo1, ∅) [LOwner 3 7 [42]; LSubmit 3 true; LTau; LTau; LTau; LReturn 3]
    (demo7, delete 3%nat (<[3%nat := [0; 1; 2]%nat]> ∅))) as Hr.
  { apply (sr_snoc _ _ _ [LOwner 3 7 [42]; LSubmit 3 true; LTau; LTau; LTau] (demo6, <[3%nat := [0; 1; 2]%nat]> ∅));
      [|eapply sy_end; [reflexivity | vm_compute; reflexivity]].
    apply (sr_snoc _ _ _ [LOwner 3 7 [42]; LSubmit 3 true; LTau; LTau] (demo5, <[3%nat := [0; 1; 2]%nat]> ∅));
      [|eapply sy_intr; vm_compute; reflexivity].
    apply (sr_snoc _ _ _ [LOwner 3 7 [42]; LSubmit 3 true; LTau] (demo4, <[3%nat := [0; 1; 2]%nat]> ∅));
      [|apply (sy_serve _ _ [] 0 []); vm_compute; reflexivity].
    apply (sr_snoc _ _ _ [LOwner 3 7 [42]; LSubmit 3 true] (demo3, <[3%nat := [0; 1; 2]%nat]> ∅)); [|apply sy_fetch].
    apply (sr_snoc _ _ _ [LOwner 3 7 [42]] (demo2, ∅)); [|apply sy_start; [reflexivity | vm_compute; reflexivity]].
    apply (sr_snoc _ _ _ [] (demo1, ∅)); [constructor | apply sy_own; [reflexivity | lia]]. }
  split; [exact Hr|]. split; [vm_compute; reflexivity|].
  refine (proj1 (virtio_refines 1 Z.of_nat demo0 demo1 demo7 _ _ eq_refl eq_refl eq_refl _ _ Hr)).
  - intros b. cbn. lia.
  - vm_compute. reflexivity.
Defined.
