(* ===== verification/Riscv.v ===== *)
(** * riscv.h, start.c and plic.c: registers and boot

    The control registers of a CPU, the accessors of riscv.h, the machine-mode
    code that runs before main, and the interrupt controller. A register holds
    what was last written to it; the registers are independent of each other,
    as the code uses them. Devices mapped into physical memory are an interface
    ([Phys]) to the rest of the machine [K]. *)

From stdpp Require Import base functions gmap list strings.
From Stdlib Require Import ZArith Lia.
From S2P Require Import Prelude Kalloc Vm.

Inductive csr : Type :=
  | X_mhartid | X_mstatus | X_mepc | X_sstatus | X_sip | X_sie | X_mie | X_sepc
  | X_medeleg | X_mideleg | X_stvec | X_mtvec | X_pmpcfg0 | X_pmpaddr0 | X_satp | X_mscratch
  | X_scause | X_stval | X_mcounteren | X_time | X_sp | X_tp | X_ra.

#[export] Instance csr_eq_dec : EqDecision csr.
Proof. solve_decision. Defined.

Definition MSTATUS_MPP_MASK : Z := Z.shiftl 3 11.
Definition MSTATUS_MPP_M : Z := Z.shiftl 3 11.
Definition MSTATUS_MPP_S : Z := Z.shiftl 1 11.
Definition MSTATUS_MPP_U : Z := Z.shiftl 0 11.
Definition MSTATUS_MIE : Z := Z.shiftl 1 3.
Definition SSTATUS_SPP : Z := Z.shiftl 1 8.
Definition SSTATUS_SPIE : Z := Z.shiftl 1 5.
Definition SSTATUS_UPIE : Z := Z.shiftl 1 4.
Definition SSTATUS_SIE : Z := Z.shiftl 1 1.
Definition SSTATUS_UIE : Z := Z.shiftl 1 0.
Definition SIE_SEIE : Z := Z.shiftl 1 9.
Definition SIE_STIE : Z := Z.shiftl 1 5.
Definition SIE_SSIE : Z := Z.shiftl 1 1.
Definition MIE_MEIE : Z := Z.shiftl 1 11.
Definition MIE_MTIE : Z := Z.shiftl 1 7.
Definition MIE_MSIE : Z := Z.shiftl 1 3.
Definition SATP_SV39 : Z := Z.shiftl 8 60.
Definition MAKE_SATP (pagetable : Z) : Z := Z.lor SATP_SV39 (Z.shiftr (u64 pagetable) 12).
Definition UART0_IRQ : Z := 10.
Definition VIRTIO0_IRQ : Z := 1.
Definition CLINT : Z := 0x2000000.
Definition CLINT_MTIMECMP (hartid : Z) : Z := CLINT + 0x4000 + 8 * hartid.
Definition CLINT_MTIME : Z := CLINT + 0xBFF8.
Definition PLIC_SENABLE (hart : Z) : Z := PLIC + 0x2080 + hart * 0x100.
Definition PLIC_SPRIORITY (hart : Z) : Z := PLIC + 0x201000 + hart * 0x2000.
Definition PLIC_SCLAIM (hart : Z) : Z := PLIC + 0x201004 + hart * 0x2000.

(** Loads and stores at the addresses of devices. *)
Class Phys (K : Type) : Type := {
  ph_read32 : Z -> K -> Z * K;
  ph_write32 : Z -> Z -> K -> K;
  ph_read64 : Z -> K -> Z * K;
  ph_write64 : Z -> Z -> K -> K;
}.

(** A CPU and what it runs on. *)
Record hw (K : Type) : Type := Hw { regs : csr -> Z; hk : K }.
Arguments Hw {K}.
Arguments regs {K}.
Arguments hk {K}.

Section riscv.
Context {K : Type}.

Definition rcsr (c : csr) : M (hw K) Z := gets (fun s => regs s c).
Definition wcsr (c : csr) (x : Z) : M (hw K) unit := modify (fun s => Hw (<[c := u64 x]> (regs s)) (hk s)).

Definition r_mhartid : M (hw K) Z := rcsr X_mhartid.
Definition r_mstatus : M (hw K) Z := rcsr X_mstatus.
Definition w_mstatus : Z -> M (hw K) unit := wcsr X_mstatus.
Definition w_mepc : Z -> M (hw K) unit := wcsr X_mepc.
Definition r_sstatus : M (hw K) Z := rcsr X_sstatus.
Definition w_sstatus : Z -> M (hw K) unit := wcsr X_sstatus.
Definition r_sip : M (hw K) Z := rcsr X_sip.
Definition w_sip : Z -> M (hw K) unit := wcsr X_sip.
Definition r_sie : M (hw K) Z := rcsr X_sie.
Definition w_sie : Z -> M (hw K) unit := wcsr X_sie.
Definition r_mie : M (hw K) Z := rcsr X_mie.
Definition w_mie : Z -> M (hw K) unit := wcsr X_mie.
Definition w_sepc : Z -> M (hw K) unit := wcsr X_sepc.
Definition r_sepc : M (hw K) Z := rcsr X_sepc.
Definition r_medeleg : M (hw K) Z := rcsr X_medeleg.
Definition w_medeleg : Z -> M (hw K) unit := wcsr X_medeleg.
Definition r_mideleg : M (hw K) Z := rcsr X_mideleg.
Definition w_mideleg : Z -> M (hw K) unit := wcsr X_mideleg.
Definition w_stvec : Z -> M (hw K) unit := wcsr X_stvec.
Definition r_stvec : M (hw K) Z := rcsr X_stvec.
Definition w_mtvec : Z -> M (hw K) unit := wcsr X_mtvec.
Definition w_pmpcfg0 : Z -> M (hw K) unit := wcsr X_pmpcfg0.
Definition w_pmpaddr0 : Z -> M (hw K) unit := wcsr X_pmpaddr0.
Definition w_satp : Z -> M (hw K) unit := wcsr X_satp.
Definition r_satp : M (hw K) Z := rcsr X_satp.
Definition w_mscratch : Z -> M (hw K) unit := wcsr X_mscratch.
Definition r_scause : M (hw K) Z := rcsr X_scause.
Definition r_stval : M (hw K) Z := rcsr X_stval.
Definition w_mcounteren : Z -> M (hw K) unit := wcsr X_mcounteren.
Definition r_mcounteren : M (hw K) Z := rcsr X_mcounteren.
Definition r_time : M (hw K) Z := rcsr X_time.
Definition r_sp : M (hw K) Z := rcsr X_sp.
Definition r_tp : M (hw K) Z := rcsr X_tp.
Definition w_tp : Z -> M (hw K) unit := wcsr X_tp.
Definition r_ra : M (hw K) Z := rcsr X_ra.

Definition intr_on : M (hw K) unit := let* x := r_sstatus in w_sstatus (Z.lor x SSTATUS_SIE).
Definition intr_off : M (hw K) unit := let* x := r_sstatus in w_sstatus (Z.land x (Z.lnot SSTATUS_SIE)).
Definition intr_get : M (hw K) bool := let* x := r_sstatus in ret (nz (Z.land x SSTATUS_SIE)).

(** cpuid() *)
Definition cpuid : M (hw K) Z := let* x := r_tp in ret (i32 x).

(** vm.c: turn on paging; [kernel_pagetable] is the table kvminit made. *)
Definition kvminithart (kernel_pagetable : Z) : M (hw K) unit := w_satp (MAKE_SATP kernel_pagetable).

Context `{Phys K}.

Definition read32 (a : Z) : M (hw K) Z := fun s => let '(x, k) := ph_read32 a (hk s) in Ok (u32 x) (Hw (regs s) k).
Definition write32 (a x : Z) : M (hw K) unit := modify (fun s => Hw (regs s) (ph_write32 a (u32 x) (hk s))).
Definition read64 (a : Z) : M (hw K) Z := fun s => let '(x, k) := ph_read64 a (hk s) in Ok (u64 x) (Hw (regs s) k).
Definition write64 (a x : Z) : M (hw K) unit := modify (fun s => Hw (regs s) (ph_write64 a (u64 x) (hk s))).

(** ** plic.c *)

Definition plicinit : M (hw K) unit :=
  write32 (PLIC + UART0_IRQ * 4) 1 ;;
  write32 (PLIC + VIRTIO0_IRQ * 4) 1.
Definition plicinithart : M (hw K) unit :=
  let* hart := cpuid in
  write32 (PLIC_SENABLE hart) (Z.lor (Z.shiftl 1 UART0_IRQ) (Z.shiftl 1 VIRTIO0_IRQ)) ;;
  write32 (PLIC_SPRIORITY hart) 0.
Definition plic_claim : M (hw K) Z :=
  let* hart := cpuid in
  let* irq := read32 (PLIC_SCLAIM hart) in
  ret (i32 irq).
Definition plic_complete (irq : Z) : M (hw K) unit :=
  let* hart := cpuid in
  write32 (PLIC_SCLAIM hart) irq.

(** ** start.c *)

(** [main], [timervec] and [timer_scratch] are the addresses of the linker. *)
Context (main timervec timer_scratch : Z).

Definition timerinit : M (hw K) unit :=
  let* x := r_mhartid in
  let id := i32 x in
  let interval := 1000000 in
  let* now := read64 CLINT_MTIME in
  write64 (CLINT_MTIMECMP id) (now + interval) ;;
  let scratch := timer_scratch + 40 * id in
  write64 (scratch + 24) (CLINT_MTIMECMP id) ;;
  write64 (scratch + 32) interval ;;
  w_mscratch scratch ;;
  w_mtvec timervec ;;
  let* x := r_mstatus in
  w_mstatus (Z.lor x MSTATUS_MIE) ;;
  let* x := r_mie in
  w_mie (Z.lor x MIE_MTIE).

(** start(), up to the mret. *)
Definition start : M (hw K) unit :=
  let* x := r_mstatus in
  w_mstatus (Z.lor (Z.land x (Z.lnot MSTATUS_MPP_MASK)) MSTATUS_MPP_S) ;;
  w_mepc main ;;
  w_satp 0 ;;
  w_medeleg 0xffff ;;
  w_mideleg 0xffff ;;
  let* x := r_sie in
  w_sie (Z.lor (Z.lor (Z.lor x SIE_SEIE) SIE_STIE) SIE_SSIE) ;;
  w_pmpaddr0 0x3fffffffffffff ;;
  w_pmpcfg0 0xf ;;
  timerinit ;;
  let* x := r_mhartid in
  w_tp (i32 x).
End riscv.
