(* ===== verification/Copyinstr.v ===== *)
(** * copyinstr: strings from user memory

    The specification of vm.c's copyinstr, which argstr, namei's callers and
    exec rely on: the C string at a user address, if it ends within [max]
    bytes and lies in pages the user may read. *)

From stdpp Require Import base gmap list strings.
From Stdlib Require Import ZArith Lia.
From S2P Require Import Prelude Mem Cstring Kalloc Vm.

(** The string at a user address, without its NUL: [None] when one of its
    bytes is not mapped for the user, or no NUL is among the first [n]. *)
Fixpoint user_str (m : mem) (T : gmap (list Z) Z) (va : Z) (n : nat) : option (list Z) :=
  match n with
  | O => None
  | S n =>
      match umap m T va with
      | None => None
      | Some x => if load8 m x =? 0 then Some [] else cons (load8 m x) <$> user_str m T (va + 1) n
      end
  end.

(** The same for a physical address. *)
Fixpoint phys_str (m : mem) (p : Z) (n : nat) : option (list Z) :=
  match n with
  | O => None
  | S n => if load8 m p =? 0 then Some [] else cons (load8 m p) <$> phys_str m (p + 1) n
  end.

(** [dst] holds the string [l] with its NUL. *)
Definition holds_str (m : mem) (dst : Z) (l : list Z) : Prop :=
  load_bytes m dst (length l) = l /\ load8 m (dst + Z.of_nat (length l)) = 0 /\ Forall (fun c => c <> 0) l.

Lemma holds_str_cons m dst c l : load8 m dst = c -> c <> 0 -> holds_str m (dst + 1) l -> holds_str m dst (c :: l).
Proof.
  intros Hc Hn (Hl & H0 & Hf). split_and!.
  - cbn [length load_bytes]. by rewrite Hc, Hl.
  - cbn [length]. rewrite <- H0. f_equal. lia.
  - by constructor.
Qed.

Lemma holds_str_app m dst l1 l2 :
  load_bytes m dst (length l1) = l1 -> Forall (fun c => c <> 0) l1 ->
  holds_str m (dst + Z.of_nat (length l1)) l2 -> holds_str m dst (l1 ++ l2).
Proof.
  revert dst. induction l1 as [|c l1 IH]; intros dst Hl Hf H2.
  - cbn [length app] in *. by rewrite Z.add_0_r in H2.
  - cbn [length load_bytes] in Hl. injection Hl as Hc Hl. inversion Hf; subst. cbn [app].
    apply holds_str_cons; [done | done |]. apply IH; [done | done |]. cbn [length] in H2.
    replace (dst + 1 + Z.of_nat (length l1)) with (dst + Z.of_nat (S (length l1))) by lia. done.
Qed.

(** What the inner loop leaves: [o] is the string in the page, if it ends
    there. *)
Record copied (m m' : mem) (p dst : Z) (n : nat) : Prop := {
  cp_out : forall x, x < dst \/ dst + Z.of_nat n <= x -> load8 m' x = load8 m x;
  cp_str : match phys_str m p n with
           | Some l => holds_str m' dst l /\ (length l < n)%nat
           | None => load_bytes m' dst n = load_bytes m p n /\ Forall (fun c => c <> 0) (load_bytes m p n)
           end;
}.

Lemma phys_str_ext m m' p n :
  (forall x, p <= x < p + Z.of_nat n -> load8 m' x = load8 m x) -> phys_str m' p n = phys_str m p n.
Proof.
  revert p. induction n as [|n IH]; intros p H; cbn [phys_str]; [done|]. rewrite !H by lia.
  rewrite IH; [done|]. intros. apply H. lia.
Qed.

Lemma copy_str_page_ok n : forall p dst s,
  0 <= dst -> dst + Z.of_nat n < 2 ^ 63 -> (p + Z.of_nat n <= dst \/ dst + Z.of_nat n <= p) ->
  exists s', copy_str_page p dst n s = Ok (match phys_str (pmem s) p n with Some _ => true | None => false end) s' /\
    kend s' = kend s /\ copied (pmem s) (pmem s') p dst n.
Proof.
  induction n as [|n IH]; intros p dst s Hd Hb Hdis; cbn [copy_str_page].
  - exists s. split_and!; [done | done |]. split; [done|]. by split.
  - unfold gets at 1. erewrite bind_run by reflexivity. cbn [phys_str].
    destruct (Z.eqb_spec (load8 (pmem s) p) 0) as [E|E].
    + unfold upd_mem. erewrite bind_run by reflexivity. eexists. split; [reflexivity|]. split; [done|].
      split; cbn [pmem set_mem].
      * intros x Hx. apply load8_store8_ne. lia.
      * cbn [phys_str]. rewrite E, Z.eqb_refl. split; [|simpl; lia]. split_and!; [done | | constructor].
        cbn [length]. rewrite Z.add_0_r, load8_store8_eq. done.
    + unfold upd_mem. erewrite bind_run by reflexivity. rewrite (u64_id (dst + 1)) by lia.
      set (s1 := set_mem _ s). assert (forall x, x <> dst -> load8 (pmem s1) x = load8 (pmem s) x) as Hs1.
      { intros x Hx. unfold s1. cbn [pmem set_mem]. by apply load8_store8_ne. }
      destruct (IH (p + 1) (dst + 1) s1) as (s' & Es & Hk & [Ho Hstr]); [lia | lia | lia |].
      assert (phys_str (pmem s1) (p + 1) n = phys_str (pmem s) (p + 1) n) as Ep.
      { apply phys_str_ext. intros x Hx. apply Hs1. lia. }
      assert (load_bytes (pmem s1) (p + 1) n = load_bytes (pmem s) (p + 1) n) as Eb.
      { apply load_bytes_ext. intros x Hx. apply Hs1. lia. }
      rewrite Ep in *. rewrite Eb in *. exists s'. split; [by rewrite Es; destruct (phys_str _ _ _)|].
      assert (load8 (pmem s') dst = load8 (pmem s) p) as Hdst.
      { rewrite Ho by lia. unfold s1. cbn [pmem set_mem]. rewrite load8_store8_eq. apply u8_id, load8_range. }
      split; [done|]. split.
      * intros x Hx. rewrite Ho, Hs1 by lia. done.
      * cbn [phys_str]. rewrite (proj2 (Z.eqb_neq _ _) E). destruct (phys_str (pmem s) (p + 1) n) as [l|].
        -- destruct Hstr as [Hh Hl]. cbn [fmap option_fmap option_map]. split; [by apply holds_str_cons | simpl; lia].
        -- destruct Hstr as [Hb1 Hf]. cbn [fmap option_fmap option_map load_bytes]. rewrite Hdst, Hb1. split; [done | by constructor].
Qed.

(** The string of a user address through the frame of its page. *)
Lemma user_str_page m T va p k j :
  (forall i, 0 <= i < Z.of_nat k -> umap m T (va + i) = Some (p + i)) ->
  user_str m T va (k + j) =
    match phys_str m p k with
    | Some l => Some l
    | None => app (load_bytes m p k) <$> user_str m T (va + Z.of_nat k) j
    end.
Proof.
  revert va p. induction k as [|k IH]; intros va p Hu.
  - cbn [phys_str load_bytes Nat.add]. rewrite Z.add_0_r. by destruct (user_str m T va j).
  - cbn [Nat.add user_str phys_str load_bytes]. rewrite <- (Z.add_0_r va) at 1. rewrite Hu, Z.add_0_r by lia.
    destruct (load8 m p =? 0); [done|]. rewrite (IH (va + 1) (p + 1)).
    + destruct (phys_str m (p + 1) k) as [l|]; [done|].
      replace (va + 1 + Z.of_nat k) with (va + Z.of_nat (S k)) by lia. by destruct (user_str m T _ j).
    + intros i Hi. replace (va + 1 + i) with (va + (1 + i)) by lia. rewrite Hu by lia. f_equal. lia.
Qed.

Lemma user_str_ext m m' T n : forall va,
  (forall v, umap m' T v = umap m T v) ->
  (forall i x, 0 <= i < Z.of_nat n -> umap m T (va + i) = Some x -> load8 m' x = load8 m x) ->
  user_str m' T va n = user_str m T va n.
Proof.
  induction n as [|n IH]; intros va Hu Hl; cbn [user_str]; [done|]. rewrite Hu.
  destruct (umap m T va) as [x|] eqn:E; [|done]. rewrite (Hl 0 x) by (rewrite ?Z.add_0_r; auto; lia).
  rewrite IH; [done | done |]. intros i y Hi Hy. apply (Hl (1 + i)); [lia|]. rewrite <- Hy. f_equal. lia.
Qed.

Lemma copyinstr_loop_ok root T fuel : forall s dst srcva max,
  ptwf s root T -> 0 < kend s -> 0 <= dst -> dst + max < 2 ^ 63 -> 0 <= srcva -> 0 <= max ->
  srcva + max < 2 ^ 39 -> (max + srcva mod PGSIZE + PGSIZE - 1) / PGSIZE < Z.of_nat fuel ->
  (forall x, dst <= x < dst + max -> off_tables T x) ->
  (forall i x, 0 <= i < max -> umap (pmem s) T (srcva + i) = Some x -> x < dst \/ dst + max <= x) ->
  exists r s', copyinstr_loop fuel root dst srcva max s = Ok r s' /\ kend s' = kend s /\
    (forall x, x < dst \/ dst + max <= x -> load8 (pmem s') x = load8 (pmem s) x) /\
    match user_str (pmem s) T srcva (Z.to_nat max) with
    | Some l => r = 0 /\ holds_str (pmem s') dst l /\ Z.of_nat (length l) < max
    | None => r = -1
    end.
Proof.
  assert (PGSIZE = 4096) as HP by done.
  induction fuel as [|fuel IH]; intros s dst srcva max Hw He Hd Hdl Hs Hl Hsl Hf Hoff Hsrc.
  { exfalso. rewrite HP in Hf. mlia. }
  cbn [copyinstr_loop]. destruct (Z.ltb_spec 0 max) as [Hpos|].
  2: { assert (max = 0) as -> by lia. by exists (-1), s. }
  cbv zeta. destruct (chunk srcva max) as (E0 & Hn & Hv0 & Ha0 & Hoffs & Hnext & Hpg); [lia..|].
  set (va0 := PGROUNDDOWN srcva) in *.
  set (n := if max <? PGSIZE - (srcva - va0) then max else PGSIZE - (srcva - va0)) in *.
  erewrite bind_run by (apply (walkaddr_umap s root T va0); auto; lia).
  assert (Z.to_nat max = (Z.to_nat n + Z.to_nat (max - n))%nat) as Emax by lia.
  destruct (umap (pmem s) T va0) as [pa0|] eqn:Eu.
  2: { exists (-1), s. cbv iota. split_and!; auto. destruct (Hpg 0) as [Hp _]; [lia|].
       assert (umap (pmem s) T srcva = None) as En by (rewrite Z.add_0_r in Hp; eapply (umap_page_None _ _ _ va0); eauto; lia).
       destruct (Z.to_nat max) as [|k] eqn:Ek; [lia|]. cbn [user_str]. by rewrite En. }
  assert (pa0 <> 0) as Hpa0.
  { unfold umap in Eu. destruct (_ && _) eqn:Ec; [|done]. injection Eu as <-. rewrite Ha0.
    bool_to_prop. unfold nz in *. bool_to_prop. lia. }
  destruct (Z.eqb_spec pa0 0); [done|]. cbv iota. set (p := pa0 + (srcva - va0)) in *.
  assert (forall i, 0 <= i < n -> umap (pmem s) T (srcva + i) = Some (p + i)) as Hum.
  { intros i Hi. destruct (Hpg i Hi) as [Hp Hm].
    rewrite (umap_page _ _ (srcva + i) va0 pa0) by (auto; lia). f_equal. unfold p. lia. }
  assert (p + n <= dst \/ dst + max <= p) as Hdis.
  { destruct (decide (p + n <= dst)); [by left|]. destruct (decide (dst + max <= p)); [by right|]. exfalso.
    destruct (decide (p <= dst)).
    - destruct (Hsrc (dst - p) dst); [lia | rewrite Hum by lia; f_equal; lia | lia | lia].
    - destruct (Hsrc 0 p); [lia | rewrite Hum by lia; f_equal; lia | lia | lia]. }
  destruct (copy_str_page_ok (Z.to_nat n) p dst s) as (s1 & E1 & Hk1 & [Ho1 Hstr]); [lia | lia | lia |].
  rewrite (bind_run _ _ _ _ _ E1).
  pose proof (user_str_page (pmem s) T srcva p (Z.to_nat n) (Z.to_nat (max - n))) as Hpage.
  rewrite <- Emax in Hpage. rewrite Hpage by (intros; apply Hum; lia). clear Hpage.
  destruct (phys_str (pmem s) p (Z.to_nat n)) as [l|].
  { destruct Hstr as [Hh Hlen]. exists 0, s1. split_and!; [done | done | intros; apply Ho1; lia | done | done | lia]. }
  destruct Hstr as [Hbytes Hnz]. rewrite Z2Nat.id in * by lia.
  destruct (keep_tables s s1 root T (fun x => dst <= x < dst + n)) as [Hw1 Hu1]; auto.
  { intros x Hx. apply Hoff. lia. }
  { intros x Hx. apply Ho1. lia. }
  rewrite (u64_id (dst + n)), (u64_id (va0 + PGSIZE)) by lia.
  destruct (decide (n < max)) as [Hlt|Hge].
  - rewrite (Hnext Hlt). assert (forall i, srcva + n + i = srcva + (n + i)) as Eadd by (intros; lia).
    destruct (IH s1 (dst + n) (srcva + n) (max - n) Hw1) as (r & s' & E & Hk & Hout & Hall).
    all: try lia; try done.
    { rewrite <- (Hnext Hlt). rewrite HP in *. rewrite E0 in *. mlia. }
    { intros x Hx. apply Hoff. lia. }
    { intros i x Hi. rewrite Hu1, Eadd. intros Hx. apply Hsrc in Hx; lia. }
    exists r, s'. split_and!; [done | congruence | intros x Hx; rewrite Hout, Ho1 by lia; done |].
    assert (user_str (pmem s1) T (srcva + n) (Z.to_nat (max - n)) = user_str (pmem s) T (srcva + n) (Z.to_nat (max - n))) as Es.
    { apply user_str_ext; [done|]. intros i x Hi. rewrite Eadd. intros Hx. apply Ho1. apply Hsrc in Hx; lia. }
    rewrite Es in Hall. destruct (user_str (pmem s) T (srcva + n) _) as [l|]; [|done]. cbn [fmap option_fmap option_map].
    destruct Hall as (-> & Hh & Hlen). pose proof (length_load_bytes (pmem s) p (Z.to_nat n)) as Hlb. split_and!; [done | | rewrite length_app, Hlb; lia].
    apply holds_str_app; [|done|rewrite Hlb, Z2Nat.id by lia; done].
    rewrite Hlb, <- Hbytes. apply load_bytes_ext. intros x Hx. apply Hout. lia.
  - assert (n = max) as Hnm by lia. rewrite Hnm, Z.sub_diag in *. cbn [Z.to_nat user_str fmap option_fmap option_map].
    destruct fuel as [|fuel]; [exfalso; rewrite HP in Hf; mlia|].
    exists (-1), s1. split_and!; [done | done | exact Ho1 | done].
Qed.

(** copyinstr returns 0 with the string, or -1. *)
Lemma copyinstr_ok s root T dst srcva max :
  ptwf s root T -> 0 < kend s -> 0 <= dst -> dst + max < 2 ^ 63 -> 0 <= srcva -> 0 <= max -> srcva + max < 2 ^ 39 ->
  (forall x, dst <= x < dst + max -> off_tables T x) ->
  (forall i x, 0 <= i < max -> umap (pmem s) T (srcva + i) = Some x -> x < dst \/ dst + max <= x) ->
  exists r s', copyinstr root dst srcva max s = Ok r s' /\
    (forall x, x < dst \/ dst + max <= x -> load8 (pmem s') x = load8 (pmem s) x) /\
    match user_str (pmem s) T srcva (Z.to_nat max) with
    | Some l => r = 0 /\ holds_str (pmem s') dst l /\ Z.of_nat (length l) < max
    | None => r = -1
    end.
Proof.
  assert (PGSIZE = 4096) as HP by done. intros Hw He Hd Hdl Hs Hl Hsl Hoff Hsrc.
  destruct (copyinstr_loop_ok root T (copy_fuel max) s dst srcva max Hw He) as (r & s' & E & _ & H); auto.
  - unfold copy_fuel. rewrite HP. rewrite Z2Nat.id by mlia. mlia.
  - by exists r, s'.
Qed.
