(* ===== verification/Uvm.v ===== *)
(** * The life of a user address space

    What uvmalloc, uvmdealloc, uvmcopy and uvmfree of vm.c do to the pages of a
    process. Every page of the allocator is on the free list, a page table, a
    frame of user memory, or in other use: [uspace] says so for one address
    space, with the list [X] of the pages in other use, which no operation
    touches. The theorems: uvmalloc adds zeroed pages or changes nothing, uvmcopy
    makes an equal copy or nothing, and uvmfree gives every page back. *)

From stdpp Require Import base gmap list strings.
From Stdlib Require Import ZArith Lia.
From S2P Require Import Prelude Mem Cstring Kalloc Vm.

(** ** Entries *)

(** Permissions that make an entry a leaf. *)
Definition leaf_perm (p : Z) : Prop := 0 <= p < 1024 /\ Z.lor p PTE_V <> PTE_V.

Lemma pte_of_eq s f p : 0 < kend s -> page_ok s f -> leaf_perm p -> pte_of f p = Z.lor (PA2PTE f) (Z.lor p PTE_V).
Proof.
  intros He Hf [Hp _]. unfold pte_of. rewrite <- Z.lor_assoc. apply u64_id. apply lor_range; [apply u64_range|].
  apply lor_range; unfold PTE_V; lia.
Qed.

Lemma lor_V_range p : 0 <= p < 1024 -> 0 <= Z.lor p PTE_V < 1024.
Proof.
  intros Hp. assert (Z.lor p PTE_V = Z.lor p PTE_V mod 2 ^ 10) as ->; [|apply Z.mod_pos_bound; lia].
  rewrite <- Z.land_ones, Z.land_lor_distr_l, !Z.land_ones by lia. change (2 ^ 10) with 1024.
  rewrite (Z.mod_small p) by lia. done.
Qed.

Lemma PA2PTE_low f : Z.land (PA2PTE f) 1023 = 0.
Proof.
  unfold PA2PTE, u64. change 1023 with (Z.ones 10). rewrite Z.land_ones by lia. rewrite Z.shiftl_mul_pow2 by lia.
  change (2 ^ 64) with (2 ^ 54 * 2 ^ 10). rewrite Z.mul_mod_distr_r by lia. apply Z.mod_mul. lia.
Qed.

Lemma pte_flags s f p : 0 < kend s -> page_ok s f -> leaf_perm p -> PTE_FLAGS (pte_of f p) = Z.lor p PTE_V.
Proof.
  intros He Hf Hp. rewrite (pte_of_eq s) by done. destruct Hp as [Hp _].
  unfold PTE_FLAGS. change 0x3FF with 1023. rewrite Z.land_lor_distr_l, PA2PTE_low, Z.lor_0_l.
  change 1023 with (Z.ones 10). rewrite Z.land_ones by lia. apply Z.mod_small. apply lor_V_range; done.
Qed.

Lemma pte_frame s f p : 0 < kend s -> page_ok s f -> leaf_perm p -> PTE2PA (pte_of f p) = f.
Proof.
  intros He Hf Hp. rewrite (pte_of_eq s) by done. apply PTE2PA_flags; [by eapply page_ok_aligned | | apply lor_V_range, Hp].
  pose proof (page_ok_bound _ _ He Hf). lia.
Qed.

Lemma pte_leaf s f p : 0 < kend s -> page_ok s f -> leaf_perm p -> is_leaf (pte_of f p).
Proof.
  intros He Hf Hp. split.
  - rewrite (pte_of_eq s) by done. rewrite Z.lor_assoc. apply has_lor_V.
  - rewrite (pte_flags s) by done. apply Hp.
Qed.

Lemma leaf_perm_V p : leaf_perm p -> leaf_perm (Z.lor p PTE_V).
Proof.
  intros [Hp Hl]. split; [by apply lor_V_range|]. rewrite <- Z.lor_assoc. by rewrite Z.lor_diag.
Qed.

Lemma pte_of_V f p : pte_of f (Z.lor p PTE_V) = pte_of f p.
Proof. unfold pte_of. rewrite <- !Z.lor_assoc. by rewrite Z.lor_diag. Qed.

(** ** Address spaces *)

(** The pages [ps] read the same. *)
Definition keeps (s s' : kst) (ps : list Z) : Prop :=
  forall f o, f ∈ ps -> 0 <= o < PGSIZE -> load8 (pmem s') (f + o) = load8 (pmem s) (f + o).

(** Page j of the user memory is the frame with the permissions [fs !! j]; above
    it, up to the trapframe, nothing is mapped. *)
Record uspace (s : kst) (root : Z) (top : Z -> Z) (T : gmap (list Z) Z) (fl : list Z) (fs : list (Z * Z)) (X : list Z) : Prop := {
  us_vm : vmok s root T fl;
  us_nodup : NoDup (fl ++ tabs T ++ fs.*1 ++ X);
  us_ok : forall f, f ∈ fs.*1 ++ X -> page_ok s f;
  us_perm : forall j f p, fs !! j = Some (f, p) -> leaf_perm p /\ entry (pmem s) T (Z.of_nat j * PGSIZE) = pte_of f p;
  us_len : Z.of_nat (length fs) * PGSIZE <= TRAPFRAME;
  us_top : forall va, TRAPFRAME <= va < 2 ^ 39 -> entry (pmem s) T va = top va;
  us_above : forall va, Z.of_nat (length fs) * PGSIZE <= va < TRAPFRAME -> has (entry (pmem s) T va) PTE_V = false;
}.

Lemma keeps_compose s s1 s2 ps : keeps s s1 ps -> keeps s1 s2 ps -> keeps s s2 ps.
Proof. intros A B f o Hf Ho. rewrite B, A by done. done. Qed.

Lemma keeps_sub s s' ps qs : keeps s s' ps -> qs ⊆ ps -> keeps s s' qs.
Proof. intros A B f o Hf Ho. apply A; [by apply B | done]. Qed.

Lemma elem_of_tabs T q : q ∈ tabs T <-> exists π, T !! π = Some q.
Proof.
  unfold tabs. rewrite list_elem_of_fmap. split.
  - intros ([π q'] & -> & Hq). exists π. by apply elem_of_map_to_list.
  - intros [π Hq]. exists (π, q). split; [done | by apply elem_of_map_to_list].
Qed.

Lemma TRAPFRAME_val : TRAPFRAME = 2 ^ 38 - 8192.
Proof. done. Qed.

Lemma us_end s root top T fl fs X : uspace s root top T fl fs X -> 0 < kend s.
Proof. intros Hu. apply (fp_end _ _ (vm_free _ _ _ _ (us_vm _ _ _ _ _ _ _ Hu))). Qed.

(** Pages in use are not table pages, and lie apart from them. *)
Lemma in_use_off s root top T fl fs X f o :
  uspace s root top T fl fs X -> f ∈ fs.*1 ++ X -> 0 <= o < PGSIZE -> off_tables T (f + o).
Proof.
  intros Hu Hf Ho π q Hq. pose proof (us_nodup _ _ _ _ _ _ _ Hu) as Hnd.
  apply NoDup_app in Hnd as (_ & _ & Hnd). apply NoDup_app in Hnd as (_ & Hnd & _).
  assert (f <> q) as Hne.
  { intros ->. apply (Hnd q); [|done]. apply elem_of_tabs. eauto. }
  pose proof (page_ok_aligned _ _ (us_ok _ _ _ _ _ _ _ Hu f Hf)).
  pose proof (page_ok_aligned _ _ (pt_page _ _ _ (vm_pt _ _ _ _ (us_vm _ _ _ _ _ _ _ Hu)) _ _ Hq)).
  destruct (page_disjoint f q); auto; unfold PGSIZE in *; lia.
Qed.

Lemma apart_pages s root top T fl fs X f g :
  uspace s root top T fl fs X -> f ∈ fl ++ fs.*1 ++ X -> g ∈ fl ++ fs.*1 ++ X -> f <> g ->
  f + PGSIZE <= g \/ g + PGSIZE <= f.
Proof.
  intros Hu Hf Hg Hne. assert (forall x, x ∈ fl ++ fs.*1 ++ X -> x mod PGSIZE = 0) as Hal.
  { intros x [Hx|Hx]%elem_of_app; eapply page_ok_aligned; [apply (fp_ok _ _ (vm_free _ _ _ _ (us_vm _ _ _ _ _ _ _ Hu))), Hx | by apply (us_ok _ _ _ _ _ _ _ Hu)]. }
  destruct (page_disjoint f g); auto.
Qed.

(** The pages as a set: any rearrangement keeps the invariant of the lists. *)
Lemma us_perm_X s root top T fl fs X X' : uspace s root top T fl fs X -> X ≡ₚ X' -> uspace s root top T fl fs X'.
Proof.
  intros [] HX. split; try done; [by rewrite <- HX|]. intros f Hf. apply us_ok0. by rewrite HX.
Qed.

Lemma move_page (a : Z) fl tb fs X : (a :: fl) ++ tb ++ fs ++ X ≡ₚ fl ++ tb ++ fs ++ a :: X.
Proof. rewrite !app_assoc, <- Permutation_middle, <- !app_assoc. done. Qed.

Lemma page_alone (a : Z) fl tb fs X :
  NoDup (fl ++ tb ++ fs ++ a :: X) -> a ∉ fl /\ a ∉ tb /\ a ∉ fs ++ X.
Proof. rewrite <- move_page. cbn [app]. intros [Hn _]%NoDup_cons. set_solver. Qed.

(** The machine has fewer pages than the address space. *)
Lemma page_count s (l : list Z) :
  NoDup l -> (forall f, f ∈ l -> page_ok s f) -> 0 < kend s -> Z.of_nat (length l) <= PHYSTOP / PGSIZE.
Proof.
  intros Hn Hok He. assert (NoDup ((fun f => f / PGSIZE) <$> l)) as Hn'.
  { apply NoDup_fmap_2_strong; [|done]. intros x y Hx Hy E.
    pose proof (page_ok_aligned _ _ (Hok x Hx)). pose proof (page_ok_aligned _ _ (Hok y Hy)). unfold PGSIZE in *. mlia. }
  assert (((fun f => f / PGSIZE) <$> l) ⊆+ seqZ 0 (PHYSTOP / PGSIZE)) as Hs%submseteq_length.
  { apply NoDup_submseteq; [done|]. intros x (f & -> & Hf)%list_elem_of_fmap. apply elem_of_seqZ.
    destruct (Hok f Hf) as [_ Hr]. unfold PHYSTOP, KERNBASE, PGSIZE in *. mlia. }
  rewrite length_fmap, length_seqZ in Hs. change (PHYSTOP / PGSIZE) with 557056 in *. lia.
Qed.

Lemma us_room s root top T fl fs X :
  uspace s root top T fl fs X ->
  (Z.of_nat (length fs) + Z.of_nat (length (fl ++ tabs T)) + 1) * PGSIZE <= TRAPFRAME.
Proof.
  intros Hu. pose proof Hu as [[Hf Hw _] Hn Hok _ _ _ _].
  assert (Z.of_nat (length (fl ++ tabs T ++ fs.*1 ++ X)) <= PHYSTOP / PGSIZE) as Hc.
  { apply (page_count s); [done | | by eapply us_end]. intros f [Hin|[Hin|Hin]%elem_of_app]%elem_of_app.
    - by apply (fp_ok _ _ Hf).
    - apply elem_of_tabs in Hin as [π Hq]. by eapply pt_page.
    - by apply Hok. }
  rewrite !length_app, (length_fmap fst fs) in Hc. rewrite length_app, TRAPFRAME_val.
  change (PHYSTOP / PGSIZE) with 557056 in Hc. unfold PGSIZE. lia.
Qed.

(** *** Taking a page *)

Lemma us_kalloc s root top T a fl fs X :
  uspace s root top T (a :: fl) fs X ->
  exists s', kalloc s = Ok a s' /\ a <> 0 /\ uspace s' root top T fl fs (a :: X) /\ keeps s s' (fs.*1 ++ X).
Proof.
  intros Hu. pose proof Hu as [[Hf Hw Hdj] Hnd Hok Hp Hl Htp Hab].
  destruct (kalloc_some s a fl Hf) as (s' & E & F & S & _ & K & P & Hz & Ha). exists s'.
  assert (keeps s s' (fs.*1 ++ X)) as Hk.
  { intros f o Hf' Ho. apply S. assert (f <> a) as Hne.
    { intros ->. cbn [app] in Hnd. apply NoDup_cons in Hnd as [Hnd _]. apply Hnd. set_solver. }
    destruct (apart_pages _ _ _ _ _ _ _ f a Hu); [set_solver | set_solver | done | lia | lia]. }
  assert (forall π q i, T !! π = Some q -> 0 <= i < 512 -> load64 (pmem s') (q + 8 * i) = load64 (pmem s) (q + 8 * i)) as Hrd.
  { intros π q i Hq Hi. apply (same_out_load64 _ _ a); [done|].
    destruct (slot_in q i a); auto; [by eapply page_ok_aligned, pt_page | by eapply page_ok_aligned |].
    intros ->. apply (Hdj _ _ Hq). by left. }
  split_and!; [done | done | | done]. split.
  - split; [done | by eapply ptwf_ext |]. intros π q Hq Hin. apply (Hdj _ _ Hq). by right.
  - by rewrite <- move_page.
  - intros f Hf'. unfold page_ok. rewrite K. destruct (decide (f = a)) as [->|]; [done|]. apply Hok. set_solver.
  - intros j f p Hj. rewrite (entry_ext _ _ _ _ Hrd). by apply Hp.
  - done.
  - intros va Hva. rewrite (entry_ext _ _ _ _ Hrd). by apply Htp.
  - intros va Hva. rewrite (entry_ext _ _ _ _ Hrd). by apply Hab.
Qed.

(** Stores into a page in use. *)
Lemma us_write s root top T fl fs X a m' :
  uspace s root top T fl fs X -> a ∈ fs.*1 ++ X -> same_out (pmem s) m' a ->
  uspace (set_mem m' s) root top T fl fs X /\
  forall g o, g ∈ fs.*1 ++ X -> g <> a -> 0 <= o < PGSIZE -> load8 m' (g + o) = load8 (pmem s) (g + o).
Proof.
  intros Hu Ha S. pose proof Hu as [[Hf Hw Hdj] Hnd Hok Hp Hl Htp Hab]. pose proof Hf as [Hc Hn Ho He].
  assert (a ∉ fl /\ a ∉ tabs T) as (Hafl & Hat).
  { split; intros Hin; [apply NoDup_app in Hnd as (_ & Hd & _); apply (Hd a Hin); set_solver|].
    apply NoDup_app in Hnd as (_ & _ & Hnd). apply NoDup_app in Hnd as (_ & Hd & _). by apply (Hd a Hin). }
  assert (forall π q i, T !! π = Some q -> 0 <= i < 512 -> load64 m' (q + 8 * i) = load64 (pmem s) (q + 8 * i)) as Hrd.
  { intros π q i Hq Hi. apply (same_out_load64 _ _ a); [done|].
    destruct (slot_in q i a); auto; [by eapply page_ok_aligned, pt_page | by eapply page_ok_aligned, Hok |].
    intros ->. apply Hat, elem_of_tabs. eauto. }
  split.
  2: { intros g o Hg Hne Hoo. apply S. destruct (apart_pages _ _ _ _ _ _ _ g a Hu); [set_solver | set_solver | done | lia | lia]. }
  split.
  - split; [|by eapply ptwf_ext | done]. split; [|done|done|done].
    apply (chain_ext (pmem s)); [|done]. intros b Hb. apply (same_out_load64 _ _ a); [done|].
    destruct (apart_pages _ _ _ _ _ _ _ b a Hu); [set_solver | set_solver | set_solver | unfold PGSIZE in *; lia | unfold PGSIZE in *; lia].
  - done.
  - done.
  - intros j f p Hj. cbn [pmem set_mem]. rewrite (entry_ext _ _ _ _ Hrd). by apply Hp.
  - done.
  - intros va Hva. cbn [pmem set_mem]. rewrite (entry_ext _ _ _ _ Hrd). by apply Htp.
  - intros va Hva. cbn [pmem set_mem]. rewrite (entry_ext _ _ _ _ Hrd). by apply Hab.
Qed.

Lemma us_store s root top T fl fs a X m' :
  uspace s root top T fl fs (a :: X) -> same_out (pmem s) m' a ->
  uspace (set_mem m' s) root top T fl fs (a :: X) /\ keeps s (set_mem m' s) (fs.*1 ++ X).
Proof.
  intros Hu S. destruct (us_write s root top T fl fs (a :: X) a m' Hu) as [Hu' Hk]; [set_solver | done|].
  split; [done|]. destruct (page_alone _ _ _ _ _ (us_nodup _ _ _ _ _ _ _ Hu)) as (_ & _ & Hax).
  intros f o Hf Ho. apply Hk; [set_solver | by intros -> | done].
Qed.

(** Giving a page back. *)
Lemma us_kfree s root top T fl fs a X :
  uspace s root top T fl fs (a :: X) ->
  exists s', kfree a s = Ok tt s' /\ uspace s' root top T (a :: fl) fs X /\ keeps s s' (fs.*1 ++ X).
Proof.
  intros Hu. pose proof Hu as [Hv Hnd Hok Hp Hl Htp Hab]. assert (page_ok s a) as Ha by (apply Hok; set_solver).
  assert (a ∉ fl /\ a ∉ tabs T /\ a ∉ fs.*1 ++ X) as (Hafl & Hat & Hax).
  { by apply page_alone. }
  destruct (kfree_frame s root T fl a Hv) as (s' & E & V & S & K & N).
  { split_and!; [done | done|]. intros π Hq. apply Hat, elem_of_tabs. eauto. }
  exists s'. assert (keeps s s' (fs.*1 ++ X)) as Hk.
  { intros f o Hf' Hoo. apply S. destruct (apart_pages _ _ _ _ _ _ _ f a Hu); [set_solver | set_solver | set_solver | lia | lia]. }
  split_and!; [done | | done]. split; [done | | | | done | |].
  - by rewrite move_page.
  - intros f Hf'. unfold page_ok. rewrite K. apply Hok. set_solver.
  - intros j f p Hj. rewrite N. by apply Hp.
  - intros va Hva. rewrite N. by apply Htp.
  - intros va Hva. rewrite N. by apply Hab.
Qed.

(** *** Mapping a page *)

Lemma map_one s root T fl va pa perm :
  vmok s root T fl -> va mod PGSIZE = 0 -> 0 <= va -> va + PGSIZE <= MAXVA -> 0 <= pa < 2 ^ 63 ->
  has (entry (pmem s) T va) PTE_V = false ->
  exists r s' T' fl', mappages root va PGSIZE pa perm s = Ok r s' /\
    grown s T fl s' root T' fl' /\ (length fl <= length fl' + 2)%nat /\
    (r = 0 /\ (forall va', 0 <= va' < 2 ^ 39 ->
       entry (pmem s') T' va' = if same_page va' va then pte_of pa perm else entry (pmem s) T va') \/
     r = -1 /\ fl' = [] /\ forall va', entry (pmem s') T' va' = entry (pmem s) T va').
Proof.
  assert (PGSIZE = 4096) as HP by done. assert (MAXVA = 2 ^ 38) as HM by done.
  intros Hv Hal Hva Hmax Hpa Hfree. unfold mappages. change (PGSIZE =? 0) with false. cbv zeta iota.
  rewrite (u64_id (va + PGSIZE - 1)), !PGROUNDDOWN_spec by lia.
  assert (va / PGSIZE * PGSIZE = va) as -> by (rewrite HP in *; mlia).
  assert ((va + PGSIZE - 1) / PGSIZE * PGSIZE = va) as -> by (rewrite HP in *; mlia).
  rewrite Z.sub_diag. change (Z.to_nat (u64 0 / PGSIZE)) with 0%nat. cbn [mappages_loop].
  destruct (walk_alloc s root T fl va Hv) as (r & s1 & T1 & fl1 & E1 & G1 & L1 & N1 & C1); [lia|].
  rewrite (bind_run _ _ _ _ _ E1). destruct C1 as [[-> Hf1]|(p0 & Hp0 & Er & Hr0)].
  { exists (-1), s1, T1, fl1. split_and!; [done | done | lia | by right]. }
  destruct (Z.eqb_spec r 0); [done|]. cbv iota. unfold ldpte, gets. erewrite bind_run by reflexivity.
  assert (load64 (pmem s1) r = entry (pmem s1) T1 va) as -> by (unfold entry; by rewrite Hp0, Er).
  rewrite (N1 va), Hfree. unfold stpte, upd_mem. erewrite bind_run by reflexivity. rewrite Z.eqb_refl, Er.
  destruct (set_leaf s1 root T1 fl1 va p0 (Z.lor (Z.lor (PA2PTE pa) perm) PTE_V) (gr_ok _ _ _ _ _ _ _ G1) Hp0)
    as (Hv2 & Hk2 & He2); [lia|]. set (s2 := set_mem _ s1) in *.
  exists 0, s2, T1, fl1. split_and!; [done | | lia | left].
  - eapply grown_trans; [exact G1|]. split; [done | done | by exists [] | done | done].
  - split; [done|]. intros va' Hva'. rewrite He2, N1 by done. done.
Qed.

(** An operation that may have added tables. *)
Lemma us_grown s root top T fl fs X s' T' fl' :
  uspace s root top T fl fs X -> grown s T fl s' root T' fl' ->
  fl ++ tabs T ≡ₚ fl' ++ tabs T' /\ NoDup (fl' ++ tabs T' ++ fs.*1 ++ X) /\
  (forall f, f ∈ fs.*1 ++ X -> page_ok s' f) /\ keeps s s' (fs.*1 ++ X).
Proof.
  intros Hu [Hv Hsub (used & -> & Ht) Hkept Hk]. pose proof (us_nodup _ _ _ _ _ _ _ Hu) as Hnd.
  assert ((used ++ fl') ++ tabs T ≡ₚ fl' ++ tabs T') as Hp by (by rewrite Ht, (Permutation_app_comm used), <- app_assoc).
  rewrite !app_assoc in Hnd. rewrite Hp in Hnd. rewrite <- !app_assoc in Hnd.
  assert (forall f, f ∈ fs.*1 ++ X -> page_ok s' f) as Hok.
  { intros f Hf. unfold page_ok. rewrite Hk. by apply (us_ok _ _ _ _ _ _ _ Hu). }
  split_and!; [done | done | done |]. intros f o Hf Ho. apply Hkept. intros π q Hq.
  apply NoDup_app in Hnd as (_ & _ & Hnd). apply NoDup_app in Hnd as (_ & Hnd & _).
  assert (f <> q) as Hne by (intros ->; apply (Hnd q); [apply elem_of_tabs; eauto | done]).
  pose proof (page_ok_aligned _ _ (Hok f Hf)). pose proof (page_ok_aligned _ _ (pt_page _ _ _ (vm_pt _ _ _ _ Hv) _ _ Hq)).
  destruct (page_disjoint f q); auto; unfold PGSIZE in *; lia.
Qed.

Lemma same_page_eq a b : same_page a b = bool_decide (a / PGSIZE = b / PGSIZE).
Proof. unfold same_page. destruct (Z.eqb_spec (a / PGSIZE) (b / PGSIZE)); [by rewrite bool_decide_true | by rewrite bool_decide_false]. Qed.

(** Mapping page [a], which is in use, behind the last page of the process. *)
Lemma us_map s root top T fl fs a X perm :
  uspace s root top T fl fs (a :: X) -> (Z.of_nat (length fs) + 1) * PGSIZE <= TRAPFRAME -> leaf_perm perm ->
  exists r s' T' fl', mappages root (Z.of_nat (length fs) * PGSIZE) PGSIZE a perm s = Ok r s' /\
    fl ++ tabs T ≡ₚ fl' ++ tabs T' /\ (length fl <= length fl' + 2)%nat /\ keeps s s' (fs.*1 ++ a :: X) /\
    (r = 0 /\ uspace s' root top T' fl' (fs ++ [(a, perm)]) X \/
     r = -1 /\ fl' = [] /\ uspace s' root top T' fl' fs (a :: X)).
Proof.
  intros Hu Hlen Hperm. pose proof Hu as [Hv Hnd Hok Hp Hl Htp Hab]. pose proof (us_end _ _ _ _ _ _ _ Hu) as He.
  assert (PGSIZE = 4096) as HP by done. rewrite TRAPFRAME_val in *.
  set (va := Z.of_nat (length fs) * PGSIZE) in *.
  assert (page_ok s a) as Ha by (apply Hok; set_solver). pose proof (page_ok_bound _ _ He Ha).
  destruct (map_one s root T fl va a perm Hv) as (r & s' & T' & fl' & E & G & L & C);
    [unfold va; apply Z.mod_mul; done | unfold va; lia | unfold MAXVA, va; lia | lia | apply Hab; unfold va; lia|].
  destruct (us_grown _ _ _ _ _ _ _ _ _ _ Hu G) as (Hpe & Hnd' & Hok' & Hke).
  exists r, s', T', fl'. split_and!; [done | done | done | done |]. destruct C as [[-> N]|(-> & -> & N)].
  - left. split; [done|]. split.
    + apply G.
    + by rewrite fmap_app, <- (app_assoc fs.*1).
    + intros f Hf. apply Hok'. rewrite fmap_app, <- app_assoc in Hf. done.
    + intros j f p Hj. apply lookup_app_Some in Hj as [Hj|[Hge Hj]].
      * apply lookup_lt_Some in Hj as Hlt. rewrite N by (unfold va in *; lia). rewrite same_page_eq, bool_decide_false; [by apply Hp|].
        unfold va. rewrite !Z.div_mul by done. lia.
      * destruct (j - length fs)%nat eqn:Ej; [|done]. injection Hj as <- <-. split; [done|].
        replace (Z.of_nat j * PGSIZE) with va by (unfold va; f_equal; lia). rewrite N by (unfold va; lia).
        by rewrite same_page_eq, bool_decide_true.
    + rewrite length_app. cbn [length]. rewrite TRAPFRAME_val. lia.
    + intros va' Hva'. rewrite TRAPFRAME_val in Hva'. rewrite N by lia.
      rewrite same_page_eq, bool_decide_false; [apply Htp; lia|].
      unfold va. rewrite Z.div_mul by done. rewrite HP in *. intros Eq. mlia.
    + intros va' Hva'. rewrite length_app in Hva'. cbn [length] in Hva'. rewrite TRAPFRAME_val in Hva'.
      rewrite N by lia. rewrite same_page_eq, bool_decide_false; [apply Hab; unfold va; lia|].
      unfold va. rewrite Z.div_mul by done. rewrite HP in *. intros Eq. mlia.
  - right. split; [done|]. split; [done|]. split; [apply G | done | done | | done | |].
    + intros j f p Hj. rewrite N. by apply Hp.
    + intros va' Hva'. rewrite N. apply Htp. done.
    + intros va' Hva'. rewrite N. apply Hab. done.
Qed.

(** *** Unmapping the last pages *)

Lemma frames_of s root top T fl fs gs X :
  uspace s root top T fl (fs ++ gs) X ->
  frames (pmem s) T (Z.of_nat (length fs) * PGSIZE) (Z.of_nat (length gs)) = gs.*1.
Proof.
  intros Hu. pose proof (us_end _ _ _ _ _ _ _ Hu) as He. unfold frames. apply list_eq. intros j.
  rewrite !list_lookup_fmap. destruct (decide (j < length gs)%nat) as [Hj|Hj].
  - rewrite lookup_seqZ_lt by lia. destruct (lookup_lt_is_Some_2 gs j Hj) as [[f p] Ej]. rewrite Ej.
    cbn [fmap option_fmap option_map fst].
    assert ((fs ++ gs) !! (length fs + j)%nat = Some (f, p)) as Ef.
    { rewrite lookup_app_r by lia. by replace (length fs + j - length fs)%nat with j by lia. }
    destruct (us_perm _ _ _ _ _ _ _ Hu _ _ _ Ef) as [Hp En].
    replace (Z.of_nat (length fs) * PGSIZE + (0 + Z.of_nat j) * PGSIZE) with (Z.of_nat (length fs + j) * PGSIZE) by lia.
    rewrite En. f_equal. apply (pte_frame s); [done | | done]. apply (us_ok _ _ _ _ _ _ _ Hu).
    apply elem_of_app. left. apply list_elem_of_fmap. exists (f, p). split; [done|]. by eapply list_elem_of_lookup_2.
  - rewrite lookup_seqZ_ge by lia. by rewrite lookup_ge_None_2 by lia.
Qed.

Lemma us_frame s root top T fl fs X j f p :
  uspace s root top T fl fs X -> fs !! j = Some (f, p) ->
  page_ok s f /\ leaf_perm p /\ entry (pmem s) T (Z.of_nat j * PGSIZE) = pte_of f p.
Proof.
  intros Hu Hj. split; [|by eapply us_perm]. apply (us_ok _ _ _ _ _ _ _ Hu), elem_of_app. left.
  apply list_elem_of_fmap. exists (f, p). split; [done|]. by eapply list_elem_of_lookup_2.
Qed.

Lemma us_freeable s root top T fl fs gs X :
  uspace s root top T fl (fs ++ gs) X ->
  NoDup gs.*1 /\ forall f, f ∈ gs.*1 -> freeable s T fl f /\ f ∉ fs.*1 ++ X.
Proof.
  intros Hu. pose proof (us_nodup _ _ _ _ _ _ _ Hu) as Hnd. rewrite fmap_app, <- app_assoc in Hnd.
  rewrite (app_assoc fs.*1), (Permutation_app_comm fs.*1), <- app_assoc in Hnd.
  rewrite (app_assoc (tabs T)), (Permutation_app_comm (tabs T)), <- app_assoc, app_assoc in Hnd.
  rewrite (Permutation_app_comm fl), <- app_assoc in Hnd. apply NoDup_app in Hnd as (Hg & Hd & _). split; [done|].
  intros f Hf. specialize (Hd f Hf). split; [split_and!|].
  - apply (us_ok _ _ _ _ _ _ _ Hu). rewrite fmap_app. set_solver.
  - set_solver.
  - intros π Hq. assert (f ∈ tabs T) by (apply elem_of_tabs; eauto). set_solver.
  - set_solver.
Qed.

Lemma us_unmap s root top T fl fs gs X :
  uspace s root top T fl (fs ++ gs) X ->
  exists s', uvmunmap root (Z.of_nat (length fs) * PGSIZE) (Z.of_nat (length gs)) true s = Ok tt s' /\
    uspace s' root top T (rev gs.*1 ++ fl) fs X /\ keeps s s' (fs.*1 ++ X).
Proof.
  intros Hu. pose proof Hu as [Hv Hnd Hok Hp Hl Htp Hab]. pose proof (us_end _ _ _ _ _ _ _ Hu) as He.
  assert (PGSIZE = 4096) as HP by done. rewrite length_app, TRAPFRAME_val in Hl.
  pose proof (frames_of _ _ _ _ _ _ _ _ Hu) as Hfr. destruct (us_freeable _ _ _ _ _ _ _ _ Hu) as [Hg Hfree].
  set (va := Z.of_nat (length fs) * PGSIZE) in *.
  assert (va mod PGSIZE = 0 /\ va / PGSIZE = Z.of_nat (length fs)) as [Hal Hdiv]
    by (unfold va; split; [by apply Z.mod_mul | by apply Z.div_mul]).
  unfold uvmunmap. rewrite Hal. change (nz 0) with false. cbv iota. rewrite u64_id by (unfold va; lia). unfold for_pages.
  assert ((va + Z.of_nat (length gs) * PGSIZE - va + PGSIZE - 1) / PGSIZE = Z.of_nat (length gs)) as -> by (rewrite HP; mlia).
  rewrite Nat2Z.id.
  destruct (unmap_loop_ok root T true (length gs) (S (length gs)) s fl va Hv Hal) as (s' & E & V & K & S & N);
    [unfold va; lia | unfold va, MAXVA; lia | lia | | intros _; rewrite Hfr; split; [done | intros f Hf; by apply Hfree]|].
  { intros j Hj. destruct (lookup_lt_is_Some_2 gs (Z.to_nat j)) as [[f p] Ej]; [lia|].
    assert ((fs ++ gs) !! (length fs + Z.to_nat j)%nat = Some (f, p)) as Ef.
    { rewrite lookup_app_r by lia. by replace (length fs + Z.to_nat j - length fs)%nat with (Z.to_nat j) by lia. }
    destruct (us_frame _ _ _ _ _ _ _ _ _ _ Hu Ef) as (Hf & Hpe & En).
    replace (va + j * PGSIZE) with (Z.of_nat (length fs + Z.to_nat j) * PGSIZE) by (unfold va; lia).
    rewrite En. by apply (pte_leaf s). }
  rewrite Hfr in V, S. rewrite (bind_run _ _ _ _ _ E). exists s'. split_and!; [done | |].
  2: { intros f o Hf Ho. apply S; [eapply in_use_off; [done | rewrite fmap_app; set_solver | done]|].
    intros g Hin. destruct (apart_pages _ _ _ _ _ _ _ f g Hu); [rewrite fmap_app; set_solver.. | | lia | lia].
    intros ->. by apply (Hfree g Hin). }
  split; [done | | | | | |].
  - rewrite <- Permutation_rev. rewrite fmap_app, <- app_assoc in Hnd.
    rewrite (app_assoc fs.*1), (Permutation_app_comm fs.*1), <- app_assoc in Hnd.
    rewrite (app_assoc (tabs T)), (Permutation_app_comm (tabs T)), <- app_assoc, app_assoc in Hnd.
    by rewrite (Permutation_app_comm fl) in Hnd.
  - intros f Hf. unfold page_ok. rewrite K. apply Hok. rewrite fmap_app. set_solver.
  - intros j f p Hj. apply lookup_lt_Some in Hj as Hlt. rewrite N by lia. unfold in_pages. rewrite Hdiv, Z.div_mul by done.
    rewrite (proj2 (Z.leb_gt _ _)) by lia. cbn [andb]. apply Hp. by rewrite lookup_app_l.
  - rewrite TRAPFRAME_val. lia.
  - intros va' Hva'. rewrite <- Htp by done. rewrite TRAPFRAME_val in Hva'. rewrite N by lia. unfold in_pages. rewrite Hdiv.
    rewrite (proj2 (Z.ltb_ge (va' / PGSIZE) _)) by (rewrite HP in *; mlia). by rewrite andb_false_r.
  - intros va' Hva'. rewrite TRAPFRAME_val in Hva'. rewrite N by lia. destruct (in_pages va _ va') eqn:Ein; [done|].
    apply Hab. rewrite length_app, TRAPFRAME_val. split; [|lia]. unfold in_pages in Ein. rewrite Hdiv in Ein.
    rewrite (proj2 (Z.leb_le _ _)) in Ein by (rewrite HP in *; mlia). cbn [andb] in Ein. apply Z.ltb_ge in Ein. rewrite HP in *. mlia.
Qed.

(** *** One more page *)

Definition add_page (pagetable va perm : Z) (fill : Z -> mem -> mem) (err : M kst (option Z)) : M kst (option Z) :=
  let* p := kalloc in
  if p =? 0 then err
  else
    upd_mem (fill p) ;;
    let* e := mappages pagetable va PGSIZE p perm in
    if nz e then kfree p ;; err else ret None.

(** uvmalloc and uvmcopy take a page, fill it and map it behind the last one,
    or give it back and clean up. *)
Lemma add_page_ok s root top T fl fs X perm fill err :
  uspace s root top T fl fs X -> leaf_perm perm -> (Z.of_nat (length fs) + 1) * PGSIZE <= TRAPFRAME ->
  (forall p m, same_out m (fill p m) p) ->
  (exists a s' T' fl' m, add_page root (Z.of_nat (length fs) * PGSIZE) perm fill err s = Ok None s' /\
     uspace s' root top T' fl' (fs ++ [(a, perm)]) X /\ fl ++ tabs T ≡ₚ a :: fl' ++ tabs T' /\
     (length fl <= length fl' + 3)%nat /\ keeps s s' (fs.*1 ++ X) /\
     (forall g, g ∈ fs.*1 ++ X -> g + PGSIZE <= a \/ a + PGSIZE <= g) /\
     (forall f o, f ∈ fs.*1 ++ X -> 0 <= o < PGSIZE -> load8 m (f + o) = load8 (pmem s) (f + o)) /\
     forall o, 0 <= o < PGSIZE -> load8 (pmem s') (a + o) = load8 (fill a m) (a + o)) \/
  (exists s' T' fl', add_page root (Z.of_nat (length fs) * PGSIZE) perm fill err s = err s' /\
     uspace s' root top T' fl' fs X /\ fl ++ tabs T ≡ₚ fl' ++ tabs T' /\ (length fl <= 3)%nat /\ keeps s s' (fs.*1 ++ X)).
Proof.
  intros Hu Hl Hroom Hfill. unfold add_page. destruct fl as [|a fl].
  { right. exists s, T, []. pose proof (vm_free _ _ _ _ (us_vm _ _ _ _ _ _ _ Hu)) as Hf.
    rewrite (bind_run _ _ _ _ _ (kalloc_none s Hf)). cbn [length]. split_and!; [done | done | done | lia | done]. }
  destruct (us_kalloc _ _ _ _ _ _ _ _ Hu) as (s1 & E1 & Hz1 & Hu1 & Hk1). rewrite (bind_run _ _ _ _ _ E1).
  rewrite (proj2 (Z.eqb_neq _ _) Hz1). unfold upd_mem. erewrite bind_run by reflexivity.
  destruct (us_store _ _ _ _ _ _ _ _ (fill a (pmem s1)) Hu1 (Hfill _ _)) as [Hu2 Hk2]. set (s2 := set_mem _ s1) in *.
  destruct (us_map _ _ _ _ _ _ _ _ perm Hu2 Hroom Hl) as (r & s3 & T3 & fl3 & E3 & Hp3 & Hl3 & Hk3 & C).
  rewrite (bind_run _ _ _ _ _ E3).
  assert (keeps s s3 (fs.*1 ++ X)) as Hks.
  { eapply keeps_compose; [exact Hk1|]. eapply keeps_compose; [exact Hk2|]. eapply keeps_sub; [exact Hk3 | set_solver]. }
  destruct C as [[-> Hu3]|(-> & -> & Hu3)].
  - left. exists a, s3, T3, fl3, (pmem s1). cbn [app length]. split_and!; [done | done | by rewrite Hp3 | lia | done | | done |].
    + intros g Hg. apply or_comm. eapply apart_pages; [exact Hu1 | set_solver | set_solver |].
      intros ->. pose proof (us_nodup _ _ _ _ _ _ _ Hu1) as Hn. apply page_alone in Hn as (_ & _ & Hn). done.
    + intros o Ho. rewrite Hk3 by (set_solver || done). done.
  - right. destruct (us_kfree _ _ _ _ _ _ _ _ Hu3) as (s4 & E4 & Hu4 & Hk4). cbn iota.
    change (nz (-1)) with true. cbn iota. rewrite (bind_run _ _ _ _ _ E4). exists s4, T3, [a].
    cbn [length app] in *. split_and!; [done | done | by rewrite Hp3 | lia | by eapply keeps_compose].
Qed.

Lemma add_to (a : Z) (fl tb gs : list Z) : (a :: fl ++ tb) ++ gs ≡ₚ fl ++ tb ++ gs ++ [a].
Proof. cbn [app]. rewrite !app_assoc. apply Permutation_cons_append. Qed.

Lemma give_back (fl tb gs : list Z) : (fl ++ tb) ++ gs ≡ₚ (rev gs ++ fl) ++ tb.
Proof. rewrite <- Permutation_rev, (Permutation_app_comm (fl ++ tb)), app_assoc. done. Qed.

(** ** uvmdealloc and uvmalloc *)

(** The pages of [sz] bytes. *)
Definition pages (sz : Z) : Z := (sz + PGSIZE - 1) / PGSIZE.

Lemma PGROUNDUP_pages sz : 0 <= sz < 2 ^ 63 -> PGROUNDUP sz = pages sz * PGSIZE.
Proof. intros Hs. apply PGROUNDUP_spec; unfold PGSIZE; lia. Qed.

Lemma pages_mul n : pages (n * PGSIZE) = n.
Proof. unfold pages, PGSIZE. mlia. Qed.

Lemma uvmdealloc_ok s root top T fl fs X oldsz newsz :
  uspace s root top T fl fs X -> Z.of_nat (length fs) = pages oldsz -> 0 <= oldsz -> 0 <= newsz ->
  let k := Z.to_nat (pages newsz) in
  exists s', uvmdealloc root oldsz newsz s = Ok (Z.min oldsz newsz) s' /\
    uspace s' root top T (rev (drop k fs).*1 ++ fl) (take k fs) X /\ keeps s s' ((take k fs).*1 ++ X).
Proof.
  intros Hu Hlen Ho Hn k. pose proof (us_len _ _ _ _ _ _ _ Hu) as Hmax. rewrite TRAPFRAME_val, Hlen in Hmax.
  assert (PGSIZE = 4096) as HP by done.
  assert (oldsz <= pages oldsz * PGSIZE /\ 0 <= pages oldsz) as [Hop Hop0] by (unfold pages in *; rewrite HP in *; mlia).
  unfold uvmdealloc. destruct (Z.leb_spec oldsz newsz) as [Hle|Hgt].
  { assert (pages oldsz <= pages newsz) by (unfold pages; rewrite HP; mlia).
    rewrite drop_ge, take_ge by lia. cbn [fmap list_fmap rev app]. exists s. rewrite Z.min_l by lia. done. }
  assert (0 <= pages newsz <= pages oldsz) as Hpp by (unfold pages; rewrite HP; mlia).
  rewrite !PGROUNDUP_pages, Z.min_r by lia.
  destruct (Z.ltb_spec (pages newsz * PGSIZE) (pages oldsz * PGSIZE)) as [Hlt|Hge].
  - replace (pages oldsz * PGSIZE - pages newsz * PGSIZE) with ((pages oldsz - pages newsz) * PGSIZE) by lia.
    rewrite Z.div_mul by done. rewrite i32_id, u64_id by lia.
    assert (length (take k fs) = k) as Hk by (rewrite length_take; lia).
    rewrite <- (take_drop k fs) in Hu. destruct (us_unmap _ _ _ _ _ _ _ _ Hu) as (s' & E & Hu' & Hke).
    rewrite Hk, length_drop in E. unfold k in E at 1. rewrite Z2Nat.id in E by lia.
    replace (Z.of_nat (length fs - k)) with (pages oldsz - pages newsz) in E by lia.
    rewrite (bind_run _ _ _ _ _ E). by exists s'.
  - rewrite drop_ge, take_ge by lia. exists s. done.
Qed.

(** The frames [gs] hold zeros. *)
Definition zeroed (s : kst) (gs : list (Z * Z)) : Prop :=
  forall f o, f ∈ gs.*1 -> 0 <= o < PGSIZE -> load8 (pmem s) (f + o) = 0.

(** Giving up: the new pages [gs] go back. *)
Lemma alloc_undo s root top T fl fs gs X :
  uspace s root top T fl (fs ++ gs) X ->
  exists s', uvmdealloc root (Z.of_nat (length (fs ++ gs)) * PGSIZE) (Z.of_nat (length fs) * PGSIZE) s =
      Ok (Z.of_nat (length fs) * PGSIZE) s' /\
    uspace s' root top T (rev gs.*1 ++ fl) fs X /\ keeps s s' (fs.*1 ++ X).
Proof.
  intros Hu. destruct (uvmdealloc_ok s root top T fl (fs ++ gs) X (Z.of_nat (length (fs ++ gs)) * PGSIZE) (Z.of_nat (length fs) * PGSIZE)) as (s' & E & Hu' & Hk);
    [done | by rewrite pages_mul | unfold PGSIZE; lia | unfold PGSIZE; lia|].
  rewrite pages_mul, Nat2Z.id, take_app_length in Hu', Hk. rewrite drop_app_length in Hu'.
  exists s'. split; [|done]. rewrite E. f_equal. rewrite length_app. unfold PGSIZE. lia.
Qed.

(** The state between two turns of uvmalloc's loop that has added [gs]. *)
Definition allocating (s0 : kst) (T0 : gmap (list Z) Z) (fl0 : list Z) (root : Z) (top : Z -> Z) (fs : list (Z * Z)) (X : list Z) (perm : Z)
    (s : kst) (T : gmap (list Z) Z) (fl : list Z) (gs : list (Z * Z)) : Prop :=
  uspace s root top T fl (fs ++ gs) X /\ fl0 ++ tabs T0 ≡ₚ fl ++ tabs T ++ gs.*1 /\
  (length fl0 <= length fl + 3 * length gs)%nat /\ keeps s0 s (fs.*1 ++ X) /\
  zeroed s gs /\ Forall (fun g => g.2 = perm) gs.

Definition alloc_page (pagetable oldsz xperm a : Z) : M kst (option Z) :=
  add_page pagetable a (Z.lor (Z.lor PTE_R PTE_U) xperm) (fun p m => memset m p 0 PGSIZE)
    (uvmdealloc pagetable a oldsz ;; ret (Some 0)).

Lemma alloc_page_ok s0 T0 fl0 root top fs X xperm s T fl gs :
  let perm := Z.lor (Z.lor PTE_R PTE_U) xperm in
  allocating s0 T0 fl0 root top fs X perm s T fl gs ->
  leaf_perm perm -> (Z.of_nat (length (fs ++ gs)) + 1) * PGSIZE <= TRAPFRAME ->
  exists r s' T' fl', alloc_page root (Z.of_nat (length fs) * PGSIZE) xperm (Z.of_nat (length (fs ++ gs)) * PGSIZE) s = Ok r s' /\
    (r = None /\ (exists f, allocating s0 T0 fl0 root top fs X perm s' T' fl' (gs ++ [(f, perm)])) \/
     r = Some 0 /\ (length fl0 <= 3 * (length gs + 1))%nat /\
       uspace s' root top T' fl' fs X /\ fl0 ++ tabs T0 ≡ₚ fl' ++ tabs T' /\ keeps s0 s' (fs.*1 ++ X)).
Proof.
  intros perm (Hu & Hp & Hlen & Hk & Hz & Hperm) Hl Hroom. unfold alloc_page. fold perm.
  assert (fs.*1 ++ X ⊆ (fs ++ gs).*1 ++ X) as Hsub by (rewrite fmap_app; set_solver).
  destruct (add_page_ok s root top T fl (fs ++ gs) X perm (fun p m => memset m p 0 PGSIZE)
      (uvmdealloc root (Z.of_nat (length (fs ++ gs)) * PGSIZE) (Z.of_nat (length fs) * PGSIZE) ;; ret (Some 0)) Hu Hl Hroom)
    as [(a & s1 & T1 & fl1 & m & -> & Hu1 & Hp1 & Hl1 & Hk1 & _ & _ & Hm)|(s1 & T1 & fl1 & -> & Hu1 & Hp1 & Hl1 & Hk1)].
  { intros. apply memset_same_out. }
  - exists None, s1, T1, fl1. split; [done|]. left. split; [done|]. exists a. split_and!.
    + by rewrite app_assoc.
    + by rewrite Hp, app_assoc, Hp1, fmap_app, add_to.
    + rewrite length_app. cbn [length]. lia.
    + eapply keeps_compose; [exact Hk | by eapply keeps_sub].
    + intros f o Hf Ho. rewrite fmap_app in Hf. apply elem_of_app in Hf as [Hf|Hf].
      * rewrite Hk1 by (rewrite ?fmap_app; set_solver || done). by apply Hz.
      * apply list_elem_of_singleton in Hf as ->. cbn [fst]. rewrite Hm by done.
        rewrite memset_load8, decide_True; [done | unfold PGSIZE in *; lia].
    + apply Forall_app. split; [done|]. by repeat constructor.
  - destruct (alloc_undo _ _ _ _ _ _ _ _ Hu1) as (s2 & E2 & Hu2 & Hk2). rewrite (bind_run _ _ _ _ _ E2).
    exists (Some 0), s2, T1, (rev gs.*1 ++ fl1). split; [done|]. right. split_and!; [done | lia | done | |].
    + by rewrite Hp, app_assoc, Hp1, give_back.
    + eapply keeps_compose; [exact Hk|]. eapply keeps_compose; [by eapply keeps_sub | done].
Qed.

(** uvmalloc's loop, with [k] pages to go. *)
Lemma alloc_loop_ok s0 T0 fl0 root top fs X xperm newsz k : forall fuel s T fl gs,
  let perm := Z.lor (Z.lor PTE_R PTE_U) xperm in
  allocating s0 T0 fl0 root top fs X perm s T fl gs ->
  leaf_perm perm -> pages newsz = Z.of_nat (length (fs ++ gs) + k) -> (k < fuel)%nat ->
  (Z.of_nat (length fs) + Z.of_nat (length (fl0 ++ tabs T0)) + 1) * PGSIZE <= TRAPFRAME ->
  exists r s' T' fl', pages_loop fuel (Z.of_nat (length (fs ++ gs)) * PGSIZE) newsz
      (alloc_page root (Z.of_nat (length fs) * PGSIZE) xperm) s = Ok r s' /\
    (r = None /\ (exists gs', length gs' = (length gs + k)%nat /\ allocating s0 T0 fl0 root top fs X perm s' T' fl' gs') \/
     r = Some 0 /\ (length fl0 <= 3 * (length gs + k))%nat /\
       uspace s' root top T' fl' fs X /\ fl0 ++ tabs T0 ≡ₚ fl' ++ tabs T' /\ keeps s0 s' (fs.*1 ++ X)).
Proof.
  assert (PGSIZE = 4096) as HP by done.
  induction k as [|k IH]; intros [|fuel] s T fl gs perm Ha Hperm Hpg Hfuel Hmax; try lia; cbn [pages_loop].
  { rewrite (proj2 (Z.ltb_ge _ _)) by (unfold pages in Hpg; rewrite HP in *; mlia).
    exists None, s, T, fl. split; [done|]. left. split; [done|]. exists gs. by rewrite Nat.add_0_r. }
  rewrite (proj2 (Z.ltb_lt _ _)) by (unfold pages in Hpg; rewrite HP in *; mlia). rewrite TRAPFRAME_val in Hmax.
  assert ((Z.of_nat (length (fs ++ gs)) + 1) * PGSIZE <= 2 ^ 38 - 8192) as Hroom.
  { destruct Ha as (_ & Hp%Permutation_length & _). rewrite Hp, !length_app, (length_fmap fst gs) in Hmax. rewrite length_app. unfold PGSIZE in *. lia. }
  destruct (alloc_page_ok _ _ _ _ _ _ _ _ _ _ _ _ Ha Hperm) as (r & s1 & T1 & fl1 & E1 & C); [by rewrite TRAPFRAME_val|].
  rewrite (bind_run _ _ _ _ _ E1). destruct C as [[-> [f Ha1]]|(-> & Hfl & Hrest)].
  - rewrite u64_id by lia.
    replace (Z.of_nat (length (fs ++ gs)) * PGSIZE + PGSIZE) with (Z.of_nat (length (fs ++ gs ++ [(f, perm)])) * PGSIZE)
      by (rewrite !length_app; cbn [length]; lia).
    destruct (IH fuel s1 T1 fl1 (gs ++ [(f, perm)]) Ha1 Hperm) as (r & s2 & T2 & fl2 & E2 & C2).
    + rewrite Hpg. f_equal. rewrite !length_app. cbn [length]. lia.
    + lia.
    + by rewrite TRAPFRAME_val.
    + exists r, s2, T2, fl2. split; [exact E2|]. rewrite length_app in C2. cbn [length] in C2.
      replace (length gs + 1 + k)%nat with (length gs + S k)%nat in C2 by lia. exact C2.
  - exists (Some 0), s1, T1, fl1. split; [done|]. right. split; [done|]. split; [lia | done].
Qed.

Lemma uvmalloc_ok s root top T fl fs X oldsz newsz xperm :
  let perm := Z.lor (Z.lor PTE_R PTE_U) xperm in
  uspace s root top T fl fs X -> leaf_perm perm -> 0 <= oldsz <= newsz -> Z.of_nat (length fs) = pages oldsz ->
  let k := (Z.to_nat (pages newsz) - length fs)%nat in
  exists r s' T' fl' gs, uvmalloc root oldsz newsz xperm s = Ok r s' /\
    uspace s' root top T' fl' (fs ++ gs) X /\ keeps s s' (fs.*1 ++ X) /\ fl ++ tabs T ≡ₚ fl' ++ tabs T' ++ gs.*1 /\
    (r = newsz /\ length gs = k /\ zeroed s' gs /\ Forall (fun g => g.2 = perm) gs \/
     r = 0 /\ gs = [] /\ (length fl <= 3 * k)%nat).
Proof.
  intros perm Hu Hperm [Ho Hn] Hlen k. pose proof (us_room _ _ _ _ _ _ _ Hu) as Hmax. pose proof Hmax as Hmax'. rewrite TRAPFRAME_val in Hmax'.
  assert (PGSIZE = 4096) as HP by done.
  assert (oldsz <= pages oldsz * PGSIZE /\ pages oldsz <= pages newsz) as [Hnp Hop] by (unfold pages; rewrite HP; mlia).
  rewrite <- Hlen in Hnp. unfold uvmalloc. rewrite (proj2 (Z.ltb_ge _ _)) by lia. cbv zeta. rewrite PGROUNDUP_pages, <- Hlen by lia.
  fold (alloc_page root (Z.of_nat (length fs) * PGSIZE) xperm).
  change (for_pages _ _ _) with (for_pages (Z.of_nat (length fs) * PGSIZE) newsz (alloc_page root (Z.of_nat (length fs) * PGSIZE) xperm)).
  unfold for_pages. destruct (alloc_loop_ok s T fl root top fs X xperm newsz k
    (S (Z.to_nat ((newsz - Z.of_nat (length fs) * PGSIZE + PGSIZE - 1) / PGSIZE))) s T fl []) as (r & s' & T' & fl' & E & C).
  - unfold allocating. cbn [fmap list_fmap length]. rewrite !app_nil_r. split_and!; try done; [lia|].
    intros f o Hf. by apply elem_of_nil in Hf.
  - done.
  - rewrite app_nil_r. lia.
  - unfold k, pages. rewrite HP. mlia.
  - done.
  - rewrite app_nil_r in E. rewrite (bind_run _ _ _ _ _ E). destruct C as [[-> (gs & Hg & Hu' & Hp & _ & Hk & Hz & Hf)]|(-> & Hfl & Hu' & Hp & Hk)].
    + exists newsz, s', T', fl', gs. split_and!; try done. by left.
    + exists 0, s', T', fl', []. rewrite !app_nil_r. split_and!; try done. right. done.
Qed.

(** ** uvmcopy *)

(** Pages that read the same hold the same tables. *)
Lemma tables_keep s s' root T :
  ptwf s root T -> (forall q, q ∈ tabs T -> page_ok s' q) -> keeps s s' (tabs T) ->
  ptwf s' root T /\ forall va, entry (pmem s') T va = entry (pmem s) T va.
Proof.
  intros Hw Hk Hke. assert (forall π q i, T !! π = Some q -> 0 <= i < 512 ->
    load64 (pmem s') (q + 8 * i) = load64 (pmem s) (q + 8 * i)) as Hrd.
  { intros π q i Hq Hi. apply load64_ext. intros x Hx. replace x with (q + (x - q)) by lia.
    apply Hke; [apply elem_of_tabs; eauto | unfold PGSIZE; lia]. }
  split; [|intros va; by apply entry_ext]. destruct Hw as [Wr Wp Wi We Wc Wg]. split; try done.
  - intros π q Hq. apply Hk, elem_of_tabs. eauto.
  - intros π q i Hq Hl Hi. rewrite (Hrd π q i Hq Hi). by apply We.
Qed.

(** The address space of the parent, as the child's is filled. *)
Record parent (s : kst) (old : Z) (Tp : gmap (list Z) Z) (fs : list (Z * Z)) : Prop := {
  pa_pt : ptwf s old Tp;
  pa_perm : forall j f p, fs !! j = Some (f, p) -> leaf_perm p /\ entry (pmem s) Tp (Z.of_nat j * PGSIZE) = pte_of f p;
}.

Lemma parent_keep s s' old Tp fs ps :
  parent s old Tp fs -> (forall q, q ∈ tabs Tp -> page_ok s' q) -> keeps s s' ps -> tabs Tp ⊆ ps -> parent s' old Tp fs.
Proof.
  intros [Hw Hp] Hk Hke Hsub. destruct (tables_keep s s' old Tp Hw Hk) as [Hw' He]; [by eapply keeps_sub|].
  split; [done|]. intros j f p Hj. rewrite He. by apply Hp.
Qed.

(** The frames [gs] are copies of the first of [fs]. *)
Definition copied (s : kst) (fs gs : list (Z * Z)) : Prop :=
  forall j g q, gs !! j = Some (g, q) -> exists f p, fs !! j = Some (f, p) /\ q = Z.lor p PTE_V /\
    forall o, 0 <= o < PGSIZE -> load8 (pmem s) (g + o) = load8 (pmem s) (f + o).

Definition copy_page (old new i : Z) : M kst (option Z) :=
  let* pte := walk old i false in
  if pte =? 0 then panic "uvmcopy: pte should exist"
  else
    let* e := ldpte pte in
    if negb (has e PTE_V) then panic "uvmcopy: page not present"
    else add_page new i (PTE_FLAGS e) (fun p m => memmove m p (PTE2PA e) PGSIZE)
      (uvmunmap new 0 (i / PGSIZE) true ;; ret (Some (-1))).

(** Between two turns of the loop: the child has the copies [gs]. *)
Record copying (s0 : kst) (T0 : gmap (list Z) Z) (fl0 : list Z) (old new : Z) (ntop : Z -> Z) (Tp : gmap (list Z) Z)
    (fs : list (Z * Z)) (X : list Z) (s : kst) (T : gmap (list Z) Z) (fl : list Z) (gs : list (Z * Z)) : Prop := {
  cp_child : uspace s new ntop T fl gs (tabs Tp ++ fs.*1 ++ X);
  cp_parent : parent s old Tp fs;
  cp_pages : fl0 ++ tabs T0 ≡ₚ fl ++ tabs T ++ gs.*1;
  cp_few : (length fl0 <= length fl + 3 * length gs)%nat;
  cp_keeps : keeps s0 s (tabs Tp ++ fs.*1 ++ X);
  cp_copied : copied s fs gs;
}.

(** The loop gave up. *)
Definition copy_failed (s0 : kst) (T0 : gmap (list Z) Z) (fl0 : list Z) (new : Z) (ntop : Z -> Z) (Tp : gmap (list Z) Z)
    (fs : list (Z * Z)) (X : list Z) (s : kst) (T : gmap (list Z) Z) (fl : list Z) : Prop :=
  uspace s new ntop T fl [] (tabs Tp ++ fs.*1 ++ X) /\ fl0 ++ tabs T0 ≡ₚ fl ++ tabs T /\
  keeps s0 s (tabs Tp ++ fs.*1 ++ X).

(** The pages in other use are pages. *)
Lemma us_tabs s root top T fl gs Tp fs X q :
  uspace s root top T fl gs (tabs Tp ++ fs ++ X) -> q ∈ tabs Tp -> page_ok s q.
Proof. intros Hu Hq. apply (us_ok _ _ _ _ _ _ _ Hu). set_solver. Qed.

(** The parent's entry of page j, read by walk. *)
Lemma parent_walk s old Tp fs j f p :
  parent s old Tp fs -> 0 < kend s -> fs !! j = Some (f, p) -> page_ok s f -> Z.of_nat j * PGSIZE < TRAPFRAME ->
  exists pte, pte <> 0 /\ walk old (Z.of_nat j * PGSIZE) false s = Ok pte s /\ ldpte pte s = Ok (pte_of f p) s.
Proof.
  intros [Hw Hp] He Hj Hf Hlt. destruct (Hp _ _ _ Hj) as [Hpe En]. rewrite TRAPFRAME_val in Hlt.
  set (va := Z.of_nat j * PGSIZE) in *. assert (0 <= va < MAXVA) as Hva by (unfold va, MAXVA, PGSIZE in *; lia).
  pose proof (walk_lookup s old Tp va Hw He Hva) as E.
  destruct (pte_leaf s f p He Hf Hpe) as [HV _]. unfold entry in En.
  unfold leaf_slot in E. destruct (Tp !! [PX 2 va; PX 1 va]) as [p0|] eqn:E0; [|by rewrite <- En in HV].
  pose proof (page_ok_bound _ _ He (pt_page _ _ _ Hw _ _ E0)). pose proof (PX_range 0 va).
  exists (p0 + 8 * PX 0 va). split; [lia|]. split; [done|]. unfold ldpte, gets. by rewrite En.
Qed.

Lemma copy_undo new ntop Tp (fs : list (Z * Z)) X s T fl gs :
  uspace s new ntop T fl gs (tabs Tp ++ fs.*1 ++ X) ->
  exists s', uvmunmap new 0 (Z.of_nat (length gs) * PGSIZE / PGSIZE) true s = Ok tt s' /\
    uspace s' new ntop T (rev gs.*1 ++ fl) [] (tabs Tp ++ fs.*1 ++ X) /\ keeps s s' (tabs Tp ++ fs.*1 ++ X).
Proof.
  intros Hu. destruct (us_unmap s new ntop T fl [] gs _ Hu) as (s' & E & Hu' & Hk).
  exists s'. rewrite Z.div_mul by done. done.
Qed.

Lemma copied_more s (fs gs : list (Z * Z)) s' a f p ps :
  copied s fs gs -> keeps s s' ps -> fs.*1 ⊆ ps -> gs.*1 ⊆ ps -> fs !! length gs = Some (f, p) ->
  (forall o, 0 <= o < PGSIZE -> load8 (pmem s') (a + o) = load8 (pmem s') (f + o)) ->
  copied s' fs (gs ++ [(a, Z.lor p PTE_V)]).
Proof.
  intros Hc Hk Hf Hg Hj Ha j g q Hgj. apply lookup_app_Some in Hgj as [Hgj|[Hge Hgj]].
  - destruct (Hc j g q Hgj) as (f' & p' & Ef & -> & Hb). exists f', p'. split_and!; [done | done|].
    intros o Ho. rewrite !Hk; [by apply Hb | | done | | done].
    + apply Hf, list_elem_of_fmap. exists (f', p'). split; [done|]. by eapply list_elem_of_lookup_2.
    + apply Hg, list_elem_of_fmap. exists (g, Z.lor p' PTE_V). split; [done|]. by eapply list_elem_of_lookup_2.
  - destruct (j - length gs)%nat eqn:Ej; [|done]. injection Hgj as <- <-. exists f, p.
    replace j with (length gs) by lia. done.
Qed.

Lemma copy_page_ok s0 T0 fl0 old new ntop Tp fs X s T fl gs f p :
  copying s0 T0 fl0 old new ntop Tp fs X s T fl gs -> fs !! length gs = Some (f, p) ->
  Z.of_nat (length fs) * PGSIZE <= TRAPFRAME ->
  exists r s' T' fl', copy_page old new (Z.of_nat (length gs) * PGSIZE) s = Ok r s' /\
    (r = None /\ (exists g, copying s0 T0 fl0 old new ntop Tp fs X s' T' fl' (gs ++ [(g, Z.lor p PTE_V)])) \/
     r = Some (-1) /\ (length fl0 <= 3 * (length gs + 1))%nat /\ copy_failed s0 T0 fl0 new ntop Tp fs X s' T' fl').
Proof.
  intros [Hu Hpa Hp Hlen Hk Hc] Hj Hmax. apply lookup_lt_Some in Hj as Hlt. pose proof (us_end _ _ _ _ _ _ _ Hu) as He.
  set (Y := tabs Tp ++ fs.*1 ++ X) in *. assert (f ∈ Y) as HfY.
  { unfold Y. apply elem_of_app. right. apply elem_of_app. left. apply list_elem_of_fmap. exists (f, p).
    split; [done|]. by eapply list_elem_of_lookup_2. }
  assert (page_ok s f) as Hf by (apply (us_ok _ _ _ _ _ _ _ Hu); set_solver).
  destruct (parent_walk s old Tp fs _ f p Hpa He Hj Hf) as (pte & Hnz & E1 & E2); [unfold PGSIZE in *; lia|].
  destruct (pa_perm _ _ _ _ Hpa _ _ _ Hj) as [Hpe _].
  unfold copy_page. rewrite (bind_run _ _ _ _ _ E1), (proj2 (Z.eqb_neq _ _) Hnz), (bind_run _ _ _ _ _ E2).
  rewrite (proj1 (pte_leaf s f p He Hf Hpe)). cbn [negb].
  rewrite (pte_frame s f p He Hf Hpe), (pte_flags s f p He Hf Hpe).
  destruct (add_page_ok s new ntop T fl gs Y (Z.lor p PTE_V) (fun q m => memmove m q f PGSIZE)
      (uvmunmap new 0 (Z.of_nat (length gs) * PGSIZE / PGSIZE) true ;; ret (Some (-1))) Hu (leaf_perm_V _ Hpe))
    as [(a & s1 & T1 & fl1 & m & -> & Hu1 & Hp1 & Hl1 & Hk1 & Hap & Hm & Hm')|(s1 & T1 & fl1 & -> & Hu1 & Hp1 & Hl1 & Hk1)].
  { unfold PGSIZE in *. lia. }
  { intros q m x Hx. rewrite memmove_load8 by done. rewrite decide_False; [done | lia]. }
  - exists None, s1, T1, fl1. split; [done|]. left. split; [done|]. exists a. split.
    + done.
    + eapply parent_keep; [exact Hpa | intros q Hq; by eapply us_tabs | exact Hk1 | unfold Y; set_solver].
    + by rewrite Hp, app_assoc, Hp1, fmap_app, add_to.
    + rewrite length_app. cbn [length]. lia.
    + eapply keeps_compose; [exact Hk | eapply keeps_sub; [exact Hk1 | set_solver]].
    + apply (copied_more s fs gs s1 a f p _ Hc Hk1); [unfold Y; set_solver | set_solver | done|].
      intros o Ho. rewrite Hm' by done. rewrite memmove_load8 by done. rewrite decide_True by lia.
      replace (a + o - a) with o by lia. rewrite Hm by (set_solver || done). by rewrite Hk1 by (set_solver || done).
  - destruct (copy_undo _ _ _ _ _ _ _ _ _ Hu1) as (s2 & E3 & Hu2 & Hk2). rewrite (bind_run _ _ _ _ _ E3).
    exists (Some (-1)), s2, T1, (rev gs.*1 ++ fl1). split; [done|]. right. split; [done|]. split; [lia|]. split_and!; [done | |].
    + by rewrite Hp, app_assoc, Hp1, give_back.
    + eapply keeps_compose; [exact Hk|]. eapply keeps_compose; [eapply keeps_sub; [exact Hk1 | set_solver] | done].
Qed.

Lemma copy_loop_ok s0 T0 fl0 old new ntop Tp fs X sz k : forall fuel s T fl gs,
  copying s0 T0 fl0 old new ntop Tp fs X s T fl gs -> length fs = (length gs + k)%nat ->
  Z.of_nat (length fs) = pages sz -> pages sz * PGSIZE <= TRAPFRAME -> (k < fuel)%nat ->
  exists r s' T' fl', pages_loop fuel (Z.of_nat (length gs) * PGSIZE) sz (copy_page old new) s = Ok r s' /\
    (r = None /\ (exists gs', length gs' = length fs /\ copying s0 T0 fl0 old new ntop Tp fs X s' T' fl' gs') \/
     r = Some (-1) /\ (length fl0 <= 3 * length fs)%nat /\ copy_failed s0 T0 fl0 new ntop Tp fs X s' T' fl').
Proof.
  assert (PGSIZE = 4096) as HP by done.
  induction k as [|k IH]; intros [|fuel] s T fl gs Hc Hk Hpg Hmax Hfuel; try lia; cbn [pages_loop].
  { rewrite (proj2 (Z.ltb_ge _ _)) by (unfold pages in Hpg; rewrite HP in *; mlia).
    exists None, s, T, fl. split; [done|]. left. split; [done|]. exists gs. split; [lia | done]. }
  rewrite (proj2 (Z.ltb_lt _ _)) by (unfold pages in Hpg; rewrite HP in *; mlia).
  destruct (lookup_lt_is_Some_2 fs (length gs)) as [[f p] Hj]; [lia|].
  destruct (copy_page_ok _ _ _ _ _ _ _ _ _ _ _ _ _ _ _ Hc Hj) as (r & s1 & T1 & fl1 & E1 & C); [by rewrite Hpg|].
  rewrite TRAPFRAME_val in Hmax. rewrite (bind_run _ _ _ _ _ E1). destruct C as [[-> [g Hc1]]|(-> & Hfl & Hrest)].
  - rewrite u64_id by lia.
    replace (Z.of_nat (length gs) * PGSIZE + PGSIZE) with (Z.of_nat (length (gs ++ [(g, Z.lor p PTE_V)])) * PGSIZE)
      by (rewrite length_app; cbn [length]; lia).
    apply (IH fuel s1 T1 fl1 _ Hc1); try done; [rewrite length_app; cbn [length]; lia | lia].

  - exists (Some (-1)), s1, T1, fl1. split; [done|]. right. split; [done|]. split; [lia | done].
Qed.

(** The pages of [Y] are in use, whatever for. *)
Record others (s : kst) (fl Y : list Z) : Prop := {
  ot_free : free_pages s fl;
  ot_nodup : NoDup (fl ++ Y);
  ot_ok : forall f, f ∈ Y -> page_ok s f;
}.

Lemma us_others s root top T fl fs X :
  uspace s root top T fl fs X -> others s fl (tabs T ++ fs.*1 ++ X).
Proof.
  intros [[Hf Hw _] Hnd Hok _ _ _ _]. split; [done | done|]. intros f [Hin|Hin]%elem_of_app; [|by apply Hok].
  apply elem_of_tabs in Hin as [π Hq]. by eapply pt_page.
Qed.

Lemma others_perm s fl Y Y' : others s fl Y -> Y ≡ₚ Y' -> others s fl Y'.
Proof. intros [Hf Hn Hok] E. split; [done | by rewrite <- E|]. intros f Hin. apply Hok. by rewrite E. Qed.

(** An address space is what it was after changes elsewhere. *)
Lemma us_restore s s' old otop Tp fl0 fs Y fl Z :
  uspace s old otop Tp fl0 fs Y -> others s' fl (tabs Tp ++ fs.*1 ++ Z) -> keeps s s' (tabs Tp) ->
  uspace s' old otop Tp fl fs Z.
Proof.
  intros [[_ Hw0 _] _ _ Hp Hl Htp Hab] [Hf Hnd Hok] Hk.
  destruct (tables_keep s s' old Tp Hw0) as [Hw He]; [intros q Hq; apply Hok; set_solver | done|].
  split.
  - split; [done | done|]. intros π q Hq Hin. apply NoDup_app in Hnd as (_ & Hd & _). apply (Hd q Hin).
    apply elem_of_app. left. apply elem_of_tabs. eauto.
  - done.
  - intros f Hin. apply Hok. set_solver.
  - intros j f p Hj. rewrite He. by apply Hp.
  - done.
  - intros va Hva. rewrite He. by apply Htp.
  - intros va Hva. rewrite He. by apply Hab.
Qed.

Lemma beside_perm (tb fs tb' gs X : list Z) : tb' ++ gs ++ tb ++ fs ++ X ≡ₚ tb ++ fs ++ tb' ++ gs ++ X.
Proof. rewrite (app_assoc tb' gs), (Permutation_app_comm (tb' ++ gs)), <- !app_assoc, (Permutation_app_comm X), <- !app_assoc. done. Qed.

Lemma uvmcopy_ok s old otop Tp fs new ntop T fl X sz :
  uspace s old otop Tp fl fs (tabs T ++ X) -> uspace s new ntop T fl [] (tabs Tp ++ fs.*1 ++ X) ->
  0 <= sz -> Z.of_nat (length fs) = pages sz ->
  exists r s' T' fl' gs, uvmcopy old new sz s = Ok r s' /\
    uspace s' new ntop T' fl' gs (tabs Tp ++ fs.*1 ++ X) /\ uspace s' old otop Tp fl' fs (tabs T' ++ gs.*1 ++ X) /\
    keeps s s' (fs.*1 ++ X) /\ fl ++ tabs T ≡ₚ fl' ++ tabs T' ++ gs.*1 /\
    (r = 0 /\ length gs = length fs /\ copied s' fs gs \/ r = -1 /\ gs = [] /\ (length fl <= 3 * length fs)%nat).
Proof.
  intros Ho Hn Hsz Hlen. pose proof Ho as [[_ Hw _] _ _ Hp Hl Htp Hab]. pose proof Hl as Hl'. rewrite TRAPFRAME_val in Hl'.
  assert (PGSIZE = 4096) as HP by done.
  assert (sz <= pages sz * PGSIZE) as Hszp by (unfold pages; rewrite HP; mlia).
  assert (copying s T fl old new ntop Tp fs X s T fl []) as Hc.
  { split; [done | by split | | cbn; lia | done |]; [cbn [fmap list_fmap]; by rewrite app_nil_r|]. intros j g q Hj. done. }
  destruct (copy_loop_ok s T fl old new ntop Tp fs X sz (length fs) (S (Z.to_nat ((sz - 0 + PGSIZE - 1) / PGSIZE))) s T fl [] Hc)
    as (r & s' & T' & fl' & E & C); [cbn; lia | done | by rewrite <- Hlen | rewrite Z.sub_0_r; fold (pages sz); lia|].
  assert (uvmcopy old new sz s = Ok (match r with Some v => v | None => 0 end) s') as Er.
  { unfold uvmcopy. change (for_pages 0 sz _) with (for_pages 0 sz (copy_page old new)). unfold for_pages.
    change 0 with (Z.of_nat (length (@nil (Z * Z))) * PGSIZE) at 2. by rewrite (bind_run _ _ _ _ _ E). }
  assert (forall gs, uspace s' new ntop T' fl' gs (tabs Tp ++ fs.*1 ++ X) -> keeps s s' (tabs Tp ++ fs.*1 ++ X) ->
    uspace s' old otop Tp fl' fs (tabs T' ++ gs.*1 ++ X)) as Hpar.
  { intros gs Hu Hk. eapply us_restore; [exact Ho | | eapply keeps_sub; [exact Hk | set_solver]].
    eapply others_perm; [apply (us_others _ _ _ _ _ _ _ Hu) | apply beside_perm]. }
  destruct C as [[-> (gs & Hg & [Hu Hpa Hpe _ Hk Hcd])]|(-> & Hfl & Hu & Hpe & Hk)].
  - exists 0, s', T', fl', gs. split; [exact Er|]. split; [done|]. split; [by apply Hpar|].
    split; [eapply keeps_sub; [exact Hk | set_solver]|]. split; [done|]. left. done.
  - exists (-1), s', T', fl', []. split; [exact Er|]. split; [done|]. split; [by apply Hpar|].
    split; [eapply keeps_sub; [exact Hk | set_solver]|]. split; [cbn [fmap list_fmap]; by rewrite app_nil_r|]. right. done.
Qed.
