(* ===== verification/Uvmfree.v ===== *)
(** * Freeing an address space

    freewalk and uvmfree of vm.c give the pages back: freewalk the tables, from
    the leaves of the tree up, uvmfree the frames of the user memory before
    them. [nodes] lists the tables of a tree in the order in which freewalk
    frees them. *)

From stdpp Require Import base gmap list strings.
From Stdlib Require Import ZArith Lia.
From S2P Require Import Prelude Mem Cstring Kalloc Vm Uvm.

(** ** The tree of tables *)

(** The tables below the path [π], with their paths, [d] levels deep. *)
Fixpoint nodes (T : gmap (list Z) Z) (d : nat) (π : list Z) : list (list Z * Z) :=
  match d, T !! π with
  | S d, Some p => (indices 512 ≫= fun i => nodes T d (π ++ [i])) ++ [(π, p)]
  | _, _ => []
  end.

(** An entry freewalk passes over: free, or a leaf. *)
Definition childless (e : Z) : Prop :=
  has e PTE_V && (Z.land e (Z.lor PTE_R (Z.lor PTE_W PTE_X)) =? 0) = false.

(** Entry [k] of the table at [π] leads to the table below it or nowhere. *)
Definition slot_ok (T : gmap (list Z) Z) (π : list Z) (k e : Z) : Prop :=
  match T !! (π ++ [k]) with Some q => e = Z.lor (PA2PTE q) PTE_V | None => childless e end.

Section tree.
Context (T : gmap (list Z) Z).
Hypothesis inj : forall π π' p, T !! π = Some p -> T !! π' = Some p -> π = π'.

Lemma elem_of_nodes d : forall π π' q, (π', q) ∈ nodes T d π ->
  exists κ, π' = π ++ κ /\ (length κ < d)%nat /\ T !! π' = Some q.
Proof.
  induction d as [|d IH]; intros π π' q Hq; cbn [nodes] in Hq; [by apply elem_of_nil in Hq|].
  destruct (T !! π) as [p|] eqn:E; [|by apply elem_of_nil in Hq].
  apply elem_of_app in Hq as [Hq|Hq%list_elem_of_singleton].
  - apply list_elem_of_bind in Hq as (i & (κ & -> & Hl & HT)%IH & _). exists ([i] ++ κ).
    rewrite app_assoc. cbn [length app]. split_and!; [done | lia | by rewrite <- app_assoc in *].
  - injection Hq as -> ->. exists []. rewrite app_nil_r. cbn. split_and!; [done | lia | done].
Qed.

Lemma elem_of_nodes_rev d : forall π κ q,
  (forall κ1 κ2, is_Some (T !! (π ++ κ1 ++ κ2)) -> is_Some (T !! (π ++ κ1))) ->
  T !! (π ++ κ) = Some q -> (length κ < d)%nat -> Forall (fun i => 0 <= i < 512) κ -> (π ++ κ, q) ∈ nodes T d π.
Proof.
  induction d as [|d IH]; intros π κ q Hcl HT Hl Hr; [lia|]. cbn [nodes].
  destruct (Hcl [] κ) as [p Hp]; [cbn [app]; eauto|]. rewrite app_nil_r in Hp. rewrite Hp. destruct κ as [|i κ].
  - rewrite app_nil_r in *. apply elem_of_app. right. apply list_elem_of_singleton. congruence.
  - apply Forall_cons in Hr as [Hi Hr]. apply elem_of_app. left. apply list_elem_of_bind. exists i.
    split; [|by apply elem_of_indices].
    replace (π ++ i :: κ) with ((π ++ [i]) ++ κ) in * by (by rewrite <- app_assoc).
    apply IH; [|done | cbn [length] in Hl; lia | done]. intros κ1 κ2 Hs. rewrite <- app_assoc in *.
    by apply (Hcl ([i] ++ κ1) κ2); rewrite <- app_assoc.
Qed.

(** Subtrees of different slots have different nodes. *)
Lemma nodes_apart d π i j x : x ∈ nodes T d (π ++ [i]) -> x ∈ nodes T d (π ++ [j]) -> i = j.
Proof.
  destruct x as [π' q]. intros (κ & -> & _)%elem_of_nodes (κ' & E & _)%elem_of_nodes.
  rewrite <- !app_assoc in E. by apply app_inv_head in E as [= ->].
Qed.

Lemma nodes_not_root d π i q : (π, q) ∉ nodes T d (π ++ [i]).
Proof.
  intros (κ & E & _)%elem_of_nodes. apply (f_equal length) in E. rewrite !length_app in E. cbn [length] in E. lia.
Qed.

Lemma NoDup_nodes d : forall π, NoDup (nodes T d π).
Proof.
  induction d as [|d IH]; intros π; cbn [nodes]; [constructor|]. destruct (T !! π) as [p|]; [|constructor].
  apply NoDup_app. split_and!.
  - apply NoDup_bind; [|by intros; apply IH | apply NoDup_seqZ]. intros i j x _ _. apply nodes_apart.
  - intros x Hx ->%list_elem_of_singleton. apply list_elem_of_bind in Hx as (i & Hi & _). by eapply nodes_not_root.
  - apply NoDup_singleton.
Qed.

(** A page is the table of one node. *)
Lemma nodes_page d d' π1 π2 q1 q2 : forall π π',
  (π1, q1) ∈ nodes T d π -> (π2, q2) ∈ nodes T d' π' -> q1 = q2 -> π1 = π2.
Proof. intros π π' (κ & _ & _ & H1)%elem_of_nodes (κ' & _ & _ & H2)%elem_of_nodes ->. by eapply inj. Qed.

End tree.

(** The nodes of a whole page table are its tables. *)
Lemma nodes_tabs s root T : ptwf s root T -> (nodes T 3 []).*2 ≡ₚ tabs T.
Proof.
  intros Hw. unfold tabs. apply fmap_Permutation. apply NoDup_Permutation.
  - apply NoDup_nodes.
  - apply NoDup_map_to_list.
  - intros [π q]. rewrite elem_of_map_to_list. split.
    + by intros (κ & _ & _ & HT)%elem_of_nodes.
    + intros HT. destruct (pt_range _ _ _ Hw _ _ HT) as [Hl Hr].
      apply (elem_of_nodes_rev T 3 [] π q); [|done | lia | done].
      intros κ1 κ2 [q' Hq']. cbn [app] in *. destruct (pt_range _ _ _ Hw _ _ Hq') as [Hl' _].
      rewrite length_app in Hl'. destruct κ2 as [|k κ2]; [rewrite app_nil_r in Hq'; eauto|].
      destruct κ1 as [|i [|j κ1]]; [exists root; apply (pt_root _ _ _ Hw) | | cbn [length] in Hl'; lia].
      destruct κ2; [|cbn [length] in Hl'; lia]. exact (pt_closed _ _ _ Hw _ _ _ Hq').
Qed.

(** ** freewalk *)

(** Only bytes of the pages [ps] change. *)
Definition only (s s' : kst) (ps : list Z) : Prop :=
  forall x, (forall q, q ∈ ps -> x < q \/ q + PGSIZE <= x) -> load8 (pmem s') x = load8 (pmem s) x.

Lemma only_keeps s s' ps qs :
  only s s' ps -> (forall q, q ∈ ps -> q mod PGSIZE = 0) -> (forall f, f ∈ qs -> f mod PGSIZE = 0) ->
  (forall q, q ∈ ps -> q ∉ qs) -> keeps s s' qs.
Proof.
  intros Ho Hp Hq Hd f o Hf Hb. apply Ho. intros q Hin.
  destruct (page_disjoint f q); [by apply Hq | by apply Hp | intros ->; by eapply Hd | lia | lia].
Qed.

Lemma keeps_load64 s s' ps q k :
  keeps s s' ps -> q ∈ ps -> 0 <= k < 512 -> load64 (pmem s') (q + 8 * k) = load64 (pmem s) (q + 8 * k).
Proof.
  intros Hk Hq Hi. apply load64_ext. intros x Hx. replace x with (q + (x - q)) by lia.
  apply Hk; [done | unfold PGSIZE; lia].
Qed.

Lemma only_trans s s1 s2 ps ps1 ps2 :
  only s s1 ps1 -> only s1 s2 ps2 -> ps1 ⊆ ps -> ps2 ⊆ ps -> only s s2 ps.
Proof. intros H1 H2 S1 S2 x Hx. rewrite H2, H1; [done | |]; intros q Hq; apply Hx; [by apply S1 | by apply S2]. Qed.

(** The nodes [ns] are tables in use, their entries as [T] has them. *)
Record tree (s : kst) (T : gmap (list Z) Z) (ns : list (list Z * Z)) (fl : list Z) : Prop := {
  tr_free : free_pages s fl;
  tr_page : forall q, q ∈ ns.*2 -> page_ok s q /\ q ∉ fl;
  tr_slot : forall π q k, (π, q) ∈ ns -> 0 <= k < 512 -> slot_ok T π k (load64 (pmem s) (q + 8 * k));
}.

Lemma elem_of_rev_l (l : list Z) x : x ∈ rev l <-> x ∈ l.
Proof. by rewrite <- Permutation_rev. Qed.

Lemma node_in (ns : list (list Z * Z)) π q : (π, q) ∈ ns -> q ∈ ns.*2.
Proof. intros H. apply list_elem_of_fmap. by exists (π, q). Qed.

Lemma tree_kept s s' T ns ns' fl fl' :
  tree s T ns fl -> ns' ⊆ ns -> free_pages s' fl' -> kend s' = kend s -> keeps s s' ns'.*2 ->
  (forall q, q ∈ ns'.*2 -> q ∉ fl') -> tree s' T ns' fl'.
Proof.
  intros [_ Hp Hs] Hsub Hf Hk Hke Hn. split; [done | |].
  - intros q Hq. split; [|by apply Hn]. unfold page_ok. rewrite Hk. apply Hp.
    apply list_elem_of_fmap in Hq as (x & -> & Hx). apply list_elem_of_fmap. eauto.
  - intros π q k Hq Hi. rewrite (keeps_load64 s s' ns'.*2) by (by eauto using node_in). apply Hs; [by apply Hsub | done].
Qed.

(** A child entry, as freewalk decodes it. *)
Lemma child_entry q : q mod PGSIZE = 0 -> 0 <= q < 2 ^ 56 ->
  has (Z.lor (PA2PTE q) PTE_V) PTE_V && (Z.land (Z.lor (PA2PTE q) PTE_V) (Z.lor PTE_R (Z.lor PTE_W PTE_X)) =? 0) = true /\
  PTE2PA (Z.lor (PA2PTE q) PTE_V) = q.
Proof.
  intros Ha Hq. split; [|apply PTE2PA_flags; [done | done | unfold PTE_V; lia]].
  rewrite has_lor_V, Z.land_lor_distr_l. change (Z.lor PTE_R (Z.lor PTE_W PTE_X)) with (Z.land 1023 14).
  by rewrite Z.land_assoc, PA2PTE_low.
Qed.

Lemma free_pages_store s fl a v :
  free_pages s fl -> a mod PGSIZE = 0 -> a ∉ fl -> same_out (pmem s) v a -> free_pages (set_mem v s) fl.
Proof.
  intros [Hc Hn Ho He] Ha Hin Hs. split; [|done | done | done]. by apply (chain_same_out s v fl _ a).
Qed.

Section freewalk.
Context (T : gmap (list Z) Z).
Hypothesis inj : forall π π' p, T !! π = Some p -> T !! π' = Some p -> π = π'.
Hypothesis deep : forall π p, T !! π = Some p -> (length π <= 2)%nat.

Lemma nodes_disjoint d d' π π' q :
  (forall x, x ∈ nodes T d π -> x ∈ nodes T d' π' -> False) ->
  q ∈ (nodes T d π).*2 -> q ∈ (nodes T d' π').*2 -> False.
Proof.
  intros Hd [[π1 q1] [-> H1]]%list_elem_of_fmap [[π2 q2] [E H2]]%list_elem_of_fmap. cbn [snd] in E. subst q2.
  pose proof (nodes_page T inj _ _ _ _ _ _ _ _ H1 H2 eq_refl) as ->. by eapply Hd.
Qed.

(** What freewalk does below [π]. *)
Definition walks (d : nat) (π : list Z) (p : Z) : Prop :=
  forall s fl, tree s T (nodes T d π) fl ->
  exists s', freewalk d p s = Ok tt s' /\ free_pages s' (rev (nodes T d π).*2 ++ fl) /\
    kend s' = kend s /\ only s s' (nodes T d π).*2.

(** The body of freewalk's loop. *)
Definition walk_slot (d : nat) (p i : Z) : M kst unit :=
  let* pte := ldpte (p + 8 * i) in
  if has pte PTE_V && (Z.land pte (Z.lor PTE_R (Z.lor PTE_W PTE_X)) =? 0) then
    freewalk d (PTE2PA pte) ;; stpte (p + 8 * i) 0
  else ret tt.

Lemma above_nodes d π i p : T !! π = Some p -> p ∉ (nodes T d (π ++ [i])).*2.
Proof.
  intros Hp [[π' q] [E Hin]]%list_elem_of_fmap. cbn [snd] in E. subst q.
  destruct (elem_of_nodes _ _ _ _ _ Hin) as (_ & _ & _ & Hq). pose proof (inj _ _ _ Hp Hq) as <-.
  by eapply nodes_not_root.
Qed.

Lemma freewalk_slot d π p i s fl :
  (forall q, T !! (π ++ [i]) = Some q -> walks d (π ++ [i]) q) -> T !! π = Some p -> (length π + S d = 3)%nat ->
  0 <= i < 512 -> tree s T (nodes T d (π ++ [i])) fl -> page_ok s p -> p ∉ fl ->
  slot_ok T π i (load64 (pmem s) (p + 8 * i)) ->
  exists s', walk_slot d p i s = Ok tt s' /\ free_pages s' (rev (nodes T d (π ++ [i])).*2 ++ fl) /\
    kend s' = kend s /\ only s s' (p :: (nodes T d (π ++ [i])).*2) /\
    forall k, 0 <= k < 512 -> k <> i -> load64 (pmem s') (p + 8 * k) = load64 (pmem s) (p + 8 * k).
Proof.
  intros Hw Hp Hd Hi Ht Hpok Hpfl Hs. pose proof (above_nodes d π i p Hp) as Hab. unfold walk_slot, ldpte, gets.
  erewrite bind_run by reflexivity. unfold slot_ok in Hs. destruct (T !! (π ++ [i])) as [q|] eqn:Eq.
  - rewrite Hs. pose proof (fp_end _ _ (tr_free _ _ _ _ Ht)) as He.
    assert (page_ok s q) as Hq.
    { apply (tr_page _ _ _ _ Ht). destruct d as [|d]; [apply deep in Eq; rewrite length_app in Eq; cbn in Eq; lia|].
      cbn [nodes]. rewrite Eq, fmap_app. apply elem_of_app. right. by left. }
    pose proof (page_ok_bound _ _ He Hq) as Hqb. pose proof (page_ok_aligned _ _ Hq) as Hqa.
    destruct (child_entry q Hqa) as [-> ->]; [lia|].
    destruct (Hw q eq_refl s fl Ht) as (s1 & E1 & F1 & K1 & O1). rewrite (bind_run _ _ _ _ _ E1).
    pose proof (page_ok_aligned _ _ Hpok) as Hpa. assert (PGSIZE = 4096) as HP by done.
    assert (same_out (pmem s1) (store64 (pmem s1) (p + 8 * i) 0) p) as Hso.
    { intros x Hx. apply load8_store_le_out. lia. }
    eexists. split; [reflexivity|]. split_and!; [| done | |].
    + apply (free_pages_store s1 _ p); [done | done | | done]. intros [Hr|Hr]%elem_of_app; [|done].
      apply Hab. by apply elem_of_rev_l.
    + intros x Hx. cbn [pmem set_mem]. rewrite Hso by (apply Hx; by left). apply O1. intros r Hr. apply Hx. by right.
    + intros k Hk Hne. cbn [pmem set_mem]. rewrite load64_store64_out by lia.
      apply (keeps_load64 s s1 [p]); [|by left | done]. apply (only_keeps s s1 (nodes T d (π ++ [i])).*2); [done | | |].
      * intros r Hr. apply (page_ok_aligned s), (tr_page _ _ _ _ Ht), Hr.
      * by intros r ->%list_elem_of_singleton.
      * by intros r Hr ->%list_elem_of_singleton.
  - rewrite Hs. exists s. assert (nodes T d (π ++ [i]) = []) as -> by (destruct d; cbn [nodes]; by rewrite ?Eq).
    split_and!; [done | apply Ht | done | done | done].
Qed.

Lemma freewalk_loop d π p l : forall s fl,
  (forall i q, T !! (π ++ [i]) = Some q -> walks d (π ++ [i]) q) -> T !! π = Some p -> (length π + S d = 3)%nat ->
  NoDup l -> (forall i, i ∈ l -> 0 <= i < 512) ->
  tree s T (l ≫= fun i => nodes T d (π ++ [i])) fl -> page_ok s p -> p ∉ fl ->
  (forall i, i ∈ l -> slot_ok T π i (load64 (pmem s) (p + 8 * i))) ->
  exists s', for_each l (walk_slot d p) s = Ok tt s' /\
    free_pages s' (rev (l ≫= fun i => nodes T d (π ++ [i])).*2 ++ fl) /\ kend s' = kend s /\
    only s s' (p :: (l ≫= fun i => nodes T d (π ++ [i])).*2).
Proof.
  induction l as [|i l IH]; intros s fl Hw Hp Hd Hnd Hl Ht Hpok Hpfl Hs;
    [exists s; split_and!; [done | apply Ht | done | done]|].
  apply NoDup_cons in Hnd as [Hil Hnd]. cbn [for_each]. set (rest := l ≫= fun i => nodes T d (π ++ [i])).
  change ((i :: l) ≫= fun i => nodes T d (π ++ [i])) with (nodes T d (π ++ [i]) ++ rest) in *.
  set (ns := nodes T d (π ++ [i])) in *. rewrite fmap_app, rev_app_distr, <- app_assoc.
  assert (forall q, q ∈ ns.*2 -> q ∈ rest.*2 -> False) as Hdis.
  { intros q H1 ([π' r] & -> & (j & H2 & Hj)%list_elem_of_bind)%list_elem_of_fmap.
    apply (nodes_disjoint d d (π ++ [i]) (π ++ [j]) r); [|done | by eapply node_in].
    intros x Hx Hy. pose proof (nodes_apart _ _ _ _ _ _ Hx Hy) as ->. done. }
  pose proof Ht as [Hf Hpg Hsl].
  destruct (freewalk_slot d π p i s fl) as (s1 & E1 & F1 & K1 & O1 & R1); try done.
  { by apply Hw. } { apply Hl. by left. } { apply (tree_kept s s T (ns ++ rest) ns fl fl); try done; [set_solver|].
    intros q Hq. apply Hpg. rewrite fmap_app. set_solver. } { apply Hs. by left. }
  fold ns in F1, O1. rewrite (bind_run _ _ _ _ _ E1).
  assert (forall q, q ∈ rest.*2 -> q ∉ rev ns.*2 ++ fl) as Hn.
  { intros q Hq [Hr|Hr]%elem_of_app; [|by apply (Hpg q); [rewrite fmap_app; set_solver|]].
    apply (Hdis q); [by apply elem_of_rev_l | done]. }
  assert (forall q, q ∈ (p :: (ns ++ rest).*2) -> q mod PGSIZE = 0) as Hal.
  { intros q [->|Hq]%elem_of_cons; apply (page_ok_aligned s); [done | by apply Hpg]. }
  assert (p ∉ rest.*2) as Hpr.
  { intros ([π' r] & E & (j & H2 & Hj)%list_elem_of_bind)%list_elem_of_fmap. cbn [snd] in E. subst r.
    apply (above_nodes d π j p Hp). by eapply node_in. }
  destruct (IH s1 (rev ns.*2 ++ fl)) as (s2 & E2 & F2 & K2 & O2); try done.
  - intros j Hj. apply Hl. by right.
  - apply (tree_kept s s1 T (ns ++ rest) rest fl); try done; [set_solver|].
    apply (only_keeps s s1 (p :: ns.*2)); [done | | |].
    + intros q Hq. apply Hal. rewrite fmap_app. set_solver.
    + intros q Hq. apply Hal. rewrite fmap_app. set_solver.
    + intros q [->|Hq]%elem_of_cons; [done|]. intros Hr. by apply (Hdis q).
  - unfold page_ok. by rewrite K1.
  - intros [Hr|Hr]%elem_of_app; [|done]. apply (above_nodes d π i p Hp). by apply elem_of_rev_l.
  - intros j Hj. rewrite R1; [apply Hs; by right | apply Hl; by right | intros ->; done].
  - exists s2. split_and!; [done | done | congruence|]. rewrite ?fmap_app.
    apply (only_trans s s1 s2 _ _ _ O1 O2); intros q [->|Hq]%elem_of_cons; [by left | | by left |]; right; apply elem_of_app; [by left | by right].
Qed.

Lemma freewalk_ok d : forall π p, T !! π = Some p -> (length π + d = 3)%nat -> walks d π p.
Proof.
  induction d as [|d IH]; intros π p Hp Hd s fl Ht; [apply deep in Hp; lia|].
  cbn [freewalk]. change (for_each (indices 512) _) with (for_each (indices 512) (walk_slot d p)).
  cbn [nodes] in *. rewrite Hp in *. pose proof (NoDup_seqZ 0 512) as Hnd. change (seqZ 0 512) with (indices 512) in Hnd.
  pose proof (elem_of_indices 512) as Hel. remember (indices 512) as L eqn:EL. clear EL. set (ns := L ≫= fun i => nodes T d (π ++ [i])) in *. pose proof Ht as [Hf Hpg Hsl].
  assert (p ∉ ns.*2) as Hpn.
  { intros ([π' r] & E & (j & H2 & Hj)%list_elem_of_bind)%list_elem_of_fmap. cbn [snd] in E. subst r.
    apply (above_nodes d π j p Hp). by eapply node_in. }
  assert (page_ok s p /\ p ∉ fl) as [Hpok Hpfl] by (apply Hpg; rewrite fmap_app; set_solver).
  destruct (freewalk_loop d π p L s fl) as (s1 & E1 & F1 & K1 & O1); try done.
  - intros i q Hq. apply IH; [done|]. rewrite length_app. cbn [length]. lia.
  - intros i. by apply Hel.
  - apply (tree_kept s s T (ns ++ [(π, p)]) ns fl fl); try done; [set_solver|].
    intros q Hq. apply Hpg. rewrite fmap_app. set_solver.
  - intros i Hi. apply Hsl; [set_solver | by apply Hel].
  - fold ns in F1, O1. destruct (kfree_ok s1 p (rev ns.*2 ++ fl) F1) as (s2 & E2 & F2 & S2 & K2).
    { unfold page_ok. by rewrite K1. }
    { intros [Hr|Hr]%elem_of_app; [|done]. apply Hpn. by apply elem_of_rev_l. }
    exists s2. rewrite fmap_app. split_and!.
    + by rewrite (bind_run _ _ _ _ _ E1).
    + by rewrite rev_app_distr.
    + congruence.
    + intros x Hx. rewrite S2; [apply O1; intros q Hq; apply Hx; set_solver | apply Hx; set_solver].
Qed.
End freewalk.

(** ** uvmfree *)

(** The address with the given page-table indices. *)
Definition vaddr (i j k : Z) : Z := i * 2 ^ 30 + j * 2 ^ 21 + k * 2 ^ 12.

Lemma PX_vaddr i j k : 0 <= i < 512 -> 0 <= j < 512 -> 0 <= k < 512 ->
  PX 2 (vaddr i j k) = i /\ PX 1 (vaddr i j k) = j /\ PX 0 (vaddr i j k) = k /\ 0 <= vaddr i j k < 2 ^ 39.
Proof.
  intros Hi Hj Hk. rewrite !PX_spec by lia. unfold vaddr.
  change (2 ^ (12 + 9 * 2)) with 1073741824. change (2 ^ (12 + 9 * 1)) with 2097152.
  change (2 ^ (12 + 9 * 0)) with 4096. change (2 ^ 30) with 1073741824. change (2 ^ 21) with 2097152.
  change (2 ^ 12) with 4096. change (2 ^ 39) with 549755813888. split_and!; mlia.
Qed.

Lemma not_valid_childless e : has e PTE_V = false -> childless e.
Proof. unfold childless. by intros ->. Qed.

(** A table without pages mapped is a tree that freewalk can free. *)
Lemma bare_tree s root T fl :
  vmok s root T fl -> (forall va, 0 <= va < 2 ^ 39 -> childless (entry (pmem s) T va)) -> tree s T (nodes T 3 []) fl.
Proof.
  intros [Hf Hw Hdj] Hc. split; [done | |].
  - intros q Hq. rewrite (nodes_tabs s root T Hw) in Hq. apply elem_of_tabs in Hq as [π Hq].
    split; [by eapply pt_page | by eapply Hdj].
  - intros π q k (κ & _ & _ & Hq)%elem_of_nodes Hk. unfold slot_ok.
    destruct (pt_range _ _ _ Hw _ _ Hq) as [Hl Hr]. destruct (decide (length π < 2)%nat) as [Hlt|Hge].
    + pose proof (pt_entry _ _ _ Hw _ _ k Hq Hlt Hk) as He. destruct (T !! (π ++ [k])); [done | by apply not_valid_childless].
    + destruct (T !! (π ++ [k])) as [q'|] eqn:E; [apply (pt_range _ _ _ Hw) in E as [E _]; rewrite length_app in E; cbn in E; lia|].
      destruct π as [|i [|j [|]]]; cbn [length] in *; try lia. apply Forall_cons in Hr as [Hi [Hj _]%Forall_cons].
      destruct (PX_vaddr i j k Hi Hj Hk) as (E2 & E1 & E0 & Hv). specialize (Hc _ Hv).
      unfold entry in Hc. by rewrite E2, E1, E0, Hq in Hc.
Qed.

Lemma uvmfree_ok s root top T fl fs X sz :
  uspace s root top T fl fs X -> 0 <= sz -> Z.of_nat (length fs) = pages sz ->
  (forall va, TRAPFRAME <= va < 2 ^ 39 -> childless (top va)) ->
  exists s' fl', uvmfree root sz s = Ok tt s' /\ others s' fl' X /\
    fl' ≡ₚ fl ++ tabs T ++ fs.*1 /\ keeps s s' X.
Proof.
  intros Hu Hsz Hlen Htop. assert (PGSIZE = 4096) as HP by done. pose proof (us_len _ _ _ _ _ _ _ Hu) as Hmax.
  rewrite TRAPFRAME_val in *.
  assert (exists s1, (when (0 <? sz) (uvmunmap root 0 (PGROUNDUP sz / PGSIZE) true)) s = Ok tt s1 /\
    uspace s1 root top T (rev fs.*1 ++ fl) [] X /\ keeps s s1 X) as (s1 & E1 & Hu1 & Hk1).
  { unfold pages in Hlen. destruct (Z.ltb_spec 0 sz) as [Hpos|Hz]; cbn [when].
    - destruct (us_unmap s root top T fl [] fs X Hu) as (s1 & E & Hu1 & Hk1). exists s1.
      rewrite PGROUNDUP_spec by (rewrite HP in *; mlia).
      rewrite Z.div_mul, <- Hlen by (by rewrite HP). done.
    - destruct fs; [by exists s | cbn [length] in Hlen; rewrite HP in *; mlia]. }
  unfold uvmfree. rewrite (bind_run _ _ _ _ _ E1). pose proof Hu1 as [Hv1 Hnd1 Hok1 _ _ Ht1 Hab1].
  pose proof Hv1 as [_ Hw1 _]. cbn [length] in Hab1. rewrite TRAPFRAME_val in Hab1, Ht1.
  destruct (freewalk_ok T (pt_inj _ _ _ Hw1)) with (d := 3%nat) (π := @nil Z) (p := root) (s := s1) (fl := rev fs.*1 ++ fl)
    as (s2 & E2 & F2 & K2 & O2).
  - intros π p Hp. apply (pt_range _ _ _ Hw1 _ _ Hp).
  - apply (pt_root _ _ _ Hw1).
  - done.
  - apply (bare_tree s1 root); [done|]. intros va Hva. destruct (Z.ltb_spec va (2 ^ 38 - 8192)) as [Hlt|Hge].
    + apply not_valid_childless, Hab1. lia.
    + rewrite Ht1 by lia. apply Htop. lia.
  - pose proof (nodes_tabs _ _ _ Hw1) as Hns. exists s2, (rev (nodes T 3 []).*2 ++ rev fs.*1 ++ fl).
    assert (rev (nodes T 3 []).*2 ++ rev fs.*1 ++ fl ≡ₚ fl ++ tabs T ++ fs.*1) as Hpe
      by (by rewrite <- !Permutation_rev, Hns, (Permutation_app_comm fs.*1 fl), Permutation_app_swap_app).
    split; [done|]. split; [|split; [done|]].
    + split; [done | |].
      * rewrite Hpe, <- !app_assoc. apply (us_nodup _ _ _ _ _ _ _ Hu).
      * intros f Hf. unfold page_ok. rewrite K2. by apply Hok1.
    + eapply keeps_compose; [exact Hk1|]. apply (only_keeps s1 s2 (nodes T 3 []).*2); [done | | |].
      * intros q Hq. rewrite Hns in Hq. apply elem_of_tabs in Hq as [π Hq]. by eapply page_ok_aligned, pt_page.
      * intros f Hf. by eapply page_ok_aligned, Hok1.
      * intros q Hq Hx. rewrite Hns in Hq. apply NoDup_app in Hnd1 as (_ & _ & Hnd1).
        apply NoDup_app in Hnd1 as (_ & Hnd1 & _). by apply (Hnd1 q).
Qed.

(** ** A new address space beside others *)

Lemma same_out_keeps s s' a Y :
  same_out (pmem s) (pmem s') a -> a mod PGSIZE = 0 -> a ∉ Y -> (forall f, f ∈ Y -> f mod PGSIZE = 0) -> keeps s s' Y.
Proof.
  intros S Ha Hn Hal f o Hf Ho. apply S. destruct (page_disjoint f a); [by apply Hal | done | by intros -> | lia | lia].
Qed.

Lemma us_create s a fl Y :
  others s (a :: fl) Y ->
  exists s', uvmcreate s = Ok a s' /\ a <> 0 /\ uspace s' a (fun _ => 0) {[ [] := a ]} fl [] Y /\ keeps s s' Y /\
    tabs {[ [] := a ]} = [a].
Proof.
  intros [Hf Hnd Hok]. destruct (kalloc_some s a fl Hf) as (s1 & E1 & F1 & S1 & _ & K1 & P1 & Hz1 & Ha).
  assert (tabs {[ [] := a ]} = [a]) as Et by (unfold tabs; by rewrite map_to_list_singleton).
  pose proof (page_ok_aligned _ _ P1) as Hal. cbn [app] in Hnd. apply NoDup_cons in Hnd as [Hay Hnd].
  pose proof (memset_same_out (pmem s1) a 0) as Sm. pose proof (memset_load8 (pmem s1) a 0 PGSIZE) as Hm.
  assert (uvmcreate s = Ok a (set_mem (memset (pmem s1) a 0 PGSIZE) s1)) as Ec.
  { unfold uvmcreate. by rewrite (bind_run _ _ _ _ _ E1), (proj2 (Z.eqb_neq _ _) Hz1). }
  revert Sm Hm Ec. generalize (memset (pmem s1) a 0 PGSIZE). intros m Sm Hm Ec. set (s2 := set_mem m s1) in *.
  assert (same_out (pmem s) (pmem s2) a) as S2 by (by eapply same_out_trans).
  assert (forall va, entry (pmem s2) {[ [] := a ]} va = 0) as He by (intros va; unfold entry; by rewrite lookup_singleton_ne).
  exists s2. split; [exact Ec|]. split; [done|]. split; [|split; [|done]].
  - split; [split | | | done | cbn [length]; by rewrite TRAPFRAME_val | |].
    + by apply (free_pages_store s1 fl a m F1 Hal Ha).
    + apply empty_ptwf; [unfold page_ok; cbn; by rewrite K1|]. intros k Hk. apply load64_zero. intros x Hx. unfold s2. cbn [pmem set_mem].
      rewrite Hm, decide_True; [done | unfold PGSIZE; lia].
    + intros π q Hq. by apply lookup_singleton_Some in Hq as [_ <-].
    + rewrite Et. cbn [fmap list_fmap app]. rewrite <- Permutation_middle. by apply NoDup_cons.
    + intros f Hf'. unfold page_ok. cbn. rewrite K1. by apply Hok.
    + intros va _. apply He.
    + intros va _. by rewrite He.
  - apply (same_out_keeps s s2 a); [done | done | set_solver|]. intros f Hf'. by eapply page_ok_aligned, Hok.
Qed.

(** A kernel with sixteen free pages: an empty address space. *)
Lemma sample_space :
  exists s root fl, uspace s root (fun _ => 0) {[ [] := root ]} fl [] [] /\ length fl = 15%nat.
Proof.
  destruct sample_vm as (s & root & fl & V & Hlen & _ & N). exists s, root, fl. split; [|done].
  pose proof V as [[_ Hn _ _] Hw Hdj]. split; [done | | | done | cbn [length]; by rewrite TRAPFRAME_val | |].
  - unfold tabs. rewrite map_to_list_singleton. cbn [fmap list_fmap app snd]. apply NoDup_app. split_and!; [done | |].
    + intros x Hx ->%list_elem_of_singleton. by apply (Hdj [] root).
    + apply NoDup_singleton.
  - intros f Hf. by apply elem_of_nil in Hf.
  - intros va _. by rewrite N.
  - intros va _. by rewrite N.
Qed.

(** ** Properties *)

(** C14: Growing an address space never panics. When it succeeds exactly the
    pages up to newsz are added, zeroed, readable by the user and with the
    permissions asked for; when it fails it returns 0, every page taken for
    user memory is on the free list again, and at most three pages were free
    per page wanted. The pages of the process and of the others keep their
    bytes, and no page is lost. *)
Theorem uvmalloc_correct s root top T fl fs X oldsz newsz xperm :
  let perm := Z.lor (Z.lor PTE_R PTE_U) xperm in
  uspace s root top T fl fs X -> leaf_perm perm -> 0 <= oldsz <= newsz -> Z.of_nat (length fs) = pages oldsz ->
  let k := (Z.to_nat (pages newsz) - length fs)%nat in
  exists r s' T' fl' gs, uvmalloc root oldsz newsz xperm s = Ok r s' /\
    uspace s' root top T' fl' (fs ++ gs) X /\ keeps s s' (fs.*1 ++ X) /\ fl ++ tabs T ≡ₚ fl' ++ tabs T' ++ gs.*1 /\
    (r = newsz /\ length gs = k /\ zeroed s' gs /\ Forall (fun g => g.2 = perm) gs \/
     r = 0 /\ gs = [] /\ (length fl <= 3 * k)%nat).
Proof. apply uvmalloc_ok. Qed.

(** A process of one page, with nothing above the trapframe. *)
Lemma sample_process :
  exists s root T fl f, uspace s root (fun _ => 0) T fl [(f, Z.lor (Z.lor PTE_R PTE_U) PTE_W)] [] /\ (12 <= length fl)%nat.
Proof.
  destruct sample_space as (s & root & [|a fl] & Hu & Hlen); [done|].
  destruct (us_kalloc _ _ _ _ _ _ _ _ Hu) as (s1 & _ & _ & Hu1 & _).
  destruct (us_map s1 root _ _ fl [] a [] (Z.lor (Z.lor PTE_R PTE_U) PTE_W) Hu1) as (r & s2 & T & fl2 & _ & _ & L & _ & C);
    [done | by split|]. cbn [length] in Hlen.
  destruct C as [[_ Hu2]|(_ & -> & _)]; [|cbn [length] in L; lia]. exists s2, root, T, fl2, a. split; [done | lia].
Qed.

Lemma uvmalloc_correct_witness :
  exists s root T fl f r s' T' fl' gs, uspace s root (fun _ => 0) T fl [(f, Z.lor (Z.lor PTE_R PTE_U) PTE_W)] [] /\
    uvmalloc root PGSIZE (2 * PGSIZE) PTE_W s = Ok r s' /\ uspace s' root (fun _ => 0) T' fl' ((f, Z.lor (Z.lor PTE_R PTE_U) PTE_W) :: gs) [] /\
    r = 2 * PGSIZE /\ length gs = 1%nat.
Proof.
  destruct sample_process as (s & root & T & fl & f & Hu & Hlen).
  destruct (uvmalloc_correct s root _ T fl _ [] PGSIZE (2 * PGSIZE) PTE_W Hu) as (r & s' & T' & fl' & gs & E & Hu' & _ & _ & C);
    [by split | done | done |].
  exists s, root, T, fl, f, r, s', T', fl', gs. destruct C as [(-> & Hg & _)|(_ & _ & Hl)]; [done|].
  change (Z.to_nat (pages (2 * PGSIZE))) with 2%nat in Hl. cbn [length] in Hl. lia.
Defined.

(** C15: Copying an address space never panics. When it succeeds the child has
    a page of its own for each page of the parent, with the same bytes and
    permissions; when it fails it returns -1 and the child has none. The
    parent's memory is unchanged, the two share no page, and no page is lost. *)
Theorem uvmcopy_correct s old otop Tp fs new ntop T fl X sz :
  uspace s old otop Tp fl fs (tabs T ++ X) -> uspace s new ntop T fl [] (tabs Tp ++ fs.*1 ++ X) ->
  0 <= sz -> Z.of_nat (length fs) = pages sz ->
  exists r s' T' fl' gs, uvmcopy old new sz s = Ok r s' /\
    uspace s' new ntop T' fl' gs (tabs Tp ++ fs.*1 ++ X) /\ uspace s' old otop Tp fl' fs (tabs T' ++ gs.*1 ++ X) /\
    keeps s s' (fs.*1 ++ X) /\ fl ++ tabs T ≡ₚ fl' ++ tabs T' ++ gs.*1 /\
    (r = 0 /\ length gs = length fs /\ copied s' fs gs \/ r = -1 /\ gs = [] /\ (length fl <= 3 * length fs)%nat).
Proof. apply uvmcopy_ok. Qed.

Lemma uvmcopy_correct_witness :
  exists s old Tp f new s' T' fl' g q, uvmcopy old new PGSIZE s = Ok 0 s' /\
    uspace s' new (fun _ => 0) T' fl' [(g, q)] (tabs Tp ++ [f]) /\ f <> g /\
    forall o, 0 <= o < PGSIZE -> load8 (pmem s') (g + o) = load8 (pmem s') (f + o).
Proof.
  destruct sample_process as (s0 & old & Tp & [|a fl] & f & Hu & Hlen); [cbn [length] in Hlen; lia|].
  destruct (us_create _ _ _ _ (us_others _ _ _ _ _ _ _ Hu)) as (s & _ & _ & Hn & Hk & _).
  assert (uspace s old (fun _ => 0) Tp fl [(f, Z.lor (Z.lor PTE_R PTE_U) PTE_W)] (tabs {[ [] := a ]} ++ [])) as Ho.
  { eapply us_restore; [exact Hu | | eapply keeps_sub; [exact Hk | set_solver]].
    eapply others_perm; [apply (us_others _ _ _ _ _ _ _ Hn) | by rewrite (beside_perm (tabs Tp) [f] (tabs _) [] [])]. }
  destruct (uvmcopy_correct s old _ Tp _ a _ {[ [] := a ]} fl [] PGSIZE Ho Hn) as (r & s' & T' & fl' & gs & E & Hu' & _ & _ & _ & C);
    [done | done|].
  destruct C as [(-> & Hg & Hc)|(_ & _ & Hl)]; [|cbn [length] in *; lia].
  destruct gs as [|[g q] [|]]; try done. destruct (Hc 0%nat g q eq_refl) as (f' & p' & Ef & _ & Hb). injection Ef as <- <-.
  exists s, old, Tp, f, a, s', T', fl', g, q. split; [done|]. split; [done|]. split; [|done].
  pose proof (us_nodup _ _ _ _ _ _ _ Hu') as Hnd. apply NoDup_app in Hnd as (_ & _ & Hnd).
  apply NoDup_app in Hnd as (_ & _ & [Hnd _]%NoDup_cons). intros ->. apply Hnd. set_solver.
Defined.

(** C16: Freeing an address space whose user pages are the first sz bytes, the
    entries above holding no table, gives back all its pages, the tables and
    the frames, and touches no page in other use. *)
Theorem uvmfree_no_leak s root top T fl fs X sz :
  uspace s root top T fl fs X -> 0 <= sz -> Z.of_nat (length fs) = pages sz ->
  (forall va, TRAPFRAME <= va < 2 ^ 39 -> childless (top va)) ->
  exists s' fl', uvmfree root sz s = Ok tt s' /\ others s' fl' X /\
    fl' ≡ₚ fl ++ tabs T ++ fs.*1 /\ keeps s s' X.
Proof. apply uvmfree_ok. Qed.

Lemma uvmfree_no_leak_witness :
  exists s root T fl f s' fl', uspace s root (fun _ => 0) T fl [(f, Z.lor (Z.lor PTE_R PTE_U) PTE_W)] [] /\
    uvmfree root 1 s = Ok tt s' /\ others s' fl' [] /\ fl' ≡ₚ fl ++ tabs T ++ [f].
Proof.
  destruct sample_process as (s & root & T & fl & f & Hu & _).
  destruct (uvmfree_no_leak s root _ T fl _ [] 1 Hu) as (s' & fl' & E & F & Hp & _); [done | done | done |].
  by exists s, root, T, fl, f, s', fl'.
Defined.
