(* ===== verification/Syscall.v ===== *)
(** * syscall.c and sysproc.c: system calls

    How a system call gets its arguments out of the trapframe and out of user
    memory, the calls on processes, and the dispatch on the number in a7. The
    calls of sysfile.c and the vault calls run on the state of [Sysfile] and
    [Vault]; here they are an interface, one handler per number. A handler that
    does not return to its caller, because the process has gone to sleep or has
    exited, gives [None]. Console output is left out. *)

From stdpp Require Import base gmap list strings.
From Stdlib Require Import ZArith Lia.
From S2P Require Import Prelude Mem Cstring Kalloc Vm Copyinstr Proc.

Definition SYS_fork : Z := 1.
Definition SYS_exit : Z := 2.
Definition SYS_wait : Z := 3.
Definition SYS_pipe : Z := 4.
Definition SYS_read : Z := 5.
Definition SYS_kill : Z := 6.
Definition SYS_exec : Z := 7.
Definition SYS_fstat : Z := 8.
Definition SYS_chdir : Z := 9.
Definition SYS_dup : Z := 10.
Definition SYS_getpid : Z := 11.
Definition SYS_sbrk : Z := 12.
Definition SYS_sleep : Z := 13.
Definition SYS_uptime : Z := 14.
Definition SYS_open : Z := 15.
Definition SYS_write : Z := 16.
Definition SYS_mknod : Z := 17.
Definition SYS_unlink : Z := 18.
Definition SYS_link : Z := 19.
Definition SYS_mkdir : Z := 20.
Definition SYS_close : Z := 21.
Definition SYS_touch : Z := 22.
Definition SYS_cp : Z := 23.
Definition SYS_pslist : Z := 24.
Definition SYS_shrimpy : Z := 25.
Definition SYS_mkvault : Z := 26.
Definition SYS_openvault : Z := 27.
Definition SYS_closevault : Z := 28.

(** The offset of a7 in a trapframe; a0 to a5 are the words from [TF_A0]. *)
Definition TF_A7 : Z := 168.

(** The handlers of sysfile.c and of the vault, by number. *)
Class FileCalls (F : Type) : Type := {
  fc_call : Z -> M (pk F) (option Z);
}.

Section syscall.
Context {F : Type} `{FsEnv F} `{FileCalls F}.
(** &ticks, the local struct uproc of pslist, the address of *Shrimpy *)
Context (ticks_chan uproc shaddr : Z).

(** ** Arguments *)

Definition load_tf (off : Z) : PM (F := F) Z :=
  let* i := myproc in
  let* p := theproc i in
  gets (fun s => load64 (pmem (kmem s)) (p_trapframe p + off)).
Definition store_tf (off v : Z) : PM (F := F) unit :=
  let* i := myproc in
  let* p := theproc i in
  onk (upd_mem (fun m => store64 m (p_trapframe p + off) v)).

Definition argraw (n : Z) : PM (F := F) Z :=
  if (0 <=? n) && (n <=? 5) then load_tf (TF_A0 + 8 * n) else panic "argraw".
Definition argint (n : Z) : PM (F := F) Z := let* x := argraw n in ret (i32 x).
Definition argaddr (n : Z) : PM (F := F) Z := argraw n.

(** fetchaddr(addr, ip): [ip] is a kernel address. *)
Definition fetchaddr (addr ip : Z) : PM (F := F) Z :=
  let* i := myproc in
  let* p := theproc i in
  if (p_sz p <=? addr) || (p_sz p <? u64 (addr + 8)) then ret (-1)
  else
    let* r := onk (copyin (p_pagetable p) ip addr 8) in
    if nz r then ret (-1) else ret 0.

(** strlen returns an int here. *)
Definition fetchstr (addr buf max : Z) : PM (F := F) Z :=
  let* i := myproc in
  let* p := theproc i in
  let* r := onk (copyinstr (p_pagetable p) buf addr max) in
  if r <? 0 then ret (-1)
  else
    let* s := get in
    match strlen (pmem (kmem s)) buf with Some n => ret n | None => halt NoFuel end.

Definition argstr (n buf max : Z) : PM (F := F) Z :=
  let* addr := argaddr n in fetchstr addr buf max.

(** ** sysproc.c *)

Definition returned (m : PM (F := F) Z) : PM (F := F) (option Z) := let* r := m in ret (Some r).

Definition sys_exit : PM (F := F) (option Z) :=
  let* n := argint 0 in exit n ;; ret None.

Definition sys_getpid : PM (F := F) Z :=
  let* i := myproc in let* p := theproc i in ret (p_pid p).

Definition sys_fork : PM (F := F) Z := fork.

Definition sys_wait : PM (F := F) (option Z) := let* p := argaddr 0 in wait p.

Definition sys_sbrk : PM (F := F) Z :=
  let* n := argint 0 in
  let* i := myproc in
  let* p := theproc i in
  let addr := p_sz p in
  let* r := growproc n in
  if r <? 0 then ret (-1) else ret addr.

(** sys_sleep's loop, at its test; [ticks - ticks0 < n] compares unsigned. *)
Definition sleep_loop (n ticks0 : Z) : PM (F := F) (option Z) :=
  let* s := get in
  if u32 (Proc.ticks s - ticks0) <? u32 n then
    let* i := myproc in
    let* k := killed i in
    if k : bool then ret (Some (-1)) else sleep ticks_chan ;; ret None
  else ret (Some 0).
(** ... from where sleep returns. *)
Definition sleep_again (n ticks0 : Z) : PM (F := F) (option Z) :=
  let* i := myproc in sleep_resumed i ;; sleep_loop n ticks0.
Definition sys_sleep : PM (F := F) (option Z) :=
  let* n := argint 0 in
  let* s := get in
  sleep_loop n (Proc.ticks s).

Definition sys_kill : PM (F := F) Z := let* pid := argint 0 in kill pid.

Definition sys_pslist : PM (F := F) Z :=
  let* utable := argaddr 0 in
  let* r := pslist uproc utable in
  ret (u64 r).

(** shrimpy(Shrimpy): the loop exits the process in its first turn. *)
Definition shrimpy : PM (F := F) (option Z) :=
  let* pt := shr_table sh_P in
  let* sh := theshr in
  let* _ := onk (translate pt (default 0 (sh_vas sh !! 0%nat))) in
  exit 0 ;; ret None.

(** The first word of *Shrimpy, which goes to the user, is the pointer P. *)
Definition sys_shrimpy : PM (F := F) (option Z) :=
  let* ushrimp := argaddr 0 in
  let* pt := shr_table sh_P in
  let* sh := theshr in
  let* s := get in
  onk (upd_mem (fun m => store64 m shaddr (parentaddr s (sh_P sh)))) ;;
  let* r := onk (copyout pt ushrimp shaddr 8) in
  if r <? 0 then ret (Some (-1)) else shrimpy.

(** ** Dispatch *)

(** The table syscalls[]; a hole of the array is [None]. *)
Definition syscalls (num : Z) : option (PM (F := F) (option Z)) :=
  match num with
  | 1 => Some (returned sys_fork)
  | 2 => Some sys_exit
  | 3 => Some sys_wait
  | 6 => Some (returned sys_kill)
  | 11 => Some (returned sys_getpid)
  | 12 => Some (returned sys_sbrk)
  | 13 => Some sys_sleep
  | 14 => Some (returned sys_uptime)
  | 24 => Some (returned sys_pslist)
  | 25 => Some sys_shrimpy
  | 4 | 5 | 7 | 8 | 9 | 10 | 15 | 16 | 17 | 18 | 19 | 20 | 21 | 26 | 27 | 28 => Some (fc_call num)
  | _ => None
  end.
Definition NELEM_syscalls : Z := 29.

(** The handler syscall calls: the guards of the table. *)
Definition handler (num : Z) : option (PM (F := F) (option Z)) :=
  if (0 <? num) && (num <? NELEM_syscalls) then syscalls num else None.

(** syscall(); false when the call has not returned. *)
Definition syscall : PM (F := F) bool :=
  let* a7 := load_tf TF_A7 in
  match handler (i32 a7) with
  | Some f =>
      let* r := f in
      match r with
      | Some v => store_tf TF_A0 v ;; ret true
      | None => ret false
      end
  | None => store_tf TF_A0 (-1) ;; ret true
  end.
End syscall.

(** ** Lemmas *)

Section lemmas.
Context {F : Type} `{FsEnv F}.

Lemma onk_run {A} (m : M kst A) (s : pk F) a k : m (kmem s) = Ok a k ->
  onk m s = Ok a (Pk (procs s) (nextpid s) (initproc s) (cur s) (Proc.ticks s) k (shr s) (pages7 s) (trampoline s) (proc_addr s) (fsys s)).
Proof. intros E. unfold onk, zoom. cbn [view over kmem_lens]. by rewrite E. Qed.

(** strlen of a string is its length. *)
Lemma strlen_str m s l : holds_str m s l -> strlen m s = Some (Z.of_nat (length l)).
Proof.
  intros (Hl & H0 & Hf). destruct (strlen_loop_total m s 0 (S (size m))) as (r & E & Hr & Hz & Hn); [lia | lia | lia |].
  unfold strlen. rewrite E. f_equal. destruct (Z.lt_trichotomy r (Z.of_nat (length l))) as [Hlt|[?|Hgt]]; [exfalso | done | exfalso].
  - assert (l !! Z.to_nat r = Some (load8 m (s + r))) as El.
    { rewrite <- Hl, load_bytes_lookup by lia. do 2 f_equal. lia. }
    rewrite Hz in El. by apply (proj1 (Forall_lookup _ _) Hf) in El.
  - apply (Hn (Z.of_nat (length l))); [lia | done].
Qed.
End lemmas.

(** ** Properties *)

(** C23: fetchstr, the way every path gets into the kernel: when the C string
    at the user address ends within [max] bytes and all its bytes are mapped
    for the user, it is copied with its NUL into the buffer and its length is
    returned; otherwise -1. Memory outside the buffer does not change. *)
Theorem fetchstr_correct {F} `{FsEnv F} (s : pk F) i T addr buf max :
  cur s = Some i -> ptwf (kmem s) (p_pagetable (getp s i)) T -> 0 < kend (kmem s) ->
  0 <= buf -> buf + max < 2 ^ 63 -> 0 <= addr -> 0 <= max -> addr + max < 2 ^ 39 ->
  (forall x, buf <= x < buf + max -> off_tables T x) ->
  (forall j x, 0 <= j < max -> umap (pmem (kmem s)) T (addr + j) = Some x -> x < buf \/ buf + max <= x) ->
  exists r s', fetchstr addr buf max s = Ok r s' /\ procs s' = procs s /\
    (forall x, x < buf \/ buf + max <= x -> load8 (pmem (kmem s')) x = load8 (pmem (kmem s)) x) /\
    match user_str (pmem (kmem s)) T addr (Z.to_nat max) with
    | Some l => r = Z.of_nat (length l) /\ holds_str (pmem (kmem s')) buf l /\ r < max
    | None => r = -1
    end.
Proof.
  intros Hc Hw He Hb Hbm Ha Hm Ham Hoff Hsrc. unfold fetchstr, myproc. erewrite bind_run by (erewrite bind_run by reflexivity; by rewrite Hc).
  erewrite bind_run by reflexivity.
  destruct (copyinstr_ok (kmem s) (p_pagetable (getp s i)) T buf addr max Hw He Hb Hbm Ha Hm Ham Hoff Hsrc) as (r & k & E & Hout & Hstr).
  rewrite (bind_run _ _ _ _ _ (onk_run _ _ _ _ E)). destruct (user_str _ _ _ _) as [l|].
  - destruct Hstr as (-> & Hh & Hlen). cbn [Z.ltb Z.compare]. erewrite bind_run by reflexivity. cbn [kmem].
    rewrite (strlen_str _ _ _ Hh). eexists _, _. split; [done|]. by split_and!.
  - rewrite Hstr. eexists _, _. split; [done|]. by split_and!.
Qed.

(** fetchaddr refuses an address that is not below the size of the process,
    and one whose last byte is not, also when the addition wraps around. *)
Lemma fetchaddr_bounds {F} `{FsEnv F} (s : pk F) i addr ip :
  cur s = Some i -> 0 <= addr < 2 ^ 64 -> 0 <= p_sz (getp s i) < 2 ^ 64 - 8 -> p_sz (getp s i) < addr + 8 ->
  fetchaddr addr ip s = Ok (-1) s.
Proof.
  intros Hc Ha Hs Hb. unfold fetchaddr, myproc. erewrite bind_run by (erewrite bind_run by reflexivity; by rewrite Hc).
  erewrite bind_run by reflexivity. destruct (Z.leb_spec (p_sz (getp s i)) addr); [done|]. cbn [orb].
  rewrite u64_id by lia. by destruct (Z.ltb_spec (p_sz (getp s i)) (addr + 8)); [|lia].
Qed.

(** sys_sleep at its test: it returns 0 once [n] ticks have passed since it was
    called, -1 before that for a process that has been killed. *)
Lemma sleep_loop_ok {F} `{FsEnv F} (s : pk F) i chan n ticks0 :
  cur s = Some i -> 0 <= ticks0 < 2 ^ 32 -> ticks0 <= Proc.ticks s < ticks0 + 2 ^ 32 -> 0 <= n < 2 ^ 31 ->
  (n <= Proc.ticks s - ticks0 -> sleep_loop chan n ticks0 s = Ok (Some 0) s) /\
  (Proc.ticks s - ticks0 < n -> p_killed (getp s i) <> 0 -> sleep_loop chan n ticks0 s = Ok (Some (-1)) s).
Proof.
  intros Hc H0 Ht Hn. unfold sleep_loop. erewrite bind_run by reflexivity. rewrite !u32_id by lia. split.
  - intros Hle. by destruct (Z.ltb_spec (Proc.ticks s - ticks0) n); [lia|].
  - intros Hlt Hk. destruct (Z.ltb_spec (Proc.ticks s - ticks0) n); [|lia]. unfold myproc.
    erewrite bind_run by (erewrite bind_run by reflexivity; by rewrite Hc). erewrite bind_run by reflexivity.
    unfold nz. by destruct (Z.eqb_spec (p_killed (getp s i)) 0).
Qed.

(** A negative argument is a very long sleep: the test is unsigned. *)
Lemma sleep_negative {F} `{FsEnv F} (s : pk F) chan ticks0 :
  u32 (Proc.ticks s - ticks0) <> 2 ^ 32 - 1 -> sleep_loop chan (-1) ticks0 s <> Ok (Some 0) s.
Proof.
  intros Ht. unfold sleep_loop. erewrite bind_run by reflexivity. pose proof (u32_range (Proc.ticks s - ticks0)).
  change (u32 (-1)) with (2 ^ 32 - 1). destruct (Z.ltb_spec (u32 (Proc.ticks s - ticks0)) (2 ^ 32 - 1)); [|lia].
  intros (i & s1 & _ & E)%bind_Ok. apply bind_Ok in E as (k & s2 & _ & E). destruct k; [done|].
  by apply bind_Ok in E as (? & s3 & _ & E).
Qed.

(** A string of a process with one page. *)
Lemma fetchstr_correct_witness :
  exists (s : pk unit) T, cur s = Some 0%nat /\ umap (pmem (kmem s)) T 4 = Some 0x1004 /\
  exists r s', @fetchstr unit 4 0x5000 100 s = Ok r s' /\
    match user_str (pmem (kmem s)) T 4 100 with
    | Some l => r = Z.of_nat (length l) /\ holds_str (pmem (kmem s')) 0x5000 l /\ r < 100
    | None => r = -1
    end.
Proof.
  destruct sample_user as (k & root & T & fl & V & Hoff & Hu & _).
  exists (demo 0 k None [set_space 0 0x2000 root 0 (demo_proc RUNNING 1 5 None)]), T. split; [reflexivity|].
  split; [cbn; rewrite (Hu 4); [reflexivity | unfold PGSIZE; lia]|].
  destruct (@fetchstr_correct unit no_files (demo 0 k None [set_space 0 0x2000 root 0 (demo_proc RUNNING 1 5 None)]) 0 T 4 0x5000 100) as (r & s' & E & _ & _ & R);
    try lia; try reflexivity.
  - exact (vm_pt _ _ _ _ V).
  - exact (fp_end _ _ (vm_free _ _ _ _ V)).
  - intros x Hx. apply Hoff. lia.
  - intros j x Hj. cbn. rewrite (Hu (4 + j)) by (unfold PGSIZE; lia). intros [= <-]. lia.
  - exists r, s'. split; [exact E | exact R].
Defined.
