(* ===== verification/Trap.v ===== *)
(** * trap.c: interrupts, exceptions and system calls

    usertrap, kerneltrap and the device interrupts, over the registers of
    [Riscv] and the kernel of [Proc] and [Syscall]. A definition ends where the
    kernel leaves the process: at the return to user space, or at a context
    switch. usertrap goes on at [usertrap_yielded] after its yield, and
    kerneltrap at [kerneltrap_yielded]. Messages are left out. *)

From stdpp Require Import base functions gmap list strings.
From Stdlib Require Import ZArith Lia.
From S2P Require Import Prelude Mem Cstring Kalloc Vm Proc Syscall Riscv.

(** The interrupt handlers of the drivers. *)
Class Drivers (F : Type) : Type := {
  dr_uartintr : M (pk F) unit;
  dr_virtio_disk_intr : M (pk F) unit;
}.

(** How usertrap ends: in user space with the given satp, after yield, or with
    the process asleep in its system call or gone. *)
Inductive trap_end : Type := ToUser (satp : Z) | Yielded | Away.

(** Offsets in the trapframe. *)
Definition TF_KERNEL_SATP : Z := 0.
Definition TF_KERNEL_SP : Z := 8.
Definition TF_KERNEL_TRAP : Z := 16.
Definition TF_KERNEL_HARTID : Z := 32.

(** What devintr recognises. *)
Inductive dev_irq : Type := NotRecognised | OtherDevice | Timer.

Section trap.
Context {F : Type} `{FsEnv F} `{FileCalls F} `{Drivers F} `{Phys (pk F)}.
Context (ticks_chan uproc shaddr : Z).
(** The addresses of kernelvec, usertrap, uservec, userret and the trampoline *)
Context (kernelvec usertrap_addr uservec userret tramp : Z).

Definition TM (A : Type) : Type := M (hw (pk F)) A.
Definition hk_lens : lens (hw (pk F)) (pk F) := Lens hk (fun k s => Hw (regs s) k).
Definition onp {A} (m : PM (F := F) A) : TM A := zoom hk_lens m.

Definition trapinithart : TM unit := w_stvec kernelvec.

Definition clockintr : TM unit :=
  onp (modify (fun s => Pk (procs s) (nextpid s) (initproc s) (cur s) (u32 (Proc.ticks s + 1)) (kmem s) (shr s)
                           (pages7 s) (trampoline s) (proc_addr s) (fsys s))) ;;
  onp (wakeup ticks_chan).

Definition devintr : TM dev_irq :=
  let* scause := r_scause in
  if nz (Z.land scause 0x8000000000000000) && (Z.land scause 0xff =? 9) then
    let* irq := plic_claim in
    (if irq =? UART0_IRQ then onp dr_uartintr
     else if irq =? VIRTIO0_IRQ then onp dr_virtio_disk_intr else ret tt) ;;
    (if nz irq then plic_complete irq else ret tt) ;;
    ret OtherDevice
  else if scause =? 0x8000000000000001 then
    let* id := cpuid in
    (if id =? 0 then clockintr else ret tt) ;;
    let* sip := r_sip in
    w_sip (Z.land sip (Z.lnot 2)) ;;
    ret Timer
  else ret NotRecognised.

Definition usertrapret : TM trap_end :=
  let* i := onp myproc in
  intr_off ;;
  w_stvec (TRAMPOLINE + (uservec - tramp)) ;;
  let* satp := r_satp in
  onp (store_tf TF_KERNEL_SATP satp) ;;
  let* p := onp (theproc i) in
  onp (store_tf TF_KERNEL_SP (p_kstack p + PGSIZE)) ;;
  onp (store_tf TF_KERNEL_TRAP usertrap_addr) ;;
  let* tp := r_tp in
  onp (store_tf TF_KERNEL_HARTID tp) ;;
  let* x := r_sstatus in
  w_sstatus (Z.lor (Z.land x (Z.lnot SSTATUS_SPP)) SSTATUS_SPIE) ;;
  let* epc := onp (load_tf TF_EPC) in
  w_sepc epc ;;
  let* p := onp (theproc i) in
  ret (ToUser (MAKE_SATP (p_pagetable p))).

(** usertrap after the cause was dealt with. *)
Definition usertrap_tail (i : nat) (which : dev_irq) : TM trap_end :=
  let* k := onp (killed i) in
  if k : bool then onp (exit (-1)) ;; ret Away
  else match which with
       | Timer => onp yield ;; ret Yielded
       | _ => usertrapret
       end.

Definition usertrap : TM trap_end :=
  let* x := r_sstatus in
  if nz (Z.land x SSTATUS_SPP) then panic "usertrap: not from user mode"
  else
    w_stvec kernelvec ;;
    let* i := onp myproc in
    let* epc := r_sepc in
    onp (store_tf TF_EPC epc) ;;
    let* scause := r_scause in
    if scause =? 8 then
      let* k := onp (killed i) in
      if k : bool then onp (exit (-1)) ;; ret Away
      else
        let* epc := onp (load_tf TF_EPC) in
        onp (store_tf TF_EPC (epc + 4)) ;;
        intr_on ;;
        let* back := onp (syscall ticks_chan uproc shaddr) in
        if back : bool then usertrap_tail i NotRecognised else ret Away
    else
      let* which := devintr in
      match which with
      | NotRecognised => onp (setkilled i) ;; usertrap_tail i which
      | _ => usertrap_tail i which
      end.

(** ... when the scheduler comes back to a process that yielded. *)
Definition usertrap_yielded : TM trap_end := usertrapret.

(** kerneltrap: the sepc and sstatus to restore, when it yields. *)
Definition kerneltrap : TM (option (Z * Z)) :=
  let* sepc := r_sepc in
  let* sstatus := r_sstatus in
  if Z.land sstatus SSTATUS_SPP =? 0 then panic "kerneltrap: not from supervisor mode"
  else
    let* on := intr_get in
    if on : bool then panic "kerneltrap: interrupts enabled"
    else
      let* which := devintr in
      match which with
      | NotRecognised => panic "kerneltrap"
      | _ =>
          let* s := get in
          let running := match cur (hk s) with
                         | Some i => bool_decide (p_state (getp (hk s) i) = RUNNING)
                         | None => false
                         end in
          match which with
          | Timer =>
              if running : bool then onp yield ;; ret (Some (sepc, sstatus))
              else w_sepc sepc ;; w_sstatus sstatus ;; ret None
          | _ => w_sepc sepc ;; w_sstatus sstatus ;; ret None
          end
      end.
Definition kerneltrap_yielded (saved : Z * Z) : TM unit := w_sepc (fst saved) ;; w_sstatus (snd saved).
End trap.

(** What the interfaces promise: a call that returns to the process that made
    it finds that process on the CPU, and so do the handlers of the devices. *)
Class CpuStays (F : Type) `{FileCalls F} `{Drivers F} `{Phys (pk F)} : Prop := {
  cs_call : forall num v (k k' : pk F), fc_call num k = Ok (Some v) k' -> cur k' = cur k;
  cs_uartintr : forall k k' : pk F, dr_uartintr k = Ok tt k' -> cur k' = cur k;
  cs_virtio_disk_intr : forall k k' : pk F, dr_virtio_disk_intr k = Ok tt k' -> cur k' = cur k;
  cs_read32 : forall a (k : pk F), cur (snd (ph_read32 a k)) = cur k;
  cs_write32 : forall a x (k : pk F), cur (ph_write32 a x k) = cur k;
}.

(** The state in which process [j] is about to enter user space with [satp]:
    after sret the CPU is in user mode with interrupts on, which are off until
    then; the next trap goes to uservec, and the trapframe tells it the kernel's
    page table, stack, usertrap and hart. *)
Record user_entry {F} (usertrap_addr uservec tramp : Z) (s : hw (pk F)) (j : nat) (satp : Z) : Prop := {
  ue_cur : cur (hk s) = Some j;
  ue_status : Z.testbit (regs s X_sstatus) 8 = false /\ Z.testbit (regs s X_sstatus) 5 = true /\
              Z.testbit (regs s X_sstatus) 1 = false;
  ue_stvec : regs s X_stvec = u64 (TRAMPOLINE + (uservec - tramp));
  ue_frame : let field off := load64 (pmem (kmem (hk s))) (p_trapframe (getp (hk s) j) + off) in
    field TF_KERNEL_SATP = u64 (regs s X_satp) /\ field TF_KERNEL_SP = u64 (p_kstack (getp (hk s) j) + PGSIZE) /\
    field TF_KERNEL_TRAP = u64 usertrap_addr /\ field TF_KERNEL_HARTID = u64 (regs s X_tp) /\
    regs s X_sepc = field TF_EPC;
  ue_satp : satp = MAKE_SATP (p_pagetable (getp (hk s) j));
}.

(** ** Lemmas *)

Section lemmas.
Context {F : Type} `{FsEnv F} `{FileCalls F} `{Drivers F} `{Phys (pk F)}.
Context (ticks_chan uproc shaddr : Z).
Context (kernelvec usertrap_addr uservec userret tramp : Z).

(** A kernel with other memory. *)
Definition with_mem (m : mem) (k : pk F) : pk F :=
  Pk (procs k) (nextpid k) (initproc k) (cur k) (Proc.ticks k) (set_mem m (kmem k)) (shr k) (pages7 k) (trampoline k) (proc_addr k) (fsys k).
Abbreviation kmem_of k := (pmem (kmem k)).

Lemma getp_with_mem m (k : pk F) i : getp (with_mem m k) i = getp k i.
Proof. done. Qed.

Lemma myproc_run (k : pk F) i : cur k = Some i -> myproc k = Ok i k.
Proof. intros E. unfold myproc. erewrite bind_run by reflexivity. by rewrite E. Qed.

Lemma load_tf_run (k : pk F) i off : cur k = Some i ->
  load_tf off k = Ok (load64 (kmem_of k) (p_trapframe (getp k i) + off)) k.
Proof. intros E. unfold load_tf. rewrite (bind_run _ _ _ _ _ (myproc_run _ _ E)). done. Qed.

Lemma store_tf_run (k : pk F) i off x : cur k = Some i ->
  store_tf off x k = Ok tt (with_mem (store64 (kmem_of k) (p_trapframe (getp k i) + off) x) k).
Proof. intros E. unfold store_tf. rewrite (bind_run _ _ _ _ _ (myproc_run _ _ E)). done. Qed.

Lemma onp_run {A} (m : PM (F := F) A) s a k : m (hk s) = Ok a k -> onp m s = Ok a (Hw (regs s) k).
Proof. intros E. unfold onp, zoom. cbn [view over hk_lens]. by rewrite E. Qed.

Lemma onp_Ok {A} (m : PM (F := F) A) s a s' : onp m s = Ok a s' -> m (hk s) = Ok a (hk s') /\ regs s' = regs s.
Proof. unfold onp, zoom. cbn [view over hk_lens]. destruct (m (hk s)); [|done]. by intros [= <- <-]. Qed.

Lemma rcsr_run c (r : csr -> Z) (k : pk F) : rcsr c (Hw r k) = Ok (r c) (Hw r k).
Proof. done. Qed.
Lemma wcsr_run c x (r : csr -> Z) (k : pk F) : wcsr c x (Hw r k) = Ok tt (Hw (<[c := u64 x]> r) k).
Proof. done. Qed.
Lemma intr_off_run (r : csr -> Z) (k : pk F) :
  intr_off (Hw r k) = Ok tt (Hw (<[X_sstatus := u64 (Z.land (r X_sstatus) (Z.lnot SSTATUS_SIE))]> r) k).
Proof. done. Qed.
Lemma theproc_run (k : pk F) i : theproc i k = Ok (getp k i) k.
Proof. done. Qed.

(** The trapframe usertrapret leaves. *)
Definition ret_mem (m : mem) (tf ksp satp tp : Z) : mem :=
  store64 (store64 (store64 (store64 m (tf + TF_KERNEL_SATP) satp) (tf + TF_KERNEL_SP) ksp) (tf + TF_KERNEL_TRAP) usertrap_addr)
    (tf + TF_KERNEL_HARTID) tp.
Definition ret_status (x : Z) : Z := u64 (Z.lor (Z.land (u64 (Z.land x (Z.lnot SSTATUS_SIE))) (Z.lnot SSTATUS_SPP)) SSTATUS_SPIE).
Definition ret_regs (r : csr -> Z) (epc : Z) : csr -> Z :=
  <[X_sepc := epc]> (<[X_sstatus := ret_status (r X_sstatus)]> (<[X_stvec := u64 (TRAMPOLINE + (uservec - tramp))]> (<[X_sstatus := u64 (Z.land (r X_sstatus) (Z.lnot SSTATUS_SIE))]> r))).

Lemma usertrapret_run s i : cur (hk s) = Some i ->
  let p := getp (hk s) i in
  usertrapret usertrap_addr uservec tramp s =
    Ok (ToUser (MAKE_SATP (p_pagetable p)))
       (Hw (ret_regs (regs s) (u64 (load64 (kmem_of (hk s)) (p_trapframe p + TF_EPC))))
           (with_mem (ret_mem (kmem_of (hk s)) (p_trapframe p) (p_kstack p + PGSIZE) (regs s X_satp) (regs s X_tp)) (hk s))).
Proof.
  intros Hc p. destruct s as [r k]. cbn [hk regs] in *. unfold usertrapret, w_stvec, w_sstatus, w_sepc, r_satp, r_tp, r_sstatus.
  rewrite (bind_run _ _ _ _ _ (onp_run _ (Hw r k) _ _ (myproc_run _ _ Hc))), (bind_run _ _ _ _ _ (intr_off_run r k)),
    (bind_run _ _ _ _ _ (wcsr_run X_stvec _ _ k)), (bind_run _ _ _ _ _ (rcsr_run X_satp _ k)).
  rewrite (bind_run _ _ _ _ _ (onp_run _ (Hw _ k) _ _ (store_tf_run k i _ _ Hc))). cbn [regs hk].
  set (k1 := with_mem _ k). assert (cur k1 = Some i) as Hc1 by done.
  rewrite (bind_run _ _ _ _ _ (onp_run _ (Hw _ k1) _ _ (theproc_run k1 i))). cbn [regs hk].
  rewrite (bind_run _ _ _ _ _ (onp_run _ (Hw _ k1) _ _ (store_tf_run k1 i _ _ Hc1))). cbn [regs hk].
  set (k2 := with_mem _ k1). assert (cur k2 = Some i) as Hc2 by done.
  rewrite (bind_run _ _ _ _ _ (onp_run _ (Hw _ k2) _ _ (store_tf_run k2 i _ _ Hc2))). cbn [regs hk].
  set (k3 := with_mem _ k2). assert (cur k3 = Some i) as Hc3 by done.
  rewrite (bind_run _ _ _ _ _ (rcsr_run X_tp _ k3)).
  rewrite (bind_run _ _ _ _ _ (onp_run _ (Hw _ k3) _ _ (store_tf_run k3 i _ _ Hc3))). cbn [regs hk].
  set (k4 := with_mem _ k3). assert (cur k4 = Some i) as Hc4 by done.
  rewrite (bind_run _ _ _ _ _ (rcsr_run X_sstatus _ k4)), (bind_run _ _ _ _ _ (wcsr_run X_sstatus _ _ k4)).
  rewrite (bind_run _ _ _ _ _ (onp_run _ (Hw _ k4) _ _ (load_tf_run k4 i _ Hc4))). cbn [regs hk].
  rewrite (bind_run _ _ _ _ _ (wcsr_run X_sepc _ _ k4)), (bind_run _ _ _ _ _ (onp_run _ (Hw _ k4) _ _ (theproc_run k4 i))).
  rewrite !fn_lookup_insert_ne by done. rewrite fn_lookup_insert.
  assert (kmem_of k4 = ret_mem (kmem_of k) (p_trapframe p) (p_kstack p + PGSIZE) (r X_satp) (r X_tp)) as Em.
  { unfold k4, k3, k2, k1. rewrite !getp_with_mem. fold p. rewrite !fn_lookup_insert_ne by done. done. }
  assert (k4 = with_mem (kmem_of k4) k) as Ek by (by destruct k).
  unfold ret. rewrite Ek, !getp_with_mem, Em. fold p. do 3 f_equal. cbn [kmem with_mem pmem set_mem].
  unfold ret_mem. by rewrite !load64_store64_out by (unfold TF_EPC, TF_KERNEL_SATP, TF_KERNEL_SP, TF_KERNEL_TRAP, TF_KERNEL_HARTID; lia).
Qed.

Lemma myproc_inv (k : pk F) i k' : myproc k = Ok i k' -> cur k = Some i /\ k' = k.
Proof. unfold myproc. rewrite (bind_run get _ _ _ _ eq_refl). destruct (cur k); [|done]. by intros [= <- <-]. Qed.

Lemma tail_inv i which (s : hw (pk F)) satp s' :
  usertrap_tail usertrap_addr uservec tramp i which s = Ok (ToUser satp) s' ->
  p_killed (getp (hk s) i) = 0 /\ usertrapret usertrap_addr uservec tramp s = Ok (ToUser satp) s'.
Proof.
  unfold usertrap_tail. intros (k & s1 & E1 & E)%bind_Ok. apply onp_Ok in E1 as [E1 Er]. injection E1 as <- Ek.
  assert (s1 = s) as -> by (destruct s, s1; simpl in *; congruence).
  unfold nz in E. destruct (Z.eqb_spec (p_killed (getp (hk s) i)) 0) as [Ez|Ez]; cbn [negb] in E.
  - split; [done|]. destruct which; [exact E | exact E|]. apply bind_Ok in E as (x & s2 & _ & E). done.
  - apply bind_Ok in E as (x & s2 & _ & E). done.
Qed.

Lemma ret_status_bits x : let y := ret_status x in
  Z.testbit y 8 = false /\ Z.testbit y 5 = true /\ Z.testbit y 1 = false.
Proof.
  unfold ret_status, u64. cbv zeta. rewrite !Z.mod_pow2_bits_low by lia. rewrite !Z.lor_spec, !Z.land_spec.
  rewrite !Z.mod_pow2_bits_low by lia. rewrite !Z.land_spec, !Z.lnot_spec by lia. unfold SSTATUS_SPP, SSTATUS_SPIE, SSTATUS_SIE.
  rewrite !Z.shiftl_spec by lia. cbn. rewrite ?andb_false_r, ?andb_true_r, ?orb_false_r, ?orb_true_r. done.
Qed.

Lemma ret_mem_fields m tf ksp satp tp :
  let m' := ret_mem m tf ksp satp tp in
  load64 m' (tf + TF_KERNEL_SATP) = u64 satp /\ load64 m' (tf + TF_KERNEL_SP) = u64 ksp /\
  load64 m' (tf + TF_KERNEL_TRAP) = u64 usertrap_addr /\ load64 m' (tf + TF_KERNEL_HARTID) = u64 tp /\
  (forall off, 24 <= off < 32 \/ 40 <= off -> off mod 8 = 0 -> load64 m' (tf + off) = load64 m (tf + off)).
Proof.
  unfold ret_mem, TF_KERNEL_SATP, TF_KERNEL_SP, TF_KERNEL_TRAP, TF_KERNEL_HARTID. cbv zeta. split_and!.
  - rewrite !load64_store64_out by lia. apply load64_store64_eq.
  - rewrite !load64_store64_out by lia. apply load64_store64_eq.
  - rewrite !load64_store64_out by lia. apply load64_store64_eq.
  - apply load64_store64_eq.
  - intros off Ho Hm. assert (off = 24 \/ 40 <= off) by mlia. by rewrite !load64_store64_out by lia.
Qed.

(** ** The process on the CPU *)

(** A computation that returns leaves the same process on the CPU. *)
Definition keeps_cur {A} (m : PM (F := F) A) : Prop := forall s a s', m s = Ok a s' -> cur s' = cur s.

Lemma keeps_ret {A} (a : A) : keeps_cur (ret a).
Proof. by intros s b s' [= _ <-]. Qed.
Lemma keeps_get : keeps_cur get.
Proof. by intros s b s' [= _ <-]. Qed.
Lemma keeps_gets {A} (f : pk F -> A) : keeps_cur (gets f).
Proof. by intros s b s' [= _ <-]. Qed.
Lemma keeps_halt {A} e : keeps_cur (@halt (pk F) A e).
Proof. by intros s b s'. Qed.
Lemma keeps_modify f : (forall s, cur (f s) = cur s) -> keeps_cur (modify f).
Proof. intros Hf s b s' [= _ <-]. apply Hf. Qed.
Lemma keeps_bind {A B} (m : PM (F := F) A) (k : A -> PM (F := F) B) :
  keeps_cur m -> (forall a, keeps_cur (k a)) -> keeps_cur (bind m k).
Proof. intros Hm Hk s b s' (a & s1 & E1 & E2)%bind_Ok. apply Hm in E1. apply Hk in E2. congruence. Qed.
Lemma keeps_for_each {A} (l : list A) f : (forall x, keeps_cur (f x)) -> keeps_cur (for_each l f).
Proof. intros Hf. induction l as [|x l IH]; [apply keeps_ret | by apply keeps_bind]. Qed.
Lemma keeps_for_until {A B} (l : list A) (f : A -> PM (F := F) (option B)) :
  (forall x, keeps_cur (f x)) -> keeps_cur (for_until l f).
Proof.
  intros Hf. induction l as [|x l IH]; [apply keeps_ret|]. apply keeps_bind; [apply Hf|].
  intros [b|]; [apply keeps_ret | exact IH].
Qed.
Lemma keeps_zoom {A B} (l : lens (pk F) B) (m : M B A) : (forall b s, cur (over l b s) = cur s) -> keeps_cur (zoom l m).
Proof. intros Hl s a s'. unfold zoom. destruct (m (view l s)); [|done]. intros [= _ <-]. apply Hl. Qed.

Ltac head_of m := match m with ?f _ => head_of f | _ => m end.
Ltac keeps := repeat match goal with
  | |- keeps_cur (bind _ _) => apply keeps_bind; [|intros ?]
  | |- keeps_cur (ret _) => apply keeps_ret
  | |- keeps_cur get => apply keeps_get
  | |- keeps_cur (gets _) => apply keeps_gets
  | |- keeps_cur (halt _) => apply keeps_halt
  | |- keeps_cur (panic _) => apply keeps_halt
  | |- keeps_cur (fault _) => apply keeps_halt
  | |- keeps_cur (modify _) => apply keeps_modify; done
  | |- keeps_cur (for_each _ _) => apply keeps_for_each; intros ?
  | |- keeps_cur (for_until _ _) => apply keeps_for_until; intros ?
  | |- keeps_cur (onk _) => apply keeps_zoom; done
  | |- keeps_cur (onf _) => apply keeps_zoom; done
  | |- keeps_cur (if ?b then _ else _) => destruct b
  | |- keeps_cur (match ?x with _ => _ end) => destruct x
  | |- keeps_cur (when ?b _) => destruct b; cbn [when]
  | |- _ => eassumption
  | |- keeps_cur (ps_loop _ _ _ _ _) => fail 1
  | |- keeps_cur ?m => let h := head_of m in progress unfold h
  end.

Lemma keeps_ps_loop me u l : forall utable n, keeps_cur (ps_loop me u l utable n).
Proof. induction l as [|i l IH]; intros; cbn [ps_loop]; keeps; apply IH. Qed.

(** *** usertrap keeps the process on the CPU *)

Section stays.
Context `{!CpuStays F}.

Definition hkeeps {A} (m : TM (F := F) A) : Prop := forall s a s', m s = Ok a s' -> cur (hk s') = cur (hk s).

Lemma hkeeps_onp {A} (m : PM (F := F) A) : keeps_cur m -> hkeeps (onp m).
Proof. intros Hm s a s' [E _]%onp_Ok. by apply Hm in E. Qed.
Lemma hkeeps_bind {A B} (m : TM (F := F) A) (k : A -> TM (F := F) B) : hkeeps m -> (forall a, hkeeps (k a)) -> hkeeps (bind m k).
Proof. intros Hm Hk s b s' (a & s1 & E1 & E2)%bind_Ok. apply Hm in E1. apply Hk in E2. congruence. Qed.
Lemma hkeeps_ret {A} (a : A) : hkeeps (ret a).
Proof. by intros s b s' [= _ <-]. Qed.
Lemma hkeeps_rcsr c : hkeeps (rcsr c).
Proof. by intros s b s' [= _ <-]. Qed.
Lemma hkeeps_wcsr c x : hkeeps (wcsr c x).
Proof. by intros s b s' [= _ <-]. Qed.
Lemma hkeeps_read32 a : hkeeps (read32 a).
Proof. intros s b s'. unfold read32. pose proof (cs_read32 a (hk s)). destruct (ph_read32 a (hk s)). by intros [= _ <-]. Qed.
Lemma hkeeps_write32 a x : hkeeps (write32 a x).
Proof. intros s b s' [= _ <-]. apply cs_write32. Qed.

Lemma hkeeps_devintr : hkeeps (devintr ticks_chan).
Proof.
  unfold devintr, plic_claim, plic_complete, cpuid, r_scause, r_tp, r_sip, w_sip, clockintr.
  repeat (match goal with |- hkeeps (bind _ _) => apply hkeeps_bind; [|intros ?] | |- hkeeps (if ?b then _ else _) => destruct b end
    || auto using hkeeps_ret, hkeeps_rcsr, hkeeps_wcsr, hkeeps_read32, hkeeps_write32); apply hkeeps_onp.
  - intros s [] s'. apply cs_uartintr.
  - intros s [] s'. apply cs_virtio_disk_intr.
  - keeps.
  - keeps.
Qed.

(** A system call that returns has its caller on the CPU. *)
Lemma handler_keeps num f v (k k' : pk F) :
  handler ticks_chan uproc shaddr num = Some f -> f k = Ok (Some v) k' -> cur k' = cur k.
Proof.
  unfold handler. destruct (_ && _); [|done]. unfold syscalls.
  assert (forall m : PM (F := F) (option Z), keeps_cur m -> m k = Ok (Some v) k' -> cur k' = cur k) as Hm
    by (intros m Hm; apply Hm).
  repeat case_match; intros [= <-]; try apply cs_call; apply Hm; keeps; apply keeps_ps_loop.
Qed.

Lemma syscall_keeps (k k' : pk F) : syscall ticks_chan uproc shaddr k = Ok true k' -> cur k' = cur k.
Proof.
  assert (forall off v, keeps_cur (store_tf off v)) as Hst by (intros; keeps).
  unfold syscall. intros (a7 & k1 & E1 & E)%bind_Ok. apply (ltac:(keeps) : keeps_cur (load_tf TF_A7)) in E1 as C1.
  destruct (handler _ _ _ _) as [f|] eqn:Ef.
  - apply bind_Ok in E as ([v|] & k2 & E2 & E); [|done]. apply (handler_keeps _ _ _ _ _ Ef) in E2.
    apply bind_Ok in E as ([] & k3 & E3 & E). injection E as <-. apply Hst in E3. congruence.
  - apply bind_Ok in E as ([] & k3 & E3 & E). injection E as <-. apply Hst in E3. congruence.
Qed.

(** Every way out of usertrap to user space, but for the one after yield, ends
    in usertrapret, for the process that trapped, which has not been killed. *)
Lemma usertrap_inv (s : hw (pk F)) satp s' :
  usertrap ticks_chan uproc shaddr kernelvec usertrap_addr uservec tramp s = Ok (ToUser satp) s' ->
  exists i s2, cur (hk s) = Some i /\ cur (hk s2) = Some i /\ p_killed (getp (hk s2) i) = 0 /\
    usertrapret usertrap_addr uservec tramp s2 = Ok (ToUser satp) s'.
Proof.
  assert (forall off v, keeps_cur (store_tf off v)) as Hst by (intros; keeps).
  unfold usertrap. intros (x & s1 & E1 & E)%bind_Ok. injection E1 as <- <-.
  destruct (nz (Z.land _ SSTATUS_SPP)); [done|]. apply bind_Ok in E as ([] & s1 & E1 & E). injection E1 as <-.
  apply bind_Ok in E as (i & s1 & E1 & E). apply onp_Ok in E1 as [E1 _]. apply myproc_inv in E1 as [Hc Es]. cbn [hk] in Hc, Es.
  assert (forall which s2, cur (hk s2) = Some i -> usertrap_tail usertrap_addr uservec tramp i which s2 = Ok (ToUser satp) s' ->
    exists i s2, cur (hk s) = Some i /\ cur (hk s2) = Some i /\ p_killed (getp (hk s2) i) = 0 /\
      usertrapret usertrap_addr uservec tramp s2 = Ok (ToUser satp) s') as Htail.
  { intros which s2 Hc2 Ht. exists i, s2. apply tail_inv in Ht as [??]. by split_and!. }
  rewrite <- Es in Hc. clear Es. rename Hc into C1.
  apply bind_Ok in E as (epc & s2 & E2 & E). apply (hkeeps_rcsr X_sepc) in E2 as C2.
  apply bind_Ok in E as ([] & s3 & E3 & E). apply (hkeeps_onp _ (Hst _ _)) in E3 as C3.
  apply bind_Ok in E as (sc & s4 & E4 & E). apply (hkeeps_rcsr X_scause) in E4 as C4.
  destruct (sc =? 8).
  - apply bind_Ok in E as (k & s5 & E5 & E). apply (hkeeps_onp _ (ltac:(keeps) : keeps_cur (killed i))) in E5 as C5.
    destruct k; [by apply bind_Ok in E as (? & ? & _ & E)|].
    apply bind_Ok in E as (epc2 & s6 & E6 & E). apply (hkeeps_onp _ (ltac:(keeps) : keeps_cur (load_tf TF_EPC))) in E6 as C6.
    apply bind_Ok in E as ([] & s7 & E7 & E). apply (hkeeps_onp _ (Hst _ _)) in E7 as C7.
    apply bind_Ok in E as ([] & s8 & E8 & E). assert (cur (hk s8) = cur (hk s7)) as C8 by (by injection E8 as <-).
    apply bind_Ok in E as (back & s9 & E9 & E). destruct back; [|done]. apply onp_Ok in E9 as [E9 _].
    apply syscall_keeps in E9. eapply Htail; [|exact E]. congruence.
  - apply bind_Ok in E as (which & s5 & E5 & E). apply hkeeps_devintr in E5 as C5.
    destruct which; [|eapply Htail; [|exact E]; congruence..].
    apply bind_Ok in E as ([] & s6 & E6 & E). apply (hkeeps_onp _ (ltac:(keeps) : keeps_cur (setkilled i))) in E6 as C6.
    eapply Htail; [|exact E]; congruence.
Qed.
End stays.

(** usertrapret ends in that state, whatever came before. *)
Lemma usertrapret_entry (s : hw (pk F)) j : cur (hk s) = Some j ->
  exists satp s', usertrapret usertrap_addr uservec tramp s = Ok (ToUser satp) s' /\
    procs (hk s') = procs (hk s) /\ user_entry usertrap_addr uservec tramp s' j satp.
Proof.
  intros Hj. pose proof (usertrapret_run s j Hj) as Er. cbv zeta in Er. do 2 eexists. split; [exact Er|]. split; [done|].
  destruct (ret_mem_fields (pmem (kmem (hk s))) (p_trapframe (getp (hk s) j)) (p_kstack (getp (hk s) j) + PGSIZE)
    (regs s X_satp) (regs s X_tp)) as (M1 & M2 & M3 & M4 & M5).
  split; cbn [hk regs]; rewrite ?getp_with_mem; cbn [cur with_mem kmem pmem set_mem]; unfold ret_regs; try done.
  - rewrite !fn_lookup_insert_ne, fn_lookup_insert by done. apply ret_status_bits.
  - rewrite fn_lookup_insert, !fn_lookup_insert_ne by done. split_and!; try done.
    rewrite (M5 TF_EPC) by (unfold TF_EPC; (left; lia) || done). apply u64_id, load64_range.
Qed.

(** The state [s'] in user space after a system call that returned [v] and left
    the kernel as [k2]: of the kernel only the words for the next trap and a0
    in the trapframe at [tf] have changed, and of the registers the three that
    usertrapret writes. *)
Definition tf_words (offs : list Z) (tf a : Z) : Prop := exists off, off ∈ offs /\ tf + off <= a < tf + off + 8.
Definition returned_with (tf v : Z) (r : csr -> Z) (k2 : pk F) (s' : hw (pk F)) : Prop :=
  hk s' = with_mem (kmem_of (hk s')) k2 /\
  regs s' X_sepc = load64 (kmem_of k2) (tf + TF_EPC) /\
  load64 (kmem_of (hk s')) (tf + TF_A0) = u64 v /\
  (forall a, ~ tf_words [TF_KERNEL_SATP; TF_KERNEL_SP; TF_KERNEL_TRAP; TF_KERNEL_HARTID; TF_A0] tf a ->
     load8 (kmem_of (hk s')) a = load8 (kmem_of k2) a) /\
  (forall c, c ∉ [X_sepc; X_sstatus; X_stvec] -> regs s' c = r c).

Lemma store64_out m w x a tf off : w = tf + off -> ~ (tf + off <= a < tf + off + 8) -> load8 (store64 m w x) a = load8 m a.
Proof. intros -> Ha. apply load8_store_le_out. lia. Qed.

(** The end of a system call that returned [v]. *)
Lemma tail_runs i tf (r : csr -> Z) v (k2 : pk F) :
  cur k2 = Some i -> p_trapframe (getp k2 i) = tf -> p_killed (getp k2 i) = 0 ->
  exists s', usertrap_tail usertrap_addr uservec tramp i NotRecognised
      (Hw r (with_mem (store64 (pmem (kmem k2)) (tf + TF_A0) v) k2)) = Ok (ToUser (MAKE_SATP (p_pagetable (getp k2 i)))) s' /\
    returned_with tf v r k2 s'.
Proof.
  intros Hc2 Htf Hk2. set (k3 := with_mem _ k2). unfold usertrap_tail.
  erewrite bind_run by (apply onp_run; reflexivity). cbn [regs hk]. assert (getp k3 i = getp k2 i) as Eg by done.
  rewrite Eg, Hk2. cbn [nz Z.eqb negb].
  pose proof (usertrapret_run (Hw r k3) i Hc2) as Er. cbv zeta in Er. cbn [hk regs] in Er.
  rewrite Er, Eg, Htf. eexists. split; [done|]. unfold returned_with. cbn [hk regs kmem with_mem pmem set_mem k3].
  split; [done|].
  destruct (ret_mem_fields (store64 (pmem (kmem k2)) (tf + TF_A0) v) tf (p_kstack (getp k2 i) + PGSIZE) (r X_satp) (r X_tp))
    as (_ & _ & _ & _ & M5). unfold ret_regs. rewrite fn_lookup_insert, (M5 TF_A0) by (unfold TF_A0; (right; lia) || done).
  rewrite load64_store64_eq, load64_store64_out by (unfold TF_A0, TF_EPC; lia).
  split_and!; [apply u64_id, load64_range | done | |].
  - intros a Ha. unfold ret_mem. assert (forall off, off ∈ [TF_KERNEL_SATP; TF_KERNEL_SP; TF_KERNEL_TRAP; TF_KERNEL_HARTID; TF_A0] ->
      ~ (tf + off <= a < tf + off + 8)) as Ho by (intros off Hoff Hin; apply Ha; exists off; done).
    by rewrite !(store64_out _ _ _ a tf _ eq_refl) by (apply Ho; set_solver).
  - intros c Hc. rewrite !not_elem_of_cons in Hc. destruct Hc as (? & ? & ? & _). by rewrite !fn_lookup_insert_ne by done.
Qed.

(** An ecall runs syscall with the pc past it. *)
Lemma trap_runs s i :
  nz (Z.land (regs s X_sstatus) SSTATUS_SPP) = false -> regs s X_scause = 8 ->
  cur (hk s) = Some i -> p_killed (getp (hk s) i) = 0 ->
  let tf := p_trapframe (getp (hk s) i) in
  let k1 := with_mem (store64 (store64 (kmem_of (hk s)) (tf + TF_EPC) (regs s X_sepc)) (tf + TF_EPC) (u64 (regs s X_sepc) + 4)) (hk s) in
  exists r, (forall c, c ∉ [X_sepc; X_sstatus; X_stvec] -> r c = regs s c) /\
    forall (back : bool) k2, syscall ticks_chan uproc shaddr k1 = Ok back k2 ->
    usertrap ticks_chan uproc shaddr kernelvec usertrap_addr uservec tramp s =
      (if back then usertrap_tail usertrap_addr uservec tramp i NotRecognised (Hw r k2) else Ok Away (Hw r k2)).
Proof.
  intros Hspp Hsc Hc Hk tf k1. destruct s as [r k]. cbn [regs hk] in *. eexists. split.
  2: { intros back k2 Es. unfold usertrap, r_sstatus, w_stvec, r_sepc, r_scause.
  rewrite (bind_run _ _ _ _ _ (rcsr_run X_sstatus r k)), Hspp, (bind_run _ _ _ _ _ (wcsr_run X_stvec _ r k)).
  rewrite (bind_run _ _ _ _ _ (onp_run _ (Hw _ k) _ _ (myproc_run _ _ Hc))). cbn [regs].
  rewrite (bind_run _ _ _ _ _ (rcsr_run X_sepc _ k)), fn_lookup_insert_ne by done.
  rewrite (bind_run _ _ _ _ _ (onp_run _ (Hw _ k) _ _ (store_tf_run k i _ _ Hc))). cbn [regs hk]. fold tf.
  set (ka := with_mem _ k). assert (cur ka = Some i) as Hca by done.
  rewrite (bind_run _ _ _ _ _ (rcsr_run X_scause _ ka)), fn_lookup_insert_ne, Hsc by done. cbn [Z.eqb Pos.eqb].
  erewrite bind_run by (apply onp_run; reflexivity). cbn [regs hk]. assert (getp ka i = getp k i) as Eg by done. rewrite Eg, Hk. cbn [nz Z.eqb negb].
  rewrite (bind_run _ _ _ _ _ (onp_run _ (Hw _ ka) _ _ (load_tf_run ka i _ Hca))). cbn [regs hk].
  rewrite (bind_run _ _ _ _ _ (onp_run _ (Hw _ ka) _ _ (store_tf_run ka i _ _ Hca))). cbn [regs hk].
  erewrite bind_run by reflexivity. cbn [regs hk]. rewrite Eg. fold tf. cbn [ka kmem with_mem pmem set_mem]. rewrite load64_store64_eq.
  erewrite bind_run by (apply onp_run; exact Es). cbn [regs hk]. destruct back; reflexivity. }
  intros c Hr. rewrite !not_elem_of_cons in Hr. destruct Hr as (? & ? & ? & _). by rewrite !fn_lookup_insert_ne by done.
Qed.
End lemmas.

(** ** Properties *)

(** C21: the kernel enters user space only through a safe door. When usertrap
    goes back to user space without a yield, it is for the process that
    trapped, which has not been killed. A process that comes back from the
    yield of a timer interrupt always goes on to user space, without another
    look at killed. Either way the CPU will be in user mode with interrupts
    enabled after sret and has them disabled until then, the next trap goes to
    uservec with the trapframe telling it the kernel's page table, stack,
    usertrap and hart, and the pc and page table are those of that process. *)
Theorem usertrap_returns_safely {F} `{FsEnv F} `{FileCalls F} `{Drivers F} `{Phys (pk F)} `{!CpuStays F}
    ticks_chan uproc shaddr kernelvec usertrap_addr uservec tramp (s : hw (pk F)) :
  (forall satp s',
     usertrap ticks_chan uproc shaddr kernelvec usertrap_addr uservec tramp s = Ok (ToUser satp) s' ->
     exists i, cur (hk s) = Some i /\ p_killed (getp (hk s') i) = 0 /\
       user_entry usertrap_addr uservec tramp s' i satp) /\
  (forall i, cur (hk s) = Some i ->
     exists satp s', usertrap_yielded usertrap_addr uservec tramp s = Ok (ToUser satp) s' /\
       procs (hk s') = procs (hk s) /\ user_entry usertrap_addr uservec tramp s' i satp).
Proof.
  split; [|apply usertrapret_entry]. intros satp s' (i & s2 & Hc & Hc2 & Hk & E)%usertrap_inv; [|done].
  destruct (usertrapret_entry usertrap_addr uservec tramp s2 i Hc2) as (satp2 & s3 & E3 & Ep & Hu).
  rewrite E in E3. injection E3 as <- <-. exists i. split_and!; [done | | done]. unfold getp in *. by rewrite Ep.
Qed.

(** C22: a system call. An ecall from user mode by a process that has not been
    killed looks its handler up by a7, with the pc already past the ecall.
    When the handler returns v and has not killed the process, the process is
    back in user space with v in a0, the pc its trapframe holds and the page
    table it has then, and all else, memory and kernel, is as the handler left
    it, but for the words of the trapframe that the next trap needs. A number
    without a handler, which includes touch, cp and every number out of range,
    puts -1 in a0 and the pc past the ecall, and changes nothing else: not the
    kernel, nor any other register of the process or byte of memory. *)
Theorem ecall_correct {F} `{FsEnv F} `{FileCalls F} `{Drivers F} `{Phys (pk F)}
    ticks_chan uproc shaddr kernelvec usertrap_addr uservec tramp s i :
  nz (Z.land (regs s X_sstatus) SSTATUS_SPP) = false -> regs s X_scause = 8 ->
  cur (hk s) = Some i -> p_killed (getp (hk s) i) = 0 ->
  let trap := usertrap ticks_chan uproc shaddr kernelvec usertrap_addr uservec tramp in
  let tf := p_trapframe (getp (hk s) i) in
  let m := pmem (kmem (hk s)) in
  let k1 := with_mem (store64 (store64 m (tf + TF_EPC) (regs s X_sepc)) (tf + TF_EPC) (u64 (regs s X_sepc) + 4)) (hk s) in
  match handler ticks_chan uproc shaddr (i32 (load64 m (tf + TF_A7))) with
  | Some f => forall v k2, f k1 = Ok (Some v) k2 -> cur k2 = Some i ->
      p_trapframe (getp k2 i) = tf -> p_killed (getp k2 i) = 0 ->
      exists s', trap s = Ok (ToUser (MAKE_SATP (p_pagetable (getp k2 i)))) s' /\
        returned_with tf v (regs s) k2 s'
  | None =>
      exists s', trap s = Ok (ToUser (MAKE_SATP (p_pagetable (getp (hk s) i)))) s' /\
        hk s' = with_mem (pmem (kmem (hk s'))) (hk s) /\
        regs s' X_sepc = u64 (u64 (regs s X_sepc) + 4) /\
        load64 (pmem (kmem (hk s'))) (tf + TF_A0) = 2 ^ 64 - 1 /\
        (forall a, ~ tf_words [TF_KERNEL_SATP; TF_KERNEL_SP; TF_KERNEL_TRAP; TF_EPC; TF_KERNEL_HARTID; TF_A0] tf a ->
           load8 (pmem (kmem (hk s'))) a = load8 m a) /\
        (forall c, c ∉ [X_sepc; X_sstatus; X_stvec] -> regs s' c = regs s c)
  end.
Proof.
  intros Hspp Hsc Hc Hk trap tf m k1.
  destruct (trap_runs ticks_chan uproc shaddr kernelvec usertrap_addr uservec tramp s i Hspp Hsc Hc Hk) as (r & Hr & Htrap).
  pose proof (tail_runs usertrap_addr uservec tramp i tf) as Htail. fold tf m k1 trap in Htrap.
  assert (load64 (pmem (kmem k1)) (tf + TF_A7) = load64 m (tf + TF_A7)) as Ea7.
  { cbn [k1 kmem with_mem pmem set_mem]. rewrite !load64_store64_out by (unfold TF_A7, TF_EPC; lia). done. }
  assert (cur k1 = Some i) as Hc1 by done.
  assert (forall f, handler ticks_chan uproc shaddr (i32 (load64 m (tf + TF_A7))) = f ->
    syscall ticks_chan uproc shaddr k1 =
      match f with
      | Some f => (let* r := f in match r with Some v => store_tf TF_A0 v ;; ret true | None => ret false end) k1
      | None => (store_tf TF_A0 (-1) ;; ret true) k1
      end) as Hsys.
  { intros f Ef. unfold syscall. rewrite (bind_run _ _ _ _ _ (load_tf_run k1 i _ Hc1)). change (getp k1 i) with (getp (hk s) i). fold tf.
    rewrite Ea7, Ef. by destruct f. }
  destruct (handler _ _ _ _) as [f|] eqn:Ef.
  - intros v k2 Ev Hc2 Htf Hk2. destruct (Htail r v k2 Hc2 Htf Hk2) as (s' & E & R1 & R2 & R3 & R4 & R5). exists s'. split.
    + rewrite (Htrap true (with_mem (store64 (pmem (kmem k2)) (tf + TF_A0) v) k2)); [exact E|].
      rewrite (Hsys _ eq_refl), (bind_run _ _ _ _ _ Ev), (bind_run _ _ _ _ _ (store_tf_run k2 i _ _ Hc2)), Htf. done.
    + split_and!; [exact R1 | exact R2 | exact R3 | exact R4 |]. intros c Hcr. by rewrite R5, Hr.
  - destruct (Htail r (-1) k1 Hc1 eq_refl Hk) as (s' & E & R1 & R2 & R3 & R4 & R5). exists s'. split_and!.
    + rewrite (Htrap true (with_mem (store64 (pmem (kmem k1)) (tf + TF_A0) (-1)) k1)); [exact E|].
      rewrite (Hsys _ eq_refl), (bind_run _ _ _ _ _ (store_tf_run k1 i _ _ Hc1)). done.
    + exact R1.
    + rewrite R2. unfold k1. cbn [kmem with_mem pmem set_mem]. apply load64_store64_eq.
    + exact R3.
    + intros a Ha. assert (forall off, off ∈ [TF_KERNEL_SATP; TF_KERNEL_SP; TF_KERNEL_TRAP; TF_EPC; TF_KERNEL_HARTID; TF_A0] ->
        ~ (tf + off <= a < tf + off + 8)) as Ho by (intros off Hoff Hin; apply Ha; exists off; done).
      rewrite R4. 2: { intros (off & Hoff & Hin). apply (Ho off); [set_solver | done]. }
      unfold k1. cbn [kmem with_mem pmem set_mem]. by rewrite !(store64_out _ _ _ a tf _ eq_refl) by (apply Ho; set_solver).
    + intros c Hcr. by rewrite R5, Hr.
Qed.

(** ** Witnesses *)

#[local] Existing Instance no_files.
Definition no_calls : FileCalls unit := {| fc_call := fun _ => ret (Some 0) |}.
#[local] Existing Instance no_calls.
Definition no_drivers : Drivers unit := {| dr_uartintr := ret tt; dr_virtio_disk_intr := ret tt |}.
#[local] Existing Instance no_drivers.
Definition no_devices : Phys (pk unit) := {|
  ph_read32 := fun _ k => (0, k); ph_write32 := fun _ _ k => k; ph_read64 := fun _ k => (0, k); ph_write64 := fun _ _ k => k;
|}.
#[local] Existing Instance no_devices.

(** init, whose pid is 1, has its trapframe at 0x80020000 and traps with an
    ecall at 0x100 and the given number in a7. *)
Definition demo_trap (num : Z) : hw (pk unit) :=
  Hw (<[X_scause := 8]> (<[X_sepc := 0x100]> (fun _ => 0)))
     (demo 7 (Kst (store64 ∅ (0x80020000 + TF_A7) num) 0 PHYSTOP) None
        [set_space 0x3000 0 0x80030000 0x80020000 (demo_proc RUNNING 1 5 None)]).

(** getpid() returns to 0x104 with the pid in a0; touch() is not a call. *)
Lemma ecall_correct_witness :
  (exists s', usertrap 0 0 0 0 0 0 0 (demo_trap SYS_getpid) = Ok (ToUser (MAKE_SATP 0x80030000)) s' /\
     regs s' X_sepc = 0x104 /\ load64 (pmem (kmem (hk s'))) (0x80020000 + TF_A0) = 1) /\
  (exists s', usertrap 0 0 0 0 0 0 0 (demo_trap SYS_touch) = Ok (ToUser (MAKE_SATP 0x80030000)) s' /\
     regs s' X_sepc = 0x104 /\ load64 (pmem (kmem (hk s'))) (0x80020000 + TF_A0) = 2 ^ 64 - 1 /\
     Proc.ticks (hk s') = 7 /\ load8 (pmem (kmem (hk s'))) 0x5000 = 0).
Proof.
  split.
  - pose proof (ecall_correct 0 0 0 0 0 0 0 (demo_trap SYS_getpid) 0 eq_refl eq_refl eq_refl eq_refl) as Hec.
    cbv zeta in Hec. change (p_trapframe (getp (hk (demo_trap SYS_getpid)) 0)) with 0x80020000 in Hec.
    assert (i32 (load64 (pmem (kmem (hk (demo_trap SYS_getpid)))) (0x80020000 + TF_A7)) = 11) as E7 by (vm_compute; reflexivity).
    rewrite E7 in Hec. destruct (Hec 1 _ eq_refl eq_refl eq_refl eq_refl) as (s' & E & _ & Epc & Ea0 & _).
    exists s'. split; [exact E|]. rewrite Epc, Ea0. split; vm_compute; reflexivity.
  - pose proof (ecall_correct 0 0 0 0 0 0 0 (demo_trap SYS_touch) 0 eq_refl eq_refl eq_refl eq_refl) as Hec.
    cbv zeta in Hec. change (p_trapframe (getp (hk (demo_trap SYS_touch)) 0)) with 0x80020000 in Hec.
    assert (i32 (load64 (pmem (kmem (hk (demo_trap SYS_touch)))) (0x80020000 + TF_A7)) = 22) as E7 by (vm_compute; reflexivity).
    rewrite E7 in Hec. destruct Hec as (s' & E & Ehk & Epc & Ea0 & Em & _).
    exists s'. split; [exact E|]. rewrite Epc, Ea0. split_and!; [vm_compute; reflexivity | reflexivity | by rewrite Ehk |].
    rewrite (Em 0x5000); [reflexivity|]. intros (off & Hoff & Hin).
    rewrite !elem_of_cons, elem_of_nil in Hoff.
    unfold TF_KERNEL_SATP, TF_KERNEL_SP, TF_KERNEL_TRAP, TF_EPC, TF_KERNEL_HARTID, TF_A0 in Hoff. lia.
Defined.

(** getpid() returns to user space, and so does a process after its yield. *)
#[local] Instance demo_stays : CpuStays unit.
Proof. by split; [intros num v k k' [= _ <-]|intros k k' [= <-]..| |]. Qed.

Lemma usertrap_returns_safely_witness :
  (exists s', usertrap 0 0 0 0 0 0 0 (demo_trap SYS_getpid) = Ok (ToUser (MAKE_SATP 0x80030000)) s' /\
     user_entry 0 0 0 s' 0 (MAKE_SATP 0x80030000)) /\
  (exists satp s', usertrap_yielded 0 0 0 (demo_trap SYS_getpid) = Ok (ToUser satp) s' /\ user_entry 0 0 0 s' 0 satp).
Proof.
  destruct (usertrap_returns_safely 0 0 0 0 0 0 0 (demo_trap SYS_getpid)) as [Ht Hy]. split.
  - assert (exists s', usertrap 0 0 0 0 0 0 0 (demo_trap SYS_getpid) = Ok (ToUser (MAKE_SATP 0x80030000)) s') as [s' E].
    { eexists. vm_compute. reflexivity. }
    destruct (Ht _ _ E) as (i & Hc & _ & Hu). injection Hc as <-. exists s'. split; [exact E | exact Hu].
  - destruct (Hy 0%nat eq_refl) as (satp & s' & E & _ & Hu). exists satp, s'. split; [exact E | exact Hu].
Defined.
