(* ===== verification/Sched.v ===== *)
(** * proc.c: the loop of the scheduler, forkret and procdump

    What [Proc] and [Trap] leave as pieces, put together: a pass of the
    scheduler over the table, with [run i] for what happens between the switch
    to process i and the switch back; the way of a new process to user space;
    and the listing of ^P, printed with the printf of the kernel.

    The theorems: every runnable process gets the CPU in every pass, whatever
    the others do, as long as they leave its state alone; the listing has a line
    for every process in use. *)

From stdpp Require Import base functions gmap list strings.
From Stdlib Require Import ZArith Lia.
From S2P Require Import Prelude Mem Kalloc Vm Proc Syscall Riscv Trap Shell Printf.

Definition FATCAT_SCHEDULER : bool := true.
Definition ROOTDEV : Z := 1.

Section sched.
Context {F : Type} `{FsEnv F} `{FileCalls F} `{Drivers F} `{Phys (pk F)}.

(** ** The scheduler *)
Section pass.
Context (run : nat -> M (pk F) unit).

(** The body of the loop, and one turn of the endless loop. *)
Definition scheduler_visit (current_tick : Z) (i : nat) : M (pk F) unit :=
  let* picked := scheduler_pick i in
  if picked : bool then run i ;; scheduler_return FATCAT_SCHEDULER current_tick i else ret tt.
Definition scheduler_pass (current_tick : Z) : M (pk F) unit :=
  for_each all_procs (scheduler_visit current_tick).
(** scheduler: [k] turns; current_tick is read once, before the first. *)
Definition scheduler (k : nat) : M (pk F) unit :=
  let* current_tick := gets Proc.ticks in
  modify (fun s => Pk (procs s) (nextpid s) (initproc s) None (ticks s) (kmem s) (shr s)
                      (pages7 s) (trampoline s) (proc_addr s) (fsys s)) ;;
  for_each (seq 0 k) (fun _ => scheduler_pass current_tick).

(** ** Lemmas *)

(** Process [j] waits for the CPU. *)
Definition ready (j : nat) (s : pk F) : Prop := length (procs s) = 64%nat /\ p_state (getp s j) = RUNNABLE.
(** What the others do leaves it waiting. *)
Definition lets_wait (j : nat) : Prop := forall i (s s' : pk F), i <> j -> ready j s -> run i s = Ok tt s' -> ready j s'.

Lemma scheduler_pick_false i (s s' : pk F) : scheduler_pick i s = Ok false s' -> s' = s /\ p_state (getp s i) <> RUNNABLE.
Proof.
  unfold scheduler_pick, theproc, gets, bind at 1. case_bool_decide as E; [|by intros [= <-]].
  unfold bind, upd_proc, modify. done.
Qed.
Lemma scheduler_pick_true i (s s' : pk F) : scheduler_pick i s = Ok true s' ->
  p_state (getp s i) = RUNNABLE /\ cur s' = Some i /\ procs s' = alter (set_state RUNNING) i (procs s).
Proof.
  unfold scheduler_pick, theproc, gets, bind at 1. case_bool_decide as E; [|done].
  unfold bind, upd_proc, modify, ret. intros [= <-]. done.
Qed.
Lemma getp_alter_other i j f (l : list proc) : i <> j -> default zero_proc (alter f i l !! j) = default zero_proc (l !! j).
Proof. intros Hne. by rewrite list_lookup_alter_ne. Qed.

Lemma visit_ready tick i j s s' : lets_wait j -> i <> j -> ready j s -> scheduler_visit tick i s = Ok tt s' -> ready j s'.
Proof.
  intros Hw Hne Hr. unfold scheduler_visit. intros ([] & s1 & E1 & E)%bind_Ok.
  2: { apply scheduler_pick_false in E1 as [-> _]. unfold ret in E. injection E as <-. exact Hr. }
  apply scheduler_pick_true in E1 as (_ & _ & Ep).
  assert (ready j s1) as Hr1.
  { destruct Hr as [Hl Hs]. split; [by rewrite Ep, length_alter|]. unfold getp. by rewrite Ep, getp_alter_other. }
  apply bind_Ok in E as ([] & s2 & E2 & E3). apply (Hw i s1 s2 Hne Hr1) in E2 as [Hl2 Hs2].
  unfold scheduler_return, FATCAT_SCHEDULER, bind, upd_proc, modify in E3. injection E3 as <-.
  split; cbn [procs]; [by rewrite length_alter|]. unfold getp. cbn [procs]. by rewrite getp_alter_other.
Qed.

(** The CPU goes to [j] in a state [s1], on which [run j] acts. *)
Definition gets_cpu (j : nat) (s1 : pk F) : Prop :=
  cur s1 = Some j /\ p_state (getp s1 j) = RUNNING /\ length (procs s1) = 64%nat.

Lemma pass_reaches tick j l : lets_wait j -> (j < 64)%nat -> j ∈ l -> forall s s', ready j s ->
  for_each l (scheduler_visit tick) s = Ok tt s' -> exists s1 s2, gets_cpu j s1 /\ run j s1 = Ok tt s2.
Proof.
  intros Hw Hj. induction l as [|i l IH]; intros Hin s s' Hr; [by apply elem_of_nil in Hin|].
  cbn [for_each]. intros ([] & s1 & E1 & E)%bind_Ok. destruct (decide (i = j)) as [->|Hne].
  - unfold scheduler_visit in E1. apply bind_Ok in E1 as (b & s2 & E2 & E1). destruct Hr as [Hl Hs]. destruct b.
    + apply scheduler_pick_true in E2 as (_ & Hc & Ep). apply bind_Ok in E1 as ([] & s3 & E3 & _). exists s2, s3. split; [|done].
      split_and!; [done | | by rewrite Ep, length_alter]. unfold getp. rewrite Ep, list_lookup_alter_eq.
      destruct (lookup_lt_is_Some_2 (procs s) j) as [p ->]; [lia | done].
    + by apply scheduler_pick_false in E2 as [_ []].
  - apply elem_of_cons in Hin as [->|Hin]; [done|]. apply (IH Hin s1 s'); [by apply (visit_ready tick i j s) | done].
Qed.

(** The scheduler is fair: in every pass it makes, a process that was
    runnable at the beginning of the pass gets the CPU, with the state RUNNING,
    provided that the processes that run before it leave its state alone. *)
Theorem scheduler_fair tick j s s' : lets_wait j -> (j < 64)%nat -> ready j s -> scheduler_pass tick s = Ok tt s' ->
  exists s1 s2, gets_cpu j s1 /\ run j s1 = Ok tt s2.
Proof. intros Hw Hj Hr. apply pass_reaches; [done | done | by apply elem_all_procs | done]. Qed.
End pass.

(** ** forkret *)

Section forkret.
Context (usertrap_addr uservec tramp : Z) (fsinit : Z -> M (pk F) unit).

(** [first] is the static variable; its new value is returned. *)
Definition forkret (first : bool) : TM (F := F) (bool * trap_end) :=
  (if first then onp (fsinit ROOTDEV) else ret tt) ;;
  let* e := usertrapret usertrap_addr uservec tramp in
  ret (false, e).

(** A new process reaches user space with its page table; the first one sets up
    the file system before, and no other does. *)
Theorem forkret_returns (first : bool) (s : hw (pk F)) k1 i : (if first then fsinit ROOTDEV (hk s) = Ok tt k1 else k1 = hk s) -> cur k1 = Some i ->
  exists s' : hw (pk F), forkret first s = Ok (false, ToUser (MAKE_SATP (p_pagetable (getp k1 i)))) s' /\
    procs (hk s') = procs k1.
Proof.
  intros Hf Hc. destruct s as [r k]. cbn [hk] in *. unfold forkret.
  assert ((if first then onp (fsinit ROOTDEV) else @ret (hw (pk F)) unit tt) (Hw r k) = Ok tt (Hw r k1)) as E.
  { destruct first; [|by subst]. unfold onp, zoom. cbn [view hk_lens hk]. rewrite Hf. done. }
  rewrite (bind_run _ _ _ _ _ E). pose proof (usertrapret_run usertrap_addr uservec tramp (Hw r k1) i Hc) as Er. cbv zeta in Er.
  rewrite (bind_run _ _ _ _ _ Er). eexists. split; [reflexivity|]. cbn [hk]. by destruct k1.
Qed.
End forkret.
End sched.

(** ** procdump *)

Definition state_name (x : procstate) : list Z :=
  match x with
  | UNUSED => bytes "unused" | USED => bytes "used" | SLEEPING => bytes "sleep "
  | RUNNABLE => bytes "runble" | RUNNING => bytes "run   " | ZOMBIE => bytes "zombie"
  end.
(** The string in p->name, an array of 16 bytes. *)
Definition name_of (p : proc) : list Z := str_at (p_name p ++ [0]) 0.

(** printf over the bytes put out so far; 1 and 2 stand for the addresses of the
    two strings. *)
Definition kprintf (str : Z -> list Z) (fmt args : list Z) : M (list Z) unit := fun out =>
  match printf str fmt (PSt out args) with Ok _ p => Ok tt (outb p) | Stop e p => Stop e (outb p) end.
Definition dump_one (p : proc) : M (list Z) unit :=
  if bool_decide (p_state p = UNUSED) then ret tt
  else
    kprintf (fun a => if a =? 1 then state_name (p_state p) else name_of p) (bytes "%d %s %s") [p_pid p; 1; 2] ;;
    kprintf (fun _ => []) [10] [].
Definition procdump (ps : list proc) : M (list Z) unit :=
  kprintf (fun _ => []) [10] [] ;;
  for_each ps dump_one.

(** The line of a process. *)
Definition dump_line (p : proc) (l : list Z) : Prop := exists ks,
  l = numeral digits 10 (p_pid p <? 0) ks ++ [32] ++ state_name (p_state p) ++ [32] ++ name_of p ++ [10] /\
  value 10 ks = Z.abs (p_pid p) /\ canonical 10 ks.
Definition used (p : proc) : bool := negb (bool_decide (p_state p = UNUSED)).

Lemma put_str str w s : w <> 0 -> (forall c, c ∈ str w -> 0 <= c < 256) ->
  print_str str w s = Ok tt (PSt (outb s ++ str w) (va s)).
Proof. intros Hw Hb. unfold print_str. destruct (Z.eqb_spec w 0); [done|]. by apply put_all. Qed.
Lemma state_name_bytes x c : c ∈ state_name x -> 0 <= c < 256.
Proof.
  intros Hc. assert (forallb (fun c => (0 <=? c) && (c <? 256)) (state_name x) = true) as Hall by (by destruct x).
  apply list_elem_of_In in Hc. apply (proj1 (forallb_forall _ _) Hall) in Hc. by bool_to_prop.
Qed.

Lemma dump_one_ok p out : - 2 ^ 31 <= p_pid p < 2 ^ 31 -> (forall c, c ∈ name_of p -> 0 <= c < 256) -> used p = true ->
  exists l, dump_one p out = Ok tt (out ++ l) /\ dump_line p l.
Proof.
  intros Hp Hn Hu. unfold dump_one, used in *. destruct (bool_decide _); [done|].
  set (str := fun a => if a =? 1 then state_name (p_state p) else name_of p).
  destruct digits_are as [Hd _].
  destruct (put_number digits 10 (Z.abs (p_pid p)) (p_pid p <? 0) (PSt out [1; 2]) Hd ltac:(by left) ltac:(lia)) as (ks & E & Hv & Hc & _).
  assert (printint (i32 (p_pid p)) 10 true (PSt out [1; 2]) = Ok tt (PSt (out ++ numeral digits 10 (p_pid p <? 0) ks) [1; 2])) as Ei.
  { rewrite i32_id by done. unfold printint. cbn [andb]. rewrite signed_abs by done. exact E. }
  eexists. split; [|exists ks; split; [reflexivity | done]].
  assert (kprintf str (bytes "%d %s %s") [p_pid p; 1; 2] out =
    Ok tt (((((out ++ numeral digits 10 (p_pid p <? 0) ks) ++ [32]) ++ state_name (p_state p)) ++ [32]) ++ name_of p)) as E1.
  { unfold kprintf. change (bytes "%d %s %s") with [37; 100; 32; 37; 115; 32; 37; 115].
    cbn -[printint print_str i32]. unfold bind, va_arg, consputc, modify. cbn -[printint print_str i32].
    rewrite Ei. cbn -[print_str]. change (u8 32) with 32. rewrite put_str; [|done | apply state_name_bytes].
    cbn -[print_str]. change (u8 32) with 32. rewrite put_str by done. done. }
  rewrite (bind_run _ _ _ _ _ E1). unfold kprintf. cbn. change (u8 10) with 10. by rewrite <- !app_assoc.
Qed.

(** procdump puts out a new line, then one line for every process of the table
    that is in use, in the order of the table: the pid in decimal, the state
    and the name. *)
Theorem procdump_lists ps : Forall (fun p => - 2 ^ 31 <= p_pid p < 2 ^ 31 /\ forall c, c ∈ name_of p -> 0 <= c < 256) ps ->
  exists ls, procdump ps [] = Ok tt ([10] ++ concat ls) /\ Forall2 dump_line (List.filter used ps) ls.
Proof.
  intros Hps. unfold procdump. change (kprintf (fun _ => []) [10] [] []) with (@Ok (list Z) unit tt [10]).
  rewrite (bind_run _ _ _ _ _ (eq_refl : kprintf (fun _ => []) [10] [] [] = Ok tt [10])). generalize [10] as out.
  induction Hps as [|p ps [Hp Hn] _ IH]; intros out; [exists []; cbn; by rewrite app_nil_r|].
  cbn [for_each List.filter]. destruct (used p) eqn:Hu.
  - destruct (dump_one_ok p out Hp Hn Hu) as (l & E & Hl). rewrite (bind_run _ _ _ _ _ E). destruct (IH (out ++ l)) as (ls & -> & Hls).
    exists (l :: ls). split; [cbn [concat]; by rewrite app_assoc | by constructor].
  - assert (dump_one p out = Ok tt out) as E by (unfold dump_one, used in *; by destruct (bool_decide _)).
    rewrite (bind_run _ _ _ _ _ E). apply IH.
Qed.

(** ** Witnesses *)

#[local] Existing Instance no_files.
(** Two runnable processes; each gives the CPU up at once. *)
Definition demo_kernel : pk unit := demo 7 no_memory None [demo_proc RUNNABLE 1 3 None; demo_proc RUNNABLE 2 3 (Some 0%nat)].
Definition yield_at_once (i : nat) : M (pk unit) unit := upd_proc i (set_state RUNNABLE).
Lemma scheduler_fair_witness : exists s1 s2, gets_cpu 1 s1 /\ yield_at_once 1 s1 = Ok tt s2.
Proof.
  destruct (scheduler_pass yield_at_once 7 demo_kernel) as [[] s'|e s'] eqn:E; [|vm_compute in E; discriminate].
  apply (scheduler_fair yield_at_once 7 1 demo_kernel s'); [| lia | split; reflexivity | exact E].
  intros i s s2 Hne [Hl Hs] [= <-]. split; [cbn; by rewrite length_alter|]. unfold getp. cbn [procs]. by rewrite getp_alter_other.
Defined.
