(* ===== verification/Execmem.v ===== *)
(** * Building an address space for exec

    What exec.c and the page-table functions of proc.c do to the memory:
    proc_pagetable and proc_freepagetable with the two pages above the user
    memory, the stores of readi and copyout into a page of the process, and
    uvmclear of the guard page, on the address spaces of [Uvm]. *)

From stdpp Require Import base gmap list strings.
From Stdlib Require Import ZArith Lia.
From S2P Require Import Prelude Mem Cstring Kalloc Vm Proc Uvm Uvmfree.

(** ** A page of the process *)

Lemma has_pte_of s f p b :
  0 < kend s -> page_ok s f -> leaf_perm p -> Z.land 1023 b = b -> has (pte_of f p) b = has (Z.lor p PTE_V) b.
Proof.
  intros He Hf Hp Hb. rewrite (pte_of_eq s) by done. unfold has. f_equal.
  rewrite Z.land_lor_distr_l. rewrite <- Hb at 1. by rewrite Z.land_assoc, PA2PTE_low.
Qed.

Lemma has_lor p q b : has p b = true -> has (Z.lor p q) b = true.
Proof.
  unfold has, nz. intros H. rewrite negb_true_iff in *. apply Z.eqb_neq in H. apply Z.eqb_neq. intros E. apply H.
  rewrite Z.land_lor_distr_l in E. by apply Z.lor_eq_0_iff in E as [-> _].
Qed.

Lemma us_walkaddr s root top T fl fs X j f p :
  uspace s root top T fl fs X -> fs !! j = Some (f, p) -> has p PTE_U = true ->
  walkaddr root (Z.of_nat j * PGSIZE) s = Ok f s /\ f <> 0.
Proof.
  intros Hu Hj HU. pose proof (us_end _ _ _ _ _ _ _ Hu) as He. pose proof (us_len _ _ _ _ _ _ _ Hu) as Hl.
  destruct (us_frame _ _ _ _ _ _ _ _ _ _ Hu Hj) as (Hf & Hp & En). apply lookup_lt_Some in Hj.
  rewrite TRAPFRAME_val in Hl. pose proof (page_ok_bound _ _ He Hf). split; [|lia].
  rewrite (walkaddr_run s root T fl) by (apply (us_vm _ _ _ _ _ _ _ Hu) || (unfold PGSIZE; lia)).
  rewrite (proj2 (Z.ltb_lt _ _)) by (unfold MAXVA, PGSIZE in *; lia). cbv zeta. rewrite En.
  rewrite (proj1 (pte_leaf s f p He Hf Hp)), (has_pte_of s), (has_lor _ _ _ HU) by done. cbn [andb].
  by rewrite (pte_frame s).
Qed.

(** copyout into one page of the process. *)
Lemma copyout_page s root top T fl fs X j f p dst src len :
  uspace s root top T fl fs X -> fs !! j = Some (f, p) -> has p PTE_U = true ->
  Z.of_nat j * PGSIZE <= dst -> 0 < len -> dst + len <= (Z.of_nat j + 1) * PGSIZE ->
  copyout root dst src len s = Ok 0 (set_mem (memmove (pmem s) (f + (dst - Z.of_nat j * PGSIZE)) src len) s).
Proof.
  intros Hu Hj HU Hd Hlen Hdl. destruct (us_walkaddr _ _ _ _ _ _ _ _ _ _ Hu Hj HU) as [E Hf].
  pose proof (us_len _ _ _ _ _ _ _ Hu) as Hl. rewrite TRAPFRAME_val in Hl. apply lookup_lt_Some in Hj.
  assert (PGSIZE = 4096) as HP by done. assert (dst / PGSIZE = Z.of_nat j) as Hdiv by (rewrite HP in *; mlia).
  unfold copyout, copy_fuel. replace (Z.to_nat (len / PGSIZE + 3)) with (S (S (Z.to_nat (len / PGSIZE + 1)))) by (rewrite HP; mlia).
  cbn [copyout_loop]. rewrite (proj2 (Z.ltb_lt 0 len)) by done. cbv zeta.
  rewrite PGROUNDDOWN_spec, Hdiv by lia. rewrite (bind_run _ _ _ _ _ E), (proj2 (Z.eqb_neq f 0)) by done.
  assert ((if len <? PGSIZE - (dst - Z.of_nat j * PGSIZE) then len else PGSIZE - (dst - Z.of_nat j * PGSIZE)) = len) as ->
    by (destruct (Z.ltb_spec len (PGSIZE - (dst - Z.of_nat j * PGSIZE))); lia).
  unfold upd_mem. erewrite bind_run by reflexivity. by rewrite Z.sub_diag.
Qed.

(** *** uvmclear takes a page away from the user *)

Lemma land_u64_lnot x b : 0 <= x < 2 ^ 64 -> Z.land x (u64 (Z.lnot b)) = Z.ldiff x b.
Proof.
  intros Hx. unfold u64. rewrite <- Z.land_ones by lia.
  by rewrite (Z.land_comm (Z.lnot b)), Z.land_assoc, Z.land_ones, Z.mod_small, Z.ldiff_land by lia.
Qed.

Lemma clear_U s f p : 0 < kend s -> page_ok s f -> leaf_perm p -> leaf_perm (Z.ldiff p PTE_U) ->
  Z.land (pte_of f p) (u64 (Z.lnot PTE_U)) = pte_of f (Z.ldiff p PTE_U).
Proof.
  intros He Hf Hp Hp'. rewrite land_u64_lnot by apply u64_range. rewrite !(pte_of_eq s) by done.
  rewrite !Z.ldiff_land, Z.land_lor_distr_l, Z.land_lor_distr_l. f_equal.
  rewrite <- (Z.lor_ldiff_and (PA2PTE f) PTE_U) at 2. rewrite Z.ldiff_land.
  change PTE_U with (Z.land 1023 PTE_U) at 3. by rewrite Z.land_assoc, PA2PTE_low, Z.land_0_l, Z.lor_0_r.
Qed.

Lemma kept_keeps s s' root top T fl fs X :
  uspace s root top T fl fs X -> kept s s' T -> keeps s s' (fs.*1 ++ X).
Proof. intros Hu Hk f o Hf Ho. apply Hk. by eapply in_use_off. Qed.

Lemma us_uvmclear s root top T fl fs X j f p :
  uspace s root top T fl fs X -> fs !! j = Some (f, p) -> leaf_perm (Z.ldiff p PTE_U) ->
  exists s', uvmclear root (Z.of_nat j * PGSIZE) s = Ok tt s' /\
    uspace s' root top T fl (<[j := (f, Z.ldiff p PTE_U)]> fs) X /\ keeps s s' (fs.*1 ++ X).
Proof.
  intros Hu Hj Hp'. pose proof Hu as [Hv Hnd Hok Hp Hl Htp Hab]. pose proof (us_end _ _ _ _ _ _ _ Hu) as He.
  destruct (us_frame _ _ _ _ _ _ _ _ _ _ Hu Hj) as (Hf & Hpp & En). pose proof (lookup_lt_Some _ _ _ Hj) as Hlt.
  assert (PGSIZE = 4096) as HP by done. rewrite TRAPFRAME_val in *. set (va := Z.of_nat j * PGSIZE) in *.
  assert (0 <= va < 2 ^ 38 - 8192) as Hva by (unfold va; rewrite HP in *; lia).
  pose proof (walk_lookup s root T va (vm_pt _ _ _ _ Hv) He) as Ew.
  unfold leaf_slot in Ew. pose proof (pte_leaf s f p He Hf Hpp) as [HV _]. pose proof En as En0. unfold entry in En0.
  destruct (T !! [PX 2 va; PX 1 va]) as [p0|] eqn:E0; [|by rewrite <- En0 in HV].
  pose proof (page_ok_bound _ _ He (pt_page _ _ _ (vm_pt _ _ _ _ Hv) _ _ E0)). pose proof (PX_range 0 va).
  destruct (set_leaf s root T fl va p0 (Z.land (pte_of f p) (u64 (Z.lnot PTE_U))) Hv E0) as (Hv' & Hk & N); [lia|].
  unfold uvmclear. rewrite (bind_run _ _ _ _ _ (Ew ltac:(unfold MAXVA; lia))), (proj2 (Z.eqb_neq _ _)) by lia.
  unfold ldpte, gets. erewrite bind_run by reflexivity. rewrite En0. eexists. split; [reflexivity|].
  pose proof (kept_keeps _ _ _ _ _ _ _ _ Hu Hk) as Hks. rewrite (clear_U s) in * by done.
  assert (forall k : nat, same_page (Z.of_nat k * PGSIZE) va = bool_decide (k = j)) as Hsp.
  { intros k. rewrite same_page_eq. unfold va. rewrite !Z.div_mul by done. apply bool_decide_ext. lia. }
  assert ((<[j := (f, Z.ldiff p PTE_U)]> fs).*1 = fs.*1) as Ef.
  { rewrite list_fmap_insert. apply list_insert_id. by rewrite list_lookup_fmap, Hj. }
  split; [|done]. split; [done | by rewrite Ef | by rewrite Ef | | by rewrite length_insert, TRAPFRAME_val | |].
  - intros k g q Hk'. pose proof (lookup_lt_Some _ _ _ Hk') as Hkl. rewrite length_insert in Hkl.
    rewrite N by (rewrite HP in *; lia). rewrite Hsp. destruct (decide (k = j)) as [->|Hne].
    + rewrite list_lookup_insert_eq in Hk' by done. injection Hk' as <- <-. rewrite bool_decide_true by done.
      split; [done|]. unfold pte_of. apply u64_id, u64_range.
    + rewrite list_lookup_insert_ne in Hk' by done. rewrite bool_decide_false by done. by apply Hp.
  - intros va' Hva'. rewrite TRAPFRAME_val in Hva'. rewrite N by lia. rewrite same_page_eq, bool_decide_false; [by apply Htp|].
    unfold va. rewrite Z.div_mul by done. rewrite HP in *. intros E. mlia.
  - intros va' Hva'. rewrite length_insert, TRAPFRAME_val in Hva'. rewrite N by lia.
    rewrite same_page_eq, bool_decide_false; [by apply Hab|].
    unfold va. rewrite Z.div_mul by done. rewrite HP in *. intros E. mlia.
Qed.

(** ** The two pages above the user memory *)

(** Entry [va] of the top becomes [e]. *)
Definition set_top (top : Z -> Z) (va e : Z) : Z -> Z := fun x => if same_page x va then e else top x.

Definition in_top (va : Z) : Prop := va mod PGSIZE = 0 /\ TRAPFRAME <= va /\ va + PGSIZE <= MAXVA.

Lemma us_top_entry s root top T fl fs X va : uspace s root top T fl fs X -> in_top va -> entry (pmem s) T va = top va.
Proof.
  intros Hu (_ & Hv & Hm). apply (us_top _ _ _ _ _ _ _ Hu). rewrite TRAPFRAME_val in *. unfold MAXVA, PGSIZE in *. lia.
Qed.

(** Pages of the top are not pages of the process. *)
Lemma top_page (n : nat) va va' : in_top va -> Z.of_nat n * PGSIZE <= TRAPFRAME -> 0 <= va' < Z.of_nat n * PGSIZE \/ va' < TRAPFRAME -> same_page va' va = false.
Proof.
  intros (Ha & Hv & _) Hn Hva. rewrite same_page_eq. apply bool_decide_false. rewrite TRAPFRAME_val in *. unfold PGSIZE in *. intros E. mlia.
Qed.

Lemma us_set_top s s' root top T fl fs X T' fl' va e :
  uspace s root top T fl fs X -> in_top va ->
  vmok s' root T' fl' -> fl ++ tabs T ≡ₚ fl' ++ tabs T' -> kend s' = kend s ->
  (forall va', 0 <= va' < 2 ^ 39 -> entry (pmem s') T' va' = if same_page va' va then e else entry (pmem s) T va') ->
  uspace s' root (set_top top va e) T' fl' fs X.
Proof.
  intros [Hv Hnd Hok Hp Hl Htp Hab] Hin Hv' Hpe Hk N. assert (PGSIZE = 4096) as HP by done. split.
  - done.
  - rewrite app_assoc, <- Hpe. by rewrite <- app_assoc.
  - intros f Hf. unfold page_ok. rewrite Hk. by apply Hok.
  - intros j f p Hj. pose proof (lookup_lt_Some _ _ _ Hj). pose proof Hl as Hl'. rewrite TRAPFRAME_val, HP in Hl'.
    rewrite N by (rewrite HP; lia). rewrite (top_page (length fs) va) by (auto; left; rewrite HP; lia). by apply Hp.
  - done.
  - intros x Hx. rewrite TRAPFRAME_val in Hx. unfold set_top. rewrite N by lia. destruct (same_page x va); [done|]. apply Htp. by rewrite TRAPFRAME_val.
  - intros x Hx. pose proof Hx as Hx'. rewrite TRAPFRAME_val in Hx'. rewrite N by lia.
    rewrite (top_page (length fs) va) by (auto; lia). by apply Hab.
Qed.

Lemma us_ext_top s root top top' T fl fs X :
  uspace s root top T fl fs X -> (forall va, TRAPFRAME <= va < 2 ^ 39 -> top' va = top va) -> uspace s root top' T fl fs X.
Proof. intros [] E. split; try done. intros va Hva. rewrite E by done. by apply us_top. Qed.

Lemma us_map_top s root top T fl fs X va pa perm :
  uspace s root top T fl fs X -> in_top va -> 0 <= pa < 2 ^ 63 -> has (top va) PTE_V = false ->
  exists r s' T' fl', mappages root va PGSIZE pa perm s = Ok r s' /\
    fl ++ tabs T ≡ₚ fl' ++ tabs T' /\ keeps s s' (fs.*1 ++ X) /\ (length fl <= length fl' + 2)%nat /\
    (r = 0 /\ uspace s' root (set_top top va (pte_of pa perm)) T' fl' fs X \/
     r = -1 /\ fl' = [] /\ uspace s' root top T' fl' fs X).
Proof.
  intros Hu Hin Hpa Hfree. pose proof Hin as (Ha & Hv0 & Hm). rewrite TRAPFRAME_val in Hv0.
  rewrite <- (us_top_entry _ _ _ _ _ _ _ _ Hu Hin) in Hfree.
  destruct (map_one s root T fl va pa perm (us_vm _ _ _ _ _ _ _ Hu)) as (r & s' & T' & fl' & E & G & L & C); try done; [lia|].
  destruct (us_grown _ _ _ _ _ _ _ _ _ _ Hu G) as (Hpe & _ & _ & Hke). pose proof G as [Hv' _ _ _ Hk].
  exists r, s', T', fl'. split_and!; [done | done | done | done |]. destruct C as [[-> N]|(-> & Hnil & N)].
  - left. split; [done|]. by eapply us_set_top.
  - right. split; [done|]. split; [done|]. apply (us_ext_top _ _ (set_top top va (entry (pmem s) T va))).
    + eapply us_set_top; try done. intros va' Hva'. rewrite N. destruct (same_page va' va) eqn:Es; [|done].
      rewrite same_page_eq, bool_decide_eq_true in Es. unfold entry. rewrite !(PX_page va' va) by (unfold MAXVA, PGSIZE in *; lia). done.
    + intros x Hx. unfold set_top. destruct (same_page x va) eqn:Es; [|done].
      rewrite same_page_eq, bool_decide_eq_true in Es. rewrite <- (us_top _ _ _ _ _ _ _ Hu) by done. rewrite TRAPFRAME_val in Hx.
      unfold entry. rewrite !(PX_page va x) by (unfold MAXVA, PGSIZE in *; lia). done.
Qed.

Lemma us_unmap_top s root top T fl fs X va :
  uspace s root top T fl fs X -> in_top va -> is_leaf (top va) ->
  exists s', uvmunmap root va 1 false s = Ok tt s' /\
    uspace s' root (set_top top va 0) T fl fs X /\ keeps s s' (fs.*1 ++ X).
Proof.
  intros Hu Hin Hleaf. pose proof Hin as (Ha & Hv0 & Hm). rewrite TRAPFRAME_val in Hv0. assert (PGSIZE = 4096) as HP by done.
  rewrite <- (us_top_entry _ _ _ _ _ _ _ _ Hu Hin) in Hleaf.
  unfold uvmunmap. rewrite Ha. change (nz 0) with false. cbv iota. rewrite u64_id by (unfold MAXVA in *; rewrite HP in *; lia).
  unfold for_pages. replace ((va + 1 * PGSIZE - va + PGSIZE - 1) / PGSIZE) with 1 by (rewrite HP; mlia).
  change (S (Z.to_nat 1)) with 2%nat.
  destruct (unmap_loop_ok root T false 1 2 s fl va (us_vm _ _ _ _ _ _ _ Hu) Ha) as (s' & E & V & K & S & N);
    [lia | lia | lia | | done|].
  { intros j Hj. replace (va + j * PGSIZE) with va by lia. done. }
  change (Z.of_nat 1) with 1 in *. rewrite (bind_run _ _ _ _ _ E). exists s'. split; [done|]. split.
  - eapply us_set_top; try done. intros x Hx. rewrite N by done. rewrite same_page_eq. unfold in_pages.
    destruct (Z.leb_spec (va / PGSIZE) (x / PGSIZE)), (Z.ltb_spec (x / PGSIZE) (va / PGSIZE + 1)); cbn [andb];
      [rewrite bool_decide_true by lia | rewrite bool_decide_false by lia ..]; done.
  - intros f o Hf Ho. apply S; [by eapply in_use_off|]. intros g Hg. by apply elem_of_nil in Hg.
Qed.

(** *** proc_pagetable and proc_freepagetable *)

Lemma pte_leaf_any pa p : leaf_perm p -> is_leaf (pte_of pa p).
Proof.
  intros [Hp Hl]. assert (pte_of pa p = Z.lor (PA2PTE pa) (Z.lor p PTE_V)) as E.
  { unfold pte_of. rewrite <- Z.lor_assoc. apply u64_id, lor_range; [apply u64_range|]. pose proof (lor_V_range p Hp). lia. }
  rewrite E. split; [rewrite Z.lor_assoc; apply has_lor_V|].
  unfold PTE_FLAGS. change 0x3FF with 1023. rewrite Z.land_lor_distr_l, PA2PTE_low, Z.lor_0_l.
  change 1023 with (Z.ones 10). rewrite Z.land_ones, Z.mod_small by (lia || apply lor_V_range, Hp). done.
Qed.

Lemma in_top_TRAMPOLINE : in_top TRAMPOLINE.
Proof. by split. Qed.
Lemma in_top_TRAPFRAME : in_top TRAPFRAME.
Proof. by split. Qed.

(** The top of a process: the two pages mapped, nothing else. *)
Definition proc_top (tramp trapframe : Z) : Z -> Z :=
  set_top (set_top (fun _ => 0) TRAMPOLINE (pte_of tramp (Z.lor PTE_R PTE_X)))
    TRAPFRAME (pte_of trapframe (Z.lor PTE_R PTE_W)).

Lemma proc_freepagetable_ok s root tramp tf T fl fs X sz :
  uspace s root (proc_top tramp tf) T fl fs X -> 0 <= sz -> Z.of_nat (length fs) = pages sz ->
  exists s' fl', proc_freepagetable root sz s = Ok tt s' /\ others s' fl' X /\
    fl' ≡ₚ fl ++ tabs T ++ fs.*1 /\ keeps s s' X.
Proof.
  intros Hu Hsz Hlen. unfold proc_freepagetable.
  destruct (us_unmap_top _ _ _ _ _ _ _ _ Hu in_top_TRAMPOLINE) as (s1 & E1 & Hu1 & Hk1); [by apply pte_leaf_any|].
  rewrite (bind_run _ _ _ _ _ E1).
  destruct (us_unmap_top _ _ _ _ _ _ _ _ Hu1 in_top_TRAPFRAME) as (s2 & E2 & Hu2 & Hk2); [by apply pte_leaf_any|].
  rewrite (bind_run _ _ _ _ _ E2).
  destruct (uvmfree_ok s2 root _ T fl fs X sz Hu2 Hsz Hlen) as (s3 & fl' & E3 & O3 & Hp3 & Hk3).
  { intros va Hva. unfold set_top. destruct (same_page va TRAPFRAME) eqn:E1'; [done|].
    destruct (same_page va TRAMPOLINE) eqn:E2'; [done|]. unfold proc_top, set_top. by rewrite E1', E2'. }
  exists s3, fl'. split_and!; [done | done | done|].
  eapply keeps_compose; [eapply keeps_sub; [exact Hk1 | set_solver]|].
  eapply keeps_compose; [eapply keeps_sub; [exact Hk2 | set_solver] | done].
Qed.

(** The table made in vain is freed. *)
Lemma undo_pagetable s pt top T fl Y :
  uspace s pt top T fl [] Y -> (forall va, TRAPFRAME <= va < 2 ^ 39 -> childless (top va)) ->
  exists s' fl', (uvmfree pt 0 ;; ret 0) s = Ok 0 s' /\ others s' fl' Y /\ fl' ≡ₚ fl ++ tabs T /\ keeps s s' Y.
Proof.
  intros Hu Ht. destruct (uvmfree_ok s pt top T fl [] Y 0 Hu) as (s' & fl' & E & O & Hp & Hk); [done | done | done |].
  exists s', fl'. rewrite (bind_run _ _ _ _ _ E). cbn [fmap list_fmap] in Hp. rewrite app_nil_r in Hp. done.
Qed.

Lemma proc_pagetable_ok s fl Y tramp tf :
  others s fl Y -> 0 <= tramp < 2 ^ 63 -> 0 <= tf < 2 ^ 63 ->
  exists pt s' fl', proc_pagetable tramp tf s = Ok pt s' /\ keeps s s' Y /\
    (pt = 0 /\ others s' fl' Y /\ fl' ≡ₚ fl /\ (length fl <= 5)%nat \/
     pt <> 0 /\ exists T, uspace s' pt (proc_top tramp tf) T fl' [] Y /\ fl ≡ₚ fl' ++ tabs T).
Proof.
  intros Ho Htr Htf. unfold proc_pagetable. destruct fl as [|a fl].
  { exists 0, s, []. unfold uvmcreate. pose proof (kalloc_none s (ot_free _ _ _ Ho)) as E.
    erewrite bind_run by (by rewrite (bind_run _ _ _ _ _ E)). split; [done|]. split; [done|]. left. split_and!; [done | done | done | cbn; lia]. }
  destruct (us_create _ _ _ _ Ho) as (s1 & E1 & Hz & Hu1 & Hk1 & Et).
  rewrite (bind_run _ _ _ _ _ E1), (proj2 (Z.eqb_neq _ _) Hz). cbn iota.
  destruct (us_map_top _ _ _ _ _ _ _ _ tramp (Z.lor PTE_R PTE_X) Hu1 in_top_TRAMPOLINE Htr) as (r2 & s2 & T2 & fl2 & E2 & Hp2 & Hk2 & L2 & C2);
    [done|]. rewrite (bind_run _ _ _ _ _ E2). rewrite Et in Hp2. cbn [fmap list_fmap app] in Hk2.
  assert (a :: fl ≡ₚ fl2 ++ tabs T2) as Hp2' by (by rewrite <- Hp2, Permutation_app_comm).
  pose proof (keeps_compose _ _ _ _ Hk1 Hk2) as Hk12. destruct C2 as [[-> Hu2]|(-> & -> & Hu2)]; cbn [Z.ltb Z.compare].
  2: { destruct (undo_pagetable _ _ _ _ _ _ Hu2) as (s3 & fl3 & E3 & O3 & Hp3 & Hk3); [done|].
    exists 0, s3, fl3. split; [done|]. split; [by eapply keeps_compose|]. left.
    split_and!; [done | done | by rewrite Hp3, Hp2' | cbn [length] in *; lia]. }
  destruct (us_map_top _ _ _ _ _ _ _ _ tf (Z.lor PTE_R PTE_W) Hu2 in_top_TRAPFRAME Htf) as (r3 & s3 & T3 & fl3 & E3 & Hp3 & Hk3 & L3 & C3);
    [done|]. rewrite (bind_run _ _ _ _ _ E3). cbn [fmap list_fmap app] in Hk3.
  pose proof (keeps_compose _ _ _ _ Hk12 Hk3) as Hk13. destruct C3 as [[-> Hu3]|(-> & -> & Hu3)]; cbn [Z.ltb Z.compare].
  - exists a, s3, fl3. split; [done|]. split; [done|]. right. split; [done|]. exists T3. by rewrite Hp2', Hp3.
  - destruct (us_unmap_top _ _ _ _ _ _ _ _ Hu3 in_top_TRAMPOLINE) as (s4 & E4 & Hu4 & Hk4); [by apply pte_leaf_any|].
    rewrite (bind_run _ _ _ _ _ E4). destruct (undo_pagetable _ _ _ _ _ _ Hu4) as (s5 & fl5 & E5 & O5 & Hp5 & Hk5).
    { intros va Hva. unfold set_top. by destruct (same_page va TRAMPOLINE). }
    exists 0, s5, fl5. split; [done|]. split; [by repeat (eapply keeps_compose; [eassumption|])|]. left.
    split_and!; [done | done | by rewrite Hp5, Hp2', Hp3 | cbn [length] in *; lia].
Qed.
