(* ===== verification/Execok.v ===== *)
(** * exec replaces the program or leaves it alone

    The proofs about [Exec]. The file system is seen through [ExecFsLaws]: the
    phases of a transaction, and readi, which hands out bytes of the file or
    fails. [loaded] is what the loaded segments should hold. *)

From stdpp Require Import base gmap list strings.
From Stdlib Require Import ZArith Lia.
From S2P Require Import Prelude Mem Cstring Bytes Kalloc Vm Proc Copyinstr Uvm Uvmfree Syscall Execmem Exec.

(** ** What exec relies on *)

(** Outside a transaction; in one; holding an inode that namei found; holding
    it locked, with the bytes of the file. *)
Inductive fsphase : Type := Idle | InOp | Found (path : list Z) (ip : Z) | Open (ip : Z) (data : list Z).

Class ExecFsLaws (F : Type) `{FsEnv F} `{ExecFs F} : Type := {
  xl_at : F -> fsphase -> Prop;
  xl_file : list Z -> list Z -> Prop;   (* the file at a path may hold these bytes *)
  xl_begin f : xl_at f Idle -> exists f', fe_begin_op f = Ok tt f' /\ xl_at f' InOp;
  xl_end f : xl_at f InOp -> exists f', fe_end_op f = Ok tt f' /\ xl_at f' Idle;
  xl_namei f path : xl_at f InOp ->
    exists ip f', xf_namei path f = Ok ip f' /\ xl_at f' (if ip =? 0 then InOp else Found path ip);
  xl_ilock f path ip : xl_at f (Found path ip) ->
    exists data f', xf_ilock ip f = Ok tt f' /\ xl_at f' (Open ip data) /\ xl_file path data /\ bytes_ok data;
  xl_readi f ip data off n : xl_at f (Open ip data) -> 0 <= off < 2 ^ 32 -> 0 <= n < 2 ^ 32 ->
    exists r bs f', xf_readi ip off n f = Ok (r, bs) f' /\ xl_at f' (Open ip data) /\
      (r = -1 /\ bs = [] \/ r = Z.of_nat (length bs) /\ bs = slice data off n);
  xl_iunlockput f ip data : xl_at f (Open ip data) ->
    exists f', xf_iunlockput ip f = Ok tt f' /\ xl_at f' InOp;
}.

(** ** The memory of the program *)

(** The segment of [n] bytes at [off] of the file over the memory [img]. *)
Definition overlay (data : list Z) (va off n : Z) (img : Z -> Z) (x : Z) : Z :=
  if (va <=? x) && (x <? va + n)
  then byte_at data (u32 (off + (x - va) / PGSIZE * PGSIZE) + (x - va) mod PGSIZE)
  else img x.

(** The segments of [k] program headers from [off]. *)
Fixpoint loaded (k : nat) (data : list Z) (off : Z) (img : Z -> Z) : Z -> Z :=
  match k with
  | O => img
  | S k =>
      let ph := slice data (u32 off) PROGHDR_SIZE in
      loaded k data (i32 (off + PROGHDR_SIZE))
        (if ph_type ph =? ELF_PROG_LOAD then overlay data (ph_vaddr ph) (u32 (ph_off ph)) (ph_filesz ph) img else img)
  end.

(** The pages [fs] hold the bytes of [img]. *)
Definition holds (k : kst) (fs : list (Z * Z)) (img : Z -> Z) : Prop :=
  forall j f p o, fs !! j = Some (f, p) -> 0 <= o < PGSIZE -> load8 (pmem k) (f + o) = img (Z.of_nat j * PGSIZE + o).

Definition users (fs : list (Z * Z)) : Prop := Forall (fun g => has g.2 PTE_U = true) fs.

Section exec.
Context {F : Type} `{FsEnv F} `{ExecFs F} `{!ExecFsLaws F}.

(** A kernel state with another memory and file system. *)
Definition at_ (s : pk F) (k : kst) (f : F) : pk F :=
  Pk (procs s) (nextpid s) (initproc s) (cur s) (Proc.ticks s) k (shr s) (pages7 s) (trampoline s) (proc_addr s) f.

Lemma onk_at {A} (m : M kst A) s k f a k' : m k = Ok a k' -> onk m (at_ s k f) = Ok a (at_ s k' f).
Proof. intros E. unfold onk, zoom. cbn. by rewrite E. Qed.

Lemma onf_at {A} (m : M F A) s k f a f' : m f = Ok a f' -> onf m (at_ s k f) = Ok a (at_ s k f').
Proof. intros E. unfold onf, zoom. cbn. by rewrite E. Qed.

Lemma at_self s : s = at_ s (kmem s) (fsys s).
Proof. by destruct s. Qed.

(** *** loadseg *)

Lemma overlay_more data va off n img j o :
  0 <= va -> va mod PGSIZE = 0 -> 0 <= n -> 0 <= o < PGSIZE ->
  overlay data va off n img (j * PGSIZE + o) =
    if (va / PGSIZE <=? j) && (j * PGSIZE + o <? va + n)
    then byte_at data (u32 (off + (j * PGSIZE - va)) + o) else img (j * PGSIZE + o).
Proof.
  intros Hva Ha Hn Ho. assert (PGSIZE = 4096) as HP by done. unfold overlay.
  assert ((va <=? j * PGSIZE + o) = (va / PGSIZE <=? j)) as -> by (apply eq_bool_prop_intro; rewrite HP in *; rewrite !Is_true_true, !Z.leb_le; mlia).
  destruct (Z.leb_spec (va / PGSIZE) j); [|done]. destruct (Z.ltb_spec (j * PGSIZE + o) (va + n)); [|done]. cbn [andb].
  assert ((j * PGSIZE + o - va) / PGSIZE * PGSIZE = j * PGSIZE - va) as -> by (rewrite HP in *; mlia).
  assert ((j * PGSIZE + o - va) mod PGSIZE = o) as -> by (rewrite HP in *; mlia). done.
Qed.

Lemma store_bytes_same_out m a bs : Z.of_nat (length bs) <= PGSIZE -> same_out m (store_bytes m a bs) a.
Proof. intros Hl x Hx. apply load8_store_bytes_out. lia. Qed.

Lemma us_frame_inj k pt top T fl fs X i j f p q :
  uspace k pt top T fl fs X -> fs !! i = Some (f, p) -> fs !! j = Some (f, q) -> i = j.
Proof.
  intros Hu Hi Hj. pose proof (us_nodup _ _ _ _ _ _ _ Hu) as Hnd.
  apply NoDup_app in Hnd as (_ & _ & Hnd). apply NoDup_app in Hnd as (_ & _ & Hnd). apply NoDup_app in Hnd as (Hnd & _ & _).
  eapply NoDup_lookup; [exact Hnd | rewrite list_lookup_fmap, Hi; done | rewrite list_lookup_fmap, Hj; done].
Qed.

Lemma us_small k pt top T fl fs X : uspace k pt top T fl fs X -> Z.of_nat (length fs) * PGSIZE <= PHYSTOP.
Proof.
  intros Hu. pose proof (us_nodup _ _ _ _ _ _ _ Hu) as Hnd.
  apply NoDup_app in Hnd as (_ & _ & Hnd). apply NoDup_app in Hnd as (_ & _ & Hnd). apply NoDup_app in Hnd as (Hnd & _ & _).
  pose proof (page_count k fs.*1 Hnd) as Hc. rewrite length_fmap in Hc. change (PHYSTOP / PGSIZE) with 557056 in Hc.
  assert (Z.of_nat (length fs) <= 557056); [|unfold PHYSTOP, KERNBASE, PGSIZE; lia].
  apply Hc; [|by eapply us_end]. intros f Hf. apply (us_ok _ _ _ _ _ _ _ Hu). set_solver.
Qed.

(** Stores into a page of the process. *)
Lemma us_fill k pt top T fl fs X j f p m :
  uspace k pt top T fl fs X -> fs !! j = Some (f, p) -> same_out (pmem k) m f ->
  uspace (set_mem m k) pt top T fl fs X /\ keeps k (set_mem m k) X /\
  forall i g q o, fs !! i = Some (g, q) -> i <> j -> 0 <= o < PGSIZE -> load8 m (g + o) = load8 (pmem k) (g + o).
Proof.
  intros Hu Hj Hs. assert (f ∈ fs.*1) as Hf.
  { apply list_elem_of_fmap. exists (f, p). split; [done|]. by eapply list_elem_of_lookup_2. }
  destruct (us_write _ _ _ _ _ _ _ f m Hu) as [Hu' Hk]; [set_solver | done|]. split_and!; [done | |].
  - intros g o Hg Ho. apply Hk; [set_solver | | done]. intros ->. pose proof (us_nodup _ _ _ _ _ _ _ Hu) as Hnd.
    apply NoDup_app in Hnd as (_ & _ & Hnd). apply NoDup_app in Hnd as (_ & _ & Hnd). apply NoDup_app in Hnd as (_ & Hnd & _).
    by apply (Hnd f).
  - intros i g q o Hi Hne Ho. apply Hk; [|intros ->; apply Hne; by eapply us_frame_inj | done].
    apply elem_of_app. left. apply list_elem_of_fmap. exists (g, q). split; [done|]. by eapply list_elem_of_lookup_2.
Qed.

(** One page of a segment. *)
Lemma load_page k pt top T fl fs X j f p data va off i bs img :
  uspace k pt top T fl fs X -> fs !! j = Some (f, p) -> bytes_ok data ->
  0 <= va -> va mod PGSIZE = 0 -> Z.of_nat j * PGSIZE = va + i -> 0 <= i ->
  (Z.of_nat (length bs) = 0 \/ bs = slice data (u32 (off + i)) (Z.of_nat (length bs))) -> Z.of_nat (length bs) <= PGSIZE ->
  holds k fs (overlay data va off i img) ->
  let k' := set_mem (store_bytes (pmem k) f bs) k in
  uspace k' pt top T fl fs X /\ keeps k k' X /\ holds k' fs (overlay data va off (i + Z.of_nat (length bs)) img).
Proof.
  intros Hu Hj Hdata Hva Ha Hji Hi Hbs Hlen Hh k'. assert (PGSIZE = 4096) as HP by done.
  destruct (us_fill _ _ _ _ _ _ _ _ _ _ (store_bytes (pmem k) f bs) Hu Hj) as (Hu' & Hk & Ho); [by apply store_bytes_same_out|].
  split_and!; [done | done|]. intros j' g q o Hg Hoo. rewrite overlay_more by lia. unfold k'. cbn [pmem set_mem].
  destruct (decide (j' = j)) as [->|Hne].
  - rewrite Hj in Hg. injection Hg as <- <-. rewrite Hji. rewrite (proj2 (Z.leb_le (va / PGSIZE) _)) by (rewrite HP in *; mlia). cbn [andb].
    specialize (Hh _ _ _ o Hj Hoo). rewrite overlay_more, Hji in Hh by lia.
    destruct (Z.ltb_spec (va + i + o) (va + (i + Z.of_nat (length bs)))) as [Hin|Hout].
    + destruct (lookup_lt_is_Some_2 bs (Z.to_nat o)) as [b Hb]; [lia|].
      replace o with (Z.of_nat (Z.to_nat o)) at 1 by lia. rewrite (load8_store_bytes_in _ _ _ _ _ Hb).
      assert (byte_at bs o = b) as <- by (unfold byte_at; by rewrite Hb). destruct Hbs as [|Hbs]; [lia|].
      rewrite Hbs, byte_at_slice by (lia || apply u32_range). replace (va + i - va) with i by lia.
      apply u8_id, byte_at_range, Hdata.
    + rewrite load8_store_bytes_out by lia. rewrite Hh. by rewrite (proj2 (Z.ltb_ge _ _)), andb_false_r by lia.
  - rewrite (Ho _ _ _ _ Hg Hne Hoo). rewrite (Hh _ _ _ _ Hg Hoo), overlay_more by lia.
    assert ((va / PGSIZE <=? Z.of_nat j') && (Z.of_nat j' * PGSIZE + o <? va + i) =
            (va / PGSIZE <=? Z.of_nat j') && (Z.of_nat j' * PGSIZE + o <? va + (i + Z.of_nat (length bs)))) as ->; [|done].
    f_equal. apply eq_bool_prop_intro. rewrite !Is_true_true, !Z.ltb_lt. rewrite HP in *. lia.
Qed.

Lemma loadseg_ok s pt top T fl fs X ip data va off sz img : forall fuel k f m,
  let i := Z.of_nat m * PGSIZE in
  uspace k pt top T fl fs X -> users fs -> xl_at f (Open ip data) -> bytes_ok data ->
  0 <= va -> va mod PGSIZE = 0 -> 0 <= sz -> va + sz <= Z.of_nat (length fs) * PGSIZE ->
  holds k fs (overlay data va off (Z.min i sz) img) -> (Z.to_nat (pages sz) < fuel + m)%nat -> Z.of_nat m <= pages sz ->
  exists r k' f', loadseg_loop fuel pt va ip off sz i (at_ s k f) = Ok r (at_ s k' f') /\
    uspace k' pt top T fl fs X /\ keeps k k' X /\ xl_at f' (Open ip data) /\
    (r = 0 /\ holds k' fs (overlay data va off sz img) \/ r = -1).
Proof.
  induction fuel as [|fuel IH]; intros k f m i Hu Hus Hf Hdata Hva Ha Hsz Hmax Hh Hfuel Hm; [lia|].
  assert (PGSIZE = 4096) as HP by done. pose proof (us_small _ _ _ _ _ _ _ Hu) as Hsm. pose proof (us_len _ _ _ _ _ _ _ Hu) as Hl.
  rewrite TRAPFRAME_val in Hl. assert (PHYSTOP = 2281701376) as HS by done. rewrite HS in Hsm.
  cbn [loadseg_loop]. destruct (Z.ltb_spec i sz) as [Hlt|Hge].
  2: { exists 0, k, f. rewrite Z.min_r in Hh by done. split_and!; try done. by left. }
  set (j := (Z.to_nat (va / PGSIZE) + m)%nat).
  assert (Z.of_nat j * PGSIZE = va + i) as Hj by (unfold j, i; rewrite HP in *; mlia).
  destruct (lookup_lt_is_Some_2 fs j) as [[fr p] Ej]; [lia|].
  assert (has p PTE_U = true) as HU by (apply (Forall_lookup_1 _ _ _ _ Hus Ej)).
  destruct (us_walkaddr _ _ _ _ _ _ _ _ _ _ Hu Ej HU) as [Ew Hnz]. rewrite Hj in Ew.
  rewrite u64_id by lia. rewrite (bind_run _ _ _ _ _ (onk_at _ _ _ _ _ _ Ew)), (proj2 (Z.eqb_neq _ _) Hnz). cbv zeta.
  rewrite (u32_id (sz - i)) by lia. set (n := if sz - i <? PGSIZE then sz - i else PGSIZE).
  assert (n = Z.min (sz - i) PGSIZE) as Hn by (unfold n; destruct (Z.ltb_spec (sz - i) PGSIZE); lia).
  destruct (xl_readi f ip data (u32 (off + i)) n Hf) as (r & bs & f1 & Er & Hf1 & C); [apply u32_range | lia|].
  rewrite (bind_run _ _ _ _ _ (onf_at _ _ _ _ _ _ Er)). cbn [fst snd].
  unfold upd_mem. erewrite bind_run by (by apply onk_at). rewrite Z.min_l in Hh by lia.
  assert (Z.of_nat (length bs) <= n) as Hbn.
  { destruct C as [[_ ->]|[_ ->]]; [cbn [length]; lia|]. unfold slice. rewrite length_take. lia. }
  destruct (load_page k pt top T fl fs X j fr p data va off i bs img Hu Ej Hdata Hva Ha Hj) as (Hu1 & Hk1 & Hh1); try done; try lia.
  { destruct C as [[_ ->]|[_ Hbs]]; [by left | right]. rewrite Hbs at 1. unfold slice. rewrite Nat2Z.id.
    apply (f_equal length) in Hbs as Hl'. unfold slice in Hl'. rewrite length_take in Hl'.
    destruct (decide (length bs = Z.to_nat n)) as [->|Hne]; [done|]. rewrite !take_ge by lia. done. }
  set (k1 := set_mem _ k) in *. destruct (Z.eqb_spec (u32 r) n) as [Hr|Hr]; cbn [negb].
  - assert (Z.of_nat (length bs) = n) as Hbl.
    { destruct C as [[-> ->]|[-> _]]; [|rewrite u32_id in Hr by lia; done]. change (u32 (-1)) with 4294967295 in Hr. lia. }
    rewrite u32_id by lia. replace (i + PGSIZE) with (Z.of_nat (S m) * PGSIZE) by (unfold i; lia).
    destruct (IH k1 f1 (S m) Hu1 Hus Hf1 Hdata Hva Ha Hsz Hmax) as (r' & k2 & f2 & E2 & Hu2 & Hk2 & Hf2 & C2).
    + replace (Z.min (Z.of_nat (S m) * PGSIZE) sz) with (i + Z.of_nat (length bs)) by (unfold i in *; lia). done.
    + lia.
    + unfold pages. unfold i in Hlt. rewrite HP in *. mlia.
    + exists r', k2, f2. split; [exact E2|]. split; [done|]. split; [by eapply keeps_compose | done].
  - exists (-1), k1, f1. split_and!; try done. by right.
Qed.

(** *** The program headers *)

Lemma flags2perm_ok flags : let perm := Z.lor (Z.lor PTE_R PTE_U) (flags2perm flags) in leaf_perm perm /\ has perm PTE_U = true.
Proof. unfold flags2perm. by destruct (nz (Z.land flags 1)), (nz (Z.land flags 2)). Qed.

(** uvmalloc, whatever the new size. *)
Lemma grow_ok k pt top T fl fs X oldsz newsz xperm img :
  let perm := Z.lor (Z.lor PTE_R PTE_U) xperm in
  uspace k pt top T fl fs X -> leaf_perm perm -> has perm PTE_U = true -> users fs -> 0 <= oldsz -> 0 <= newsz ->
  Z.of_nat (length fs) = pages oldsz -> holds k fs img -> (forall x, Z.of_nat (length fs) * PGSIZE <= x -> img x = 0) ->
  exists r k' T' fl' gs, uvmalloc pt oldsz newsz xperm k = Ok r k' /\ uspace k' pt top T' fl' (fs ++ gs) X /\
    keeps k k' X /\ fl ++ tabs T ++ fs.*1 ≡ₚ fl' ++ tabs T' ++ (fs ++ gs).*1 /\ users (fs ++ gs) /\ holds k' (fs ++ gs) img /\
    Forall (fun g => g.2 = perm) gs /\
    (r = 0 /\ gs = [] \/ r = Z.max oldsz newsz /\ Z.of_nat (length (fs ++ gs)) = pages r).
Proof.
  intros perm Hu Hp HU Hus Ho Hn Hlen Hh Hz. assert (PGSIZE = 4096) as HP by done.
  destruct (Z.ltb_spec newsz oldsz) as [Hlt|Hge].
  { exists oldsz, k, T, fl, []. unfold uvmalloc. rewrite (proj2 (Z.ltb_lt _ _)) by done. rewrite !app_nil_r.
    split_and!; try done. right. rewrite Z.max_l by lia. done. }
  destruct (uvmalloc_ok k pt top T fl fs X oldsz newsz xperm Hu Hp) as (r & k' & T' & fl' & gs & E & Hu' & Hk & Hpe & C); [lia | done|].
  assert (users gs /\ zeroed k' gs /\ Forall (fun g => g.2 = perm) gs) as (Hug & Hzg & Hpg).
  { destruct C as [(_ & _ & Hz' & Hf)|(_ & -> & _)]; [|split_and!; [constructor | intros f o Hf; by apply elem_of_nil in Hf | constructor]].
    split_and!; [|done | done]. eapply Forall_impl; [exact Hf|]. intros [g q] Eq. cbn in *. by rewrite Eq. }
  exists r, k', T', fl', gs. split; [done|]. split; [done|].
  split; [eapply keeps_sub; [exact Hk | set_solver]|]. split.
  { rewrite !app_assoc, Hpe, fmap_app, <- !app_assoc. do 2 f_equiv. apply Permutation_app_comm. }
  split; [by apply Forall_app|]. split; [|split; [done|]].
  - intros j g q o Hg Hoo. apply lookup_app_Some in Hg as [Hg|[Hj Hg]].
    + rewrite Hk; [by eapply Hh | | done]. apply elem_of_app. left. apply list_elem_of_fmap. exists (g, q).
      split; [done|]. by eapply list_elem_of_lookup_2.
    + rewrite Hz by (rewrite HP in *; lia). apply Hzg; [|done]. apply list_elem_of_fmap. exists (g, q).
      split; [done|]. by eapply list_elem_of_lookup_2.
  - destruct C as [(-> & Hgs & _)|(-> & -> & _)]; [right | by left]. rewrite Z.max_r by lia. split; [done|].
    rewrite length_app, Hgs, Nat2Z.inj_add, Nat2Z.inj_sub by (unfold pages in *; rewrite HP in *; mlia).
    rewrite Z2Nat.id; unfold pages in *; rewrite HP in *; mlia.
Qed.

Lemma file_slice_ok bs o n : bytes_ok bs -> bytes_ok (slice bs o n).
Proof. intros Hb. unfold slice. by apply Forall_take, Forall_drop. Qed.

Lemma overlay_above data va off n img x : va + n <= x -> overlay data va off n img x = img x.
Proof. intros Hx. unfold overlay. by rewrite (proj2 (Z.ltb_ge _ _)), andb_false_r by lia. Qed.

Lemma overlay_empty data va off img x : overlay data va off 0 img x = img x.
Proof. unfold overlay. destruct (Z.leb_spec va x), (Z.ltb_spec x (va + 0)); cbn [andb]; try done. lia. Qed.

(** What the loop over the headers leaves, whether it ends well or not. *)
Record loading (k : kst) (pt : Z) (top : Z -> Z) (X : list Z) (f : F) (ip : Z) (data : list Z) (all : list Z)
    (sz : Z) (T : gmap (list Z) Z) (fl : list Z) (fs : list (Z * Z)) : Prop := {
  ld_us : uspace k pt top T fl fs X;
  ld_all : all ≡ₚ fl ++ tabs T ++ fs.*1;
  ld_fs : xl_at f (Open ip data);
  ld_len : Z.of_nat (length fs) = pages sz;
  ld_sz : 0 <= sz;
}.

(** ... and when it ends well. *)
Record image (k : kst) (fs : list (Z * Z)) (img : Z -> Z) : Prop := {
  im_users : users fs;
  im_holds : holds k fs img;
  im_zero : forall x, Z.of_nat (length fs) * PGSIZE <= x -> img x = 0;
}.

Lemma load_phdrs_ok s pt top X ip data all : bytes_ok data -> forall n k f T fl fs off sz img,
  loading k pt top X f ip data all sz T fl fs -> image k fs img ->
  exists ok sz' k' f' T' fl' fs', load_phdrs n pt ip off sz (at_ s k f) = Ok (ok, sz') (at_ s k' f') /\
    loading k' pt top X f' ip data all sz' T' fl' fs' /\ keeps k k' X /\
    (ok = true -> image k' fs' (loaded n data off img)).
Proof.
  intros Hdata. induction n as [|n IH]; intros k f T fl fs off sz img HL HI; cbn [load_phdrs loaded].
  { exists true, sz, k, f, T, fl, fs. done. }
  pose proof HL as [Hu Hall Hf Hlen Hsz]. pose proof HI as [Hus Hh Hz]. assert (PGSIZE = 4096) as HP by done.
  destruct (xl_readi f ip data (u32 off) PROGHDR_SIZE Hf) as (r & ph & f1 & Er & Hf1 & C); [apply u32_range | done|].
  rewrite (bind_run _ _ _ _ _ (onf_at _ _ _ _ _ _ Er)). cbn [fst snd].
  assert (loading k pt top X f1 ip data all sz T fl fs) as HL1 by (by split).
  destruct (Z.eqb_spec r PROGHDR_SIZE) as [Hr|]; cbn [negb]; [|by exists false, sz, k, f1, T, fl, fs].
  destruct C as [[-> _]|[_ ->]]; [done|]. set (ph := slice data (u32 off) PROGHDR_SIZE) in *.
  assert (bytes_ok ph) as Hph by by apply file_slice_ok.
  destruct (Z.eqb_spec (ph_type ph) ELF_PROG_LOAD); cbn [negb]; [|by apply (IH k f1 T fl fs)].
  destruct (Z.ltb_spec (ph_memsz ph) (ph_filesz ph)); [by exists false, sz, k, f1, T, fl, fs|].
  pose proof (ld_range 8 ph 16 Hph) as Hva. pose proof (ld_range 8 ph 40 Hph) as Hms. pose proof (ld_range 8 ph 32 Hph) as Hfs.
  fold (ph_vaddr ph) in Hva. fold (ph_memsz ph) in Hms. fold (ph_filesz ph) in Hfs.
  change (256 ^ Z.of_nat 8) with (2 ^ 64) in *.
  destruct (Z.ltb_spec (u64 (ph_vaddr ph + ph_memsz ph)) (ph_vaddr ph)) as [|Hnw]; [by exists false, sz, k, f1, T, fl, fs|].
  destruct (nz (ph_vaddr ph mod PGSIZE)) eqn:Hal; [by exists false, sz, k, f1, T, fl, fs|].
  assert (ph_vaddr ph mod PGSIZE = 0) as Ha by (unfold nz in Hal; apply negb_false_iff, Z.eqb_eq in Hal; done).
  assert (u64 (ph_vaddr ph + ph_memsz ph) = ph_vaddr ph + ph_memsz ph) as Hsum.
  { unfold u64 in *. destruct (Z.ltb_spec (ph_vaddr ph + ph_memsz ph) (2 ^ 64)); [apply Z.mod_small; lia | mlia]. }
  rewrite Hsum. destruct (flags2perm_ok (i32 (ph_flags ph))) as [Hpm HU].
  destruct (grow_ok k pt top T fl fs X sz (ph_vaddr ph + ph_memsz ph) _ img Hu Hpm HU Hus Hsz) as
    (sz1 & k1 & T1 & fl1 & gs & E1 & Hu1 & Hk1 & Hp1 & Hus1 & Hh1 & _ & C1); [lia | done | done | done |].
  rewrite (bind_run _ _ _ _ _ (onk_at _ _ _ _ _ _ E1)).
  destruct (Z.eqb_spec sz1 0) as [->|Hz1].
  { assert (loading k1 pt top X f1 ip data all sz T1 fl1 (fs ++ gs)) as HL2.
    { split; [done | by rewrite Hall | done | | done]. destruct C1 as [[_ ->]|[E C1]]; [by rewrite app_nil_r|]. rewrite C1. f_equal. lia. }
    by exists false, sz, k1, f1, T1, fl1, (fs ++ gs). }
  destruct C1 as [[? _]|[-> Hlen1]]; [done|]. set (sz1 := Z.max sz (ph_vaddr ph + ph_memsz ph)) in *.
  pose proof (us_small _ _ _ _ _ _ _ Hu1) as Hsm. rewrite Hlen1 in Hsm. assert (PHYSTOP = 2281701376) as HS by done. rewrite HS in Hsm.
  assert (sz1 <= pages sz1 * PGSIZE) as Hps by (unfold pages; rewrite HP; mlia).
  rewrite (u32_id (ph_filesz ph)) by lia. unfold loadseg.
  destruct (loadseg_ok s pt top T1 fl1 (fs ++ gs) X ip data (ph_vaddr ph) (u32 (ph_off ph)) (ph_filesz ph) img
    (S (Z.to_nat (pages (ph_filesz ph)))) k1 f1 0) as (r2 & k2 & f2 & E2 & Hu2 & Hk2 & Hf2 & C2); try done; try lia.
  { change (Z.of_nat 0 * PGSIZE) with 0. rewrite Z.min_l by lia. intros j g q o Hg Ho. rewrite overlay_empty. by eapply Hh1. }
  { unfold pages. rewrite HP. mlia. }
  change (Z.of_nat 0 * PGSIZE) with 0 in E2. rewrite (bind_run _ _ _ _ _ E2).
  assert (loading k2 pt top X f2 ip data all sz1 T1 fl1 (fs ++ gs)) as HL2.
  { split; [done | by rewrite Hall | done | done | lia]. }
  assert (keeps k k2 X) as Hk02 by by eapply keeps_compose.
  destruct C2 as [[-> Hh2]| ->]; cbn [Z.ltb Z.compare]; [|by exists false, sz1, k2, f2, T1, fl1, (fs ++ gs)].
  destruct (IH k2 f2 T1 fl1 (fs ++ gs) (i32 (off + PROGHDR_SIZE)) sz1
    (overlay data (ph_vaddr ph) (u32 (ph_off ph)) (ph_filesz ph) img) HL2) as (ok & sz' & k3 & f3 & T3 & fl3 & fs3 & E3 & HL3 & Hk3 & Hok).
  { split; [done | exact Hh2|]. intros x Hx. rewrite Hlen1 in Hx. rewrite overlay_above by lia. apply Hz.
    rewrite length_app in Hlen1. lia. }
  exists ok, sz', k3, f3, T3, fl3, fs3. split; [exact E3|]. split; [done|]. split; [by eapply keeps_compose | exact Hok].
Qed.

(** *** The arguments *)

(** The kernel string [l] at [a] is inside a page of [X] other than [ks]. *)
Definition arg_ok (k : kst) (X : list Z) (ks a : Z) (l : list Z) : Prop :=
  exists g, g ∈ X /\ g <> ks /\ g <= a /\ a + Z.of_nat (length l) + 1 <= g + PGSIZE /\ holds_str (pmem k) a l.

(** Bytes change only in the pages [st] and [ks]. *)
Definition only2 (k k' : kst) (ps : list Z) (st ks : Z) : Prop :=
  forall g o, g ∈ ps -> g <> st -> g <> ks -> 0 <= o < PGSIZE -> load8 (pmem k') (g + o) = load8 (pmem k) (g + o).

Lemma only2_trans k k1 k2 ps st ks : only2 k k1 ps st ks -> only2 k1 k2 ps st ks -> only2 k k2 ps st ks.
Proof. intros A B g o Hg H1 H2 Ho. by rewrite B, A. Qed.

Lemma holds_str_ext m m' a l :
  (forall x, a <= x < a + Z.of_nat (length l) + 1 -> load8 m' x = load8 m x) -> holds_str m a l -> holds_str m' a l.
Proof.
  intros He (Hl & H0' & Hn). split_and!; [|by rewrite He by lia | done].
  rewrite <- Hl at 2. apply load_bytes_ext. intros x Hx. apply He. lia.
Qed.

Lemma arg_ok_keep k k' ps X st ks a l :
  only2 k k' ps st ks -> st ∉ X -> X ⊆ ps -> arg_ok k X ks a l -> arg_ok k' X ks a l.
Proof.
  intros Ho Hst Hsub (g & Hg & Hne & Ha & Hl & Hs). exists g. split_and!; try done.
  eapply holds_str_ext; [|exact Hs]. intros x Hx. replace x with (g + (x - g)) by lia.
  apply Ho; [by apply Hsub | by intros -> | done | lia].
Qed.

Lemma load_le_shift m m' n : forall a b,
  (forall i, 0 <= i < Z.of_nat n -> load8 m' (a + i) = load8 m (b + i)) -> load_le m' a n = load_le m b n.
Proof.
  induction n as [|n IH]; intros a b Hb; cbn [load_le]; [done|].
  pose proof (Hb 0) as H1. rewrite !Z.add_0_r in H1. rewrite H1 by lia. do 2 f_equal. apply IH. intros i Hi.
  replace (a + 1 + i) with (a + (1 + i)) by lia. rewrite Hb by lia. f_equal. lia.
Qed.

(** main finds its arguments: at [sp], seen through the stack page [st], the
    pointers to the strings and a null one. *)
Definition has_args (k : kst) (st base sp : Z) (strs : list (list Z)) : Prop :=
  exists ptrs, length ptrs = length strs /\ base <= sp /\ sp mod 16 = 0 /\
    sp + 8 * (Z.of_nat (length strs) + 1) <= base + PGSIZE /\
    (forall i u, ptrs !! i = Some u -> load64 (pmem k) (st + (sp - base) + 8 * Z.of_nat i) = u) /\
    load64 (pmem k) (st + (sp - base) + 8 * Z.of_nat (length strs)) = 0 /\
    forall i u l, ptrs !! i = Some u -> strs !! i = Some l ->
      base <= u /\ u + Z.of_nat (length l) + 1 <= base + PGSIZE /\
      forall o b, (l ++ [0]) !! o = Some b -> load8 (pmem k) (st + (u - base) + Z.of_nat o) = b.

Section stack.
Context (ustack : Z) (s : pk F) (f : F) (pt : Z) (top : Z -> Z) (T : gmap (list Z) Z) (fl : list Z) (fs : list (Z * Z)) (X : list Z).
(** the page of ustack; the index, the frame and the entry of the stack page *)
Context (ks : Z) (j : nat) (st q : Z).
Hypothesis Hks : ks ∈ X.
Hypothesis Hus : ks <= ustack /\ ustack + 8 * 32 <= ks + PGSIZE.
Hypothesis Hj : fs !! j = Some (st, q).
Hypothesis HU : has q PTE_U = true.
Hypothesis Hj1 : (1 <= j)%nat.

Let base : Z := Z.of_nat j * PGSIZE.

(** The bytes [l] on the stack at [u]. *)
Definition on_stack (k : kst) (u : Z) (l : list Z) : Prop :=
  forall o b, l !! o = Some b -> load8 (pmem k) (st + (u - base) + Z.of_nat o) = b.

Record stacked (k : kst) (ptrs : list Z) (strs : list (list Z)) (sp : Z) : Prop := {
  sk_us : uspace k pt top T fl fs X;
  sk_sp : base <= sp <= base + PGSIZE;
  sk_al : sp mod 16 = 0;
  sk_len : length ptrs = length strs;
  sk_ptr : forall i u, ptrs !! i = Some u -> load64 (pmem k) (ustack + 8 * Z.of_nat i) = u;
  sk_str : forall i u l, ptrs !! i = Some u -> strs !! i = Some l ->
    sp <= u /\ u + Z.of_nat (length l) + 1 <= base + PGSIZE /\ on_stack k u (l ++ [0]);
}.

Lemma st_in : st ∈ fs.*1.
Proof. apply list_elem_of_fmap. exists (st, q). split; [done|]. by eapply list_elem_of_lookup_2. Qed.

Lemma st_not_X k : uspace k pt top T fl fs X -> st ∉ X.
Proof.
  intros Hu Hin. pose proof (us_nodup _ _ _ _ _ _ _ Hu) as Hnd.
  apply NoDup_app in Hnd as (_ & _ & Hnd). apply NoDup_app in Hnd as (_ & _ & Hnd). apply NoDup_app in Hnd as (_ & Hnd & _).
  by apply (Hnd st st_in).
Qed.

(** copyout to the stack. *)
Lemma stack_copy k sp src len :
  uspace k pt top T fl fs X -> base <= sp -> 0 < len -> sp + len <= base + PGSIZE ->
  let k' := set_mem (memmove (pmem k) (st + (sp - base)) src len) k in
  copyout pt sp src len k = Ok 0 k' /\ uspace k' pt top T fl fs X /\ only2 k k' (fs.*1 ++ X) st ks /\ keeps k k' X /\
  (forall o, 0 <= o < len -> load8 (pmem k') (st + (sp - base) + o) = load8 (pmem k) (src + o)) /\
  (forall x, x < st + (sp - base) \/ st + (sp - base) + len <= x -> load8 (pmem k') x = load8 (pmem k) x).
Proof.
  intros Hu Hb Hl Hlen k'.
  assert (forall x, load8 (pmem k') x = if decide (st + (sp - base) <= x < st + (sp - base) + len) then load8 (pmem k) (src + (x - (st + (sp - base)))) else load8 (pmem k) x) as Hm.
  { intros x. unfold k'. cbn [pmem set_mem]. apply memmove_load8. lia. }
  destruct (us_fill k pt top T fl fs X j st q (pmem k') Hu Hj) as (Hu' & Hk & Ho).
  { intros x Hx. rewrite Hm, decide_False by lia. done. }
  split_and!.
  - eapply copyout_page; try done. unfold base in *. lia.
  - done.
  - intros g o Hg Hne _ Hoo. apply elem_of_app in Hg as [Hg|Hg]; [|by apply Hk].
    apply list_elem_of_fmap in Hg as ([g' p] & -> & [i Hi]%list_elem_of_lookup_1). apply (Ho _ _ _ _ Hi); [|done].
    intros ->. rewrite Hj in Hi. by injection Hi as <- <-.
  - done.
  - intros o Hoo. rewrite Hm, decide_True by lia. f_equal. lia.
  - intros x Hx. rewrite Hm, decide_False by lia. done.
Qed.

(** A word of ustack. *)
Lemma stack_word k i v :
  uspace k pt top T fl fs X -> (i < 32)%nat ->
  let k' := set_mem (store64 (pmem k) (ustack + 8 * Z.of_nat i) v) k in
  uspace k' pt top T fl fs X /\ only2 k k' (fs.*1 ++ X) st ks /\
  (forall o, 0 <= o < PGSIZE -> load8 (pmem k') (st + o) = load8 (pmem k) (st + o)) /\
  load64 (pmem k') (ustack + 8 * Z.of_nat i) = u64 v /\
  forall i', i' <> i -> load64 (pmem k') (ustack + 8 * Z.of_nat i') = load64 (pmem k) (ustack + 8 * Z.of_nat i').
Proof.
  intros Hu Hi k'. destruct (us_write k pt top T fl fs X ks (store64 (pmem k) (ustack + 8 * Z.of_nat i) v) Hu) as [Hu' Hk];
    [set_solver | |].
  { intros x Hx. apply load8_store_le_out. lia. }
  split_and!; [done | | | apply load64_store64_eq |].
  - intros g o Hg _ Hne Ho. by apply Hk.
  - intros o Ho. apply Hk; [apply elem_of_app; left; apply st_in | intros E; apply (st_not_X k Hu); by rewrite E | done].
  - intros i' Hne. unfold k'. cbn [pmem set_mem]. apply load64_store64_out. lia.
Qed.

(** The words of ustack are not on the stack. *)
Lemma ustack_off k x o : uspace k pt top T fl fs X -> 0 <= o < PGSIZE -> ustack <= x < ustack + 8 * 32 -> x <> st + o.
Proof.
  intros Hu Ho Hx ->. assert (st <> ks) as Hne by (intros E; apply (st_not_X k Hu); by rewrite E).
  pose proof st_in as Hst. destruct (apart_pages _ _ _ _ _ _ _ st ks Hu); [set_solver | set_solver | done | lia | lia].
Qed.

(** One turn of push_args. *)
Lemma push_one k ptrs strs sp a l :
  stacked k ptrs strs sp -> arg_ok k X ks a l -> (length ptrs < 32)%nat ->
  let sp1 := sp - (Z.of_nat (length l) + 1) in
  let sp2 := sp1 - sp1 mod 16 in
  base <= sp2 ->
  exists k1 k2, copyout pt sp2 a (Z.of_nat (length l) + 1) k = Ok 0 k1 /\
    upd_mem (fun m => store64 m (ustack + 8 * Z.of_nat (length ptrs)) sp2) k1 = Ok tt k2 /\
    stacked k2 (ptrs ++ [sp2]) (strs ++ [l]) sp2 /\ only2 k k2 (fs.*1 ++ X) st ks.
Proof.
  intros [Hu Hsp Hal Hlen Hptr Hstr] (g & Hg & Hgk & Hga & Hgl & Hs) Hn sp1 sp2 Hb.
  assert (sp2 <= sp1 /\ sp2 mod 16 = 0) as [Hsp12 Hal2] by (unfold sp2; mlia).
  destruct (stack_copy k sp2 a (Z.of_nat (length l) + 1) Hu) as (E1 & Hu1 & Ho1 & Hk1 & Hin1 & Hout1); [lia | lia | unfold sp1 in *; lia |].
  set (k1 := set_mem _ k) in *. destruct (stack_word k1 (length ptrs) sp2 Hu1 Hn) as (Hu2 & Ho2 & Hst2 & Hw2 & Hw2').
  set (k2 := set_mem _ k1) in *. exists k1, k2. split; [done|]. split; [done|].
  assert (0 <= sp2 < 2 ^ 64) as Hr.
  { pose proof (us_len _ _ _ _ _ _ _ Hu) as Hl'. rewrite TRAPFRAME_val in Hl'. apply lookup_lt_Some in Hj as Hjl.
    unfold base, sp1, PGSIZE in *. lia. }
  split; [split | by eapply only2_trans].
  - done.
  - unfold sp1 in *. lia.
  - done.
  - rewrite !length_app. cbn [length]. lia.
  - intros i u Hi. apply lookup_app_Some in Hi as [Hi|[Hge Hi]].
    + pose proof (lookup_lt_Some _ _ _ Hi). rewrite Hw2' by lia. rewrite <- (Hptr _ _ Hi).
      apply load64_ext. intros x Hx. apply Hout1.
      destruct (decide (st <= x < st + PGSIZE)) as [Hin|]; [|unfold base, sp1 in *; lia].
      exfalso. apply (ustack_off k x (x - st) Hu); lia.
    + destruct (i - length ptrs)%nat eqn:Ei; [|done]. injection Hi as <-. replace i with (length ptrs) by lia.
      rewrite Hw2. by apply u64_id.
  - intros i u l' Hi Hl'. apply lookup_app_Some in Hi as [Hi|[Hge Hi]].
    + rewrite lookup_app_l in Hl' by (rewrite <- Hlen; by eapply lookup_lt_Some).
      destruct (Hstr _ _ _ Hi Hl') as (H1 & H2 & H3). split; [unfold sp1 in *; lia|]. split; [done|].
      intros o b Hob. pose proof (lookup_lt_Some _ _ _ Hob) as Hol. rewrite length_app in Hol. cbn [length] in Hol.
      replace (st + (u - base) + Z.of_nat o) with (st + (u - base + Z.of_nat o)) by lia. rewrite Hst2 by lia.
      rewrite Hout1 by (unfold sp1 in *; lia). rewrite <- (H3 _ _ Hob). f_equal. lia.
    + destruct (i - length ptrs)%nat eqn:Ei; [|done]. injection Hi as <-.
      rewrite lookup_app_r in Hl' by lia. replace (i - length strs)%nat with 0%nat in Hl' by lia. injection Hl' as <-.
      split; [lia|]. split; [unfold sp1 in *; lia|]. intros o b Hob.
      pose proof (lookup_lt_Some _ _ _ Hob) as Hol. rewrite length_app in Hol. cbn [length] in Hol.
      replace (st + (sp2 - base) + Z.of_nat o) with (st + (sp2 - base + Z.of_nat o)) by lia. rewrite Hst2 by (unfold sp1 in *; lia).
      replace (st + (sp2 - base + Z.of_nat o)) with (st + (sp2 - base) + Z.of_nat o) by lia. rewrite Hin1 by lia.
      destruct Hs as (Hl & H0' & _). apply lookup_app_Some in Hob as [Hob|[Hge' Hob]].
      * pose proof (lookup_lt_Some _ _ _ Hob) as Hob'.
        assert (load_bytes (pmem k) a (length l) !! o = Some b) as Hb' by (by rewrite Hl).
        rewrite load_bytes_lookup in Hb' by done. by injection Hb'.
      * destruct (o - length l)%nat eqn:Eo; [|done]. injection Hob as <-. replace o with (length l) by lia. done.
Qed.

Lemma push_args_ok : forall argv strs k ptrs strs0 sp,
  stacked k ptrs strs0 sp -> Forall2 (arg_ok k X ks) argv strs -> (length ptrs + length argv < 32)%nat ->
  exists r k', push_args ustack pt base argv (Z.of_nat (length ptrs)) sp (at_ s k f) = Ok r (at_ s k' f) /\
    uspace k' pt top T fl fs X /\ only2 k k' (fs.*1 ++ X) st ks /\
    (r = None \/ exists ptrs' sp', r = Some (Z.of_nat (length ptrs'), sp') /\ length ptrs' = (length ptrs + length argv)%nat /\
       stacked k' ptrs' (strs0 ++ strs) sp').
Proof.
  induction argv as [|a argv IH]; intros strs k ptrs strs0 sp Hsk Hargs Hn; inversion Hargs as [|? l ? strs' Ha Hargs']; subst; cbn [push_args].
  { eexists _, k. split; [done|]. split; [apply Hsk|]. split; [done|]. right. exists ptrs, sp. rewrite app_nil_r.
    split_and!; [done | cbn [length]; lia | done]. }
  cbn [length] in Hn. rewrite (proj2 (Z.leb_gt _ _)) by lia. pose proof Hsk as [Hu Hsp Hal Hlen _ _].
  erewrite bind_run by reflexivity. cbn [kmem at_]. pose proof Ha as (g & _ & _ & _ & Hgl & Hs). rewrite (strlen_str _ _ _ Hs).
  erewrite bind_run by reflexivity. pose proof (us_len _ _ _ _ _ _ _ Hu) as Hl'. rewrite TRAPFRAME_val in Hl'. apply lookup_lt_Some in Hj as Hjl.
  assert (PGSIZE = 4096) as HP by done. set (sp1 := sp - (Z.of_nat (length l) + 1)).
  assert (0 <= sp1 < 2 ^ 64) as Hr1.
  { destruct Ha as (g' & _ & _ & Hg1 & Hg2 & _). unfold sp1, base in *. rewrite HP in *. lia. }
  rewrite (u64_id sp1), (u64_id (sp1 - sp1 mod 16)) by mlia. cbv zeta.
  destruct (Z.ltb_spec (sp1 - sp1 mod 16) base) as [Hlt|Hge].
  { exists None, k. split; [done|]. split; [done|]. split; [done | by left]. }
  destruct (push_one k ptrs strs0 sp a l Hsk Ha) as (k1 & k2 & E1 & E2 & Hsk2 & Ho2); [lia | done|].
  rewrite (bind_run _ _ _ _ _ (onk_at _ _ _ _ _ _ E1)). cbn [Z.ltb Z.compare].
  rewrite (bind_run _ _ _ _ _ (onk_at _ _ _ _ _ _ E2)).
  replace (Z.of_nat (length ptrs) + 1) with (Z.of_nat (length (ptrs ++ [sp1 - sp1 mod 16]))) by (rewrite length_app; cbn [length]; lia).
  destruct (IH strs' k2 _ _ _ Hsk2) as (r & k3 & E3 & Hu3 & Ho3 & C).
  - eapply Forall2_impl; [exact Hargs'|]. intros a' l' Ha'. eapply arg_ok_keep; [exact Ho2 | by eapply st_not_X | set_solver | done].
  - rewrite length_app. cbn [length]. lia.
  - exists r, k3. split; [exact E3|]. split; [done|]. split; [by eapply only2_trans|].
    destruct C as [->|(ptrs' & sp' & -> & Hl2 & Hsk3)]; [by left | right]. exists ptrs', sp'.
    rewrite length_app in Hl2. cbn [length] in *. rewrite <- app_assoc in Hsk3. split_and!; [done | lia | done].
Qed.
(** The array of pointers, pushed below the strings. *)
Lemma push_array k ptrs strs sp :
  stacked k ptrs strs sp -> (length ptrs < 32)%nat ->
  let n := Z.of_nat (length ptrs) in
  let sp1 := sp - (n + 1) * 8 in
  let sp2 := sp1 - sp1 mod 16 in
  base <= sp2 ->
  exists k1 k2, upd_mem (fun m => store64 m (ustack + 8 * n) 0) k = Ok tt k1 /\
    copyout pt sp2 ustack ((n + 1) * 8) k1 = Ok 0 k2 /\ uspace k2 pt top T fl fs X /\
    only2 k k2 (fs.*1 ++ X) st ks /\ has_args k2 st base sp2 strs.
Proof.
  intros [Hu Hsp Hal Hlen Hptr Hstr] Hn n sp1 sp2 Hb.
  assert (sp2 <= sp1 /\ sp2 mod 16 = 0) as [Hsp12 Hal2] by (unfold sp2; mlia).
  destruct (stack_word k (length ptrs) 0 Hu Hn) as (Hu1 & Ho1 & Hst1 & Hw1 & Hw1').
  set (k1 := set_mem _ k) in *.
  destruct (stack_copy k1 sp2 ustack ((n + 1) * 8) Hu1) as (E2 & Hu2 & Ho2 & _ & Hin2 & Hout2);
    [done | unfold n; lia | unfold sp1 in *; lia |].  set (k2 := set_mem _ k1) in *.
  assert (forall i : nat, (i <= length ptrs)%nat -> load64 (pmem k2) (st + (sp2 - base) + 8 * Z.of_nat i) = load64 (pmem k1) (ustack + 8 * Z.of_nat i)) as Hw.
  { intros i Hi. apply load_le_shift. intros o Ho. change (Z.of_nat 8) with 8 in Ho. rewrite <- !Z.add_assoc, (Z.add_assoc st).
    rewrite Hin2 by (unfold n; lia). done. }
  exists k1, k2. split; [done|]. split; [done|]. split; [done|]. split; [by eapply only2_trans|].
  exists ptrs. split; [done|]. split; [done|]. split; [done|]. split; [unfold sp1, n in *; lia|]. split_and!.
  - intros i u Hi. pose proof (lookup_lt_Some _ _ _ Hi). rewrite Hw by lia. rewrite Hw1' by lia. by apply Hptr.
  - rewrite <- Hlen. rewrite Hw by lia. by rewrite Hw1.
  - intros i u l Hi Hl. destruct (Hstr _ _ _ Hi Hl) as (H1 & H2 & H3). split; [lia|]. split; [done|].
    intros o b Hob. pose proof (lookup_lt_Some _ _ _ Hob) as Hol. rewrite length_app in Hol. cbn [length] in Hol.
    rewrite Hout2 by (unfold sp1 in *; lia).
    replace (st + (u - base) + Z.of_nat o) with (st + (u - base + Z.of_nat o)) by lia. rewrite Hst1 by lia.
    rewrite <- (H3 _ _ Hob). f_equal. lia.
Qed.

(** From the null pointer on. *)
Lemma finish_stack k ptrs strs (sp sz : Z) :
  stacked k ptrs strs sp -> (length ptrs < 32)%nat ->
  exists r k', (onk (upd_mem (fun m => store64 m (ustack + 8 * Z.of_nat (length ptrs)) 0)) ;;
      let sp := u64 (sp - (Z.of_nat (length ptrs) + 1) * 8) in
      let sp := u64 (sp - sp mod 16) in
      if sp <? base then ret (@None (Z * Z), sz)
      else
        let* r := onk (copyout pt sp ustack ((Z.of_nat (length ptrs) + 1) * 8)) in
        if r <? 0 then ret (None, sz) else ret (Some (Z.of_nat (length ptrs), sp), sz)) (at_ s k f) = Ok (r, sz) (at_ s k' f) /\
    uspace k' pt top T fl fs X /\ only2 k k' (fs.*1 ++ X) st ks /\
    (r = None \/ exists sp', r = Some (Z.of_nat (length ptrs), sp') /\ has_args k' st base sp' strs).
Proof.
  intros Hsk Hn. pose proof Hsk as [Hu Hsp _ _ _ _]. assert (PGSIZE = 4096) as HP by done.
  pose proof (us_len _ _ _ _ _ _ _ Hu) as Hl'. rewrite TRAPFRAME_val in Hl'. apply lookup_lt_Some in Hj as Hjl.
  set (sp1 := sp - (Z.of_nat (length ptrs) + 1) * 8). set (sp2 := sp1 - sp1 mod 16).
  assert (0 <= sp2 <= sp1 /\ sp1 < 2 ^ 64) as [Hr1 Hr2].
  { assert (0 <= sp1 < 2 ^ 64); [unfold sp1, base in *; rewrite HP in *; lia | unfold sp2; mlia]. }
  cbv zeta. rewrite (u64_id sp1) by lia. fold sp2. rewrite (u64_id sp2) by lia.
  destruct (stack_word k (length ptrs) 0 Hu Hn) as (Hu1 & Ho1 & _).
  destruct (Z.ltb_spec sp2 base) as [Hlt|Hge].
  { erewrite bind_run by (by apply onk_at). eexists None, _. split; [done|]. split; [done|]. split; [done | by left]. }
  destruct (push_array k ptrs strs sp Hsk Hn Hge) as (k1 & k2 & E1 & E2 & Hu2 & Ho2 & Ha).
  rewrite (bind_run _ _ _ _ _ (onk_at _ _ _ _ _ _ E1)), (bind_run _ _ _ _ _ (onk_at _ _ _ _ _ _ E2)).
  cbn [Z.ltb Z.compare]. eexists _, k2. split; [done|]. split; [done|]. split; [done|]. right. by exists sp2.
Qed.
End stack.


Lemma keeps_only2 k k' ps st ks : keeps k k' ps -> only2 k k' ps st ks.
Proof. intros Hk g o Hg _ _ Ho. by apply Hk. Qed.

(** uvmalloc of the two stack pages, the lower one cleared. *)
Lemma stack_pages k pt top T fl fs X img all :
  uspace k pt top T fl fs X -> all ≡ₚ fl ++ tabs T ++ fs.*1 -> image k fs img ->
  let n := Z.of_nat (length fs) in
  exists r k1 T1 fl1, uvmalloc pt (n * PGSIZE) ((n + 2) * PGSIZE) PTE_W k = Ok r k1 /\ keeps k k1 X /\
    (r = 0 /\ uspace k1 pt top T1 fl1 fs X /\ all ≡ₚ fl1 ++ tabs T1 ++ fs.*1 \/
     r = (n + 2) * PGSIZE /\ exists gd st k2, uvmclear pt (n * PGSIZE) k1 = Ok tt k2 /\ keeps k k2 X /\
       let fs2 := fs ++ [(gd, Z.lor PTE_R PTE_W); (st, Z.lor (Z.lor PTE_R PTE_U) PTE_W)] in
       uspace k2 pt top T1 fl1 fs2 X /\ all ≡ₚ fl1 ++ tabs T1 ++ fs2.*1 /\ holds k2 fs img).
Proof.
  intros Hu Hall [Hus Hh Hz] n. assert (PGSIZE = 4096) as HP by done.
  destruct (grow_ok k pt top T fl fs X (n * PGSIZE) ((n + 2) * PGSIZE) PTE_W img Hu) as
    (r & k1 & T1 & fl1 & gs & E1 & Hu1 & Hk1 & Hp1 & Hus1 & Hh1 & Hgp & C1); try done; try (unfold n; lia).
  { by rewrite pages_mul. }
  exists r, k1, T1, fl1. split; [done|]. split; [done|].
  destruct C1 as [[-> ->]|[Hr Hlen]].
  { left. rewrite app_nil_r in *. split_and!; [done | done | by rewrite Hall]. }
  rewrite Z.max_r in Hr by (unfold n; lia). right. split; [done|]. rewrite Hr, pages_mul, length_app in Hlen.
  destruct gs as [|[gd p1] [|[st p2] [|]]]; cbn [length] in Hlen; try (unfold n in Hlen; lia).
  apply Forall_cons in Hgp as [Ep1 [Ep2 _]%Forall_cons]. cbn [snd] in Ep1, Ep2. subst p1 p2.
  set (p := Z.lor (Z.lor PTE_R PTE_U) PTE_W) in *.
  destruct (us_uvmclear k1 pt top T1 fl1 (fs ++ [(gd, p); (st, p)]) X (length fs) gd p Hu1) as (k2 & E2 & Hu2 & Hk2).
  { by rewrite lookup_app_r, Nat.sub_diag by lia. } { by split. }
  replace (<[length fs := _]> _) with (fs ++ [(gd, Z.lor PTE_R PTE_W); (st, p)]) in Hu2
    by (rewrite <- (Nat.add_0_r (length fs)) at 1; by rewrite insert_app_r).
  exists gd, st, k2. split; [done|]. split; [eapply keeps_compose; [done | eapply keeps_sub; [exact Hk2 | set_solver]]|].
  split; [done|]. split; [by rewrite Hall, Hp1, !fmap_app|].
  intros j f q o Hj Ho. rewrite Hk2; [by apply (Hh1 _ _ q); [rewrite lookup_app_l by (by eapply lookup_lt_Some)|] | | done].
  apply elem_of_app. left. rewrite fmap_app. apply elem_of_app. left. apply list_elem_of_fmap. exists (f, q).
  split; [done|]. by eapply list_elem_of_lookup_2.
Qed.

(** What the stack set-up leaves. *)
Record stack_made (k0 k : kst) (pt : Z) (top : Z -> Z) (X : list Z) (ks : Z) (all : list Z)
    (sz : Z) (T : gmap (list Z) Z) (fl : list Z) (fs : list (Z * Z)) : Prop := {
  sm_us : uspace k pt top T fl fs X;
  sm_all : all ≡ₚ fl ++ tabs T ++ fs.*1;
  sm_len : Z.of_nat (length fs) = pages sz;
  sm_sz : 0 <= sz;
  sm_X : forall g o, g ∈ X -> g <> ks -> 0 <= o < PGSIZE -> load8 (pmem k) (g + o) = load8 (pmem k0) (g + o);
}.

(** The new program: the image, a page out of the user's reach, the stack
    with the arguments. *)
Definition new_program (k : kst) (fs fs' : list (Z * Z)) (img : Z -> Z) (sp sz : Z) (strs : list (list Z)) : Prop :=
  let n := Z.of_nat (length fs) in
  exists gd st, fs' = fs ++ [(gd, Z.lor PTE_R PTE_W); (st, Z.lor (Z.lor PTE_R PTE_U) PTE_W)] /\
    sz = (n + 2) * PGSIZE /\ holds k fs img /\ has_args k st ((n + 1) * PGSIZE) sp strs.

Lemma user_stack_ok s f ustack pt top T fl fs X ks argv strs sz k img all :
  uspace k pt top T fl fs X -> all ≡ₚ fl ++ tabs T ++ fs.*1 -> Z.of_nat (length fs) = pages sz -> 0 <= sz -> image k fs img ->
  ks ∈ X -> ks <= ustack /\ ustack + 8 * 32 <= ks + PGSIZE -> Forall2 (arg_ok k X ks) argv strs -> (length argv < 32)%nat ->
  exists r sz' k' T' fl' fs', user_stack ustack pt sz argv (at_ s k f) = Ok (r, sz') (at_ s k' f) /\
    stack_made k k' pt top X ks all sz' T' fl' fs' /\
    (r = None \/ exists sp, r = Some (Z.of_nat (length argv), sp) /\ new_program k' fs fs' img sp sz' strs).
Proof.
  intros Hu Hall Hlen Hsz Him Hks Hus Hargs Hargc. assert (PGSIZE = 4096) as HP by done.
  pose proof (us_small _ _ _ _ _ _ _ Hu) as Hsm. assert (PHYSTOP = 2281701376) as HS by done. rewrite HS in Hsm.
  assert (sz <= pages sz * PGSIZE) as Hps by (unfold pages; rewrite HP; mlia).
  unfold user_stack. rewrite PGROUNDUP_pages, <- Hlen by lia. set (n := Z.of_nat (length fs)) in *. cbv zeta.
  rewrite (u64_id (n * PGSIZE + 2 * PGSIZE)) by (rewrite HP in *; lia).
  replace (n * PGSIZE + 2 * PGSIZE) with ((n + 2) * PGSIZE) by lia.
  destruct (stack_pages k pt top T fl fs X img all Hu Hall Him) as (r & k1 & T1 & fl1 & E1 & Hk1 & C).
  fold n in E1, C. rewrite (bind_run _ _ _ _ _ (onk_at _ _ _ _ _ _ E1)).
  destruct C as [(-> & Hu1 & Hp1)|(-> & gd & st & k2 & E2 & Hk2 & Hu2 & Hp2 & Hh2)]; cbn [Z.eqb].
  { exists None, (n * PGSIZE), k1, T1, fl1, fs. split; [done|]. split; [|by left].
    split; [done | done | by rewrite pages_mul | lia|]. intros g o Hg _ Ho. by apply Hk1. }
  rewrite (proj2 (Z.eqb_neq ((n + 2) * PGSIZE) 0)) by lia.
  replace ((n + 2) * PGSIZE - 2 * PGSIZE) with (n * PGSIZE) by lia. rewrite (u64_id (n * PGSIZE)) by lia.
  rewrite (bind_run _ _ _ _ _ (onk_at _ _ _ _ _ _ E2)).
  replace ((n + 2) * PGSIZE - PGSIZE) with (Z.of_nat (S (length fs)) * PGSIZE) by lia.
  rewrite (u64_id (Z.of_nat _ * PGSIZE)) by (rewrite HP in *; lia).
  set (fs2 := fs ++ _) in *. set (q := Z.lor (Z.lor PTE_R PTE_U) PTE_W) in *.
  assert (fs2 !! S (length fs) = Some (st, q)) as Hj by (unfold fs2; by rewrite lookup_app_r, Nat.sub_succ_l, Nat.sub_diag by lia).
  pose proof (st_not_X pt top T1 fl1 fs2 X _ st q Hj k2 Hu2) as HstX.
  assert (Forall2 (arg_ok k2 X ks) argv strs) as Hargs2.
  { eapply Forall2_impl; [exact Hargs|]. intros a l Ha. eapply (arg_ok_keep k k2 X X st); [by apply keeps_only2 | done | done | done]. }
  assert (stacked ustack pt top T1 fl1 fs2 X (S (length fs)) st k2 [] [] ((n + 2) * PGSIZE)) as Hsk.
  { split; [done | lia | rewrite HP; mlia | done | done | done]. }
  destruct (push_args_ok ustack s f pt top T1 fl1 fs2 X ks (S (length fs)) st q Hks Hus Hj eq_refl ltac:(lia) argv strs k2 [] [] _ Hsk Hargs2)
    as (r & k3 & E3 & Hu3 & Ho3 & C3); [done|].
  cbn [length] in E3. change (Z.of_nat 0) with 0 in E3. rewrite (bind_run _ _ _ _ _ E3).
  assert (Z.of_nat (length fs2) = n + 2) as Hl2 by (unfold fs2; rewrite length_app; cbn [length]; lia).
  assert (forall k', uspace k' pt top T1 fl1 fs2 X -> only2 k2 k' (fs2.*1 ++ X) st ks ->
    stack_made k k' pt top X ks all ((n + 2) * PGSIZE) T1 fl1 fs2) as Hmade.
  { intros k' Hu' Ho'. split; [done | done | by rewrite pages_mul | lia|].
    intros g o Hg Hne Ho. rewrite Ho'; [by apply Hk2 | set_solver | by intros -> | done | done]. }
  destruct C3 as [->|(ptrs & sp & -> & Hpl & Hsk3)].
  { exists None, ((n + 2) * PGSIZE), k3, T1, fl1, fs2. split; [done|]. split; [by apply Hmade | by left]. }
  cbn [length Nat.add app] in Hpl, Hsk3. rewrite (proj2 (Z.leb_gt 32 _)) by lia.
  destruct (finish_stack ustack s f pt top T1 fl1 fs2 X ks (S (length fs)) st q Hks Hus Hj eq_refl ltac:(lia) k3 ptrs strs sp
    ((n + 2) * PGSIZE) Hsk3) as (r & k4 & E4 & Hu4 & Ho4 & C4); [lia|].
  exists r, ((n + 2) * PGSIZE), k4, T1, fl1, fs2. split; [exact E4|].
  pose proof (only2_trans _ _ _ _ _ _ Ho3 Ho4) as Ho24. split; [by apply Hmade|].
  destruct C4 as [->|(sp' & -> & Ha)]; [by left | right]. exists sp'. rewrite Hpl. split; [done|].
  exists gd, st. split; [done|]. split; [done|]. split; [|by replace (Z.of_nat (S (length fs))) with (n + 1) in Ha by lia].
  intros i g p o Hi Ho. rewrite Ho24; [by eapply Hh2 | | | | done].
  - apply elem_of_app. left. unfold fs2. rewrite fmap_app. apply elem_of_app. left. apply list_elem_of_fmap. exists (g, p).
    split; [done|]. by eapply list_elem_of_lookup_2.
  - intros ->. apply lookup_lt_Some in Hi as Hil.
    pose proof (us_frame_inj _ _ _ _ _ _ _ i (S (length fs)) st p q Hu2) as Hij. rewrite Hij in Hil; [lia | | done].
    unfold fs2. by rewrite lookup_app_l.
  - intros ->. apply (st_not_X pt top T1 fl1 fs2 X i ks p) with (k := k2); [|done | done]. unfold fs2. rewrite lookup_app_l; [done|].
    by eapply lookup_lt_Some.
Qed.

(** *** The whole of exec *)

Lemma root_nonzero k pt top T fl fs X : uspace k pt top T fl fs X -> pt <> 0.
Proof.
  intros Hu. pose proof (us_end _ _ _ _ _ _ _ Hu) as He. pose proof (vm_pt _ _ _ _ (us_vm _ _ _ _ _ _ _ Hu)) as Hw.
  pose proof (page_ok_bound _ _ He (pt_page _ _ _ Hw _ _ (pt_root _ _ _ Hw))). lia.
Qed.

(** The memory of the kernel when exec has read the ELF header and loaded the
    segments; [Y] are the pages in use before. *)
Lemma load_image_ok s k f i ip data fl Y :
  let top := proc_top (trampoline s) (p_trapframe (getp s i)) in
  let elf := slice data 0 ELFHDR_SIZE in
  others k fl Y -> xl_at f (Open ip data) -> bytes_ok data ->
  0 <= trampoline s < 2 ^ 63 -> 0 <= p_trapframe (getp s i) < 2 ^ 63 ->
  exists ok pt sz elf' k' f', load_image i ip (at_ s k f) = Ok (ok, pt, sz, elf') (at_ s k' f') /\
    keeps k k' Y /\ xl_at f' (Open ip data) /\
    (ok = false /\ pt = 0 /\ (exists fl', others k' fl' Y /\ fl' ≡ₚ fl) \/
     exists T' fl' fs', loading k' pt top Y f' ip data fl sz T' fl' fs' /\
       (ok = true -> elf' = elf /\ e_magic elf = ELF_MAGIC /\
          image k' fs' (loaded (Z.to_nat (e_phnum elf)) data (i32 (e_phoff elf)) (fun _ => 0)))).
Proof.
  intros top elf Ho Hf Hdata Htr Htf. unfold load_image.
  destruct (xl_readi f ip data 0 ELFHDR_SIZE Hf) as (r & bs & f1 & Er & Hf1 & C); [done | done|].
  rewrite (bind_run _ _ _ _ _ (onf_at _ _ _ _ _ _ Er)). cbn [fst snd].
  assert (forall e, exists ok pt sz elf' k' f', (ret (false, 0, 0, e) : PM (F := F) _) (at_ s k f1) = Ok (ok, pt, sz, elf') (at_ s k' f') /\
    keeps k k' Y /\ xl_at f' (Open ip data) /\
    (ok = false /\ pt = 0 /\ (exists fl', others k' fl' Y /\ fl' ≡ₚ fl) \/
     exists T' fl' fs', loading k' pt top Y f' ip data fl sz T' fl' fs' /\
       (ok = true -> elf' = elf /\ e_magic elf = ELF_MAGIC /\
          image k' fs' (loaded (Z.to_nat (e_phnum elf)) data (i32 (e_phoff elf)) (fun _ => 0))))) as Hbad.
  { intros e. exists false, 0, 0, e, k, f1. split; [done|]. split; [done|]. split; [done|]. left. split_and!; [done | done | by exists fl]. }
  destruct (Z.eqb_spec r ELFHDR_SIZE) as [Hr|]; cbn [negb]; [|apply Hbad].
  destruct C as [[-> _]|[_ ->]]; [done|]. fold elf.
  destruct (Z.eqb_spec (e_magic elf) ELF_MAGIC) as [Hmg|]; cbn [negb]; [|apply Hbad].
  erewrite bind_run by reflexivity. unfold theproc, gets. erewrite bind_run by reflexivity. change (getp (at_ s k f1) i) with (getp s i).
  change (trampoline (at_ s k f1)) with (trampoline s).
  destruct (proc_pagetable_ok k fl Y _ _ Ho Htr Htf) as (pt & k1 & fl1 & E1 & Hk1 & C1).
  rewrite (bind_run _ _ _ _ _ (onk_at _ _ _ _ _ _ E1)).
  destruct C1 as [(-> & O1 & Hp1 & _)|(Hpt & T1 & Hu1 & Hp1)]; cbn [Z.eqb].
  { exists false, 0, 0, elf, k1, f1. split; [done|]. split; [done|]. split; [done|]. left. split_and!; [done | done | by exists fl1]. }
  rewrite (proj2 (Z.eqb_neq _ _) Hpt).
  destruct (load_phdrs_ok s pt top Y ip data fl Hdata (Z.to_nat (e_phnum elf)) k1 f1 T1 fl1 [] (i32 (e_phoff elf)) 0 (fun _ => 0))
    as (ok & sz & k2 & f2 & T2 & fl2 & fs2 & E2 & HL & Hk2 & Hok).
  - split; [done | by rewrite app_nil_r | done | done | done].
  - split; [constructor | intros j g q o Hj; done | done].
  - rewrite (bind_run _ _ _ _ _ E2). cbn [fst snd]. exists ok, pt, sz, elf, k2, f2. split; [done|].
    split; [by eapply keeps_compose|]. split; [apply HL|]. right. exists T2, fl2, fs2. split; [done|]. intros Ht. by split; [|split; [|apply Hok]].
Qed.

Lemma exec_bad_ok s k f pt tramp tf T fl fs Y sz ip (ph : fsphase) :
  uspace k pt (proc_top tramp tf) T fl fs Y -> Z.of_nat (length fs) = pages sz -> 0 <= sz ->
  xl_at f ph -> (ip = 0 /\ ph = Idle \/ ip <> 0 /\ exists data, ph = Open ip data) ->
  exists k' f' fl', exec_bad pt sz ip (at_ s k f) = Ok (-1) (at_ s k' f') /\ xl_at f' Idle /\
    others k' fl' Y /\ fl' ≡ₚ fl ++ tabs T ++ fs.*1 /\ keeps k k' Y.
Proof.
  intros Hu Hlen Hsz Hf C. unfold exec_bad. pose proof (root_nonzero _ _ _ _ _ _ _ Hu) as Hpt.
  unfold nz. rewrite (proj2 (Z.eqb_neq _ _) Hpt). cbn [negb when].
  destruct (proc_freepagetable_ok k pt tramp tf T fl fs Y sz Hu Hsz Hlen) as (k1 & fl1 & E1 & O1 & Hp1 & Hk1).
  rewrite (bind_run _ _ _ _ _ (onk_at _ _ _ _ _ _ E1)).
  destruct C as [[-> ->]|(Hip & data & ->)]; cbn [Z.eqb negb when].
  { by exists k1, f, fl1. }
  rewrite (proj2 (Z.eqb_neq _ _) Hip). cbn [negb when].
  destruct (xl_iunlockput f ip data Hf) as (f1 & Ei & Hf1). destruct (xl_end f1 Hf1) as (f2 & Ee & Hf2).
  exists k1, f2, fl1. split; [|done]. erewrite bind_run by (rewrite (bind_run _ _ _ _ _ (onf_at _ _ _ _ _ _ Ei)); by apply onf_at). done.
Qed.

(** Without a page table. *)
Lemma exec_bad_none s k f ip data sz :
  ip <> 0 -> xl_at f (Open ip data) ->
  exists f', exec_bad 0 sz ip (at_ s k f) = Ok (-1) (at_ s k f') /\ xl_at f' Idle.
Proof.
  intros Hip Hf. unfold exec_bad, nz. cbn [Z.eqb negb when]. rewrite (proj2 (Z.eqb_neq _ _) Hip). cbn [negb when].
  destruct (xl_iunlockput f ip data Hf) as (f1 & Ei & Hf1). destruct (xl_end f1 Hf1) as (f2 & Ee & Hf2).
  exists f2. split; [|done]. erewrite bind_run by reflexivity.
  erewrite bind_run by (rewrite (bind_run _ _ _ _ _ (onf_at _ _ _ _ _ _ Ei)); by apply onf_at). done.
Qed.

(** The process with its new program. *)
Definition exec_proc (path : list Z) (pt sz : Z) (p : proc) : proc :=
  set_sz sz (set_pagetable pt (set_name (safestrcpy_bytes (p_name p) (last_name path ++ [0]) 16) p)).

Definition with_procs (ps : list proc) (s : pk F) : pk F :=
  Pk ps (nextpid s) (initproc s) (cur s) (Proc.ticks s) (kmem s) (shr s) (pages7 s) (trampoline s) (proc_addr s) (fsys s).

Lemma upd_proc_at i g s k f : upd_proc i g (at_ s k f) = Ok tt (at_ (with_procs (alter g i (procs s)) s) k f).
Proof. done. Qed.

(** The registers exec sets. *)
Definition regs_set (m : mem) (tf sp entry : Z) : Prop :=
  load64 m (tf + TF_A1) = u64 sp /\ load64 m (tf + TF_EPC) = u64 entry /\ load64 m (tf + TF_SP) = u64 sp.

Lemma three_stores m tf sp entry :
  let m' := store64 (store64 (store64 m (tf + TF_A1) sp) (tf + TF_EPC) entry) (tf + TF_SP) sp in
  same_out m m' tf /\ regs_set m' tf sp entry.
Proof.
  intros m'. unfold m', regs_set, TF_A1, TF_EPC, TF_SP. split.
  - intros x Hx. unfold store64, PGSIZE in *. rewrite !load8_store_le_out by lia. done.
  - rewrite load64_store64_eq. repeat (rewrite load64_store64_out by lia). rewrite load64_store64_eq.
    repeat (rewrite load64_store64_out by lia). by rewrite load64_store64_eq.
Qed.

Lemma page_apart k pt top T fl fs X g ps : uspace k pt top T fl fs X -> g ∈ X -> ps ⊆ fs.*1 -> g ∉ ps.
Proof.
  intros Hu Hg Hsub Hin. pose proof (us_nodup _ _ _ _ _ _ _ Hu) as Hnd.
  apply NoDup_app in Hnd as (_ & _ & Hnd). apply NoDup_app in Hnd as (_ & _ & Hnd). apply NoDup_app in Hnd as (_ & Hnd & _).
  apply (Hnd g); [by apply Hsub | done].
Qed.

(** The end of exec: the old address space goes, the new one stays. *)
Lemma exec_commit_ok s i k0 k f path pt tramp tf sz sp argc entry oldpt oldsz T fl0 fs X T' fl' fs' :
  uspace k0 oldpt (proc_top tramp tf) T fl0 fs X -> Z.of_nat (length fs) = pages oldsz -> 0 <= oldsz ->
  uspace k pt (proc_top tramp tf) T' fl' fs' (tabs T ++ fs.*1 ++ X) -> keeps k0 k (tabs T) -> tf ∈ X ->
  exists k' fl6,
    (onk (upd_mem (fun m => store64 m (tf + TF_A1) sp)) ;;
     upd_proc i (fun p => set_name (safestrcpy_bytes (p_name p) (last_name path ++ [0]) 16) p) ;;
     upd_proc i (set_pagetable pt) ;;
     upd_proc i (set_sz sz) ;;
     onk (upd_mem (fun m => store64 m (tf + TF_EPC) entry)) ;;
     onk (upd_mem (fun m => store64 m (tf + TF_SP) sp)) ;;
     onk (proc_freepagetable oldpt oldsz) ;;
     ret argc) (at_ s k f) = Ok (argc : Z) (at_ (with_procs (alter (exec_proc path pt sz) i (procs s)) s) k' f) /\
    uspace k' pt (proc_top tramp tf) T' fl6 fs' X /\ fl6 ≡ₚ fl' ++ tabs T ++ fs.*1 /\
    keeps k k' fs'.*1 /\ (forall g o, g ∈ X -> g <> tf -> 0 <= o < PGSIZE -> load8 (pmem k') (g + o) = load8 (pmem k) (g + o)) /\
    regs_set (pmem k') tf sp entry.
Proof.
  intros Hold Hlen Hsz Hnew Hk Htf.
  destruct (three_stores (pmem k) tf sp entry) as [Hso Hregs]. set (m' := store64 _ _ _) in *.
  destruct (us_write k pt _ T' fl' fs' (tabs T ++ fs.*1 ++ X) tf m' Hnew) as [Hnew1 Hk1]; [set_solver | done|].
  set (k1 := set_mem m' k) in *. pose proof (us_ok _ _ _ _ _ _ _ Hold tf ltac:(set_solver)) as Htfok.
  assert (tf ∉ fs'.*1 /\ tf ∉ tabs T) as [Htf1 Htf2].
  { split; [eapply page_apart; [exact Hnew | set_solver | done]|]. intros Hin.
    pose proof (us_nodup _ _ _ _ _ _ _ Hold) as Hnd. apply NoDup_app in Hnd as (_ & _ & Hnd).
    apply NoDup_app in Hnd as (_ & Hnd & _). apply (Hnd tf); [done | set_solver]. }
  assert (uspace k1 oldpt (proc_top tramp tf) T fl' fs (tabs T' ++ fs'.*1 ++ X)) as Hold1.
  { eapply us_restore; [exact Hold | eapply others_perm; [apply (us_others _ _ _ _ _ _ _ Hnew1) | apply beside_perm]|].
    intros g o Hg Ho. rewrite <- Hk by done. apply Hk1; [set_solver | by intros -> | done]. }
  destruct (proc_freepagetable_ok k1 oldpt tramp tf T fl' fs (tabs T' ++ fs'.*1 ++ X) oldsz Hold1 Hsz Hlen) as (k2 & fl6 & E2 & O2 & Hp2 & Hk2).
  exists k2, fl6. split; [|split; [|split; [done|split; [|split]]]].
  - erewrite bind_run by (by apply onk_at). rewrite (bind_run _ _ _ _ _ (upd_proc_at _ _ _ _ _)).
    rewrite (bind_run _ _ _ _ _ (upd_proc_at _ _ _ _ _)), (bind_run _ _ _ _ _ (upd_proc_at _ _ _ _ _)).
    erewrite bind_run by (by apply onk_at). erewrite bind_run by (by apply onk_at).
    erewrite bind_run by (by apply onk_at). unfold ret. f_equal. unfold exec_proc. cbn [procs with_procs].
    rewrite !list_alter_alter_eq. done.
  - eapply us_restore; [exact Hnew1 | exact O2 | eapply keeps_sub; [exact Hk2 | set_solver]].
  - intros g o Hg Ho. rewrite Hk2 by (set_solver || done). apply Hk1; [set_solver | by intros -> | done].
  - intros g o Hg Hne Ho. rewrite Hk2 by (set_solver || done). apply Hk1; [set_solver | done | done].
  - assert (forall a, 0 <= a -> a + 8 <= PGSIZE -> load64 (pmem k2) (tf + a) = load64 (pmem k1) (tf + a)) as Hw.
    { intros a Ha Ha'. apply load64_ext. intros x Hx. replace x with (tf + (x - tf)) by lia. apply Hk2; [set_solver | lia]. }
    unfold regs_set. rewrite !Hw by (unfold TF_A1, TF_EPC, TF_SP, PGSIZE; lia). apply Hregs.
Qed.

Lemma new_program_keep k k' fs fs' img sp sz strs :
  keeps k k' fs'.*1 -> new_program k fs fs' img sp sz strs -> new_program k' fs fs' img sp sz strs.
Proof.
  intros Hk (gd & st & Ef & Esz & Hh & ptrs & Hl & Hb & Hal & Htop & Hp & Hz & Hs). assert (st ∈ fs'.*1 /\ fs.*1 ⊆ fs'.*1) as [Hst Hsub].
  { rewrite Ef, fmap_app. split; set_solver. }
  assert (forall a, 0 <= a -> a + 8 <= PGSIZE -> load64 (pmem k') (st + a) = load64 (pmem k) (st + a)) as Hw.
  { intros a Ha Ha'. apply load64_ext. intros x Hx. replace x with (st + (x - st)) by lia. apply Hk; [done | lia]. }
  exists gd, st. split; [done|]. split; [done|]. split.
  { intros j f p o Hj Ho. rewrite Hk; [by eapply Hh | | done]. apply Hsub, list_elem_of_fmap. exists (f, p).
    split; [done|]. by eapply list_elem_of_lookup_2. }
  exists ptrs. split_and!; try done.
  - intros i u Hi. pose proof (lookup_lt_Some _ _ _ Hi). rewrite <- Z.add_assoc, Hw, Z.add_assoc by lia. by apply Hp.
  - by rewrite <- Z.add_assoc, Hw, Z.add_assoc by lia.
  - intros i u l Hi Hl'. destruct (Hs _ _ _ Hi Hl') as (H1 & H2 & H3). split_and!; [done | done|]. intros o b Hob.
    pose proof (lookup_lt_Some _ _ _ Hob) as Hol. rewrite length_app in Hol. cbn [length] in Hol.
    rewrite <- Z.add_assoc, Hk, Z.add_assoc by (done || lia). by apply H3.
Qed.

(** A process ready to call exec: its address space, the pages of the kernel
    it uses, and the strings of argv in pages of the kernel. *)
Record exec_pre (ustack ks : Z) (s : pk F) (i : nat) (T : gmap (list Z) Z) (fl : list Z) (fs : list (Z * Z)) (X : list Z)
    (argv : list Z) (strs : list (list Z)) : Prop := {
  ep_cur : cur s = Some i;
  ep_us : uspace (kmem s) (p_pagetable (getp s i)) (proc_top (trampoline s) (p_trapframe (getp s i))) T fl fs X;
  ep_len : Z.of_nat (length fs) = pages (p_sz (getp s i));
  ep_sz : 0 <= p_sz (getp s i);
  ep_tf : p_trapframe (getp s i) ∈ X;
  ep_tramp : 0 <= trampoline s < 2 ^ 63;
  ep_ks : ks ∈ X;
  ep_ustack : ks <= ustack /\ ustack + 8 * 32 <= ks + PGSIZE;
  ep_args : Forall2 (arg_ok (kmem s) X ks) argv strs;
  ep_argc : (length argv < 32)%nat;
  ep_fs : xl_at (fsys s) Idle;
}.

(** exec gave up. *)
Definition unchanged (ks : Z) (s s' : pk F) (i : nat) (T : gmap (list Z) Z) (fl : list Z) (fs : list (Z * Z)) (X : list Z) : Prop :=
  exists k' f' fl', s' = at_ s k' f' /\ xl_at f' Idle /\
    uspace k' (p_pagetable (getp s i)) (proc_top (trampoline s) (p_trapframe (getp s i))) T fl' fs X /\ fl' ≡ₚ fl /\
    forall g o, g ∈ fs.*1 ++ X -> g <> ks -> 0 <= o < PGSIZE -> load8 (pmem k') (g + o) = load8 (pmem (kmem s)) (g + o).

(** exec replaced the program by the one in the file [data]. *)
Definition replaced (ks : Z) (s s' : pk F) (i : nat) (T : gmap (list Z) Z) (fl : list Z) (fs : list (Z * Z)) (X : list Z)
    (data : list Z) (path : list Z) (strs : list (list Z)) : Prop :=
  let tf := p_trapframe (getp s i) in
  let elf := slice data 0 ELFHDR_SIZE in
  exists k' f' pt T' fl' fs' sz sp fsi,
    s' = at_ (with_procs (alter (exec_proc path pt sz) i (procs s)) s) k' f' /\ xl_at f' Idle /\
    uspace k' pt (proc_top (trampoline s) tf) T' fl' fs' X /\
    fl' ++ tabs T' ++ fs'.*1 ≡ₚ fl ++ tabs T ++ fs.*1 /\ Z.of_nat (length fs') = pages sz /\
    e_magic elf = ELF_MAGIC /\ regs_set (pmem k') tf sp (e_entry elf) /\
    new_program k' fsi fs' (loaded (Z.to_nat (e_phnum elf)) data (i32 (e_phoff elf)) (fun _ => 0)) sp sz strs /\
    forall g o, g ∈ X -> g <> ks -> g <> tf -> 0 <= o < PGSIZE -> load8 (pmem k') (g + o) = load8 (pmem (kmem s)) (g + o).

Lemma left_alone ks s i T fl fs X k' f' fl' :
  uspace (kmem s) (p_pagetable (getp s i)) (proc_top (trampoline s) (p_trapframe (getp s i))) T fl fs X -> ks ∈ X ->
  others k' fl' (tabs T ++ fs.*1 ++ X) -> fl' ≡ₚ fl -> xl_at f' Idle ->
  (forall g o, g ∈ tabs T ++ fs.*1 ++ X -> g <> ks -> 0 <= o < PGSIZE -> load8 (pmem k') (g + o) = load8 (pmem (kmem s)) (g + o)) ->
  unchanged ks s (at_ s k' f') i T fl fs X.
Proof.
  intros Hu Hks Ho Hp Hf Hk. exists k', f', fl'. split; [done|]. split; [done|]. split; [|split; [done|]].
  - eapply us_restore; [exact Hu | exact Ho|]. intros g o Hg Hoo. apply Hk; [set_solver | | done]. intros ->.
    pose proof (us_nodup _ _ _ _ _ _ _ Hu) as Hnd. apply NoDup_app in Hnd as (_ & _ & Hnd).
    apply NoDup_app in Hnd as (_ & Hnd & _). apply (Hnd ks); [done | set_solver].
  - intros g o Hg Hne Hoo. apply Hk; [set_solver | done | done].
Qed.

(** From the end of the transaction on. *)
Lemma exec_tail_ok ustack ks s i T fl fs X path argv strs ip data k f pt sz T4 fl4 fs4 :
  let Y := tabs T ++ fs.*1 ++ X in
  let elf := slice data 0 ELFHDR_SIZE in
  let img := loaded (Z.to_nat (e_phnum elf)) data (i32 (e_phoff elf)) (fun _ => 0) in
  exec_pre ustack ks s i T fl fs X argv strs -> keeps (kmem s) k Y -> xl_file path data ->
  loading k pt (proc_top (trampoline s) (p_trapframe (getp s i))) Y f ip data fl sz T4 fl4 fs4 ->
  e_magic elf = ELF_MAGIC -> image k fs4 img ->
  exists r s', (onf (xf_iunlockput ip) ;;
      onf fe_end_op ;;
      let* p := theproc i in
      let oldsz := p_sz p in
      let* x := user_stack ustack pt sz argv in
      let '(r, sz) := x in
      match r with
      | None => exec_bad pt sz 0
      | Some (argc, sp) =>
          onk (upd_mem (fun m => store64 m (p_trapframe p + TF_A1) sp)) ;;
          upd_proc i (fun p => set_name (safestrcpy_bytes (p_name p) (last_name path ++ [0]) 16) p) ;;
          let oldpagetable := p_pagetable p in
          upd_proc i (set_pagetable pt) ;;
          upd_proc i (set_sz sz) ;;
          onk (upd_mem (fun m => store64 m (p_trapframe p + TF_EPC) (e_entry elf))) ;;
          onk (upd_mem (fun m => store64 m (p_trapframe p + TF_SP) sp)) ;;
          onk (proc_freepagetable oldpagetable oldsz) ;;
          ret argc
      end) (at_ s k f) = Ok r s' /\
    (r = -1 /\ unchanged ks s s' i T fl fs X \/
     r = Z.of_nat (length argv) /\ replaced ks s s' i T fl fs X data path strs).
Proof.
  intros Y elf img [Hc Hu Hlen Hsz Htf Htr Hks Hus Hargs Hargc Hf] Hk4 Hfile [Hu4 Hall4 Hf4 Hlen4 Hsz4] Hmg Him.
  destruct (xl_iunlockput f ip data Hf4) as (f5 & Ef5 & Hf5). rewrite (bind_run _ _ _ _ _ (onf_at _ _ _ _ _ _ Ef5)).
  destruct (xl_end f5 Hf5) as (f6 & Ef6 & Hf6). rewrite (bind_run _ _ _ _ _ (onf_at _ _ _ _ _ _ Ef6)).
  unfold theproc, gets. erewrite bind_run by reflexivity. change (getp (at_ s k f6) i) with (getp s i). cbv zeta.
  assert (ks ∈ Y) as HksY by (unfold Y; set_solver).
  assert (Forall2 (arg_ok k Y ks) argv strs) as Hargs4.
  { eapply Forall2_impl; [exact Hargs|]. intros a l (g & Hg & Hgk & Ha & Hl & Hs). exists g. split; [unfold Y; set_solver|].
    split_and!; try done. eapply holds_str_ext; [|exact Hs]. intros x Hx. replace x with (g + (x - g)) by lia.
    apply Hk4; [unfold Y; set_solver | lia]. }
  destruct (user_stack_ok s f6 ustack pt _ T4 fl4 fs4 Y ks argv strs sz k img fl Hu4 Hall4 Hlen4 Hsz4 Him HksY Hus Hargs4 Hargc)
    as (r & sz' & k7 & T7 & fl7 & fs7 & E7 & [Hu7 Hall7 Hlen7 Hsz7 Hk7] & C7).
  rewrite (bind_run _ _ _ _ _ E7).
  assert (forall g o, g ∈ Y -> g <> ks -> 0 <= o < PGSIZE -> load8 (pmem k7) (g + o) = load8 (pmem (kmem s)) (g + o)) as Hk07.
  { intros g o Hg Hne Ho. rewrite Hk7 by done. by apply Hk4. }
  destruct C7 as [->|(sp & -> & Hprog)].
  - destruct (exec_bad_ok s k7 f6 pt _ _ T7 fl7 fs7 Y sz' 0 Idle Hu7 Hlen7 Hsz7 Hf6) as (k8 & f8 & fl8 & E8 & Hf8 & O8 & Hp8 & Hk8); [by left|].
    exists (-1), (at_ s k8 f8). split; [done|]. left. split; [done|].
    eapply left_alone; [exact Hu | done | exact O8 | by rewrite Hp8 | done|]. intros g o Hg Hne Ho. rewrite Hk8 by done. by apply Hk07.
  - assert (ks ∉ tabs T) as Hkt.
    { intros Hin. pose proof (us_nodup _ _ _ _ _ _ _ Hu) as Hnd. apply NoDup_app in Hnd as (_ & _ & Hnd).
      apply NoDup_app in Hnd as (_ & Hnd & _). apply (Hnd ks); [done | set_solver]. }
    destruct (exec_commit_ok s i (kmem s) k7 f6 path pt _ _ sz' sp (Z.of_nat (length argv)) (e_entry elf) _ _ T fl fs X T7 fl7 fs7 Hu Hlen Hsz Hu7)
      as (k8 & fl8 & E8 & Hu8 & Hp8 & Hk8 & HX8 & Hr8); [intros g o Hg Ho; apply Hk07; [unfold Y; set_solver | by intros -> | done] | done|].
    eexists _, _. split; [exact E8|]. right. split; [done|].
    exists k8, f6, pt, T7, fl8, fs7, sz', sp, fs4. split_and!; try done.
    + rewrite Hp8, Hall7, <- !app_assoc. f_equiv. rewrite (app_assoc (tabs T)), Permutation_app_comm, <- app_assoc. done.
    + by eapply new_program_keep.
    + intros g o Hg Hgk Hgt Ho. rewrite HX8 by done. apply Hk07; [unfold Y; set_solver | done | done].
Qed.

Lemma exec_ok ustack ks s i T fl fs X path argv strs :
  exec_pre ustack ks s i T fl fs X argv strs ->
  exists r s', exec ustack path argv s = Ok r s' /\
    (r = -1 /\ unchanged ks s s' i T fl fs X \/
     r = Z.of_nat (length argv) /\ exists data, xl_file path data /\ replaced ks s s' i T fl fs X data path strs).
Proof.
  intros Hpre. pose proof Hpre as [Hc Hu Hlen Hsz Htf Htr Hks Hus Hargs Hargc Hf].
  pose proof (us_others _ _ _ _ _ _ _ Hu) as HO.
  assert (0 <= p_trapframe (getp s i) < 2 ^ 63) as Htfr.
  { pose proof (us_end _ _ _ _ _ _ _ Hu) as He. pose proof (us_ok _ _ _ _ _ _ _ Hu (p_trapframe (getp s i)) ltac:(set_solver)) as Hok.
    pose proof (page_ok_bound _ _ He Hok). lia. }
  unfold exec, myproc. erewrite bind_run by (erewrite bind_run by reflexivity; by rewrite Hc).
  destruct (xl_begin _ Hf) as (f1 & Ef1 & Hf1). pose proof (onf_at fe_begin_op s (kmem s) _ _ _ Ef1) as E1.
  rewrite <- at_self in E1. rewrite (bind_run _ _ _ _ _ E1).
  destruct (xl_namei f1 path Hf1) as (ip & f2 & Ef2 & Hf2). rewrite (bind_run _ _ _ _ _ (onf_at _ _ _ _ _ _ Ef2)).
  destruct (Z.eqb_spec ip 0) as [->|Hip].
  { destruct (xl_end f2 Hf2) as (f3 & Ef3 & Hf3). rewrite (bind_run _ _ _ _ _ (onf_at _ _ _ _ _ _ Ef3)).
    eexists _, _. split; [done|]. left. split; [done|]. by eapply left_alone. }
  destruct (xl_ilock f2 path ip Hf2) as (data & f3 & Ef3 & Hf3 & Hfile & Hdata). rewrite (bind_run _ _ _ _ _ (onf_at _ _ _ _ _ _ Ef3)).
  destruct (load_image_ok s (kmem s) f3 i ip data fl _ HO Hf3 Hdata Htr Htfr) as (ok & pt & sz & elf & k4 & f4 & E4 & Hk4 & Hf4 & C4).
  rewrite (bind_run _ _ _ _ _ E4). destruct C4 as [(-> & -> & fl4 & O4 & Hp4)|(T4 & fl4 & fs4 & HL & Hok)].
  { destruct (exec_bad_none s k4 f4 ip data sz Hip Hf4) as (f5 & E5 & Hf5). cbn [negb].
    eexists _, _. split; [exact E5|]. left. split; [done|]. eapply left_alone; try done. intros g o Hg _ Ho. by apply Hk4. }
  destruct ok; cbn [negb].
  - destruct (Hok eq_refl) as (-> & Hmg & Him).
    destruct (exec_tail_ok ustack ks s i T fl fs X path argv strs ip data k4 f4 pt sz T4 fl4 fs4 Hpre Hk4 Hfile HL Hmg Him) as (r & s' & E & C).
    exists r, s'. split; [exact E|]. destruct C as [C|[-> C]]; [by left | right]. split; [done|]. by exists data.
  - destruct HL as [Hu4 Hall4 Hf4' Hlen4 Hsz4].
    destruct (exec_bad_ok s k4 f4 pt _ _ T4 fl4 fs4 _ sz ip (Open ip data) Hu4 Hlen4 Hsz4 Hf4) as (k8 & f8 & fl8 & E8 & Hf8 & O8 & Hp8 & Hk8);
      [right; eauto|].
    eexists _, _. split; [exact E8|]. left. split; [done|]. eapply left_alone; [exact Hu | done | exact O8 | by rewrite Hp8 | done|].
    intros g o Hg _ Ho. rewrite Hk8 by done. by apply Hk4.
Qed.
End exec.

(** ** A concrete instance *)

(** A file system with one file, its state the phase. *)
Definition sample_elf : list Z := [0x7f; 0x45; 0x4c; 0x46] ++ replicate 60 0.

#[local] Instance sample_fsenv : FsEnv fsphase := {
  fe_filedup f := ret f;
  fe_fileclose _ := ret tt;
  fe_idup ip := ret ip;
  fe_iput _ := ret tt;
  fe_begin_op := modify (fun _ => InOp);
  fe_end_op := modify (fun _ => Idle);
  fe_namei_root := ret 1;
}.

#[local] Instance sample_execfs : ExecFs fsphase := {
  xf_namei path := modify (fun _ => Found path 1) ;; ret 1;
  xf_ilock ip := modify (fun _ => Open ip sample_elf);
  xf_readi ip off n := gets (fun f =>
    match f with
    | Open _ data => let bs := slice data off n in (Z.of_nat (length bs), bs)
    | _ => (-1, [])
    end);
  xf_iunlockput _ := modify (fun _ => InOp);
}.

#[local] Program Instance sample_laws : ExecFsLaws fsphase := {
  xl_at f ph := f = ph;
  xl_file _ data := data = sample_elf;
}.
Next Obligation. intros f _. by exists InOp. Qed.
Next Obligation. intros f _. by exists Idle. Qed.
Next Obligation. intros f path _. by exists 1, (Found path 1). Qed.
Next Obligation.
  intros f path ip _. exists sample_elf, (Open ip sample_elf). split_and!; try done.
  unfold bytes_ok, sample_elf. apply Forall_app. split; [repeat constructor; lia | by apply Forall_replicate].
Qed.
Next Obligation.
  intros f ip data off n -> _ _. eexists _, _, _. split; [done|]. split; [done|]. by right.
Qed.
Next Obligation. intros f ip data _. by exists InOp. Qed.

(** Pages for the kernel. *)
Lemma others_kalloc s a fl Y : others s (a :: fl) Y ->
  exists s', kalloc s = Ok a s' /\ others s' fl (a :: Y).
Proof.
  intros [Hf Hn Hok]. destruct (kalloc_some s a fl Hf) as (s' & E & F & _ & _ & K & P & _ & Ha). exists s'. split; [done|].
  split; [done | by rewrite <- Permutation_middle |]. intros g [->|Hg]%elem_of_cons; unfold page_ok; rewrite K; [done | by apply Hok].
Qed.

Lemma others_write s fl Y a m : others s fl Y -> a ∈ Y -> same_out (pmem s) m a -> others (set_mem m s) fl Y.
Proof.
  intros [Hf Hn Hok] Ha Hs. split; [|done | done]. apply (free_pages_store s fl a); [done | by eapply page_ok_aligned, Hok | | done].
  intros Hin. apply NoDup_app in Hn as (_ & Hn & _). by apply (Hn a).
Qed.

(** A process of the kernel that calls exec with one argument. *)
Lemma sample_exec :
  exists ustack ks s T fl X a, exec_pre ustack ks s 0 T fl [] X [a] [[97]] .
Proof.
  destruct sample_space as (s0 & root & [|tf [|ks [|a fl]]] & Hu & Hlen); try done.
  pose proof (us_others _ _ _ _ _ _ _ Hu) as O0.
  destruct (others_kalloc _ _ _ _ O0) as (s1 & _ & O1). destruct (others_kalloc _ _ _ _ O1) as (s2 & _ & O2).
  destruct (others_kalloc _ _ _ _ O2) as (s3 & _ & O3).
  set (m := store8 (store8 (pmem s3) a 97) (a + 1) 0). set (Y := a :: ks :: tf :: _) in O3.
  assert (others (set_mem m s3) fl Y) as O4.
  { apply (others_write _ _ _ a); [done | by left|]. intros x Hx. unfold m. rewrite !load8_store8_ne by (unfold PGSIZE in *; lia). done. }
  assert (holds_str m a [97]) as Hstr.
  { split_and!; [|by unfold m; rewrite load8_store8_eq | by constructor]. cbn [length load_bytes]. unfold m.
    rewrite load8_store8_ne by lia. by rewrite load8_store8_eq. }
  assert (0 <= tf < 2 ^ 63 /\ a <> ks) as [Htf Hne].
  { split; [|pose proof (ot_nodup _ _ _ O4) as Hn; apply NoDup_app in Hn as (_ & _ & [Hn _]%NoDup_cons); set_solver].
    pose proof (ot_ok _ _ _ O4 tf ltac:(unfold Y; set_solver)) as Hok.
    pose proof (page_ok_bound _ _ (fp_end _ _ (ot_free _ _ _ O4)) Hok). lia. }
  destruct (proc_pagetable_ok (set_mem m s3) fl Y 0x80007000 tf O4) as (pt & s5 & fl5 & _ & Hk5 & C); [done | done|].
  destruct C as [(_ & _ & _ & Hl)|(_ & T & Hu5 & _)]; [cbn [length] in *; lia|].
  exists ks, ks, (Pk [set_space 0 0 pt tf zero_proc] 1 None (Some 0%nat) 0 s5 None [] 0x80007000 0 Idle), T, fl5, Y, a.
  split; try done.
  - unfold Y. set_solver.
  - unfold Y. set_solver.
  - cbn. unfold PGSIZE. lia.
  - constructor; [|constructor]. exists a. split; [by left|]. split; [done|]. split; [lia|]. split; [cbn; unfold PGSIZE; lia|].
    eapply holds_str_ext; [|exact Hstr]. intros x Hx. cbn [length] in Hx. cbn [kmem]. replace x with (a + (x - a)) by lia.
    apply Hk5; [by left | unfold PGSIZE; lia].
  - cbn. lia.
Qed.

(** ** Properties *)

(** C17: Whatever the file holds, exec returns, never panics, ends its
    transaction and unlocks its inode once. It returns -1 and the process is as
    it was: registers, page table, memory, and every page taken is free again.
    Or it returns argc: the old address space is given back; the new one holds
    the loaded segments of the file over zeros, an inaccessible page, and a
    stack where main finds the array of pointers to its arguments, each equal
    to the caller's string, and a null one; sp, a1 and the entry point are set;
    no page is lost and no other page of the kernel changes. *)
Theorem exec_all_or_nothing {F} `{FsEnv F} `{ExecFs F} `{!ExecFsLaws F} ustack ks s i T fl fs X path argv strs :
  exec_pre ustack ks s i T fl fs X argv strs ->
  exists r s', exec ustack path argv s = Ok r s' /\
    (r = -1 /\ unchanged ks s s' i T fl fs X \/
     r = Z.of_nat (length argv) /\ exists data, xl_file path data /\ replaced ks s s' i T fl fs X data path strs).
Proof. apply exec_ok. Qed.

Lemma exec_all_or_nothing_witness :
  exists ustack ks s T fl X a r s', exec_pre ustack ks s 0 T fl [] X [a] [[97]] /\
    exec ustack [47; 97] [a] s = Ok r s' /\
    (r = -1 /\ unchanged ks s s' 0 T fl [] X \/ r = 1 /\ replaced ks s s' 0 T fl [] X sample_elf [47; 97] [[97]]).
Proof.
  destruct sample_exec as (ustack & ks & s & T & fl & X & a & Hpre).
  destruct (exec_all_or_nothing ustack ks s 0 T fl [] X [47; 97] [a] [[97]] Hpre) as (r & s' & E & C).
  exists ustack, ks, s, T, fl, X, a, r, s'. split; [done|]. split; [done|].
  destruct C as [C|(-> & data & -> & C)]; [by left | by right].
Defined.
