(* ===== verification/Mkfs.v ===== *)
(** * mkfs/mkfs.c: building a file-system image

    The program that makes the disk the kernel boots from. The image is a file
    of sectors; it runs on a little-endian host. A failed assertion and die are
    [Panic]. The opening and writing of the image itself do not fail. [Mkimage]
    proves that the image is well formed and that the kernel's directory lookup
    and readi find in it the files mkfs was given. *)

From stdpp Require Import base gmap list strings.
From Stdlib Require Import ZArith Lia.
From S2P Require Import Prelude Sleeplock Bytes Bio Journal Inode Fileio Dir.

Definition FSSIZE : Z := 2000.
Definition LOGSIZE : Z := 30.
Definition NINODES : Z := 200.

(** ** The program *)

Definition nbitmap : Z := FSSIZE / (BSIZE * 8) + 1.
Definition ninodeblocks : Z := NINODES / IPB + 1.
Definition nlog : Z := LOGSIZE.
Definition nmeta : Z := 2 + nlog + ninodeblocks + nbitmap.
Definition nblocks : Z := FSSIZE - nmeta.

(** The conversions to the byte order of RISC-V: the bytes of [x] in memory,
    read back as an integer of the host. *)
Definition xshort (x : Z) : Z := ld [u8 x; u8 (Z.shiftr x 8)] 0 2.
Definition xint (x : Z) : Z := ld [u8 x; u8 (Z.shiftr x 8); u8 (Z.shiftr x 16); u8 (Z.shiftr x 24)] 0 4.

(** The global sb, as main sets it before anything reads it. *)
Definition mk_sb : superblock :=
  SB FSMAGIC (xint FSSIZE) (xint nblocks) (xint NINODES) (xint nlog) (xint 2) (xint (2 + nlog))
    (xint (2 + nlog + ninodeblocks)).

(** The image file: its sectors and how many there are; and the counters. *)
Record mkst : Type := Mk {
  img : Z -> block;
  img_end : Z;
  freeinode : Z;
  freeblock : Z;
}.
Definition set_img (V : Z -> block) (e : Z) (s : mkst) : mkst := Mk V e (freeinode s) (freeblock s).

Abbreviation MM := (M mkst).

(** The sector lseek goes to: sec * BSIZE is a uint. *)
Definition sector (sec : Z) : Z := u32 (sec * BSIZE) / BSIZE.

Definition wsect (sec : Z) (buf : block) : MM unit :=
  modify (fun s => set_img (at_ (img s) (sector sec) buf) (Z.max (img_end s) (sector sec + 1)) s).

(** Past the end of the file there is nothing to read. *)
Definition rsect (sec : Z) : MM block :=
  let* s := get in
  if sector sec <? img_end s then ret (img s (sector sec)) else panic "read".

(** A struct dinode is its 64 bytes. *)
Definition winode (inum : Z) (ip : list Z) : MM unit :=
  let bn := IBLOCK inum mk_sb in
  let* buf := rsect bn in
  wsect bn (splice buf (dinode_off inum) ip).

Definition rinode (inum : Z) : MM (list Z) :=
  let bn := IBLOCK inum mk_sb in
  let* buf := rsect bn in
  ret (slice buf (dinode_off inum) DINODE_SIZE).

(** freeinode++ and freeblock++ *)
Definition next_inode : MM Z :=
  let* s := get in
  put (Mk (img s) (img_end s) (u32 (freeinode s + 1)) (freeblock s)) ;; ret (freeinode s).
Definition next_block : MM Z :=
  let* s := get in
  put (Mk (img s) (img_end s) (freeinode s) (u32 (freeblock s + 1))) ;; ret (freeblock s).

Definition new_dinode (type : Z) : list Z :=
  st32 (st16 (st16 (replicate 64 0) 0 (xshort type)) 6 (xshort 1)) 8 (xint 0).

Definition ialloc (type : Z) : MM Z :=
  let* inum := next_inode in
  winode inum (new_dinode type) ;;
  ret inum.

Definition balloc (used : Z) : MM unit :=
  if negb (used <? BSIZE * 8) then panic "assert(used < BSIZE*8)"
  else wsect (sb_bmapstart mk_sb) (fold_left set_bit (seqZ 0 used) zero_block).

(** din.addrs[k] *)
Definition d_addr (din : list Z) (k : Z) : Z := ld32 din (12 + 4 * k).
Definition set_d_addr (din : list Z) (k v : Z) : list Z := st32 din (12 + 4 * k) v.

(** if(xint(din.addrs[k]) == 0) din.addrs[k] = xint(freeblock++); *)
Definition map_addr (din : list Z) (k : Z) : MM (list Z) :=
  if xint (d_addr din k) =? 0 then let* b := next_block in ret (set_d_addr din k (xint b)) else ret din.

(** The part of iappend's loop that finds block fbn of the file. *)
Definition iappend_block (din : list Z) (fbn : Z) : MM (list Z * Z) :=
  if fbn <? NDIRECT then
    let* din := map_addr din fbn in
    ret (din, xint (d_addr din fbn))
  else
    let* din := map_addr din NDIRECT in
    let* indirect := rsect (xint (d_addr din NDIRECT)) in
    if ind_entry indirect (fbn - NDIRECT) =? 0 then
      let* b := next_block in
      let indirect := st32 indirect (4 * (fbn - NDIRECT)) (xint b) in
      wsect (xint (d_addr din NDIRECT)) indirect ;;
      ret (din, xint (ind_entry indirect (fbn - NDIRECT)))
    else ret (din, xint (ind_entry indirect (fbn - NDIRECT))).

(** The loop, on the bytes [p] that are left; every turn takes one at least. *)
Fixpoint iappend_loop (fuel : nat) (din : list Z) (off : Z) (p : list Z) : MM (list Z * Z) :=
  match fuel with
  | O => halt NoFuel
  | S fuel =>
      let n := Z.of_nat (length p) in
      if n <=? 0 then ret (din, off)
      else
        let fbn := off / BSIZE in
        if negb (fbn <? MAXFILE) then panic "assert(fbn < MAXFILE)"
        else
          let* r := iappend_block din fbn in
          let '(din, x) := r in
          let n1 := Z.min n (u32 ((fbn + 1) * BSIZE - off)) in
          let* buf := rsect x in
          wsect x (splice buf (off - fbn * BSIZE) (take (Z.to_nat n1) p)) ;;
          iappend_loop fuel din (u32 (off + n1)) (drop (Z.to_nat n1) p)
  end.

Definition iappend (inum : Z) (xp : list Z) : MM unit :=
  let* din := rinode inum in
  let off := xint (ld32 din 8) in
  let* r := iappend_loop (S (length xp)) din off xp in
  let '(din, off) := r in
  winode inum (st32 din 8 (xint off)).

(** A struct dirent: the inode number and a name of DIRSIZ bytes. *)
Definition dirent (inum : Z) (name : list Z) : list Z :=
  splice (st16 (replicate 16 0) 0 (xshort inum)) 2 (strncpy_bytes DIRSIZ name).

(** A file of the command line: its path, and what the reads of it return up to
    the end of the file, unless it cannot be opened. *)
Record file_arg : Type := FileArg { f_path : list Z; f_reads : option (list (list Z)) }.

Definition USER : list Z := [117; 115; 101; 114; 47].   (* user/ *)
Definition UNDERSCORE : Z := 95.

Definition strip_user (path : list Z) : list Z :=
  if strncmp_bytes 5 path USER =? 0 then drop 5 path else path.
Definition strip_underscore (name : list Z) : list Z :=
  if byte_at name 0 =? UNDERSCORE then drop 1 name else name.

(** while((cc = read(fd, buf, sizeof(buf))) > 0) iappend(inum, buf, cc); *)
Fixpoint append_reads (inum : Z) (reads : list (list Z)) : MM unit :=
  match reads with
  | [] => ret tt
  | buf :: reads =>
      if 0 <? Z.of_nat (length buf) then iappend inum buf ;; append_reads inum reads else ret tt
  end.

(** The body of main's loop over the files. *)
Definition add_file (rootino : Z) (f : file_arg) : MM unit :=
  let shortname := strip_user (f_path f) in
  if existsb (Z.eqb SLASH) shortname then panic "assert(index(shortname, '/') == 0)"
  else match f_reads f with
  | None => panic "open"
  | Some reads =>
      let shortname := strip_underscore shortname in
      let* inum := ialloc T_FILE in
      iappend rootino (dirent inum shortname) ;;
      append_reads inum reads
  end.

(** The struct superblock at the start of block 1. *)
Definition sb_bytes (x : superblock) : list Z :=
  st32 (st32 (st32 (st32 (st32 (st32 (st32 (st32 (replicate 32 0)
    0 (sb_magic x)) 4 (sb_size x)) 8 (sb_nblocks x)) 12 (sb_ninodes x))
    16 (sb_nlog x)) 20 (sb_logstart x)) 24 (sb_inodestart x)) 28 (sb_bmapstart x).

(** main, from the opened image on. *)
Definition main (files : list file_arg) : MM unit :=
  modify (fun s => Mk (img s) (img_end s) (freeinode s) nmeta) ;;
  for_each (seqZ 0 FSSIZE) (fun i => wsect i zero_block) ;;
  wsect 1 (splice zero_block 0 (sb_bytes mk_sb)) ;;
  let* rootino := ialloc T_DIR in
  if negb (rootino =? ROOTINO) then panic "assert(rootino == ROOTINO)"
  else
    iappend rootino (dirent rootino [46]) ;;
    iappend rootino (dirent rootino [46; 46]) ;;
    for_each files (add_file rootino) ;;
    let* din := rinode rootino in
    let off := xint (ld32 din 8) in
    let off := u32 ((off / BSIZE + 1) * BSIZE) in
    winode rootino (st32 din 8 (xint off)) ;;
    let* s := get in
    balloc (i32 (freeblock s)).

(** The image file was just created and is empty; freeinode is 1. *)
Definition mkfs (files : list file_arg) : res mkst unit := main files (Mk (fun _ => zero_block) 0 1 0).
