(* ===== verification/Mkimage.v ===== *)
(** * The image mkfs makes

    The invariant of mkfs: every block below freeblock belongs to one file, as
    a numbered data block or as its indirect block, and every file holds the
    bytes appended to it so far. Then: the finished image is a well-formed file
    system, in which the kernel's dirlookup and readi find the files. *)

From stdpp Require Import base gmap list strings.
From Stdlib Require Import ZArith Lia.
From S2P Require Import Prelude Sleeplock Bytes Bio Journal Inode Fileio Dir Mkfs.

(** ** Bytes *)

Lemma xint_id x : 0 <= x < 2 ^ 32 -> xint x = x.
Proof.
  intros Hx. unfold xint. cbn [ld]. unfold byte_at. change (Z.to_nat 0) with 0%nat.
  change (Z.to_nat (0 + 1)) with 1%nat. change (Z.to_nat (0 + 1 + 1)) with 2%nat.
  change (Z.to_nat (0 + 1 + 1 + 1)) with 3%nat. cbn [lookup list_lookup default].
  rewrite !Z.shiftr_div_pow2 by lia. unfold u8, default. cbn. mlia.
Qed.

Lemma xshort_id x : 0 <= x < 2 ^ 16 -> xshort x = x.
Proof.
  intros Hx. unfold xshort. cbn [ld]. unfold byte_at. change (Z.to_nat 0) with 0%nat.
  change (Z.to_nat (0 + 1)) with 1%nat. cbn [lookup list_lookup default].
  rewrite !Z.shiftr_div_pow2 by lia. unfold u8, default. cbn. mlia.
Qed.

Lemma ld32_range bs o : bytes_ok bs -> 0 <= ld32 bs o < 2 ^ 32.
Proof. intros Hb. apply (ld_range 4 bs o Hb). Qed.

Lemma bytes_ok_zeros n : bytes_ok (replicate n 0).
Proof. apply Forall_replicate. lia. Qed.

Lemma bytes_ok_splice bs o xs : bytes_ok bs -> bytes_ok xs -> bytes_ok (splice bs o xs).
Proof.
  intros. unfold splice, bytes_ok. apply Forall_app. split; [by apply Forall_take|].
  apply Forall_app. split; [done|]. by apply Forall_drop.
Qed.

Lemma bytes_ok_slice bs o n : bytes_ok bs -> bytes_ok (slice bs o n).
Proof. intros. by apply Forall_take, Forall_drop. Qed.

Lemma byte_at_zeros n o : byte_at (replicate n 0) o = 0.
Proof. unfold byte_at. destruct (replicate n 0 !! _) eqn:E; [|done]. by apply lookup_replicate in E as [-> _]. Qed.

Lemma ld_zeros n k o : ld (replicate n 0) o k = 0.
Proof. revert o. induction k as [|k IH]; intros; cbn [ld]; [done|]. by rewrite IH, byte_at_zeros. Qed.

Lemma byte_at_app l l' o : 0 <= o ->
  byte_at (l ++ l') o = if o <? Z.of_nat (length l) then byte_at l o else byte_at l' (o - Z.of_nat (length l)).
Proof.
  intros. unfold byte_at. destruct (Z.ltb_spec o (Z.of_nat (length l))).
  - by rewrite lookup_app_l by lia.
  - rewrite lookup_app_r by lia. do 2 f_equal. lia.
Qed.

Lemma byte_at_past l o : Z.of_nat (length l) <= o -> byte_at l o = 0.
Proof. intros. unfold byte_at. by rewrite lookup_ge_None_2 by lia. Qed.

Lemma length_slice bs o n : 0 <= o -> 0 <= n -> o + n <= Z.of_nat (length bs) -> length (slice bs o n) = Z.to_nat n.
Proof. intros. unfold slice. rewrite length_take, length_drop. lia. Qed.

Lemma ld_slice bs o n p k : 0 <= o -> 0 <= p -> p + Z.of_nat k <= n -> ld (slice bs o n) p k = ld bs (o + p) k.
Proof.
  revert p. induction k as [|k IH]; intros p Ho Hp Hn; cbn [ld]; [done|].
  rewrite byte_at_slice by lia. rewrite IH by lia. do 3 f_equal. lia.
Qed.

(** A slice of a block after other bytes of it were replaced. *)
Lemma slice_splice_ne bs o n p xs :
  0 <= o -> 0 <= n -> 0 <= p -> p + n <= Z.of_nat (length bs) -> o + Z.of_nat (length xs) <= Z.of_nat (length bs) ->
  p + n <= o \/ o + Z.of_nat (length xs) <= p -> slice (splice bs o xs) p n = slice bs p n.
Proof.
  intros Ho Hn Hp Hpn Hox Hd. pose proof (length_splice bs o xs Ho Hox) as Hl.
  apply list_eq_same_length with (n := Z.to_nat n); [apply length_slice; lia | apply length_slice; lia|].
  intros i x y Hi Hx Hy.
  assert (x = byte_at (slice (splice bs o xs) p n) (Z.of_nat i)) as -> by (unfold byte_at; by rewrite Nat2Z.id, Hx).
  assert (y = byte_at (slice bs p n) (Z.of_nat i)) as -> by (unfold byte_at; by rewrite Nat2Z.id, Hy).
  rewrite !byte_at_slice by lia. rewrite byte_at_splice by lia.
  destruct (Z.leb_spec o (p + Z.of_nat i)), (Z.ltb_spec (p + Z.of_nat i) (o + Z.of_nat (length xs))); cbn [andb]; try done. lia.
Qed.

(** ** What a file holds *)

(** Block k of the file with addresses [A]. *)
Definition blk (A : Z -> Z) (V : Z -> block) (k : Z) : Z :=
  if k <? NDIRECT then A k else if A NDIRECT =? 0 then 0 else ind_entry (V (A NDIRECT)) (k - NDIRECT).

(** Who owns a block: an inode and the number of the block in its file,
    MAXFILE for the indirect block. *)
Definition owners : Type := Z -> option (Z * Z).

(** The file of inode [inum] has its first [nb] blocks, and its indirect block
    if [hi]; it holds [bs], and zeros up to the end of its last block. *)
Record holds (own : owners) (V : Z -> block) (A : Z -> Z) (inum : Z) (hi : bool) (nb : Z) (bs : list Z) : Prop := {
  h_nb : 0 <= nb <= MAXFILE;
  h_hi : if hi then own (A NDIRECT) = Some (inum, MAXFILE) else A NDIRECT = 0 /\ nb <= NDIRECT;
  h_map : forall k, 0 <= k < nb -> own (blk A V k) = Some (inum, k);
  h_unmap : forall k, nb <= k < MAXFILE -> blk A V k = 0;
  h_len : Z.of_nat (length bs) <= nb * BSIZE;
  h_byte : forall k o, 0 <= k < nb -> 0 <= o < BSIZE -> byte_at (V (blk A V k)) o = byte_at bs (k * BSIZE + o);
}.

(** Only the file of [inum] changes: blocks keep their owners, and those of
    other files and of the head of the disk their contents. *)
Definition keeps (inum : Z) (own : owners) (V : Z -> block) (own' : owners) (V' : Z -> block) : Prop :=
  (forall a x, own a = Some x -> own' a = Some x) /\
  (forall a, a < nmeta \/ (exists k j, own a = Some (k, j) /\ k <> inum) -> V' a = V a).

Lemma keeps_refl inum own V : keeps inum own V own V.
Proof. done. Qed.

Lemma keeps_then inum own V own1 V1 own2 V2 :
  keeps inum own V own1 V1 -> keeps inum own1 V1 own2 V2 -> keeps inum own V own2 V2.
Proof.
  intros [A B] [A' B']. split; [eauto|]. intros a Ha. rewrite B'; [by apply B|].
  destruct Ha as [|(k & j & Ha & Hk)]; [by left | right; eauto].
Qed.

Lemma blk_ext A A' V V' k :
  0 <= k -> (forall j, 0 <= j <= NDIRECT -> A' j = A j) -> (NDIRECT <= k -> A NDIRECT <> 0 -> V' (A NDIRECT) = V (A NDIRECT)) ->
  blk A' V' k = blk A V k.
Proof.
  intros Hk HA HV. unfold blk. destruct (Z.ltb_spec k NDIRECT); [apply HA; lia|].
  rewrite (HA NDIRECT) by (unfold NDIRECT; lia). destruct (Z.eqb_spec (A NDIRECT) 0); [done|]. by rewrite HV.
Qed.

(** What a file holds depends on its addresses and its own blocks. *)
Lemma holds_ext own V A own' V' A' inum hi nb bs :
  holds own V A inum hi nb bs -> (forall k, 0 <= k <= NDIRECT -> A' k = A k) ->
  (forall a k, own a = Some (inum, k) -> own' a = Some (inum, k) /\ V' a = V a) ->
  holds own' V' A' inum hi nb bs.
Proof.
  intros [Hnb Hhi Hmap Hun Hlen Hby] HA HV.
  assert (A' NDIRECT = A NDIRECT) as Hi by (apply HA; unfold NDIRECT; lia).
  assert (forall k, 0 <= k -> blk A' V' k = blk A V k) as Hblk.
  { intros k Hk. apply blk_ext; [done|done|]. intros _ Hz. destruct hi; [|by destruct Hhi]. by eapply HV. }
  split; try done.
  - destruct hi; rewrite Hi; [by apply HV | done].
  - intros k Hk. rewrite Hblk by lia. by apply HV, Hmap.
  - intros k Hk. rewrite Hblk by lia. by apply Hun.
  - intros k o Hk Hob. rewrite Hblk by lia. rewrite (proj2 (HV _ _ (Hmap k Hk))). by apply Hby.
Qed.

Lemma holds_keeps own V own' V' A j inum hi nb bs :
  holds own V A j hi nb bs -> keeps inum own V own' V' -> j <> inum -> holds own' V' A j hi nb bs.
Proof.
  intros Hh [Ho HV] Hj. apply (holds_ext _ _ _ _ _ _ _ _ _ _ Hh); [done|].
  intros a k Ha. split; [by apply Ho|]. apply HV. right. eauto.
Qed.

(** ** The file grows *)

Lemma MAXFILE_val : MAXFILE = 268.
Proof. reflexivity. Qed.

(** A zero block at its end: the file holds the same bytes. *)
Lemma holds_more own V A inum hi nb bs own' V' A' (hi' : bool) f :
  holds own V A inum hi nb bs -> nb < MAXFILE ->
  (forall k, 0 <= k < MAXFILE -> k <> nb -> blk A' V' k = blk A V k) -> blk A' V' nb = f ->
  (if hi' then own' (A' NDIRECT) = Some (inum, MAXFILE) else A' NDIRECT = 0 /\ nb < NDIRECT) ->
  (forall a x, own a = Some x -> own' a = Some x) -> own' f = Some (inum, nb) ->
  (forall k, 0 <= k < nb -> V' (blk A V k) = V (blk A V k)) -> V' f = zero_block ->
  holds own' V' A' inum hi' (nb + 1) bs.
Proof.
  intros [Hnb Hhi Hmap Hun Hlen Hby] Hlt Hblk Hf Hhi' Ho Hof HV Hz. split; try done.
  - lia.
  - destruct hi'; [done|]. split; [apply Hhi' | lia].
  - intros k Hk. destruct (decide (k = nb)) as [->|]; [by rewrite Hf|]. rewrite Hblk by lia. apply Ho, Hmap. lia.
  - intros k Hk. rewrite Hblk by lia. apply Hun. lia.
  - unfold BSIZE in *. lia.
  - intros k o Hk Hob. destruct (decide (k = nb)) as [->|].
    + rewrite Hf, Hz. unfold zero_block. rewrite byte_at_zeros, byte_at_past; [done|]. lia.
    + rewrite Hblk, HV by lia. apply Hby; lia.
Qed.

(** A direct block. *)
Lemma holds_direct own V A inum nb bs own' A' f :
  holds own V A inum false nb bs -> nb < NDIRECT ->
  A' nb = f -> (forall k, 0 <= k <= NDIRECT -> k <> nb -> A' k = A k) ->
  (forall a x, own a = Some x -> own' a = Some x) -> own' f = Some (inum, nb) -> V f = zero_block ->
  holds own' V A' inum false (nb + 1) bs.
Proof.
  intros Hh Hlt HA HA' Ho Hof Hz. pose proof (h_nb _ _ _ _ _ _ _ Hh) as Hnb. pose proof (h_hi _ _ _ _ _ _ _ Hh) as [Hi _].
  assert (A' NDIRECT = 0) as Hi' by (rewrite HA'; [done | unfold NDIRECT; lia | lia]).
  apply (holds_more own V A inum false nb bs own' V A' false f); try done.
  - rewrite MAXFILE_val. unfold NDIRECT in *. lia.
  - intros k Hk Hne. unfold blk. rewrite Hi, Hi'. destruct (Z.ltb_spec k NDIRECT); [apply HA'; lia | done].
  - unfold blk. by rewrite (proj2 (Z.ltb_lt _ _) Hlt).
Qed.

(** The indirect block. *)
Lemma holds_indirect own V A inum bs own' A' f :
  holds own V A inum false NDIRECT bs ->
  A' NDIRECT = f -> (forall k, 0 <= k < NDIRECT -> A' k = A k) ->
  (forall a x, own a = Some x -> own' a = Some x) -> own' f = Some (inum, MAXFILE) -> V f = zero_block ->
  holds own' V A' inum true NDIRECT bs.
Proof.
  intros [Hnb [Hi _] Hmap Hun Hlen Hby] Hf HA Ho Hof Hz.
  assert (forall k, 0 <= k < NDIRECT -> blk A' V k = blk A V k) as Hlow.
  { intros k Hk. unfold blk. rewrite (proj2 (Z.ltb_lt _ _)) by lia. by apply HA. }
  split; try done.
  - by rewrite Hf.
  - intros k Hk. rewrite Hlow by lia. by apply Ho, Hmap.
  - intros k Hk. unfold blk. rewrite (proj2 (Z.ltb_ge _ _)) by lia. rewrite Hf, Hz. unfold ind_entry, ld32, zero_block.
    rewrite ld_zeros. by destruct (_ =? _).
  - intros k o Hk Hob. rewrite Hlow by lia. by apply Hby.
Qed.

(** An entry of the indirect block. *)
Lemma holds_entry own V A inum nb bs own' f :
  holds own V A inum true nb bs -> NDIRECT <= nb < MAXFILE -> own 0 = None ->
  (forall b, length (V b) = Z.to_nat BSIZE) ->
  (forall a x, own a = Some x -> own' a = Some x) -> own f = None -> own' f = Some (inum, nb) ->
  0 <= f < 2 ^ 32 -> V f = zero_block ->
  holds own' (at_ V (A NDIRECT) (st32 (V (A NDIRECT)) (4 * (nb - NDIRECT)) f)) A inum true (nb + 1) bs.
Proof.
  intros Hh Hnb H0 HV Ho Hf Hof Hfr Hz. pose proof (h_hi _ _ _ _ _ _ _ Hh) as Hi. cbn iota in Hi.
  assert (A NDIRECT <> 0) as Hn0 by congruence. assert (A NDIRECT <> f) as Hnf by congruence.
  assert (Z.of_nat (length (V (A NDIRECT))) = 1024) as Hl by (rewrite HV; reflexivity).
  rewrite MAXFILE_val in Hnb. unfold NDIRECT in Hnb.
  set (V' := at_ V _ _). assert (forall k, NDIRECT <= k -> blk A V' k =
    ld32 (st32 (V (A NDIRECT)) (4 * (nb - NDIRECT)) f) (4 * (k - NDIRECT))) as Hb.
  { intros k Hk. unfold blk. rewrite (proj2 (Z.ltb_ge _ _)), (proj2 (Z.eqb_neq _ _) Hn0) by lia.
    unfold V'. by rewrite at_eq. }
  apply (holds_more own V A inum true nb bs own' V' A true f); try done.
  - rewrite MAXFILE_val. lia.
  - intros k Hk Hne. destruct (Z.ltb_spec k NDIRECT) as [Hlt|Hge].
    + unfold blk. by rewrite (proj2 (Z.ltb_lt _ _) Hlt).
    + rewrite Hb by lia. unfold blk. rewrite (proj2 (Z.ltb_ge _ _)), (proj2 (Z.eqb_neq _ _) Hn0) by lia.
      unfold NDIRECT in *. rewrite ld32_st32_out by lia. done.
  - unfold NDIRECT in *. rewrite Hb by lia. rewrite ld32_st32 by lia. by apply u32_id.
  - by apply Ho.
  - intros k Hk. unfold V'. rewrite at_ne; [done|]. intros E.
    pose proof (h_map _ _ _ _ _ _ _ Hh k Hk) as Hm. rewrite E, Hi in Hm. injection Hm. rewrite MAXFILE_val. lia.
  - unfold V'. by rewrite at_ne.
Qed.

(** Bytes behind the end, in the last block. *)
Lemma holds_write own V A inum hi nb bs k q :
  holds own V A inum hi nb bs -> (forall b, length (V b) = Z.to_nat BSIZE) -> 0 <= k < nb ->
  k * BSIZE <= Z.of_nat (length bs) -> Z.of_nat (length bs + length q) <= (k + 1) * BSIZE -> own 0 = None ->
  holds own (at_ V (blk A V k) (splice (V (blk A V k)) (Z.of_nat (length bs) - k * BSIZE) q)) A inum hi nb (bs ++ q).
Proof.
  intros [Hnb Hhi Hmap Hun Hlen Hby] HV Hk Hlo Hq H0. set (x := blk A V k). set (V' := at_ V x _).
  assert (Z.of_nat (length (V x)) = 1024) as Hl by (rewrite HV; reflexivity). unfold BSIZE in *.
  assert (own x = Some (inum, k)) as Hx by (by apply Hmap).
  assert (forall j, 0 <= j -> blk A V' j = blk A V j) as Hblk.
  { intros j Hj. apply blk_ext; [done|done|]. intros _ Hz. unfold V'. apply at_ne. intros E.
    destruct hi; [|by destruct Hhi]. rewrite E, Hx in Hhi. injection Hhi. lia. }
  split; try done.
  - intros j Hj. rewrite Hblk by lia. by apply Hmap.
  - intros j Hj. rewrite Hblk by lia. by apply Hun.
  - rewrite length_app. unfold BSIZE. lia.
  - intros j o Hj Hob. rewrite Hblk by lia. rewrite byte_at_app by (unfold BSIZE; lia). destruct (decide (j = k)) as [->|Hne].
    + fold x. unfold V'. rewrite at_eq, byte_at_splice by lia. pose proof (Hby k o Hk Hob) as Hbk.
      fold x in Hbk. unfold BSIZE in *. rewrite Hbk.
      destruct (Z.leb_spec (Z.of_nat (length bs) - k * 1024) o), (Z.ltb_spec (k * 1024 + o) (Z.of_nat (length bs)));
        try lia; cbn [andb]; [|done].
      destruct (Z.ltb_spec o (Z.of_nat (length bs) - k * 1024 + Z.of_nat (length q))).
      * f_equal. lia.
      * rewrite !byte_at_past by lia. done.
    + unfold V'. rewrite at_ne.
      2: { intros E. specialize (Hmap j Hj). rewrite E, Hx in Hmap. injection Hmap. lia. }
      rewrite (Hby j o Hj Hob). unfold BSIZE in *. destruct (Z.ltb_spec (j * 1024 + o) (Z.of_nat (length bs))); [done|].
      rewrite !byte_at_past; [done | nia | nia].
Qed.

(** ** The state of mkfs *)

Record image (s : mkst) (own : owners) : Prop := {
  im_end : img_end s = FSSIZE;
  im_len : forall b, length (img s b) = Z.to_nat BSIZE;
  im_bytes : forall b, bytes_ok (img s b);
  im_fb : nmeta <= freeblock s <= FSSIZE;
  im_own : forall b x, own b = Some x -> nmeta <= b < freeblock s;
  im_fresh : forall b, b < 0 \/ freeblock s <= b -> img s b = zero_block;
}.

Definition dinode_ok (din : list Z) : Prop := length din = Z.to_nat DINODE_SIZE /\ bytes_ok din.

Lemma nmeta_val : nmeta = 46.
Proof. reflexivity. Qed.

Lemma im_own_0 s own : image s own -> own 0 = None.
Proof.
  intros Hi. destruct (own 0) eqn:E; [|done]. pose proof (im_own _ _ Hi _ _ E). rewrite nmeta_val in *. lia.
Qed.

Lemma im_own_fresh s own : image s own -> own (freeblock s) = None.
Proof. intros Hi. destruct (own (freeblock s)) eqn:E; [|done]. pose proof (im_own _ _ Hi _ _ E). lia. Qed.

Lemma sector_id b : 0 <= b < FSSIZE -> sector b = b.
Proof. intros. unfold sector, FSSIZE, BSIZE in *. rewrite u32_id by lia. mlia. Qed.

Definition with_block (s : mkst) : mkst := Mk (img s) (img_end s) (freeinode s) (freeblock s + 1).
Definition with_sect (b : Z) (d : block) (s : mkst) : mkst := Mk (at_ (img s) b d) FSSIZE (freeinode s) (freeblock s).

Lemma rsect_run s own b : image s own -> 0 <= b < FSSIZE -> rsect b s = Ok (img s b) s.
Proof.
  intros Hi Hb. unfold rsect. rewrite (bind_run get _ _ s s eq_refl), sector_id, (im_end _ _ Hi) by done.
  by rewrite (proj2 (Z.ltb_lt _ _)) by lia.
Qed.

Lemma wsect_run s own b d : image s own -> 0 <= b < FSSIZE -> wsect b d s = Ok tt (with_sect b d s).
Proof.
  intros Hi Hb. unfold wsect, modify, set_img, with_sect. rewrite sector_id, (im_end _ _ Hi) by done.
  by rewrite Z.max_l by lia.
Qed.

Lemma image_sect s own b d :
  image s own -> 0 <= b < freeblock s -> length d = Z.to_nat BSIZE -> bytes_ok d -> image (with_sect b d s) own.
Proof.
  intros [He Hl Hy Hf Ho Hz] Hb Hd Hdb. split; cbn [with_sect img img_end freeblock]; try done.
  - intros c. unfold at_. by destruct (_ =? _).
  - intros c. unfold at_. by destruct (_ =? _).
  - intros c Hc. rewrite at_ne by lia. by apply Hz.
Qed.

Lemma next_block_run s own : image s own -> freeblock s < FSSIZE -> next_block s = Ok (freeblock s) (with_block s).
Proof.
  intros Hi Hf. unfold next_block. rewrite (bind_run get _ _ s s eq_refl).
  pose proof (im_fb _ _ Hi). rewrite nmeta_val in *. unfold FSSIZE in *. by rewrite u32_id by lia.
Qed.

Lemma image_block s own x :
  image s own -> freeblock s < FSSIZE -> image (with_block s) (at_ own (freeblock s) (Some x)).
Proof.
  intros [He Hl Hy Hf Ho Hz] Hlt. split; cbn [with_block img img_end freeblock]; try done.
  - lia.
  - intros b y. unfold at_. destruct (Z.eqb_spec b (freeblock s)); [lia|]. intros E. specialize (Ho _ _ E). lia.
  - intros b Hb. apply Hz. lia.
Qed.

Lemma owns_more s own x : image s own -> forall a y, own a = Some y -> at_ own (freeblock s) (Some x) a = Some y.
Proof.
  intros Hi a y Ha. rewrite at_ne; [done|]. intros ->. rewrite (im_own_fresh _ _ Hi) in Ha. done.
Qed.

(** *** The struct dinode in memory *)

Lemma d_addr_range din k : dinode_ok din -> 0 <= d_addr din k < 2 ^ 32.
Proof. intros [_ Hb]. by apply ld32_range. Qed.

Lemma dinode_ok_set din k v : dinode_ok din -> dinode_ok (set_d_addr din k v).
Proof. intros [Hl Hb]. split; [by unfold set_d_addr, st32; rewrite length_st | by apply bytes_ok_st]. Qed.

Lemma d_addr_set din k v j :
  dinode_ok din -> 0 <= k <= NDIRECT -> 0 <= j <= NDIRECT -> 0 <= v < 2 ^ 32 ->
  d_addr (set_d_addr din k v) j = if j =? k then v else d_addr din j.
Proof.
  intros [Hl _] Hk Hj Hv. unfold d_addr, set_d_addr, NDIRECT, DINODE_SIZE in *. destruct (Z.eqb_spec j k) as [->|Hne].
  - rewrite ld32_st32 by lia. by apply u32_id.
  - by rewrite ld32_st32_out by lia.
Qed.

Lemma byte_head_set din k v p : 0 <= k -> 0 <= p < 12 -> byte_at (set_d_addr din k v) p = byte_at din p.
Proof. intros. unfold set_d_addr, st32. apply byte_at_st_out; lia. Qed.

(** *** Finding the block to append to *)

(** While iappend works on inode [inum] of which [din] is the copy: [base] and
    [fi] are the counters, without the blocks of the file, and [hd] is the part
    of the copy that does not change. *)
Record writing (inum base fi : Z) (hd : list Z) (own : owners) (s : mkst) (din : list Z) (hi : bool) (nb : Z) (bs : list Z) : Prop := {
  wr_image : image s own;
  wr_din : dinode_ok din;
  wr_holds : holds own (img s) (d_addr din) inum hi nb bs;
  wr_base : freeblock s = base + nb + b2z hi;
  wr_ino : freeinode s = fi;
  wr_head : forall p, 0 <= p < 12 -> byte_at din p = byte_at hd p;
}.

Lemma map_addr_old din k s : dinode_ok din -> d_addr din k <> 0 -> map_addr din k s = Ok din s.
Proof.
  intros Hd Hz. unfold map_addr. rewrite xint_id by (by apply d_addr_range). by rewrite (proj2 (Z.eqb_neq _ _) Hz).
Qed.

Lemma map_addr_new din k s own :
  image s own -> dinode_ok din -> d_addr din k = 0 -> freeblock s < FSSIZE ->
  map_addr din k s = Ok (set_d_addr din k (freeblock s)) (with_block s).
Proof.
  intros Hi Hd Hz Hf. unfold map_addr. rewrite Hz. change (xint 0 =? 0) with true. cbn iota.
  rewrite (bind_run _ _ _ _ _ (next_block_run s own Hi Hf)). pose proof (im_fb _ _ Hi).
  rewrite nmeta_val in *. unfold FSSIZE in *. by rewrite xint_id by lia.
Qed.

Lemma map_direct inum base fi hd own s din nb bs :
  writing inum base fi hd own s din false nb bs -> nb < NDIRECT -> freeblock s < FSSIZE ->
  exists s' own' din', map_addr din nb s = Ok din' s' /\
    writing inum base fi hd own' s' din' false (nb + 1) bs /\ keeps inum own (img s) own' (img s').
Proof.
  intros [Hi Hd Hh Hb Hf Hhd] Hn Hlt. pose proof (h_nb _ _ _ _ _ _ _ Hh) as Hnb. pose proof (im_fb _ _ Hi) as Hfb.
  assert (0 <= nb <= NDIRECT) as Hn1 by lia. rewrite nmeta_val in Hfb. unfold FSSIZE in *.
  assert (d_addr din nb = 0) as Hz.
  { pose proof (h_unmap _ _ _ _ _ _ _ Hh nb) as Hu. unfold blk in Hu. rewrite (proj2 (Z.ltb_lt _ _) Hn) in Hu.
    apply Hu. rewrite MAXFILE_val. unfold NDIRECT in *. lia. }
  eexists _, (at_ own (freeblock s) (Some (inum, nb))), _. split; [by eapply map_addr_new|]. split; [|split; [by apply owns_more | done]].
  split; cbn [with_block img freeblock freeinode]; try done.
  - by apply image_block.
  - by apply dinode_ok_set.
  - apply (holds_direct own (img s) (d_addr din) inum nb bs _ _ (freeblock s)); try done.
    + by rewrite d_addr_set, Z.eqb_refl by (done || lia).
    + intros k Hk Hne. rewrite d_addr_set by (done || lia). by rewrite (proj2 (Z.eqb_neq _ _) Hne).
    + by apply owns_more.
    + by rewrite at_eq.
    + apply (im_fresh _ _ Hi). lia.
  - cbn [b2z] in *. lia.
  - intros p Hp. rewrite byte_head_set by lia. by apply Hhd.
Qed.

Lemma map_indirect inum base fi hd own s din bs :
  writing inum base fi hd own s din false NDIRECT bs -> freeblock s < FSSIZE ->
  exists s' own' din', map_addr din NDIRECT s = Ok din' s' /\
    writing inum base fi hd own' s' din' true NDIRECT bs /\ keeps inum own (img s) own' (img s').
Proof.
  intros [Hi Hd Hh Hb Hf Hhd] Hlt. pose proof (im_fb _ _ Hi) as Hfb. rewrite nmeta_val in Hfb. unfold FSSIZE in *.
  pose proof (h_hi _ _ _ _ _ _ _ Hh) as [Hz _].
  assert (0 <= NDIRECT <= NDIRECT) as Hn by (unfold NDIRECT; lia).
  eexists _, (at_ own (freeblock s) (Some (inum, MAXFILE))), _. split; [by eapply map_addr_new|].
  split; [|split; [by apply owns_more | done]].
  split; cbn [with_block img freeblock freeinode]; try done.
  - by apply image_block.
  - by apply dinode_ok_set.
  - apply (holds_indirect own (img s) (d_addr din) inum bs _ _ (freeblock s)); try done.
    + by rewrite d_addr_set, Z.eqb_refl by (done || lia).
    + intros k Hk. rewrite d_addr_set by (done || lia). destruct (Z.eqb_spec k NDIRECT); [lia | done].
    + by apply owns_more.
    + by rewrite at_eq.
    + apply (im_fresh _ _ Hi). lia.
  - cbn [b2z] in *. lia.
  - intros p Hp. rewrite byte_head_set by (unfold NDIRECT; lia). by apply Hhd.
Qed.

(** The rest of iappend_block for a block behind the direct ones. *)
Definition through_indirect (din : list Z) (fbn : Z) : MM (list Z * Z) :=
  let* indirect := rsect (xint (d_addr din NDIRECT)) in
  if ind_entry indirect (fbn - NDIRECT) =? 0 then
    let* b := next_block in
    let indirect := st32 indirect (4 * (fbn - NDIRECT)) (xint b) in
    wsect (xint (d_addr din NDIRECT)) indirect ;;
    ret (din, xint (ind_entry indirect (fbn - NDIRECT)))
  else ret (din, xint (ind_entry indirect (fbn - NDIRECT))).

Lemma keeps_sect s own own' inum b d j :
  image s own -> own b = Some (inum, j) -> (forall a x, own a = Some x -> own' a = Some x) ->
  keeps inum own (img s) own' (at_ (img s) b d).
Proof.
  intros Hi Hb Ho. split; [done|]. intros a Ha. apply at_ne. intros ->.
  pose proof (im_own _ _ Hi _ _ Hb) as Hr. destruct Ha as [|(k & j' & E & Hk)]; [lia|]. congruence.
Qed.

Lemma blk_entry A V k : NDIRECT <= k -> A NDIRECT <> 0 -> blk A V k = ind_entry (V (A NDIRECT)) (k - NDIRECT).
Proof. intros Hk Hz. unfold blk. by rewrite (proj2 (Z.ltb_ge _ _) Hk), (proj2 (Z.eqb_neq _ _) Hz). Qed.

Lemma entry_old inum base fi hd own s din nb bs fbn :
  writing inum base fi hd own s din true nb bs -> NDIRECT <= fbn < nb ->
  through_indirect din fbn s = Ok (din, blk (d_addr din) (img s) fbn) s.
Proof.
  intros [Hi Hd Hh Hb Hf Hhd] Hn. pose proof (h_hi _ _ _ _ _ _ _ Hh) as Ho. cbn iota in Ho.
  pose proof (im_own _ _ Hi _ _ Ho) as Hr. pose proof (im_fb _ _ Hi). rewrite nmeta_val in Hr.
  assert (0 <= fbn < nb) as Hm by (unfold NDIRECT in *; lia). apply (h_map _ _ _ _ _ _ _ Hh) in Hm.
  pose proof (im_own _ _ Hi _ _ Hm) as Hx. rewrite nmeta_val in Hx.
  rewrite blk_entry in * by lia. unfold through_indirect. rewrite xint_id by (by apply d_addr_range).
  rewrite (bind_run _ _ _ _ _ (rsect_run s own (d_addr din NDIRECT) Hi ltac:(lia))).
  rewrite (proj2 (Z.eqb_neq _ _)) by lia. rewrite xint_id; [done|]. apply ld32_range, im_bytes with (1 := Hi).
Qed.

Lemma entry_new inum base fi hd own s din nb bs :
  writing inum base fi hd own s din true nb bs -> NDIRECT <= nb < MAXFILE -> freeblock s < FSSIZE ->
  exists s' own', through_indirect din nb s = Ok (din, blk (d_addr din) (img s') nb) s' /\
    writing inum base fi hd own' s' din true (nb + 1) bs /\ keeps inum own (img s) own' (img s').
Proof.
  intros [Hi Hd Hh Hb Hf Hhd] Hn Hlt. pose proof (h_hi _ _ _ _ _ _ _ Hh) as Ho. cbn iota in Ho.
  pose proof (im_own _ _ Hi _ _ Ho) as Hr. pose proof (im_fb _ _ Hi) as Hfb.
  pose proof (h_unmap _ _ _ _ _ _ _ Hh nb ltac:(lia)) as Hz.
  set (x := d_addr din NDIRECT) in *. set (f := freeblock s) in *. set (k := 4 * (nb - NDIRECT)).
  set (s' := with_sect x (st32 (img s x) k f) (with_block s)). rewrite nmeta_val in *. unfold FSSIZE in *.
  pose proof (image_block s own (inum, nb) Hi Hlt) as Hi1.
  assert (image s' (at_ own f (Some (inum, nb)))) as Hi'.
  { apply image_sect; [done | cbn [with_block freeblock]; fold f; lia | |]; cbn [with_block img].
    - unfold st32. rewrite length_st. apply Hi.
    - apply bytes_ok_st. apply Hi. }
  assert (keeps inum own (img s) (at_ own f (Some (inum, nb))) (img s')) as Hk.
  { apply (keeps_sect s own _ inum x _ MAXFILE); [done | exact Ho | by apply owns_more]. }
  assert (writing inum base fi hd (at_ own f (Some (inum, nb))) s' din true (nb + 1) bs) as Hw.
  { split; try done; [|subst s'; cbn [b2z with_sect with_block freeblock] in *; lia].
    apply (holds_entry own (img s) (d_addr din) inum nb bs); try done.
    - by apply im_own_0 with s.
    - apply Hi.
    - by apply owns_more.
    - by apply im_own_fresh.
    - by rewrite at_eq.
    - lia.
    - apply (im_fresh _ _ Hi). lia. }
  exists s', (at_ own f (Some (inum, nb))). split; [|done].
  pose proof (h_map _ _ _ _ _ _ _ (wr_holds _ _ _ _ _ _ _ _ _ _ Hw) nb ltac:(unfold NDIRECT in *; lia)) as Hm.
  rewrite blk_entry in Hz, Hm |- * by (fold x; lia). fold x in Hz, Hm |- *.
  unfold through_indirect. fold x. rewrite xint_id by (by apply d_addr_range).
  rewrite (bind_run _ _ _ _ _ (rsect_run s own x Hi ltac:(unfold FSSIZE; lia))). rewrite Hz. change (0 =? 0) with true. cbn iota.
  rewrite (bind_run _ _ _ _ _ (next_block_run s own Hi Hlt)). cbn zeta. rewrite (xint_id (freeblock s)) by lia.
  rewrite (bind_run _ _ _ _ _ (wsect_run (with_block s) _ x _ Hi1 ltac:(unfold FSSIZE; lia))). unfold ret. f_equal. f_equal.
  fold f k s'. change (img s' x) with (at_ (img s) x (st32 (img s x) k f) x). rewrite at_eq.
  apply xint_id, ld32_range, bytes_ok_st. apply Hi.
Qed.

(** The block of the file that the next byte goes to. *)
Lemma iappend_block_run inum base fi hd own s din nb bs fbn :
  writing inum base fi hd own s din (12 <? nb) nb bs -> 0 <= fbn < MAXFILE -> nb - 1 <= fbn <= nb ->
  (let nb' := Z.max nb (fbn + 1) in base + nb' + b2z (12 <? nb') <= FSSIZE) ->
  exists s' own' din', iappend_block din fbn s = Ok (din', blk (d_addr din') (img s') fbn) s' /\
    (let nb' := Z.max nb (fbn + 1) in writing inum base fi hd own' s' din' (12 <? nb') nb' bs) /\
    keeps inum own (img s) own' (img s').
Proof.
  intros Hw Hb Hn Hroom. cbn zeta in *. pose proof (wr_base _ _ _ _ _ _ _ _ _ _ Hw) as Hbase.
  unfold iappend_block. change (fbn <? NDIRECT) with (fbn <? 12). destruct (decide (fbn = nb)) as [->|Hne].
  - rewrite (Z.max_r nb) in * by lia. destruct (Z.ltb_spec nb 12) as [Hlo|Hhi].
    + rewrite (proj2 (Z.ltb_ge 12 nb)) in Hw by lia. rewrite (proj2 (Z.ltb_ge 12 nb)) in Hbase by lia.
      rewrite (proj2 (Z.ltb_ge 12 (nb + 1))) in * by lia. cbn [b2z] in *.
      destruct (map_direct _ _ _ _ _ _ _ _ _ Hw) as (s' & own' & din' & E & Hw' & Hk); [done | lia|].
      exists s', own', din'. split; [|done]. rewrite (bind_run _ _ _ _ _ E).
      rewrite xint_id by (apply d_addr_range, (wr_din _ _ _ _ _ _ _ _ _ _ Hw')). unfold blk.
      by rewrite (proj2 (Z.ltb_lt nb NDIRECT)) by done.
    + rewrite (proj2 (Z.ltb_lt 12 (nb + 1))) in * by lia.
      assert (exists s1 own1 din1, map_addr din NDIRECT s = Ok din1 s1 /\
        writing inum base fi hd own1 s1 din1 true nb bs /\ keeps inum own (img s) own1 (img s1)) as (s1 & own1 & din1 & E & Hw1 & Hk1).
      { destruct (Z.ltb_spec 12 nb) as [Hlt|Hge].
        - exists s, own, din. split; [|split; [done | apply keeps_refl]].
          apply map_addr_old; [apply (wr_din _ _ _ _ _ _ _ _ _ _ Hw)|].
          pose proof (h_hi _ _ _ _ _ _ _ (wr_holds _ _ _ _ _ _ _ _ _ _ Hw)) as Ho. cbn iota in Ho.
          pose proof (im_own _ _ (wr_image _ _ _ _ _ _ _ _ _ _ Hw) _ _ Ho). rewrite nmeta_val in *. lia.
        - assert (nb = NDIRECT) as -> by (unfold NDIRECT; lia). cbn [b2z] in *.
          apply (map_indirect _ _ _ _ _ _ _ _ Hw). lia. }
      rewrite (bind_run _ _ _ _ _ E). fold (through_indirect din1 nb).
      destruct (entry_new _ _ _ _ _ _ _ _ _ Hw1) as (s2 & own2 & E2 & Hw2 & Hk2).
      { unfold NDIRECT. lia. }
      { pose proof (wr_base _ _ _ _ _ _ _ _ _ _ Hw1). cbn [b2z] in *. lia. }
      exists s2, own2, din1. split; [exact E2|]. split; [done|]. by eapply keeps_then.
  - rewrite (Z.max_l nb) by lia. exists s, own, din. split; [|split; [done | apply keeps_refl]].
    pose proof (wr_din _ _ _ _ _ _ _ _ _ _ Hw) as Hd. pose proof (wr_image _ _ _ _ _ _ _ _ _ _ Hw) as Hi.
    pose proof (h_map _ _ _ _ _ _ _ (wr_holds _ _ _ _ _ _ _ _ _ _ Hw) fbn ltac:(lia)) as Hm.
    pose proof (im_own _ _ Hi _ _ Hm) as Hr. rewrite nmeta_val in Hr. destruct (Z.ltb_spec fbn 12) as [Hlo|Hhi].
    + unfold blk in Hr |- *. rewrite (proj2 (Z.ltb_lt fbn NDIRECT)) in * by done.
      rewrite (bind_run _ _ _ _ _ (map_addr_old din fbn s Hd ltac:(lia))). by rewrite xint_id by (by apply d_addr_range).
    + rewrite (proj2 (Z.ltb_lt 12 nb)) in Hw by lia.
      pose proof (h_hi _ _ _ _ _ _ _ (wr_holds _ _ _ _ _ _ _ _ _ _ Hw)) as Ho. cbn iota in Ho.
      pose proof (im_own _ _ Hi _ _ Ho) as Hx. rewrite nmeta_val in Hx.
      rewrite (bind_run _ _ _ _ _ (map_addr_old din NDIRECT s Hd ltac:(lia))). fold (through_indirect din fbn).
      eapply entry_old; [done|]. unfold NDIRECT. lia.
Qed.

(** ** iappend *)

(** The blocks of [n] bytes, and with the indirect block. *)
Definition blocks_of (n : Z) : Z := (n + BSIZE - 1) / BSIZE.
Definition cost (n : Z) : Z := blocks_of n + b2z (12 <? blocks_of n).

Lemma blocks_of_mono m n : m <= n -> blocks_of m <= blocks_of n.
Proof. intros. unfold blocks_of, BSIZE. mlia. Qed.

Lemma cost_mono m n : m <= n -> cost m <= cost n.
Proof.
  intros Hmn. pose proof (blocks_of_mono m n Hmn). unfold cost.
  destruct (Z.ltb_spec 12 (blocks_of m)), (Z.ltb_spec 12 (blocks_of n)); cbn [b2z]; lia.
Qed.

Lemma writing_sect inum base fi hd own s din hi nb bs k q :
  writing inum base fi hd own s din hi nb bs -> 0 <= k < nb ->
  k * BSIZE <= Z.of_nat (length bs) -> Z.of_nat (length bs + length q) <= (k + 1) * BSIZE -> bytes_ok q ->
  let x := blk (d_addr din) (img s) k in
  let s' := with_sect x (splice (img s x) (Z.of_nat (length bs) - k * BSIZE) q) s in
  nmeta <= x < FSSIZE /\ writing inum base fi hd own s' din hi nb (bs ++ q) /\ keeps inum own (img s) own (img s').
Proof.
  intros [Hi Hd Hh Hb Hf Hhd] Hk Hlo Hq Hbq. cbn zeta.
  pose proof (h_map _ _ _ _ _ _ _ Hh k Hk) as Hm. set (x := blk _ _ k) in *.
  pose proof (im_own _ _ Hi _ _ Hm) as Hx. pose proof (im_fb _ _ Hi).
  assert (Z.of_nat (length (img s x)) = 1024) as Hl by (rewrite (im_len _ _ Hi); reflexivity).
  split; [lia|]. split; [|by apply (keeps_sect s own own inum x _ k)]. unfold BSIZE in *. split; try done.
  - apply image_sect; [done | rewrite nmeta_val in *; lia | |].
    + rewrite length_splice by lia. apply Hi.
    + apply bytes_ok_splice; [apply Hi | done].
  - apply holds_write; try done; [apply Hi | by apply im_own_0 with s].
Qed.

Lemma iappend_loop_run inum base fi hd : forall fuel own s din p bs,
  (let nb := blocks_of (Z.of_nat (length bs)) in writing inum base fi hd own s din (12 <? nb) nb bs) ->
  bytes_ok p -> (length p < fuel)%nat -> Z.of_nat (length bs + length p) <= MAXFILE * BSIZE ->
  base + cost (Z.of_nat (length bs + length p)) <= FSSIZE ->
  exists s' own' din',
    iappend_loop fuel din (Z.of_nat (length bs)) p s = Ok (din', Z.of_nat (length bs + length p)) s' /\
    (let nb := blocks_of (Z.of_nat (length bs + length p)) in writing inum base fi hd own' s' din' (12 <? nb) nb (bs ++ p)) /\
    keeps inum own (img s) own' (img s').
Proof.
  induction fuel as [|fuel IH]; intros own s din p bs Hw Hp Hfuel Hmax Hroom; [lia|].
  cbn [iappend_loop]. destruct (Z.leb_spec (Z.of_nat (length p)) 0) as [H0|Hpos].
  { destruct p; [|cbn [length] in *; lia]. cbn [length] in *. rewrite Nat.add_0_r, app_nil_r.
    exists s, own, din. split; [done|]. split; [done | apply keeps_refl]. }
  set (off := Z.of_nat (length bs)) in *. set (fbn := off / BSIZE). set (nb := blocks_of off) in *.
  rewrite MAXFILE_val in *. rewrite Nat2Z.inj_add in *. fold off in Hmax, Hroom.
  assert (0 <= fbn /\ fbn <= off / 1024 /\ nb - 1 <= fbn <= nb /\ fbn < 268) as (Hf0 & _ & Hfn & Hfm)
    by (unfold nb, fbn, blocks_of, BSIZE in *; split_and!; mlia).
  rewrite (proj2 (Z.ltb_lt fbn 268)) by done. cbn [negb].
  set (n1 := Z.min (Z.of_nat (length p)) ((fbn + 1) * BSIZE - off)).
  assert (1 <= n1 <= Z.of_nat (length p) /\ n1 <= (fbn + 1) * BSIZE - off <= BSIZE /\ fbn * BSIZE <= off) as (Hn1 & Hn2 & Hn3)
    by (unfold n1, fbn, BSIZE in *; mlia).
  assert (Z.max nb (fbn + 1) = blocks_of (off + n1)) as Hnb'
    by (unfold nb, n1, fbn, blocks_of, BSIZE in *; mlia).
  pose proof (cost_mono (off + n1) (off + Z.of_nat (length p)) ltac:(lia)) as Hcm. unfold cost in Hcm at 1.
  destruct (iappend_block_run _ _ _ _ _ _ _ _ _ fbn Hw) as (s1 & own1 & din1 & E1 & Hw1 & Hk1);
    [rewrite MAXFILE_val; lia | lia | cbn zeta; rewrite Hnb'; lia|].
  cbn zeta in Hw1. rewrite Hnb' in Hw1. rewrite (bind_run _ _ _ _ _ E1).
  rewrite (u32_id ((fbn + 1) * BSIZE - off)) by (unfold BSIZE in *; lia). fold n1.
  assert (length (take (Z.to_nat n1) p) = Z.to_nat n1) as Hlt by (rewrite length_take; lia).
  destruct (writing_sect _ _ _ _ _ _ _ _ _ _ fbn (take (Z.to_nat n1) p) Hw1) as (Hx & Hw2 & Hk2);
    [lia | done | lia | by apply Forall_take|]. fold off in Hw2, Hk2.
  set (x := blk (d_addr din1) (img s1) fbn) in *. rewrite nmeta_val in Hx.
  pose proof (wr_image _ _ _ _ _ _ _ _ _ _ Hw1) as Hi1.
  rewrite (bind_run _ _ _ _ _ (rsect_run s1 own1 x Hi1 ltac:(lia))).
  rewrite (bind_run _ _ _ _ _ (wsect_run s1 own1 x _ Hi1 ltac:(lia))).
  rewrite (u32_id (off + n1)) by (unfold BSIZE in *; lia).
  assert (off + n1 = Z.of_nat (length (bs ++ take (Z.to_nat n1) p))) as Eo by (rewrite length_app, Hlt; lia).
  assert (length (bs ++ take (Z.to_nat n1) p) + length (drop (Z.to_nat n1) p) = length bs + length p)%nat as El
    by (rewrite length_app, Hlt, length_drop; lia).
  rewrite Eo in Hw2 |- *.
  destruct (IH own1 _ din1 (drop (Z.to_nat n1) p) _ Hw2) as (s3 & own3 & din3 & E3 & Hw3 & Hk3);
    rewrite ?El, ?MAXFILE_val, ?Nat2Z.inj_add; fold off; try lia; [by apply Forall_drop | ].
  rewrite El, Nat2Z.inj_add in E3, Hw3. fold off in E3, Hw3. rewrite <- app_assoc, take_drop in Hw3.
  exists s3, own3, din3. split; [exact E3|]. split; [done|]. eapply keeps_then; [exact Hk1|]. by eapply keeps_then.
Qed.

(** *** The dinodes on the disk *)

Definition dino (V : Z -> block) (inum : Z) : list Z := slice (V (IBLOCK inum mk_sb)) (dinode_off inum) DINODE_SIZE.

(** The inodes the inode blocks have room for. *)
Definition MAXINO : Z := ninodeblocks * IPB.

Lemma IBLOCK_val inum : 0 <= inum < MAXINO -> IBLOCK inum mk_sb = 32 + inum / 16.
Proof.
  intros Hi. unfold IBLOCK. change (sb_inodestart mk_sb) with 32. change IPB with 16. change MAXINO with 208 in Hi.
  rewrite u32_id by mlia. lia.
Qed.

Lemma IBLOCK_range inum : 0 <= inum < MAXINO -> 32 <= IBLOCK inum mk_sb < 45.
Proof. intros Hi. rewrite IBLOCK_val by done. change MAXINO with 208 in Hi. mlia. Qed.

Lemma dinode_off_range inum : 0 <= dinode_off inum /\ dinode_off inum + 64 <= 1024.
Proof. unfold dinode_off. change IPB with 16. change DINODE_SIZE with 64. mlia. Qed.

Lemma dino_ok s own inum : image s own -> dinode_ok (dino (img s) inum).
Proof.
  intros Hi. pose proof (dinode_off_range inum). split; [|apply bytes_ok_slice, Hi].
  unfold dino. rewrite length_slice; [done | lia | done | rewrite (im_len _ _ Hi); change DINODE_SIZE with 64; unfold BSIZE; lia].
Qed.

Definition with_dino (inum : Z) (d : list Z) (s : mkst) : mkst :=
  with_sect (IBLOCK inum mk_sb) (splice (img s (IBLOCK inum mk_sb)) (dinode_off inum) d) s.

Lemma rinode_run s own inum : image s own -> 0 <= inum < MAXINO -> rinode inum s = Ok (dino (img s) inum) s.
Proof.
  intros Hi Hn. pose proof (IBLOCK_range inum Hn). unfold rinode.
  by rewrite (bind_run _ _ _ _ _ (rsect_run s own (IBLOCK inum mk_sb) Hi ltac:(unfold FSSIZE; lia))).
Qed.

Lemma winode_run s own inum d :
  image s own -> 0 <= inum < MAXINO -> winode inum d s = Ok tt (with_dino inum d s).
Proof.
  intros Hi Hn. pose proof (IBLOCK_range inum Hn). unfold winode.
  rewrite (bind_run _ _ _ _ _ (rsect_run s own (IBLOCK inum mk_sb) Hi ltac:(unfold FSSIZE; lia))).
  apply (wsect_run s own); [done | unfold FSSIZE; lia].
Qed.

Lemma image_dino s own inum d :
  image s own -> 0 <= inum < MAXINO -> dinode_ok d -> image (with_dino inum d s) own.
Proof.
  intros Hi Hn [Hl Hb]. pose proof (IBLOCK_range inum Hn). pose proof (dinode_off_range inum). pose proof (im_fb _ _ Hi).
  rewrite nmeta_val in *. apply image_sect; [done | lia | |].
  - rewrite length_splice; [apply Hi | lia|]. rewrite Hl, (im_len _ _ Hi). change DINODE_SIZE with 64. unfold BSIZE. lia.
  - apply bytes_ok_splice; [apply Hi | done].
Qed.

Lemma dino_same V V' inum : V' (IBLOCK inum mk_sb) = V (IBLOCK inum mk_sb) -> dino V' inum = dino V inum.
Proof. unfold dino. by intros ->. Qed.

Lemma dino_with s own inum d j :
  image s own -> 0 <= inum < MAXINO -> 0 <= j < MAXINO -> length d = Z.to_nat DINODE_SIZE ->
  dino (img (with_dino inum d s)) j = if decide (j = inum) then d else dino (img s) j.
Proof.
  intros Hi Hn Hj Hl. unfold dino, with_dino, with_sect. cbn [img].
  pose proof (dinode_off_range inum). pose proof (dinode_off_range j).
  assert (Z.of_nat (length (img s (IBLOCK inum mk_sb))) = 1024) as Hb by (rewrite (im_len _ _ Hi); done).
  change DINODE_SIZE with 64 in *. destruct (decide (j = inum)) as [->|Hne].
  - rewrite at_eq. replace 64 with (Z.of_nat (length d)) by lia. apply slice_splice; lia.
  - destruct (decide (IBLOCK j mk_sb = IBLOCK inum mk_sb)) as [E|E]; [|by rewrite at_ne].
    rewrite E, at_eq. apply slice_splice_ne; try lia. rewrite !IBLOCK_val in E by done.
    unfold dinode_off in *. change IPB with 16 in *. change DINODE_SIZE with 64 in *. mlia.
Qed.

(** ** The files so far *)

(** Inode [inum] is a file of type [T] with the bytes [bs]; its size field says
    [n]. *)
Record file_in (own : owners) (V : Z -> block) (inum T n : Z) (bs : list Z) : Prop := {
  fi_holds : let nb := blocks_of (Z.of_nat (length bs)) in
    holds own V (d_addr (dino V inum)) inum (12 <? nb) nb bs;
  fi_type : ld16 (dino V inum) 0 = T;
  fi_major : ld16 (dino V inum) 2 = 0;
  fi_minor : ld16 (dino V inum) 4 = 0;
  fi_nlink : ld16 (dino V inum) 6 = 1;
  fi_size : ld32 (dino V inum) 8 = n;
}.

Abbreviation files := (list (Z * list Z)).

Definition total (fs : files) : Z := foldr (fun x n => cost (Z.of_nat (length x.2)) + n) 0 fs.

(** File number k of [fs], from 0, is inode k + 1. *)
Record built (s : mkst) (own : owners) (fs : files) : Prop := {
  bt_image : image s own;
  bt_ino : freeinode s = 1 + Z.of_nat (length fs);
  bt_few : 1 + Z.of_nat (length fs) <= MAXINO;
  bt_files : forall k x, fs !! k = Some x ->
    file_in own (img s) (Z.of_nat k + 1) x.1 (Z.of_nat (length x.2)) x.2;
  bt_fb : freeblock s = nmeta + total fs;
  bt_rest : forall inum, inum = 0 \/ freeinode s <= inum -> 0 <= inum < MAXINO -> dino (img s) inum = replicate 64 0;
  bt_zero : forall b, 0 <= b < nmeta -> b <> 1 -> b < 32 \/ b = 45 -> img s b = zero_block;
  bt_sb : img s 1 = splice zero_block 0 (sb_bytes mk_sb);
}.

Lemma total_cons x fs : total (x :: fs) = cost (Z.of_nat (length x.2)) + total fs.
Proof. done. Qed.

Lemma total_insert fs k x y :
  fs !! k = Some x ->
  total (<[k := y]> fs) = total fs - cost (Z.of_nat (length x.2)) + cost (Z.of_nat (length y.2)).
Proof.
  revert k. induction fs as [|z fs IH]; intros [|k] Hk; try done.
  - injection Hk as ->. cbn [insert list_insert]. rewrite !total_cons. lia.
  - change (<[S k := y]> (z :: fs)) with (z :: <[k := y]> fs). rewrite !total_cons, (IH k Hk). lia.
Qed.

Lemma total_app fs fs' : total (fs ++ fs') = total fs + total fs'.
Proof. induction fs as [|x fs IH]; [done|]. cbn [app]. rewrite !total_cons. lia. Qed.

(** A file whose blocks and inode are as they were. *)
Lemma file_in_ext own V own' V' inum T n bs :
  file_in own V inum T n bs -> dino V' inum = dino V inum ->
  (forall a k, own a = Some (inum, k) -> own' a = Some (inum, k) /\ V' a = V a) ->
  file_in own' V' inum T n bs.
Proof.
  intros [] Hd HV. split; cbn zeta in *; rewrite Hd; try done. by eapply holds_ext.
Qed.

Lemma head_ld n din hd p :
  (forall q, 0 <= q < 12 -> byte_at din q = byte_at hd q) -> 0 <= p -> p + Z.of_nat n <= 12 -> ld din p n = ld hd p n.
Proof. intros Hh Hp Hn. apply ld_ext; [done|]. intros q Hq. apply Hh. lia. Qed.

(** The inode is written with its new size. *)
Lemma file_in_written inum base fi own s din nb bs T hd n :
  0 <= inum < MAXINO -> nb = blocks_of (Z.of_nat (length bs)) -> 0 <= n < 2 ^ 32 ->
  writing inum base fi hd own s din (12 <? nb) nb bs ->
  ld16 hd 0 = T -> ld16 hd 2 = 0 -> ld16 hd 4 = 0 -> ld16 hd 6 = 1 ->
  let s' := with_dino inum (st32 din 8 n) s in
  image s' own /\ file_in own (img s') inum T n bs.
Proof.
  intros Hi -> Hn [Him Hd Hh Hb Hf Hhd] H0 H2 H4 H6. cbn zeta. pose proof Hd as [Hdl Hdb].
  change (Z.to_nat DINODE_SIZE) with 64%nat in Hdl.
  assert (dinode_ok (st32 din 8 n)) as Hd'.
  { split; [unfold st32; by rewrite length_st | by apply bytes_ok_st]. }
  pose proof (image_dino s own inum _ Him Hi Hd') as Him'. split; [done|].
  assert (dino (img (with_dino inum (st32 din 8 n) s)) inum = st32 din 8 n) as Edi.
  { rewrite (dino_with s own) by (done || apply Hd'). by rewrite decide_True. }
  split; cbn zeta; rewrite Edi.
  - apply (holds_ext _ _ _ _ _ _ _ _ _ _ Hh).
    + intros k Hk. unfold d_addr. apply ld32_st32_out; lia.
    + intros a k Ha. split; [done|]. unfold with_dino, with_sect. cbn [img]. apply at_ne.
      pose proof (im_own _ _ Him _ _ Ha). pose proof (IBLOCK_range inum Hi). rewrite nmeta_val in *. lia.
  - unfold ld16, st32 in *. rewrite ld_st_out by lia. by rewrite (head_ld _ _ hd) by (done || lia).
  - unfold ld16, st32 in *. rewrite ld_st_out by lia. by rewrite (head_ld _ _ hd) by (done || lia).
  - unfold ld16, st32 in *. rewrite ld_st_out by lia. by rewrite (head_ld _ _ hd) by (done || lia).
  - unfold ld16, st32 in *. rewrite ld_st_out by lia. by rewrite (head_ld _ _ hd) by (done || lia).
  - rewrite ld32_st32 by lia. by apply u32_id.
Qed.

(** The blocks below nmeta but one inode are as before, so is every other file. *)
Lemma built_step s own fs s' own' k x y d s1 :
  built s own fs -> fs !! k = Some x -> image s' own' ->
  s' = with_dino (Z.of_nat k + 1) d s1 -> image s1 own' -> dinode_ok d ->
  keeps (Z.of_nat k + 1) own (img s) own' (img s1) -> freeinode s' = freeinode s ->
  freeblock s' = freeblock s - cost (Z.of_nat (length x.2)) + cost (Z.of_nat (length y.2)) ->
  file_in own' (img s') (Z.of_nat k + 1) y.1 (Z.of_nat (length y.2)) y.2 ->
  built s' own' (<[k := y]> fs).
Proof.
  intros [Hi Hino Hfew Hfs Hfb Hrest Hzero Hsb] Hk Hi' Es Hi1 Hd Hkeep Efi Efb Hy.
  apply lookup_lt_Some in Hk as Hlt. assert (0 <= Z.of_nat k + 1 < MAXINO) as Hin by lia.
  pose proof (IBLOCK_range _ Hin) as Hib.
  assert (forall a, a < nmeta -> a <> IBLOCK (Z.of_nat k + 1) mk_sb -> img s' a = img s a) as Hmeta.
  { intros a Ha Hne. rewrite Es. unfold with_dino, with_sect. cbn [img]. rewrite at_ne by done. apply Hkeep. by left. }
  assert (forall j, 0 <= j < MAXINO -> j <> Z.of_nat k + 1 -> dino (img s') j = dino (img s) j) as Hdino.
  { intros j Hj Hne. rewrite Es, (dino_with s1 own') by (done || apply Hd). rewrite decide_False by done.
    apply dino_same. apply Hkeep. left. pose proof (IBLOCK_range j Hj). rewrite nmeta_val. lia. }
  split; try done.
  - by rewrite Efi, length_insert.
  - by rewrite length_insert.
  - intros j z Hz. destruct (decide (j = k)) as [->|Hne].
    { rewrite list_lookup_insert_eq in Hz by done. by injection Hz as <-. }
    rewrite list_lookup_insert_ne in Hz by done. apply lookup_lt_Some in Hz as Hjl.
    apply (file_in_ext own (img s)); [by apply Hfs | apply Hdino; lia|].
    intros a i Ha. destruct Hkeep as [Ho HV]. split; [by apply Ho|]. rewrite Es. unfold with_dino, with_sect. cbn [img].
    pose proof (im_own _ _ Hi _ _ Ha). rewrite nmeta_val in *. rewrite at_ne by lia. apply HV. right.
    exists (Z.of_nat j + 1), i. split; [done | lia].
  - rewrite (total_insert _ _ x) by done. lia.
  - intros j Hj Hr. rewrite Hdino; [apply Hrest; [lia | done] | done | lia].
  - intros b Hb Hb1 Hb2. rewrite Hmeta by lia. by apply Hzero.
  - rewrite Hmeta by (rewrite ?nmeta_val; lia). done.
Qed.

Lemma iappend_ok s own fs k T bs p :
  built s own fs -> fs !! k = Some (T, bs) -> bytes_ok p ->
  Z.of_nat (length bs + length p) <= MAXFILE * BSIZE -> nmeta + total (<[k := (T, bs ++ p)]> fs) <= FSSIZE ->
  exists s' own', iappend (Z.of_nat k + 1) p s = Ok tt s' /\ built s' own' (<[k := (T, bs ++ p)]> fs).
Proof.
  intros Hb Hk Hp Hmax Hroom. pose proof (bt_image _ _ _ Hb) as Hi. apply lookup_lt_Some in Hk as Hlt.
  pose proof (bt_few _ _ _ Hb). assert (0 <= Z.of_nat k + 1 < MAXINO) as Hin by lia.
  destruct (bt_files _ _ _ Hb k _ Hk) as [Hh Ht Hma Hmi Hnl Hsz]. cbn [fst snd] in *.
  pose proof (dino_ok s own (Z.of_nat k + 1) Hi) as Hd. set (din := dino (img s) (Z.of_nat k + 1)) in *.
  pose proof (bt_fb _ _ _ Hb) as Hfb. rewrite (total_insert _ _ _ _ Hk) in Hroom. cbn [snd] in Hroom.
  rewrite length_app in Hroom. rewrite MAXFILE_val in Hmax. unfold BSIZE in Hmax.
  set (base := freeblock s - cost (Z.of_nat (length bs))).
  destruct (iappend_loop_run (Z.of_nat k + 1) base (freeinode s) din (S (length p)) own s din p bs) as (s1 & own1 & din1 & E1 & Hw1 & Hk1);
    try done; [|lia|subst base; lia|].
  { cbn zeta. split; try done. subst base. unfold cost. lia. }
  unfold iappend. rewrite (bind_run _ _ _ _ _ (rinode_run s own _ Hi Hin)). fold din.
  rewrite Hsz, xint_id by lia. cbn zeta. rewrite (bind_run _ _ _ _ _ E1). rewrite xint_id by lia.
  cbn zeta in Hw1. pose proof (wr_image _ _ _ _ _ _ _ _ _ _ Hw1) as Hi1. rewrite <- length_app in Hw1 |- *.
  rewrite (winode_run s1 own1 _ _ Hi1 Hin).
  destruct (file_in_written _ _ _ _ _ _ _ _ T _ (Z.of_nat (length (bs ++ p))) Hin eq_refl ltac:(rewrite length_app; lia) Hw1 Ht Hma Hmi Hnl) as [Hi2 Hfile].
  eexists _, own1. split; [done|]. pose proof (wr_din _ _ _ _ _ _ _ _ _ _ Hw1) as [Hl1 Hb1].
  eapply (built_step s own fs _ own1 k (T, bs) (T, bs ++ p)); try done.
  - split; [unfold st32; by rewrite length_st | by apply bytes_ok_st].
  - cbn [with_dino with_sect freeinode]. apply Hw1.
  - cbn [with_dino with_sect freeblock fst snd]. rewrite (wr_base _ _ _ _ _ _ _ _ _ _ Hw1).
    subst base. unfold cost. lia.
Qed.

(** *** ialloc *)

Lemma new_dinode_ok T :
  0 <= T < 2 ^ 15 ->
  dinode_ok (new_dinode T) /\ ld16 (new_dinode T) 0 = T /\ ld16 (new_dinode T) 2 = 0 /\ ld16 (new_dinode T) 4 = 0 /\
  ld16 (new_dinode T) 6 = 1 /\ ld32 (new_dinode T) 8 = 0 /\ forall k, 0 <= k <= NDIRECT -> d_addr (new_dinode T) k = 0.
Proof.
  intros HT. unfold new_dinode. rewrite xshort_id by lia. change (xshort 1) with 1. change (xint 0) with 0.
  set (z := replicate 64 0). assert (length z = 64%nat) as Hz by reflexivity.
  assert (forall p n, ld z p n = 0) as Hld by (intros; apply ld_zeros).
  split; [split; [unfold st32, st16; by rewrite !length_st | by repeat apply bytes_ok_st; apply bytes_ok_zeros]|].
  split_and!.
  - unfold ld16, st32, st16. rewrite !ld_st_out by lia. rewrite ld_st by lia. change (256 ^ Z.of_nat 2) with 65536. apply Z.mod_small. lia.
  - unfold ld16, st32, st16. rewrite !ld_st_out by lia. apply Hld.
  - unfold ld16, st32, st16. rewrite !ld_st_out by lia. apply Hld.
  - unfold ld16, st32, st16. rewrite ld_st_out by lia. rewrite ld_st by (rewrite ?length_st; lia). done.
  - rewrite ld32_st32 by (unfold st16; rewrite ?length_st; lia). done.
  - intros k Hk. unfold d_addr, ld32, st32, st16. rewrite !ld_st_out by lia. apply Hld.
Qed.

Lemma holds_nothing own V A inum :
  (forall k, 0 <= k <= NDIRECT -> A k = 0) -> holds own V A inum false 0 [].
Proof.
  intros HA. assert (A NDIRECT = 0) as Hi by (apply HA; unfold NDIRECT; lia).
  split; try (intros; lia); try done.
  - intros k Hk. unfold blk. rewrite Hi. destruct (Z.ltb_spec k NDIRECT); [apply HA; lia | done].
Qed.

Lemma next_inode_run s :
  0 <= freeinode s < 2 ^ 31 ->
  next_inode s = Ok (freeinode s) (Mk (img s) (img_end s) (freeinode s + 1) (freeblock s)).
Proof. intros Hf. unfold next_inode. rewrite (bind_run get _ _ s s eq_refl). by rewrite u32_id by lia. Qed.

Lemma ialloc_ok s own fs T :
  built s own fs -> 2 + Z.of_nat (length fs) <= MAXINO -> 0 <= T < 2 ^ 15 ->
  exists s', ialloc T s = Ok (Z.of_nat (length fs) + 1) s' /\ built s' own (fs ++ [(T, [])]).
Proof.
  intros [Hi Hino Hfew Hfs Hfb Hrest Hzero Hsb] Hroom HT. change MAXINO with 208 in *.
  destruct (new_dinode_ok T HT) as (Hd & Ht & Hma & Hmi & Hnl & Hsz & Hz).
  set (s1 := Mk (img s) (img_end s) (freeinode s + 1) (freeblock s)). set (inum := Z.of_nat (length fs) + 1).
  assert (image s1 own) as Hi1 by (destruct Hi; by split).
  assert (0 <= inum < MAXINO) as Hin by (change MAXINO with 208; lia). pose proof (IBLOCK_range _ Hin) as Hib.
  assert (freeinode s = inum) as Efi by lia.
  exists (with_dino inum (new_dinode T) s1). split.
  { unfold ialloc. rewrite (bind_run _ _ _ _ _ (next_inode_run s ltac:(lia))). rewrite Efi.
    fold s1. replace (Mk (img s) (img_end s) (inum + 1) (freeblock s)) with s1 by (unfold s1; by rewrite Efi).
    by rewrite (bind_run _ _ _ _ _ (winode_run s1 own inum _ Hi1 Hin)). }
  assert (forall a, a <> IBLOCK inum mk_sb -> img (with_dino inum (new_dinode T) s1) a = img s a) as Hsame.
  { intros a Ha. unfold with_dino, with_sect. cbn [img]. by rewrite at_ne by done. }
  assert (forall j, 0 <= j < MAXINO -> dino (img (with_dino inum (new_dinode T) s1)) j =
    if decide (j = inum) then new_dinode T else dino (img s) j) as Hdino.
  { intros j Hj. by apply (dino_with s1 own). }
  split.
  - by apply image_dino.
  - cbn. rewrite length_app. cbn [length]. lia.
  - rewrite length_app. cbn [length]. change MAXINO with 208. lia.
  - intros k x Hk. apply lookup_app_Some in Hk as [Hk|[Hge Hk]].
    + apply lookup_lt_Some in Hk as Hlt. apply (file_in_ext own (img s)); [by apply Hfs | |].
      * rewrite Hdino by (change MAXINO with 208; lia). by rewrite decide_False by lia.
      * intros a i Ha. split; [done|]. apply Hsame. pose proof (im_own _ _ Hi _ _ Ha). rewrite nmeta_val in *. lia.
    + destruct (k - length fs)%nat as [|n] eqn:Ek; [|done]. injection Hk as <-. cbn [fst snd].
      replace (Z.of_nat k + 1) with inum by lia.
      split; cbn zeta; rewrite Hdino, decide_True by done; try done. by apply holds_nothing.
  - cbn [with_dino with_sect freeblock s1]. rewrite Hfb, total_app. change (total [(T, [])]) with 0. lia.
  - intros j Hj Hr. rewrite Hdino by done. cbn [with_dino with_sect freeinode s1] in Hj.
    rewrite decide_False by lia. apply Hrest; [lia | done].
  - intros b Hb Hb1 Hb2. rewrite Hsame by lia. by apply Hzero.
  - rewrite Hsame by lia. done.
Qed.

(** *** The files of the command line *)

Lemma total_le_insert fs k x y y' :
  fs !! k = Some x -> (length y.2 <= length y'.2)%nat -> total (<[k := y]> fs) <= total (<[k := y']> fs).
Proof.
  intros Hk Hy. rewrite !(total_insert _ _ _ _ Hk).
  pose proof (cost_mono (Z.of_nat (length y.2)) (Z.of_nat (length y'.2)) ltac:(lia)). lia.
Qed.

Lemma append_reads_ok k T reads : forall s own fs bs,
  built s own fs -> fs !! k = Some (T, bs) -> Forall bytes_ok reads -> Forall (fun r => r <> []) reads ->
  Z.of_nat (length bs + length (concat reads)) <= MAXFILE * BSIZE ->
  nmeta + total (<[k := (T, bs ++ concat reads)]> fs) <= FSSIZE ->
  exists s' own', append_reads (Z.of_nat k + 1) reads s = Ok tt s' /\
    built s' own' (<[k := (T, bs ++ concat reads)]> fs).
Proof.
  induction reads as [|r reads IH]; intros s own fs bs Hb Hk Hby Hne Hmax Hroom; cbn [append_reads concat].
  - rewrite app_nil_r. rewrite list_insert_id by done. eauto.
  - apply Forall_cons in Hby as [Hr Hby]. apply Forall_cons in Hne as [Hn Hne].
    cbn [concat] in *. rewrite length_app in Hmax. assert (0 < length r)%nat by (destruct r; [done | cbn; lia]).
    rewrite (proj2 (Z.ltb_lt _ _)) by lia.
    pose proof (total_le_insert fs k (T, bs) (T, bs ++ r) (T, bs ++ r ++ concat reads) Hk) as Hmono.
    cbn [snd] in Hmono. rewrite !length_app in Hmono. specialize (Hmono ltac:(lia)).
    destruct (iappend_ok s own fs k T bs r Hb Hk Hr) as (s1 & own1 & E1 & Hb1); [lia | lia|].
    rewrite (bind_run _ _ _ _ _ E1). apply lookup_lt_Some in Hk as Hlt.
    destruct (IH s1 own1 _ (bs ++ r) Hb1) as (s2 & own2 & E2 & Hb2); try done.
    + by apply list_lookup_insert_eq.
    + rewrite length_app. lia.
    + rewrite list_insert_insert_eq, <- app_assoc. lia.
    + rewrite list_insert_insert_eq, <- app_assoc in Hb2. eauto.
Qed.

(** What the file system is to hold: the name and the bytes of a file, and the
    directory entries from inode number [inum] on. *)
Definition name_of (f : file_arg) : list Z := strip_underscore (strip_user (f_path f)).
Definition contents (f : file_arg) : list Z := concat (default [] (f_reads f)).
Fixpoint entries (inum : Z) (l : list file_arg) : list Z :=
  match l with
  | [] => []
  | f :: l => dirent inum (name_of f) ++ entries (inum + 1) l
  end.
Definition root_bytes (l : list file_arg) : list Z :=
  dirent ROOTINO [46] ++ dirent ROOTINO [46; 46] ++ entries 2 l.
Definition all_files (l : list file_arg) : files :=
  (T_DIR, root_bytes l) :: map (fun f => (T_FILE, contents f)) l.

(** A file that mkfs can take: it can be opened, its name has no slash behind
    user/, every read returns something, and it is not too long. *)
Record arg_ok (f : file_arg) : Prop := {
  ao_path : bytes_ok (f_path f);
  ao_slash : existsb (Z.eqb SLASH) (strip_user (f_path f)) = false;
  ao_open : exists reads, f_reads f = Some reads /\ Forall bytes_ok reads /\ Forall (fun r => r <> []) reads;
  ao_len : Z.of_nat (length (contents f)) <= MAXFILE * BSIZE;
}.

Lemma length_strncpy n : forall src, length (strncpy_bytes n src) = n.
Proof.
  induction n as [|n IH]; intros src; [done|]. cbn [strncpy_bytes].
  destruct (_ =? _); [by rewrite length_replicate | cbn; by rewrite IH].
Qed.

Lemma bytes_ok_strncpy n : forall src, bytes_ok src -> bytes_ok (strncpy_bytes n src).
Proof.
  induction n as [|n IH]; intros src Hs; [apply Forall_nil_2|]. cbn [strncpy_bytes].
  destruct (_ =? _); [apply bytes_ok_zeros|]. apply Forall_cons. split; [by apply byte_at_range|].
  apply IH. destruct src; [done | by apply Forall_cons in Hs as [_ Hs]].
Qed.

Lemma length_dirent inum name : length (dirent inum name) = 16%nat.
Proof.
  unfold dirent. rewrite length_splice; [by unfold st16; rewrite length_st|lia|].
  rewrite length_strncpy. unfold st16. rewrite length_st, length_replicate. unfold DIRSIZ. lia.
Qed.

Lemma bytes_ok_dirent inum name : bytes_ok name -> bytes_ok (dirent inum name).
Proof. intros. apply bytes_ok_splice; [apply bytes_ok_st, bytes_ok_zeros | by apply bytes_ok_strncpy]. Qed.

Lemma bytes_ok_name f : arg_ok f -> bytes_ok (name_of f).
Proof.
  intros [Hp _ _ _]. unfold name_of, strip_underscore, strip_user, bytes_ok in *.
  by repeat destruct (_ =? _); repeat apply Forall_drop.
Qed.

Lemma length_entries l : forall inum, length (entries inum l) = (16 * length l)%nat.
Proof. induction l as [|f l IH]; intros; [done|]. cbn [entries length]. rewrite length_app, length_dirent, IH. lia. Qed.

Lemma add_file_ok s own r rest f :
  let fs := (T_DIR, r) :: rest in let inum := Z.of_nat (length fs) + 1 in
  built s own fs -> arg_ok f -> inum < MAXINO -> Z.of_nat (length r) + 16 <= MAXFILE * BSIZE ->
  let fs' := (T_DIR, r ++ dirent inum (name_of f)) :: rest ++ [(T_FILE, contents f)] in
  nmeta + total fs' <= FSSIZE ->
  exists s' own', add_file ROOTINO f s = Ok tt s' /\ built s' own' fs'.
Proof.
  cbn zeta. set (fs := (T_DIR, r) :: rest). set (inum := Z.of_nat (length fs) + 1).
  intros Hb Hf Hin Hr Hroom. pose proof (bytes_ok_name f Hf) as Hbn. destruct Hf as [Hp Hsl (reads & Er & Hby & Hne) Hlen].
  assert (contents f = concat reads) as Ec by (unfold contents; by rewrite Er).
  unfold add_file. rewrite Hsl, Er. cbn zeta. fold (name_of f).
  destruct (ialloc_ok s own fs T_FILE Hb) as (s1 & E1 & Hb1); [unfold inum in Hin; lia | by unfold T_FILE|].
  rewrite (bind_run _ _ _ _ _ E1). fold inum.
  set (de := dirent inum (name_of f)) in *. pose proof (length_dirent inum (name_of f)) as Hdl. fold de in Hdl.
  rewrite total_cons, total_app, total_cons in Hroom. change (total []) with 0 in Hroom. cbn [snd] in Hroom.
  pose proof (cost_mono 0 (Z.of_nat (length (contents f))) ltac:(lia)) as Hc0. change (cost 0) with 0 in Hc0.
  destruct (iappend_ok s1 own (fs ++ [(T_FILE, [])]) 0 T_DIR r de Hb1) as (s2 & own2 & E2 & Hb2); [done | by apply bytes_ok_dirent| | |].
  { rewrite Hdl. lia. }
  { change (<[0%nat := (T_DIR, r ++ de)]> (fs ++ [(T_FILE, [])])) with ((T_DIR, r ++ de) :: rest ++ [(T_FILE, [])]).
    rewrite total_cons, total_app. change (total [(T_FILE, [])]) with 0. cbn [snd]. lia. }
  change (Z.of_nat 0 + 1) with ROOTINO in E2. rewrite (bind_run _ _ _ _ _ E2).
  change (<[0%nat := (T_DIR, r ++ de)]> (fs ++ [(T_FILE, [])])) with (((T_DIR, r ++ de) :: rest) ++ [(T_FILE, [])]) in Hb2.
  assert (length ((T_DIR, r ++ de) :: rest) = length fs) as Hfl by done.
  assert ((((T_DIR, r ++ de) :: rest) ++ [(T_FILE, [])]) !! length fs = Some (T_FILE, [])) as Hk.
  { rewrite <- Hfl. rewrite lookup_app_r by done. by rewrite Nat.sub_diag. }
  assert (forall x, <[length fs := x]> (((T_DIR, r ++ de) :: rest) ++ [(T_FILE, [])]) = ((T_DIR, r ++ de) :: rest) ++ [x]) as Hins.
  { intros x. rewrite <- Hfl. rewrite insert_app_r_alt by done. by rewrite Nat.sub_diag. }
  destruct (append_reads_ok (length fs) T_FILE reads s2 own2 _ [] Hb2 Hk) as (s3 & own3 & E3 & Hb3); try done.
  { rewrite <- Ec. cbn [length]. lia. }
  { rewrite Hins. cbn [app]. rewrite total_cons, total_app, total_cons, <- Ec. change (total []) with 0. cbn [snd]. lia. }
  rewrite Hins in Hb3. cbn [app] in Hb3. rewrite <- Ec in Hb3. exists s3, own3. split; [exact E3 | exact Hb3].
Qed.

Lemma total_root_mono r r' rest rest' :
  (length r <= length r')%nat -> 0 <= total rest' ->
  total ((T_DIR, r) :: rest) <= total ((T_DIR, r') :: rest ++ rest').
Proof.
  intros Hr Hp. rewrite !total_cons, total_app. cbn [snd].
  pose proof (cost_mono (Z.of_nat (length r)) (Z.of_nat (length r')) ltac:(lia)). lia.
Qed.

Lemma total_pos fs : 0 <= total fs.
Proof.
  induction fs as [|x fs IH]; [done|]. rewrite total_cons.
  pose proof (cost_mono 0 (Z.of_nat (length x.2)) ltac:(lia)) as Hc. change (cost 0) with 0 in Hc. lia.
Qed.

Lemma add_files_ok l : forall s own r rest,
  let inum := Z.of_nat (length rest) + 2 in
  built s own ((T_DIR, r) :: rest) -> Forall arg_ok l -> inum + Z.of_nat (length l) <= MAXINO ->
  Z.of_nat (length r) + 16 * Z.of_nat (length l) <= MAXFILE * BSIZE ->
  let fs' := (T_DIR, r ++ entries inum l) :: rest ++ map (fun f => (T_FILE, contents f)) l in
  nmeta + total fs' <= FSSIZE ->
  exists s' own', for_each l (add_file ROOTINO) s = Ok tt s' /\ built s' own' fs'.
Proof.
  induction l as [|f l IH]; cbn zeta; intros s own r rest Hb Hl Hin Hr Hroom; cbn [for_each entries map] in *.
  { rewrite !app_nil_r. eauto. }
  apply Forall_cons in Hl as [Hf Hl]. cbn [length] in *.
  set (inum := Z.of_nat (length rest) + 2) in *. set (de := dirent inum (name_of f)) in *.
  assert (Z.of_nat (length ((T_DIR, r) :: rest)) + 1 = inum) as Ei by (cbn [length]; lia).
  assert (length de = 16%nat) as Hdl by apply length_dirent.
  destruct (add_file_ok s own r rest f Hb Hf) as (s1 & own1 & E1 & Hb1); cbn zeta; rewrite ?Ei; fold de; [lia | lia | |].
  { pose proof (total_root_mono (r ++ de) (r ++ de ++ entries (inum + 1) l) (rest ++ [(T_FILE, contents f)])
      (map (fun f => (T_FILE, contents f)) l)) as Hm.
    rewrite <- app_assoc in Hm. cbn [app] in Hm. specialize (Hm ltac:(rewrite !length_app; lia) (total_pos _)). lia. }
  rewrite (bind_run _ _ _ _ _ E1). rewrite Ei in Hb1. fold de in Hb1.
  destruct (IH s1 own1 (r ++ de) (rest ++ [(T_FILE, contents f)]) Hb1 Hl) as (s2 & own2 & E2 & Hb2);
    rewrite ?length_app; cbn [length]; [lia | lia | |];
    replace (Z.of_nat (length rest + 1) + 2) with (inum + 1) in * by lia;
    rewrite <- ?app_assoc in *; cbn [app] in *; [exact Hroom|].
  rewrite length_app in Hb2. cbn [length] in Hb2.
  replace (Z.of_nat (length rest + 1) + 2) with (inum + 1) in * by lia. eauto.
Qed.

(** ** main *)

Lemma zero_loop n : forall i s,
  0 <= i -> i + Z.of_nat n <= FSSIZE -> img_end s = i -> (forall b, img s b = zero_block) ->
  exists V, for_each (seqZ i (Z.of_nat n)) (fun i => wsect i zero_block) s =
    Ok tt (Mk V (i + Z.of_nat n) (freeinode s) (freeblock s)) /\ forall b, V b = zero_block.
Proof.
  induction n as [|n IH]; intros i s Hi Hn He Hz.
  { exists (img s). split; [|done]. destruct s; cbn in *. subst. by rewrite Z.add_0_r. }
  rewrite seqZ_cons by lia. cbn [for_each]. replace (Z.pred (Z.of_nat (S n))) with (Z.of_nat n) by lia.
  change (Z.succ i) with (i + 1).
  assert (wsect i zero_block s = Ok tt (Mk (at_ (img s) i zero_block) (i + 1) (freeinode s) (freeblock s))) as E.
  { unfold wsect, modify, set_img. rewrite sector_id by lia. do 2 f_equal. lia. }
  rewrite (bind_run _ _ _ _ _ E).
  destruct (IH (i + 1) (Mk (at_ (img s) i zero_block) (i + 1) (freeinode s) (freeblock s))) as (V & EV & HV); try done; try lia.
  { intros b. cbn [img]. unfold at_. by destruct (_ =? _). }
  exists V. rewrite EV. cbn [freeinode freeblock]. split; [|done]. do 2 f_equal. lia.
Qed.

(** The image with its super block and no inodes. *)
Lemma built_start V :
  (forall b, V b = zero_block) ->
  built (Mk (at_ V 1 (splice zero_block 0 (sb_bytes mk_sb))) FSSIZE 1 nmeta) (fun _ => None) [].
Proof.
  intros Hz. assert (forall b, at_ V 1 (splice zero_block 0 (sb_bytes mk_sb)) b =
    if b =? 1 then splice zero_block 0 (sb_bytes mk_sb) else zero_block) as HV.
  { intros b. unfold at_. by rewrite Hz. }
  split; cbn [img img_end freeinode freeblock]; try done.
  - split; cbn [img img_end freeblock]; try done.
    + intros b. rewrite HV. by destruct (_ =? _).
    + intros b. rewrite HV. destruct (_ =? _); [|apply bytes_ok_zeros].
      apply bytes_ok_splice; [apply bytes_ok_zeros|]. unfold sb_bytes, st32. repeat apply bytes_ok_st. apply bytes_ok_zeros.
    + intros b Hb. rewrite HV. rewrite nmeta_val in *. by rewrite (proj2 (Z.eqb_neq _ _)) by lia.
  - intros inum _ Hr. unfold dino. rewrite HV. pose proof (IBLOCK_range _ Hr). rewrite (proj2 (Z.eqb_neq _ _)) by lia.
    unfold slice, zero_block, BSIZE. change DINODE_SIZE with 64. pose proof (dinode_off_range inum).
    rewrite drop_replicate, take_replicate. f_equal. lia.
  - intros b Hb Hb1 _. rewrite HV. by rewrite (proj2 (Z.eqb_neq _ _)).
Qed.

(** *** The bitmap *)

Definition bitmap (n : Z) : block := fold_left set_bit (seqZ 0 n) zero_block.

Lemma length_bitmap n : length (bitmap n) = Z.to_nat BSIZE.
Proof.
  unfold bitmap. assert (forall l d, length (fold_left set_bit l d) = length d) as Hl.
  { induction l as [|x l IH]; intros d; [done|]. cbn [fold_left]. by rewrite IH, length_set_bit. }
  by rewrite Hl.
Qed.

Lemma bitmap_bit n : 0 <= n <= BPB -> forall b, 0 <= b < BPB -> bit_free (bitmap n) b = negb (b <? n).
Proof.
  intros Hn. rewrite <- (Z2Nat.id n) in * by lia. generalize dependent (Z.to_nat n). clear n. intros n.
  induction n as [|n IH]; intros Hn b Hb.
  { rewrite (proj2 (Z.ltb_ge _ _)) by lia. unfold bit_free. change (bitmap (Z.of_nat 0)) with zero_block.
    unfold zero_block. by rewrite byte_at_zeros. }
  assert (bitmap (Z.of_nat (S n)) = set_bit (bitmap (Z.of_nat n)) (Z.of_nat n)) as ->.
  { unfold bitmap. replace (Z.of_nat (S n)) with (Z.of_nat n + 1) by lia. rewrite seqZ_app by lia.
    by rewrite fold_left_app. }
  pose proof (length_bitmap (Z.of_nat n)) as Hl. unfold BPB, BSIZE in *.
  rewrite bit_free_set by (rewrite ?Hl; unfold BPB, BSIZE; lia). rewrite IH by lia.
  destruct (Z.eqb_spec b (Z.of_nat n)), (Z.ltb_spec b (Z.of_nat n)), (Z.ltb_spec b (Z.of_nat (S n))); try lia; done.
Qed.

(** ** The finished image *)

(** mkfs rounds the size of the root directory up, past its last entry. *)
Definition root_size (l : list file_arg) : Z := (Z.of_nat (length (root_bytes l)) / BSIZE + 1) * BSIZE.

(** Inode [inum] as the kernel reads it from [V] into the entry [i0]. *)
Definition disk_inode (V : Z -> block) (inum : Z) (i0 : inode) : inode :=
  load_dinode (V (IBLOCK inum mk_sb)) (dinode_off inum) i0.

(** In whatever entry of the inode table it is loaded, inode [inum] is a file
    of type [T] and size [n] with one link, its blocks are in use, each at one
    place, and they hold [bs] and zeros behind it. *)
Definition is_file (V : Z -> block) (inum T n : Z) (bs : list Z) : Prop :=
  forall i0, i_dev i0 = ROOTDEV ->
    let i := disk_inode V inum i0 in let nb := blocks_of (Z.of_nat (length bs)) in
    file_ok mk_sb V i /\ i_type i = T /\ i_nlink i = 1 /\ i_size i = n /\
    (forall k, 0 <= k < MAXFILE -> mapped i V k <-> k < nb) /\
    (forall o, 0 <= o < nb * BSIZE -> file_byte i V o = byte_at bs o).

Record mkfs_image (V : Z -> block) (l : list file_arg) : Prop := {
  mi_blocks : blocks_ok V;
  mi_sb : parse_sb (V 1) = mk_sb;
  mi_log : forall b, 2 <= b < 2 + nlog -> V b = zero_block;
  mi_bitmap : bitmap_ok mk_sb V;
  mi_used : forall b, 0 <= b < FSSIZE -> used mk_sb V b = (b <? nmeta + total (all_files l));
  mi_root : is_file V ROOTINO T_DIR (root_size l) (root_bytes l);
  mi_files : forall k f, l !! k = Some f ->
    is_file V (Z.of_nat k + 2) T_FILE (Z.of_nat (length (contents f))) (contents f);
  mi_apart : forall i j i0 j0 a, 1 <= i < Z.of_nat (length l) + 2 -> 1 <= j < Z.of_nat (length l) + 2 -> i <> j ->
    ~ (file_block (disk_inode V i i0) V a /\ file_block (disk_inode V j j0) V a);
  mi_fresh : forall b, b < 0 \/ nmeta + total (all_files l) <= b -> V b = zero_block;
  mi_free : forall i, Z.of_nat (length l) + 2 <= i < NINODES -> di_type (V (IBLOCK i mk_sb)) (dinode_off i) = 0;
}.

Definition fits (l : list file_arg) : Prop :=
  Forall arg_ok l /\ Z.of_nat (length l) + 2 <= NINODES /\ nmeta + total (all_files l) <= FSSIZE.

(** *** The kernel's view of a file *)

Lemma di_field V inum p n :
  0 <= p -> p + Z.of_nat n <= 64 -> ld (V (IBLOCK inum mk_sb)) (dinode_off inum + p) n = ld (dino V inum) p n.
Proof.
  intros Hp Hn. pose proof (dinode_off_range inum). unfold dino. rewrite ld_slice; [done | lia | done |].
  change DINODE_SIZE with 64. lia.
Qed.

Lemma disk_addr V inum i0 k : 0 <= k <= NDIRECT -> i_addr (disk_inode V inum i0) k = d_addr (dino V inum) k.
Proof.
  intros Hk. unfold i_addr, disk_inode, load_dinode, di_addrs. cbn [i_addrs]. unfold NDIRECT in *.
  rewrite list_lookup_fmap, lookup_seqZ_lt by lia. cbn [fmap option_fmap option_map default].
  unfold d_addr, ld32. rewrite <- (di_field V inum (12 + 4 * k) 4) by lia.
  unfold id. f_equal. lia.
Qed.

Lemma disk_blk V inum i0 k : 0 <= k -> blk_addr (disk_inode V inum i0) V k = blk (d_addr (dino V inum)) V k.
Proof.
  intros Hk. unfold blk_addr, blk. rewrite (disk_addr V inum i0 NDIRECT) by (unfold NDIRECT; lia).
  destruct (Z.ltb_spec k NDIRECT); [apply disk_addr; lia | done].
Qed.

Lemma disk_block_owner own V inum T n bs i0 a :
  file_in own V inum T n bs -> own 0 = None -> file_block (disk_inode V inum i0) V a -> exists k, own a = Some (inum, k).
Proof.
  intros [[Hnb Hhi Hmap Hun _ _] _ _ _ _ _] H0 [Ha [E|(k & Hk & E)]].
  - rewrite disk_addr in E by (unfold NDIRECT; lia). subst a. destruct (12 <? _); [eauto|]. by destruct Hhi.
  - rewrite disk_blk in E by lia. subst a. destruct (Z.ltb_spec k (blocks_of (Z.of_nat (length bs)))).
    + exists k. apply Hmap. lia.
    + destruct Ha. apply Hun. lia.
Qed.

Lemma BBLOCK_mk b : 0 <= b < FSSIZE -> BBLOCK b mk_sb = 45.
Proof.
  intros Hb. unfold BBLOCK. change (sb_bmapstart mk_sb) with 45. unfold BPB, BSIZE, FSSIZE in *.
  rewrite u32_id by mlia. mlia.
Qed.

(** A file of the invariant is one for the kernel. *)
Lemma is_file_in own V inum T n bs lim :
  file_in own V inum T n bs -> 0 <= T < 2 ^ 15 ->
  (forall a x, own a = Some x -> nmeta <= a < lim) -> lim <= FSSIZE ->
  (forall b, 0 <= b < FSSIZE -> used mk_sb V b = (b <? lim)) ->
  is_file V inum T n bs.
Proof.
  intros Hf HT Hown Hlim Hused i0 Hdev. cbn zeta. set (i := disk_inode V inum i0).
  assert (own 0 = None) as H0.
  { destruct (own 0) eqn:E; [|done]. specialize (Hown _ _ E). rewrite nmeta_val in *. lia. }
  pose proof Hf as [[Hnb Hhi Hmap Hun Hlen Hby] Ht Hma Hmi Hnl Hsz].
  set (nb := blocks_of (Z.of_nat (length bs))) in *.
  assert (forall k, 0 <= k < MAXFILE -> mapped i V k <-> k < nb) as Hmapped.
  { intros k Hk. unfold mapped, i. rewrite disk_blk by lia. destruct (Z.ltb_spec k nb).
    - split; [done|]. intros _ E. specialize (Hmap k ltac:(lia)). rewrite E, H0 in Hmap. done.
    - split; [|lia]. intros Hz. destruct Hz. apply Hun. lia. }
  split; [split|].
  - exact Hdev.
  - unfold i, disk_inode, load_dinode, di_addrs. cbn [i_addrs]. by rewrite length_map, length_seqZ.
  - intros a Ha. destruct (disk_block_owner _ _ _ _ _ _ _ _ Hf H0 Ha) as [k Hk]. specialize (Hown _ _ Hk).
    rewrite nmeta_val in *. change (sb_size mk_sb) with FSSIZE. unfold in_use. change (sb_size mk_sb) with FSSIZE.
    split_and!; [lia | lia | |].
    + rewrite Hused by lia. apply Z.ltb_lt. lia.
    + intros b Hb. rewrite BBLOCK_mk by done. lia.
  - intros k k' Hk Hk' Hm E. rewrite Hmapped in Hm by done. unfold i in E. rewrite !disk_blk in E by lia.
    pose proof (Hmap k ltac:(lia)) as Hok. destruct (Z.ltb_spec k' nb) as [Hlt|Hge].
    + pose proof (Hmap k' ltac:(lia)) as Hok'. rewrite E, Hok' in Hok. by injection Hok.
    + rewrite E, (Hun k') in Hok by lia. congruence.
  - intros k Hk Hm. rewrite Hmapped in Hm by done. unfold i. rewrite disk_blk by lia.
    rewrite disk_addr by (unfold NDIRECT; lia). pose proof (Hmap k ltac:(lia)) as Hok. intros E. rewrite E in Hok.
    destruct (12 <? nb); [rewrite Hhi in Hok; injection Hok; lia|]. destruct Hhi as [Hz _]. rewrite Hz in Hok. congruence.
  - assert (forall p m, 0 <= p -> p + Z.of_nat m <= 64 -> ld (V (IBLOCK inum mk_sb)) (dinode_off inum + p) m = ld (dino V inum) p m) as Hfld.
    { intros. by apply di_field. }
    split_and!; [| | |exact Hmapped|].
    + unfold i, disk_inode, load_dinode, di_type. cbn [i_type]. rewrite <- (Z.add_0_r (dinode_off inum)). unfold ld16 in *.
      rewrite Hfld, Ht by lia. unfold i16, sgn. rewrite Z.mod_small by lia. by rewrite (proj2 (Z.ltb_lt _ _)) by lia.
    + unfold i, disk_inode, load_dinode. cbn [i_nlink]. unfold ld16 in *. by rewrite Hfld, Hnl by lia.
    + unfold i, disk_inode, load_dinode. cbn [i_size]. unfold ld32 in *. by rewrite Hfld, Hsz by lia.
    + intros o Ho. unfold file_byte, i. unfold BSIZE in *. rewrite disk_blk by mlia.
      rewrite Hby by (unfold BSIZE; mlia). f_equal. unfold BSIZE. mlia.
Qed.

(** *** main makes the image *)

Lemma wsect_first V d : wsect 1 d (Mk V (0 + FSSIZE) 1 nmeta) = Ok tt (Mk (at_ V 1 d) FSSIZE 1 nmeta).
Proof. unfold wsect, modify, set_img. by rewrite sector_id. Qed.

Lemma mkfs_starts l :
  exists V, (forall b, V b = zero_block) /\
  mkfs l = (let* rootino := ialloc T_DIR in
    if negb (rootino =? ROOTINO) then panic "assert(rootino == ROOTINO)"
    else
      iappend rootino (dirent rootino [46]) ;;
      iappend rootino (dirent rootino [46; 46]) ;;
      for_each l (add_file rootino) ;;
      let* din := rinode rootino in
      let off := xint (ld32 din 8) in
      let off := u32 ((off / BSIZE + 1) * BSIZE) in
      winode rootino (st32 din 8 (xint off)) ;;
      let* s := get in
      balloc (i32 (freeblock s))) (Mk (at_ V 1 (splice zero_block 0 (sb_bytes mk_sb))) FSSIZE 1 nmeta).
Proof.
  destruct (zero_loop (Z.to_nat FSSIZE) 0 (Mk (fun _ => zero_block) 0 1 nmeta)) as (V & E & HV);
    [done | rewrite Z2Nat.id by done; lia | done | done|].
  rewrite Z2Nat.id in E by done. cbn [freeinode freeblock] in E. exists V. split; [done|]. unfold mkfs, main. 
  erewrite (bind_run (modify _)); [|reflexivity]. cbn [img img_end freeinode].
  rewrite (bind_run _ _ _ _ _ E). by rewrite (bind_run _ _ _ _ _ (wsect_first V _)).
Qed.

(** The root directory and the files. *)
Lemma main_files l s own :
  fits l -> built s own [(T_DIR, [])] ->
  exists s' own', built s' own' (all_files l) /\ forall K : MM unit,
    (iappend ROOTINO (dirent ROOTINO [46]) ;; iappend ROOTINO (dirent ROOTINO [46; 46]) ;;
     for_each l (add_file ROOTINO) ;; K) s = K s'.
Proof.
  intros (Hl & Hn & Hroom) Hb. change NINODES with 200 in Hn.
  set (de1 := dirent ROOTINO [46]) in *. set (de2 := dirent ROOTINO [46; 46]).
  assert (length de1 = 16%nat /\ length de2 = 16%nat) as [H1 H2] by (split; apply length_dirent).
  assert (length (root_bytes l) = (32 + 16 * length l)%nat) as Hr.
  { unfold root_bytes. rewrite !length_app, !length_dirent, length_entries. lia. }
  assert (forall r, (length r <= length (root_bytes l))%nat -> nmeta + total [(T_DIR, r)] <= FSSIZE) as Hfit.
  { intros r Hle. pose proof (total_root_mono r (root_bytes l) [] (map (fun f => (T_FILE, contents f)) l) Hle (total_pos _)) as Hm.
    cbn [app] in Hm. unfold all_files in Hroom. lia. }
  destruct (iappend_ok s own _ 0 T_DIR [] de1 Hb eq_refl) as (s1 & own1 & E1 & Hb1).
  { apply bytes_ok_dirent. repeat constructor; lia. }
  { rewrite H1, MAXFILE_val. cbn [length]. unfold BSIZE. lia. }
  { apply (Hfit de1). lia. }
  cbn [app] in Hb1. change (<[0%nat := (T_DIR, de1)]> [(T_DIR, @nil Z)]) with [(T_DIR, de1)] in Hb1.
  change (Z.of_nat 0 + 1) with ROOTINO in E1.
  destruct (iappend_ok s1 own1 _ 0 T_DIR de1 de2 Hb1 eq_refl) as (s2 & own2 & E2 & Hb2).
  { apply bytes_ok_dirent. repeat constructor; lia. }
  { rewrite H1, H2, MAXFILE_val. unfold BSIZE. lia. }
  { apply (Hfit (de1 ++ de2)). rewrite length_app. lia. }
  change (<[0%nat := (T_DIR, de1 ++ de2)]> [(T_DIR, de1)]) with [(T_DIR, de1 ++ de2)] in Hb2.
  change (Z.of_nat 0 + 1) with ROOTINO in E2.
  destruct (add_files_ok l s2 own2 (de1 ++ de2) [] Hb2 Hl) as (s3 & own3 & E3 & Hb3); cbn [length].
  - change MAXINO with 208. lia.
  - rewrite length_app, MAXFILE_val. unfold BSIZE. lia.
  - cbn [app]. rewrite <- app_assoc. exact Hroom.
  - exists s3, own3. cbn [length app] in Hb3. rewrite <- app_assoc in Hb3. split; [exact Hb3|].
    intros K. rewrite (bind_run _ _ _ _ _ E1), (bind_run _ _ _ _ _ E2). by rewrite (bind_run _ _ _ _ _ E3).
Qed.

Lemma parse_sb_bytes : parse_sb (splice zero_block 0 (sb_bytes mk_sb)) = mk_sb.
Proof. vm_compute. reflexivity. Qed.

Lemma type_dir : 0 <= T_DIR < 2 ^ 15.
Proof. done. Qed.
Lemma type_file : 0 <= T_FILE < 2 ^ 15.
Proof. done. Qed.

(** The last two steps. *)
Section finish.
Context (l : list file_arg) (s : mkst) (own : owners) (V : Z -> block).
Let d := st32 (dino (img s) ROOTINO) 8 (root_size l).
Hypothesis Hfits : fits l.
Hypothesis Hb : built s own (all_files l).
Hypothesis HV : forall b, V b = at_ (img (with_dino ROOTINO d s)) 45 (bitmap (freeblock s)) b.

Lemma fin_image : image s own.
Proof. apply Hb. Qed.
Lemma fin_few : Z.of_nat (length l) + 2 <= 200.
Proof. apply Hfits. Qed.
Lemma fin_fb : 46 <= freeblock s <= FSSIZE.
Proof. apply (im_fb _ _ fin_image). Qed.

Lemma fin_d : length (dino (img s) ROOTINO) = 64%nat /\ dinode_ok d.
Proof.
  pose proof (dino_ok s own ROOTINO fin_image) as [Hl Hy]. split; [done|].
  split; [unfold d, st32; by rewrite length_st | by apply bytes_ok_st].
Qed.

Lemma fin_same a : a <> 45 -> a <> 32 -> V a = img s a.
Proof. intros Ha Ha'. rewrite HV, at_ne by done. unfold with_dino, with_sect. cbn [img]. by rewrite at_ne. Qed.

Lemma fin_dino j : 0 <= j < MAXINO -> dino V j = if decide (j = ROOTINO) then d else dino (img s) j.
Proof.
  intros Hj. rewrite <- (dino_with s own ROOTINO d j fin_image) by (done || apply fin_d). apply dino_same.
  rewrite HV, at_ne; [done|]. pose proof (IBLOCK_range j Hj). lia.
Qed.

Lemma fin_own a j k : own a = Some (j, k) -> own a = Some (j, k) /\ V a = img s a.
Proof.
  intros Ha. split; [done|]. pose proof (im_own _ _ fin_image _ _ Ha). rewrite nmeta_val in *. apply fin_same; lia.
Qed.

Lemma fin_used b : 0 <= b < FSSIZE -> used mk_sb V b = (b <? freeblock s).
Proof.
  intros Hr. pose proof fin_fb as Hfb. unfold used. rewrite BBLOCK_mk, HV, at_eq by done. unfold FSSIZE in *.
  rewrite Z.mod_small by (unfold BPB, BSIZE; lia). rewrite bitmap_bit by (unfold BPB, BSIZE; lia).
  apply negb_involutive.
Qed.

Lemma fin_bitmap : bitmap_ok mk_sb V.
Proof.
  pose proof fin_fb. split; try done.
  - intros b Hr. rewrite BBLOCK_mk, HV, at_eq by done. apply length_bitmap.
  - intros b Hr. change (sb_size mk_sb) with FSSIZE in *. rewrite BBLOCK_mk, fin_used by done.
    split; [apply Z.ltb_lt; lia | done].
  - rewrite fin_used by done. apply Z.ltb_lt. lia.
Qed.

Lemma fin_root : file_in own V ROOTINO T_DIR (root_size l) (root_bytes l).
Proof.
  pose proof fin_few. pose proof fin_d as [Hdl _].
  assert (0 <= root_size l < 2 ^ 32) as Hrs.
  { unfold root_size, root_bytes. rewrite !length_app, !length_dirent, length_entries. unfold BSIZE. split; mlia. }
  destruct (bt_files _ _ _ Hb 0%nat (T_DIR, root_bytes l) eq_refl) as [Hh Ht Hma Hmi Hnl Hsz]. cbn [fst snd] in *.
  change (Z.of_nat 0 + 1) with ROOTINO in *.
  split; cbn zeta; rewrite fin_dino, decide_True by done; unfold d; unfold ld16, st32 in *.
  - apply (holds_ext _ _ _ _ _ _ _ _ _ _ Hh); [|intros a k; apply fin_own].
    intros k Hk. unfold d_addr. by apply ld32_st32_out; lia.
  - by rewrite ld_st_out by lia.
  - by rewrite ld_st_out by lia.
  - by rewrite ld_st_out by lia.
  - by rewrite ld_st_out by lia.
  - unfold ld32. rewrite ld_st by lia. change (256 ^ Z.of_nat 4) with (2 ^ 32). by apply Z.mod_small.
Qed.

Lemma fin_file k f : l !! k = Some f ->
  file_in own V (Z.of_nat k + 2) T_FILE (Z.of_nat (length (contents f))) (contents f).
Proof.
  intros Hk. pose proof fin_few. apply lookup_lt_Some in Hk as Hlt.
  assert (all_files l !! S k = Some (T_FILE, contents f)) as Hk'.
  { change (all_files l !! S k) with (map (fun f => (T_FILE, contents f)) l !! k). by rewrite list_lookup_fmap, Hk. }
  pose proof (bt_files _ _ _ Hb _ _ Hk') as Hf. replace (Z.of_nat (S k) + 1) with (Z.of_nat k + 2) in Hf by lia.
  apply (file_in_ext own (img s)); [done | | intros a j; apply fin_own].
  rewrite fin_dino by (change MAXINO with 208; lia). by rewrite decide_False by (unfold ROOTINO; lia).
Qed.

Lemma fin_owner i i0 a :
  1 <= i < Z.of_nat (length l) + 2 -> file_block (disk_inode V i i0) V a -> exists k, own a = Some (i, k).
Proof.
  pose proof (im_own_0 _ _ fin_image) as H0. intros Hi Ha. destruct (decide (i = ROOTINO)) as [->|Hne].
  - by eapply disk_block_owner; [apply fin_root | |].
  - unfold ROOTINO in Hne. destruct (lookup_lt_is_Some_2 l (Z.to_nat (i - 2))) as [f Hf]; [lia|].
    pose proof (fin_file _ _ Hf) as Hin. replace (Z.of_nat (Z.to_nat (i - 2)) + 2) with i in Hin by lia.
    by eapply disk_block_owner.
Qed.

Lemma finished : mkfs_image V l.
Proof.
  pose proof fin_few. pose proof fin_fb as Hfb. pose proof (im_own _ _ fin_image) as Ho. split.
  - intros b. rewrite HV. unfold at_. destruct (_ =? _); [apply length_bitmap|].
    apply (image_dino s own); [apply fin_image | done | apply fin_d].
  - rewrite fin_same by done. rewrite (bt_sb _ _ _ Hb). apply parse_sb_bytes.
  - intros b Hr. change (2 + nlog) with 32 in Hr. rewrite fin_same by lia.
    apply (bt_zero _ _ _ Hb); rewrite ?nmeta_val; lia.
  - apply fin_bitmap.
  - intros b Hr. rewrite fin_used by done. by rewrite (bt_fb _ _ _ Hb).
  - exact (is_file_in own V _ _ _ _ (freeblock s) fin_root type_dir Ho (proj2 Hfb) fin_used).
  - intros k f Hk. exact (is_file_in own V _ _ _ _ (freeblock s) (fin_file k f Hk) type_file Ho (proj2 Hfb) fin_used).
  - intros i j i0 j0 a Hi Hj Hne [A B]. apply fin_owner in A as [k A]; [|done]. apply fin_owner in B as [k' B]; [|done]. congruence.
  - intros b Hr. rewrite <- (bt_fb _ _ _ Hb) in Hr. rewrite fin_same by lia. by apply (im_fresh _ _ fin_image).
  - intros i Hr. change NINODES with 200 in Hr. assert (0 <= i < MAXINO) as Him by (change MAXINO with 208; lia).
    unfold di_type. rewrite <- (Z.add_0_r (dinode_off i)). unfold ld16. rewrite di_field by lia.
    rewrite fin_dino, decide_False by (done || unfold ROOTINO; lia).
    rewrite (bt_rest _ _ _ Hb); [by rewrite ld_zeros | | done]. right. rewrite (bt_ino _ _ _ Hb).
    unfold all_files. cbn [length]. rewrite length_map. lia.
Qed.
End finish.

Lemma mkfs_ok l : fits l -> exists s, mkfs l = Ok tt s /\ mkfs_image (img s) l /\ img_end s = FSSIZE.
Proof.
  intros Hfits. destruct (mkfs_starts l) as (V & HV & E). rewrite E. clear E.
  destruct (ialloc_ok _ _ _ T_DIR (built_start V HV)) as (s1 & E1 & Hb1); [done | apply type_dir|].
  rewrite (bind_run _ _ _ _ _ E1). change (Z.of_nat (length (@nil (Z * list Z))) + 1) with ROOTINO.
  change (negb (ROOTINO =? ROOTINO)) with false. cbn iota. cbn [app] in Hb1.
  destruct (main_files l s1 _ Hfits Hb1) as (s2 & own & Hb2 & E2). rewrite E2. clear E2.
  pose proof (bt_image _ _ _ Hb2) as Hi. assert (0 <= ROOTINO < MAXINO) as Hr by done.
  rewrite (bind_run _ _ _ _ _ (rinode_run s2 own ROOTINO Hi Hr)).
  assert (0 <= Z.of_nat (length (root_bytes l)) < 2 ^ 20 /\ 0 <= root_size l < 2 ^ 32) as [Hlen Hrs].
  { destruct Hfits as (_ & Hn & _). change NINODES with 200 in Hn.
    unfold root_size, root_bytes. rewrite !length_app, !length_dirent, length_entries. unfold BSIZE. split; mlia. }
  pose proof (fi_size _ _ _ _ _ _ (bt_files _ _ _ Hb2 0%nat (T_DIR, root_bytes l) eq_refl)) as Hsz. cbn [snd] in Hsz.
  change (Z.of_nat 0 + 1) with ROOTINO in Hsz. rewrite Hsz, xint_id by lia. cbn zeta. fold (root_size l).
  rewrite u32_id, xint_id by lia. set (d := st32 (dino (img s2) ROOTINO) 8 (root_size l)).
  rewrite (bind_run _ _ _ _ _ (winode_run s2 own ROOTINO d Hi Hr)).
  assert (image (with_dino ROOTINO d s2) own) as Hi'.
  { pose proof (dino_ok s2 own ROOTINO Hi) as [Hl Hy]. apply image_dino; [done | done|].
    split; [unfold d, st32; by rewrite length_st | by apply bytes_ok_st]. }
  set (s3 := with_dino ROOTINO d s2) in *. rewrite (bind_run get _ _ s3 s3 eq_refl).
  pose proof (im_fb _ _ Hi') as Hfb. rewrite nmeta_val in Hfb. unfold FSSIZE in Hfb.
  unfold balloc. rewrite i32_id by lia. rewrite (proj2 (Z.ltb_lt (freeblock s3) (BSIZE * 8))) by (unfold BSIZE; lia). cbn [negb].
  change (sb_bmapstart mk_sb) with 45. fold (bitmap (freeblock s3)).
  rewrite (wsect_run s3 own 45 _ Hi') by done. eexists. split; [reflexivity|]. split; [|done].
  by apply (finished l s2 own).
Qed.
