(* ===== verification/Mkread.v ===== *)
(** * The kernel reads what mkfs wrote

    mkfs and the file system of the kernel are two programs that agree on a
    format. The theorems join them: the image mkfs makes is a file system that
    the invariants of [Inode], [Fileio] and [Dir] describe, and in any kernel
    that has it on its disk, dirlookup finds every file by its name and readi
    hands out its bytes. *)

From stdpp Require Import base gmap list strings.
From Stdlib Require Import ZArith Lia.
From S2P Require Import Prelude Sleeplock Bytes Bio Journal Inode Fileio Dir Mkfs Mkimage.

(** ** The entries of the root directory *)

Fixpoint file_list (inum : Z) (l : list file_arg) : list (Z * list Z) :=
  match l with
  | [] => []
  | f :: l => (inum, name_of f) :: file_list (inum + 1) l
  end.
Definition dir_list (l : list file_arg) : list (Z * list Z) :=
  (ROOTINO, [46]) :: (ROOTINO, [46; 46]) :: file_list 2 l.

(** Names that fit a directory entry in the same way. *)
Definition same_name (a b : list Z) : Prop := take DIRSIZ (cstring a) = take DIRSIZ (cstring b).

Lemma file_list_lookup l : forall inum k,
  file_list inum l !! k = (fun f => (inum + Z.of_nat k, name_of f)) <$> l !! k.
Proof.
  induction l as [|f l IH]; intros inum [|k]; try done.
  - cbn. by rewrite Z.add_0_r.
  - change (file_list (inum + 1) l !! k = (fun f => (inum + Z.of_nat (S k), name_of f)) <$> l !! k).
    rewrite IH. replace (inum + 1 + Z.of_nat k) with (inum + Z.of_nat (S k)) by lia. done.
Qed.

Lemma length_file_list l : forall inum, length (file_list inum l) = length l.
Proof. induction l as [|f l IH]; intros; cbn; [done|]. by rewrite IH. Qed.

Lemma root_bytes_concat l : root_bytes l = concat (map (fun e => dirent e.1 e.2) (dir_list l)).
Proof.
  unfold root_bytes, dir_list. cbn [map concat fst snd]. do 2 f_equal.
  generalize 2. induction l as [|f l IH]; intros inum; [done|]. cbn [entries file_list map concat fst snd]. by rewrite IH.
Qed.

Lemma length_root_bytes l : length (root_bytes l) = (16 * (2 + length l))%nat.
Proof. unfold root_bytes. rewrite !length_app, !length_dirent, length_entries. lia. Qed.

Lemma byte_at_concat16 (xs : list (list Z)) : (forall x, x ∈ xs -> length x = 16%nat) ->
  forall k j, 0 <= j < 16 -> byte_at (concat xs) (16 * Z.of_nat k + j) = byte_at (default [] (xs !! k)) j.
Proof.
  induction xs as [|x xs IH]; intros Hx k j Hj; [done|]. cbn [concat]. rewrite byte_at_app by lia.
  assert (length x = 16%nat) as Hl by (apply Hx; set_solver). destruct k as [|k].
  - rewrite (proj2 (Z.ltb_lt _ _)) by lia. cbn. f_equal.
  - rewrite (proj2 (Z.ltb_ge _ _)) by lia.
    replace (16 * Z.of_nat (S k) + j - Z.of_nat (length x)) with (16 * Z.of_nat k + j) by lia.
    rewrite IH by (done || set_solver). done.
Qed.

Lemma bytes_of_list l n : length l = Z.to_nat n -> map (byte_at l) (seqZ 0 n) = l.
Proof.
  intros Hl. apply list_eq. intros i. rewrite list_lookup_fmap.
  destruct (decide (i < length l)%nat) as [Hi|Hi].
  - rewrite lookup_seqZ_lt by lia. cbn. unfold byte_at. rewrite Z.add_0_l, Nat2Z.id.
    by destruct (lookup_lt_is_Some_2 l i Hi) as [x ->].
  - rewrite lookup_seqZ_ge by lia. by rewrite lookup_ge_None_2 by lia.
Qed.

Lemma dirent_inum inum name : 0 <= inum < 2 ^ 16 -> de_inum (dirent inum name) = inum.
Proof.
  intros Hi. unfold de_inum, dirent, ld16. rewrite xshort_id by done.
  erewrite (ld_ext 2 _ (st16 (replicate 16 0) 0 inum)); [|done|].
  - unfold st16. rewrite ld_st by (rewrite ?length_replicate; lia). by apply Z.mod_small.
  - intros p Hp. rewrite byte_at_splice; [|lia| |lia].
    + by rewrite (proj2 (Z.leb_gt _ _)) by lia.
    + rewrite length_strncpy. unfold st16. rewrite length_st, length_replicate. unfold DIRSIZ. lia.
Qed.

Lemma dirent_name inum name : de_name (dirent inum name) = strncpy_bytes DIRSIZ name.
Proof.
  unfold de_name, dirent. change 14 with (Z.of_nat DIRSIZ). rewrite <- (length_strncpy DIRSIZ name) at 2.
  apply slice_splice; [lia|]. rewrite length_strncpy. unfold st16. rewrite length_st, length_replicate. unfold DIRSIZ. lia.
Qed.

Lemma cstring_cons l : cstring l = if byte_at l 0 =? 0 then [] else byte_at l 0 :: cstring (tail l).
Proof. destruct l as [|x l]; [done|]. change (byte_at (x :: l) 0) with x. cbn. by destruct (x =? 0). Qed.

Lemma cstring_strncpy n : forall src, take n (cstring (strncpy_bytes n src)) = take n (cstring src).
Proof.
  induction n as [|n IH]; intros src; [done|]. rewrite (cstring_cons src). cbn [strncpy_bytes].
  destruct (Z.eqb_spec (byte_at src 0) 0) as [E|E]; [done|].
  cbn [cstring take]. rewrite (proj2 (Z.eqb_neq _ _) E). cbn [take]. by rewrite IH.
Qed.

(** A lookup hits exactly the entries with the name. *)
Lemma name_hit name n :
  bytes_ok name -> bytes_ok n -> namecmp name (strncpy_bytes DIRSIZ n) = 0 <-> same_name name n.
Proof.
  intros Hn Hb. unfold namecmp. rewrite strncmp_bytes_zero.
  - unfold same_name. by rewrite cstring_strncpy.
  - intros k. by apply byte_at_range.
  - intros k. by apply byte_at_range, bytes_ok_strncpy.
Qed.

(** ** The root directory in the kernel *)

Section root.
Context (l : list file_arg) (V : Z -> block) (i0 : inode).
Hypothesis Hfits : fits l.
Hypothesis Himg : mkfs_image V l.
Hypothesis Hdev : i_dev i0 = ROOTDEV.
Let root := disk_inode V ROOTINO i0.

Lemma dir_list_bytes e : e ∈ dir_list l -> bytes_ok e.2 /\ 0 < e.1 < 2 ^ 16.
Proof.
  destruct Hfits as (Hl & Hn & _). change NINODES with 200 in Hn.
  intros [->|[->|He]%elem_of_cons]%elem_of_cons.
  - split; [by repeat constructor | done].
  - split; [by repeat constructor | done].
  - apply list_elem_of_lookup in He as [k Hk]. rewrite file_list_lookup in Hk.
    destruct (l !! k) as [f|] eqn:Ef; [|done]. injection Hk as <-. apply lookup_lt_Some in Ef as Hlt. cbn [fst snd].
    split; [|lia]. apply bytes_ok_name. by apply (Forall_lookup_1 _ _ _ _ Hl Ef).
Qed.

Lemma root_entry k : 0 <= k < root_size l / DIRENT -> Z.of_nat (length (root_bytes l)) mod BSIZE <> 0 ->
  dirent_of root V k = match dir_list l !! Z.to_nat k with Some e => dirent e.1 e.2 | None => replicate 16 0 end.
Proof.
  intros Hk Hmod. destruct (mi_root _ _ Himg i0 Hdev) as (_ & _ & _ & _ & _ & Hby). fold root in Hby.
  unfold dirent_of. change DIRENT with 16. transitivity (map (byte_at (match dir_list l !! Z.to_nat k with
    Some e => dirent e.1 e.2 | None => replicate 16 0 end)) (seqZ 0 16)).
  2: { apply bytes_of_list. destruct (_ !! _); [apply length_dirent | done]. }
  apply map_ext_in. intros j Hj%list_elem_of_In%elem_of_seqZ.
  unfold root_size, blocks_of, BSIZE, DIRENT in *. rewrite Hby by mlia. rewrite root_bytes_concat.
  replace (16 * k + j) with (16 * Z.of_nat (Z.to_nat k) + j) by lia. rewrite byte_at_concat16; [| |lia].
  2: { intros x Hx. apply list_elem_of_fmap in Hx as (e & -> & _). apply length_dirent. }
  rewrite list_lookup_fmap. destruct (dir_list l !! Z.to_nat k); [done|]. rewrite byte_at_zeros. done.
Qed.

(** Entry k is the first with its name. *)
Lemma root_first name k e :
  bytes_ok name -> Z.of_nat (length (root_bytes l)) mod BSIZE <> 0 ->
  dir_list l !! k = Some e -> same_name name e.2 ->
  (forall j e', (j < k)%nat -> dir_list l !! j = Some e' -> ~ same_name name e'.2) ->
  entry_hit root V name (Z.of_nat k) = true /\
  forall k', 0 <= k' < Z.of_nat k -> entry_hit root V name k' = false.
Proof.
  intros Hn Hmod Hk He Hfirst. apply lookup_lt_Some in Hk as Hlt.
  assert (Z.of_nat k < root_size l / DIRENT) as Hks.
  { unfold dir_list in Hlt. cbn [length] in Hlt. rewrite length_file_list in Hlt.
    unfold root_size. rewrite length_root_bytes. unfold BSIZE, DIRENT. mlia. }
  assert (forall j x, Z.of_nat j < root_size l / DIRENT -> dir_list l !! j = Some x ->
    entry_hit root V name (Z.of_nat j) = bool_decide (namecmp name (strncpy_bytes DIRSIZ x.2) = 0)) as Hhit.
  { intros j x Hj Hx. unfold entry_hit. rewrite root_entry, Nat2Z.id, Hx by (done || lia).
    destruct (dir_list_bytes x) as [_ Hr]; [by eapply list_elem_of_lookup_2|].
    rewrite dirent_inum, dirent_name, (proj2 (Z.eqb_neq _ _)) by lia. cbn [negb andb].
    case_bool_decide as Hc; [by rewrite Hc | by apply Z.eqb_neq]. }
  assert (forall j x, dir_list l !! j = Some x -> bytes_ok x.2) as Hbx.
  { intros j x Hx. eapply dir_list_bytes, list_elem_of_lookup_2, Hx. }
  split.
  - rewrite (Hhit k e) by done. apply bool_decide_eq_true, name_hit; [done | by eapply Hbx | done].
  - intros k' Hk'. destruct (lookup_lt_is_Some_2 (dir_list l) (Z.to_nat k')) as [x Hx]; [lia|].
    replace k' with (Z.of_nat (Z.to_nat k')) by lia. rewrite (Hhit _ x) by (done || lia).
    apply bool_decide_eq_false. intros Hc. apply name_hit in Hc; [|done|by eapply Hbx].
    eapply Hfirst; [|exact Hx|exact Hc]. lia.
Qed.

Lemma root_is_dir {J U} `{JournalLaws J} `{CopyEnvLaws U} (s : fsst J U) dp de :
  sb s = parse_sb (V 1) -> jrep (jn s) none_held V -> itable s !! dp = Some root ->
  i_is_vault i0 = 0 \/ i_vault_open i0 <> 0 -> 0 <= de -> de + DIRENT < 2 ^ 64 ->
  Z.of_nat (length (root_bytes l)) mod BSIZE <> 0 ->
  is_dir s dp root V de.
Proof.
  intros Hsb Hj Hi Hv Hd Hd' Hmod. destruct Himg as [Hbl Es _ Hbm _ Hr _ _ _ _].
  destruct (Hr i0 Hdev) as (Hf & Ht & _ & Hsz & Hm & _). fold root in Hf, Ht, Hsz, Hm.
  destruct Hfits as (_ & Hn & _). change NINODES with 200 in Hn.
  assert (root_size l <= 4096 /\ 0 <= root_size l) as [Hs1 Hs2].
  { unfold root_size. rewrite length_root_bytes. unfold BSIZE. split; mlia. }
  split; try assumption.
  - split; [assumption | by rewrite Hsb, Es | by rewrite Hsb, Es | assumption].
  - rewrite Hsz, MAXFILE_val. unfold BSIZE. lia.
  - rewrite Hsz. unfold root_size, DIRENT, BSIZE. mlia.
  - intros o Ho. rewrite Hsz in Ho. apply Hm; [rewrite MAXFILE_val; unfold BSIZE in *; mlia|].
    unfold root_size, blocks_of, BSIZE in *. mlia.
  - exact (conj Hd Hd').
Qed.
End root.

Lemma found_entry {J U} `{JournalLaws J} `{CopyEnvLaws U} l V i0 name k e (s : fsst J U) r s' :
  fits l -> mkfs_image V l -> i_dev i0 = ROOTDEV -> bytes_ok name ->
  Z.of_nat (length (root_bytes l)) mod BSIZE <> 0 ->
  dir_list l !! k = Some e -> same_name name e.2 ->
  (forall j e', (j < k)%nat -> dir_list l !! j = Some e' -> ~ same_name name e'.2) ->
  let root := disk_inode V ROOTINO i0 in
  lookup_post s root V name 0 (i_size root / DIRENT) r s' ->
  exists ip, r = Some (ip, DIRENT * Z.of_nat k) /\
    i_dev (geti s' ip) = ROOTDEV /\ i_inum (geti s' ip) = e.1 /\ 0 < i_ref (geti s' ip).
Proof.
  intros Hl Himg Hdev Hn Hmod Hk He Hfirst root Hr.
  destruct (root_first l V i0 Hl Himg Hdev name k e Hn Hmod Hk He Hfirst) as [Hhit Hlow]. fold root in Hhit, Hlow.
  destruct (mi_root _ _ Himg i0 Hdev) as (_ & _ & _ & Hsz & _). fold root in Hsz. rewrite Hsz in Hr.
  apply lookup_lt_Some in Hk as Hlt. unfold dir_list in Hlt. cbn [length] in Hlt. rewrite length_file_list in Hlt.
  assert (0 <= Z.of_nat k < root_size l / DIRENT) as Hks.
  { unfold root_size. rewrite length_root_bytes. unfold BSIZE, DIRENT. mlia. }
  destruct r as [[ip off]|]; [|rewrite (Hr _ Hks) in Hhit; done].
  destruct Hr as (k' & s1 & Hk' & -> & Hh & Hl' & (_ & _ & _ & Ed & Ei & Hre & _) & _).
  assert (k' = Z.of_nat k) as ->.
  { destruct (Z.lt_trichotomy k' (Z.of_nat k)) as [?|[?|?]]; [|done|].
    - rewrite Hlow in Hh by lia. done.
    - rewrite Hl' in Hhit by lia. done. }
  exists ip. split; [do 2 f_equal; lia|]. split; [by rewrite Ed|]. split; [|done].
  rewrite Ei. unfold root. rewrite (root_entry l), Nat2Z.id, Hk by done. apply dirent_inum.
  destruct (dir_list_bytes l Hl e); [by eapply list_elem_of_lookup_2 | lia].
Qed.

Lemma reads_file {J U} `{JournalLaws J} `{CopyEnvLaws U} l V k f i0 (s : fsst J U) ip user dst off n :
  mkfs_image V l -> l !! k = Some f -> arg_ok f ->
  sb s = parse_sb (V 1) -> jrep (jn s) none_held V ->
  itable s !! ip = Some (disk_inode V (Z.of_nat k + 2) i0) ->
  i_dev i0 = ROOTDEV -> i_is_vault i0 = 0 \/ i_vault_open i0 <> 0 ->
  0 <= off < 2 ^ 32 -> 0 <= n < 2 ^ 32 -> 0 <= dst -> dst + n < 2 ^ 64 ->
  wp (readi ip user dst off n) s (fun r s' => r = -1 /\ user = true \/
    r = read_len (Z.of_nat (length (contents f))) off n /\
    forall o, off <= o < off + r -> contents f !! Z.to_nat o = Some (ce_byte user (env s') (dst + (o - off)))).
Proof.
  intros Himg Hk Hf Hsb Hj Hi Hdev Hv Ho Hn Hd Hdn. set (i := disk_inode V _ i0) in *.
  destruct (mi_files _ _ Himg k f Hk i0 Hdev) as (Hok & _ & _ & Hsz & Hm & Hby). fold i in Hok, Hsz, Hm, Hby.
  pose proof (ao_len _ Hf) as Hlen. set (len := Z.of_nat (length (contents f))) in *.
  assert (0 <= len) by (unfold len; lia). destruct Himg as [Hbl Es _ Hbm _ _ _ _ _ _].
  assert (forall o, 0 <= o < len -> mapped i V (o / BSIZE) /\ o < blocks_of len * BSIZE) as Hin.
  { intros o Hr. rewrite MAXFILE_val in Hlen. unfold blocks_of, BSIZE in *. split; [|mlia].
    apply Hm; [rewrite MAXFILE_val; mlia | mlia]. }
  eapply wp_mono.
  { apply (readi_ok s ip i V user dst off n); try assumption.
    - split; [assumption | by rewrite Hsb, Es | by rewrite Hsb, Es | assumption].
    - rewrite Hsz. split; [unfold len; lia | exact Hlen].
    - intros o Hr. rewrite Hsz in Hr. by apply Hin. }
  intros r s' (_ & _ & _ & [[-> ->]|(-> & Hbytes & _)]); [by left|]. rewrite Hsz in *. right. split; [done|].
  intros o Hr. rewrite Z.sub_0_r in Hbytes. rewrite Hbytes by done.
  assert (0 <= o < len) as Hol.
  { unfold read_len in Hr. destruct (_ || _); lia. }
  rewrite Hby by (split; [lia|]; by apply Hin). unfold byte_at.
  destruct (lookup_lt_is_Some_2 (contents f) (Z.to_nat o)) as [x ->]; [lia|]. done.
Qed.

(** ** Properties *)

(** C8: mkfs makes a well-formed file system. Given files that can be opened,
    have a short enough name and fit, mkfs ends without an error; its image is
    FSSIZE sectors long, and in it: the super block describes the layout, the
    log is empty, the bitmap marks exactly the blocks in use, the root
    directory and every file are inodes with one link whose blocks are in use,
    at one place each, and hold exactly the bytes given, no two files share a
    block, free blocks are zero and the other inodes free. *)
Theorem mkfs_makes_file_system l :
  fits l -> exists s, mkfs l = Ok tt s /\ img_end s = FSSIZE /\ mkfs_image (img s) l.
Proof. intros Hl. destruct (mkfs_ok l Hl) as (s & E & Hi & He). exists s. exact (conj E (conj He Hi)). Qed.

(** C7: what mkfs puts in, the kernel finds. In every kernel whose disk is the
    image mkfs made of [l], looking up the name of a file in the root
    directory, when no earlier entry has the name, gives its inode; and
    reading its inode gives its bytes: as many as asked for and there are, or
    -1 when the user's buffer cannot be written. (The root directory must not
    fill its last block, mkfs would give it a size past the blocks it has.) *)
Theorem kernel_reads_mkfs {J U} `{JournalLaws J} `{CopyEnvLaws U} l k f :
  fits l -> Z.of_nat (length (root_bytes l)) mod BSIZE <> 0 -> l !! k = Some f ->
  (forall j e, (j < S (S k))%nat -> dir_list l !! j = Some e -> ~ same_name (name_of f) e.2) ->
  exists m, mkfs l = Ok tt m /\ forall s : fsst J U,
    sb s = parse_sb (img m 1) -> jrep (jn s) none_held (img m) ->
    (forall dp i0 de, itable s !! dp = Some (disk_inode (img m) ROOTINO i0) -> table_ready s ->
       i_dev i0 = ROOTDEV -> i_is_vault i0 = 0 \/ i_vault_open i0 <> 0 -> 0 <= de -> de + DIRENT < 2 ^ 64 ->
       wp (dirlookup dp (name_of f) de) s (fun r s' => exists ip, r = Some (ip, DIRENT * (Z.of_nat k + 2)) /\
         i_dev (geti s' ip) = ROOTDEV /\ i_inum (geti s' ip) = Z.of_nat k + 2 /\ 0 < i_ref (geti s' ip))) /\
    (forall ip i0 user dst off n, itable s !! ip = Some (disk_inode (img m) (Z.of_nat k + 2) i0) ->
       i_dev i0 = ROOTDEV -> i_is_vault i0 = 0 \/ i_vault_open i0 <> 0 ->
       0 <= off < 2 ^ 32 -> 0 <= n < 2 ^ 32 -> 0 <= dst -> dst + n < 2 ^ 64 ->
       wp (readi ip user dst off n) s (fun r s' => r = -1 /\ user = true \/
         r = read_len (Z.of_nat (length (contents f))) off n /\
         forall o, off <= o < off + r -> contents f !! Z.to_nat o = Some (ce_byte user (env s') (dst + (o - off))))).
Proof.
  intros Hl Hmod Hk Hfirst. destruct (mkfs_ok l Hl) as (m & E & Himg & _). exists m. split; [exact E|].
  intros s Hsb Hj. pose proof Hl as (Ha & _). pose proof (Forall_lookup_1 _ _ _ _ Ha Hk) as Hf.
  assert (dir_list l !! S (S k) = Some (Z.of_nat k + 2, name_of f)) as He.
  { change (file_list 2 l !! k = Some (Z.of_nat k + 2, name_of f)). rewrite file_list_lookup, Hk. cbn. do 2 f_equal. lia. }
  split.
  - intros dp i0 de Hi Ht Hdev Hv Hd Hd'. pose proof (dirlookup_ok s dp _ (img m) (name_of f) de
      (root_is_dir l (img m) i0 Hl Himg Hdev s dp de Hsb Hj Hi Hv Hd Hd' Hmod) Ht) as Hw.
    eapply wp_mono; [exact Hw|]. intros r s' Hr.
    replace (Z.of_nat k + 2) with (Z.of_nat (S (S k))) by lia. replace (Z.of_nat k + 2) with (Z.of_nat (S (S k))) in He by lia.
    exact (found_entry l (img m) i0 (name_of f) _ _ s r s' Hl Himg Hdev (bytes_ok_name f Hf) Hmod He eq_refl Hfirst Hr).
  - intros ip i0 user dst off n Hi Hdev Hv Ho Hn Hd Hdn. exact (reads_file l (img m) k f i0 s ip user dst off n Himg Hk Hf Hsb Hj Hi Hdev Hv Ho Hn Hd Hdn).
Qed.

(** ** Witnesses *)

Definition demo_files : list file_arg :=
  [FileArg (USER ++ [95; 99; 97; 116]) (Some [[1; 2; 3]; [4; 5]]); FileArg [82] (Some [replicate 1000 7; replicate 300 9])].

Lemma demo_fits : fits demo_files.
Proof.
  split; [|split; [done | vm_compute; discriminate]].
  assert (forall n x, 0 <= x < 256 -> bytes_ok (replicate n x)) as Hr by (intros; by apply Forall_replicate).
  repeat constructor; try done; try lia.
  - exists [[1; 2; 3]; [4; 5]]. split; [done|]. split; repeat constructor; done || lia.
  - exists [replicate 1000 7; replicate 300 9]. split; [done|]. split; repeat constructor; try (apply Hr; lia); done.
Qed.

(** A kernel that has booted from [V]: inode 3 in entry 0, the root in entry 1. *)
Definition flat_of (V : Z -> block) (n : Z) : flat :=
  Flat (list_to_map (map (fun b => (b, V b)) (seqZ 0 n))) ∅.
Definition slot (inum : Z) : inode := Inode ROOTDEV inum 1 (Sleeplock 1 7) 0 0 0 0 0 0 0 0 0 [].
Definition kernel_of (V : Z -> block) : fsst flat mems :=
  FsSt (parse_sb (V 1)) (disk_inode V 3 (slot 3) :: disk_inode V 1 (slot 1) :: replicate 48 zero_inode)
    (flat_of V 50) (Mems (replicate 16 65) ∅) 7.

Lemma flat_of_rep V n :
  (forall b, b < 0 \/ n <= b -> V b = zero_block) -> jrep (flat_of V n) none_held V.
Proof.
  intros HV. split; [|intros b; rewrite decide_False; [done | set_solver]].
  intros b. unfold f_read, flat_of. cbn [f_blocks]. destruct (decide (0 <= b < n)) as [Hb|Hb].
  - erewrite (elem_of_list_to_map_1 _ b (V b)); [done | |].
    + rewrite <- list_fmap_compose. change (fst ∘ _) with (@id Z). rewrite list_fmap_id. apply NoDup_seqZ.
    + apply list_elem_of_fmap. exists b. split; [done|]. by apply elem_of_seqZ.
  - rewrite (HV b) by lia. rewrite not_elem_of_list_to_map_1; [done|]. rewrite <- list_fmap_compose.
    change (fst ∘ _) with (@id Z). rewrite list_fmap_id, elem_of_seqZ. lia.
Qed.

Lemma kernel_table V : table_ready (kernel_of V).
Proof.
  assert (forall k, (k < NINODE)%nat -> geti (kernel_of V) k = disk_inode V 3 (slot 3) /\ k = 0%nat \/
    geti (kernel_of V) k = disk_inode V 1 (slot 1) /\ k = 1%nat \/ geti (kernel_of V) k = zero_inode) as Hg.
  { intros k Hk. unfold geti, kernel_of. cbn [itable]. destruct k as [|[|k]]; [by left | by right; left|].
    right; right. change ((disk_inode V 3 (slot 3) :: disk_inode V 1 (slot 1) :: replicate 48 zero_inode) !! S (S k))
      with (replicate 48 zero_inode !! k). rewrite lookup_replicate_2 by (unfold NINODE in *; lia). done. }
  split; [split | exists 2%nat | ].
  - done.
  - intros k Hk. destruct (Hg k Hk) as [[-> _]|[[-> _]| ->]]; cbn; lia.
  - intros a b Ha Hb. destruct (Hg a Ha) as [[-> ->]|[[-> ->]| ->]], (Hg b Hb) as [[-> ->]|[[-> ->]| ->]]; cbn; done || lia.
  - split; [unfold NINODE; lia | done].
  - intros k Hk. destruct (Hg k Hk) as [[-> _]|[[-> _]| ->]]; cbn; lia.
Qed.

Lemma mkfs_makes_file_system_witness :
  exists s, mkfs demo_files = Ok tt s /\ parse_sb (img s 1) = mk_sb /\
    is_file (img s) 3 T_FILE 1300 (replicate 1000 7 ++ replicate 300 9).
Proof.
  destruct (mkfs_makes_file_system demo_files demo_fits) as (s & E & _ & Hi). exists s.
  exact (conj E (conj (mi_sb _ _ Hi) (mi_files _ _ Hi 1%nat _ eq_refl))).
Defined.

Lemma demo_first : forall j e, (j < 3)%nat -> dir_list demo_files !! j = Some e -> ~ same_name [82] e.2.
Proof. intros [|[|[|j]]] e Hj He; [injection He as <- ..|lia]; vm_compute; discriminate. Qed.

(** The second file is found by its name, R, in entry 3 of the root directory,
    and 1000 of its 1300 bytes are read from offset 500. *)
Lemma kernel_reads_mkfs_witness :
  exists m, mkfs demo_files = Ok tt m /\
    wp (dirlookup 1 [82] 4096) (kernel_of (img m)) (fun r _ => exists ip, r = Some (ip, 48)) /\
    wp (readi 0 false 8192 500 1000) (kernel_of (img m)) (fun r s' => r = 800 /\ ce_byte false (env s') 8192 = 7).
Proof.
  destruct (mkfs_ok demo_files demo_fits) as (m0 & E0 & Himg & _).
  destruct (kernel_reads_mkfs (J := flat) (U := mems) demo_files 1 _ demo_fits ltac:(vm_compute; discriminate) eq_refl demo_first) as (m & E & Hk).
  assert (m0 = m) as -> by congruence. exists m. split; [exact E|].
  destruct (Hk (kernel_of (img m)) eq_refl (flat_of_rep _ _ (mi_fresh _ _ Himg))) as [Hd Hr]. split.
  - assert (0 <= 4096 /\ 4096 + DIRENT < 2 ^ 64) as [H1 H2] by (unfold DIRENT; lia).
    eapply wp_mono; [exact (Hd 1%nat (slot 1) 4096 eq_refl (kernel_table _) eq_refl (or_introl eq_refl) H1 H2)|].
    intros r s' (ip & -> & _). by exists ip.
  - assert (0 <= 500 < 2 ^ 32 /\ 0 <= 1000 < 2 ^ 32 /\ 0 <= 8192 /\ 8192 + 1000 < 2 ^ 64) as (H1 & H2 & H3 & H4) by lia.
    eapply wp_mono; [exact (Hr 0%nat (slot 3) false 8192 500 1000 eq_refl eq_refl (or_introl eq_refl) H1 H2 H3 H4)|].
    intros r s' [[_ ?]|[-> Hb]]; [discriminate|]. split; [reflexivity|].
    specialize (Hb 500 ltac:(vm_compute; split; [discriminate | reflexivity])).
    assert (Some 7 = Some (ce_byte false (env s') 8192)) as Hb' by exact Hb. by injection Hb'.
Defined.
