(* ===== verification/Ulib.v ===== *)
(** * user/ulib.c: the memory and string routines of user programs

    The pointers walk through the byte-addressed memory of [Mem], as in
    [Cstring], which models the kernel's own copies of these routines. [char]
    is unsigned, as on RISC-V. The loops that end at a NUL run on fuel; one
    step more than the memory has bytes is enough for strcmp always and for
    strcpy when it does not overwrite the NUL it looks for. gets and stat are in
    [Usys], atoi in [Printf].

    The theorem compares them with the routines of the kernel. *)

From stdpp Require Import base gmap list.
From Stdlib Require Import ZArith Lia.
From S2P Require Import Prelude Mem Cstring.

(** strcpy: [while(( *s++ = *t++) != 0);] *)
Fixpoint strcpy_loop (m : mem) (s t : Z) (fuel : nat) : option mem :=
  match fuel with
  | O => None
  | S fuel =>
      let c := load8 m t in
      let m := store8 m s c in
      if nz c then strcpy_loop m (s + 1) (t + 1) fuel else Some m
  end.
Definition strcpy (m : mem) (s t : Z) : option mem := strcpy_loop m s t (S (size m)).

(** strcmp: [while( *p && *p == *q) p++, q++; return (uchar)*p - (uchar)*q;] *)
Fixpoint strcmp_loop (m : mem) (p q : Z) (fuel : nat) : option Z :=
  match fuel with
  | O => None
  | S fuel =>
      if nz (load8 m p) && (load8 m p =? load8 m q) then strcmp_loop m (p + 1) (q + 1) fuel
      else Some (load8 m p - load8 m q)
  end.
Definition strcmp (m : mem) (p q : Z) : option Z := strcmp_loop m p q (S (size m)).

(** memset: [i < n] compares an int with a uint. *)
Definition umemset (m : mem) (dst c n : Z) : mem := memset_loop m dst c 0 (Z.to_nat (u32 n)).

(** memmove: forward when the source is above the destination, else from the
    end; [n] is an int, and a negative one moves nothing. *)
Definition umemmove (m : mem) (vdst vsrc n : Z) : mem :=
  if vdst <? vsrc then copy_forward m vdst vsrc (Z.to_nat n)
  else copy_backward m (vdst + n) (vsrc + n) (Z.to_nat n).
Definition umemcpy (m : mem) (dst src n : Z) : mem := umemmove m dst src (i32 n).

(** memcmp: [while (n-- > 0) { if ( *p1 != *p2) return *p1 - *p2; p1++; p2++; } return 0;] *)
Fixpoint umemcmp_loop (m : mem) (p1 p2 : Z) (k : nat) : Z :=
  match k with
  | O => 0
  | S k =>
      if negb (load8 m p1 =? load8 m p2) then load8 m p1 - load8 m p2
      else umemcmp_loop m (p1 + 1) (p2 + 1) k
  end.
Definition umemcmp (m : mem) (s1 s2 n : Z) : Z := umemcmp_loop m s1 s2 (Z.to_nat (u32 n)).

(** ** Lemmas *)

Lemma umemmove_load8 m dst src n a : 0 <= n ->
  load8 (umemmove m dst src n) a =
  if decide (dst <= a < dst + n) then load8 m (src + (a - dst)) else load8 m a.
Proof.
  intros Hn. unfold umemmove. destruct (Z.ltb_spec dst src); case_decide.
  - replace a with (dst + (a - dst)) at 1 by lia. apply copy_forward_in; lia.
  - apply copy_forward_out. lia.
  - replace a with (dst + n - (dst + n - a)) at 1 by lia. rewrite copy_backward_in by lia. f_equal. lia.
  - apply copy_backward_out. lia.
Qed.

(** strcpy moves the string with its NUL, as a copy forward. *)
Lemma strcpy_forward n : forall m s t fuel, (n < fuel)%nat -> s <= t \/ t + Z.of_nat n < s ->
  (forall i, 0 <= i < Z.of_nat n -> load8 m (t + i) <> 0) -> load8 m (t + Z.of_nat n) = 0 ->
  strcpy_loop m s t fuel = Some (copy_forward m s t (S n)).
Proof.
  induction n as [|n IH]; intros m s t [|fuel] Hf Hd Hnz Hz; try lia; cbn [strcpy_loop]; unfold nz.
  - rewrite Z.add_0_r in Hz. cbn [copy_forward]. by rewrite Hz.
  - pose proof (Hnz 0 ltac:(lia)) as E. rewrite Z.add_0_r in E. destruct (Z.eqb_spec (load8 m t) 0); [done|].
    cbn [negb]. rewrite IH; [done | lia | lia | |].
    + intros i Hi. rewrite load8_store8_ne by lia. replace (t + 1 + i) with (t + (i + 1)) by lia. apply Hnz. lia.
    + rewrite load8_store8_ne by lia. rewrite <- Hz. f_equal. lia.
Qed.

Lemma strcmp_bounded n : forall m p q fuel k, (n < fuel)%nat -> (n < k)%nat ->
  (forall i, 0 <= i < Z.of_nat n -> load8 m (p + i) <> 0) -> load8 m (p + Z.of_nat n) = 0 ->
  strcmp_loop m p q fuel = Some (strncmp_loop m p q k).
Proof.
  induction n as [|n IH]; intros m p q [|fuel] [|k] Hf Hk Hnz Hz; try lia; cbn [strcmp_loop strncmp_loop]; unfold nz.
  - rewrite Z.add_0_r in Hz. by rewrite Hz.
  - destruct (_ && _); [|done]. apply IH; [lia | lia | |].
    + intros i Hi. replace (p + 1 + i) with (p + (i + 1)) by lia. apply Hnz. lia.
    + rewrite <- Hz. f_equal. lia.
Qed.

Lemma umemcmp_zero m k : forall p q, umemcmp_loop m p q k = 0 <-> load_bytes m p k = load_bytes m q k.
Proof.
  induction k as [|k IH]; intros p q; cbn [umemcmp_loop load_bytes]; [done|].
  destruct (Z.eqb_spec (load8 m p) (load8 m q)) as [E|E]; cbn [negb].
  - rewrite IH, E. split; [by intros -> | by injection 1].
  - split; intros H; [lia | congruence].
Qed.

(** The length strlen finds, for the loops that stop at the NUL. *)
Lemma strlen_bound m s : exists n, strlen m s = Some (Z.of_nat n) /\ (n <= size m)%nat /\
  (forall i, 0 <= i < Z.of_nat n -> load8 m (s + i) <> 0) /\ load8 m (s + Z.of_nat n) = 0.
Proof.
  destruct (strlen_loop_total m s 0 (S (size m))) as (r & Hr & H0 & Hz & Hnz); [lia..|].
  exists (Z.to_nat r). rewrite Z2Nat.id by done. split_and!; try done.
  apply (nonzero_run_size m s). by rewrite Z2Nat.id.
Qed.

(** ** The routines of the library and those of the kernel *)

(** The library's memmove, which looks only at the order of the pointers,
    leaves the same memory as the kernel's, which tests for overlap; strcpy
    ends with the string and its NUL moved and no other byte changed, unless it
    runs into its own copy; strcmp ends with what strncmp gives for any bound
    beyond the string; memcmp is 0 exactly when the bytes are equal; memset
    fills its bytes and no other. *)
Theorem library_routines_correct m s t n c : 0 <= n < 2 ^ 31 ->
  (forall a, load8 (umemmove m s t n) a = load8 (memmove m s t n) a) /\
  (exists l, strlen m t = Some l /\ 0 <= l /\
     (s <= t \/ t + l < s -> exists m', strcpy m s t = Some m' /\
        forall a, load8 m' a = load8 (memmove m s t (l + 1)) a) /\
     (forall k, l < k -> strcmp m t s = Some (strncmp m t s k))) /\
  (umemcmp m s t n = 0 <-> load_bytes m s (Z.to_nat n) = load_bytes m t (Z.to_nat n)) /\
  (forall a, load8 (umemset m s c n) a = if decide (s <= a < s + n) then u8 c else load8 m a).
Proof.
  intros Hn. split_and!.
  - intros a. by rewrite umemmove_load8, memmove_load8 by lia.
  - destruct (strlen_bound m t) as (l & El & Hl & Hnz & Hz). exists (Z.of_nat l). split_and!; [done | lia | |].
    + intros Hd. eexists. split; [apply (strcpy_forward l); [lia | lia | done | done]|].
      intros a. rewrite memmove_load8 by lia. case_decide.
      * replace a with (s + (a - s)) at 1 by lia. apply copy_forward_in; lia.
      * apply copy_forward_out. lia.
    + intros k Hk. apply (strcmp_bounded l); [lia | lia | done | done].
  - unfold umemcmp. rewrite u32_id by lia. apply umemcmp_zero.
  - intros a. unfold umemset. rewrite memset_loop_spec, u32_id by lia. repeat case_decide; auto; lia.
Qed.
Lemma library_routines_correct_witness :
  exists m', strcpy (store_bytes ∅ 100 [115; 104; 0; 7]) 102 100 = None /\
    strcpy (store_bytes ∅ 100 [115; 104; 0; 7]) 99 100 = Some m' /\ load_bytes m' 99 4 = [115; 104; 0; 0].
Proof.
  destruct (library_routines_correct (store_bytes ∅ 100 [115; 104; 0; 7]) 99 100 4 0)
    as (_ & (l & El & _ & H & _) & _); [lia|].
  vm_compute in El. injection El as <-. destruct H as (m' & E & _); [lia|].
  exists m'. split; [vm_compute; reflexivity|]. split; [exact E|]. vm_compute in E. injection E as <-. vm_compute. reflexivity.
Defined.
