(* ===== verification/Usys.v ===== *)
(** * User programs as system calls: user/user.h, user/usys.pl, and the parts
    of user/ulib.c and user/printf.c that make calls

    A program runs against a list of answers, what the kernel will return to
    its calls one after the other, and keeps the history of the calls it made.
    It stops at a call that is not answered: the call is then [pending]. exit is
    a call that is never answered, whatever the list holds. So a theorem for
    every list of answers is a theorem for every behaviour of the kernel, errors
    and short transfers included. The only promise of the kernel that is built
    in is that of [Fileio] and [Pipe]: read returns -1, or the number of bytes it
    stored, which is at most the number asked for.

    A char * is an address; [str] gives the C string there, without its NUL. A
    while loop around a system call runs as often as there are answers left,
    which is enough since every turn uses one ([uloop_rule]). *)

From stdpp Require Import base gmap list strings.
From Stdlib Require Import ZArith Lia.
From S2P Require Import Prelude Shell Printf.

(** ** System calls *)

Inductive call : Type :=
  | CFork | CExit (status : Z) | CWait | CPipe
  | CWrite (fd n : Z) (bs : list Z) | CRead (fd n : Z) | CClose (fd : Z)
  | CKill (pid : Z) | CExec (path : list Z) (argv : list (list Z))
  | COpen (path : list Z) (mode : Z) | CMknod (path : list Z) (major minor : Z)
  | CUnlink (path : list Z) | CFstat (fd st : Z) | CLink (old new : list Z)
  | CMkdir (path : list Z) | CDup (fd : Z) | CSleep (n : Z) | CUptime
  | CPslist (p : Z) | CShrimpy (p : Z)
  | CMkvault (path : list Z) | COpenvault (path : list Z) | CClosevault (path : list Z).

(** The value in a0, and the bytes the kernel stored in the caller's memory. *)
Record answer : Type := Ans { a_ret : Z; a_data : list Z }.

Record ust : Type := Ust {
  answers : list answer;
  hist : list (call * answer);
  pending : option call;
}.

Definition syscall (c : call) : M ust answer := fun s =>
  match answers s with
  | a :: r => Ok a (Ust r (hist s ++ [(c, a)]) (pending s))
  | [] => Stop (Sleep 0) (Ust [] (hist s) (Some c))
  end.
Definition exit {A} (status : Z) : M ust A := fun s =>
  Stop (Sleep 0) (Ust (answers s) (hist s) (Some (CExit status))).

(** A system call that returns an int. *)
Definition sys (c : call) : M ust Z := let* a := syscall c in ret (i32 (a_ret a)).

(** The bytes a read of [n] stored, and its value. *)
Definition read_bytes (n : Z) (a : answer) : list Z :=
  if i32 (a_ret a) <? 0 then [] else take (Z.to_nat n) (a_data a).
Definition read_ret (n : Z) (a : answer) : Z :=
  if i32 (a_ret a) <? 0 then -1 else Z.of_nat (length (read_bytes n a)).
Definition read (fd n : Z) : M ust (Z * list Z) :=
  let* a := syscall (CRead fd n) in ret (read_ret n a, read_bytes n a).
Definition open (path : list Z) (mode : Z) : M ust Z := sys (COpen path mode).
Definition close (fd : Z) : M ust unit := let* _ := syscall (CClose fd) in ret tt.
(** write(fd, buf, n) with [bs] at buf. *)
Definition write (fd n : Z) (bs : list Z) : M ust Z := sys (CWrite fd n (take (Z.to_nat n) bs)).

(** ** Loops *)

Fixpoint uloop_n {A B} (fuel : nat) (body : A -> M ust (A + B)) (a : A) : M ust B :=
  match fuel with
  | O => halt NoFuel
  | S fuel => let* r := body a in match r with inl a => uloop_n fuel body a | inr b => ret b end
  end.
Definition uloop {A B} (body : A -> M ust (A + B)) (a : A) : M ust B :=
  fun s => uloop_n (S (length (answers s))) body a s.

Section str.
Context (str : Z -> list Z).

(** fprintf(fd, fmt, ...): vprintf writes one character at a time. *)
Definition putc (fd c : Z) : M ust unit := let* _ := write fd 1 [c] in ret tt.
Definition fprintf (fd : Z) (fmt : list Z) (args : list Z) : M ust unit := fun s =>
  match vprintf str fmt (PSt [] args) with
  | Ok _ p => for_each (outb p) (putc fd) s
  | Stop e p => (for_each (outb p) (putc fd) ;; halt e) s
  end.
Definition uprintf (fmt args : list Z) : M ust unit := fprintf 1 fmt args.

(** gets: the characters read, without the NUL it adds. *)
Definition ugets_body (max : Z) (b : list Z) : M ust (list Z + list Z) :=
  if Z.of_nat (length b) + 1 <? max then
    let* r := read 0 1 in let '(cc, d) := r in
    if cc <? 1 then ret (inr b)
    else
      let c := char_at d 0 in
      let b := b ++ [c] in
      ret (if (c =? 10) || (c =? 13) then inr b else inl b)
  else ret (inr b).
Definition ugets (max : Z) : M ust (list Z) := uloop (ugets_body max) [].

(** stat(n, st): the value, and the bytes of the struct stat. *)
Definition stat (path : list Z) (st : Z) : M ust (Z * list Z) :=
  let* fd := open path 0 in
  if fd <? 0 then ret (-1, [])
  else
    let* a := syscall (CFstat fd st) in
    close fd ;;
    ret (i32 (a_ret a), a_data a).

(** _main: the wrapper around main. *)
Definition main_ (main : M ust Z) : M ust Z := let* _ := main in exit 0.
End str.

(** ** Rules *)

(** [meets Q R r]: the run [r] returns with [Q], or stops with [R]. *)
Definition meets {A} (Q : A -> ust -> Prop) (R : stop -> ust -> Prop) (r : res ust A) : Prop :=
  match r with Ok a s => Q a s | Stop e s => R e s end.

Lemma meets_bind {A B} Q R (m : M ust A) (k : A -> M ust B) s :
  meets (fun a s1 => meets Q R (k a s1)) R (m s) -> meets Q R (bind m k s).
Proof. unfold meets, bind. by destruct (m s). Qed.
Lemma meets_mono {A} (Q Q' : A -> ust -> Prop) (R R' : stop -> ust -> Prop) r :
  meets Q R r -> (forall a s, Q a s -> Q' a s) -> (forall e s, R e s -> R' e s) -> meets Q' R' r.
Proof. unfold meets. destruct r; auto. Qed.
Lemma meets_syscall Q R c s :
  (forall a r, answers s = a :: r -> Q a (Ust r (hist s ++ [(c, a)]) (pending s))) ->
  (answers s = [] -> R (Sleep 0) (Ust [] (hist s) (Some c))) -> meets Q R (syscall c s).
Proof. unfold meets, syscall. destruct (answers s); auto. Qed.
Lemma meets_sys Q R c s :
  (forall a r, answers s = a :: r -> Q (i32 (a_ret a)) (Ust r (hist s ++ [(c, a)]) (pending s))) ->
  (answers s = [] -> R (Sleep 0) (Ust [] (hist s) (Some c))) -> meets Q R (sys c s).
Proof. intros HQ HR. apply meets_bind, meets_syscall; [exact HQ | exact HR]. Qed.
Lemma meets_read (Q : Z * list Z -> ust -> Prop) R fd n s :
  (forall a r, answers s = a :: r -> Q (read_ret n a, read_bytes n a) (Ust r (hist s ++ [(CRead fd n, a)]) (pending s))) ->
  (answers s = [] -> R (Sleep 0) (Ust [] (hist s) (Some (CRead fd n)))) -> meets Q R (read fd n s).
Proof. intros HQ HR. apply meets_bind, meets_syscall; [exact HQ | exact HR]. Qed.

(** The rule of the loops: every turn that goes on uses an answer. *)
Lemma uloop_rule {A B} (body : A -> M ust (A + B)) (I : A -> ust -> Prop) Q (R : stop -> ust -> Prop) :
  (forall a s, I a s -> meets (fun r s' =>
     match r with inl a' => (length (answers s') < length (answers s))%nat /\ I a' s' | inr b => Q b s' end) R (body a s)) ->
  forall a s, I a s -> meets Q R (uloop body a s).
Proof.
  intros Hb. assert (forall n a s, (length (answers s) < n)%nat -> I a s -> meets Q R (uloop_n n body a s)) as H.
  { induction n as [|n IH]; intros a s Hn Hi; [lia|]. cbn [uloop_n]. apply meets_bind.
    eapply meets_mono; [by apply Hb | | done]. intros [a'|b] s'; [|done]. intros [Hl Hi']. apply IH; [lia | done]. }
  intros a s Hi. apply H; [lia | done].
Qed.

(** What a list of calls writes to a descriptor, and what was read from one. *)
Definition sent1 (fd : Z) (c : call) : list Z :=
  match c with CWrite f _ bs => if f =? fd then bs else [] | _ => [] end.
Definition sent (fd : Z) (h : list (call * answer)) : list Z := h ≫= fun e => sent1 fd (fst e).
(** With the bytes of the pending call. *)
Definition offered (fd : Z) (s : ust) : list Z :=
  sent fd (hist s) ++ match pending s with Some c => sent1 fd c | None => [] end.
Definition received1 (fd : Z) (e : call * answer) : list Z :=
  match fst e with CRead f n => if f =? fd then read_bytes n (snd e) else [] | _ => [] end.
Definition received (fd : Z) (h : list (call * answer)) : list Z := h ≫= received1 fd.

Lemma sent_app fd h h' : sent fd (h ++ h') = sent fd h ++ sent fd h'.
Proof. apply bind_app. Qed.
Lemma received_app fd h h' : received fd (h ++ h') = received fd h ++ received fd h'.
Proof. apply bind_app. Qed.
Lemma sent_one fd c a : sent fd [(c, a)] = sent1 fd c.
Proof. apply app_nil_r. Qed.
Lemma received_one fd c a : received fd [(c, a)] = received1 fd (c, a).
Proof. apply app_nil_r. Qed.
#[export] Hint Rewrite sent_app received_app sent_one received_one : xv6.

(** The calls of a printf. *)
Definition prints (fd : Z) (e : call * answer) : Prop := exists c, fst e = CWrite fd 1 [c].
Lemma prints_received fd fd' evs : Forall (prints fd) evs -> received fd' evs = [].
Proof. induction 1 as [|[c a] evs [x Hx] _ IH]; [done|]. cbn in Hx. subst. exact IH. Qed.
Lemma prints_sent fd fd' evs : Forall (prints fd) evs -> fd' <> fd -> sent fd' evs = [].
Proof.
  intros H Hne. induction H as [|[c a] evs [x Hx] _ IH]; [done|]. cbn in Hx. subst.
  change (sent fd' ((CWrite fd 1 [x], a) :: evs)) with ((if fd =? fd' then [x] else []) ++ sent fd' evs).
  destruct (Z.eqb_spec fd fd'); [congruence|]. done.
Qed.

Lemma put_chars_rule fd out : forall s,
  meets (fun _ s' => exists evs, hist s' = hist s ++ evs /\ Forall (prints fd) evs /\ sent fd evs = out /\
           pending s' = pending s /\ (length (answers s') <= length (answers s))%nat)
        (fun e s' => e = Sleep 0 /\ exists evs c more, hist s' = hist s ++ evs /\ Forall (prints fd) evs /\
           pending s' = Some (CWrite fd 1 [c]) /\ out = sent fd evs ++ c :: more)
        (for_each out (putc fd) s).
Proof.
  induction out as [|c out IH]; intros s; cbn [for_each].
  { exists []. rewrite app_nil_r. done. }
  apply meets_bind. unfold putc at 1. apply meets_bind. change (write fd 1 [c]) with (sys (CWrite fd 1 [c])). apply meets_sys.
  - intros a r Ea. cbn beta iota. cbn [ret meets]. eapply meets_mono; [apply IH | |]; cbn [hist answers pending].
    + intros _ s' (evs & Eh & Hp & Es & Epd & Hl). exists ((CWrite fd 1 [c], a) :: evs). split_and!.
      * rewrite Eh, <- app_assoc. done.
      * constructor; [by exists c | done].
      * change (sent fd ((CWrite fd 1 [c], a) :: evs)) with ((if fd =? fd then [c] else []) ++ sent fd evs).
        rewrite Z.eqb_refl. by rewrite Es.
      * done.
      * rewrite Ea. cbn [length]. lia.
    + intros e s' [He (evs & x & more & Eh & Hp & Epd & Eo)]. split; [done|].
      exists ((CWrite fd 1 [c], a) :: evs), x, more. split_and!.
      * rewrite Eh, <- app_assoc. done.
      * constructor; [by exists c | done].
      * done.
      * change (sent fd ((CWrite fd 1 [c], a) :: evs)) with ((if fd =? fd then [c] else []) ++ sent fd evs).
        rewrite Z.eqb_refl. by rewrite Eo.
  - intros Ea. split; [done|]. exists [], c, out. rewrite app_nil_r. done.
Qed.

(** fprintf writes exactly its text, or stops inside it. *)
Lemma fprintf_rule str fd fmt args out s :
  (exists p, vprintf str fmt (PSt [] args) = Ok tt p /\ outb p = out) ->
  meets (fun _ s' => exists evs, hist s' = hist s ++ evs /\ Forall (prints fd) evs /\ sent fd evs = out /\
           pending s' = pending s /\ (length (answers s') <= length (answers s))%nat)
        (fun e s' => e = Sleep 0 /\ exists evs c more, hist s' = hist s ++ evs /\ Forall (prints fd) evs /\
           pending s' = Some (CWrite fd 1 [c]) /\ out = sent fd evs ++ c :: more)
        (fprintf str fd fmt args s).
Proof. intros (p & E & <-). unfold fprintf. rewrite E. apply put_chars_rule. Qed.
