(* ===== verification/Tools.v ===== *)
(** * The user programs: cat, wc, cp, touch, echo, rm, mkdir, ln, kill, sleep,
    stat, ls, ps, zombie, shrimpy, openvault, closevault, bestfit, bursty,
    waste, init, and the reading of commands of sh

    Each program is the sequence of system calls of its source over [Usys]:
    one definition per function, with the messages it prints. [argv] is the
    list of argc pointers; [str] gives the string at an address, [byte] the
    byte there. The theorems are in [Toolsok]. *)

From stdpp Require Import base gmap list strings.
From Stdlib Require Import ZArith Lia.
From S2P Require Import Prelude Bytes Sysfile Shell Printf Usys.

(** The text of a line. *)
Definition line (s : string) : list Z := bytes s ++ [10].

(** argv[i]: exec ends the array with a null pointer. *)
Definition arg (argv : list Z) (i : nat) : Z := default 0 (argv !! i).
Definition argc (argv : list Z) : Z := Z.of_nat (length argv).

(** The while loop of wc over the bytes of a buffer. *)
Definition wc_seps : list Z := [32; 13; 9; 10; 11].
Record counts : Type := Counts { wl : Z; ww : Z; wc_c : Z; inword : bool }.
Definition wc_byte (k : counts) (b : Z) : counts :=
  let c := i32 (wc_c k + 1) in
  let l := if b =? 10 then i32 (wl k + 1) else wl k in
  if strchr wc_seps b then Counts l (ww k) c false
  else if negb (inword k) then Counts l (i32 (ww k + 1)) c true
  else Counts l (ww k) c (inword k).

(** ls.c: the name after the last slash, padded with blanks; the loop runs over
    [n] = p - path + 1, from the NUL of the path down. *)
Definition DIRSIZ : nat := 14.
Fixpoint last_slash (path : list Z) (n : nat) : nat :=
  match n with
  | O => O
  | S p => if char_at path p =? 47 then n else last_slash path p
  end.
Definition fmtname (path : list Z) : list Z :=
  let p := drop (last_slash path (S (length path))) path in
  if (DIRSIZ <=? length p)%nat then p else p ++ replicate (DIRSIZ - length p) 32.

(** struct stat as the calls fill it. *)
Definition st_dev (d : list Z) : Z := i32 (ld32 d 0).
Definition st_ino (d : list Z) : Z := ld32 d 4.
Definition st_type (d : list Z) : Z := i16 (ld16 d 8).
Definition st_nlink (d : list Z) : Z := i16 (ld16 d 10).
Definition st_size (d : list Z) : Z := ld d 16 8.
Definition st_is_vault (d : list Z) : Z := i32 (ld32 d 24).
Definition st_vault_id (d : list Z) : Z := i32 (ld32 d 28).

(** bursty.c: rand. *)
Definition rand_next (r : Z) : Z := u64 (r * 1664525 + 1013904223).
Definition rand_value (r : Z) : Z := u32 (u32 (r mod 300) + 150).

Section programs.
Context (str : Z -> list Z) (byte : Z -> Z).

(** printf with a string the program built as its first argument. *)
Definition printf_s (fmt : list Z) (s : list Z) (args : list Z) : M ust unit :=
  uprintf (fun p => if p =? 1 then s else str p) fmt (1 :: args).

(** ** cat.c *)
Definition cat_body (fd : Z) (_ : unit) : M ust (unit + Z) :=
  let* (n, b) := read fd 512 in
  if 0 <? n then
    let* w := write 1 n b in
    if negb (w =? n) then fprintf str 2 (line "cat: write error") [] ;; exit 1 else ret (inl tt)
  else ret (inr n).
Definition cat (fd : Z) : M ust unit :=
  let* n := uloop (cat_body fd) tt in
  when (n <? 0) (fprintf str 2 (line "cat: read error") [] ;; exit 1).
Definition cat_main (argv : list Z) : M ust Z :=
  when (argc argv <=? 1) (cat 0 ;; exit 0) ;;
  for_each (tail argv) (fun p =>
    let* fd := open (str p) 0 in
    if fd <? 0 then fprintf str 2 (line "cat: cannot open %s") [p] ;; exit 1
    else cat fd ;; close fd) ;;
  exit 0.

(** ** wc.c *)
Definition wc_body (fd : Z) (k : counts) : M ust (counts + (Z * counts)) :=
  let* (n, b) := read fd 512 in
  if 0 <? n then ret (inl (fold_left wc_byte b k)) else ret (inr (n, k)).
Definition wc (fd name : Z) : M ust unit :=
  let* (n, k) := uloop (wc_body fd) (Counts 0 0 0 false) in
  when (n <? 0) (uprintf str (line "wc: read error") [] ;; exit 1) ;;
  uprintf str (line "%d %d %d %s") [wl k; ww k; wc_c k; name].
(** [empty] is the address of the literal of main, the empty string. *)
Definition wc_main (empty : Z) (argv : list Z) : M ust Z :=
  when (argc argv <=? 1) (wc 0 empty ;; exit 0) ;;
  for_each (tail argv) (fun p =>
    let* fd := open (str p) 0 in
    if fd <? 0 then uprintf str (line "wc: cannot open %s") [p] ;; exit 1
    else wc fd p ;; close fd) ;;
  exit 0.

(** ** cp.c: bytes_read and bytes_written are unsigned *)
Definition cp_body (src_fd dest_fd des_2 : Z) (_ : unit) : M ust (unit + Z) :=
  let* (n, b) := read src_fd 512 in
  let bytes_read := u32 n in
  if 0 <? bytes_read then
    let* w := write dest_fd (i32 bytes_read) b in
    let bytes_written := u32 w in
    if negb (bytes_written =? bytes_read) then fprintf str 2 (line "cp: error writing to %s") [des_2] ;; exit 1
    else ret (inl tt)
  else ret (inr bytes_read).
Definition cp (des_1 des_2 : Z) : M ust unit :=
  let* src_fd := open (str des_1) O_RDONLY in
  when (src_fd <? 0) (fprintf str 2 (line "cp: cannot open %s") [byte (des_1 + 1)] ;; exit 1) ;;
  let* dest_fd := open (str des_2) (Z.lor (Z.lor O_WRONLY O_CREATE) O_TRUNC) in
  when (dest_fd <? 0) (fprintf str 2 (line "cp: cannot create %s") [des_2] ;; exit 1) ;;
  let* bytes_read := uloop (cp_body src_fd dest_fd des_2) tt in
  when (bytes_read <? 0) (fprintf str 2 (line "cp: error reading from %s") [des_1] ;; exit 1) ;;
  close src_fd ;;
  close dest_fd.
Definition cp_main (argv : list Z) : M ust Z :=
  when (negb (argc argv =? 3)) (fprintf str 2 (line "Usage: cp source_file destination_file") [] ;; exit 1) ;;
  cp (arg argv 1) (arg argv 2) ;;
  exit 0.

(** ** touch.c *)
Definition touch_body (dest : Z) (_ : unit) : M ust (unit + unit) :=
  let* (n, b) := read dest 512 in
  let bytes_read := u32 n in
  if 0 <? bytes_read then
    let* w := write dest (i32 bytes_read) b in
    let bytes_written := u32 w in
    if negb (bytes_written =? bytes_read) then fprintf str 2 (line "touch: error creating %s") [dest] ;; exit 1
    else ret (inl tt)
  else ret (inr tt).
Definition touch (des_1 : Z) : M ust unit :=
  let* dest := open (str des_1) O_CREATE in
  uloop (touch_body dest) tt.
Definition touch_main (argv : list Z) : M ust Z :=
  when (negb (argc argv =? 2)) (fprintf str 2 (line "Usage: touch name_of_file with any type of extension") [] ;; exit 1) ;;
  touch (arg argv 1) ;;
  exit 0.

(** ** echo.c: the loop over argv[1 ..] *)
Fixpoint echo_loop (args : list Z) : M ust unit :=
  match args with
  | [] => ret tt
  | p :: args =>
      let* _ := write 1 (Z.of_nat (length (str p))) (str p) in
      let* _ := match args with [] => write 1 1 [10] | _ => write 1 1 [32] end in
      echo_loop args
  end.
Definition echo_main (argv : list Z) : M ust Z := echo_loop (tail argv) ;; exit 0.

(** ** rm.c, mkdir.c, ln.c, kill.c, sleep.c, zombie.c *)
Definition each_until (c : list Z -> call) (msg : string) (args : list Z) : M ust unit :=
  let* _ := for_until args (fun p =>
    let* r := sys (c (str p)) in
    if r <? 0 then fprintf str 2 (line msg) [p] ;; ret (Some tt) else ret None) in
  ret tt.
Definition rm_main (argv : list Z) : M ust Z :=
  when (argc argv <? 2) (fprintf str 2 (line "Usage: rm files...") [] ;; exit 1) ;;
  each_until CUnlink "rm: %s failed to delete" (tail argv) ;;
  exit 0.
Definition mkdir_main (argv : list Z) : M ust Z :=
  when (argc argv <? 2) (fprintf str 2 (line "Usage: mkdir files...") [] ;; exit 1) ;;
  each_until CMkdir "mkdir: %s failed to create" (tail argv) ;;
  exit 0.
Definition ln_main (argv : list Z) : M ust Z :=
  when (negb (argc argv =? 3)) (fprintf str 2 (line "Usage: ln old new") [] ;; exit 1) ;;
  let* r := sys (CLink (str (arg argv 1)) (str (arg argv 2))) in
  when (r <? 0) (fprintf str 2 (line "link %s %s: failed") [arg argv 1; arg argv 2]) ;;
  exit 0.
Definition kill_main (argv : list Z) : M ust Z :=
  when (argc argv <? 2) (fprintf str 2 (line "usage: kill pid...") [] ;; exit 1) ;;
  for_each (tail argv) (fun p => let* _ := sys (CKill (atoi (str p))) in ret tt) ;;
  exit 0.
Definition sleep_main (argv : list Z) : M ust Z :=
  let* _ := sys (CSleep (atoi (str (arg argv 1)))) in
  exit 0.
Definition zombie_main : M ust Z :=
  let* pid := sys CFork in
  when (0 <? pid) (let* _ := sys (CSleep 5) in ret tt) ;;
  exit 0.

(** ** stat.c: [st] and [mkv] are global pointers that nothing sets *)
Definition stat_main (argv : list Z) : M ust Z :=
  when (negb (argc argv =? 2)) (fprintf str 2 (line "Usage: stat name_of_file with any type of extension") [] ;; exit 1) ;;
  let* (r, d) := stat (str (arg argv 1)) 0 in
  if r =? -1 then uprintf str (line "Error: Something happend") [] ;; exit (-1)
  else
    uprintf str (line "Device: %d") [st_dev d] ;;
    uprintf str (line "Inode: %d") [st_ino d] ;;
    uprintf str (line "Type: %d") [st_type d] ;;
    uprintf str (line "nlink: %d") [st_nlink d] ;;
    uprintf str (line "size: %d") [st_size d] ;;
    uprintf str (line "is_vault: %d") [st_is_vault d] ;;
    uprintf str (line "vault_id: %d") [st_vault_id d] ;;
    exit 0.

(** ** openvault.c, closevault.c: the same global pointer [st] *)
Definition openvault_main (argv : list Z) : M ust Z :=
  when (negb (argc argv =? 2)) (fprintf str 2 (line "Usage: openvault name_of_directory ") [] ;; exit 1) ;;
  let* fd := open (str (arg argv 1)) O_RDONLY in
  when (fd <? 0) (fprintf str 2 (line "openvault: cannot open %s") [arg argv 1] ;; exit 1) ;;
  let* r := sys (CFstat fd 0) in
  when (r <? 0) (fprintf str 2 (line "openvault: cannot stat %s") [arg argv 1] ;; close fd ;; exit 1) ;;
  let* _ := sys (COpenvault (str (arg argv 1))) in
  ret 0.
Definition closevault_main (argv : list Z) : M ust Z :=
  when (negb (argc argv =? 2)) (fprintf str 2 (line "Usage: closevault name_of_directory ") [] ;; exit 1) ;;
  let* fd := open (str (arg argv 1)) O_RDONLY in
  when (fd <? 0) (fprintf str 2 (line "closevault: cannot open %s") [arg argv 1] ;; exit 1) ;;
  let* r := sys (CFstat fd 0) in
  when (r <? 0) (fprintf str 2 (line "closevault: cannot stat %s") [arg argv 1] ;; close fd ;; exit 1) ;;
  let* _ := sys (CClosevault (str (arg argv 1))) in
  close fd ;;
  ret 0.

(** ** ls.c: a file's line, the entries of a directory, and main.
    [buf] has 512 bytes; a store past its end is a fault. *)
Definition ls_file (path d : list Z) : M ust unit :=
  printf_s (line "%s %d %d %l") (fmtname path) [st_type d; st_ino d; st_size d].
Definition ls_entry (path : list Z) (fd : Z) (_ : unit) : M ust (unit + unit) :=
  let* (n, de) := read fd 16 in
  if negb (n =? 16) then ret (inr tt)
  else if ld16 de 0 =? 0 then ret (inl tt)
  else if (512 <=? length path + 1 + DIRSIZ)%nat then fault "ls: buf"
  else
    let buf := path ++ [47] ++ str_at (take DIRSIZ (drop 2 de) ++ [0]) 0 in
    let* (r, d) := stat buf 1 in
    if r <? 0 then printf_s (line "ls: cannot stat %s") buf [] ;; ret (inl tt)
    else printf_s (line "%s %d %d %d") (fmtname buf) [st_type d; st_ino d; st_size d] ;; ret (inl tt).
Definition ls (path : list Z) : M ust unit :=
  let* fd := open path 0 in
  if fd <? 0 then fprintf (fun p => if p =? 1 then path else str p) 2 (line "ls: cannot open %s") [1]
  else
    let* a := syscall (CFstat fd 1) in
    if i32 (a_ret a) <? 0 then
      fprintf (fun p => if p =? 1 then path else str p) 2 (line "ls: cannot stat %s") [1] ;;
      close fd
    else
      let d := a_data a in
      (if (st_type d =? 3) || (st_type d =? 2) then ls_file path d
       else if st_type d =? 1 then
         if (512 <? length path + 1 + DIRSIZ + 1)%nat then uprintf str (line "ls: path too long") []
         else uloop (ls_entry path fd) tt
       else ret tt) ;;
      close fd.
Definition ls_main (argv : list Z) : M ust Z :=
  when (argc argv <? 2) (ls (bytes ".") ;; exit 0) ;;
  for_each (tail argv) (fun p => ls (str p)) ;;
  exit 0.

(** ** ps.c, shrimpy.c: [uproc] and [shrimp] are the addresses passed *)
Definition ps_main (uproc : Z) : M ust Z :=
  let* n := sys (CPslist uproc) in
  when (n <? 0) (uprintf str (line "pslist call failed") [] ;; exit 1) ;;
  uprintf str (line "number of processes: %d") [n] ;;
  ret 0.
Definition shrimpy_main : M ust Z :=
  uprintf str (line "========================") [] ;;
  uprintf str (line "Running tests for shrimpy...") [] ;;
  let* _ := sys (CShrimpy 0) in
  ret 0.

(** ** bestfit.c: [malloc i] is the result of the i-th request *)
Definition bestfit (malloc : nat -> Z) (sizes : list Z) : M ust unit :=
  for_each (zip (seq 0 (length sizes)) sizes) (fun '(i, nbytes) =>
    uprintf str (line "Allocating %d bytes of memory...") [nbytes] ;;
    if malloc i =? 0 then uprintf str (line "Memory allocation failed for %d bytes") [nbytes]
    else uprintf str (line "Memory allocated successfully at address: %p") [malloc i]).
Definition bestfit_main (malloc : nat -> Z) : M ust Z :=
  bestfit malloc [10; 20; 30; 15; 25; 35] ;; ret 0.

(** ** bursty.c, waste.c: endless loops *)
Definition uptime : M ust Z := let* r := sys CUptime in ret (u64 r).
Definition bursty_body (randstate : Z) : M ust (Z + Z) :=
  let* start := uptime in
  let* end_ := uptime in
  uprintf str (line "bursty: %d, %d") [start; u64 (end_ - start)] ;;
  let randstate := rand_next randstate in
  let* _ := sys (CSleep (i32 (rand_value randstate))) in
  ret (inl randstate).
Definition bursty_main : M ust Z :=
  let* randstate := uptime in uloop bursty_body randstate.
Definition waste_body (_ : unit) : M ust (unit + Z) :=
  let* start := uptime in
  let* end_ := uptime in
  uprintf str (line "waste: %d, %d") [start; u64 (end_ - start)] ;;
  ret (inl tt).
Definition waste_main : M ust Z := uloop waste_body tt.

(** ** init.c: the loop over wait, a turn of the outer loop, and main *)
Definition init_wait (pid : Z) (_ : unit) : M ust (unit + unit) :=
  let* wpid := sys CWait in
  if wpid =? pid then ret (inr tt)
  else if wpid <? 0 then uprintf str (line "init: wait returned an error") [] ;; exit 1
  else ret (inl tt).
Definition init_turn (_ : unit) : M ust (unit + Z) :=
  uprintf str (line "init: starting sh") [] ;;
  let* pid := sys CFork in
  when (pid <? 0) (uprintf str (line "init: fork failed") [] ;; exit 1) ;;
  when (pid =? 0)
    (let* _ := sys (CExec (bytes "sh") [bytes "sh"]) in
     uprintf str (line "init: exec sh failed") [] ;; exit 1) ;;
  uloop (init_wait pid) tt ;;
  ret (inl tt).
Definition init_main : M ust Z :=
  let* fd := open (bytes "console") O_RDWR in
  when (fd <? 0)
    (let* _ := sys (CMknod (bytes "console") 1 0) in
     let* _ := open (bytes "console") O_RDWR in ret tt) ;;
  let* _ := sys (CDup 0) in
  let* _ := sys (CDup 0) in
  uloop init_turn tt.

(** ** sh.c: getcmd, and the opening of the console in main *)
Definition getcmd (nbuf : Z) : M ust (Z * list Z) :=
  let* _ := write 2 2 (bytes "$ ") in
  let* b := ugets nbuf in
  ret (if char_at b 0 =? 0 then -1 else 0, b).
Definition sh_console (_ : unit) : M ust (unit + unit) :=
  let* fd := open (bytes "console") O_RDWR in
  if 0 <=? fd then if 3 <=? fd then close fd ;; ret (inr tt) else ret (inl tt) else ret (inr tt).
End programs.
