(* ===== verification/Toolsok.v ===== *)
(** * The user programs are correct whatever the kernel answers

    cat and cp hand on exactly the bytes they read; wc counts lines, words and
    bytes for every way the input comes in; echo, rm and init do what they are
    for. The theorems quantify over the list of answers of [Usys]. The last ones
    show what the unsigned byte counts of cp and touch do to an error. *)

From stdpp Require Import base gmap list strings.
From Stdlib Require Import ZArith Lia.
From S2P Require Import Prelude Bytes Sysfile Shell Printf Usys Tools.

(** ** printf with enough arguments returns *)

(** The arguments a format takes. *)
Fixpoint takes (state : bool) (fmt : list Z) : nat :=
  match fmt with
  | [] => O
  | c :: fmt =>
      if c =? 0 then O
      else if negb state then takes (c =? 37) fmt
      else ((if existsb (Z.eqb c) (bytes "dlxpsc") then 1 else 0) + takes false fmt)%nat
  end.

Section total.
Context (str : Z -> list Z).

(** The code [m] returns and takes [n] arguments. *)
Definition prints_with (n : nat) (m : M pst unit) : Prop :=
  forall s, (n <= length (va s))%nat -> exists p, m s = Ok tt p /\ va p = drop n (va s).

Lemma with_consputc c : prints_with 0 (consputc c).
Proof. intros s _. eexists. split; [done|]. by rewrite drop_0. Qed.
Lemma with_each l : prints_with 0 (for_each l consputc).
Proof.
  induction l as [|c l IH]; intros s _; cbn [for_each]; [eexists; split; [done|]; by rewrite drop_0|].
  destruct (IH (PSt (outb s ++ [u8 c]) (va s)) (Nat.le_0_l _)) as (p & E & V). exists p. split; [exact E | exact V].
Qed.
Lemma with_bind n k m1 m2 : prints_with n m1 -> prints_with k m2 -> prints_with (n + k) (m1 ;; m2).
Proof.
  intros H1 H2 s Hs. destruct (H1 s) as (p & E & V); [lia|]. destruct (H2 p) as (q & E' & V').
  { rewrite V, length_drop. lia. }
  exists q. split; [by rewrite (bind_run _ _ _ _ _ E)|]. rewrite V', V, drop_drop. done.
Qed.
Lemma with_arg (m : Z -> M pst unit) : (forall w, prints_with 0 (m w)) -> prints_with 1 (let* w := va_arg in m w).
Proof.
  intros Hm s Hs. destruct (va s) as [|w ws] eqn:E; [cbn in Hs; lia|].
  destruct (Hm w (PSt (outb s) ws) (Nat.le_0_l _)) as (p & Ep & V). exists p. split.
  - unfold bind, va_arg. by rewrite E.
  - rewrite V. done.
Qed.
Lemma with_int x base sg : base = 10 \/ base = 16 -> prints_with 0 (uprintint (i32 x) base sg).
Proof.
  intros Hb s _. unfold uprintint. destruct digits_are as [_ Hu].
  destruct (put_number udigits base (if sg && (i32 x <? 0) then u32 (- i32 x) else u32 (i32 x)) (sg && (i32 x <? 0)) s Hu Hb)
    as (ks & E & _); [destruct (_ && _); apply u32_range|].
  eexists. split; [exact E|]. cbn [va]. by rewrite drop_0.
Qed.
Lemma with_ptr n x : prints_with 0 (ptr_loop n udigits x).
Proof.
  revert x. induction n as [|n IH]; intros x; cbn [ptr_loop]; [intros s _; eexists; split; [done|]; by rewrite drop_0|].
  apply (with_bind 0 0); [apply with_consputc | apply IH].
Qed.

Lemma vprintf_total fmt : forall st, prints_with (takes st fmt) (vprintf_loop str st fmt).
Proof.
  induction fmt as [|c fmt IH]; intros st; cbn [takes vprintf_loop]; [intros s _; eexists; split; [done|]; by rewrite drop_0|].
  destruct (c =? 0); [intros s _; eexists; split; [done|]; by rewrite drop_0|].
  destruct st; cbn [negb].
  - apply with_bind; [|apply IH].
    change (existsb (Z.eqb c) (bytes "dlxpsc")) with ((c =? 100) || ((c =? 108) || ((c =? 120) || ((c =? 112) || ((c =? 115) || ((c =? 99) || false)))))).
    destruct (c =? 100); [apply with_arg; intros; apply with_int; by left|].
    destruct (c =? 108); [apply with_arg; intros; apply with_int; by left|].
    destruct (c =? 120); [apply with_arg; intros; apply with_int; by right|].
    destruct (c =? 112); [apply with_arg; intros; apply (with_bind 0 0), (with_bind 0 0); auto using with_consputc, with_ptr|].
    destruct (c =? 115); [apply with_arg; intros; apply with_each|].
    destruct (c =? 99); [apply with_arg; intros; apply with_consputc|].
    cbn [orb]. destruct (c =? 37); [apply with_consputc|]. apply (with_bind 0 0); apply with_consputc.
  - destruct (c =? 37); [apply IH|]. apply (with_bind 0); [apply with_consputc | apply IH].
Qed.

(** A message: it is put out, or the program stops inside it. *)
Definition said (fd : Z) (s s' : ust) : Prop :=
  exists evs, hist s' = hist s ++ evs /\ Forall (prints fd) evs /\ (length (answers s') <= length (answers s))%nat.
Lemma says fd fmt args s : (takes false fmt <= length args)%nat ->
  meets (fun _ s' => said fd s s' /\ pending s' = pending s)
        (fun e s' => e = Sleep 0 /\ exists evs c, hist s' = hist s ++ evs /\ Forall (prints fd) evs /\ pending s' = Some (CWrite fd 1 [c]))
        (fprintf str fd fmt args s).
Proof.
  intros Hn. destruct (vprintf_total fmt false (PSt [] args) Hn) as (p & E & _).
  eapply meets_mono; [apply (fprintf_rule str fd fmt args (outb p)); by exists p | |]; cbn beta.
  - intros _ s' (evs & Eh & Hp & _ & Epd & Hl). split; [by exists evs | done].
  - intros e s' [-> (evs & c & more & Eh & Hp & Epd & _)]. split; [done|]. by exists evs, c.
Qed.
(** A message on fd 2 and exit(1): nothing more is offered on another descriptor. *)
Lemma fails {A} fmt args s status (Q : A -> ust -> Prop) (R : stop -> ust -> Prop) fd : (takes false fmt <= length args)%nat ->
  (forall s' evs c, hist s' = hist s ++ evs -> Forall (prints fd) evs ->
     pending s' = Some c -> c = CExit status \/ (exists x, c = CWrite fd 1 [x]) -> R (Sleep 0) s') ->
  meets Q R ((fprintf str fd fmt args ;; exit status) s).
Proof.
  intros Hn HR. apply meets_bind. eapply meets_mono; [by apply says | |]; cbn beta.
  - intros _ s' [(evs & Eh & Hp & _) Epd]. unfold exit. cbn [meets]. eapply (HR _ evs); [exact Eh | done | done | by left].
  - intros e s' [-> (evs & c & Eh & Hp & Epd)]. eapply HR; [done | done | done |]. right. by exists c.
Qed.
End total.

(** ** Transfers *)

(** The transfers of a history succeeded: no read failed, and every write to
    [fd] took all the bytes it was given. *)
Definition went_well (fd : Z) (e : call * answer) : Prop :=
  match e with
  | (CRead _ n, a) => 0 <= read_ret n a
  | (CWrite f n _, a) => f = fd -> i32 (a_ret a) = n
  | _ => True
  end.

Lemma read_bytes_len n a : 0 < read_ret n a -> 0 <= n -> length (read_bytes n a) = Z.to_nat (read_ret n a).
Proof. unfold read_ret. destruct (_ <? 0); lia. Qed.
Lemma read_bytes_none n a : read_ret n a <= 0 -> read_bytes n a = [].
Proof.
  unfold read_ret. destruct (i32 (a_ret a) <? 0) eqn:E; [unfold read_bytes; by rewrite E|].
  destruct (read_bytes n a); [done | cbn; lia].
Qed.
Lemma read_ret_range n a : 0 <= n -> -1 <= read_ret n a <= n.
Proof.
  intros Hn. unfold read_ret, read_bytes. destruct (_ <? 0); [lia|]. rewrite length_take. lia.
Qed.
Lemma read_all n a : 0 < read_ret n a -> take (Z.to_nat (read_ret n a)) (read_bytes n a) = read_bytes n a.
Proof. intros H. apply take_ge. unfold read_ret in *. destruct (_ <? 0); lia. Qed.
Lemma received_read fd n a : received1 fd (CRead fd n, a) = read_bytes n a.
Proof. unfold received1. cbn [fst snd]. by rewrite Z.eqb_refl. Qed.
Lemma sent_write fd n bs : sent1 fd (CWrite fd n bs) = bs.
Proof. cbn. by rewrite Z.eqb_refl. Qed.

Lemma offered_quiet fd s : match pending s with Some c => sent1 fd c = [] | None => True end -> offered fd s = sent fd (hist s).
Proof. unfold offered. destruct (pending s) as [c|]; [intros ->|]; by rewrite app_nil_r. Qed.

Section cat.
Context (str : Z -> list Z) (fd : Z).

(** Between two turns: everything read was handed on. *)
Definition copied (_ : unit) (s : ust) : Prop :=
  pending s = None /\ sent 1 (hist s) = received fd (hist s) /\ Forall (went_well 1) (hist s).
(** When the program stops. *)
Definition cat_stops (e : stop) (s : ust) : Prop :=
  e = Sleep 0 /\ offered 1 s = received fd (hist s) /\
  (pending s = Some (CExit 1) -> ~ Forall (went_well 1) (hist s)).

(** A message about a failed transfer, then exit(1). *)
Lemma cat_fails {A} msg s (Q : A -> ust -> Prop) : takes false (line msg) = O ->
  sent 1 (hist s) = received fd (hist s) -> ~ Forall (went_well 1) (hist s) ->
  meets Q cat_stops ((fprintf str 2 (line msg) [] ;; exit 1) s).
Proof.
  intros Hm He Hf. apply fails; [cbn [length]; lia|]. intros s' evs c Eh Hp Epd Hc. split; [done|].
  assert (sent 1 (hist s') = received fd (hist s')) as Es.
  { rewrite Eh, sent_app, received_app, (prints_sent 2 1 evs), (prints_received 2 fd evs), !app_nil_r by done; done. }
  split; [|intros _; rewrite Eh, Forall_app; tauto].
  rewrite <- Es. apply offered_quiet. rewrite Epd. destruct Hc as [->|[x ->]]; done.
Qed.

Lemma cat_turn u s : copied u s -> meets (fun r s' => match r with
    | inl a => (length (answers s') < length (answers s))%nat /\ copied a s'
    | inr n => pending s' = None /\ sent 1 (hist s') = received fd (hist s') /\ n <= 0 /\
        exists h a, hist s' = h ++ [(CRead fd 512, a)] /\ Forall (went_well 1) h /\ n = read_ret 512 a
    end) cat_stops (cat_body str fd u s).
Proof.
  intros (Hp & He & Hw). apply meets_bind, meets_read.
  2: { intros _. split; [done|]. split; [by rewrite offered_quiet | done]. }
  intros a r Ea. cbn beta iota. pose proof (read_ret_range 512 a ltac:(lia)) as Hr.
  destruct (Z.ltb_spec 0 (read_ret 512 a)) as [Hpos|Hneg].
  - apply meets_bind. unfold write. rewrite read_all by done. apply meets_sys; cbn [answers hist pending].
    + intros w r' ->. cbn beta iota. set (s2 := Ust r' _ _).
      assert (sent 1 (hist s2) = received fd (hist s2)) as Es.
      { unfold s2. cbn [hist]. autorewrite with xv6. rewrite He, received_read, sent_write. cbn. by rewrite !app_nil_r. }
      destruct (Z.eqb_spec (i32 (a_ret w)) (read_ret 512 a)) as [Ew|Ew]; cbn [negb].
      * cbn [ret meets]. split; [rewrite Ea; cbn; lia|]. split_and!; [done | done|].
        unfold s2. cbn [hist]. rewrite !Forall_app. split_and!; [done | |]; apply Forall_singleton; cbn; [lia | done].
      * apply cat_fails; [reflexivity | done|]. unfold s2. cbn [hist]. rewrite !Forall_app.
        intros [_ H]. rewrite Forall_singleton in H. cbn in H. auto.
    + intros _. split; [done|]. split; [|done]. unfold offered. cbn [hist pending]. autorewrite with xv6.
      rewrite He, received_read, sent_write. cbn. by rewrite app_nil_r.
  - cbn [ret meets hist pending]. split_and!; [done | | lia | by exists (hist s), a].
    autorewrite with xv6. rewrite He, received_read, read_bytes_none by lia. done.
Qed.
End cat.

(** C38: cat loses, invents and reorders no byte, whatever the kernel answers:
    however the run ends, the bytes handed to write on descriptor 1 are the
    bytes the reads returned. It returns only after a read said end of file, with
    every transfer complete; it exits with status 1 only after a read failed or
    a write took less than it was given. *)
Theorem cat_copies str fd ans :
  meets (fun _ s => sent 1 (hist s) = received fd (hist s) /\ Forall (went_well 1) (hist s) /\
           exists h a, hist s = h ++ [(CRead fd 512, a)] /\ read_ret 512 a = 0)
        (cat_stops fd) (cat str fd (Ust ans [] None)).
Proof.
  unfold cat. apply meets_bind. eapply meets_mono; [apply (uloop_rule _ (copied fd)); [apply cat_turn | done] | | done].
  intros n s (Hp & He & Hn & h & a & Eh & Hw & ->). destruct (Z.ltb_spec (read_ret 512 a) 0) as [Hneg|Hz]; cbn [when].
  - apply cat_fails; [reflexivity | done|]. rewrite Eh, Forall_app. intros [_ H]. rewrite Forall_singleton in H. cbn in H. lia.
  - cbn [ret meets]. split_and!; [done | | exists h, a; split; [done | lia]].
    rewrite Eh, Forall_app, Forall_singleton. split; [done | cbn; lia].
Qed.

(** ** wc *)

(** Reference: the lines are the newlines, the words the runs of bytes between
    separators that are not empty. *)
Definition is_sep (b : Z) : bool := strchr wc_seps b.
Fixpoint split (bs : list Z) : list (list Z) :=
  match bs with
  | [] => [[]]
  | b :: r =>
      if is_sep b then [] :: split r
      else match split r with f :: fs => (b :: f) :: fs | [] => [[b]] end
  end.
Definition nonempty (l : list Z) : bool := match l with [] => false | _ => true end.
Definition words (bs : list Z) : list (list Z) := List.filter nonempty (split bs).
Definition lines (bs : list Z) : nat := count_occ Z.eq_dec bs 10.

Lemma split_cons bs : exists f fs, split bs = f :: fs.
Proof. destruct bs as [|b r]; cbn [split]; [by do 2 eexists|]. destruct (is_sep b); [by do 2 eexists|]. destruct (split r); by do 2 eexists. Qed.

(** The words that begin in [bs]: one less when [bs] continues a word. *)
Definition started (inw : bool) (bs : list Z) : nat :=
  length (List.filter nonempty (if inw then tail (split bs) else split bs)).
Lemma started_cons inw b r : started inw (b :: r) =
  if is_sep b then started false r else ((if inw then 0 else 1) + started true r)%nat.
Proof.
  unfold started. cbn [split]. destruct (split_cons r) as (f & fs & E). rewrite E.
  destruct (is_sep b), inw; done.
Qed.

(** [i32] of a sum, one step at a time. *)
Lemma i32_add a b : i32 (i32 a + b) = i32 (a + b).
Proof.
  assert (exists k, i32 a = a + k * 2 ^ 32) as [k ->].
  { unfold i32, sgn. change (32 - 1) with 31. pose proof (Z.div_mod a (2 ^ 32) ltac:(lia)) as H.
    destruct (_ <? _); [exists (- (a / 2 ^ 32)) | exists (- (a / 2 ^ 32) - 1)]; lia. }
  unfold i32, sgn. replace (a + k * 2 ^ 32 + b) with (a + b + k * 2 ^ 32) by lia. by rewrite Z_mod_plus_full.
Qed.

Lemma wc_counts_from bs : forall l w c inw, exists inw',
  fold_left wc_byte bs (Counts (i32 l) (i32 w) (i32 c) inw) =
  Counts (i32 (l + Z.of_nat (lines bs))) (i32 (w + Z.of_nat (started inw bs))) (i32 (c + Z.of_nat (length bs))) inw'.
Proof.
  induction bs as [|b bs IH]; intros l w c inw.
  { exists inw. unfold started. destruct inw; cbn; by rewrite !Z.add_0_r. }
  cbn [fold_left]. unfold wc_byte at 2. cbn [wl ww wc_c inword]. rewrite started_cons. fold (is_sep b).
  assert ((if b =? 10 then i32 (i32 l + 1) else i32 l) = i32 (l + (Z.of_nat (lines (b :: bs)) - Z.of_nat (lines bs)))) as ->.
  { unfold lines. cbn [count_occ]. destruct (Z.eqb_spec b 10) as [->|Hne], (Z.eq_dec _ _); try congruence; rewrite ?i32_add; f_equal; lia. }
  rewrite !i32_add. destruct (is_sep b); [|destruct inw; cbn [negb]];
    (edestruct IH as [inw' ->]; exists inw'; f_equal; f_equal; cbn [length]; lia).
Qed.

(** A numeral as printf writes it. *)
Definition decimal (x : Z) (bs : list Z) : Prop :=
  exists ks, bs = numeral udigits 10 (x <? 0) ks /\ value 10 ks = Z.abs x /\ canonical 10 ks.

Section wc.
Context (str : Z -> list Z) (Hstr : forall p, bytes_ok (str p)).

Lemma print_str_ok w s : w <> 0 -> print_str str w s = Ok tt (PSt (outb s ++ str w) (va s)).
Proof.
  intros Hw. unfold print_str. destruct (Z.eqb_spec w 0); [done|]. apply put_all. apply Forall_forall, Hstr.
Qed.
Lemma print_d x s : exists t, uprintint (i32 (i32 x)) 10 true s = Ok tt (PSt (outb s ++ t) (va s)) /\ decimal (i32 x) t.
Proof.
  rewrite i32_id by apply i32_range. unfold uprintint. cbn [andb]. rewrite signed_abs by apply i32_range.
  destruct digits_are as [_ Hu]. pose proof (i32_range x).
  destruct (put_number udigits 10 (Z.abs (i32 x)) (i32 x <? 0) s Hu ltac:(by left) ltac:(lia)) as (ks & E & Hv & Hc & _).
  eexists. split; [exact E|]. by exists ks.
Qed.

Lemma wc_text l w c name : name <> 0 -> exists tl tw tc p,
  vprintf str (line "%d %d %d %s") (PSt [] [i32 l; i32 w; i32 c; name]) = Ok tt p /\
  outb p = tl ++ [32] ++ tw ++ [32] ++ tc ++ [32] ++ str name ++ [10] /\
  decimal (i32 l) tl /\ decimal (i32 w) tw /\ decimal (i32 c) tc.
Proof.
  intros Hn. destruct (print_d l (PSt [] [i32 w; i32 c; name])) as (tl & El & Dl).
  destruct (print_d w (PSt (tl ++ [32]) [i32 c; name])) as (tw & Ew & Dw).
  destruct (print_d c (PSt ((tl ++ [32]) ++ tw ++ [32]) [name])) as (tc & Ec & Dc).
  exists tl, tw, tc. eexists. split_and!; [| |done..].
  - change (line "%d %d %d %s") with [37; 100; 32; 37; 100; 32; 37; 100; 32; 37; 115; 10]. unfold vprintf.
    cbn -[uprintint print_str i32]. unfold bind, va_arg, ret, consputc, modify. cbn -[uprintint print_str i32].
    rewrite El. cbn -[uprintint print_str i32]. change (u8 32) with 32.
    rewrite Ew. cbn -[uprintint print_str i32]. change (u8 32) with 32. rewrite <- (app_assoc (tl ++ [32]) tw [32]).
    rewrite Ec. cbn -[uprintint print_str i32]. rewrite print_str_ok by done. reflexivity.
  - cbn [outb va]. change (u8 10) with 10. change (u8 32) with 32. by rewrite <- !app_assoc.
Qed.

(** What wc counted so far, with nothing written. *)
Definition wc_inv (fd : Z) (k : counts) (s : ust) : Prop :=
  pending s = None /\ sent 1 (hist s) = [] /\
  k = fold_left wc_byte (received fd (hist s)) (Counts (i32 0) (i32 0) (i32 0) false).
(** When the program stops: with status 1 only after a read failed. *)
Definition wc_stops (fd : Z) (e : stop) (s : ust) : Prop :=
  e = Sleep 0 /\ (pending s = Some (CExit 1) -> exists a, (CRead fd 512, a) ∈ hist s /\ read_ret 512 a = -1).

Lemma wc_turn fd k s : wc_inv fd k s -> meets (fun r s' => match r with
    | inl a => (length (answers s') < length (answers s))%nat /\ wc_inv fd a s'
    | inr (n, k) => n <= 0 /\ wc_inv fd k s' /\ exists a, (CRead fd 512, a) ∈ hist s' /\ n = read_ret 512 a
    end) (wc_stops fd) (wc_body fd k s).
Proof.
  intros (Hp & Hs & ->). apply meets_bind, meets_read; [|by split]. intros a r Ea. cbn beta iota.
  assert (wc_inv fd (fold_left wc_byte (read_bytes 512 a) (fold_left wc_byte (received fd (hist s)) (Counts (i32 0) (i32 0) (i32 0) false)))
    (Ust r (hist s ++ [(CRead fd 512, a)]) (pending s))) as Hi.
  { split; [done|]. cbn [hist]. autorewrite with xv6. rewrite Hs, received_read, fold_left_app. done. }
  destruct (Z.ltb_spec 0 (read_ret 512 a)); cbn [ret meets].
  - split; [rewrite Ea; cbn; lia | done].
  - split; [done|]. rewrite read_bytes_none in Hi by done. split; [exact Hi|].
    exists a. split; [|done]. cbn [hist]. rewrite elem_of_app, list_elem_of_singleton. by right.
Qed.
End wc.

(** C37: wc counts right however the input is cut into reads: when it returns it
    has written one line, the number of newlines, of words (the runs of bytes
    between separators that are not empty) and of bytes of everything the reads
    returned, each in decimal and as an int, then the name; and it has written
    nothing else. *)
Theorem wc_correct str fd name ans : (forall p, bytes_ok (str p)) -> name <> 0 ->
  meets (fun _ s => let bs := received fd (hist s) in exists tl tw tc,
           sent 1 (hist s) = tl ++ [32] ++ tw ++ [32] ++ tc ++ [32] ++ str name ++ [10] /\
           decimal (i32 (Z.of_nat (lines bs))) tl /\ decimal (i32 (Z.of_nat (length (words bs)))) tw /\
           decimal (i32 (Z.of_nat (length bs))) tc)
        (wc_stops fd) (wc str fd name (Ust ans [] None)).
Proof.
  intros Hstr Hn. unfold wc. apply meets_bind.
  eapply meets_mono; [apply (uloop_rule _ (wc_inv fd)); [apply wc_turn | done] | | done].
  intros [n k] s (Hz & (Hp & Hs & ->) & a & Ha & En). cbn beta iota. apply meets_bind. destruct (Z.ltb_spec n 0); cbn [when].
  { apply fails; [reflexivity|]. intros s' evs c Eh _ Epd Hc. split; [done|]. intros _. exists a. rewrite Eh, elem_of_app.
    pose proof (read_ret_range 512 a). split; [by left | lia]. }
  cbn [ret meets]. destruct (wc_counts_from (received fd (hist s)) 0 0 0 false) as [inw ->]. cbn [wl ww wc_c]. rewrite !Z.add_0_l.
  destruct (wc_text str Hstr (Z.of_nat (lines (received fd (hist s)))) (Z.of_nat (started false (received fd (hist s))))
    (Z.of_nat (length (received fd (hist s)))) name Hn) as (tl & tw & tc & p & Ep & Eo & Hd).
  eapply meets_mono; [apply (fprintf_rule str 1 _ _ (outb p)); by exists p | |]; cbn beta.
  - intros _ s' (evs & Eh & Hpr & Es & _). cbn zeta. rewrite Eh. autorewrite with xv6.
    rewrite (prints_received 1 fd evs Hpr), app_nil_r, Hs, Es. exists tl, tw, tc. split; [exact Eo | exact Hd].
  - intros e s' [-> (evs & c & more & _ & _ & Epd & _)]. split; [done|]. rewrite Epd. done.
Qed.
(** Two reads that cut a word in two. *)
Definition wc_run : list answer := Ans 5 (bytes "ab" ++ [10] ++ bytes "cd") :: Ans 3 (bytes "e f") :: Ans 0 [] :: replicate 8 (Ans 1 []).
Lemma wc_correct_witness : exists s, wc (fun _ => bytes "f") 3 1 (Ust wc_run [] None) = Ok tt s /\
  sent 1 (hist s) = bytes "1 3 8 f" ++ [10] /\ exists tl tw tc,
    sent 1 (hist s) = tl ++ [32] ++ tw ++ [32] ++ tc ++ [32] ++ bytes "f" ++ [10] /\ decimal 1 tl /\ decimal 3 tw /\ decimal 8 tc.
Proof.
  pose proof (wc_correct (fun _ => bytes "f") 3 1 wc_run) as H. destruct (wc _ 3 1 _) as [[] s|e s] eqn:E; vm_compute in E; [|discriminate].
  injection E as <-. eexists. split; [reflexivity|]. split; [reflexivity|].
  destruct H as (tl & tw & tc & Es & Dl & Dw & Dc); [intros p; by repeat constructor | done|]. exists tl, tw, tc. split; [exact Es|].
  vm_compute in Dl, Dw, Dc. split_and!; [exact Dl | exact Dw | exact Dc].
Defined.

(** ** cp and touch: the count of a transfer is unsigned *)

(** Every write to [fd] took all its bytes. *)
Definition complete (fd : Z) (e : call * answer) : Prop :=
  match e with (CWrite f n _, a) => f = fd -> i32 (a_ret a) = n | _ => True end.

Lemma u32_inj_i32 a b : u32 a = u32 b -> i32 a = i32 b.
Proof. unfold u32, i32, sgn. by intros ->. Qed.
Lemma i32_of_u32 a : i32 (u32 a) = i32 a.
Proof. apply u32_inj_i32. unfold u32. rewrite Z.mod_mod; lia. Qed.
Lemma i32_i32 a : i32 (i32 a) = i32 a.
Proof. apply i32_id, i32_range. Qed.

Section cp.
Context (str : Z -> list Z) (byte : Z -> Z) (src dst des_2 : Z) (Hdst : dst <> 2).

Definition cp_inv (_ : unit) (s : ust) : Prop :=
  pending s = None /\ sent dst (hist s) = received src (hist s) /\ Forall (complete dst) (hist s).
Definition cp_stops (e : stop) (s : ust) : Prop := e = Sleep 0 /\ offered dst s = received src (hist s).

Lemma cp_fails {A} fmt args s (Q : A -> ust -> Prop) : (takes false fmt <= length args)%nat ->
  sent dst (hist s) = received src (hist s) -> meets Q cp_stops ((fprintf str 2 fmt args ;; exit 1) s).
Proof.
  intros Hm He. apply fails; [done|]. intros s' evs c Eh Hp Epd Hc. split; [done|].
  rewrite offered_quiet; [rewrite Eh, sent_app, received_app, (prints_sent 2 dst evs), (prints_received 2 src evs), !app_nil_r by done; done|].
  rewrite Epd. destruct Hc as [->|[x ->]]; [done|]. cbn [sent1]. destruct (Z.eqb_spec 2 dst); [congruence | done].
Qed.

(** What is handed to write is what was read, also after an error. *)
Lemma cp_write_bytes n a : n = read_ret 512 a -> take (Z.to_nat (i32 (u32 n))) (read_bytes 512 a) = read_bytes 512 a /\ i32 (u32 n) = n.
Proof.
  intros ->. pose proof (read_ret_range 512 a ltac:(lia)). rewrite i32_of_u32, i32_id by lia. split; [|done].
  destruct (Z.le_gt_cases (read_ret 512 a) 0); [by rewrite read_bytes_none, take_nil | apply read_all; lia].
Qed.

Lemma cp_turn u s : cp_inv u s -> meets (fun r s' => match r with
    | inl a => (length (answers s') < length (answers s))%nat /\ cp_inv a s'
    | inr n => cp_inv tt s' /\ n = 0 /\ exists h a, hist s' = h ++ [(CRead src 512, a)] /\ read_ret 512 a = 0
    end) cp_stops (cp_body str src dst des_2 u s).
Proof.
  intros (Hp & He & Hc). apply meets_bind, meets_read; [|intros _; split; [done | by rewrite offered_quiet]].
  intros a r Ea. cbn beta iota zeta. destruct (cp_write_bytes _ a eq_refl) as [Et En].
  destruct (Z.ltb_spec 0 (u32 (read_ret 512 a))) as [Hpos|Hz].
  - apply meets_bind. unfold write. rewrite Et. apply meets_sys; cbn [answers hist pending].
    + intros w r' ->. cbn beta iota zeta. set (s2 := Ust r' _ _).
      assert (sent dst (hist s2) = received src (hist s2)) as Es.
      { unfold s2. cbn [hist]. autorewrite with xv6. rewrite He, received_read, sent_write. cbn. by rewrite !app_nil_r. }
      destruct (Z.eqb_spec (u32 (i32 (a_ret w))) (u32 (read_ret 512 a))) as [Ew|Ew]; cbn [negb].
      * cbn [ret meets]. split; [rewrite Ea; cbn; lia|]. split_and!; [done | done|].
        unfold s2. cbn [hist]. rewrite !Forall_app. split_and!; [done | |]; apply Forall_singleton; [done|]. intros _.
        apply u32_inj_i32 in Ew. rewrite i32_i32 in Ew. rewrite i32_of_u32. done.
      * by apply cp_fails.
    + intros _. split; [done|]. unfold offered. cbn [hist pending]. autorewrite with xv6.
      rewrite He, received_read, sent_write. cbn. by rewrite app_nil_r.
  - cbn [ret meets]. pose proof (u32_range (read_ret 512 a)). pose proof (read_ret_range 512 a ltac:(lia)).
    assert (read_ret 512 a = 0) as E0. { rewrite <- En. assert (u32 (read_ret 512 a) = 0) as -> by lia. done. }
    split; [split_and!; [done | |] | split; [lia|]].
    + cbn [hist]. autorewrite with xv6. rewrite He, received_read, read_bytes_none by lia. done.
    + cbn [hist]. rewrite Forall_app, Forall_singleton. done.
    + exists (hist s), a. split; [done | done].
Qed.
End cp.

(** Cp, once both files are open, hands on exactly the bytes it reads, in
    their order, however the run ends; when it returns the last read said end of
    file and every write was complete. It never says that reading failed: that
    branch compares an unsigned count with zero. *)
Theorem cp_copies str byte des_1 des_2 src dst ans : 0 <= src < 2 ^ 31 -> 0 <= dst < 2 ^ 31 -> dst <> 2 ->
  meets (fun _ s => sent dst (hist s) = received src (hist s) /\ Forall (complete dst) (hist s) /\
           exists a, (CRead src 512, a) ∈ hist s /\ read_ret 512 a = 0)
        (cp_stops src dst) (cp str byte des_1 des_2 (Ust (Ans src [] :: Ans dst [] :: ans) [] None)).
Proof.
  intros Hs Hd H2. unfold cp. apply meets_bind. cbn [open sys bind syscall answers ret meets a_ret hist pending app].
  rewrite i32_id by lia. destruct (Z.ltb_spec src 0); [lia|]. cbn [when]. apply meets_bind. cbn [ret meets].
  apply meets_bind. unfold open, sys. apply meets_bind. cbn [syscall answers meets a_ret hist pending app ret].
  rewrite i32_id by lia. destruct (Z.ltb_spec dst 0); [lia|]. cbn [when]. apply meets_bind. cbn [ret meets]. apply meets_bind.
  eapply meets_mono; [apply (uloop_rule _ (cp_inv src dst)); [by apply cp_turn|] | | done].
  { split_and!; [done | done |]. by repeat constructor. }
  intros n s ((Hp & He & Hc) & -> & h & a & Eh & E0). cbn beta. destruct (Z.ltb_spec 0 0); [lia|]. cbn [when].
  apply meets_bind. cbn [ret meets]. apply meets_bind. unfold close at 1. apply meets_bind, meets_syscall.
  2: { intros _. split; [done|]. by rewrite offered_quiet. }
  intros a1 r1 E1. cbn [ret meets]. unfold close. apply meets_bind, meets_syscall; cbn [answers hist pending].
  2: { intros _. split; [done|]. rewrite offered_quiet by done. cbn [hist]. autorewrite with xv6. rewrite He. cbn. by rewrite !app_nil_r. }
  intros a2 r2 ->. cbn [ret meets hist]. split_and!.
  - autorewrite with xv6. rewrite He. cbn. by rewrite !app_nil_r.
  - rewrite !Forall_app. split_and!; [done | |]; by apply Forall_singleton.
  - exists a. split; [|done]. rewrite Eh, !elem_of_app, !list_elem_of_singleton. tauto.
Qed.

Lemma cp_copies_witness : exists s,
  cp (fun _ => bytes "f") (fun _ => 0) 100 200 (Ust (Ans 3 [] :: Ans 4 [] :: [Ans 2 (bytes "hi"); Ans 2 []; Ans 0 []; Ans 0 []; Ans 0 []]) [] None) = Ok tt s /\
  sent 4 (hist s) = bytes "hi" /\ sent 4 (hist s) = received 3 (hist s).
Proof.
  pose proof (cp_copies (fun _ => bytes "f") (fun _ => 0) 100 200 3 4 [Ans 2 (bytes "hi"); Ans 2 []; Ans 0 []; Ans 0 []; Ans 0 []]) as H.
  destruct (cp _ _ 100 200 _) as [[] s|e s] eqn:E; vm_compute in E; [|discriminate]. injection E as <-.
  eexists. split; [reflexivity|]. split; [reflexivity|]. by destruct H as [Es _].
Defined.

(** An error of read, answered by write with the same -1. *)
Fixpoint error_turns (src dst : Z) (k : nat) : list (call * answer) :=
  match k with
  | O => []
  | S k => (CRead src 512, Ans (-1) []) :: (CWrite dst (-1) [], Ans (-1) []) :: error_turns src dst k
  end.
Lemma spins {B} (body : unit -> M ust (unit + B)) src dst :
  (forall h l, body tt (Ust (Ans (-1) [] :: Ans (-1) [] :: l) h None) =
     Ok (inl tt) (Ust l ((h ++ [(CRead src 512, Ans (-1) [])]) ++ [(CWrite dst (-1) [], Ans (-1) [])]) None)) ->
  (forall h, body tt (Ust [] h None) = Stop (Sleep 0) (Ust [] h (Some (CRead src 512)))) ->
  forall k fuel h, (2 * k < fuel)%nat -> uloop_n fuel body tt (Ust (replicate (2 * k) (Ans (-1) [])) h None) =
    Stop (Sleep 0) (Ust [] (h ++ error_turns src dst k) (Some (CRead src 512))).
Proof.
  intros Hb He. induction k as [|k IH]; intros [|fuel] h Hf; try lia; cbn [uloop_n].
  - unfold bind. rewrite He. cbn [error_turns]. by rewrite app_nil_r.
  - replace (2 * S k)%nat with (S (S (2 * k))) by lia. cbn [replicate]. rewrite (bind_run _ _ _ _ _ (Hb _ _)). cbn beta iota.
    rewrite IH by lia. cbn [error_turns]. by rewrite <- !app_assoc.
Qed.

Lemma open_run path mode r d l h p : open path mode (Ust (Ans r d :: l) h p) = Ok (i32 r) (Ust l (h ++ [(COpen path mode, Ans r d)]) p).
Proof. done. Qed.

(** C40: what the unsigned counts do. When read fails and write, given the count
    -1, fails as well, cp takes the failed write for a complete one and goes on
    for as long as the calls fail; touch of a file that cannot be opened does
    the same with descriptor -1. *)
Theorem failed_read_spins str byte des_1 des_2 src dst k : 0 <= src < 2 ^ 31 -> 0 <= dst < 2 ^ 31 ->
  cp str byte des_1 des_2 (Ust (Ans src [] :: Ans dst [] :: replicate (2 * k) (Ans (-1) [])) [] None) =
    Stop (Sleep 0) (Ust [] ([(COpen (str des_1) 0, Ans src []); (COpen (str des_2) 0x601, Ans dst [])] ++ error_turns src dst k)
      (Some (CRead src 512))) /\
  touch str des_1 (Ust (Ans (-1) [] :: replicate (2 * k) (Ans (-1) [])) [] None) =
    Stop (Sleep 0) (Ust [] ((COpen (str des_1) 0x200, Ans (-1) []) :: error_turns (-1) (-1) k) (Some (CRead (-1) 512))).
Proof.
  intros Hs Hd. split.
  - unfold cp. rewrite (bind_run _ _ _ _ _ (open_run _ _ _ _ _ _ _)), i32_id by lia. destruct (Z.ltb_spec src 0); [lia|].
    change (when false ?m) with (@ret ust unit tt). rewrite (bind_run _ _ _ _ _ eq_refl).
    rewrite (bind_run _ _ _ _ _ (open_run _ _ _ _ _ _ _)), i32_id by lia. destruct (Z.ltb_spec dst 0); [lia|].
    change (when false ?m) with (@ret ust unit tt). rewrite (bind_run _ _ _ _ _ eq_refl).
    apply bind_halt. unfold uloop. rewrite (spins _ src dst); [done | done | done|].
    cbn [answers]. rewrite length_replicate. lia.
  - unfold touch. rewrite (bind_run _ _ _ _ _ (open_run _ _ _ _ _ _ _)). change (i32 (-1)) with (-1).
    unfold uloop. rewrite (spins _ (-1) (-1)); [done | done | done|].
    cbn [answers]. rewrite length_replicate. lia.
Qed.
Lemma failed_read_spins_witness :
  cp (fun _ => bytes "f") (fun _ => 0) 100 200 (Ust [Ans 3 []; Ans 4 []; Ans (-1) []; Ans (-1) []] [] None) =
    Stop (Sleep 0) (Ust [] [(COpen (bytes "f") 0, Ans 3 []); (COpen (bytes "f") 0x601, Ans 4 []);
      (CRead 3 512, Ans (-1) []); (CWrite 4 (-1) [], Ans (-1) [])] (Some (CRead 3 512))).
Proof. apply (failed_read_spins (fun _ => bytes "f") (fun _ => 0) 100 200 3 4 1); lia. Defined.

(** ** echo *)

(** The text of echo: the arguments between blanks, and a newline. *)
Fixpoint echo_text (args : list (list Z)) : list Z :=
  match args with
  | [] => []
  | a :: args => a ++ (match args with [] => [10] | _ => [32] end) ++ echo_text args
  end.

Lemma echo_rule str args : forall s, pending s = None ->
  meets (fun _ s' => pending s' = None /\ sent 1 (hist s') = sent 1 (hist s) ++ echo_text (map str args))
        (fun e s' => e = Sleep 0 /\ pending s' <> Some (CExit 0) /\
           exists rest, sent 1 (hist s) ++ echo_text (map str args) = offered 1 s' ++ rest)
        (echo_loop str args s).
Proof.
  induction args as [|p args IH]; intros s Hp; cbn [echo_loop map echo_text]; [by rewrite app_nil_r|].
  unfold write at 1. rewrite Nat2Z.id, firstn_all. apply meets_bind, meets_sys.
  2: { intros _. split; [done|]. split; [done|]. eexists. unfold offered. cbn [hist pending]. rewrite sent_write, <- app_assoc. done. }
  intros a r _. cbn beta.
  replace (match args with [] => write 1 1 [10] | _ => write 1 1 [32] end) with (sys (CWrite 1 1 (match args with [] => [10] | _ => [32] end))) by (by destruct args).
  apply meets_bind, meets_sys; cbn [hist pending answers].
  2: { intros _. split; [done|]. split; [done|]. eexists. unfold offered. cbn [hist pending].
       autorewrite with xv6. rewrite !sent_write, <- !app_assoc. f_equal. f_equal. destruct args; done. }
  intros a' r' _. cbn beta. eapply meets_mono; [by apply IH | |]; cbn [hist].
  - intros _ s' [Hp' Es]. split; [done|]. rewrite Es. autorewrite with xv6. rewrite !sent_write, <- !app_assoc. destruct args; done.
  - intros e s' (He & Hx & rest & Er). split; [done|]. split; [done|]. exists rest. rewrite <- Er. autorewrite with xv6.
    rewrite !sent_write, <- !app_assoc. destruct args; done.
Qed.

(** echo writes its arguments between blanks, with a newline at the end; it
    exits with 0 once all is handed to write, and stops nowhere else but at a
    call that is not answered. *)
Theorem echo_correct str argv ans :
  meets (fun _ _ => False)
        (fun e s => e = Sleep 0 /\ exists rest, echo_text (map str (tail argv)) = offered 1 s ++ rest /\
           (pending s = Some (CExit 0) -> rest = [])) (echo_main str argv (Ust ans [] None)).
Proof.
  unfold echo_main. apply meets_bind. eapply meets_mono; [by apply echo_rule | |]; cbn beta.
  - intros _ s [Hp Es]. cbn [exit meets]. split; [done|]. exists []. split; [|done]. unfold offered. cbn [hist pending].
    rewrite Es. cbn. by rewrite !app_nil_r.
  - intros e s (He & Hx & rest & Er). split; [done|]. exists rest. by split.
Qed.

(** ** ls *)

Lemma last_slash_none l n : ~ In 47 (take n l) -> (n <= S (length l))%nat -> last_slash l n = O.
Proof.
  induction n as [|n IH]; intros Hn Hl; [done|]. cbn [last_slash]. unfold char_at.
  destruct (l !! n) as [c|] eqn:E; cbn [from_option]; unfold id.
  - rewrite (take_S_r l n c E) in Hn. destruct (Z.eqb_spec c 47) as [->|]; [destruct Hn; apply in_app_iff; right; by left|].
    apply IH; [|lia]. intros H. apply Hn, in_app_iff. by left.
  - apply lookup_ge_None in E. apply IH; [|lia]. rewrite take_ge in Hn |- * by lia. done.
Qed.
Lemma last_slash_at d name n : ~ In 47 name -> (length d < n <= S (length d + S (length name)))%nat ->
  last_slash (d ++ 47 :: name) n = S (length d).
Proof.
  intros Hs. induction n as [|n IH]; intros Hn; [lia|]. cbn [last_slash]. destruct (decide (n = length d)) as [->|Hne].
  - unfold char_at. rewrite list_lookup_middle by done. done.
  - rewrite IH by lia. unfold char_at. rewrite lookup_app_r by lia. destruct (n - length d)%nat as [|j] eqn:Ej; [lia|]. cbn [lookup list_lookup].
    destruct (name !! j) as [c|] eqn:E; cbn [from_option]; unfold id; [|done]. destruct (Z.eqb_spec c 47) as [->|]; [|done].
    destruct Hs. apply list_elem_of_In. by eapply list_elem_of_lookup_2.
Qed.

(** fmtname is the last element of the path, padded with blanks to the 14
    bytes of a directory entry. *)
Theorem fmtname_correct dir name : ~ In 47 name ->
  fmtname name = name ++ replicate (14 - length name) 32 /\
  fmtname (dir ++ 47 :: name) = name ++ replicate (14 - length name) 32.
Proof.
  intros Hn. assert (forall q, (if (DIRSIZ <=? length q)%nat then q else q ++ replicate (DIRSIZ - length q) 32) = q ++ replicate (14 - length q) 32) as Hpad.
  { intros q. unfold DIRSIZ. destruct (Nat.leb_spec 14 (length q)); [|done].
    replace (14 - length q)%nat with O by lia. by rewrite app_nil_r. }
  unfold fmtname. cbv zeta. rewrite !Hpad. rewrite last_slash_none, drop_0; [|by rewrite take_ge by lia | lia].
  rewrite last_slash_at; [|done | rewrite length_app; cbn [length]; lia].
  replace (drop (S (length dir)) (dir ++ 47 :: name)) with name; [done|].
  change (dir ++ 47 :: name) with (dir ++ [47] ++ name). rewrite app_assoc, drop_app_length'; [done|]. rewrite length_app. cbn. lia.
Qed.

(** ** No program faults *)

(** A run that ends in a call that is not answered, if it does not return; [k]
    answers at least are used up. *)
Definition calm {A} (k : nat) (m : M ust A) : Prop := forall s,
  meets (fun _ s' => k + length (answers s') <= length (answers s))%nat (fun e _ => e = Sleep 0) (m s).
Definition calm_turn {A B} (m : M ust (A + B)) : Prop := forall s,
  meets (fun r s' => ((match r with inl _ => 1 | inr _ => 0 end) + length (answers s') <= length (answers s))%nat)
    (fun e _ => e = Sleep 0) (m s).

Lemma calm_ret {A} (a : A) : calm 0 (ret a).
Proof. intros s. cbn. lia. Qed.
Lemma calm_exit {A} k n : calm k (@exit A n).
Proof. intros s. done. Qed.
Lemma calm_sys c : calm 1 (sys c).
Proof. intros s. apply meets_sys; [|done]. intros a r ->. done. Qed.
Lemma calm_syscall c : calm 1 (syscall c).
Proof. intros s. apply meets_syscall; [|done]. intros a r ->. done. Qed.
Lemma calm_read fd n : calm 1 (read fd n).
Proof. intros s. apply meets_read; [|done]. intros a r ->. done. Qed.
Lemma calm_bind {A B} k (m : M ust A) (f : A -> M ust B) : calm k m -> (forall a, calm 0 (f a)) -> calm k (bind m f).
Proof.
  intros Hm Hf s. apply meets_bind. eapply meets_mono; [apply Hm | | done]. cbn beta. intros a s1 H1.
  eapply meets_mono; [apply Hf | | done]. cbn beta. intros b s2 H2. lia.
Qed.
Lemma calm_bind2 {A B} k (m : M ust A) (f : A -> M ust B) : calm 0 m -> (forall a, calm k (f a)) -> calm k (bind m f).
Proof.
  intros Hm Hf s. apply meets_bind. eapply meets_mono; [apply Hm | | done]. cbn beta. intros a s1 H1.
  eapply meets_mono; [apply Hf | | done]. cbn beta. intros b s2 H2. lia.
Qed.
Lemma calm_weaken {A} k (m : M ust A) : calm k m -> calm 0 m.
Proof. intros H s. eapply meets_mono; [apply H | | done]. cbn beta. intros; lia. Qed.
Lemma calm_when b m : (b = true -> calm 0 m) -> calm 0 (when b m).
Proof. destruct b; [by intros H; apply H | intros _; apply calm_ret]. Qed.
Lemma calm_each {A} (l : list A) f : (forall a, calm 0 (f a)) -> calm 0 (for_each l f).
Proof. intros Hf. induction l; [apply calm_ret | by apply calm_bind]. Qed.
Lemma calm_until {A B} (l : list A) (f : A -> M ust (option B)) : (forall a, calm 0 (f a)) -> calm 0 (for_until l f).
Proof. intros Hf. induction l; [apply calm_ret|]. apply calm_bind; [done|]. intros []; [apply calm_ret | done]. Qed.
Lemma calm_fprintf str fd fmt args : (takes false fmt <= length args)%nat -> calm 0 (fprintf str fd fmt args).
Proof.
  intros H s. eapply meets_mono; [by apply says | |]; cbn beta; [|by intros e s' [-> _]].
  intros _ s' [(evs & _ & _ & Hl) _]. exact Hl.
Qed.
Lemma calm_loop {A B} (body : A -> M ust (A + B)) a : (forall a, calm_turn (body a)) -> calm 0 (uloop body a).
Proof.
  intros Hb s. apply (uloop_rule body (fun _ s' => (length (answers s') <= length (answers s))%nat)); [|done].
  intros x s1 H1. eapply meets_mono; [apply Hb | | done]. cbn beta. intros [a'|b] s2 H2; lia.
Qed.
Lemma calm_turn_of {A B} (m : M ust (A + B)) : calm 1 m -> calm_turn m.
Proof. intros H s. eapply meets_mono; [apply H | | done]. cbn beta. intros [?|?] s'; lia. Qed.

(** Follow the code. *)
Ltac calm_step :=
  lazymatch goal with
  | |- forall _, _ => intros ?
  | |- calm _ (let '(_, _) := ?p in _) => destruct p
  | |- calm _ (if ?b then _ else _) => destruct b eqn:?
  | |- calm _ (match ?l with [] => _ | _ => _ end) => destruct l
  | |- calm _ (ret _) => apply calm_ret
  | |- calm _ (exit _) => apply calm_exit
  | |- calm 1 (sys _) => apply calm_sys
  | |- calm 0 (sys _) => eapply calm_weaken, calm_sys
  | |- calm 1 (syscall _) => apply calm_syscall
  | |- calm 0 (syscall _) => eapply calm_weaken, calm_syscall
  | |- calm 1 (read _ _) => apply calm_read
  | |- calm 0 (read _ _) => eapply calm_weaken, calm_read
  | |- calm 0 (when _ _) => apply calm_when
  | |- calm 0 (for_each _ _) => apply calm_each
  | |- calm 0 (for_until _ _) => apply calm_until
  | |- calm 0 (fprintf _ _ _ _) => apply calm_fprintf; vm_compute; lia
  | |- calm 0 (uloop _ _) => apply calm_loop
  | |- calm_turn _ => apply calm_turn_of
  | |- calm 1 (bind (read _ _) _) => apply calm_bind
  | |- calm 1 (bind (sys _) _) => apply calm_bind
  | |- calm 1 (bind (open _ _) _) => apply calm_bind
  | |- calm 1 (bind uptime _) => apply calm_bind
  | |- calm 1 (bind (syscall _) _) => apply calm_bind
  | |- calm 1 (bind _ _) => apply calm_bind2
  | |- calm 0 (bind _ _) => apply calm_bind
  | |- calm _ (?f _ _ _ _ _) => unfold f
  | |- calm _ (?f _ _ _ _) => unfold f
  | |- calm _ (?f _ _ _) => unfold f
  | |- calm _ (?f _ _) => unfold f
  | |- calm _ (?f _) => unfold f
  | |- calm _ ?f => unfold f
  end.
Ltac calm := repeat (calm_step; cbv beta zeta).

Lemma calm_echo str args : calm 0 (echo_loop str args).
Proof. induction args; cbn [echo_loop]; [apply calm_ret|]. calm; done. Qed.
Lemma calm_ugets max : calm 0 (ugets max).
Proof.
  apply calm_loop. intros b. unfold ugets_body. destruct (_ <? max); [|intros s; cbn; lia]. apply calm_turn_of. calm.
Qed.
(** The entries of a directory fit in the buffer of ls. *)
Lemma calm_ls str path : calm 0 (ls str path).
Proof.
  unfold ls. calm. exfalso.
  match goal with H1 : (_ <? _)%nat = false, H2 : (_ <=? _)%nat = true |- _ => apply Nat.ltb_ge in H1; apply Nat.leb_le in H2; lia end.
Qed.
#[local] Opaque ls echo_loop ugets.

(** Whatever the kernel answers and whatever the arguments are, none of the
    programs faults (the buffer of ls, the arguments of printf) and none runs
    on without a system call: a run ends by returning from main or in a call
    that the kernel does not answer, exit among them. *)
Theorem programs_never_fault str byte empty uproc malloc argv nbuf :
  Forall (calm 0) [cat_main str argv; wc_main str empty argv; cp_main str byte argv; touch_main str argv; echo_main str argv;
    rm_main str argv; mkdir_main str argv; ln_main str argv; kill_main str argv; sleep_main str argv; zombie_main;
    stat_main str argv; openvault_main str argv; closevault_main str argv; ls_main str argv; ps_main str uproc; shrimpy_main str;
    bestfit_main str malloc; bursty_main str; waste_main str; init_main str; (let* r := getcmd nbuf in ret (fst r)); uloop sh_console tt ;; ret 0].
Proof.
  repeat constructor.
  all: unfold cat_main, wc_main, cp_main, touch_main, echo_main, rm_main, mkdir_main, ln_main, kill_main, sleep_main, zombie_main,
    stat_main, openvault_main, closevault_main, ls_main, ps_main, shrimpy_main, bestfit_main, bursty_main, waste_main, init_main, getcmd.
  all: calm; auto using calm_ls, calm_echo, calm_ugets.
Qed.

(** ** init *)

(** Where init is: opening the console, with no shell of its own left, with the
    shell [pid] running, in the child that becomes the shell, or after a
    failure. *)
Inductive phase : Type := Opening | Booting (todo : list call) | NoShell | Shell (pid : Z) | Child | Dying.

(** A character of a message. *)
Definition prints_one (c : call) : Prop := exists x, c = CWrite 1 1 [x].
(** The calls init may make in a phase. *)
Definition allows (p : phase) (c : call) : Prop :=
  match p with
  | Opening => c = COpen (bytes "console") O_RDWR
  | Booting todo => head todo = Some c
  | NoShell => c = CFork \/ prints_one c
  | Shell _ => c = CWait
  | Child => c = CExec (bytes "sh") [bytes "sh"]
  | Dying => c = CExit 1 \/ prints_one c
  end.
(** The phase after a call answered with [r]. *)
Definition boot (todo : list call) : phase := match todo with [] => NoShell | _ => Booting todo end.
Definition next_phase (p : phase) (c : call) (r : Z) : phase :=
  match p with
  | Opening => Booting ((if r <? 0 then [CMknod (bytes "console") 1 0; COpen (bytes "console") O_RDWR] else []) ++ [CDup 0; CDup 0])
  | Booting todo => boot (tail todo)
  | NoShell => match c with CFork => if r <? 0 then Dying else if r =? 0 then Child else Shell r | _ => NoShell end
  | Shell pid => if r =? pid then NoShell else if r <? 0 then Dying else Shell pid
  | Child | Dying => Dying
  end.
(** The phase that the calls made so far lead to, every one of them allowed
    where it was made. *)
Inductive in_phase : list (call * answer) -> phase -> Prop :=
  | phase_start : in_phase [] Opening
  | phase_next h p c a : in_phase h p -> allows p c -> in_phase (h ++ [(c, a)]) (next_phase p c (i32 (a_ret a))).

(** init makes a call it may make, and it does not go on: it exits after a
    failure, or the kernel has not answered. *)
Definition init_stops (e : stop) (s : ust) : Prop :=
  e = Sleep 0 /\ exists p c, in_phase (hist s) p /\ pending s = Some c /\ allows p c /\
    ((p = Dying /\ c = CExit 1) \/ answers s = []).

Lemma phase_prints h p evs : p = NoShell \/ p = Dying -> Forall (prints 1) evs -> in_phase h p -> in_phase (h ++ evs) p.
Proof.
  intros Hp H. revert h. induction H as [|[c a] evs [x Hx] _ IH]; intros h Hh; [by rewrite app_nil_r|]. cbn in Hx. subst c.
  rewrite cons_middle, app_assoc. apply IH.
  replace p with (next_phase p (CWrite 1 1 [x]) (i32 (a_ret a))) at 1 by by destruct Hp as [-> | ->].
  constructor; [done|]. destruct Hp as [-> | ->]; right; by exists x.
Qed.
(** A message that is not put out was cut off by the kernel. *)
Lemma put_chars_unanswered fd out : forall s,
  meets (fun _ _ => True) (fun _ s' => answers s' = []) (for_each out (putc fd) s).
Proof.
  induction out as [|c out IH]; intros s; [done|]. apply meets_bind. unfold putc at 1. apply meets_bind, meets_sys; [|done].
  intros a r _. apply IH.
Qed.

Lemma init_says str fmt p s : takes false fmt = O -> p = NoShell \/ p = Dying -> in_phase (hist s) p ->
  meets (fun _ s' => in_phase (hist s') p /\ (length (answers s') <= length (answers s))%nat) init_stops (uprintf str fmt [] s).
Proof.
  intros Hf Hp Hs.
  destruct (vprintf_total str fmt false (PSt [] [])) as (q & Eq & _); [rewrite Hf; cbn; lia|].
  pose proof (put_chars_unanswered 1 (outb q) s) as Hu.
  pose proof (fprintf_rule str 1 fmt [] (outb q) s (ex_intro _ q (conj Eq eq_refl))) as Hr.
  unfold uprintf. assert (fprintf str 1 fmt [] s = for_each (outb q) (putc 1) s) as E by (unfold fprintf, vprintf; by rewrite Eq).
  rewrite E in *. destruct (for_each _ _ s) as [u s'|e s']; cbn [meets] in *.
  - destruct Hr as (evs & Eh & Hpr & _ & _ & Hl). split; [|done]. rewrite Eh. by apply phase_prints.
  - destruct Hr as [-> (evs & c & more & Eh & Hpr & Epd & _)]. split; [done|].
    exists p, (CWrite 1 1 [c]). split_and!; [rewrite Eh; by apply phase_prints | done | | by right].
    destruct Hp as [-> | ->]; right; by exists c.
Qed.
Lemma init_dies {A} str fmt s (Q : A -> ust -> Prop) : takes false fmt = O -> in_phase (hist s) Dying ->
  meets Q init_stops ((uprintf str fmt [] ;; exit 1) s).
Proof.
  intros Hf Hs. apply meets_bind. eapply meets_mono; [by apply (init_says str fmt Dying); [|right|] | | done]. cbn beta.
  intros _ s' [Hs' _]. split; [done|]. exists Dying, (CExit 1). split_and!; [done | done | by left | by left].
Qed.
Lemma init_sys p c s : allows p c -> in_phase (hist s) p ->
  meets (fun r s' => in_phase (hist s') (next_phase p c r) /\ (length (answers s') < length (answers s))%nat) init_stops (sys c s).
Proof.
  intros Hc Hs. apply meets_sys.
  - intros a r ->. cbn [hist answers length]. split; [by constructor | lia].
  - intros _. split; [done|]. exists p, c. split_and!; [done | done | done | by right].
Qed.

Lemma init_waits str pid s : in_phase (hist s) (Shell pid) ->
  meets (fun _ s' => in_phase (hist s') NoShell /\ (length (answers s') <= length (answers s))%nat) init_stops (uloop (init_wait str pid) tt s).
Proof.
  intros Hx. apply (uloop_rule _ (fun _ s' => in_phase (hist s') (Shell pid) /\ (length (answers s') <= length (answers s))%nat)); [|done].
  intros [] s1 [H1 Hl]. apply meets_bind. eapply meets_mono; [by apply (init_sys (Shell pid)) | | done]. cbn beta. intros r s2 [H2 Hl2].
  cbn [next_phase] in H2. destruct (r =? pid); [cbn [ret meets]; split; [done | lia]|].
  destruct (r <? 0); [by apply init_dies|]. cbn [ret meets]. split; [lia|]. split; [done | lia].
Qed.
Lemma init_shell_turn str u s : in_phase (hist s) NoShell ->
  meets (fun r s' => match r with inl _ => (length (answers s') < length (answers s))%nat /\ in_phase (hist s') NoShell | inr _ => False end)
    init_stops (init_turn str u s).
Proof.
  intros Hx. unfold init_turn. apply meets_bind. eapply meets_mono; [by apply (init_says _ _ NoShell); [|left|] | | done]. cbn beta.
  intros _ s1 [H1 Hl1]. apply meets_bind. eapply meets_mono; [by apply (init_sys NoShell CFork); [left|] | | done]. cbn beta.
  intros pid s2 [H2 Hl2]. cbn [next_phase] in H2. apply meets_bind. destruct (pid <? 0); cbn [when]; [by apply init_dies|].
  cbn [ret meets]. apply meets_bind. destruct (pid =? 0); cbn [when].
  { apply meets_bind. eapply meets_mono; [by apply (init_sys Child) | | done]. cbn beta. intros r s3 [H3 _]. by apply init_dies. }
  cbn [ret meets]. apply meets_bind. eapply meets_mono; [by apply init_waits | | done]. cbn beta. intros _ s3 [H3 Hl3].
  cbn [ret meets]. split; [lia | done].
Qed.

(** C39: init keeps one shell running until something fails. Whatever the kernel
    answers, every run follows the phases: the console is opened (made first
    when it is missing) and duplicated twice; with no shell left init says so
    and forks; with a shell running it only waits, until wait returns that
    shell's pid, whatever other processes it returns before; the child executes
    sh. It exits, with status 1, exactly when fork or wait returned a negative
    value or the child's exec came back, and it never returns from main: short
    of these failures it makes its next call as long as the kernel answers. *)
Theorem init_one_shell str ans : meets (fun _ _ => False) init_stops (init_main str (Ust ans [] None)).
Proof.
  assert (forall todo c s (k : Z -> M ust Z), in_phase (hist s) (Booting (c :: todo)) ->
    (forall r s', in_phase (hist s') (boot todo) -> meets (fun _ _ => False) init_stops (k r s')) ->
    meets (fun _ _ => False) init_stops ((let* r := sys c in k r) s)) as step.
  { intros todo c s k Hs Hk. apply meets_bind. eapply meets_mono; [by apply (init_sys (Booting (c :: todo))) | | done]. cbn beta.
    intros r s' [Hs' _]. by apply Hk. }
  assert (forall s, in_phase (hist s) (Booting [CDup 0; CDup 0]) -> meets (fun _ _ => False) init_stops
    ((let* _ := sys (CDup 0) in let* _ := sys (CDup 0) in uloop (init_turn str) tt) s)) as Hrest.
  { intros s Hs. apply (step [CDup 0]); [done|]. intros _ s' Hs'. apply (step []); [done|]. intros _ s'' Hs''.
    eapply (uloop_rule _ (fun _ s => in_phase (hist s) NoShell)); [|done]. intros u s3 H3.
    eapply meets_mono; [by apply init_shell_turn | | done]. cbn beta. by intros [?|?] s4. }
  unfold init_main. apply meets_bind. eapply meets_mono; [apply (init_sys Opening); [done | constructor] | | done]. cbn beta.
  intros fd s1 [H1 _]. cbn [next_phase] in H1. apply meets_bind. destruct (fd <? 0); cbn [when]; [|by apply Hrest].
  apply meets_bind. eapply meets_mono; [eapply (init_sys (Booting _)); [|exact H1]; done | | done]. cbn beta. intros r s2 [H2 _].
  apply meets_bind. eapply meets_mono; [eapply (init_sys (Booting _)); [|exact H2]; done | | done]. cbn beta. intros r' s3 [H3 _]. by apply Hrest.
Qed.

(** Console missing, then a shell with pid 7 and an orphan with pid 9: init
    starts its second shell once it has waited for 7. *)
Example init_restarts str :
  let ans := map (fun r => Ans r []) ([-1; 0; 0; 1; 2] ++ replicate 18 1 ++ [7; 9; 7] ++ replicate 18 1) in
  exists h, init_main str (Ust ans [] None) = Stop (Sleep 0) (Ust [] h (Some CFork)).
Proof. eexists. vm_compute. reflexivity. Qed.

(** ** rm, mkdir, bursty *)

(** The calls that are not writes, with whether they succeeded. *)
Definition worked (h : list (call * answer)) : list (call * bool) :=
  h ≫= fun e => match fst e with CWrite _ _ _ => [] | c => [(c, 0 <=? i32 (a_ret (snd e)))] end.

Lemma worked_app h h' : worked (h ++ h') = worked h ++ worked h'.
Proof. apply bind_app. Qed.
Lemma worked_prints fd evs : Forall (prints fd) evs -> worked evs = [].
Proof. induction 1 as [|[c a] evs [x Hx] _ IH]; [done|]. cbn in Hx. subst. exact IH. Qed.

(** The calls for the arguments up to the first that fails. *)
Definition until_failure (c : list Z -> call) (names : list (list Z)) (l : list (call * bool)) : Prop :=
  exists done_ rest, names = done_ ++ rest /\
    l = map (fun n => (c n, true)) done_ ++ match rest with [] => [] | n :: _ => [(c n, false)] end.

Lemma each_until_rule str c msg args : (forall n fd k bs, c n <> CWrite fd k bs) -> (forall n, c n <> CExit 0) -> (takes false (line msg) <= 1)%nat -> forall s,
  meets (fun _ s' => exists l, worked (hist s') = worked (hist s) ++ l /\ until_failure c (map str args) l /\ pending s' = pending s)
        (fun e s' => e = Sleep 0 /\ pending s' <> Some (CExit 0)) (each_until str c msg args s).
Proof.
  intros Hc Hx Hm. unfold each_until.
  assert (forall p a, (forall n fd k bs, c n <> CWrite fd k bs) -> worked [(c (str p), a)] = [(c (str p), 0 <=? i32 (a_ret a))]) as Hw.
  { intros p a H. unfold worked. cbn. specialize (H (str p)). destruct (c (str p)); try done. by destruct (H fd n bs). }
  induction args as [|p args IH]; intros s; apply meets_bind; cbn [for_until map].
  { cbn [ret meets]. exists []. rewrite app_nil_r. split_and!; [done | by exists [], [] | done]. }
  apply meets_bind. apply meets_bind, meets_sys.
  2: { intros _. split; [done|]. cbn [pending]. intros [= E]. by apply (Hx (str p)). }
  intros a r Ea. cbn beta. set (s1 := Ust r _ _). assert (worked (hist s1) = worked (hist s) ++ [(c (str p), 0 <=? i32 (a_ret a))]) as E1.
  { unfold s1. cbn [hist]. by rewrite worked_app, Hw. }
  destruct (Z.ltb_spec (i32 (a_ret a)) 0) as [Hn|Hp].
  - apply meets_bind. eapply meets_mono; [apply says; cbn [length]; lia | |]; cbn beta.
    + intros _ s2 [(evs & Eh & Hpr & _) Epd]. cbn [ret meets]. exists [(c (str p), false)]. split_and!.
      * rewrite Eh, worked_app, (worked_prints 2 evs Hpr), app_nil_r, E1. by rewrite (proj2 (Z.leb_gt _ _) Hn).
      * by exists [], (str p :: map str args).
      * done.
    + intros e s2 [-> (evs & x & _ & _ & Epd)]. split; [done|]. by rewrite Epd.
  - cbn [ret meets]. specialize (IH s1). unfold meets, bind in IH |- *. cbn beta in *.
    destruct (for_until args _ s1) as [o s2|e s2]; [|done]. destruct IH as (l & El & (d & rest & En & Ed) & Epd).
    exists ((c (str p), true) :: l). split_and!; [| |done].
    + rewrite El, E1, <- app_assoc. by rewrite (proj2 (Z.leb_le _ _) Hp).
    + exists (str p :: d), rest. rewrite En, Ed. done.
Qed.

(** rm removes the files in their order up to the first that cannot be removed,
    and mkdir makes directories in the same way; both exit with 0 all the same. *)
Theorem rm_mkdir_correct str argv ans : 1 < argc argv ->
  let post c := fun e s => e = Sleep 0 /\ (pending s = Some (CExit 0) -> until_failure c (map str (tail argv)) (worked (hist s))) in
  meets (fun _ _ => False) (post CUnlink) (rm_main str argv (Ust ans [] None)) /\
  meets (fun _ _ => False) (post CMkdir) (mkdir_main str argv (Ust ans [] None)).
Proof.
  intros Hn post. unfold rm_main, mkdir_main. destruct (Z.ltb_spec (argc argv) 2); [lia|].
  assert (forall c msg, (forall n fd k bs, c n <> CWrite fd k bs) -> (forall n, c n <> CExit 0) -> (takes false (line msg) <= 1)%nat ->
    meets (fun _ _ => False) (post c) ((each_until str c msg (tail argv) ;; @exit Z 0) (Ust ans [] None))) as H'.
  { intros c msg Hc Hc0 Hm. apply meets_bind. eapply meets_mono; [by apply each_until_rule | |]; cbn beta.
    - intros _ s (l & El & Hl & _). cbn [exit meets]. split; [done|]. intros _. cbn [hist]. rewrite El. exact Hl.
    - intros e s [-> Hp]. split; [done|]. intros Hx. by destruct Hp. }
  split; apply meets_bind; cbn [when ret meets]; apply H'; try done; vm_compute; lia.
Qed.
Lemma rm_mkdir_correct_witness :
  worked (hist match rm_main (fun p => if p =? 1 then bytes "a" else bytes "b") [0; 1; 2] (Ust (Ans 0 [] :: replicate 30 (Ans (-1) [])) [] None) with Ok _ s => s | Stop _ s => s end)
  = [(CUnlink (bytes "a"), true); (CUnlink (bytes "b"), false)] /\
  meets (fun _ _ => False) (fun e s => e = Sleep 0 /\ (pending s = Some (CExit 0) -> until_failure CUnlink [bytes "a"; bytes "b"] (worked (hist s))))
    (rm_main (fun p => if p =? 1 then bytes "a" else bytes "b") [0; 1; 2] (Ust (Ans 0 [] :: replicate 30 (Ans (-1) [])) [] None)).
Proof.
  split; [vm_compute; reflexivity|].
  exact (proj1 (rm_mkdir_correct (fun p => if p =? 1 then bytes "a" else bytes "b") [0; 1; 2] (Ans 0 [] :: replicate 30 (Ans (-1) [])) eq_refl)).
Defined.

(** rand stays within the 300 values from 150 on, so bursty sleeps between 150
    and 449 ticks. *)
Theorem rand_range r : 150 <= rand_value r <= 449 /\ 0 <= rand_next r < 2 ^ 64.
Proof.
  split; [|apply u64_range]. unfold rand_value. pose proof (Z.mod_pos_bound r 300). rewrite (u32_id (r mod 300)) by lia. rewrite u32_id; lia.
Qed.

(** ** touch, gets *)

(** touch of a file that has bytes already ends with an error: the descriptor
    it opened is only for reading. *)
Theorem touch_content_fails str p fd data w ans : 0 <= fd < 2 ^ 31 -> data <> [] -> Z.of_nat (length data) <= 512 ->
  i32 w <> Z.of_nat (length data) ->
  meets (fun _ _ => False) (fun e s => e = Sleep 0 /\ exists evs, Forall (prints 2) evs /\
      hist s = [(COpen (str p) O_CREATE, Ans fd []); (CRead fd 512, Ans 1 data);
                (CWrite fd (Z.of_nat (length data)) data, Ans w [])] ++ evs)
    (touch str p (Ust (Ans fd [] :: Ans 1 data :: Ans w [] :: ans) [] None)).
Proof.
  intros Hfd Hd Hl Hw. unfold touch. apply meets_bind. rewrite open_run, i32_id by lia. cbn [meets app].
  unfold uloop. cbn [answers length uloop_n]. apply meets_bind. unfold touch_body at 1.
  assert (0 < Z.of_nat (length data)) by (destruct data; [done | cbn [length]; lia]).
  assert (read_bytes 512 (Ans 1 data) = data) as Eb by (unfold read_bytes; cbn [a_ret a_data]; apply take_ge; lia).
  assert (read_ret 512 (Ans 1 data) = Z.of_nat (length data)) as Er by (unfold read_ret; rewrite Eb; done).
  apply meets_bind, meets_read; [|done]. intros a r [= <- <-]. cbn beta iota zeta. rewrite Er, Eb, u32_id by lia.
  destruct (Z.ltb_spec 0 (Z.of_nat (length data))); [|lia]. rewrite i32_id by lia. apply meets_bind. unfold write.
  rewrite Nat2Z.id, firstn_all. apply meets_sys; [|done]. intros a r [= <- <-]. cbn beta iota zeta.
  destruct (Z.eqb_spec (u32 (i32 (a_ret (Ans w [])))) (Z.of_nat (length data))) as [E|E]; cbn [negb].
  { destruct Hw. cbn [a_ret] in E. rewrite <- (u32_id (Z.of_nat (length data))) in E by lia. apply u32_inj_i32 in E.
    rewrite i32_i32, (i32_id (Z.of_nat (length data))) in E by lia. exact E. }
  apply fails; [reflexivity|]. intros s' evs c Eh Hp _ _. split; [done|]. exists evs. split; [done|]. rewrite Eh. done.
Qed.
Lemma touch_content_fails_witness : meets (fun _ _ => False) (fun e s => e = Sleep 0 /\ exists evs, Forall (prints 2) evs /\
      hist s = [(COpen (bytes "f") O_CREATE, Ans 3 []); (CRead 3 512, Ans 1 (bytes "hi")); (CWrite 3 2 (bytes "hi"), Ans (-1) [])] ++ evs)
    (touch (fun _ => bytes "f") 1 (Ust (Ans 3 [] :: Ans 1 (bytes "hi") :: Ans (-1) [] :: replicate 30 (Ans 1 [])) [] None)).
Proof. apply (touch_content_fails (fun _ => bytes "f") 1 3 (bytes "hi") (-1)); vm_compute; intuition discriminate. Defined.

(** One character of the input at a time. *)
Definition typed (l : list Z) : list answer := map (fun c => Ans 1 [c]) l.
Definition is_end (c : Z) : bool := (c =? 10) || (c =? 13).

Lemma ugets_turn max b c l h p : Z.of_nat (length b) + 1 < max ->
  ugets_body max b (Ust (Ans 1 [c] :: l) h p) =
  Ok (if is_end c then inr (b ++ [c]) else inl (b ++ [c])) (Ust l (h ++ [(CRead 0 1, Ans 1 [c])]) p).
Proof. intros Hm. unfold ugets_body. destruct (Z.ltb_spec (Z.of_nat (length b) + 1) max); [done | lia]. Qed.
Lemma ugets_loop max l e : (forall c, c ∈ l -> is_end c = false) -> is_end e = true -> forall n b h p rest,
  (length l < n)%nat -> Z.of_nat (length b + length l) + 1 < max -> exists h',
  uloop_n n (ugets_body max) b (Ust (typed (l ++ [e]) ++ rest) h p) = Ok (b ++ l ++ [e]) (Ust rest (h ++ h') p).
Proof.
  intros Hl He. induction l as [|c l IH]; intros [|n] b h p rest Hn Hm; cbn [length] in *; try lia; cbn [app typed map uloop_n];
    rewrite (bind_run _ _ _ _ _ (ugets_turn max b _ _ _ _ ltac:(lia))).
  - rewrite He. by eexists.
  - rewrite Hl by left. destruct (IH ltac:(intros; apply Hl; by right) n (b ++ [c]) (h ++ [(CRead 0 1, Ans 1 [c])]) p rest) as [h' E];
      [lia | rewrite length_app; cbn [length]; lia|].
    exists ((CRead 0 1, Ans 1 [c]) :: h'). unfold typed in E. rewrite E, <- !app_assoc. done.
Qed.

(** gets returns a line with its end, however slowly it is typed, and leaves
    what follows to the next call. *)
Theorem ugets_line max l e rest : (forall c, c ∈ l -> is_end c = false) -> is_end e = true -> Z.of_nat (length l) + 1 < max ->
  exists h, ugets max (Ust (typed (l ++ [e]) ++ rest) [] None) = Ok (l ++ [e]) (Ust rest h None).
Proof.
  intros Hl He Hm. destruct (ugets_loop max l e Hl He (S (length (typed (l ++ [e]) ++ rest))) [] [] None rest) as [h E].
  - unfold typed. rewrite length_app, length_map, length_app. lia.
  - cbn. lia.
  - by exists h.
Qed.
