(* ===== verification/Mkvault.v ===== *)
(** * user/mkvault.c: snprintf, mav and the program

    Over the system calls of [Usys]. The output buffer of snprintf is the list
    of the bytes stored so far, its length being dest_index; a store through a
    null pointer is a fault. The tracing printf calls of the source are part of
    the model. [str] gives the string at an address; [junk] is what the stack
    held behind the bytes read into [input]. The recursion of snprintf for %d
    runs on fuel. *)

From stdpp Require Import base gmap list strings.
From Stdlib Require Import ZArith Lia.
From S2P Require Import Prelude Bytes Sysfile Shell Printf Usys Tools Toolsok.

Section mkvault.
Context (str : Z -> list Z).

(** dest[dest_index++] = ... *)
Definition put_dest (dest : Z) (out bs : list Z) : M ust (list Z) :=
  if dest =? 0 then fault "snprintf: null" else ret (out ++ bs).

Section loop.
Context (rec : Z -> Z -> Z -> list Z -> list Z -> M ust (list Z * Z)) (pct_d : Z) (dest n : Z).

(** The while loop, from the rest of the format. *)
Fixpoint snprintf_loop (fmt args out : list Z) (chars_written : Z) : M ust (list Z * Z) :=
  match fmt with
  | [] => ret (out, chars_written)
  | c :: fmt =>
      if negb (Z.of_nat (length out) <? u64 (n - 1)) then ret (out, chars_written)
      else if c =? 37 then
        match fmt with
        | [] => fault "snprintf: past the format"
        | c :: fmt =>
            uprintf str (line "format[arg_index] is: %c") [c] ;;
            if c =? 100 then
              match args with
              | [] => fault "va_arg"
              | w :: args =>
                  let arg := i32 w in
                  uprintf str (line "Handling %%d with value: %d") [arg] ;;
                  let* (_, digits) := rec 0 0 pct_d (bytes "%d") [arg] in
                  if u64 (Z.of_nat (length out) + digits) <? u64 (n - 1) then
                    let* (bs, k) := rec (dest + Z.of_nat (length out)) (u64 (n - Z.of_nat (length out))) pct_d (bytes "%d") [arg] in
                    snprintf_loop fmt args (out ++ take (Z.to_nat k) bs) (i32 (chars_written + digits))
                  else
                    uprintf str (line "Not enough space for integer") [] ;;
                    ret (out, chars_written)
              end
            else if c =? 115 then
              match args with
              | [] => fault "va_arg"
              | str_arg :: args =>
                  uprintf str (line "Handling %%s with value: %s") [str_arg] ;;
                  let bs := take (Z.to_nat (u64 (n - 1)) - length out) (str str_arg) in
                  let* out := put_dest dest out bs in
                  snprintf_loop fmt args out (i32 (chars_written + Z.of_nat (length bs)))
              end
            else snprintf_loop fmt args out chars_written
        end
      else
        uprintf str (line "Copying character: %c") [c] ;;
        let* out := put_dest dest out [c] in
        snprintf_loop fmt args out (i32 (chars_written + 1))
  end.
End loop.

(** The bytes before the NUL, and the value. [fmtp] is the address of [fmt],
    [pct_d] that of the format of the inner calls. *)
Fixpoint snprintf (fuel : nat) (pct_d dest n fmtp : Z) (fmt args : list Z) : M ust (list Z * Z) :=
  match fuel with
  | O => halt NoFuel
  | S fuel =>
      uprintf str (line "snprintf called with dest: %p, n: %zu, format: %s") [dest; n; fmtp] ;;
      let* (out, chars_written) := snprintf_loop (snprintf fuel pct_d) pct_d dest n fmt args [] 0 in
      let* _ := put_dest dest out [] in
      uprintf (fun p => if p =? dest then out else str p) (line "snprintf finished with dest: %s, chars_written: %d")
        [dest; chars_written] ;;
      ret (out, chars_written)
  end.

(** mav: the value MARKED is set to. [lit] is the address of the format,
    [marker_path] that of the local buffer. *)
Definition vault_fmt : list Z := bytes "%s/.vault".
Definition mav (pct_d lit marker_path path : Z) : M ust Z :=
  let* (name, _) := snprintf 1 pct_d marker_path 512 lit vault_fmt [path] in
  let* fd := open name (Z.lor O_CREATE O_RDWR) in
  if fd <? 0 then ret (-1)
  else
    fprintf str 1 (line "Marked %s as vault") [path] ;;
    close fd ;;
    ret 1.

(** The key of the bytes read: the newline becomes a NUL; a string without one
    goes on into what is behind it. *)
Definition set_nul (b : list Z) : list Z :=
  match list_find (eq 10) b with Some (i, _) => <[i := 0]> b | None => b end.
Definition key_of (junk input : list Z) : option Z :=
  let b := set_nul input in
  let key := atoi (b ++ junk) in
  if (key =? 0) && negb (char_at b 0 =? 48) then None else Some key.

(** main; [mkv] is what malloc returned. The value is the key stored in it. *)
Definition mkvault_main (mkv pct_d lit marker_path : Z) (junk : list Z) (argv : list Z) : M ust Z :=
  when (negb (argc argv =? 2)) (fprintf str 2 (line "Usage: mkvault name_of_directory ") [] ;; exit 1) ;;
  when (mkv =? 0) (fault "mkvault: null") ;;
  let* r := sys (CMkvault (str (arg argv 1))) in
  (if r =? -1 then exit (-1)
   else
     uprintf str (line "Directory does not exist... creating one...") [] ;;
     let* _ := sys (CMkdir (str (arg argv 1))) in ret tt) ;;
  let* marked := mav pct_d lit marker_path (arg argv 1) in
  when (marked =? -1) (uprintf str (line "Couldn't mark the directory") [] ;; exit (-1)) ;;
  uprintf str (line "Directory marked as vault successfully!") [] ;;
  fprintf str 1 (bytes "Enter a key: ") [] ;;
  let* (n, input) := read 0 100 in
  if 0 <? n then
    match key_of junk input with
    | None => fprintf str 1 (line "Invalid input. Please enter a valid integer.") [] ;; exit (-1)
    | Some key => ret key
    end
  else fprintf str 1 (line "Error reading input.") [] ;; exit (-1).

(** ** What a format without numbers stands for *)

Fixpoint expand (fmt args : list Z) : list Z :=
  match fmt with
  | [] => []
  | c :: fmt =>
      if c =? 37 then
        match fmt with
        | d :: fmt => if d =? 115 then match args with w :: args => str w ++ expand fmt args | [] => [] end else expand fmt args
        | [] => []
        end
      else c :: expand fmt args
  end.
(** No %d, no % at the end, and a string for each %s. *)
Fixpoint plain (fmt : list Z) (nargs : nat) : bool :=
  match fmt with
  | [] => true
  | c :: fmt =>
      if c =? 37 then
        match fmt with
        | d :: fmt =>
            if d =? 100 then false
            else if d =? 115 then match nargs with S k => plain fmt k | O => false end else plain fmt nargs
        | [] => false
        end
      else plain fmt nargs
  end.

End mkvault.

(** Returning with [Q], or waiting for the kernel. *)
Definition gives {A} (Q : A -> Prop) (r : res ust A) : Prop := meets (fun a _ => Q a) (fun e _ => e = Sleep 0) r.
Lemma gives_bind {A B} (P : A -> Prop) (Q : B -> Prop) (m : M ust A) (k : A -> M ust B) s :
  gives P (m s) -> (forall a s, P a -> gives Q (k a s)) -> gives Q (bind m k s).
Proof.
  intros Hm Hk. apply meets_bind. eapply meets_mono; [exact Hm | | done]. cbn beta. intros a s' Ha. by apply Hk.
Qed.
Lemma gives_print s0 fmt args s : (takes false fmt <= length args)%nat -> gives (fun _ => True) (uprintf s0 fmt args s).
Proof. intros H. eapply meets_mono; [by apply calm_fprintf | done | done]. Qed.
Ltac print := eapply gives_bind; [apply gives_print; vm_compute; lia|]; intros _ ? _.

Section props.
Context (str : Z -> list Z).

Lemma snprintf_loop_plain rec pct_d dest n : dest <> 0 -> 1 <= n < 2 ^ 31 -> forall len fmt, (length fmt <= len)%nat -> forall args out s,
  plain fmt (length args) = true -> (length out <= Z.to_nat (n - 1))%nat ->
  gives (fun r => r = (take (Z.to_nat (n - 1)) (out ++ expand str fmt args), Z.of_nat (length (take (Z.to_nat (n - 1)) (out ++ expand str fmt args)))))
    (snprintf_loop str rec pct_d dest n fmt args out (Z.of_nat (length out)) s).
Proof.
  intros Hd Hn. set (N := Z.to_nat (n - 1)).
  assert (u64 (n - 1) = Z.of_nat N) as EN by (unfold N; rewrite u64_id; lia).
  assert (Z.of_nat N < 2 ^ 31) as HN by (unfold N; lia).
  assert (forall out : list Z, (length out <= N)%nat -> gives (fun r => r = (take N (out ++ []), Z.of_nat (length (take N (out ++ []))))) (Ok (out, Z.of_nat (length out)) (Ust [] [] None))) as Hret.
  { intros out Ho. cbn. by rewrite app_nil_r, take_ge. }
  induction len as [|len IH]; intros fmt Hlen args out s Hp Ho; destruct fmt as [|c fmt]; try (cbn [length] in Hlen; lia); cbn [snprintf_loop expand plain] in *;
    try exact (Hret out Ho).
  rewrite EN. destruct (Z.ltb_spec (Z.of_nat (length out)) (Z.of_nat N)) as [Hlt|Hge]; cbn [negb].
  2: { cbn. assert (length out = N) as E by lia. rewrite (take_app_length' out) by done. done. }
  destruct (c =? 37).
  - destruct fmt as [|d fmt]; [done|]. print. destruct (d =? 100) eqn:E100; [done|]. destruct (d =? 115).
    + destruct args as [|w args]; [done|]. print. cbn zeta. rewrite Nat2Z.id. unfold put_dest.
      destruct (Z.eqb_spec dest 0); [done|]. unfold bind at 1. cbn [ret]. set (bs := take (N - length out) (str w)).
      assert (length bs <= N - length out)%nat by (unfold bs; rewrite length_take; lia).
      rewrite i32_id by lia. replace (Z.of_nat (length out) + Z.of_nat (length bs)) with (Z.of_nat (length (out ++ bs))) by (rewrite length_app; lia).
      replace (take N (out ++ str w ++ expand str fmt args)) with (take N ((out ++ bs) ++ expand str fmt args)).
      * apply IH; [cbn [length] in Hlen; lia | done | rewrite length_app; lia].
      * rewrite <- app_assoc, !take_app. rewrite (take_ge out) by lia. f_equal. unfold bs. rewrite take_take, Nat.min_id. f_equal.
        destruct (Nat.le_gt_cases (N - length out) (length (str w))).
        { rewrite length_take. replace (N - length out - (N - length out) `min` length (str w))%nat with O by lia.
          replace (N - length out - length (str w))%nat with O by lia. done. }
        { rewrite (take_ge (str w)) by lia. done. }
    + apply IH; [cbn [length] in Hlen; lia | done | done].
  - print. unfold put_dest. destruct (Z.eqb_spec dest 0); [done|]. unfold bind at 1. cbn [ret].
    rewrite i32_id by lia. replace (Z.of_nat (length out) + 1) with (Z.of_nat (length (out ++ [c]))) by (rewrite length_app; cbn; lia).
    change (c :: expand str fmt args) with ([c] ++ expand str fmt args). rewrite app_assoc. apply IH; [cbn [length] in Hlen; lia | done | rewrite length_app; cbn; lia].
Qed.
(** ** The properties *)

(** snprintf of a format with strings only stores its expansion, cut to the
    [n - 1] bytes the buffer has room for before the NUL, and returns the
    number of bytes stored (not, as the function it is named after, the length
    of the whole expansion). *)
Lemma snprintf_plain fuel pct_d dest n fmtp fmt args s : dest <> 0 -> 1 <= n < 2 ^ 31 -> plain fmt (length args) = true ->
  let out := take (Z.to_nat (n - 1)) (expand str fmt args) in
  gives (fun r => r = (out, Z.of_nat (length out))) (snprintf str (S fuel) pct_d dest n fmtp fmt args s).
Proof.
  intros Hd Hn Hp. cbn zeta. cbn [snprintf]. print. eapply gives_bind.
  - apply (snprintf_loop_plain (snprintf str fuel pct_d) pct_d dest n Hd Hn (length fmt) fmt (Nat.le_refl _) args []); [done | cbn; lia].
  - intros [out k] s' [= -> ->]. unfold put_dest. destruct (Z.eqb_spec dest 0); [done|]. unfold bind at 1. cbn [ret]. print. done.
Qed.

(** A %d never gets that far: the call for its digits begins with a call for its
    digits. *)
Lemma snprintf_d_never fuel : forall pct_d dest n fmtp args s, n <> 1 -> 0 <= n < 2 ^ 64 ->
  meets (fun _ _ => False) (fun e _ => e = Sleep 0 \/ e = NoFuel \/ e = Fault "va_arg")
    (snprintf str fuel pct_d dest n fmtp (bytes "%d") args s).
Proof.
  induction fuel as [|fuel IH]; intros pct_d dest n fmtp args s H1 Hn; [by right; left|]. cbn [snprintf].
  assert (forall A (m : M ust A) (P : ust -> Prop) (k : A -> M ust (list Z * Z)) s, gives (fun _ => True) (m s) ->
    (forall a s', meets (fun _ _ => False) (fun e _ => e = Sleep 0 \/ e = NoFuel \/ e = Fault "va_arg") (k a s')) ->
    meets (fun _ _ => False) (fun e _ => e = Sleep 0 \/ e = NoFuel \/ e = Fault "va_arg") (bind m k s)) as step.
  { intros A m P k s' Hm Hk. apply meets_bind. eapply meets_mono; [exact Hm | by intros; apply Hk | by left]. }
  apply (step _ _ (fun _ => True)); [apply gives_print; vm_compute; lia|]. intros _ s1. apply meets_bind.
  change (bytes "%d") with [37; 100] at 1. cbn [snprintf_loop length]. change (Z.of_nat 0) with 0.
  assert (0 < u64 (n - 1)) as Hpos.
  { destruct (decide (n = 0)) as [->|]; [vm_compute; done|]. rewrite u64_id; lia. }
  destruct (Z.ltb_spec 0 (u64 (n - 1))); [|lia]. cbn [negb]. change (37 =? 37) with true. cbn iota.
  eapply (meets_mono (fun _ _ => False)); [|intros ? ? []|intros ? ? H'; exact H']. apply (step _ _ (fun _ => True)); [apply gives_print; vm_compute; lia|]. intros _ s2.
  change (100 =? 100) with true. cbn iota. destruct args as [|w args]; [by right; right|]. cbv zeta.
  apply (step _ _ (fun _ => True)); [apply gives_print; vm_compute; lia|]. intros _ s3. apply meets_bind.
  eapply (meets_mono (fun _ _ => False)); [apply IH; lia | intros ? ? [] | intros ? ? H'; exact H'].
Qed.

(** Mkvault marks the directory by the file of its path followed by
    /.vault, cut to 511 bytes, which it opens for creation and reads and writes;
    and the snprintf it carries is right for strings only: a %d makes it call
    itself without end, whatever the buffer. *)
Theorem snprintf_correct fuel pct_d dest n fmtp fmt args path s : dest <> 0 -> 1 <= n < 2 ^ 31 -> plain fmt (length args) = true ->
  (let out := take (Z.to_nat (n - 1)) (expand str fmt args) in
   gives (fun r => r = (out, Z.of_nat (length out))) (snprintf str (S fuel) pct_d dest n fmtp fmt args s)) /\
  expand str vault_fmt [path] = str path ++ bytes "/.vault" /\
  (n <> 1 -> meets (fun _ _ => False) (fun e _ => e = Sleep 0 \/ e = NoFuel \/ e = Fault "va_arg")
     (snprintf str fuel pct_d dest n fmtp (bytes "%d") args s)).
Proof.
  intros Hd Hn Hp. split; [by apply snprintf_plain|]. split; [done|]. intros H1. apply snprintf_d_never; lia.
Qed.
End props.

Lemma snprintf_correct_witness :
  (exists s, snprintf (fun _ => bytes "v") 1 0 100 4 0 vault_fmt [7] (Ust (replicate 300 (Ans 1 [])) [] None) = Ok (bytes "v/.", 3) s) /\
  gives (fun r => r = (bytes "v/.", 3)) (snprintf (fun _ => bytes "v") 1 0 100 4 0 vault_fmt [7] (Ust (replicate 300 (Ans 1 [])) [] None)).
Proof.
  split; [eexists; vm_compute; reflexivity|].
  exact (proj1 (snprintf_correct (fun _ => bytes "v") 0 0 100 4 0 vault_fmt [7] 7 (Ust (replicate 300 (Ans 1 [])) [] None)
    ltac:(done) ltac:(lia) eq_refl)).
Defined.

(** The keys mkvault takes: a number at the beginning of the line. *)
Example key_reads : key_of [7] (bytes "42" ++ [10]) = Some 42 /\ key_of [7] (bytes "x1" ++ [10]) = None /\
  key_of [] (bytes "0" ++ [10]) = Some 0 /\ key_of (bytes "99") (bytes "4") = Some 499.
Proof. repeat split. Qed.
