(* ===== verification/Grepsys.v ===== *)
(** * user/grep.c: the program on system calls

    grep and main over [Usys], with the matcher and the search for lines of
    [Grep]. [held] is buf[0 .. m-1], the line that is not complete yet.

    The theorem: for every way the input is cut into reads, and whatever write
    answers, grep has written the matching lines of what it read. *)

From stdpp Require Import base gmap list strings.
From Stdlib Require Import ZArith Lia.
From S2P Require Import Prelude Grep Shell Printf Usys Tools Toolsok.

(** The inner loop: it writes the lines that match, and returns what is left
    from p on. Each turn drops a line, so the length of the buffer bounds it. *)
Fixpoint write_lines (fuel : nat) (pattern p : list Z) : M ust (list Z) :=
  match fuel with
  | O => ret p
  | S fuel =>
      match split_line p with
      | None => ret p
      | Some (l, rest) =>
          (if match_ pattern l then let* _ := Usys.write 1 (Z.of_nat (length l) + 1) (l ++ [ch_nl]) in ret tt else ret tt) ;;
          write_lines fuel pattern rest
      end
  end.
Definition ugrep_body (pattern : list Z) (fd : Z) (held : list Z) : M ust (list Z + unit) :=
  let* (n, b) := Usys.read fd (1024 - Z.of_nat (length held) - 1) in
  if 0 <? n then
    let* rest := write_lines (S (length (held ++ b))) pattern (held ++ b) in ret (inl rest)
  else ret (inr tt).
Definition ugrep (pattern : list Z) (fd : Z) : M ust unit := uloop (ugrep_body pattern fd) [].

Section main.
Context (str : Z -> list Z).
Definition grep_main (argv : list Z) : M ust Z :=
  when (argc argv <=? 1) (fprintf str 2 (line "usage: grep pattern [file ...]") [] ;; Usys.exit 1) ;;
  let pattern := str (arg argv 1) in
  when (argc argv <=? 2) (ugrep pattern 0 ;; Usys.exit 0) ;;
  for_each (drop 2 argv) (fun p =>
    let* fd := open (str p) 0 in
    if fd <? 0 then uprintf str (line "grep: cannot open %s") [p] ;; Usys.exit 1
    else ugrep pattern fd ;; close fd) ;;
  Usys.exit 0.
End main.

(** ** Lemmas *)

Definition wrote (e : call * answer) : Prop := exists n bs, fst e = CWrite 1 n bs.
Lemma wrote_received fd evs : Forall wrote evs -> received fd evs = [].
Proof. induction 1 as [|[c a] evs (n & bs & Hx) _ IH]; [done|]. cbn in Hx. subst. exact IH. Qed.

(** The calls of the inner loop write what [grep_lines] puts out. *)
Lemma write_lines_rule pattern fuel : forall p s,
  let out := (grep_lines fuel pattern p).1 in
  meets (fun rest s' => rest = (grep_lines fuel pattern p).2 /\ exists evs, hist s' = hist s ++ evs /\ Forall wrote evs /\
           sent 1 evs = out /\ pending s' = pending s /\ (length (answers s') <= length (answers s))%nat)
        (fun e s' => e = Sleep 0 /\ exists evs more c, hist s' = hist s ++ evs /\ Forall wrote evs /\ pending s' = Some c /\
           out = (sent 1 evs ++ sent1 1 c) ++ more)
        (write_lines fuel pattern p s).
Proof.
  induction fuel as [|fuel IH]; intros p s; cbn zeta; cbn [write_lines grep_lines].
  { split; [done|]. exists []. by rewrite app_nil_r. }
  destruct (split_line p) as [[l rest]|]; [|split; [done|]; exists []; by rewrite app_nil_r].
  specialize (IH rest). destruct (grep_lines fuel pattern rest) as [out p'] eqn:Eg. cbn [fst snd] in *.
  apply meets_bind. destruct (match_ pattern l); cbn [app].
  2: { cbn [ret meets]. eapply meets_mono; [apply IH | done | done]. }
  unfold Usys.write. replace (Z.to_nat (Z.of_nat (length l) + 1)) with (length (l ++ [ch_nl])) by (rewrite length_app; cbn; lia).
  rewrite firstn_all. apply meets_bind, meets_sys.
  - intros a r Ea. cbn beta. cbn [ret meets]. eapply meets_mono; [apply IH | |]; cbn beta; cbn [hist pending answers].
    + intros x s' (-> & evs & Eh & Hw & Es & Epd & Hl). split; [done|].
      exists ((CWrite 1 (Z.of_nat (length l) + 1) (l ++ [ch_nl]), a) :: evs). split_and!; [| | | done |].
      * by rewrite Eh, <- app_assoc.
      * constructor; [by do 2 eexists | done].
      * change (sent 1 ((CWrite 1 (Z.of_nat (length l) + 1) (l ++ [ch_nl]), a) :: evs)) with ((l ++ [ch_nl]) ++ sent 1 evs). by rewrite Es.
      * rewrite Ea. cbn [length]. lia.
    + intros e s' (-> & evs & more & c & Eh & Hw & Epd & Eo). split; [done|].
      exists ((CWrite 1 (Z.of_nat (length l) + 1) (l ++ [ch_nl]), a) :: evs), more, c. split_and!; [| | done |].
      * by rewrite Eh, <- app_assoc.
      * constructor; [by do 2 eexists | done].
      * change (sent 1 ((CWrite 1 (Z.of_nat (length l) + 1) (l ++ [ch_nl]), a) :: evs)) with ((l ++ [ch_nl]) ++ sent 1 evs).
        by rewrite Eo, <- !app_assoc.
  - intros _. split; [done|]. exists [], out, (CWrite 1 (Z.of_nat (length l) + 1) (l ++ [ch_nl])). by rewrite app_nil_r.
Qed.

(** Between two turns: the lines of what was read are written, but for the
    beginning of a line in the buffer. *)
Section loop.
Context (pattern : list Z) (fd : Z).
Definition grep_inv (held : list Z) (s : ust) : Prop :=
  pending s = None /\ (0 ∉ received fd (hist s) ->
    ch_nl ∉ held /\ (exists pre, received fd (hist s) = pre ++ held) /\
    forall q, matching_lines pattern (received fd (hist s) ++ q) = sent 1 (hist s) ++ matching_lines pattern (held ++ q)).
Definition grep_stops (e : stop) (s : ust) : Prop := e = Sleep 0 /\
  (0 ∉ received fd (hist s) -> exists more, matching_lines pattern (received fd (hist s)) = offered 1 s ++ more).

(** A buffer without a newline has no line. *)
Lemma no_line held : ch_nl ∉ held -> matching_lines pattern held = [].
Proof. intros H. unfold matching_lines, Grep.lines. by rewrite lines_from_tail. Qed.

Lemma grep_turn held s : grep_inv held s -> meets (fun r s' => match r with
    | inl h => (length (answers s') < length (answers s))%nat /\ grep_inv h s'
    | inr _ => exists h, grep_inv h s'
    end) grep_stops (ugrep_body pattern fd held s).
Proof.
  intros [Hp Hi]. apply meets_bind, meets_read.
  2: { intros _. split; [done|]. intros H0. cbn [hist] in *. destruct (Hi H0) as (Hh & _ & Hq). exists []. specialize (Hq []).
       rewrite !app_nil_r in Hq. rewrite Hq, no_line, offered_quiet by done. done. }
  set (k := 1024 - Z.of_nat (length held) - 1). intros a r Ea. cbn beta iota. destruct (Z.ltb_spec 0 (read_ret k a)) as [Hn|Hn].
  - set (s1 := Ust r _ _). set (b := read_bytes k a). assert (received fd (hist s1) = received fd (hist s) ++ b) as Er.
    { unfold s1. cbn [hist]. autorewrite with xv6. by rewrite received_read. }
    assert (sent 1 (hist s1) = sent 1 (hist s)) as Es1 by (unfold s1; cbn [hist]; autorewrite with xv6; cbn; by rewrite app_nil_r).
    assert (0 ∉ received fd (hist s1) -> 0 ∉ held ++ b /\ forall q,
      matching_lines pattern (received fd (hist s1) ++ q) = sent 1 (hist s) ++ matching_lines pattern ((held ++ b) ++ q)) as Hb.
    { rewrite Er. intros H0. rewrite elem_of_app in H0. destruct (Hi ltac:(tauto)) as (_ & [pre Epre] & Hq). split.
      - rewrite Epre, elem_of_app in H0. rewrite elem_of_app. tauto.
      - intros q. by rewrite <- !app_assoc, Hq. }
    apply meets_bind. eapply meets_mono; [apply write_lines_rule | |]; cbn beta;
      destruct (grep_lines (S (length (held ++ b))) pattern (held ++ b)) as [out rest] eqn:Eg; cbn [fst snd].
    + intros x s' (-> & evs & Eh & Hw & Es & Epd & Hl). cbn [ret meets]. split; [rewrite Ea; cbn in *; lia|]. split; [by rewrite Epd|].
      rewrite Eh. autorewrite with xv6. rewrite (wrote_received fd evs Hw), app_nil_r, Es. intros H0.
      destruct (Hb H0) as [H0' Hq]. destruct (grep_lines_spec _ _ _ _ _ H0' (Nat.lt_succ_diag_r _) Eg) as (Hnl & [pre Epre] & Hq').
      destruct (Hi ltac:(rewrite Er, elem_of_app in H0; tauto)) as (_ & [pre0 Epre0] & _).
      split_and!; [done | exists (pre0 ++ pre); by rewrite Er, Epre0, <- !app_assoc, Epre |].
      intros q. rewrite Hq, Es1, (proj1 (Hq' q)). by rewrite app_assoc.
    + intros e s' (-> & evs & more & c & Eh & Hw & Epd & Eo). split; [done|]. rewrite Eh. autorewrite with xv6.
      rewrite (wrote_received fd evs Hw), app_nil_r. intros H0. destruct (Hb H0) as [H0' Hq].
      destruct (grep_lines_spec _ _ _ _ _ H0' (Nat.lt_succ_diag_r _) Eg) as (_ & _ & Hq'). exists (more ++ matching_lines pattern rest).
      specialize (Hq []). destruct (Hq' []) as [Hq0 _]. rewrite !app_nil_r in Hq, Hq0. rewrite Hq, Hq0, Eo.
      unfold offered. rewrite Eh, Epd. autorewrite with xv6. rewrite Es1. by rewrite <- !app_assoc.
  - cbn [ret meets]. exists held. split; [done|]. cbn [hist]. autorewrite with xv6. rewrite received_read, read_bytes_none by done.
    cbn [sent1]. rewrite !app_nil_r. exact Hi.
Qed.
End loop.

(** ** The property *)

(** C10: grep on system calls. Whatever the reads return and the writes answer,
    as long as no NUL is read: when grep returns, it has written exactly the
    lines of the bytes it read that match the pattern, in order; and when it
    stops at a call that is not answered, it has offered a beginning of them. *)
Theorem grep_program_correct pattern fd ans :
  meets (fun _ s => 0 ∉ received fd (hist s) -> sent 1 (hist s) = matching_lines pattern (received fd (hist s)))
        (grep_stops pattern fd) (ugrep pattern fd (Ust ans [] None)).
Proof.
  eapply meets_mono; [apply (uloop_rule _ (grep_inv pattern fd)); [by apply grep_turn|] | | done].
  - split; [done|]. intros _. split; [apply not_elem_of_nil|]. split; [by exists []|]. done.
  - intros _ s [held [Hp Hi]] H0. destruct (Hi H0) as (Hh & _ & Hq). specialize (Hq []). rewrite !app_nil_r in Hq.
    by rewrite Hq, no_line, app_nil_r.
Qed.

(** main faults as little as the other programs. *)
Lemma calm_write_lines pattern fuel : forall p, calm 0 (write_lines fuel pattern p).
Proof.
  induction fuel as [|fuel IH]; intros p; cbn [write_lines]; [apply calm_ret|].
  destruct (split_line p) as [[l rest]|]; [|apply calm_ret]. apply calm_bind; [|intros _; apply IH].
  destruct (match_ pattern l); [|apply calm_ret]. eapply calm_bind; [eapply calm_weaken, calm_sys|]. intros _. apply calm_ret.
Qed.
#[local] Opaque write_lines.
Theorem grep_main_never_faults str argv : calm 0 (grep_main str argv).
Proof. unfold grep_main. cbv zeta. calm; auto using calm_write_lines. Qed.
